(* ===== verification/_CoqProject ===== *)
-Q . S2P
Prelude.v
Keeps.v
Json.v
Text.v
OrtcValidate.v
OrtcValidateSpec.v
H264.v
Utils.v
OrtcCaps.v
OrtcMatch.v
OrtcExtended.v
OrtcDerive.v
MediaSection.v
MediaSectionSpec.v
Regex.v
Grammar.v
SdpWrite.v
SdpParse.v
Rounding.v
Grisu.v
JsonText.v
JsonTextSpec.v
JsonReadSpec.v
JsonWriteSpec.v
GrisuSpec.v
GrisuText.v
JsonRoundTrip.v
SdpDump.v
SdpSpec.v
SdpUtils.v
SdpUtilsSpec.v
RemoteSdp.v
RemoteSdpSpec.v
WebRtc.v
PeerConnection.v
Producer.v
Consumer.v
Handler.v
Transport.v
Device.v
Sample.v
Preserve.v
HandlerSpec.v
TransportSpec.v
ProduceSpec.v
DeviceSpec.v
ConsumeSpec.v
Java.v
RtmpUtil.v
Amf.v
AmfSpec.v
RtmpPacket.v
RtmpPacketSpec.v
RtmpHandshake.v
RtmpConnection.v
RtmpConnectionSpec.v
Allocator.v
FlvMuxer.v
FlvMuxerSpec.v
FlvStreamSpec.v
Protoo.v
ProtooSpec.v
RoomStore.v
RoomClient.v
RoomSpec.v
RoomLifeSpec.v
