(* ===== verification/Prelude.v ===== *)
(** * The mediasoup demo for Android: a verification development

    The program is a video room and live streaming application.  Three of its
    parts are modelled.

    - The media core: libmediasoupclient, a C++ library under
      src/mediasoup-client/deps/libmediasoupclient, with libsdptransform and
      nlohmann's json.hpp bundled in its deps, on top of libwebrtc, whose
      sources are under src/mediasoup-client/deps/webrtc/src.
    - The room: the protoo signalling client (src/protoo-client) and, of
      src/mediasoupdemo, its WebSocket transport, the room client and the store
      that the user interface shows.
    - The live stream: yasea's FLV muxer and the RTMP client simplertmp, under
      src/library/src/main/java.

    Paths of C++ files below are relative to libmediasoupclient, or to
    deps/webrtc/src for webrtc's files.

    ** Parts of the program and how they interact

    Media core.  The application loads a Device with the router's capabilities
    and creates transports with it (src/Device.cpp).  The device validates what
    it is given (src/ortc.cpp) and negotiates codecs (src/ortc.cpp, with
    webrtc's H.264 functions).  A transport (src/Transport.cpp) creates
    producers or consumers (src/Producer.cpp, src/Consumer.cpp), is their
    private listener, and has a handler (src/Handler.cpp), whose listener it is
    too.  A handler has one connection of libwebrtc, wrapped by
    src/PeerConnection.cpp, and a remote description (src/sdp/RemoteSdp.cpp)
    made of media sections (src/sdp/MediaSection.cpp).  The description is
    printed by libsdptransform and handed to libwebrtc; the local description
    that libwebrtc returns is parsed by libsdptransform and read by
    src/sdp/Utils.cpp.  At the border to Java every value is a JSON text, which
    json.hpp reads and writes.

    Room.  A RoomClient (RoomClient.java, with the notifications in
    RoomMessageHandler.java) posts its work to one worker thread.  It asks the
    server through a protoo Peer (Peer.java, Message.java), which pairs
    responses with requests and has a timer for each, over a WebSocketTransport
    that connects again when the connection is lost.  What it learns goes into
    the RoomStore.

    Live stream.  SrsFlvMuxer.java takes encoded samples from the encoder's
    threads, makes FLV tags of them in arrays of the SrsAllocator, and queues
    them for a worker thread, which sends them on an RtmpConnection.  The
    connection does the handshake (Handshake.java), exchanges commands in the
    AMF0 encoding (amf/), and splits messages into chunks (packets/); a
    receiving thread puts the chunks of the server together (io/RtmpDecoder.java)
    and answers.

    ** How the code is modelled

    A call has an [outcome]: it returns ([Ok]), throws ([Throw], with the class
    of the exception), or is undefined ([Undef]).  In C++ undefined is a missing
    key read through a const reference, an index past the end, a dereferenced
    [end()], a write outside of an array, a float out of range of the integer it
    is converted to; in Java, where all of these throw, it is a loop or a wait
    that never ends.  Code that changes an object is a computation [M S A] on
    that object; the object keeps its changes when the code throws.  Values of
    type nlohmann::json are the inductive type [json], whose objects are lists
    ordered by key as std::map iterates; reading through a non-const reference
    inserts a null as the library does.  Integers are Z with the conversions to
    a width written out: [get<T>()] in C++, the narrowing of Java's int, long
    and byte.  Floats are the standard library's spec_float; in the RTMP code,
    which only copies them, doubles are bit patterns.

    Objects that call each other back are composed by their states: a handler's
    methods are computations on the pair of its listener's state and its own,
    a producer's on the transport and the producer, and the listener is a
    typeclass ([HandlerListener], [ProducerListener], [ConsumerListener]) that
    the transport implements.  Pointers and references to shared objects are
    numbers: of tracks and transceivers in [native], the state of one
    connection, of producers and consumers in the [heap] of their transport, of
    arrays in the allocator.  Threads are steps: what a thread does between two
    points at which it waits is one step, and the theorems are about all orders
    of steps.

    What is not in the sources is a parameter: what libwebrtc does behind a
    connection is the class [Engine], which may answer anything and change every
    object; the application is the class [Application]; the server and the
    native calls of the room are the class [Env]; org.json is [OrgJson]; the
    HMAC of javax.crypto, the clock, random numbers, sockets and okhttp's web
    sockets are arguments or recorded calls.

    ** Files

    - Prelude.v (this file): outcomes, the monad, loops, weakest preconditions.
      Keeps.v: what a computation keeps on every way it can end.
    - Json.v: the values of deps/libsdptransform/include/json.hpp, as far as
      they are used.  JsonText.v: its text, in the Modules [Lexer], [Parser] and
      [Serializer].  JsonTextSpec.v: the parser returns.  JsonReadSpec.v: a
      grammar of JSON texts, and that the parser reads it.  JsonWriteSpec.v:
      integers and strings of the serializer.  JsonRoundTrip.v: what is dumped
      is parsed back.
    - Grisu.v: the text of doubles in json.hpp, with the Grisu2 algorithm
      (Module [dtoa_impl]).  Rounding.v: the values that round to a double,
      over the real numbers of the standard library.  GrisuSpec.v: the decimal
      that Grisu2 finds is such a value.  GrisuText.v: its text.
    - Text.v: character functions and the constant regular expressions of
      ortc.cpp.
    - OrtcValidate.v: the nineteen validators of ortc.cpp.
      OrtcValidateSpec.v: the normal form of each, and that the validators
      establish it, are idempotent and preserve well-formedness.
    - H264.v: webrtc's media/base/h264_profile_level_id, definitions and theorems.
    - Utils.v: include/Utils.hpp (split, join), src/scalabilityMode.cpp, and
      the number conversions of the standard library.
    - OrtcCaps.v: codec matching, extended, receiving and sending capabilities,
      probator parameters, canSend and canReceive of ortc.cpp.
      OrtcMatch.v: [matchCodecs] decides equality of formats.
      OrtcExtended.v: [getExtendedRtpCapabilities], which mutates both codec
      lists while it searches them, computes a pure selection.
      OrtcDerive.v: what is derived from it passes the validators again.
    - MediaSection.v: src/sdp/MediaSection.cpp.  MediaSectionSpec.v: the life
      cycle of a section and what the two constructors produce.
    - Regex.v: regular expressions with the backtracking matcher.
      Grammar.v: libsdptransform's src/grammar.cpp, one definition per rule.
      SdpWrite.v and SdpParse.v: its writer.cpp and parser.cpp.
      SdpDump.v: what is no string is printed by json.hpp's serializer.
      SdpSpec.v: parsing returns for every text, and what was parsed can be
      printed.
    - SdpUtils.v: src/sdp/Utils.cpp.  SdpUtilsSpec.v: encodings, simulcast,
      DTLS parameters and capabilities read from a session.
    - RemoteSdp.v: src/sdp/RemoteSdp.cpp.  RemoteSdpSpec.v: the refinement.
    - WebRtc.v: tracks, RTP senders and transceivers of libwebrtc
      (pc/rtp_sender.cc, pc/rtp_transceiver.cc, media/base/media_engine.cc and
      the operations of pc/peer_connection.cc on them), and the class [Engine].
    - PeerConnection.v, Producer.v, Consumer.v, Handler.v (Modules [SendHandler]
      and [RecvHandler]), Transport.v ([SendTransport] and [RecvTransport]) and
      Device.v: the files of src/ of the same names.
    - Sample.v: a concrete engine, factory and application, with
      which the hypotheses of the theorems are shown to be satisfiable.
    - Preserve.v: what the operations of a transport keep.
      HandlerSpec.v: the handlers implement the abstract description (Modules
      [Sending] and [Receiving]).  TransportSpec.v: sessions of a send
      transport.  ProduceSpec.v, ConsumeSpec.v and DeviceSpec.v: the calls of
      the application from the transport or device down to libwebrtc.
    - Java.v: integers, doubles and streams of Java.  RtmpUtil.v: Util.java.
      Amf.v and AmfSpec.v: the classes of amf/.  RtmpPacket.v and
      RtmpPacketSpec.v: those of packets/, with RtmpDecoder, RtmpSessionInfo and
      ChunkStreamInfo.  RtmpHandshake.v: Handshake.java and Crypto.java.
      RtmpConnection.v and RtmpConnectionSpec.v: RtmpConnection.java.
    - Allocator.v: SrsAllocator.java.  FlvMuxer.v: SrsFlvMuxer.java with its
      threads.  FlvMuxerSpec.v: the steps and their invariant.  FlvStreamSpec.v:
      from samples to the server.
    - Protoo.v and ProtooSpec.v: the classes of src/protoo-client, and
      WebSocketTransport.java.
    - RoomStore.v: the classes of model/ and RoomStore.java.  RoomClient.v:
      RoomMessageHandler.java and RoomClient.java.  RoomSpec.v and
      RoomLifeSpec.v: their theorems.

    ** What the theorems show

    - Refinement.  [remote_sdp_refines]: through every sequence of operations
      that the abstract description (mids, open or closed, and a version)
      allows, the remote description neither throws nor is undefined, and its
      index map, media array, BUNDLE line, first section and version are those
      of the abstract one.  [extended_capabilities_correct]: the mutating
      negotiation computes the selection of the first local codec of the same
      format for each remote codec, with paired RTX codecs.  [send_refines],
      [stop_sending_refines], [restart_ice_refines], [receive_refines] and
      [stop_receiving_refines]: the handlers' operations are those of the
      abstract description, given a negotiation that succeeds.
      [chunks_reassembled] and [queued_tag_received]: the RTMP decoder returns
      the messages whose chunks arrive interleaved, and a tag in the muxer's
      queue is such a message at the server.
    - Sessions and threads.  [send_session_correct] is an invariant of all
      sequences of calls on a send transport and its producers, whatever
      libwebrtc and the application answer, exceptions included; of the
      application it assumes that the server's ids for producers are new and
      that the listeners of producers return when they are told of the closing.
      [close_closes_everything] shows that closing returns from every state
      reached, and [closed_transport_inert] that nothing happens afterwards.
      [connection_invariant], [flv_sent_in_order], [requests_settled] and
      [consumers_tracked] are invariants of the RTMP connection, the muxer, the
      signalling client and the room in any order of their steps;
      [media_only_after_start] and [audio_only_enforced] follow from them.
    - Composition.  [produce_composes], [refused_produce_closes_section],
      [consume_composes], [device_load_correct] and
      [device_creates_send_transport] follow a call through all components, and
      [stream_established], [request_answered] and [room_released] an exchange
      with the server to its end.
    - Equivalence.  [max_spatial_layer_reference]: the cases of
      SetMaxSpatialLayer against one rule, down to libwebrtc's sender.
    - Types and invariants.  [validators_normalise], [validators_idempotent],
      [validators_preserve_wf], [section_lifecycle].
    - Functional correctness.  Derived capabilities and parameters
      ([recv_capabilities_valid], [sending_parameters_valid],
      [remote_parameters_one_congestion_control], [probator_parameters_valid]);
      sections ([offer_section_correct], [answer_section_correct]); closing,
      reuse and ICE restarts of the description; simulcast; the answer's
      profile-level-id; JSON texts ([json_grammar_parsed]); the tags of samples
      ([slice_tagged], [parameter_sets_tagged]); the digest of the handshake
      ([c1_digest_verifies]).
    - Totality and bounds.  [parse_total], [parsed_is_writable],
      [json_parse_returns], [escaping_in_bounds] and [decoder_returns] have no
      hypotheses; [receiving_thread_ends] and [reconnection_bounded].
    - Round trips.  JSON text ([json_text_roundtrip]), the decimals of doubles
      ([double_text_roundtrip]), AMF0 ([amf_roundtrip]),
      packets ([packet_roundtrip]), profile-level-ids, payload lines, encodings,
      DTLS parameters.
    - Errors.  Theorems named after a defect show what the code does where it
      does not do what it means to, for instance [close_unknown_mid_closes_first],
      [ice_lite_always_announced], [network_id_lost],
      [capabilities_reading_gaps], [rtx_without_apt_undefined],
      [unsupported_kind_fails_late], [failed_receive_keeps_section],
      [stopped_sender_stays_send_only], [changed_sps_not_sent] and
      [requests_lost].

    ** Bounds and fuel

    All definitions are total.  Fuel is needed where a loop is not structural,
    and running out of it is [Undef], which the theorems exclude.

    - A repetition in [Regex.star_loop] has the length of the remaining text,
      which is enough because every further round must consume a character.
    - The JSON lexer's loops have two more than the bytes that are left, and the
      parser's two more than the text; [json_parse_returns] shows that this is
      enough.  Escaping reads each byte at most twice.  A 64-bit integer has at
      most 20 digits.
    - Grisu2 shifts a significand at most 63 times, lowers a digit at most nine
      times and finds at most 17 digits of a fraction; [double_text_roundtrip]
      shows that this is enough.
    - The RTMP decoder and the AMF0 decoder have the length of their input.
    - [print_positive] looks for the decimal exponent of a float among -46 to
      39, which contains those of all finite floats of 32 bits.

    ** Assumptions and simplifications

    - Printing of floats, arrays and objects in a session description is the
      parameter [JsonDump] of the writer, so that the exception of the
      serializer for text that is not UTF-8 does not reach it.  With the
      serializer of JsonText.v as the parameter the writer prints exactly what
      the serializer gives, for all values that it does not throw for
      ([writer_prints_serialized]).  The texts and positions of the errors of the
      JSON parser are not kept.
    - [long] has 64 bits; text is read as a floating-point number if it is
      decimal, and the decimal point of the locale is a point.  Captures inside
      a repetition do not occur in the grammar.
    - The text that std::regex_match has matched in ortc.cpp is taken as still
      readable, although it is a destroyed temporary.
    - MediaSection.v does not record the nulls that reading the answer
      parameters through non-const references adds to them.
    - Sequences in [remote_sdp_refines] have audio and video sections, as the
      handlers for producers and consumers create; data channel sections are
      modelled but not part of the sequences.
    - Calls into libwebrtc are synchronous: waiting for a future or an observer
      is a call that returns or throws, and one call of the application ends
      before the next begins.  Listeners do not call back into the object that
      calls them, and libwebrtc reports state changes between calls.
    - Of a connection's configuration only the ICE servers are kept.  A random
      identifier is a counter's next value.  Reading the mid of a transceiver
      that has none is undefined, as it is for the optional that holds it.
    - The order in which a std::unordered_map is walked is that of the map's
      elements in the model; no theorem depends on it.
    - Of Java, assertions are not enabled, as on Android; a step of a thread is
      not interrupted by another thread, and RtmpConnection's waits are where
      [connect] and [publish] are split in two.  Whether writing to a socket
      fails is an argument; nothing of a failed write is kept.  A codec's buffer
      holds the sample from its position 0 on.
    - The room's store applies changes at once; observers are not modelled.

    ** What is not modelled

    Of libwebrtc, the making and applying of session descriptions, the media
    channels, the network and the statistics: they are asynchronous code of
    several threads, and the client sees of them what [Engine] has.  Of
    json.hpp, the binary formats, JSON pointers and patches, parsing with a
    callback and iterators, which nothing calls.  Of include/Utils.hpp, the
    random strings and numbers, and conversions that nothing calls.  Of the
    live stream, the encoder, the publisher, the MP4 muxer and the camera: they
    are threads around Android's codecs, microphone, camera and OpenGL.
    Logging, the JNI bindings, the user interface, image filters and native
    codecs, the bundled avs library, the tests and the build scripts are input
    and output, user interface or third-party code that the modelled functions
    do not call. *)

From stdpp Require Import base list gmap strings pretty.
From Stdlib Require Import ZArith Lia.

(** ** Exceptions and outcomes

    A C++ call returns normally, throws, or runs into undefined behaviour.
    [exn] names the exception classes of MediaSoupClientErrors.hpp and those
    the JSON library and the C++ standard library throw.  Java code throws
    [Java]; for it, [Undef] below is a call that never returns. *)

Inductive java_exception :=
| IOException (msg : string)
| EOFException (msg : string)
| SocketException (msg : string)
| NullPointerException
| IllegalArgumentException (msg : string)
| IllegalStateException (msg : string)
| UnsupportedOperationException (msg : string)
| ClassCastException
| IndexOutOfBoundsException
| NegativeArraySizeException
| BufferUnderflowException
| NumberFormatException
| JSONException (msg : string)
| ProtooException (error : Z) (msg : string)
| MediasoupException (msg : string).

#[global] Instance java_exception_eq_dec : EqDecision java_exception.
Proof. solve_decision. Defined.

Inductive exn :=
| MediaSoupClientError (msg : string)
| MediaSoupClientTypeError (msg : string)
| MediaSoupClientUnsupportedError (msg : string)
| MediaSoupClientInvalidStateError (msg : string)
| JsonTypeError (id : Z)
| JsonOutOfRange (id : Z)
| JsonParseError (id : Z)
| StdInvalidArgument
| StdOutOfRange
| Java (e : java_exception).

#[global] Instance exn_eq_dec : EqDecision exn.
Proof. solve_decision. Defined.

(** [catch (MediaSoupClientError&)]: the class and its three subclasses. *)
Definition is_msc_error (e : exn) : bool :=
  match e with
  | MediaSoupClientError _ | MediaSoupClientTypeError _
  | MediaSoupClientUnsupportedError _ | MediaSoupClientInvalidStateError _ => true
  | _ => false
  end.

Definition is_type_error (e : exn) : bool :=
  match e with MediaSoupClientTypeError _ => true | _ => false end.

(** [catch (std::runtime_error&)]: only the client's own classes derive from
    it; nlohmann's exceptions and the two [std::logic_error]s do not. *)
Definition is_runtime_error (e : exn) : bool := is_msc_error e.

Inductive outcome (A : Type) :=
| Ok (a : A)
| Throw (e : exn)
| Undef.
Arguments Ok {_} _.
Arguments Throw {_} _.
Arguments Undef {_}.

#[global] Instance outcome_eq_dec `{EqDecision A} : EqDecision (outcome A).
Proof. solve_decision. Defined.

(** ** The state and exception monad

    The state survives a throw, as a C++ object passed by reference does. *)

Definition M (S A : Type) : Type := S -> outcome A * S.

Definition ret {S A} (a : A) : M S A := fun s => (Ok a, s).
Definition bind {S A B} (m : M S A) (k : A -> M S B) : M S B := fun s =>
  match m s with
  | (Ok a, s') => k a s'
  | (Throw e, s') => (Throw e, s')
  | (Undef, s') => (Undef, s')
  end.
Definition throw {S A} (e : exn) : M S A := fun s => (Throw e, s).
Definition undef {S A} : M S A := fun s => (Undef, s).
Definition get {S} : M S S := fun s => (Ok s, s).
Definition put {S} (s : S) : M S unit := fun _ => (Ok tt, s).
Definition modify {S} (f : S -> S) : M S unit := fun s => (Ok tt, f s).
Definition lift {S A} (o : outcome A) : M S A := fun s => (o, s).
Definition throw_if {S} (b : bool) (e : exn) : M S unit :=
  if b then throw e else ret tt.
Definition when {S} (b : bool) (m : M S unit) : M S unit :=
  if b then m else ret tt.

(** [try { m } catch (C&) { h; }] where [p] says which exceptions [C] takes. *)
Definition try_catch {S A} (m : M S A) (p : exn -> bool) (h : exn -> M S A) : M S A :=
  fun s => match m s with
           | (Throw e, s') => if p e then h e s' else (Throw e, s')
           | r => r
           end.

Declare Scope msc_scope.
Delimit Scope msc_scope with msc.
Open Scope msc_scope.

Notation "x <- m ;; k" := (bind m (fun x => k))
  (at level 100, m at next level, right associativity) : msc_scope.
Notation "m ;;; k" := (bind m (fun _ => k))
  (at level 100, k at level 200, right associativity) : msc_scope.

Abbreviation type_error s := (MediaSoupClientTypeError s%string).

(** Binding in the plain error monad [outcome]. *)
Definition obind {A B} (m : outcome A) (k : A -> outcome B) : outcome B :=
  match m with Ok a => k a | Throw e => Throw e | Undef => Undef end.
Notation "'let!' x ':=' m 'in' k" := (obind m (fun x => k))
  (at level 10, x pattern, m at level 100, k at level 200) : msc_scope.

(** Run a computation on a part of the state (a reference into it); the part
    is written back whether the computation returns or throws. *)
Definition zoom {S T A} (look : S -> option T) (upd : T -> S -> S) (m : M T A) : M S A :=
  fun s => match look s with
           | Some t => let '(o, t') := m t in (o, upd t' s)
           | None => (Undef, s)
           end.

(** [for (auto& x : l) m(x);] with [x] a reference into [l]. *)
Fixpoint each {A} (m : M A unit) (l : list A) : outcome unit * list A :=
  match l with
  | [] => (Ok tt, [])
  | x :: r =>
    match m x with
    | (Ok _, x') => let '(o, r') := each m r in (o, x' :: r')
    | (o, x') => (o, x' :: r)
    end
  end.

(** [for (auto& x : l) f(x);] over a list that the body does not change. *)
Fixpoint for_list {S A} (l : list A) (f : A -> M S unit) : M S unit :=
  match l with
  | [] => ret tt
  | x :: r => f x ;;; for_list r f
  end.

(** [std::find_if] with a predicate that may throw. *)
Fixpoint ofind_if {A} (p : A -> outcome bool) (l : list A) : outcome (option A) :=
  match l with
  | [] => Ok None
  | x :: r => let! b := p x in if b : bool then Ok (Some x) else ofind_if p r
  end.

(** The position [std::find_if] stops at, when the position is needed. *)
Fixpoint ofind_idx {A} (p : A -> outcome bool) (l : list A) (i : nat) : outcome (option nat) :=
  match l with
  | [] => Ok None
  | x :: r => let! b := p x in if b : bool then Ok (Some i) else ofind_idx p r (S i)
  end.

Fixpoint omapM {A B} (f : A -> outcome B) (l : list A) : outcome (list B) :=
  match l with
  | [] => Ok []
  | x :: r => let! y := f x in let! ys := omapM f r in Ok (y :: ys)
  end.

(** ** Machine conversions ([static_cast], Java's narrowing) *)

Definition wrap_u (w z : Z) : Z := (z mod 2 ^ w)%Z.
Definition wrap_s (w z : Z) : Z :=
  (let m := z mod 2 ^ w in if m <? 2 ^ (w - 1) then m else m - 2 ^ w)%Z.

(** ** Runs *)

Lemma bind_ok {S A B} (m : M S A) (k : A -> M S B) s s' a : m s = (Ok a, s') -> bind m k s = k a s'.
Proof. unfold bind. by intros ->. Qed.

Lemma bind_throw {S A B} (m : M S A) (k : A -> M S B) s s' e :
  m s = (Throw e, s') -> bind m k s = (Throw e, s').
Proof. unfold bind. by intros ->. Qed.

Lemma lift_bind {S A B} (x : A) (k : A -> M S B) s : bind (lift (Ok x)) k s = k x s.
Proof. done. Qed.

Lemma zoom_ok {S T A} (look : S -> option T) upd (m : M T A) s t t' a :
  look s = Some t -> m t = (Ok a, t') -> zoom look upd m s = (Ok a, upd t' s).
Proof. unfold zoom. intros -> H. by rewrite H. Qed.

(** ** Weakest preconditions *)

Definition wp {S A} (m : M S A) (Q : A -> S -> Prop) (E : exn -> S -> Prop) (s : S) : Prop :=
  match m s with
  | (Ok a, s') => Q a s'
  | (Throw e, s') => E e s'
  | (Undef, _) => False
  end.

Definition owp {A} (m : outcome A) (Q : A -> Prop) (E : exn -> Prop) : Prop :=
  match m with Ok a => Q a | Throw e => E e | Undef => False end.

Section wp.
Context {S : Type}.
Implicit Types s : S.

Lemma wp_mono {A} (m : M S A) (Q Q' : A -> S -> Prop) (E E' : exn -> S -> Prop) s :
  wp m Q E s -> (forall a s', Q a s' -> Q' a s') -> (forall e s', E e s' -> E' e s') ->
  wp m Q' E' s.
Proof. unfold wp. destruct (m s) as [[a|e|] s']; auto. Qed.

Lemma wp_ret {A} (a : A) Q E s : Q a s -> wp (ret a) Q E s.
Proof. done. Qed.

Lemma wp_get Q E s : Q s s -> wp (@get S) Q E s.
Proof. done. Qed.

Lemma wp_bind {A B} (m : M S A) (k : A -> M S B) Q E s :
  wp m (fun a s' => wp (k a) Q E s') E s -> wp (bind m k) Q E s.
Proof. unfold wp, bind. destruct (m s) as [[a|e|] s']; auto. Qed.

Lemma wp_throw {A} e (Q : A -> S -> Prop) (E : exn -> S -> Prop) s :
  E e s -> wp (throw e) Q E s.
Proof. done. Qed.

Lemma wp_throw_if b e Q (E : exn -> S -> Prop) s :
  (b = true -> E e s) -> (b = false -> Q tt s) -> wp (throw_if b e) Q E s.
Proof. destruct b; cbn; auto. Qed.

Lemma wp_when b (m : M S unit) Q E s :
  (b = true -> wp m Q E s) -> (b = false -> Q tt s) -> wp (when b m) Q E s.
Proof. destruct b; cbn; auto. Qed.

Lemma wp_lift {A} (o : outcome A) (Q : A -> S -> Prop) (E : exn -> S -> Prop) s :
  owp o (fun a => Q a s) (fun e => E e s) -> wp (lift o) Q E s.
Proof. by destruct o. Qed.

Lemma wp_zoom {T A} (look : S -> option T) upd (m : M T A) Q E s t :
  look s = Some t ->
  wp m (fun a t' => Q a (upd t' s)) (fun e t' => E e (upd t' s)) t ->
  wp (zoom look upd m) Q E s.
Proof. unfold wp, zoom. intros ->. destruct (m t) as [[a|e|] t']; auto. Qed.
End wp.

Lemma wp_each {A} (m : M A unit) (P : A -> Prop) (E : exn -> Prop) l :
  Forall (wp m (fun _ x' => P x') (fun e _ => E e)) l ->
  wp (each m) (fun _ l' => Forall P l' /\ length l' = length l) (fun e _ => E e) l.
Proof.
  unfold wp. induction 1 as [|x l Hx _ IH]; cbn; [done|].
  destruct (m x) as [[[]|e|] x']; [|done|done].
  destruct (each m l) as [[[]|e|] l']; cbn in *; [|done|done].
  destruct IH as [? ?]; split; [by constructor | by f_equal].
Qed.

Lemma each_fixed {A} (m : M A unit) l :
  Forall (fun x => m x = (Ok tt, x)) l -> each m l = (Ok tt, l).
Proof. induction 1 as [|x l Hx _ IH]; cbn; [done|]. by rewrite Hx, IH. Qed.

(** ** Machine integers *)

Lemma lor_shiftl a b k :
  (0 <= k -> 0 <= b < 2 ^ k -> Z.lor (Z.shiftl a k) b = a * 2 ^ k + b)%Z.
Proof.
  intros Hk Hb. rewrite <- Z.shiftl_mul_pow2 by done. symmetry. apply Z.add_nocarry_lor.
  apply Z.bits_inj'. intros i Hi. rewrite Z.land_spec, Z.bits_0. destruct (Z.lt_ge_cases i k).
  - by rewrite Z.shiftl_spec_low.
  - rewrite <- (Z.mod_small b (2 ^ k))%Z by done. rewrite Z.mod_pow2_bits_high by lia. apply andb_false_r.
Qed.
Lemma wrap_s_small w z :
  (0 < w -> - 2 ^ (w - 1) <= z < 2 ^ (w - 1) -> wrap_s w z = z)%Z.
Proof.
  intros Hw Hz. unfold wrap_s. assert (2 ^ w = 2 * 2 ^ (w - 1))%Z as Hp by (rewrite <- Z.pow_succ_r by lia; f_equal; lia).
  destruct (Z.lt_ge_cases z 0).
  - rewrite <- (Z.mod_unique z (2 ^ w) (-1) (z + 2 ^ w))%Z by lia. destruct (Z.ltb_spec (z + 2 ^ w) (2 ^ (w - 1)))%Z; lia.
  - rewrite Z.mod_small by lia. destruct (Z.ltb_spec z (2 ^ (w - 1)))%Z; lia.
Qed.
Lemma wrap_u_small w z :
  (0 <= z < 2 ^ w -> wrap_u w z = z)%Z.
Proof. apply Z.mod_small. Qed.
