(* ===== verification/Keeps.v ===== *)
(** * What a computation keeps

    [keeps R m]: whatever [m] does (returns, throws or is undefined), the state
    before and the state after are related by [R].  With [R] a preorder this is
    closed under the constructs of the monad, so that for a handler of many
    steps it follows from the few steps that matter.  An invariant [I] is kept
    when [keeps (fun s s' => I s -> I s')]. *)

From stdpp Require Import base list.
From S2P Require Import Prelude.

Definition keeps {S A} (R : S -> S -> Prop) (m : M S A) : Prop := forall s, R s (m s).2.

Lemma kept {S A} (R : S -> S -> Prop) (m : M S A) s o s' : keeps R m -> m s = (o, s') -> R s s'.
Proof. intros Hm E. specialize (Hm s). by rewrite E in Hm. Qed.

Section keeps.
Context {S : Type} (R : S -> S -> Prop) `{!PreOrder R}.

Lemma keeps_ret {A} (a : A) : keeps R (ret a).
Proof. intros s. reflexivity. Qed.
Lemma keeps_throw {A} e : keeps R (@throw S A e).
Proof. intros s. reflexivity. Qed.
Lemma keeps_undef {A} : keeps R (@undef S A).
Proof. intros s. reflexivity. Qed.
Lemma keeps_lift {A} (o : outcome A) : keeps R (lift o).
Proof. intros s. reflexivity. Qed.
Lemma keeps_get : keeps R get.
Proof. intros s. reflexivity. Qed.
Lemma keeps_throw_if b e : keeps R (throw_if b e).
Proof. intros s. destruct b; reflexivity. Qed.

Lemma keeps_bind {A B} (m : M S A) (k : A -> M S B) : keeps R m -> (forall a, keeps R (k a)) -> keeps R (bind m k).
Proof.
  intros Hm Hk s. specialize (Hm s). unfold bind. destruct (m s) as [[a|e|] s']; cbn in *; [|done..].
  etrans; [done|]. apply Hk.
Qed.
(** What follows a value that may be missing knows it. *)
Lemma keeps_lift_bind {A B} (o : outcome A) (k : A -> M S B) : (forall a, o = Ok a -> keeps R (k a)) -> keeps R (bind (lift o) k).
Proof. intros Hk s. destruct o as [a|e|]; [by apply Hk|reflexivity..]. Qed.
Lemma keeps_bind_returns {A B} (m : M S A) (k : A -> M S B) : keeps R m ->
  (forall s a s', m s = (Ok a, s') -> R s' (k a s').2) -> keeps R (bind m k).
Proof.
  intros Hm Hk s. specialize (Hm s). unfold bind. destruct (m s) as [[a|e|] s'] eqn:E; cbn in *; [|done..].
  etrans; [done|]. by apply (Hk s).
Qed.
Lemma keeps_when b (m : M S unit) : keeps R m -> keeps R (when b m).
Proof. destruct b; [done|]. intros _. apply keeps_ret. Qed.
Lemma keeps_if {A} (b : bool) (m m' : M S A) : keeps R m -> keeps R m' -> keeps R (if b then m else m').
Proof. by destruct b. Qed.
Lemma keeps_try {A} (m : M S A) p h : keeps R m -> (forall e, keeps R (h e)) -> keeps R (try_catch m p h).
Proof.
  intros Hm Hh s. specialize (Hm s). unfold try_catch. destruct (m s) as [[a|e|] s']; cbn in *; [done| |done].
  destruct (p e); [|done]. etrans; [done|]. apply Hh.
Qed.
Lemma keeps_for_list_in {X} (l : list X) f : (forall x, x ∈ l -> keeps R (f x)) -> keeps R (for_list l f).
Proof.
  intros H. induction l as [|x l IH]; [apply keeps_ret|]. cbn. apply keeps_bind; [apply H|intros _; apply IH; intros y Hy; apply H];
    by constructor.
Qed.
Lemma keeps_for_list {X} (l : list X) f : (forall x, keeps R (f x)) -> keeps R (for_list l f).
Proof. intros H. apply keeps_for_list_in. auto. Qed.

(** What follows reads the state first. *)
Lemma keeps_get_bind {A} (k : S -> M S A) : (forall s, R s (k s s).2) -> keeps R (bind get k).
Proof. intros H s. apply H. Qed.

Lemma keeps_get_put {A} (f : S -> S) (k : S -> unit -> M S A) :
  (forall s, R s (f s)) -> (forall s a, keeps R (k s a)) -> keeps R (bind get (fun s => bind (put (f s)) (k s))).
Proof. intros Hf Hk. apply keeps_get_bind. intros s. cbn. etrans; [apply Hf|]. apply Hk. Qed.

Lemma keeps_get_when {A} (f : S -> bool) (m : M S unit) (k : unit -> M S A) :
  (forall s, f s = true -> R s (m s).2) -> (forall a, keeps R (k a)) -> keeps R (bind get (fun s => bind (when (f s) m) k)).
Proof.
  intros Hm Hk. apply keeps_get_bind. intros s. destruct (f s) eqn:E; cbn [when]; [|apply Hk].
  specialize (Hm s E). unfold bind. destruct (m s) as [[a|e|] s']; cbn in *; [|done..]. etrans; [done|]. apply Hk.
Qed.

(** A part of the state is changed: in any way, or as its own relation says. *)
Lemma keeps_zoom_any {T A} (look : S -> option T) upd (m : M T A) :
  (forall s t, R s (upd t s)) -> keeps R (zoom look upd m).
Proof. intros H s. unfold zoom. destruct (look s) as [t|]; [|reflexivity]. destruct (m t). apply H. Qed.
Lemma keeps_zoom {T A} (RT : T -> T -> Prop) (look : S -> option T) upd (m : M T A) : keeps RT m ->
  (forall s t t', look s = Some t -> RT t t' -> R s (upd t' s)) -> keeps R (zoom look upd m).
Proof.
  intros Hm H s. unfold zoom. destruct (look s) as [t|] eqn:E; [|reflexivity].
  specialize (Hm t). destruct (m t) as [o t'] eqn:Em. eapply H; [exact E|exact Hm].
Qed.
Lemma keeps_modify (f : S -> S) : (forall s, R s (f s)) -> keeps R (modify f).
Proof. intros H s. apply H. Qed.
End keeps.

(** One step of the constructs; the operations of a component come from the
    hint database, and a component may add a step of its own. *)
Create HintDb keeps discriminated.
Ltac keep_special := fail.
Ltac keep_step :=
  match goal with
  | |- forall _, keeps _ _ => intros ?
  | |- keeps _ (bind _ _) => apply keeps_bind; [apply _|..]
  | |- keeps _ (ret _) => apply keeps_ret; apply _
  | |- keeps _ (throw _) => apply keeps_throw; apply _
  | |- keeps _ undef => apply keeps_undef; apply _
  | |- keeps _ (lift _) => apply keeps_lift; apply _
  | |- keeps _ get => apply keeps_get; apply _
  | |- keeps _ (throw_if _ _) => apply keeps_throw_if; apply _
  | |- keeps _ (when _ _) => apply keeps_when; [apply _|]
  | |- keeps _ (try_catch _ _ _) => apply keeps_try; [apply _|..]
  | |- keeps _ (for_list _ _) => apply keeps_for_list; [apply _|]
  | |- keeps _ (if ?b then _ else _) => destruct b
  | |- keeps _ (match ?x with _ => _ end) => destruct x
  end.
Ltac keep := repeat first [keep_special | keep_step | solve [auto with keeps]].

(** What returned had a first part that returned. *)
Lemma bind_returns {S A B} (m : M S A) (k : A -> M S B) s b s' : bind m k s = (Ok b, s') ->
  exists a s1, m s = (Ok a, s1) /\ k a s1 = (Ok b, s').
Proof. unfold bind. destruct (m s) as [[a|e|] s1]; [|done..]. intros E. by exists a, s1. Qed.

(** ** Invariants as relations *)

Definition maintains {S} (I : S -> Prop) (s s' : S) : Prop := I s -> I s'.
#[export] Instance maintains_preorder {S} (I : S -> Prop) : PreOrder (maintains I).
Proof. split; red; unfold maintains; auto. Qed.
