(* ===== verification/Json.v ===== *)
(** * JSON values as nlohmann::json 3.7.3 stores and compares them

    Models the part of libsdptransform/include/json.hpp that libmediasoupclient
    uses: the value type, its predicates, element access in the const and the
    non-const form, conversion with [get<T>()], comparison and iteration.
    An object is a [std::map]: an association list in key order. *)

From stdpp Require Import base list gmap strings pretty.
From Stdlib Require Import ZArith Lia SpecFloat.
From S2P Require Import Prelude.

(** ** Values *)

Local Set Warnings "-register-all".

Inductive json :=
| JNull
| JBool (b : bool)
| JInt (z : Z)
| JUint (z : Z)
| JFloat (f : spec_float)
| JString (s : string)
| JArray (l : list json)
| JObject (o : list (string * json)).

(** ** [std::map<std::string, json>] as an ordered association list *)

(** [std::less<std::string>]: lexicographic on unsigned bytes. *)
Definition str_ltb (a b : string) : bool :=
  match String.compare a b with Lt => true | _ => false end.

Section assoc.
Context {V : Type}.
Implicit Types o : list (string * V).

Fixpoint obj_lookup (k : string) o : option V :=
  match o with
  | [] => None
  | (k', v) :: r => if String.eqb k k' then Some v else obj_lookup k r
  end.

(** [operator[]] assigns to the node of the key, or adds one in key order. *)
Fixpoint obj_replace (k : string) (v : V) o : list (string * V) :=
  match o with
  | [] => []
  | (k', v') :: r => if String.eqb k k' then (k', v) :: r else (k', v') :: obj_replace k v r
  end.
Fixpoint obj_add (k : string) (v : V) o : list (string * V) :=
  match o with
  | [] => [(k, v)]
  | (k', v') :: r =>
    if str_ltb k k' then (k, v) :: (k', v') :: r else (k', v') :: obj_add k v r
  end.
Definition obj_insert (k : string) (v : V) o : list (string * V) :=
  match obj_lookup k o with
  | Some _ => obj_replace k v o
  | None => obj_add k v o
  end.

Fixpoint obj_erase (k : string) o : list (string * V) :=
  match o with
  | [] => []
  | (k', v) :: r => if String.eqb k k' then obj_erase k r else (k', v) :: obj_erase k r
  end.

(** [emplace]: the first entry for a key wins. *)
Definition obj_emplace (kv : string * V) o : list (string * V) :=
  match obj_lookup (fst kv) o with
  | Some _ => o
  | None => obj_insert (fst kv) (snd kv) o
  end.

Definition key_below (k : string) o : bool :=
  match o with [] => true | (k', _) :: _ => str_ltb k k' end.
Fixpoint obj_sorted o : bool :=
  match o with
  | [] => true
  | (k, _) :: r => key_below k r && obj_sorted r
  end.
End assoc.

(** ** Type predicates *)

Definition is_null (j : json) : bool := match j with JNull => true | _ => false end.
Definition is_boolean (j : json) : bool := match j with JBool _ => true | _ => false end.
Definition is_number_integer (j : json) : bool :=
  match j with JInt _ | JUint _ => true | _ => false end.
Definition is_number_unsigned (j : json) : bool :=
  match j with JUint _ => true | _ => false end.
Definition is_number_float (j : json) : bool :=
  match j with JFloat _ => true | _ => false end.
Definition is_number (j : json) : bool := is_number_integer j || is_number_float j.
Definition is_object (j : json) : bool := match j with JObject _ => true | _ => false end.
Definition is_array (j : json) : bool := match j with JArray _ => true | _ => false end.
Definition is_string (j : json) : bool := match j with JString _ => true | _ => false end.

(** A string that is not empty: [is_string() && !get<std::string>().empty()]. *)
Definition is_nonempty_string (j : json) : bool :=
  match j with JString s => negb (String.eqb s "") | _ => false end.

(** ** Machine conversions ([static_cast]) *)

(** [static_cast<double>] of a 64-bit integer, rounding to nearest even. *)
Definition double_of_Z (z : Z) : spec_float := binary_normalize 53 1024 z 0 false.

(** The integral part of a double; none for infinities and NaN. *)
Definition trunc_float (f : spec_float) : option Z :=
  match f with
  | S754_zero _ => Some 0%Z
  | S754_finite s m e =>
    (let q := if 0 <=? e then Z.pos m * 2 ^ e else Z.pos m / 2 ^ (- e) in
     Some (if s then - q else q))%Z
  | _ => None
  end.

(** A double outside the range of the target type makes the cast undefined. *)
Definition cast_float (lo hi : Z) (f : spec_float) : outcome Z :=
  match trunc_float f with
  | Some z => if (lo <=? z)%Z && (z <=? hi)%Z then Ok z else Undef
  | None => Undef
  end.

(** ** [get<T>()] *)

Definition get_string (j : json) : outcome string :=
  match j with JString s => Ok s | _ => Throw (JsonTypeError 302) end.
Definition get_bool (j : json) : outcome bool :=
  match j with JBool b => Ok b | _ => Throw (JsonTypeError 302) end.

(** Arithmetic types other than the three number types of the library also
    accept a boolean. *)
Definition get_arith (w : Z) (signed : bool) (j : json) : outcome Z :=
  let wrap := if signed then wrap_s w else wrap_u w in
  match j with
  | JUint z | JInt z => Ok (wrap z)
  | JFloat f =>
    (if signed then cast_float (- 2 ^ (w - 1)) (2 ^ (w - 1) - 1) f
     else cast_float 0 (2 ^ w - 1) f)%Z
  | JBool b => Ok (if b then 1%Z else 0%Z)
  | _ => Throw (JsonTypeError 302)
  end.
Definition get_uint8 : json -> outcome Z := get_arith 8 false.
Definition get_uint32 : json -> outcome Z := get_arith 32 false.
Definition get_int32 : json -> outcome Z := get_arith 32 true.

(** [get<int64_t>] and [get<uint64_t>] are number types of the library. *)
Definition get_arith64 (signed : bool) (j : json) : outcome Z :=
  match j with JBool _ => Throw (JsonTypeError 302) | _ => get_arith 64 signed j end.
Definition get_int64 : json -> outcome Z := get_arith64 true.
Definition get_uint64 : json -> outcome Z := get_arith64 false.

(** ** Comparison: [operator==] *)

Fixpoint json_eqb (a b : json) {struct a} : bool :=
  match a, b with
  | JNull, JNull => true
  | JBool x, JBool y => Bool.eqb x y
  | JInt x, JInt y => Z.eqb x y
  | JUint x, JUint y => Z.eqb x y
  | JFloat x, JFloat y => SFeqb x y
  | JString x, JString y => String.eqb x y
  | JArray x, JArray y =>
    (fix go (x y : list json) : bool :=
       match x, y with
       | [], [] => true
       | u :: x', v :: y' => json_eqb u v && go x' y'
       | _, _ => false
       end) x y
  | JObject x, JObject y =>
    (fix go (x y : list (string * json)) : bool :=
       match x, y with
       | [], [] => true
       | (k, u) :: x', (k', v) :: y' => String.eqb k k' && json_eqb u v && go x' y'
       | _, _ => false
       end) x y
  | JInt x, JFloat y => SFeqb (double_of_Z x) y
  | JFloat x, JInt y => SFeqb x (double_of_Z y)
  | JUint x, JFloat y => SFeqb (double_of_Z x) y
  | JFloat x, JUint y => SFeqb x (double_of_Z y)
  | JUint x, JInt y => Z.eqb (wrap_s 64 x) y
  | JInt x, JUint y => Z.eqb x (wrap_s 64 y)
  | _, _ => false
  end.

(** ** Construction *)

(** [json x = { { "k", v }, ... }] *)
Definition mk_obj (l : list (string * json)) : json :=
  JObject (fold_left (fun o kv => obj_emplace kv o) l []).

(** ** Reading *)

(** [find(key)]: [None] is [end()]. *)
Definition find (k : string) (j : json) : option json :=
  match j with JObject o => obj_lookup k o | _ => None end.
Definition contains (k : string) (j : json) : bool :=
  match find k j with Some _ => true | None => false end.

(** [operator[](key) const]: a missing key violates an assertion. *)
Definition idx (k : string) (j : json) : outcome json :=
  match j with
  | JObject o => match obj_lookup k o with Some v => Ok v | None => Undef end
  | _ => Throw (JsonTypeError 305)
  end.

(** [operator[](size_type) const]: no bounds check. *)
Definition idx_nth (i : nat) (j : json) : outcome json :=
  match j with
  | JArray l => match l !! i with Some v => Ok v | None => Undef end
  | _ => Throw (JsonTypeError 305)
  end.

Definition json_size (j : json) : nat :=
  match j with JNull => 0 | JArray l => length l | JObject o => length o | _ => 1 end.
Definition json_empty (j : json) : bool :=
  match j with
  | JNull => true
  | JArray l => match l with [] => true | _ => false end
  | JObject o => match o with [] => true | _ => false end
  | _ => false
  end.

(** The values a range-based [for] visits. *)
Definition elems (j : json) : list json :=
  match j with
  | JNull => []
  | JArray l => l
  | JObject o => map snd o
  | _ => [j]
  end.

(** The entries [items()] visits. *)
Definition items (j : json) : list (string * json) :=
  match j with
  | JNull => []
  | JArray l => imap (fun i v => (pretty (N.of_nat i), v)) l
  | JObject o => o
  | _ => [("", j)]
  end.

(** ** Writing *)

(** [operator[](key)] on a non-const value: null becomes an object, a missing
    key is inserted with a null value, and the reference is what [m] runs on. *)
Definition at_key {A} (k : string) (m : M json A) : M json A := fun j =>
  match j with
  | JNull => let '(r, v) := m JNull in (r, JObject [(k, v)])
  | JObject o =>
    let '(r, v) := m (default JNull (obj_lookup k o)) in (r, JObject (obj_insert k v o))
  | _ => (Throw (JsonTypeError 305), j)
  end.

(** [j[k] = v] and reading [j[k]] through a non-const reference. *)
Definition set_key (k : string) (v : json) : M json unit := at_key k (put v).
Definition get_key (k : string) : M json json := at_key k get.

Definition erase_key (k : string) : M json unit := fun j =>
  match j with
  | JObject o => (Ok tt, JObject (obj_erase k o))
  | _ => (Throw (JsonTypeError 307), j)
  end.

Definition push_back (v : json) : M json unit := fun j =>
  match j with
  | JNull => (Ok tt, JArray [v])
  | JArray l => (Ok tt, JArray (l ++ [v]))
  | _ => (Throw (JsonTypeError 308), j)
  end.

(** [operator[](size_type)] on a non-const value fills with nulls up to [i]. *)
Definition pad_to (i : nat) (l : list json) : list json :=
  l ++ replicate (S i - length l) JNull.
Definition at_idx {A} (i : nat) (m : M json A) : M json A := fun j =>
  match j with
  | JNull | JArray _ =>
    let l := pad_to i (elems j) in
    let '(r, v) := m (default JNull (l !! i)) in (r, JArray (<[i:=v]> l))
  | _ => (Throw (JsonTypeError 305), j)
  end.

(** Through an iterator that [find] returned (the key is present). *)
Definition deref {A} (k : string) (m : M json A) : M json A :=
  zoom (find k) (fun v j => match j with JObject o => JObject (obj_insert k v o) | _ => j end) m.

Fixpoint each_value (m : M json unit) (o : list (string * json)) : outcome unit * list (string * json) :=
  match o with
  | [] => (Ok tt, [])
  | (k, x) :: r =>
    match m x with
    | (Ok _, x') => let '(out, r') := each_value m r in (out, (k, x') :: r')
    | (out, x') => (out, (k, x') :: r)
    end
  end.

(** [for (auto& x : j) m(x);] *)
Definition for_range (m : M json unit) : M json unit := fun j =>
  match j with
  | JNull => (Ok tt, j)
  | JArray l => let '(r, l') := each m l in (r, JArray l')
  | JObject o => let '(r, o') := each_value m o in (r, JObject o')
  | _ => m j
  end.

(** ** Tests on the result of [find] *)

(** [it == end() || !it->p()] and [it != end() && !it->p()]. *)
Definition missing (p : json -> bool) (it : option json) : bool :=
  match it with None => true | Some v => negb (p v) end.
Definition ill_typed (p : json -> bool) (it : option json) : bool :=
  match it with None => false | Some v => negb (p v) end.
Definition present (it : option json) : bool :=
  match it with None => false | Some _ => true end.

(** The value at a key satisfies [p]; for an optional key, when present. *)
Definition key_ok (k : string) (p : json -> bool) (j : json) : bool := negb (missing p (find k j)).
Definition key_opt (k : string) (p : json -> bool) (j : json) : bool := negb (ill_typed p (find k j)).
Definition array_of (p : json -> bool) (j : json) : bool :=
  match j with JArray l => forallb p l | _ => false end.

(** ** Well-formed values

    Every object, at any depth, is in key order without repeated keys, and the
    integers are within the 64-bit range of their representation. *)
Fixpoint wf_json (j : json) : bool :=
  match j with
  | JInt z => (- 2 ^ 63 <=? z)%Z && (z <? 2 ^ 63)%Z
  | JUint z => (0 <=? z)%Z && (z <? 2 ^ 64)%Z
  | JArray l => forallb wf_json l
  | JObject o => obj_sorted o && forallb (fun kv => wf_json (snd kv)) o
  | _ => true
  end.

(** ** Key order *)

Lemma str_ltb_irrefl k : str_ltb k k = false.
Proof.
  unfold str_ltb. pose proof (String.compare_antisym k k).
  destruct (String.compare k k); done.
Qed.

Lemma str_ltb_total k1 k2 : k1 <> k2 -> str_ltb k1 k2 = false -> str_ltb k2 k1 = true.
Proof.
  unfold str_ltb. intros Hne. rewrite (String.compare_antisym k2 k1).
  destruct (String.compare k1 k2) eqn:E; cbn; try done.
  by apply String.compare_eq_iff in E.
Qed.

Lemma ascii_compare_lt_trans a b c :
  Ascii.compare a b = Lt -> Ascii.compare b c = Lt -> Ascii.compare a c = Lt.
Proof. unfold Ascii.compare. rewrite !N.compare_lt_iff. lia. Qed.

Lemma ascii_compare_eq a b : Ascii.compare a b = Eq -> a = b.
Proof. apply Ascii.compare_eq_iff. Qed.

Lemma ascii_compare_refl a : Ascii.compare a a = Eq.
Proof. unfold Ascii.compare. apply N.compare_refl. Qed.

Lemma str_ltb_trans k1 k2 k3 :
  str_ltb k1 k2 = true -> str_ltb k2 k3 = true -> str_ltb k1 k3 = true.
Proof.
  unfold str_ltb. revert k2 k3.
  induction k1 as [|a k1 IH]; intros [|b k2] [|c k3]; cbn; try done.
  destruct (Ascii.compare a b) eqn:E1, (Ascii.compare b c) eqn:E2; try done.
  - apply ascii_compare_eq in E1, E2; subst. rewrite ascii_compare_refl. apply IH.
  - apply ascii_compare_eq in E1; subst. by rewrite E2.
  - apply ascii_compare_eq in E2; subst. by rewrite E1.
  - by rewrite (ascii_compare_lt_trans _ _ _ E1 E2).
Qed.

(** ** Lookup, insertion and erasure *)

Section assoc_facts.
Context {V : Type}.
Implicit Types o : list (string * V).

Lemma obj_lookup_replace k k' (v : V) o :
  obj_lookup k (obj_replace k' v o) =
  if String.eqb k k' then (fun _ => v) <$> obj_lookup k o else obj_lookup k o.
Proof.
  induction o as [|[k0 v0] o IH]; cbn; [by destruct (String.eqb k k')|].
  destruct (String.eqb_spec k' k0) as [->|Hne]; cbn.
  - by destruct (String.eqb k k0).
  - rewrite IH. destruct (String.eqb_spec k k0) as [->|]; [|done].
    by destruct (String.eqb_spec k0 k'); [subst|].
Qed.

Lemma obj_lookup_add k k' (v : V) o :
  obj_lookup k' o = None ->
  obj_lookup k (obj_add k' v o) = if String.eqb k k' then Some v else obj_lookup k o.
Proof.
  induction o as [|[k0 v0] o IH]; cbn; [done|].
  destruct (String.eqb_spec k' k0) as [->|Hne]; [done|]. intros Hn.
  destruct (str_ltb k' k0); cbn; [done|]. rewrite IH by done.
  destruct (String.eqb_spec k k0), (String.eqb_spec k k'); congruence.
Qed.

Lemma obj_lookup_insert k k' (v : V) o :
  obj_lookup k (obj_insert k' v o) = if String.eqb k k' then Some v else obj_lookup k o.
Proof.
  unfold obj_insert. destruct (obj_lookup k' o) eqn:E.
  - rewrite obj_lookup_replace. destruct (String.eqb_spec k k') as [->|]; [|done]. by rewrite E.
  - by apply obj_lookup_add.
Qed.

Lemma obj_lookup_erase k k' o :
  obj_lookup k (obj_erase k' o) = if String.eqb k k' then None else obj_lookup k o.
Proof.
  induction o as [|[k0 v0] o IH]; cbn; [by destruct (String.eqb k k')|].
  destruct (String.eqb_spec k' k0) as [->|Hne]; cbn; rewrite IH.
  - by destruct (String.eqb k k0).
  - destruct (String.eqb_spec k k0), (String.eqb_spec k k'); congruence.
Qed.

Lemma obj_lookup_emplace k kv o :
  obj_lookup k (obj_emplace kv o) =
  if String.eqb k kv.1 then Some (default kv.2 (obj_lookup k o)) else obj_lookup k o.
Proof.
  unfold obj_emplace. destruct (obj_lookup kv.1 o) eqn:E.
  - destruct (String.eqb_spec k kv.1) as [->|]; [by rewrite E|done].
  - rewrite obj_lookup_insert. destruct (String.eqb_spec k kv.1) as [->|]; [|done].
    by rewrite E.
Qed.

(** Keys below the head of an ordered list are absent from it. *)
Lemma key_below_lookup k o :
  key_below k o = true -> obj_sorted o = true -> obj_lookup k o = None.
Proof.
  revert k. induction o as [|[k0 v0] o IH]; intros k; [done|]. cbn.
  intros Hlt [Hb Hs]%andb_prop. destruct (String.eqb_spec k k0) as [->|].
  - by rewrite str_ltb_irrefl in Hlt.
  - apply IH; [|done]. destruct o as [|[k1 v1] o]; [done|]. cbn in *.
    by eapply str_ltb_trans.
Qed.

Lemma key_below_trans k k' o : str_ltb k k' = true -> key_below k' o = true -> key_below k o = true.
Proof. destruct o as [|[k0 v0] o]; cbn; [done|]. apply str_ltb_trans. Qed.

Lemma key_below_replace k k' (v : V) o : key_below k (obj_replace k' v o) = key_below k o.
Proof. destruct o as [|[k0 v0] o]; cbn; [done|]. by destruct (String.eqb k' k0). Qed.

Lemma key_below_add k k' (v : V) o :
  str_ltb k k' = true -> key_below k o = true -> key_below k (obj_add k' v o) = true.
Proof. destruct o as [|[k0 v0] o]; cbn; [done|]. intros. by destruct (str_ltb k' k0). Qed.

Lemma obj_sorted_insert k (v : V) o :
  obj_sorted o = true -> obj_sorted (obj_insert k v o) = true.
Proof.
  unfold obj_insert. destruct (obj_lookup k o) as [w|] eqn:E.
  - clear E. induction o as [|[k0 v0] o IH]; [done|]. cbn. intros [Hb Hs]%andb_prop.
    destruct (String.eqb k k0); cbn; [by rewrite Hb|]. by rewrite key_below_replace, Hb, IH.
  - induction o as [|[k0 v0] o IH]; [done|]. cbn in *. intros [Hb Hs]%andb_prop.
    destruct (String.eqb_spec k k0) as [->|Hne]; [done|].
    destruct (str_ltb k k0) eqn:E'; cbn; [by rewrite E', Hb|].
    rewrite key_below_add, IH; [done|done|done| |done]. by apply str_ltb_total.
Qed.

Lemma key_below_erase k k' o :
  obj_sorted o = true -> key_below k o = true -> key_below k (obj_erase k' o) = true.
Proof.
  induction o as [|[k0 v0] o IH]; [done|]. cbn. intros [Hb Hs]%andb_prop Hlt.
  destruct (String.eqb k' k0); [|done]. apply IH; [done|]. by eapply key_below_trans.
Qed.

Lemma obj_sorted_erase k o : obj_sorted o = true -> obj_sorted (obj_erase k o) = true.
Proof.
  induction o as [|[k0 v0] o IH]; [done|]. cbn. intros [Hb Hs]%andb_prop.
  destruct (String.eqb k k0); cbn; [by apply IH|].
  by rewrite key_below_erase, IH.
Qed.

(** Two maps with the same lookups are the same list. *)
Lemma obj_ext o1 o2 :
  obj_sorted o1 = true -> obj_sorted o2 = true ->
  (forall k, obj_lookup k o1 = obj_lookup k o2) -> o1 = o2.
Proof.
  revert o2. induction o1 as [|[k1 v1] o1 IH]; intros [|[k2 v2] o2] H1 H2 Hl.
  - done.
  - specialize (Hl k2). cbn in Hl. by rewrite String.eqb_refl in Hl.
  - specialize (Hl k1). cbn in Hl. by rewrite String.eqb_refl in Hl.
  - cbn in H1, H2. apply andb_prop in H1 as [B1 S1]. apply andb_prop in H2 as [B2 S2].
    assert (k1 = k2) as ->.
    { destruct (decide (k1 = k2)) as [|Hne]; [done|]. pose proof (Hl k1) as L1.
      pose proof (Hl k2) as L2. cbn in L1, L2. rewrite !String.eqb_refl in L1, L2.
      destruct (String.eqb_spec k1 k2), (String.eqb_spec k2 k1); try done.
      destruct (str_ltb k1 k2) eqn:E.
      - rewrite key_below_lookup in L1; [done| |done]. by eapply key_below_trans.
      - apply str_ltb_total in E; [|done].
        rewrite key_below_lookup in L2; [done| |done]. by eapply key_below_trans. }
    pose proof (Hl k2) as Hv. cbn in Hv. rewrite String.eqb_refl in Hv. injection Hv as ->.
    f_equal. apply IH; [done..|]. intros k. specialize (Hl k). cbn in Hl.
    destruct (String.eqb_spec k k2) as [Heq|]; [|done]. subst k. by rewrite !key_below_lookup.
Qed.

Lemma obj_insert_id k (v : V) o : obj_lookup k o = Some v -> obj_insert k v o = o.
Proof.
  unfold obj_insert. intros Hl. rewrite Hl.
  induction o as [|[k0 v0] o IH]; cbn in *; [done|].
  destruct (String.eqb k k0); [by simplify_eq|]. by rewrite IH.
Qed.
End assoc_facts.

(** ** Objects built from initializer lists *)

Lemma obj_lookup_fold_emplace k (l o : list (string * json)) :
  obj_lookup k (fold_left (fun o kv => obj_emplace kv o) l o) =
  match obj_lookup k o with Some v => Some v | None => obj_lookup k l end.
Proof.
  revert o. induction l as [|[k0 v0] l IH]; intros o; cbn; [by destruct (obj_lookup k o)|].
  rewrite IH, obj_lookup_emplace. cbn. destruct (String.eqb_spec k k0) as [->|]; [|done].
  by destruct (obj_lookup k0 o).
Qed.

Lemma find_mk_obj k l : find k (mk_obj l) = obj_lookup k l.
Proof. unfold mk_obj. cbn. by rewrite obj_lookup_fold_emplace. Qed.

Lemma idx_find k j v : find k j = Some v -> idx k j = Ok v.
Proof. destruct j; cbn; try done. by intros ->. Qed.

Lemma idx_mk_obj k l v : obj_lookup k l = Some v -> idx k (mk_obj l) = Ok v.
Proof. intros H. apply idx_find. by rewrite find_mk_obj. Qed.

(** ** Induction over nested values, and comparison *)

Section json_ind'.
Variable P : json -> Prop.
Hypotheses (Hnull : P JNull) (Hbool : forall b, P (JBool b)) (Hint : forall z, P (JInt z))
  (Huint : forall z, P (JUint z)) (Hfloat : forall f, P (JFloat f))
  (Hstring : forall s, P (JString s))
  (Harray : forall l, Forall P l -> P (JArray l))
  (Hobject : forall o, Forall (fun kv => P (snd kv)) o -> P (JObject o)).

Fixpoint json_ind' (j : json) : P j :=
  match j with
  | JNull => Hnull
  | JBool b => Hbool b
  | JInt z => Hint z
  | JUint z => Huint z
  | JFloat f => Hfloat f
  | JString s => Hstring s
  | JArray l => Harray l
      ((fix go l : Forall P l :=
          match l with [] => Forall_nil_2 _ | x :: r => Forall_cons_2 _ _ _ (json_ind' x) (go r) end) l)
  | JObject o => Hobject o
      ((fix go o : Forall (fun kv => P (snd kv)) o :=
          match o with
          | [] => Forall_nil_2 _
          | kv :: r => Forall_cons_2 _ _ _ (json_ind' (snd kv)) (go r)
          end) o)
  end.
End json_ind'.

(** No NaN anywhere: the values on which [operator==] is reflexive. *)
Fixpoint nan_free (j : json) : bool :=
match j with
| JFloat S754_nan => false
| JArray l => forallb nan_free l
| JObject o => forallb (fun kv => nan_free (snd kv)) o
| _ => true
end.

Lemma SFeqb_refl f : f <> S754_nan -> SFeqb f f = true.
Proof.
unfold SFeqb. destruct f as [|[]| |[] m e]; cbn; try done;
  rewrite ?Z.compare_refl, ?Pos.compare_cont_refl; done.
Qed.

Lemma SFeqb_sym f g : SFeqb f g = SFeqb g f.
Proof.
unfold SFeqb, SFcompare.
destruct f as [|[]| |[] m e], g as [|[]| |[] m' e']; cbn; try done;
  rewrite (Z.compare_antisym e e'); destruct (Z.compare e e'); cbn; try done;
  change (Pos.compare_cont Eq m' m) with (Pos.compare m' m);
  rewrite (Pos.compare_antisym m m'); unfold Pos.compare;
  by destruct (Pos.compare_cont Eq m m').
Qed.

Lemma json_eqb_refl j : nan_free j = true -> json_eqb j j = true.
Proof.
induction j as [| | | |f| |l IH|o IH] using json_ind'; cbn; intros Hn;
  rewrite ?Z.eqb_refl, ?String.eqb_refl, ?Bool.eqb_reflx; try done.
- apply SFeqb_refl. by intros ->.
- induction IH as [|x l Hx _ IHl]; cbn in *; [done|].
  apply andb_prop in Hn as [Hn1 Hn2]. by rewrite Hx, IHl.
- induction IH as [|[k x] o Hx _ IHo]; cbn in *; [done|].
  apply andb_prop in Hn as [Hn1 Hn2]. by rewrite String.eqb_refl, Hx, IHo.
Qed.

Lemma json_eqb_sym a b : json_eqb a b = json_eqb b a.
Proof.
revert b. induction a as [| | | |f| |l IH|o IH] using json_ind'; intros [| | | | | |l'|o']; cbn;
  try done; try apply Z.eqb_sym; try apply SFeqb_sym; try apply String.eqb_sym.
- by destruct b, b0.
- revert l'. induction IH as [|x l Hx _ IHl]; intros [|y l']; cbn; try done.
  by rewrite Hx, IHl.
- revert o'. induction IH as [|[k x] o Hx _ IHo]; intros [|[k' y] o']; cbn; try done.
  cbn in Hx. by rewrite Hx, IHo, String.eqb_sym.
Qed.

Lemma json_eqb_string s j : json_eqb (JString s) j = true <-> j = JString s.
Proof.
destruct j; cbn; split; try done.
- by intros ->%String.eqb_eq.
- intros [= ->]. apply String.eqb_refl.
Qed.

(** ** Weakest preconditions of the JSON operations on an object *)

Section json_wp.
Context (E : exn -> json -> Prop).
Implicit Types o : list (string * json).

Lemma wp_set_key k v (Q : unit -> json -> Prop) o :
  Q tt (JObject (obj_insert k v o)) -> wp (set_key k v) Q E (JObject o).
Proof. done. Qed.

Lemma wp_erase_key k (Q : unit -> json -> Prop) o :
  Q tt (JObject (obj_erase k o)) -> wp (erase_key k) Q E (JObject o).
Proof. done. Qed.

Lemma wp_deref {A} k (m : M json A) Q o t :
  obj_lookup k o = Some t ->
  wp m (fun a t' => Q a (JObject (obj_insert k t' o)))
       (fun e t' => E e (JObject (obj_insert k t' o))) t ->
  wp (deref k m) Q E (JObject o).
Proof. intros Hl Hm. by eapply wp_zoom. Qed.
End json_wp.

Lemma wp_for_range_array (m : M json unit) (P : json -> bool) (E : exn -> Prop) (Q : unit -> json -> Prop) l :
(forall x, wp m (fun _ x' => P x' = true) (fun e _ => E e) x) ->
(forall l', forallb P l' = true -> length l' = length l -> Q tt (JArray l')) ->
wp (for_range m) Q (fun e _ => E e) (JArray l).
Proof.
intros Hm HQ.
assert (wp (each m) (fun _ l' => Forall (fun x => P x = true) l' /\ length l' = length l)
           (fun e _ => E e) l) as Heach.
{ apply wp_each. apply Forall_forall. intros x _. apply Hm. }
unfold wp in *. cbn. destruct (each m l) as [[[]|e|] l']; cbn in *; try done.
destruct Heach as [HP Hlen]. apply HQ; [|done]. apply forallb_forall.
intros x Hx. by apply (proj1 (List.Forall_forall _ _) HP).
Qed.

(** A computation that leaves the referenced value alone leaves the object alone. *)
Lemma deref_fixed {A} k (m : M json A) r j v :
find k j = Some v -> m v = (r, v) -> deref k m j = (r, j).
Proof.
destruct j; try done. cbn. intros Hl Hm. unfold deref, zoom. cbn. rewrite Hl, Hm.
by rewrite obj_insert_id.
Qed.

Lemma set_key_fixed k v o : obj_lookup k o = Some v -> set_key k v (JObject o) = (Ok tt, JObject o).
Proof. intros Hl. unfold set_key. cbn. by rewrite obj_insert_id. Qed.

Lemma for_range_fixed (m : M json unit) l :
Forall (fun x => m x = (Ok tt, x)) l -> for_range m (JArray l) = (Ok tt, JArray l).
Proof. intros H. cbn. by rewrite each_fixed. Qed.

(** ** Operations keep values well formed *)

Lemma obj_insert_forall (P : json -> bool) k v (o : list (string * json)) :
P v = true -> forallb (fun kv => P kv.2) o = true ->
forallb (fun kv => P kv.2) (obj_insert k v o) = true.
Proof.
intros Hv. unfold obj_insert. destruct (obj_lookup k o) as [w|].
- induction o as [|[k0 v0] o IH]; cbn; [done|]. intros [H1 H2]%andb_prop.
  destruct (String.eqb k k0); cbn; [by rewrite Hv|]. by rewrite H1, IH.
- induction o as [|[k0 v0] o IH]; cbn; [by rewrite Hv|]. intros [H1 H2]%andb_prop.
  destruct (str_ltb k k0); cbn; [by rewrite Hv, H1|]. by rewrite H1, IH.
Qed.

Lemma obj_erase_forall (P : json -> bool) k (o : list (string * json)) :
forallb (fun kv => P kv.2) o = true -> forallb (fun kv => P kv.2) (obj_erase k o) = true.
Proof.
induction o as [|[k0 v0] o IH]; cbn; [done|]. intros [H1 H2]%andb_prop.
destruct (String.eqb k k0); cbn; [by apply IH|]. by rewrite H1, IH.
Qed.

Lemma obj_lookup_forall (P : json -> bool) k (o : list (string * json)) v :
forallb (fun kv => P kv.2) o = true -> obj_lookup k o = Some v -> P v = true.
Proof.
induction o as [|[k0 v0] o IH]; cbn; [done|]. intros [H1 H2]%andb_prop.
destruct (String.eqb k k0); [by intros [= <-]|]. by apply IH.
Qed.

Lemma wf_json_find k j v : wf_json j = true -> find k j = Some v -> wf_json v = true.
Proof. destruct j; try done. cbn. intros [_ H]%andb_prop. by apply obj_lookup_forall. Qed.

Lemma wf_json_insert k v o :
wf_json v = true -> wf_json (JObject o) = true -> wf_json (JObject (obj_insert k v o)) = true.
Proof.
cbn. intros Hv [Hs Hf]%andb_prop. by rewrite obj_sorted_insert, obj_insert_forall.
Qed.

Lemma wf_json_mk_obj l : forallb (fun kv => wf_json kv.2) l = true -> wf_json (mk_obj l) = true.
Proof.
unfold mk_obj. assert (forall o, wf_json (JObject o) = true ->
  forallb (fun kv => wf_json kv.2) l = true ->
  wf_json (JObject (fold_left (fun o kv => obj_emplace kv o) l o)) = true) as H.
{ induction l as [|[k v] l IH]; intros o Ho; cbn [forallb fold_left snd]; [done|].
  intros [Hv Hl]%andb_prop. apply IH; [|done]. unfold obj_emplace. cbn [fst snd].
  destruct (obj_lookup k o); [done|]. by apply wf_json_insert. }
by apply H.
Qed.

Definition preserves_wf {A} (m : M json A) : Prop :=
forall j, wf_json j = true -> wf_json (m j).2 = true.

Section preserves.
Context {A : Type}.

Lemma preserves_ret (a : A) : preserves_wf (ret a).
Proof. by intros j. Qed.
Lemma preserves_throw e : preserves_wf (A:=A) (throw e).
Proof. by intros j. Qed.
Lemma preserves_lift (o : outcome A) : preserves_wf (lift o).
Proof. by intros j. Qed.
Lemma preserves_get : preserves_wf (@get json).
Proof. by intros j. Qed.
Lemma preserves_bind {B} (m : M json B) (k : B -> M json A) :
  preserves_wf m -> (forall b, preserves_wf (k b)) -> preserves_wf (bind m k).
Proof.
  intros Hm Hk j Hj. specialize (Hm j Hj). unfold bind.
  destruct (m j) as [[b|e|] j']; cbn in *; [by apply Hk|done|done].
Qed.
Lemma preserves_throw_if b e : preserves_wf (@throw_if json b e).
Proof. by destruct b; intros j. Qed.
Lemma preserves_when b m : preserves_wf m -> preserves_wf (@when json b m).
Proof. destruct b; [done|]. by intros _ j. Qed.
Lemma preserves_set_key k v : wf_json v = true -> preserves_wf (set_key k v).
Proof.
  intros Hv [| | | | | | |o] Hj; try done.
  - unfold set_key, at_key, put. cbn. by rewrite Hv.
  - by apply wf_json_insert.
Qed.
Lemma preserves_get_key k : preserves_wf (get_key k).
Proof.
  intros [| | | | | | |o] Hj; try done. apply wf_json_insert; [|done].
  destruct (obj_lookup k o) as [v|] eqn:E; cbn; [|done]. by eapply (wf_json_find k (JObject o)).
Qed.
Lemma preserves_erase_key k : preserves_wf (erase_key k).
Proof.
  intros [| | | | | | |o] Hj; try done. cbn in *. apply andb_prop in Hj as [Hs Hf].
  by rewrite obj_sorted_erase, obj_erase_forall.
Qed.
Lemma preserves_deref k (m : M json A) : preserves_wf m -> preserves_wf (deref k m).
Proof.
  intros Hm [| | | | | | |o] Hj; try done. unfold deref, zoom. cbn [find].
  destruct (obj_lookup k o) as [v|] eqn:E; [|done].
  assert (wf_json v = true) as Hv by (by eapply (wf_json_find k (JObject o))).
  specialize (Hm v Hv). destruct (m v) as [r v']. cbn [snd] in *. by apply wf_json_insert.
Qed.
End preserves.

Lemma preserves_for_list {B} (l : list B) (f : B -> M json unit) :
(forall x, preserves_wf (f x)) -> preserves_wf (for_list l f).
Proof. intros Hf. induction l as [|x l IH]; [by intros j|]. by apply preserves_bind. Qed.

Lemma each_value_keys m o : map fst (each_value m o).2 = map fst o.
Proof.
induction o as [|[k v] o IH]; cbn; [done|]. destruct (m v) as [[[]|e|] v']; cbn; try done.
destruct (each_value m o) as [r o']. cbn in *. by rewrite IH.
Qed.

Lemma obj_sorted_keys {V W} (o : list (string * V)) (o' : list (string * W)) :
map fst o = map fst o' -> obj_sorted o = obj_sorted o'.
Proof.
revert o'. induction o as [|[k v] o IH]; intros [|[k' v'] o']; cbn; try done.
intros [= -> H]. rewrite (IH _ H). f_equal. by destruct o as [|[]], o' as [|[]]; cbn in *; simplify_eq.
Qed.

Lemma preserves_for_range m : preserves_wf m -> preserves_wf (for_range m).
Proof.
intros Hm [| | | | | |l|o] Hj; try (by apply Hm); try done.
- cbn. assert (forallb wf_json (each m l).2 = true) as H.
  { induction l as [|x l IH]; cbn; [done|]. cbn in Hj. apply andb_prop in Hj as [Hx Hl].
    specialize (Hm x Hx). destruct (m x) as [[[]|e|] x']; cbn in *; try (by rewrite Hm, Hl).
    specialize (IH Hl). destruct (each m l) as [r l']. cbn in *. by rewrite Hm, IH. }
  by destruct (each m l).
- cbn in Hj. apply andb_prop in Hj as [Hs Hf].
  assert (forallb (fun kv => wf_json kv.2) (each_value m o).2 = true) as H.
  { clear Hs. induction o as [|[k x] o IH]; cbn; [done|]. cbn in Hf. apply andb_prop in Hf as [Hx Hl].
    specialize (Hm x Hx). destruct (m x) as [[[]|e|] x']; cbn in *; try (by rewrite Hm, Hl).
    specialize (IH Hl). destruct (each_value m o) as [r l']. cbn in *. by rewrite Hm, IH. }
  pose proof (each_value_keys m o) as Hk. cbn. destruct (each_value m o) as [r o']. cbn in *.
  by rewrite H, (obj_sorted_keys o' o), Hs.
Qed.

Create HintDb wf_json discriminated.
#[export] Hint Constants Opaque : wf_json.
#[export] Hint Resolve preserves_ret preserves_throw preserves_lift preserves_get preserves_bind
preserves_throw_if preserves_when preserves_get_key preserves_erase_key preserves_deref
preserves_for_list preserves_for_range : wf_json.
#[export] Hint Extern 1 (preserves_wf (set_key _ _)) => apply preserves_set_key; reflexivity : wf_json.
#[export] Hint Extern 4 (preserves_wf (match ?x with _ => _ end)) => destruct x : wf_json.

(** ** Automation *)

(** Decide comparisons of string literals. *)
Ltac eqb_literals :=
repeat match goal with
| |- context [String.eqb ?a ?b] =>
  let r := eval vm_compute in (String.eqb a b) in
  lazymatch r with true => idtac | false => idtac end;
  change (String.eqb a b) with r; cbv iota
end.

(** Push lookups through the updates of an object. *)
Ltac obj_simpl :=
repeat (first [rewrite obj_lookup_insert | rewrite obj_lookup_erase | rewrite find_mk_obj];
        eqb_literals).

(** One step of a weakest-precondition proof. *)
Ltac wp_step :=
lazymatch goal with
| |- wp (bind _ _) _ _ _ => apply wp_bind
| |- wp get _ _ _ => apply wp_get
| |- wp (ret _) _ _ _ => apply wp_ret
| |- wp (throw _) _ _ _ => apply wp_throw
| |- wp (throw_if _ _) _ _ _ => apply wp_throw_if; intros ?
| |- wp (when _ _) _ _ _ => apply wp_when; intros ?
| |- wp (set_key _ _) _ _ (JObject _) => apply wp_set_key
| |- wp (erase_key _) _ _ (JObject _) => apply wp_erase_key
| |- wp (lift _) _ _ _ => apply wp_lift
end.
