(* ===== verification/Text.v ===== *)
(** * Character functions and the regular expressions of the client

    [std::regex] is used in libmediasoupclient with a handful of constant
    expressions; each is a matcher here.  [icase] compares lower-cased
    characters, and [.] matches anything but a line terminator. *)

From stdpp Require Import base list strings pretty.
From Stdlib Require Import ZArith Lia Ascii.
From S2P Require Import Prelude.

(** [::tolower] in the C locale. *)
Definition lower_char (c : Ascii.ascii) : Ascii.ascii :=
  let n := Ascii.N_of_ascii c in
  if (65 <=? n)%N && (n <=? 90)%N then Ascii.ascii_of_N (n + 32) else c.
Fixpoint lower (s : string) : string :=
  match s with
  | EmptyString => EmptyString
  | String c r => String (lower_char c) (lower r)
  end.

Definition is_line_terminator (c : Ascii.ascii) : bool :=
  let n := Ascii.N_of_ascii c in (n =? 10)%N || (n =? 13)%N.
Fixpoint no_line_terminator (s : string) : bool :=
  match s with
  | EmptyString => true
  | String c r => negb (is_line_terminator c) && no_line_terminator r
  end.

(** A prefix equal to [p] (given in lower case) up to case: the text that
    matched and the rest. *)
Fixpoint strip_icase (p s : string) : option (string * string) :=
  match p, s with
  | EmptyString, _ => Some (EmptyString, s)
  | String c p', String d s' =>
    if Ascii.eqb c (lower_char d) then
      match strip_icase p' s' with
      | Some (m, r) => Some (String d m, r)
      | None => None
      end
    else None
  | _, _ => None
  end.

(** [^(audio|video)/], case-insensitive: group 1 and the rest of the text. *)
Definition strip_media (s : string) : option (string * string) :=
  let slash (o : option (string * string)) :=
    match o with
    | Some (kind, String "/"%char r) => Some (kind, r)
    | _ => None
    end in
  match slash (strip_icase "audio" s) with
  | Some x => Some x
  | None => slash (strip_icase "video" s)
  end.

(** [^(audio|video)/(.+)] on the whole text: groups 1 and 2. *)
Definition match_mime (s : string) : option (string * string) :=
  match strip_media s with
  | Some (kind, r) =>
    if negb (String.eqb r "") && no_line_terminator r then Some (kind, r) else None
  | None => None
  end.

(** [^(audio|video)/rtx$], case-insensitive, on the whole text. *)
Definition match_rtx (s : string) : bool :=
  match strip_media s with
  | Some (_, r) => String.eqb (lower r) "rtx"
  | None => false
  end.

(** [(w1|w2|...)], case-insensitive, on the whole text. *)
Definition match_words (ws : list string) (s : string) : bool :=
  existsb (fun w => String.eqb (lower s) w) ws.

(** ** Facts *)

Lemma lower_char_idem c : lower_char (lower_char c) = lower_char c.
Proof. by destruct c as [[] [] [] [] [] [] [] []]. Qed.

Lemma lower_idem s : lower (lower s) = lower s.
Proof. induction s as [|c s IH]; cbn; [done|]. by rewrite lower_char_idem, IH. Qed.

Lemma string_app_cons c s t : String c s +:+ t = String c (s +:+ t).
Proof. done. Qed.

Lemma string_app_nil_l s : "" +:+ s = s.
Proof. done. Qed.

Lemma lower_app s t : lower (s +:+ t) = lower s +:+ lower t.
Proof. induction s as [|c s IH]; [done|]. rewrite string_app_cons. cbn. by rewrite IH. Qed.

Lemma strip_icase_spec p s m r :
  strip_icase p s = Some (m, r) -> s = m +:+ r /\ lower m = p.
Proof.
  revert s m r. induction p as [|c p IH]; intros s m r; cbn.
  - by intros [= <- <-].
  - destruct s as [|d s]; [done|].
    destruct (Ascii.eqb_spec c (lower_char d)) as [->|]; [|done].
    destruct (strip_icase p s) as [[m' r']|] eqn:E; [|done]. intros [= <- <-].
    by apply IH in E as [-> <-].
Qed.

Lemma strip_icase_app p m r : lower m = p -> strip_icase p (m +:+ r) = Some (m, r).
Proof.
  revert m. induction p as [|c p IH]; intros [|d m]; cbn; try done.
  intros [= <- <-]. rewrite string_app_cons, Ascii.eqb_refl. by rewrite IH.
Qed.

(** [strip_media] accepts exactly the texts [kind/rest] whose kind is audio or
    video up to case, and returns the two parts unchanged. *)
Lemma strip_media_spec s kind r :
  strip_media s = Some (kind, r) <->
  s = kind +:+ "/" +:+ r /\ (lower kind = "audio" \/ lower kind = "video").
Proof.
  unfold strip_media. split.
  - destruct (strip_icase "audio" s) as [[m rest]|] eqn:E.
    + pose proof (strip_icase_spec _ _ _ _ E) as [-> Hm].
      assert (strip_icase "video" (m +:+ rest) = None) as Hv.
      { destruct m as [|c m]; [done|]. rewrite string_app_cons. cbn in Hm |- *.
        injection Hm as Hc _. by rewrite Hc. }
      rewrite Hv. destruct rest as [|c rest]; [done|].
      destruct (ascii_dec c "/"%char) as [->|Hne].
      * intros [= <- <-]. auto.
      * destruct c as [[] [] [] [] [] [] [] []]; try done; by destruct Hne.
    + destruct (strip_icase "video" s) as [[m rest]|] eqn:E'; [|done].
      pose proof (strip_icase_spec _ _ _ _ E') as [-> Hm].
      destruct rest as [|c rest]; [done|]. destruct (ascii_dec c "/"%char) as [->|Hne].
      * intros [= <- <-]. auto.
      * destruct c as [[] [] [] [] [] [] [] []]; try done; by destruct Hne.
  - intros [-> [Hk|Hk]].
    + by rewrite (strip_icase_app "audio").
    + rewrite (strip_icase_app "video") by done.
      assert (strip_icase "audio" (kind +:+ "/" +:+ r) = None) as ->; [|done].
      destruct kind as [|c m]; [done|]. rewrite string_app_cons. cbn in Hk |- *.
      injection Hk as Hc _. by rewrite Hc.
Qed.

Lemma match_mime_spec s kind r :
  match_mime s = Some (kind, r) <->
  s = kind +:+ "/" +:+ r /\ (lower kind = "audio" \/ lower kind = "video") /\
  r <> "" /\ no_line_terminator r = true.
Proof.
  unfold match_mime. split.
  - destruct (strip_media s) as [[k r']|] eqn:E; [|done].
    apply strip_media_spec in E as [-> Hk].
    destruct (String.eqb_spec r' ""), (no_line_terminator r') eqn:En; cbn; try done.
    by intros [= -> ->].
  - intros (-> & Hk & Hne & Hn). rewrite (proj2 (strip_media_spec _ kind r)) by done.
    destruct (String.eqb_spec r ""); [done|]. by rewrite Hn.
Qed.

(** A mime type the RTX expression accepts is one the mime expression accepts. *)
Lemma match_rtx_mime s : match_rtx s = true -> exists kind r, match_mime s = Some (kind, r).
Proof.
  unfold match_rtx, match_mime. destruct (strip_media s) as [[k r]|]; [|done].
  intros Hr%String.eqb_eq. exists k, r.
  destruct r as [|a [|b [|c [|]]]]; try done. cbn.
  assert (forall x y, lower_char x = y -> Ascii.N_of_ascii y > 31 -> is_line_terminator x = false)%N as Hlt.
  { intros x y <-. by destruct x as [[] [] [] [] [] [] [] []]. }
  cbn in Hr. injection Hr as Ha Hb Hc.
  rewrite (Hlt _ _ Ha), (Hlt _ _ Hb), (Hlt _ _ Hc); done.
Qed.
