(* ===== verification/OrtcValidate.v ===== *)
(** * ortc.cpp: validation of the dictionaries exchanged with the server

    Each [validate*] function takes its JSON argument by reference, throws a
    MediaSoupClientTypeError when it is invalid, and fills missing members with
    default values.  The value is the state of the monad; what a throwing call
    has already filled in stays. *)

From stdpp Require Import base list strings pretty.
From Stdlib Require Import ZArith Lia.
From S2P Require Import Prelude Json Text.

(** ** RTP capabilities *)

Definition validateRtcpFeedback : M json unit :=
  fb <- get ;;
  throw_if (negb (is_object fb)) (type_error "fb is not an object") ;;;
  let typeIt := find "type" fb in
  let parameterIt := find "parameter" fb in
  throw_if (missing is_string typeIt) (type_error "missing fb.type") ;;;
  when (missing is_string parameterIt) (set_key "parameter" (JString "")).

(** The body of the loop over [codec.parameters]. *)
Definition validateCodecParameter (kv : string * json) : M json unit :=
  let '(key, value) := kv in
  throw_if (negb (is_string value) && negb (is_number value) && negb (is_null value))
    (type_error "invalid codec parameter") ;;;
  when (String.eqb key "apt")
    (throw_if (negb (is_number_integer value)) (type_error "invalid codec apt parameter")).

Definition validateCodecParameters : M json unit :=
  parameters <- get ;; for_list (items parameters) validateCodecParameter.

Definition validateRtpCodecCapability : M json unit :=
  codec <- get ;;
  throw_if (negb (is_object codec)) (type_error "codec is not an object") ;;;
  let mimeTypeIt := find "mimeType" codec in
  let preferredPayloadTypeIt := find "preferredPayloadType" codec in
  let clockRateIt := find "clockRate" codec in
  let channelsIt := find "channels" codec in
  let parametersIt := find "parameters" codec in
  let rtcpFeedbackIt := find "rtcpFeedback" codec in
  match mimeTypeIt with
  | Some (JString mimeType) =>
    match match_mime mimeType with
    | None => throw (type_error "invalid codec.mimeType")
    | Some (kind, _) =>
      set_key "kind" (JString kind) ;;;
      throw_if (ill_typed is_number_integer preferredPayloadTypeIt)
        (type_error "invalid codec.preferredPayloadType") ;;;
      throw_if (missing is_number_integer clockRateIt) (type_error "missing codec.clockRate") ;;;
      (if String.eqb kind "audio"
       then when (missing is_number_integer channelsIt) (set_key "channels" (JInt 1))
       else when (present channelsIt) (erase_key "channels")) ;;;
      when (missing is_object parametersIt) (set_key "parameters" (JObject [])) ;;;
      deref "parameters" validateCodecParameters ;;;
      when (missing is_array rtcpFeedbackIt) (set_key "rtcpFeedback" (JArray [])) ;;;
      deref "rtcpFeedback" (for_range validateRtcpFeedback)
    end
  | _ => throw (type_error "missing codec.mimeType")
  end.

Definition validateRtpHeaderExtension : M json unit :=
  ext <- get ;;
  throw_if (negb (is_object ext)) (type_error "ext is not an object") ;;;
  let kindIt := find "kind" ext in
  let uriIt := find "uri" ext in
  let preferredIdIt := find "preferredId" ext in
  let preferredEncryptIt := find "preferredEncrypt" ext in
  let directionIt := find "direction" ext in
  when (missing is_string kindIt) (set_key "kind" (JString "")) ;;;
  kind <- deref "kind" (v <- get ;; lift (get_string v)) ;;
  throw_if (negb (String.eqb kind "") && negb (String.eqb kind "audio") &&
            negb (String.eqb kind "video")) (type_error "invalid ext.kind") ;;;
  throw_if (missing is_nonempty_string uriIt) (type_error "missing ext.uri") ;;;
  throw_if (missing is_number_integer preferredIdIt) (type_error "missing ext.preferredId") ;;;
  throw_if (ill_typed is_boolean preferredEncryptIt)
    (type_error "invalid ext.preferredEncrypt") ;;;
  when (negb (present preferredEncryptIt)) (set_key "preferredEncrypt" (JBool false)) ;;;
  throw_if (ill_typed is_string directionIt) (type_error "invalid ext.direction") ;;;
  when (negb (present directionIt)) (set_key "direction" (JString "sendrecv")).

Definition validateRtpCapabilities : M json unit :=
  caps <- get ;;
  throw_if (negb (is_object caps)) (type_error "caps is not an object") ;;;
  let codecsIt := find "codecs" caps in
  let headerExtensionsIt := find "headerExtensions" caps in
  throw_if (ill_typed is_array codecsIt) (type_error "caps.codecs is not an array") ;;;
  when (negb (present codecsIt)) (set_key "codecs" (JArray [])) ;;;
  deref "codecs" (for_range validateRtpCodecCapability) ;;;
  throw_if (ill_typed is_array headerExtensionsIt)
    (type_error "caps.headerExtensions is not an array") ;;;
  when (negb (present headerExtensionsIt)) (set_key "headerExtensions" (JArray [])) ;;;
  deref "headerExtensions" (for_range validateRtpHeaderExtension).

(** ** RTP parameters *)

Definition validateRtpCodecParameters : M json unit :=
  codec <- get ;;
  throw_if (negb (is_object codec)) (type_error "codec is not an object") ;;;
  let mimeTypeIt := find "mimeType" codec in
  let payloadTypeIt := find "payloadType" codec in
  let clockRateIt := find "clockRate" codec in
  let channelsIt := find "channels" codec in
  let parametersIt := find "parameters" codec in
  let rtcpFeedbackIt := find "rtcpFeedback" codec in
  match mimeTypeIt with
  | Some (JString mimeType) =>
    match match_mime mimeType with
    | None => throw (type_error "invalid codec.mimeType")
    | Some (kind, _) =>
      throw_if (missing is_number_integer payloadTypeIt)
        (type_error "missing codec.payloadType") ;;;
      throw_if (missing is_number_integer clockRateIt) (type_error "missing codec.clockRate") ;;;
      (if String.eqb kind "audio"
       then when (missing is_number_integer channelsIt) (set_key "channels" (JInt 1))
       else when (present channelsIt) (erase_key "channels")) ;;;
      when (missing is_object parametersIt) (set_key "parameters" (JObject [])) ;;;
      deref "parameters" validateCodecParameters ;;;
      when (missing is_array rtcpFeedbackIt) (set_key "rtcpFeedback" (JArray [])) ;;;
      deref "rtcpFeedback" (for_range validateRtcpFeedback)
    end
  | _ => throw (type_error "missing codec.mimeType")
  end.

Definition validateRtpHeaderExtensionParameters : M json unit :=
  ext <- get ;;
  throw_if (negb (is_object ext)) (type_error "ext is not an object") ;;;
  let uriIt := find "uri" ext in
  let idIt := find "id" ext in
  let encryptIt := find "encrypt" ext in
  let parametersIt := find "parameters" ext in
  throw_if (missing is_nonempty_string uriIt) (type_error "missing ext.uri") ;;;
  throw_if (missing is_number_integer idIt) (type_error "missing ext.id") ;;;
  throw_if (ill_typed is_boolean encryptIt) (type_error "invalid ext.encrypt") ;;;
  when (negb (present encryptIt)) (set_key "encrypt" (JBool false)) ;;;
  when (missing is_object parametersIt) (set_key "parameters" (JObject [])) ;;;
  deref "parameters"
    (parameters <- get ;;
     for_list (items parameters) (fun kv =>
       throw_if (negb (is_string (snd kv)) && negb (is_number (snd kv)))
         (type_error "invalid header extension parameter"))).

Definition validateRtpEncodingParameters : M json unit :=
  encoding <- get ;;
  throw_if (negb (is_object encoding)) (type_error "encoding is not an object") ;;;
  let ssrcIt := find "ssrc" encoding in
  let ridIt := find "rid" encoding in
  let rtxIt := find "rtx" encoding in
  let dtxIt := find "dtx" encoding in
  let scalabilityModeIt := find "scalabilityMode" encoding in
  throw_if (ill_typed is_number_integer ssrcIt) (type_error "invalid encoding.ssrc") ;;;
  throw_if (ill_typed is_nonempty_string ridIt) (type_error "invalid encoding.rid") ;;;
  throw_if (ill_typed is_object rtxIt) (type_error "invalid encoding.rtx") ;;;
  match rtxIt with
  | Some rtx =>
    throw_if (missing is_number_integer (find "ssrc" rtx)) (type_error "missing encoding.rtx.ssrc")
  | None => ret tt
  end ;;;
  when (missing is_boolean dtxIt) (set_key "dtx" (JBool false)) ;;;
  throw_if (ill_typed is_nonempty_string scalabilityModeIt)
    (type_error "invalid encoding.scalabilityMode").

Definition validateRtcpParameters : M json unit :=
  rtcp <- get ;;
  throw_if (negb (is_object rtcp)) (type_error "rtcp is not an object") ;;;
  let cnameIt := find "cname" rtcp in
  let reducedSizeIt := find "reducedSize" rtcp in
  throw_if (ill_typed is_string cnameIt) (type_error "invalid rtcp.cname") ;;;
  when (missing is_boolean reducedSizeIt) (set_key "reducedSize" (JBool true)).

Definition validateRtpParameters : M json unit :=
  params <- get ;;
  throw_if (negb (is_object params)) (type_error "params is not an object") ;;;
  let midIt := find "mid" params in
  let codecsIt := find "codecs" params in
  let headerExtensionsIt := find "headerExtensions" params in
  let encodingsIt := find "encodings" params in
  let rtcpIt := find "rtcp" params in
  throw_if (ill_typed is_nonempty_string midIt) (type_error "params.mid is not a string") ;;;
  throw_if (missing is_array codecsIt) (type_error "missing params.codecs") ;;;
  deref "codecs" (for_range validateRtpCodecParameters) ;;;
  throw_if (ill_typed is_array headerExtensionsIt)
    (type_error "params.headerExtensions is not an array") ;;;
  when (negb (present headerExtensionsIt)) (set_key "headerExtensions" (JArray [])) ;;;
  deref "headerExtensions" (for_range validateRtpHeaderExtensionParameters) ;;;
  throw_if (ill_typed is_array encodingsIt) (type_error "params.encodings is not an array") ;;;
  when (negb (present encodingsIt)) (set_key "encodings" (JArray [])) ;;;
  deref "encodings" (for_range validateRtpEncodingParameters) ;;;
  throw_if (ill_typed is_object rtcpIt) (type_error "params.rtcp is not an object") ;;;
  when (negb (present rtcpIt)) (set_key "rtcp" (JObject [])) ;;;
  deref "rtcp" validateRtcpParameters.

(** ** SCTP *)

Definition validateNumSctpStreams : M json unit :=
  numStreams <- get ;;
  throw_if (negb (is_object numStreams)) (type_error "numStreams is not an object") ;;;
  throw_if (missing is_number_integer (find "OS" numStreams)) (type_error "missing numStreams.OS") ;;;
  throw_if (missing is_number_integer (find "MIS" numStreams)) (type_error "missing numStreams.MIS").

Definition validateSctpCapabilities : M json unit :=
  caps <- get ;;
  throw_if (negb (is_object caps)) (type_error "caps is not an object") ;;;
  throw_if (missing is_object (find "numStreams" caps)) (type_error "missing caps.numStreams") ;;;
  deref "numStreams" validateNumSctpStreams.

Definition validateSctpParameters : M json unit :=
  params <- get ;;
  throw_if (negb (is_object params)) (type_error "params is not an object") ;;;
  throw_if (missing is_number_integer (find "port" params)) (type_error "missing params.port") ;;;
  throw_if (missing is_number_integer (find "OS" params)) (type_error "missing params.OS") ;;;
  throw_if (missing is_number_integer (find "MIS" params)) (type_error "missing params.MIS") ;;;
  throw_if (missing is_number_integer (find "maxMessageSize" params))
    (type_error "missing params.maxMessageSize").

Definition validateSctpStreamParameters : M json unit :=
  params <- get ;;
  throw_if (negb (is_object params)) (type_error "params is not an object") ;;;
  let streamIdIt := find "streamId" params in
  let orderedIt := find "ordered" params in
  let maxPacketLifeTimeIt := find "maxPacketLifeTime" params in
  let maxRetransmitsIt := find "maxRetransmits" params in
  let priorityIt := find "priority" params in
  let labelIt := find "label" params in
  let protocolIt := find "protocol" params in
  throw_if (missing is_number_integer streamIdIt) (type_error "missing params.streamId") ;;;
  let orderedGiven := negb (missing is_boolean orderedIt) in
  when (negb orderedGiven) (set_key "ordered" (JBool true)) ;;;
  when (missing is_number_integer maxPacketLifeTimeIt) (set_key "maxPacketLifeTime" (JUint 0)) ;;;
  when (missing is_number_integer maxRetransmitsIt) (set_key "maxRetransmits" (JUint 0)) ;;;
  throw_if (present maxPacketLifeTimeIt && present maxRetransmitsIt)
    (type_error "cannot provide both maxPacketLifeTime and maxRetransmits") ;;;
  ordered <- get_key "ordered" ;;
  throw_if (orderedGiven && json_eqb ordered (JBool true) &&
            (present maxPacketLifeTimeIt || present maxRetransmitsIt))
    (type_error "cannot be ordered with maxPacketLifeTime or maxRetransmits") ;;;
  when (negb orderedGiven && (present maxPacketLifeTimeIt || present maxRetransmitsIt))
    (set_key "ordered" (JBool false)) ;;;
  when (missing is_string priorityIt) (set_key "priority" (JString "")) ;;;
  when (missing is_string labelIt) (set_key "label" (JString "")) ;;;
  when (missing is_string protocolIt) (set_key "protocol" (JString "")).

(** ** ICE and DTLS *)

Definition validateIceParameters : M json unit :=
  params <- get ;;
  throw_if (negb (is_object params)) (type_error "params is not an object") ;;;
  throw_if (missing is_nonempty_string (find "usernameFragment" params))
    (type_error "missing params.usernameFragment") ;;;
  throw_if (missing is_nonempty_string (find "password" params))
    (type_error "missing params.password") ;;;
  when (missing is_boolean (find "iceLite" params)) (set_key "iceLite" (JBool false)).

(** A present, non-empty string that matches one of the words. *)
Definition require_word (k : string) (ws : list string) (absent invalid : string)
    (j : json) : M json unit :=
  throw_if (missing is_nonempty_string (find k j)) (type_error absent) ;;;
  s <- lift (get_string (default JNull (find k j))) ;;
  throw_if (negb (match_words ws s)) (type_error invalid).

Definition validateIceCandidate : M json unit :=
  params <- get ;;
  throw_if (negb (is_object params)) (type_error "params is not an object") ;;;
  throw_if (missing is_nonempty_string (find "foundation" params))
    (type_error "missing params.foundation") ;;;
  throw_if (missing is_number_unsigned (find "priority" params))
    (type_error "missing params.priority") ;;;
  throw_if (missing is_nonempty_string (find "ip" params)) (type_error "missing params.ip") ;;;
  require_word "protocol" ["udp"; "tcp"] "missing params.protocol" "invalid params.protocol" params ;;;
  throw_if (missing is_number_unsigned (find "port" params)) (type_error "missing params.port") ;;;
  require_word "type" ["host"; "srflx"; "prflx"; "relay"]
    "missing params.type" "invalid params.type" params.

Definition validateIceCandidates : M json unit :=
  params <- get ;;
  throw_if (negb (is_array params)) (type_error "params is not an array") ;;;
  for_range validateIceCandidate.

Definition validateDtlsFingerprint : M json unit :=
  params <- get ;;
  throw_if (negb (is_object params)) (type_error "params is not an object") ;;;
  throw_if (missing is_nonempty_string (find "algorithm" params))
    (type_error "missing params.algorithm") ;;;
  throw_if (missing is_nonempty_string (find "value" params)) (type_error "missing params.value").

(** [is_array() && !empty()]. *)
Definition is_nonempty_array (j : json) : bool := is_array j && negb (json_empty j).

Definition validateDtlsParameters : M json unit :=
  params <- get ;;
  throw_if (negb (is_object params)) (type_error "params is not an object") ;;;
  require_word "role" ["auto"; "client"; "server"] "missing params.role" "invalid params.role" params ;;;
  throw_if (missing is_nonempty_array (find "fingerprints" params))
    (type_error "missing params.fingerprints") ;;;
  deref "fingerprints" (for_range validateDtlsFingerprint).

(** ** Producer codec options *)

Definition validateProducerCodecOptions : M json unit :=
  params <- get ;;
  throw_if (negb (is_object params)) (type_error "params is not an object") ;;;
  throw_if (ill_typed is_boolean (find "opusStereo" params))
    (type_error "invalid params.opusStereo") ;;;
  throw_if (ill_typed is_boolean (find "opusFec" params)) (type_error "invalid params.opusFec") ;;;
  throw_if (ill_typed is_boolean (find "opusDtx" params)) (type_error "invalid params.opusDtx") ;;;
  throw_if (ill_typed is_number_unsigned (find "opusMaxPlaybackRate" params))
    (type_error "invalid params.opusMaxPlaybackRate") ;;;
  throw_if (ill_typed is_number_integer (find "opusPtime" params))
    (type_error "invalid params.opusPtime") ;;;
  throw_if (ill_typed is_number_integer (find "videoGoogleStartBitrate" params))
    (type_error "invalid params.videoGoogleStartBitrate") ;;;
  throw_if (ill_typed is_number_integer (find "videoGoogleMaxBitrate" params))
    (type_error "invalid params.videoGoogleMaxBitrate") ;;;
  throw_if (ill_typed is_number_integer (find "videoGoogleMinBitrate" params))
    (type_error "invalid params.videoGoogleMinBitrate").
