(* ===== verification/OrtcValidateSpec.v ===== *)
(** * What the validators of ortc.cpp guarantee

    For every dictionary a boolean normal form says what an accepted value
    looks like.  Each validator, on every JSON value, either returns with the
    value in normal form or throws a MediaSoupClientTypeError, and it accepts a
    value in normal form without changing it. *)

From stdpp Require Import base list strings pretty.
From Stdlib Require Import ZArith Lia.
From S2P Require Import Prelude Json Text OrtcValidate.

(** ** Normal forms *)

Definition normalRtcpFeedback (fb : json) : bool :=
  is_object fb && key_ok "type" is_string fb && key_ok "parameter" is_string fb.

Definition normalCodecParameter (kv : string * json) : bool :=
  (is_string kv.2 || is_number kv.2 || is_null kv.2) &&
  (negb (String.eqb kv.1 "apt") || is_number_integer kv.2).
Definition normalCodecParameters (j : json) : bool :=
  match j with JObject o => forallb normalCodecParameter o | _ => false end.

(** The media kind of a codec: group 1 of the mime type expression. *)
Definition mime_kind (codec : json) : option string :=
  match find "mimeType" codec with
  | Some (JString m) => fst <$> match_mime m
  | _ => None
  end.

(** What codec capabilities and codec parameters have in common. *)
Definition normalCodecCommon (kind : string) (codec : json) : bool :=
  key_ok "clockRate" is_number_integer codec &&
  (if String.eqb kind "audio" then key_ok "channels" is_number_integer codec
   else negb (contains "channels" codec)) &&
  key_ok "parameters" normalCodecParameters codec &&
  key_ok "rtcpFeedback" (array_of normalRtcpFeedback) codec.

Definition normalRtpCodecCapability (codec : json) : bool :=
  match mime_kind codec with
  | Some kind =>
    key_ok "kind" (fun v => match v with JString k => String.eqb k kind | _ => false end) codec &&
    key_opt "preferredPayloadType" is_number_integer codec &&
    normalCodecCommon kind codec
  | None => false
  end.

Definition media_kind (v : json) : bool :=
  match v with JString k => existsb (String.eqb k) [""; "audio"; "video"] | _ => false end.
Definition normalRtpHeaderExtension (ext : json) : bool :=
  is_object ext && key_ok "kind" media_kind ext && key_ok "uri" is_nonempty_string ext &&
  key_ok "preferredId" is_number_integer ext && key_ok "preferredEncrypt" is_boolean ext &&
  key_ok "direction" is_string ext.

Definition normalRtpCapabilities (caps : json) : bool :=
  is_object caps && key_ok "codecs" (array_of normalRtpCodecCapability) caps &&
  key_ok "headerExtensions" (array_of normalRtpHeaderExtension) caps.

Definition normalRtpCodecParameters (codec : json) : bool :=
  match mime_kind codec with
  | Some kind => key_ok "payloadType" is_number_integer codec && normalCodecCommon kind codec
  | None => false
  end.

Definition normalExtensionParameters (v : json) : bool :=
  match v with JObject o => forallb (fun kv => is_string kv.2 || is_number kv.2) o | _ => false end.
Definition normalRtpHeaderExtensionParameters (ext : json) : bool :=
  is_object ext && key_ok "uri" is_nonempty_string ext && key_ok "id" is_number_integer ext &&
  key_ok "encrypt" is_boolean ext &&
  key_ok "parameters" normalExtensionParameters ext.

Definition normalRtxParameters (v : json) : bool :=
  is_object v && key_ok "ssrc" is_number_integer v.
Definition normalRtpEncodingParameters (encoding : json) : bool :=
  is_object encoding && key_opt "ssrc" is_number_integer encoding &&
  key_opt "rid" is_nonempty_string encoding &&
  key_opt "rtx" normalRtxParameters encoding &&
  key_ok "dtx" is_boolean encoding && key_opt "scalabilityMode" is_nonempty_string encoding.

Definition normalRtcpParameters (rtcp : json) : bool :=
  is_object rtcp && key_opt "cname" is_string rtcp && key_ok "reducedSize" is_boolean rtcp.

Definition normalRtpParameters (params : json) : bool :=
  is_object params && key_opt "mid" is_nonempty_string params &&
  key_ok "codecs" (array_of normalRtpCodecParameters) params &&
  key_ok "headerExtensions" (array_of normalRtpHeaderExtensionParameters) params &&
  key_ok "encodings" (array_of normalRtpEncodingParameters) params &&
  key_ok "rtcp" normalRtcpParameters params.

Definition normalNumSctpStreams (n : json) : bool :=
  is_object n && key_ok "OS" is_number_integer n && key_ok "MIS" is_number_integer n.
Definition normalSctpCapabilities (caps : json) : bool :=
  is_object caps && key_ok "numStreams" normalNumSctpStreams caps.
Definition normalSctpParameters (params : json) : bool :=
  is_object params && key_ok "port" is_number_integer params &&
  key_ok "OS" is_number_integer params && key_ok "MIS" is_number_integer params &&
  key_ok "maxMessageSize" is_number_integer params.

Definition normalIceParameters (params : json) : bool :=
  is_object params && key_ok "usernameFragment" is_nonempty_string params &&
  key_ok "password" is_nonempty_string params && key_ok "iceLite" is_boolean params.

(** A string that matches one of the words; the words are not empty. *)
Definition is_word (ws : list string) (v : json) : bool :=
  match v with JString s => match_words ws s | _ => false end.
Definition normalIceCandidate (params : json) : bool :=
  is_object params && key_ok "foundation" is_nonempty_string params &&
  key_ok "priority" is_number_unsigned params && key_ok "ip" is_nonempty_string params &&
  key_ok "protocol" (is_word ["udp"; "tcp"]) params && key_ok "port" is_number_unsigned params &&
  key_ok "type" (is_word ["host"; "srflx"; "prflx"; "relay"]) params.
Definition normalIceCandidates : json -> bool := array_of normalIceCandidate.

Definition normalDtlsFingerprint (params : json) : bool :=
  is_object params && key_ok "algorithm" is_nonempty_string params &&
  key_ok "value" is_nonempty_string params.
Definition normalDtlsFingerprints (v : json) : bool :=
  array_of normalDtlsFingerprint v && negb (json_empty v).
Definition normalDtlsParameters (params : json) : bool :=
  is_object params && key_ok "role" (is_word ["auto"; "client"; "server"]) params &&
  key_ok "fingerprints" normalDtlsFingerprints params.

Definition normalProducerCodecOptions (params : json) : bool :=
  is_object params && key_opt "opusStereo" is_boolean params && key_opt "opusFec" is_boolean params &&
  key_opt "opusDtx" is_boolean params && key_opt "opusMaxPlaybackRate" is_number_unsigned params &&
  key_opt "opusPtime" is_number_integer params &&
  key_opt "videoGoogleStartBitrate" is_number_integer params &&
  key_opt "videoGoogleMaxBitrate" is_number_integer params &&
  key_opt "videoGoogleMinBitrate" is_number_integer params.

(** A complete data stream dictionary. *)
Definition normalSctpStreamParameters (params : json) : bool :=
  is_object params && key_ok "streamId" is_number_integer params &&
  key_ok "ordered" is_boolean params && key_ok "maxPacketLifeTime" is_number_integer params &&
  key_ok "maxRetransmits" is_number_integer params && key_ok "priority" is_string params &&
  key_ok "label" is_string params && key_ok "protocol" is_string params.

(** ** Specification of a validator *)

(** On every value: a normal form or a type error, never undefined behaviour;
    and a normal form is accepted as it is. *)
Record validator (m : M json unit) (normal : json -> bool) : Prop := {
  validator_wp : forall j,
    wp m (fun _ j' => normal j' = true) (fun e _ => is_type_error e = true) j;
  validator_fixed : forall j, normal j = true -> m j = (Ok tt, j);
}.

Lemma wp_unchanged (m : M json unit) j :
  wp m (fun _ j' => j' = j) (fun _ _ => False) j -> m j = (Ok tt, j).
Proof. unfold wp. destruct (m j) as [[[]|e|] j']; naive_solver. Qed.

Lemma missing_split p it : missing p it = ill_typed p it || negb (present it).
Proof. destruct it as [v|]; cbn; [by rewrite orb_false_r|done]. Qed.

Lemma missing_false p it : missing p it = false -> exists v, it = Some v /\ p v = true.
Proof. destruct it as [v|]; [|done]. intros H%negb_false_iff. eauto. Qed.

Lemma missing_array_false it : missing is_array it = false -> exists l, it = Some (JArray l).
Proof. intros ([] & -> & H)%missing_false; naive_solver. Qed.

Lemma missing_imp (p q : json -> bool) it :
  (forall v, q v = true -> p v = true) -> missing q it = false -> missing p it = false.
Proof. intros Hqp (v & -> & Hv)%missing_false. cbn. by rewrite (Hqp _ Hv). Qed.

Lemma wp_deref_fixed (m : M json unit) (normal : json -> bool) k (Q : unit -> json -> Prop) E o :
  (forall v, normal v = true -> m v = (Ok tt, v)) ->
  missing normal (obj_lookup k o) = false -> Q tt (JObject o) ->
  wp (deref k m) Q E (JObject o).
Proof.
  intros Hm (v & Hv & Hn)%missing_false HQ. unfold wp.
  rewrite (deref_fixed _ _ (Ok tt) _ v); [exact HQ|exact Hv|by apply Hm].
Qed.

Section validator_rules.
Context {m : M json unit} {normal : json -> bool} (Hm : validator m normal).

Lemma wp_deref_validator k (Q : unit -> json -> Prop) o :
  present (obj_lookup k o) = true ->
  (forall v', normal v' = true -> Q tt (JObject (obj_insert k v' o))) ->
  wp (deref k m) Q (fun e _ => is_type_error e = true) (JObject o).
Proof.
  intros Hp HQ. destruct (obj_lookup k o) as [v|] eqn:E; [|done].
  eapply wp_deref; [done|]. eapply wp_mono; [apply (validator_wp _ _ Hm)| |]; [intros []|]; cbn; auto.
Qed.

Lemma wp_deref_for_range k (Q : unit -> json -> Prop) o :
  missing is_array (obj_lookup k o) = false ->
  (forall l', forallb normal l' = true -> Q tt (JObject (obj_insert k (JArray l') o))) ->
  wp (deref k (for_range m)) Q (fun e _ => is_type_error e = true) (JObject o).
Proof.
  intros (l & Hl)%missing_array_false HQ. eapply wp_deref; [done|].
  eapply (wp_for_range_array m normal); [apply (validator_wp _ _ Hm)|auto].
Qed.

Lemma for_range_normal l : forallb normal l = true -> for_range m (JArray l) = (Ok tt, JArray l).
Proof.
  intros Hl. apply for_range_fixed, Forall_forall. intros x Hx. apply (validator_fixed _ _ Hm).
  by apply (proj1 (forallb_forall _ _) Hl), list_elem_of_In.
Qed.

Lemma wp_deref_for_range_fixed k (Q : unit -> json -> Prop) E o :
  missing (array_of normal) (obj_lookup k o) = false -> Q tt (JObject o) ->
  wp (deref k (for_range m)) Q E (JObject o).
Proof.
  intros (v & Hv & Hn)%missing_false HQ. unfold wp. destruct v as [| | | | | |l|]; try done.
  rewrite (deref_fixed _ _ (Ok tt) _ (JArray l)); [exact HQ|exact Hv|by apply for_range_normal].
Qed.
End validator_rules.

(** Filling in a default: afterwards the member is there with the right type,
    and the other members are as before. *)
Definition same_but (k : string) (o' o : list (string * json)) : Prop :=
  forall k', k' <> k -> obj_lookup k' o' = obj_lookup k' o.

Lemma same_but_insert k v o : same_but k (obj_insert k v o) o.
Proof. intros k' Hk. rewrite obj_lookup_insert. by destruct (String.eqb_spec k' k). Qed.

Lemma same_but_erase k o : same_but k (obj_erase k o) o.
Proof. intros k' Hk. rewrite obj_lookup_erase. by destruct (String.eqb_spec k' k). Qed.

Lemma wp_default_key k (p : json -> bool) v it (Q : unit -> json -> Prop) E o :
  p v = true -> obj_lookup k o = it ->
  (forall o', missing p (obj_lookup k o') = false -> same_but k o' o -> Q tt (JObject o')) ->
  wp (when (missing p it) (set_key k v)) Q E (JObject o).
Proof.
  intros Hv <- HQ. wp_step.
  - wp_step. apply HQ; [|apply same_but_insert]. rewrite obj_lookup_insert, String.eqb_refl.
    cbn. by rewrite Hv.
  - by apply HQ.
Qed.

Lemma wp_default_absent k (p : json -> bool) v it (Q : unit -> json -> Prop) E o :
  p v = true -> obj_lookup k o = it -> ill_typed p it = false ->
  (forall o', missing p (obj_lookup k o') = false -> same_but k o' o -> Q tt (JObject o')) ->
  wp (when (negb (present it)) (set_key k v)) Q E (JObject o).
Proof.
  intros Hv Hit Hty HQ.
  assert (negb (present it) = missing p it) as -> by (by rewrite missing_split, Hty).
  by eapply wp_default_key.
Qed.

(** Rewrite lookups of literal keys through the frames of earlier updates. *)
Ltac frames :=
  repeat match goal with
  | H : same_but _ ?o' _ |- context [obj_lookup ?k ?o'] => rewrite (H k) by done
  end.

(** Turn the conjuncts of a normal form into facts about [missing] and
    [ill_typed]. *)
Ltac split_normal :=
  unfold key_ok, key_opt, contains in *; cbn [find is_object] in *;
  repeat match goal with
  | H : _ && _ = true |- _ => apply andb_prop in H as [? ?]
  | H : negb _ = true |- _ => apply negb_true_iff in H
  | H : true = true |- _ => clear H
  end.

Ltac val_solve :=
  repeat match goal with H : ?b = _ |- context [?b] => rewrite H end; try done.

(** Show that a final state is in normal form. *)
Ltac normal_solve :=
  unfold key_ok, key_opt, contains; cbn [find is_object] in *; obj_simpl;
  rewrite ?missing_split in *; val_solve.

(** A member that is there with the right type is present and not ill-typed. *)
Ltac from_missing :=
  repeat match goal with
  | H : missing ?p ?it = false |- _ =>
    lazymatch goal with
    | _ : ill_typed p it = false |- _ => fail
    | _ => let H' := fresh in pose proof H as H'; rewrite missing_split in H';
           apply orb_false_iff in H' as [? ?]
    end
  end.

Ltac wp_validate := repeat (wp_step; try done).

(** A step on a value in normal form: the throwing branches are absurd. *)
Ltac wp_accept :=
  repeat (first [wp_step | progress cbn [find is_object negb] in *]; try done; try congruence).

Lemma validateRtcpFeedback_validator : validator validateRtcpFeedback normalRtcpFeedback.
Proof.
  split; intros [| | | | | | |o]; try done; unfold normalRtcpFeedback.
  - unfold validateRtcpFeedback. wp_validate; normal_solve.
  - intros H. split_normal. apply wp_unchanged. unfold validateRtcpFeedback. wp_accept.
Qed.

Lemma wp_for_list {S A} (l : list A) (f : A -> M S unit) (ok : A -> bool) (E : exn -> S -> Prop) s :
  (forall x, In x l -> f x s = (Ok tt, s) /\ ok x = true \/
             exists e, f x s = (Throw e, s) /\ E e s /\ ok x = false) ->
  wp (for_list l f) (fun _ s' => s' = s /\ forallb ok l = true) E s.
Proof.
  induction l as [|x l IH]; intros H; cbn; [done|]. unfold wp, bind.
  destruct (H x) as [[-> ->]|(e & -> & He & _)]; [by left|..|done].
  cbn. apply IH. intros y Hy. apply H. by right.
Qed.

Lemma validateCodecParameter_cases kv s :
  validateCodecParameter kv s = (Ok tt, s) /\ normalCodecParameter kv = true \/
  exists e, validateCodecParameter kv s = (Throw e, s) /\ is_type_error e = true /\
            normalCodecParameter kv = false.
Proof.
  destruct kv as [k v]. unfold validateCodecParameter, normalCodecParameter, bind, throw_if, when.
  cbn. destruct (String.eqb k "apt"), v; cbn; eauto.
Qed.

Lemma for_list_fixed {S A} (l : list A) (f : A -> M S unit) s :
  (forall x, In x l -> f x s = (Ok tt, s)) -> for_list l f s = (Ok tt, s).
Proof.
  induction l as [|x l IH]; intros H; cbn; [done|]. unfold bind. rewrite H by (by left).
  apply IH. intros y Hy. apply H. by right.
Qed.

Lemma validateCodecParameters_fixed j :
  normalCodecParameters j = true -> validateCodecParameters j = (Ok tt, j).
Proof.
  destruct j as [| | | | | | |o]; try done. cbn. intros Hn. unfold validateCodecParameters, bind, get.
  apply for_list_fixed. intros kv Hkv. apply (proj1 (forallb_forall _ _) Hn) in Hkv.
  destruct (validateCodecParameter_cases kv (JObject o)) as [[? _]|(e & _ & _ & ?)]; congruence.
Qed.

Lemma validateCodecParameters_wp o :
  wp validateCodecParameters (fun _ j => j = JObject o /\ normalCodecParameters j = true)
     (fun e _ => is_type_error e = true) (JObject o).
Proof.
  unfold validateCodecParameters. do 2 wp_step. eapply wp_mono.
  - apply (wp_for_list _ _ normalCodecParameter (fun e _ => is_type_error e = true)).
    intros kv _. apply validateCodecParameter_cases.
  - cbn. intros _ s' [-> H]. done.
  - done.
Qed.

(** The common end of the two codec validators: channels, parameters and
    feedback. *)
Definition codec_tail (kind : string) (channelsIt parametersIt rtcpFeedbackIt : option json) : M json unit :=
  (if String.eqb kind "audio"
   then when (missing is_number_integer channelsIt) (set_key "channels" (JInt 1))
   else when (present channelsIt) (erase_key "channels")) ;;;
  when (missing is_object parametersIt) (set_key "parameters" (JObject [])) ;;;
  deref "parameters" validateCodecParameters ;;;
  when (missing is_array rtcpFeedbackIt) (set_key "rtcpFeedback" (JArray [])) ;;;
  deref "rtcpFeedback" (for_range validateRtcpFeedback).

Definition codec_tail_keys : list string := ["channels"; "parameters"; "rtcpFeedback"].

Lemma wp_deref_codec_parameters (Q : unit -> json -> Prop) o :
  missing is_object (obj_lookup "parameters" o) = false ->
  (missing normalCodecParameters (obj_lookup "parameters" o) = false -> Q tt (JObject o)) ->
  wp (deref "parameters" validateCodecParameters) Q (fun e _ => is_type_error e = true) (JObject o).
Proof.
  intros (v & Hv & Ho)%missing_false HQ. destruct v as [| | | | | | |p]; try done.
  eapply wp_deref; [exact Hv|]. eapply wp_mono; [apply validateCodecParameters_wp| |done].
  cbn. intros [] j [-> Hn]. rewrite obj_insert_id by done. apply HQ. rewrite Hv.
  unfold missing. by rewrite Hn.
Qed.

Lemma wp_codec_channels kind (Q : unit -> json -> Prop) E o :
  (forall o', same_but "channels" o' o ->
     (if String.eqb kind "audio" then key_ok "channels" is_number_integer (JObject o')
      else negb (contains "channels" (JObject o'))) = true -> Q tt (JObject o')) ->
  wp (if String.eqb kind "audio"
      then when (missing is_number_integer (obj_lookup "channels" o)) (set_key "channels" (JInt 1))
      else when (present (obj_lookup "channels" o)) (erase_key "channels")) Q E (JObject o).
Proof.
  unfold key_ok, contains. cbn [find]. intros HQ. destruct (String.eqb kind "audio").
  - apply wp_default_key; [done..|]. intros o' Hm Hf. apply HQ; [done|]. by rewrite Hm.
  - wp_step; [wp_step|]; apply HQ; try apply same_but_erase; try done.
    + by obj_simpl.
    + by destruct (obj_lookup "channels" o).
Qed.

Lemma wp_codec_tail kind it1 it2 it3 (Q : unit -> json -> Prop) o :
  obj_lookup "channels" o = it1 -> obj_lookup "parameters" o = it2 ->
  obj_lookup "rtcpFeedback" o = it3 ->
  missing is_number_integer (obj_lookup "clockRate" o) = false ->
  (forall o', (forall k, k ∉ codec_tail_keys -> obj_lookup k o' = obj_lookup k o) ->
     normalCodecCommon kind (JObject o') = true -> Q tt (JObject o')) ->
  wp (codec_tail kind it1 it2 it3) Q (fun e _ => is_type_error e = true) (JObject o).
Proof.
  intros <- <- <- Hclk HQ. unfold codec_tail.
  wp_step. apply wp_codec_channels. intros o1 F1 Hc.
  wp_step. apply wp_default_key; [done|by frames|]. intros o2 M2 F2.
  wp_step. apply wp_deref_codec_parameters; [done|]. intros Hp.
  wp_step. apply wp_default_key; [done|by frames|]. intros o3 M3 F3.
  apply (wp_deref_for_range validateRtcpFeedback_validator); [done|]. intros l Hl. apply HQ.
  - intros k Hk. unfold codec_tail_keys in Hk. rewrite !not_elem_of_cons in Hk.
    destruct Hk as (?&?&?&_). rewrite (same_but_insert "rtcpFeedback"), F3, F2, F1; done.
  - unfold normalCodecCommon, key_ok, contains in *. cbn [find] in *. obj_simpl. frames.
    rewrite Hclk, Hp. cbn. rewrite Hl. cbn. rewrite !andb_true_r.
    destruct (String.eqb kind "audio"); by frames.
Qed.

Lemma codec_tail_fixed kind o :
  normalCodecCommon kind (JObject o) = true ->
  wp (codec_tail kind (obj_lookup "channels" o) (obj_lookup "parameters" o)
        (obj_lookup "rtcpFeedback" o)) (fun _ j' => j' = JObject o) (fun _ _ => False) (JObject o).
Proof.
  unfold normalCodecCommon. intros H. split_normal. unfold codec_tail.
  rewrite (missing_imp is_object normalCodecParameters) by (done || by intros []).
  rewrite (missing_imp is_array (array_of normalRtcpFeedback)) by (done || by intros []).
  assert ((if String.eqb kind "audio"
     then when (missing is_number_integer (obj_lookup "channels" o)) (set_key "channels" (JInt 1))
     else when (present (obj_lookup "channels" o)) (erase_key "channels")) = ret tt) as ->.
  { destruct (String.eqb kind "audio"); split_normal; [val_solve|].
    by destruct (obj_lookup "channels" o). }
  wp_accept. apply (wp_deref_fixed _ normalCodecParameters);
    [apply validateCodecParameters_fixed|done|].
  wp_accept. by apply (wp_deref_for_range_fixed validateRtcpFeedback_validator).
Qed.

Lemma mime_kind_object codec kind : mime_kind codec = Some kind -> exists o, codec = JObject o.
Proof. destruct codec; try done. eauto. Qed.

Lemma validateRtpCodecCapability_validator :
  validator validateRtpCodecCapability normalRtpCodecCapability.
Proof.
  split; intros [| | | | | | |o]; try done; unfold normalRtpCodecCapability, mime_kind.
  - unfold validateRtpCodecCapability. do 4 wp_step; [done|].
    cbn [find]. destruct (obj_lookup "mimeType" o) as [[| | | | |mt| |]|] eqn:Emt; try (by wp_step).
    destruct (match_mime mt) as [[kind r]|] eqn:Em; [|by wp_step].
    do 2 wp_step. do 2 (wp_step; wp_step; [done|]).
    apply wp_codec_tail; [by obj_simpl..|by obj_simpl|].
    intros o' Hf Hn. unfold key_ok, key_opt in *. cbn [find] in *.
    rewrite !Hf by (by compute_done). obj_simpl. rewrite Emt. cbn. rewrite Em. cbn.
    rewrite String.eqb_refl. cbn. by val_solve.
  - intros H. apply wp_unchanged. unfold validateRtpCodecCapability. do 4 wp_step; [done|].
    cbn [find] in *.
    destruct (obj_lookup "mimeType" o) as [[| | | | |mt| |]|] eqn:Emt; try done.
    cbn in H. destruct (match_mime mt) as [[kind r]|] eqn:Em; [|done]. cbn in H. split_normal.
    apply missing_false in H as (v & Hk & Hk'). destruct v as [| | | | |k| |]; try done.
    apply String.eqb_eq in Hk'. subst k.
    wp_step. unfold wp at 1. rewrite set_key_fixed by done.
    assert (missing is_number_integer (obj_lookup "clockRate" o) = false).
    { unfold normalCodecCommon in *. by split_normal. }
    do 2 (wp_step; wp_step; [congruence|]). by apply codec_tail_fixed.
Qed.

Lemma validateRtpCodecParameters_validator :
  validator validateRtpCodecParameters normalRtpCodecParameters.
Proof.
  split; intros [| | | | | | |o]; try done; unfold normalRtpCodecParameters, mime_kind.
  - unfold validateRtpCodecParameters. do 4 wp_step; [done|].
    cbn [find]. destruct (obj_lookup "mimeType" o) as [[| | | | |mt| |]|] eqn:Emt; try (by wp_step).
    destruct (match_mime mt) as [[kind r]|] eqn:Em; [|by wp_step].
    do 2 (wp_step; wp_step; [done|]).
    apply wp_codec_tail; [done..|]. intros o' Hf Hn. unfold key_ok in *. cbn [find] in *.
    rewrite !Hf by (by compute_done). rewrite Emt. cbn. rewrite Em. cbn. by val_solve.
  - intros H. apply wp_unchanged. unfold validateRtpCodecParameters. do 4 wp_step; [done|].
    cbn [find] in *.
    destruct (obj_lookup "mimeType" o) as [[| | | | |mt| |]|] eqn:Emt; try done.
    cbn in H. destruct (match_mime mt) as [[kind r]|] eqn:Em; [|done]. cbn in H. split_normal.
    assert (missing is_number_integer (obj_lookup "clockRate" o) = false).
    { unfold normalCodecCommon in *. by split_normal. }
    do 2 (wp_step; wp_step; [congruence|]). by apply codec_tail_fixed.
Qed.

Lemma validateRtpHeaderExtension_validator :
  validator validateRtpHeaderExtension normalRtpHeaderExtension.
Proof.
  split; intros [| | | | | | |o]; try done; unfold normalRtpHeaderExtension.
  - unfold validateRtpHeaderExtension. do 4 wp_step; [done|]. cbn [find].
    wp_step. apply wp_default_key; [done..|]. intros o1 M1 F1. wp_step.
    apply missing_false in M1 as (v & Hk & Hv). destruct v as [| | | | |kind| |]; try done.
    eapply wp_deref; [exact Hk|]. do 3 wp_step. cbn [owp get_string]. rewrite obj_insert_id by done.
    do 4 (wp_step; wp_step; [done|]).
    wp_step. eapply (wp_default_absent _ is_boolean); [done|by frames|done|]. intros o2 M2 F2.
    wp_step. wp_step; [done|].
    eapply (wp_default_absent _ is_string); [done|by frames|done|]. intros o3 M3 F3.
    unfold key_ok. cbn [find is_object]. rewrite M3. frames. rewrite M2. frames.
    rewrite Hk. cbn [missing]. val_solve. cbn.
    destruct (String.eqb kind ""), (String.eqb kind "audio"), (String.eqb kind "video"); done.
  - intros H. split_normal. apply wp_unchanged. unfold validateRtpHeaderExtension.
    do 4 wp_step; [done|]. cbn [find].
    match goal with H : missing media_kind _ = false |- _ =>
      apply missing_false in H as (v & Hk & Hv) end.
    destruct v as [| | | | |kind| |]; try done. rewrite Hk. cbn [missing is_string negb when].
    do 3 wp_step. eapply wp_deref; [exact Hk|]. do 3 wp_step. cbn [owp get_string]. rewrite obj_insert_id by done.
    wp_step. wp_step.
    { cbn in Hv. destruct (String.eqb kind ""), (String.eqb kind "audio"), (String.eqb kind "video"); done. }
    from_missing. wp_accept.
Qed.

Lemma validateRtpCapabilities_validator : validator validateRtpCapabilities normalRtpCapabilities.
Proof.
  split; intros [| | | | | | |o]; try done; unfold normalRtpCapabilities.
  - unfold validateRtpCapabilities. do 4 wp_step; [done|]. cbn [find].
    wp_step. wp_step; [done|].
    wp_step. eapply (wp_default_absent _ is_array); [done..|]. intros o1 M1 F1.
    wp_step. apply (wp_deref_for_range validateRtpCodecCapability_validator); [done|]. intros l1 L1.
    wp_step. wp_step; [done|].
    wp_step. eapply (wp_default_absent _ is_array); [done|obj_simpl; by frames|done|]. intros o2 M2 F2.
    apply (wp_deref_for_range validateRtpHeaderExtension_validator); [done|]. intros l2 L2.
    unfold key_ok. cbn [find is_object]. obj_simpl. frames. obj_simpl. cbn. by rewrite L1, L2.
  - intros H. split_normal. apply wp_unchanged. unfold validateRtpCapabilities.
    assert (missing is_array (obj_lookup "codecs" o) = false) by (eapply missing_imp; [|done]; by intros []).
    assert (missing is_array (obj_lookup "headerExtensions" o) = false) by (eapply missing_imp; [|done]; by intros []).
    from_missing. wp_accept.
    apply (wp_deref_for_range_fixed validateRtpCodecCapability_validator); [done|]. wp_accept.
    by apply (wp_deref_for_range_fixed validateRtpHeaderExtension_validator).
Qed.

Lemma validateRtpHeaderExtensionParameters_validator :
  validator validateRtpHeaderExtensionParameters normalRtpHeaderExtensionParameters.
Proof.
  set (ok := fun kv : string * json => is_string kv.2 || is_number kv.2).
  set (step := fun kv : string * json =>
    @throw_if json (negb (is_string (snd kv)) && negb (is_number (snd kv)))
      (type_error "invalid header extension parameter")).
  assert (forall kv s, step kv s = (Ok tt, s) /\ ok kv = true \/
    exists e, step kv s = (Throw e, s) /\ is_type_error e = true /\ ok kv = false) as Hcases.
  { intros [k v] s. unfold step, ok, throw_if. cbn. destruct (is_string v), (is_number v); cbn; eauto. }
  split; intros [| | | | | | |o]; try done; unfold normalRtpHeaderExtensionParameters.
  - unfold validateRtpHeaderExtensionParameters. do 4 wp_step; [done|]. cbn [find].
    do 3 (wp_step; wp_step; [done|]).
    wp_step. eapply (wp_default_absent _ is_boolean); [done..|]. intros o1 M1 F1.
    wp_step. apply wp_default_key; [done|by frames|]. intros o2 M2 F2.
    apply missing_false in M2 as (v & Hv & Ho). destruct v as [| | | | | | |p]; try done.
    eapply wp_deref; [exact Hv|]. do 2 wp_step.
    eapply wp_mono; [apply (wp_for_list _ _ ok (fun e _ => is_type_error e = true))| |done].
    { intros kv _. apply Hcases. }
    intros [] s' [-> Hok]. rewrite obj_insert_id by done.
    unfold key_ok. cbn [find is_object]. rewrite Hv. frames. rewrite M1. frames. cbn. val_solve.
    cbn. by rewrite negb_involutive.
  - intros H. split_normal. apply wp_unchanged. unfold validateRtpHeaderExtensionParameters.
    assert (missing is_object (obj_lookup "parameters" o) = false)
      by (eapply missing_imp; [|done]; by intros []).
    from_missing. wp_accept. apply (wp_deref_fixed _ normalExtensionParameters); [|done|done].
    intros [| | | | | | |p]; try done. intros Hp. unfold bind, get. apply for_list_fixed.
    intros kv Hkv. apply (proj1 (forallb_forall _ _) Hp) in Hkv.
    destruct (Hcases kv (JObject p)) as [[? _]|(e & _ & _ & He)]; [done|].
    unfold ok in He. congruence.
Qed.

Lemma validateRtpEncodingParameters_validator :
  validator validateRtpEncodingParameters normalRtpEncodingParameters.
Proof.
  split; intros [| | | | | | |o]; try done; unfold normalRtpEncodingParameters.
  - unfold validateRtpEncodingParameters. do 4 wp_step; [done|]. cbn [find].
    do 3 (wp_step; wp_step; [done|]). wp_step.
    apply (wp_mono _ (fun _ j => j = JObject o /\
      ill_typed normalRtxParameters (obj_lookup "rtx" o) = false) _
      (fun e _ => is_type_error e = true)); [|intros [] _ [-> Hr]|done].
    { destruct (obj_lookup "rtx" o) as [r|]; [|done]. cbn in *. wp_step; [done|].
      split; [done|]. unfold normalRtxParameters, key_ok. destruct (is_object r); [|done]. by val_solve. }
    wp_step. apply wp_default_key; [done..|]. intros o1 M1 F1. wp_step; [done|].
    unfold key_ok, key_opt. cbn [find is_object]. rewrite M1. frames. val_solve.
  - intros H. split_normal. apply wp_unchanged. unfold validateRtpEncodingParameters.
    assert (ill_typed is_object (obj_lookup "rtx" o) = false).
    { destruct (obj_lookup "rtx" o) as [r|]; [|done]. unfold normalRtxParameters in *. cbn in *.
      by destruct (is_object r). }
    from_missing. do 10 (wp_step; cbn [find is_object negb] in *; try done; try congruence). wp_step.
    match goal with |- wp _ _ _ ?s => apply (wp_mono _ (fun _ j => j = s) _ (fun _ _ => False)) end;
      [|intros [] _ ->|done].
    { destruct (obj_lookup "rtx" o) as [r|]; [|done]. wp_step; [|done].
      unfold normalRtxParameters, key_ok in *. cbn in *.
      destruct (is_object r), (missing is_number_integer (find "ssrc" r)); done. }
    wp_accept.
Qed.

Lemma validateRtcpParameters_validator : validator validateRtcpParameters normalRtcpParameters.
Proof.
  split; intros [| | | | | | |o]; try done; unfold normalRtcpParameters.
  - unfold validateRtcpParameters. do 4 wp_step; [done|]. cbn [find]. wp_step. wp_step; [done|].
    apply wp_default_key; [done..|]. intros o1 M1 F1.
    unfold key_ok, key_opt. cbn [find is_object]. rewrite M1. frames. by val_solve.
  - intros H. split_normal. apply wp_unchanged. unfold validateRtcpParameters.
    from_missing. wp_accept.
Qed.

Lemma validateRtpParameters_validator : validator validateRtpParameters normalRtpParameters.
Proof.
  split; intros [| | | | | | |o]; try done; unfold normalRtpParameters.
  - unfold validateRtpParameters. do 4 wp_step; [done|]. cbn [find].
    do 2 (wp_step; wp_step; [done|]).
    wp_step. apply (wp_deref_for_range validateRtpCodecParameters_validator); [done|]. intros l1 L1.
    wp_step. wp_step; [done|].
    wp_step. eapply (wp_default_absent _ is_array); [done|by obj_simpl|done|]. intros o2 M2 F2.
    wp_step. apply (wp_deref_for_range validateRtpHeaderExtensionParameters_validator); [done|].
    intros l2 L2. wp_step. wp_step; [done|].
    wp_step. eapply (wp_default_absent _ is_array); [done|obj_simpl; frames; by obj_simpl|done|].
    intros o3 M3 F3.
    wp_step. apply (wp_deref_for_range validateRtpEncodingParameters_validator); [done|].
    intros l3 L3. wp_step. wp_step; [done|].
    wp_step. eapply (wp_default_absent _ is_object);
      [done|obj_simpl; frames; obj_simpl; frames; by obj_simpl|done|].
    intros o4 M4 F4.
    apply (wp_deref_validator validateRtcpParameters_validator).
    { from_missing. by destruct (obj_lookup "rtcp" o4). }
    intros v Hv. unfold key_ok, key_opt. cbn [find is_object].
    repeat (obj_simpl; frames). val_solve. cbn. by rewrite L1, L2, L3, Hv.
  - intros H. split_normal. apply wp_unchanged. unfold validateRtpParameters.
    assert (missing is_array (obj_lookup "codecs" o) = false /\
      missing is_array (obj_lookup "headerExtensions" o) = false /\
      missing is_array (obj_lookup "encodings" o) = false /\
      missing is_object (obj_lookup "rtcp" o) = false) as (?&?&?&?)
      by (split_and!; (eapply missing_imp; [|done]; by intros [])).
    from_missing. wp_accept.
    apply (wp_deref_for_range_fixed validateRtpCodecParameters_validator); [done|]. wp_accept.
    apply (wp_deref_for_range_fixed validateRtpHeaderExtensionParameters_validator); [done|]. wp_accept.
    apply (wp_deref_for_range_fixed validateRtpEncodingParameters_validator); [done|]. wp_accept.
    apply (wp_deref_fixed _ normalRtcpParameters); [|done|done].
    apply validateRtcpParameters_validator.
Qed.

(** Validators that only check: no member is written. *)
Ltac check_only unfolds :=
  split; intros [| | | | | | |o]; try done; unfolds;
  [ wp_validate; normal_solve | intros H; split_normal; apply wp_unchanged; from_missing; wp_accept ].

Lemma validateNumSctpStreams_validator : validator validateNumSctpStreams normalNumSctpStreams.
Proof. check_only ltac:(unfold validateNumSctpStreams, normalNumSctpStreams). Qed.

Lemma validateSctpCapabilities_validator : validator validateSctpCapabilities normalSctpCapabilities.
Proof.
  split; intros [| | | | | | |o]; try done; unfold validateSctpCapabilities, normalSctpCapabilities.
  - do 4 wp_step; [done|]. wp_step. wp_step; [done|]. cbn [find] in *.
    apply (wp_deref_validator validateNumSctpStreams_validator).
    { from_missing. by destruct (obj_lookup "numStreams" o). }
    intros v Hv. unfold key_ok. cbn [find is_object]. obj_simpl. cbn. by rewrite Hv.
  - intros H. split_normal. apply wp_unchanged.
    assert (missing is_object (obj_lookup "numStreams" o) = false)
      by (eapply missing_imp; [|done]; by intros []).
    wp_accept. apply (wp_deref_fixed _ normalNumSctpStreams); [|done|done].
    apply validateNumSctpStreams_validator.
Qed.

Lemma validateSctpParameters_validator : validator validateSctpParameters normalSctpParameters.
Proof. check_only ltac:(unfold validateSctpParameters, normalSctpParameters). Qed.

Lemma validateIceParameters_validator : validator validateIceParameters normalIceParameters.
Proof. check_only ltac:(unfold validateIceParameters, normalIceParameters). Qed.

Lemma validateDtlsFingerprint_validator : validator validateDtlsFingerprint normalDtlsFingerprint.
Proof. check_only ltac:(unfold validateDtlsFingerprint, normalDtlsFingerprint). Qed.

Lemma validateProducerCodecOptions_validator :
  validator validateProducerCodecOptions normalProducerCodecOptions.
Proof. check_only ltac:(unfold validateProducerCodecOptions, normalProducerCodecOptions). Qed.

Lemma wp_require_word k ws a i o (Q : unit -> json -> Prop) :
  (missing (is_word ws) (obj_lookup k o) = false -> Q tt (JObject o)) ->
  wp (require_word k ws a i (JObject o)) Q (fun e _ => is_type_error e = true) (JObject o).
Proof.
  intros HQ. unfold require_word. cbn [find]. wp_step. wp_step; [done|].
  match goal with H : _ = false |- _ => apply missing_false in H as (v & Hv & Hs) end.
  rewrite Hv in *. destruct v as [| | | | |s| |]; try done. cbn [from_option id].
  do 2 wp_step. cbn [owp get_string]. wp_step; [done|]. apply HQ. cbn. by val_solve.
Qed.

Lemma wp_require_word_fixed k ws a i o (Q : unit -> json -> Prop) E :
  existsb (String.eqb "") ws = false -> missing (is_word ws) (obj_lookup k o) = false -> Q tt (JObject o) ->
  wp (require_word k ws a i (JObject o)) Q E (JObject o).
Proof.
  intros Hne (v & Hv & Hw)%missing_false HQ. unfold require_word. cbn [find].
  rewrite Hv. destruct v as [| | | | |s| |]; try done. cbn in Hw.
  wp_step. wp_step.
  - cbn in *. destruct (String.eqb_spec s "") as [->|]; [|done].
    unfold match_words in Hw. cbn in Hw. congruence.
  - cbn [from_option id]. do 2 wp_step. cbn [owp get_string]. wp_step; [|done].
    by rewrite Hw in *.
Qed.

Lemma validateIceCandidate_validator : validator validateIceCandidate normalIceCandidate.
Proof.
  split; intros [| | | | | | |o]; try done; unfold validateIceCandidate, normalIceCandidate.
  - do 4 wp_step; [done|]. do 3 (wp_step; wp_step; [done|]).
    wp_step. apply wp_require_word. intros Hp.
    wp_step. wp_step; [done|]. apply wp_require_word. intros Ht.
    normal_solve.
  - intros H. split_normal. apply wp_unchanged. wp_accept.
    apply wp_require_word_fixed; [done|done|]. wp_accept.
    by apply wp_require_word_fixed.
Qed.

Lemma validateIceCandidates_validator : validator validateIceCandidates normalIceCandidates.
Proof.
  split; unfold validateIceCandidates, normalIceCandidates; intros [| | | | | |l|]; try done.
  - do 4 wp_step; [done|]. eapply (wp_for_range_array _ normalIceCandidate).
    + apply validateIceCandidate_validator.
    + done.
  - cbn [array_of]. intros H. unfold bind, get, throw_if. cbn [is_array negb].
    by apply (for_range_normal validateIceCandidate_validator).
Qed.

Lemma validateDtlsParameters_validator : validator validateDtlsParameters normalDtlsParameters.
Proof.
  split; intros [| | | | | | |o]; try done; unfold validateDtlsParameters, normalDtlsParameters.
  - do 4 wp_step; [done|]. wp_step. apply wp_require_word. intros Hr.
    wp_step. wp_step; [done|]. cbn [find] in *.
    match goal with H : missing is_nonempty_array _ = false |- _ =>
      apply missing_false in H as (v & Hv & Hn) end.
    destruct v as [| | | | | |l|]; try done. eapply wp_deref; [exact Hv|].
    eapply (wp_for_range_array _ normalDtlsFingerprint); [apply validateDtlsFingerprint_validator|].
    intros l' Hl' Hlen. unfold key_ok. cbn [find is_object]. obj_simpl. rewrite Hr.
    cbn [missing]. unfold normalDtlsFingerprints. cbn [array_of json_empty]. rewrite Hl'.
    by destruct l, l'.
  - intros H. split_normal. apply wp_unchanged.
    match goal with H : missing normalDtlsFingerprints _ = false |- _ =>
      apply missing_false in H as (v & Hv & Hn) end.
    unfold normalDtlsFingerprints in Hn. apply andb_prop in Hn as [Ha He].
    destruct v as [| | | | | |l|]; try done.
    do 4 wp_step; [done|]. wp_step. apply wp_require_word_fixed; [done|done|].
    wp_step. cbn [find]. rewrite Hv. wp_step; [by destruct l|].
    apply (wp_deref_for_range_fixed validateDtlsFingerprint_validator); [|done].
    rewrite Hv. cbn in *. by rewrite Ha.
Qed.

(** ** All validators *)

(** The validators with the normal form each establishes. *)
Definition all_validators : list (M json unit * (json -> bool)) :=
  [ (validateRtcpFeedback, normalRtcpFeedback);
    (validateRtpCodecCapability, normalRtpCodecCapability);
    (validateRtpHeaderExtension, normalRtpHeaderExtension);
    (validateRtpCapabilities, normalRtpCapabilities);
    (validateRtpCodecParameters, normalRtpCodecParameters);
    (validateRtpHeaderExtensionParameters, normalRtpHeaderExtensionParameters);
    (validateRtpEncodingParameters, normalRtpEncodingParameters);
    (validateRtcpParameters, normalRtcpParameters);
    (validateRtpParameters, normalRtpParameters);
    (validateNumSctpStreams, normalNumSctpStreams);
    (validateSctpCapabilities, normalSctpCapabilities);
    (validateSctpParameters, normalSctpParameters);
    (validateIceParameters, normalIceParameters);
    (validateIceCandidate, normalIceCandidate);
    (validateIceCandidates, normalIceCandidates);
    (validateDtlsFingerprint, normalDtlsFingerprint);
    (validateDtlsParameters, normalDtlsParameters);
    (validateProducerCodecOptions, normalProducerCodecOptions) ].

Create HintDb validators discriminated.
#[export] Hint Resolve validateRtcpFeedback_validator validateRtpCodecCapability_validator
  validateRtpHeaderExtension_validator validateRtpCapabilities_validator
  validateRtpCodecParameters_validator validateRtpHeaderExtensionParameters_validator
  validateRtpEncodingParameters_validator validateRtcpParameters_validator
  validateRtpParameters_validator validateNumSctpStreams_validator
  validateSctpCapabilities_validator validateSctpParameters_validator
  validateIceParameters_validator validateIceCandidate_validator validateIceCandidates_validator
  validateDtlsFingerprint_validator validateDtlsParameters_validator
  validateProducerCodecOptions_validator : validators.

Lemma all_validators_spec : Forall (fun mn => validator mn.1 mn.2) all_validators.
Proof. repeat (apply List.Forall_cons; [cbn; auto with validators|]). apply List.Forall_nil. Qed.

(** C23: every validator of ortc.cpp, on every JSON value, either returns with
    the value in its normal form or throws a MediaSoupClientTypeError; it never
    runs into undefined behaviour and never lets an exception of the JSON
    library escape.  A value already in normal form is accepted and left
    unchanged. *)
Theorem validators_normalise m normal j :
  In (m, normal) all_validators ->
  match m j with
  | (Ok _, j') => normal j' = true
  | (Throw e, _) => is_type_error e = true
  | (Undef, _) => False
  end /\ (normal j = true -> m j = (Ok tt, j)).
Proof.
  intros Hin. pose proof (proj1 (List.Forall_forall _ _) all_validators_spec _ Hin) as Hv.
  split; [apply (validator_wp _ _ Hv)|apply (validator_fixed _ _ Hv)].
Qed.

Definition sample_feedback : json := mk_obj [("type", JString "nack")].

Lemma validators_normalise_witness :
  In (validateRtcpFeedback, normalRtcpFeedback) all_validators /\
  validateRtcpFeedback sample_feedback =
    (Ok tt, mk_obj [("type", JString "nack"); ("parameter", JString "")]) /\
  normalRtcpFeedback (mk_obj [("type", JString "nack"); ("parameter", JString "")]) = true.
Proof.
  split; [by left|]. split; [reflexivity|].
  exact (proj1 (validators_normalise validateRtcpFeedback normalRtcpFeedback sample_feedback
    (or_introl eq_refl))).
Defined.

(** Validation is idempotent: validating an accepted value again accepts it
    and changes nothing (Device::Load validates the router capabilities twice,
    getExtendedRtpCapabilities once more). *)
Theorem validators_idempotent m normal j j' :
  In (m, normal) all_validators -> m j = (Ok tt, j') -> m j' = (Ok tt, j').
Proof.
  intros Hin Hj. pose proof (proj1 (List.Forall_forall _ _) all_validators_spec _ Hin) as Hv.
  apply (validator_fixed _ _ Hv). pose proof (validator_wp _ _ Hv j) as Hw.
  unfold wp in Hw. cbn in Hw. by rewrite Hj in Hw.
Qed.

Lemma validators_idempotent_witness :
  let j' := mk_obj [("type", JString "nack"); ("parameter", JString "")] in
  validateRtcpFeedback j' = (Ok tt, j').
Proof.
  exact (validators_idempotent validateRtcpFeedback normalRtcpFeedback sample_feedback _
    (or_introl eq_refl) eq_refl).
Defined.

(** ** The representation invariant *)

Ltac preserve := unfold require_word, validateCodecParameters, validateCodecParameter; auto 60 with wf_json nocore.

Lemma validateRtcpFeedback_preserves : preserves_wf validateRtcpFeedback.
Proof. unfold validateRtcpFeedback. preserve. Qed.
#[export] Hint Resolve validateRtcpFeedback_preserves : wf_json.

Lemma validateRtpCodecCapability_preserves : preserves_wf validateRtpCodecCapability.
Proof. unfold validateRtpCodecCapability. preserve. Qed.
#[export] Hint Resolve validateRtpCodecCapability_preserves : wf_json.

Lemma validateRtpHeaderExtension_preserves : preserves_wf validateRtpHeaderExtension.
Proof. unfold validateRtpHeaderExtension. preserve. Qed.
#[export] Hint Resolve validateRtpHeaderExtension_preserves : wf_json.

Lemma validateRtpCapabilities_preserves : preserves_wf validateRtpCapabilities.
Proof. unfold validateRtpCapabilities. preserve. Qed.
#[export] Hint Resolve validateRtpCapabilities_preserves : wf_json.

Lemma validateRtpCodecParameters_preserves : preserves_wf validateRtpCodecParameters.
Proof. unfold validateRtpCodecParameters. preserve. Qed.
#[export] Hint Resolve validateRtpCodecParameters_preserves : wf_json.

Lemma validateRtpHeaderExtensionParameters_preserves : preserves_wf validateRtpHeaderExtensionParameters.
Proof. unfold validateRtpHeaderExtensionParameters. preserve. Qed.
#[export] Hint Resolve validateRtpHeaderExtensionParameters_preserves : wf_json.

Lemma validateRtpEncodingParameters_preserves : preserves_wf validateRtpEncodingParameters.
Proof. unfold validateRtpEncodingParameters. preserve. Qed.
#[export] Hint Resolve validateRtpEncodingParameters_preserves : wf_json.

Lemma validateRtcpParameters_preserves : preserves_wf validateRtcpParameters.
Proof. unfold validateRtcpParameters. preserve. Qed.
#[export] Hint Resolve validateRtcpParameters_preserves : wf_json.

Lemma validateRtpParameters_preserves : preserves_wf validateRtpParameters.
Proof. unfold validateRtpParameters. preserve. Qed.
#[export] Hint Resolve validateRtpParameters_preserves : wf_json.

Lemma validateNumSctpStreams_preserves : preserves_wf validateNumSctpStreams.
Proof. unfold validateNumSctpStreams. preserve. Qed.
#[export] Hint Resolve validateNumSctpStreams_preserves : wf_json.

Lemma validateSctpCapabilities_preserves : preserves_wf validateSctpCapabilities.
Proof. unfold validateSctpCapabilities. preserve. Qed.
#[export] Hint Resolve validateSctpCapabilities_preserves : wf_json.

Lemma validateSctpParameters_preserves : preserves_wf validateSctpParameters.
Proof. unfold validateSctpParameters. preserve. Qed.
#[export] Hint Resolve validateSctpParameters_preserves : wf_json.

Lemma validateIceParameters_preserves : preserves_wf validateIceParameters.
Proof. unfold validateIceParameters. preserve. Qed.
#[export] Hint Resolve validateIceParameters_preserves : wf_json.

Lemma validateIceCandidate_preserves : preserves_wf validateIceCandidate.
Proof. unfold validateIceCandidate. preserve. Qed.
#[export] Hint Resolve validateIceCandidate_preserves : wf_json.

Lemma validateIceCandidates_preserves : preserves_wf validateIceCandidates.
Proof. unfold validateIceCandidates. preserve. Qed.
#[export] Hint Resolve validateIceCandidates_preserves : wf_json.

Lemma validateDtlsFingerprint_preserves : preserves_wf validateDtlsFingerprint.
Proof. unfold validateDtlsFingerprint. preserve. Qed.
#[export] Hint Resolve validateDtlsFingerprint_preserves : wf_json.

Lemma validateDtlsParameters_preserves : preserves_wf validateDtlsParameters.
Proof. unfold validateDtlsParameters. preserve. Qed.
#[export] Hint Resolve validateDtlsParameters_preserves : wf_json.

Lemma validateProducerCodecOptions_preserves : preserves_wf validateProducerCodecOptions.
Proof. unfold validateProducerCodecOptions. preserve. Qed.
#[export] Hint Resolve validateProducerCodecOptions_preserves : wf_json.

Lemma validateSctpStreamParameters_preserves : preserves_wf validateSctpStreamParameters.
Proof. unfold validateSctpStreamParameters. preserve. Qed.
#[export] Hint Resolve validateSctpStreamParameters_preserves : wf_json.

(** The validators keep the representation invariant of the JSON values:
    every object, at any depth, stays a map in key order with one entry per key
    and the integers stay in range, also when the validator throws after it has
    filled in some defaults. *)
Theorem validators_preserve_wf m normal j :
  In (m, normal) all_validators -> wf_json j = true -> wf_json (m j).2 = true.
Proof.
  assert (Forall (fun mn => preserves_wf mn.1) all_validators) as Hall.
  { repeat (apply List.Forall_cons; [cbn; auto with wf_json nocore|]). apply List.Forall_nil. }
  intros Hin. exact (proj1 (List.Forall_forall _ _) Hall _ Hin j).
Qed.

Lemma validators_preserve_wf_witness :
  wf_json sample_feedback = true /\ wf_json (validateRtcpFeedback sample_feedback).2 = true.
Proof.
  split; [reflexivity|].
  exact (validators_preserve_wf validateRtcpFeedback normalRtcpFeedback sample_feedback
    (or_introl eq_refl) eq_refl).
Defined.

(** ** Data stream parameters *)

(** Whether the caller gave a partial-reliability limit. *)
Definition gives_limit (params : json) : bool :=
  contains "maxPacketLifeTime" params || contains "maxRetransmits" params.

(** The caller's [ordered] flag, when it is a boolean. *)
Definition ordered_flag (params : json) : option bool :=
  match find "ordered" params with Some (JBool b) => Some b | _ => None end.

Lemma wp_get_key k (Q : json -> json -> Prop) E o v :
  obj_lookup k o = Some v -> Q v (JObject o) -> wp (get_key k) Q E (JObject o).
Proof.
  intros Hl HQ. unfold wp, get_key, at_key, get. rewrite Hl. cbn. by rewrite obj_insert_id.
Qed.

Lemma contains_present k j : contains k j = present (find k j).
Proof. done. Qed.

(** The part of the function after the [ordered] member is in place. *)
Lemma wp_sctp_stream_end given b o o1 (Q : unit -> json -> Prop) :
  obj_lookup "ordered" o1 = Some (JBool b) -> same_but "ordered" o1 o ->
  missing is_number_integer (obj_lookup "streamId" o) = false ->
  let life := present (obj_lookup "maxPacketLifeTime" o) in
  let retr := present (obj_lookup "maxRetransmits" o) in
  (forall j', normalSctpStreamParameters j' = true ->
     contains "maxPacketLifeTime" j' = true -> contains "maxRetransmits" j' = true ->
     life && retr = false -> (given && b && (life || retr) = false) ->
     find "ordered" j' = Some (JBool (if given then b else if life || retr then false else b)) ->
     Q tt j') ->
  wp (when (missing is_number_integer (obj_lookup "maxPacketLifeTime" o)) (set_key "maxPacketLifeTime" (JUint 0)) ;;;
      when (missing is_number_integer (obj_lookup "maxRetransmits" o)) (set_key "maxRetransmits" (JUint 0)) ;;;
      throw_if (life && retr) (type_error "cannot provide both maxPacketLifeTime and maxRetransmits") ;;;
      ordered <- get_key "ordered" ;;
      throw_if (given && json_eqb ordered (JBool true) && (life || retr))
        (type_error "cannot be ordered with maxPacketLifeTime or maxRetransmits") ;;;
      when (negb given && (life || retr)) (set_key "ordered" (JBool false)) ;;;
      when (missing is_string (obj_lookup "priority" o)) (set_key "priority" (JString "")) ;;;
      when (missing is_string (obj_lookup "label" o)) (set_key "label" (JString "")) ;;;
      when (missing is_string (obj_lookup "protocol" o)) (set_key "protocol" (JString "")))
    Q (fun e _ => is_type_error e = true) (JObject o1).
Proof.
  intros Ho F1 Hs life retr HQ.
  wp_step. apply wp_default_key; [done|by frames|]. intros o2 M2 F2.
  wp_step. apply wp_default_key; [done|by frames|]. intros o3 M3 F3.
  wp_step. wp_step; [done|]. wp_step. apply (wp_get_key _ _ _ _ (JBool b)); [by frames|].
  assert (json_eqb (JBool b) (JBool true) = b) as -> by (by destruct b).
  wp_step. wp_step; [done|]. wp_step.
  apply (wp_mono _ (fun _ j => exists o4, j = JObject o4 /\ same_but "ordered" o4 o3 /\
    obj_lookup "ordered" o4 = Some (JBool (if given then b else if life || retr then false else b))) _
    (fun e _ => is_type_error e = true)); [|intros [] _ (o4 & -> & F4 & Ho4)|done].
  { wp_step; [wp_step|].
    - eexists. split; [done|]. split; [apply same_but_insert|]. obj_simpl.
      by destruct given, (life || retr).
    - eexists. split; [done|]. split; [done|]. frames. rewrite Ho. by destruct given, (life || retr). }
  wp_step. apply wp_default_key; [done|by frames|]. intros o5 M5 F5.
  wp_step. apply wp_default_key; [done|by frames|]. intros o6 M6 F6.
  apply wp_default_key; [done|by frames|]. intros o7 M7 F7.
  from_missing. apply HQ; [|..|done|done|].
  - unfold normalSctpStreamParameters, key_ok. cbn [find is_object]. rewrite M7. frames.
    rewrite M6. frames. rewrite M5. frames. rewrite Ho4. frames. rewrite M3. frames. by rewrite M2, Hs.
  - unfold contains. cbn [find]. frames. by destruct (obj_lookup "maxPacketLifeTime" o2).
  - unfold contains. cbn [find]. frames. by destruct (obj_lookup "maxRetransmits" o3).
  - cbn [find]. by frames.
Qed.

Lemma validateSctpStreamParameters_wp o :
  let j := JObject o in
  wp validateSctpStreamParameters
    (fun _ j' => normalSctpStreamParameters j' = true /\
       contains "maxPacketLifeTime" j' = true /\ contains "maxRetransmits" j' = true /\
       contains "maxPacketLifeTime" j && contains "maxRetransmits" j = false /\
       ordered_flag j' = Some (default (negb (gives_limit j)) (ordered_flag j)) /\
       (ordered_flag j = Some true -> gives_limit j = false))
    (fun e _ => is_type_error e = true) j.
Proof.
  cbv zeta. unfold validateSctpStreamParameters. do 4 wp_step; [done|]. cbn [find].
  wp_step. wp_step; [done|]. unfold ordered_flag, gives_limit. rewrite !contains_present. cbn [find].
  destruct (obj_lookup "ordered" o) as [v|] eqn:Eo; [destruct (is_boolean v) eqn:Eb|].
  - destruct v as [|b| | | | | |]; try done. cbn [missing is_boolean negb when]. do 2 wp_step.
    eapply (wp_sctp_stream_end true b o o); [done|done|done|].
    intros j' Hn H1 H2 Hboth Hord Hfo. rewrite Hfo. split_and!; try done.
    cbn in Hord. intros [= ->]. done.
  - assert (missing is_boolean (Some v) = true) as -> by (cbn; by rewrite Eb). cbn [negb when].
    do 2 wp_step. eapply (wp_sctp_stream_end false true o _); [by obj_simpl|apply same_but_insert|done|].
    intros j' Hn H1 H2 Hboth _ Hfo. rewrite Hfo. destruct v; try done;
      (split_and!; try done; cbn; by destruct (_ || _)).
  - cbn [missing negb when].
    do 2 wp_step. eapply (wp_sctp_stream_end false true o _); [by obj_simpl|apply same_but_insert|done|].
    intros j' Hn H1 H2 Hboth _ Hfo. rewrite Hfo. split_and!; try done; cbn; by destruct (_ || _).
Qed.

(** Data stream parameters: on every object the validator returns a complete
    dictionary or throws a type error.  An accepted dictionary gave at most one
    of the two reliability limits, and none if it asked for an ordered stream;
    the [ordered] member of the result is the caller's flag, and without one it
    is true exactly when no limit was given. *)
Theorem sctp_stream_ordered o j' :
  validateSctpStreamParameters (JObject o) = (Ok tt, j') ->
  normalSctpStreamParameters j' = true /\
  contains "maxPacketLifeTime" (JObject o) && contains "maxRetransmits" (JObject o) = false /\
  ordered_flag j' = Some (default (negb (gives_limit (JObject o))) (ordered_flag (JObject o))) /\
  (ordered_flag (JObject o) = Some true -> gives_limit (JObject o) = false).
Proof.
  intros H. pose proof (validateSctpStreamParameters_wp o) as Hw. unfold wp in Hw. cbn zeta in Hw.
  rewrite H in Hw. by destruct Hw as (? & _ & _ & ? & ? & ?).
Qed.

Definition sample_stream : list (string * json) :=
  [("maxRetransmits", JUint 3); ("streamId", JUint 7)].

Lemma sctp_stream_ordered_witness :
  ordered_flag (validateSctpStreamParameters (JObject sample_stream)).2 = Some false.
Proof.
  exact (proj1 (proj2 (proj2 (sctp_stream_ordered sample_stream _ eq_refl)))).
Defined.

(** Unlike the other validators this one rejects its own output: it fills
    in both limits, and a second call takes them for given by the caller. *)
Theorem sctp_stream_not_idempotent o j' :
  validateSctpStreamParameters (JObject o) = (Ok tt, j') ->
  exists msg, (validateSctpStreamParameters j').1 = Throw (MediaSoupClientTypeError msg).
Proof.
  intros H. pose proof (validateSctpStreamParameters_wp o) as Hw. unfold wp in Hw. cbn zeta in Hw.
  rewrite H in Hw. destruct Hw as (_ & H1 & H2 & _).
  destruct j' as [| | | | | | |o']; try done.
  pose proof (validateSctpStreamParameters_wp o') as Hw'. unfold wp in Hw'. cbn zeta in Hw'.
  destruct (validateSctpStreamParameters (JObject o')) as [[[]|e|] j'']; cbn [fst] in *.
  - destruct Hw' as (_ & _ & _ & Hb & _). rewrite H1, H2 in Hb. done.
  - destruct e; try done. eauto.
  - done.
Qed.

Lemma sctp_stream_not_idempotent_witness :
  exists msg, (validateSctpStreamParameters
    (validateSctpStreamParameters (JObject sample_stream)).2).1 = Throw (MediaSoupClientTypeError msg).
Proof. exact (sctp_stream_not_idempotent sample_stream _ eq_refl). Defined.
