(* ===== verification/H264.v ===== *)
(** * webrtc media/base/h264_profile_level_id.cc

    H.264 profile and level ids as codec matching uses them: parsing, printing,
    comparison, and the profile-level-id of an answer. *)

From stdpp Require Import base list strings pretty.
From Stdlib Require Import ZArith Lia SpecFloat Ascii.
From S2P Require Import Prelude Json Text.

Local Open Scope Z_scope.

(** ** Types *)

Inductive Profile :=
| kProfileConstrainedBaseline | kProfileBaseline | kProfileMain
| kProfileConstrainedHigh | kProfileHigh.

Inductive Level :=
| kLevel1_b | kLevel1 | kLevel1_1 | kLevel1_2 | kLevel1_3 | kLevel2 | kLevel2_1 | kLevel2_2
| kLevel3 | kLevel3_1 | kLevel3_2 | kLevel4 | kLevel4_1 | kLevel4_2 | kLevel5 | kLevel5_1 | kLevel5_2.

#[global] Instance Profile_eq_dec : EqDecision Profile.
Proof. solve_decision. Defined.
#[global] Instance Level_eq_dec : EqDecision Level.
Proof. solve_decision. Defined.

Definition Level_value (l : Level) : Z :=
  match l with
  | kLevel1_b => 0 | kLevel1 => 10 | kLevel1_1 => 11 | kLevel1_2 => 12 | kLevel1_3 => 13
  | kLevel2 => 20 | kLevel2_1 => 21 | kLevel2_2 => 22 | kLevel3 => 30 | kLevel3_1 => 31
  | kLevel3_2 => 32 | kLevel4 => 40 | kLevel4_1 => 41 | kLevel4_2 => 42 | kLevel5 => 50
  | kLevel5_1 => 51 | kLevel5_2 => 52
  end.

Record ProfileLevelId := { profile : Profile; level : Level }.

#[global] Instance ProfileLevelId_eq_dec : EqDecision ProfileLevelId.
Proof. solve_decision. Defined.

(** [CodecParameterMap]: a [std::map<std::string, std::string>]. *)
Definition CodecParameterMap := list (string * string).

(** ** Bit patterns *)

(** The byte whose set bits are the positions of [c] in an 8-character text,
    the first character being the most significant bit. *)
Fixpoint ByteMaskString_from (c : ascii) (s : string) (bit : Z) : Z :=
  match s with
  | EmptyString => 0
  | String d r => Z.lor (if Ascii.eqb d c then Z.shiftl 1 bit else 0) (ByteMaskString_from c r (bit - 1))
  end.
Definition ByteMaskString (c : ascii) (s : string) : Z := ByteMaskString_from c s 7.

Record BitPattern := { mask_ : Z; masked_value_ : Z }.
Definition mkBitPattern (s : string) : BitPattern :=
  {| mask_ := Z.lxor 255 (ByteMaskString "x" s); masked_value_ := ByteMaskString "1" s |}.
Definition IsMatch (p : BitPattern) (value : Z) : bool :=
  masked_value_ p =? Z.land value (mask_ p).

Definition kProfilePatterns : list (Z * BitPattern * Profile) :=
  [ (0x42, mkBitPattern "x1xx0000", kProfileConstrainedBaseline);
    (0x4D, mkBitPattern "1xxx0000", kProfileConstrainedBaseline);
    (0x58, mkBitPattern "11xx0000", kProfileConstrainedBaseline);
    (0x42, mkBitPattern "x0xx0000", kProfileBaseline);
    (0x58, mkBitPattern "10xx0000", kProfileBaseline);
    (0x4D, mkBitPattern "0x0x0000", kProfileMain);
    (0x64, mkBitPattern "00000000", kProfileHigh);
    (0x64, mkBitPattern "00001100", kProfileConstrainedHigh) ].

Definition kConstraintSet3Flag : Z := 0x10.

(** ** Comparison of levels *)

Definition IsLess (a b : Level) : bool :=
  if decide (a = kLevel1_b) then negb (bool_decide (b = kLevel1)) && negb (bool_decide (b = kLevel1_b))
  else if decide (b = kLevel1_b) then bool_decide (a = kLevel1)
  else Level_value a <? Level_value b.

Definition Min (a b : Level) : Level := if IsLess a b then a else b.

(** ** C strings *)

(** [c_str()] as C functions see it: up to the first NUL. *)
Fixpoint c_str (s : string) : string :=
  match s with
  | EmptyString => EmptyString
  | String c r => if Ascii.eqb c "000" then EmptyString else String c (c_str r)
  end.

Definition is_space (c : ascii) : bool :=
  let n := N_of_ascii c in (n =? 32)%N || ((9 <=? n)%N && (n <=? 13)%N).
Fixpoint skip_space (s : string) : string :=
  match s with String c r => if is_space c then skip_space r else s | _ => s end.

Definition hex_digit (c : ascii) : option Z :=
  let n := Z.of_N (N_of_ascii c) in
  if (48 <=? n) && (n <=? 57) then Some (n - 48)
  else if (97 <=? n) && (n <=? 102) then Some (n - 87)
  else if (65 <=? n) && (n <=? 70) then Some (n - 55)
  else None.
Fixpoint hex_value (acc : Z) (s : string) : Z :=
  match s with
  | String c r => match hex_digit c with Some d => hex_value (16 * acc + d) r | None => acc end
  | EmptyString => acc
  end.

(** An optional [0x] is skipped when a hexadecimal digit follows it. *)
Definition skip_0x (s : string) : string :=
  match s with
  | String "0" (String x (String c r)) =>
    if Ascii.eqb (lower_char x) "x" then
      match hex_digit c with Some _ => String c r | None => s end
    else s
  | _ => s
  end.

(** [strtol(s, nullptr, 16)] for texts short enough not to overflow [long]. *)
Definition strtol16 (s : string) : Z :=
  match skip_space s with
  | String "-" r => - hex_value 0 (skip_0x r)
  | String "+" r => hex_value 0 (skip_0x r)
  | r => hex_value 0 (skip_0x r)
  end.

(** ** Parsing *)

Definition Level_of_idc (level_idc profile_iop : Z) : option Level :=
  match level_idc with
  | 11 => Some (if Z.land profile_iop kConstraintSet3Flag =? 0 then kLevel1_1 else kLevel1_b)
  | 10 => Some kLevel1 | 12 => Some kLevel1_2 | 13 => Some kLevel1_3
  | 20 => Some kLevel2 | 21 => Some kLevel2_1 | 22 => Some kLevel2_2
  | 30 => Some kLevel3 | 31 => Some kLevel3_1 | 32 => Some kLevel3_2
  | 40 => Some kLevel4 | 41 => Some kLevel4_1 | 42 => Some kLevel4_2
  | 50 => Some kLevel5 | 51 => Some kLevel5_1 | 52 => Some kLevel5_2
  | _ => None
  end.

Definition find_profile (profile_idc profile_iop : Z) : option Profile :=
  match List.find (fun '(idc, iop, _) => (profile_idc =? idc) && IsMatch iop profile_iop) kProfilePatterns with
  | Some (_, _, p) => Some p
  | None => None
  end.

Definition ParseProfileLevelId (str : string) : option ProfileLevelId :=
  let str := c_str str in
  if negb (Nat.eqb (String.length str) 6) then None else
  let profile_level_id_numeric := wrap_u 32 (strtol16 str) in
  if profile_level_id_numeric =? 0 then None else
  let level_idc := Z.land profile_level_id_numeric 0xFF in
  let profile_iop := Z.land (Z.shiftr profile_level_id_numeric 8) 0xFF in
  let profile_idc := Z.land (Z.shiftr profile_level_id_numeric 16) 0xFF in
  match Level_of_idc level_idc profile_iop with
  | None => None
  | Some l =>
    match find_profile profile_idc profile_iop with
    | Some p => Some {| profile := p; level := l |}
    | None => None
    end
  end.

Definition ParseSdpProfileLevelId (params : CodecParameterMap) : option ProfileLevelId :=
  match obj_lookup "profile-level-id" params with
  | None => Some {| profile := kProfileConstrainedBaseline; level := kLevel3_1 |}
  | Some s => ParseProfileLevelId s
  end.

Definition IsLevelAsymmetryAllowed (params : CodecParameterMap) : bool :=
  match obj_lookup "level-asymmetry-allowed" params with
  | Some s => String.eqb (c_str s) "1"
  | None => false
  end.

(** ** Printing *)

Definition hex_char (d : Z) : ascii := ascii_of_N (Z.to_N (if d <? 10 then 48 + d else 87 + d)).
(** [%02x] of a value below 256. *)
Definition hex02 (z : Z) : string :=
  String (hex_char (z / 16)) (String (hex_char (z mod 16)) EmptyString).

Definition ProfileLevelIdToString (p : ProfileLevelId) : option string :=
  if decide (level p = kLevel1_b) then
    match profile p with
    | kProfileConstrainedBaseline => Some "42f00b"
    | kProfileBaseline => Some "42100b"
    | kProfileMain => Some "4d100b"
    | _ => None
    end
  else
    let profile_idc_iop_string :=
      match profile p with
      | kProfileConstrainedBaseline => "42e0"
      | kProfileBaseline => "4200"
      | kProfileMain => "4d00"
      | kProfileConstrainedHigh => "640c"
      | kProfileHigh => "6400"
      end in
    Some (profile_idc_iop_string +:+ hex02 (Level_value (level p))).

(** ** Negotiation *)

Definition IsSameH264Profile (params1 params2 : CodecParameterMap) : bool :=
  match ParseSdpProfileLevelId params1, ParseSdpProfileLevelId params2 with
  | Some a, Some b => bool_decide (profile a = profile b)
  | _, _ => false
  end.

(** The three [RTC_DCHECK]s abort a debug build; a release build goes on and
    dereferences an empty optional. *)
Definition GenerateProfileLevelIdForAnswer
    (local_supported_params remote_offered_params answer_params : CodecParameterMap)
    : outcome CodecParameterMap :=
  match obj_lookup "profile-level-id" local_supported_params,
        obj_lookup "profile-level-id" remote_offered_params with
  | None, None => Ok answer_params
  | _, _ =>
    match ParseSdpProfileLevelId local_supported_params, ParseSdpProfileLevelId remote_offered_params with
    | Some local_id, Some remote_id =>
      if decide (profile local_id = profile remote_id) then
        let level_asymmetry_allowed :=
          IsLevelAsymmetryAllowed local_supported_params && IsLevelAsymmetryAllowed remote_offered_params in
        let min_level := Min (level local_id) (level remote_id) in
        let answer_level := if level_asymmetry_allowed then level local_id else min_level in
        match ProfileLevelIdToString {| profile := profile local_id; level := answer_level |} with
        | Some s => Ok (obj_insert "profile-level-id" s answer_params)
        | None => Undef
        end
      else Undef
    | _, _ => Undef
    end
  end.

(** ** The highest level a decoder supports *)

Definition kLevelConstraints : list (Z * Z * Level) :=
  [ (1485, 99, kLevel1); (1485, 99, kLevel1_b); (3000, 396, kLevel1_1); (6000, 396, kLevel1_2);
    (11880, 396, kLevel1_3); (11880, 396, kLevel2); (19800, 792, kLevel2_1);
    (20250, 1620, kLevel2_2); (40500, 1620, kLevel3); (108000, 3600, kLevel3_1);
    (216000, 5120, kLevel3_2); (245760, 8192, kLevel4); (245760, 8192, kLevel4_1);
    (522240, 8704, kLevel4_2); (589824, 22080, kLevel5); (983040, 36864, kLevel5_1);
    (2073600, 36864, kLevel5_2) ].

Definition float_of_Z (z : Z) : spec_float := binary_normalize 24 128 z 0 false.

(** The two limits of one row, with the frame rate in single precision. *)
Definition supports (max_frame_pixel_count : Z) (max_fps : spec_float) (c : Z * Z * Level) : bool :=
  let '(max_macroblocks_per_second, max_macroblock_frame_size, _) := c in
  (max_macroblock_frame_size * (16 * 16) <=? max_frame_pixel_count) &&
  SFleb (float_of_Z max_macroblocks_per_second)
        (SFmul 24 128 max_fps (float_of_Z max_macroblock_frame_size)).

(** The loop runs from the last row to the first. *)
Definition SupportedLevel (max_frame_pixel_count : Z) (max_fps : spec_float) : option Level :=
  match List.find (supports max_frame_pixel_count max_fps) (rev kLevelConstraints) with
  | Some (_, _, l) => Some l
  | None => None
  end.

(** ** Properties *)

(** [IsLess] is a strict total order on levels, with level 1b strictly
    between levels 1 and 1.1. *)
Theorem IsLess_strict_total_order :
  (forall a, IsLess a a = false) /\
  (forall a b c, IsLess a b = true -> IsLess b c = true -> IsLess a c = true) /\
  (forall a b, a <> b -> IsLess a b = true \/ IsLess b a = true) /\
  IsLess kLevel1 kLevel1_b = true /\ IsLess kLevel1_b kLevel1_1 = true.
Proof.
  split_and!; try done.
  - by intros [].
  - by intros [] [] [].
  - intros [] [] Hne; try done; first [by left | by right].
Qed.

Lemma IsLess_irrefl a : IsLess a a = false.
Proof. by destruct a. Qed.

(** Not less: the other way round or equal. *)
Lemma Min_not_less a b : IsLess a (Min a b) = false /\ IsLess b (Min a b) = false.
Proof. by destruct a, b. Qed.

(** The profile of a byte pair, decided by enumeration of the 256 values of
    each byte. *)
Definition bytes : list Z := seqZ 0 256.

Lemma forallb_bytes (f : Z -> bool) :
  forallb f bytes = true -> forall z, 0 <= z < 256 -> f z = true.
Proof.
  intros H z Hz. apply (proj1 (forallb_forall _ _) H), list_elem_of_In.
  unfold bytes. apply elem_of_seqZ. lia.
Qed.

Lemma land_255 z : 0 <= Z.land z 255 < 256.
Proof. change 255 with (Z.ones 8). rewrite Z.land_ones by lia. apply Z.mod_pos_bound. lia. Qed.

Definition printable_1b (p : Profile) : bool :=
  match p with kProfileConstrainedBaseline | kProfileBaseline | kProfileMain => true | _ => false end.

(** With constraint set 3 no pattern of the High profiles matches. *)
Lemma find_profile_set3 idc iop p :
  0 <= iop < 256 -> Z.land iop kConstraintSet3Flag <> 0 ->
  find_profile idc iop = Some p -> printable_1b p = true.
Proof.
  intros Hr Hset. unfold find_profile.
  assert (forallb (fun iop => (Z.land iop kConstraintSet3Flag =? 0) ||
    negb (IsMatch (mkBitPattern "00000000") iop || IsMatch (mkBitPattern "00001100") iop)) bytes = true)
    as Henum by (vm_compute; reflexivity).
  pose proof (forallb_bytes _ Henum iop Hr) as Hiop. cbn beta in Hiop.
  apply orb_prop in Hiop as [Hz%Z.eqb_eq|Hn]; [done|].
  apply negb_true_iff, orb_false_iff in Hn as [Hh Hc].
  unfold kProfilePatterns. cbn [List.find]. rewrite Hh, Hc, !andb_false_r.
  repeat (match goal with |- context [if ?b then _ else _] => destruct b end;
          [by intros [= <-]|]). done.
Qed.

Lemma Level_of_idc_1b idc iop :
  Level_of_idc idc iop = Some kLevel1_b -> Z.land iop kConstraintSet3Flag <> 0.
Proof.
  unfold Level_of_idc. intros H Hz.
  destruct idc as [|p|p]; try done.
  repeat (match goal with |- _ => destruct p as [p|p|]; try done end).
  by rewrite Hz in H.
Qed.

(** Every id the parser returns can be printed. *)
Lemma Parse_printable s a b :
  ParseProfileLevelId s = Some a -> (b = level a \/ b <> kLevel1_b) ->
  exists t, ProfileLevelIdToString {| profile := profile a; level := b |} = Some t.
Proof.
  unfold ParseProfileLevelId. destruct (negb _); [done|].
  set (n := wrap_u 32 _). destruct (n =? 0); [done|].
  destruct (Level_of_idc _ _) as [l|] eqn:El; [|done].
  destruct (find_profile _ _) as [p|] eqn:Ep; [|done]. intros [= <-] Hb. cbn in *.
  unfold ProfileLevelIdToString. cbn. destruct (decide (b = kLevel1_b)) as [->|]; [|eauto].
  destruct Hb as [<-|]; [|done].
  pose proof (find_profile_set3 _ _ _ (land_255 _) (Level_of_idc_1b _ _ El) Ep).
  destruct p; try done; eauto.
Qed.

Lemma profile_level_id_print_parse p :
  match ProfileLevelIdToString p with
  | Some s => ParseProfileLevelId s = Some p
  | None => level p = kLevel1_b /\ printable_1b (profile p) = false
  end.
Proof. destruct p as [p l]. destruct p, l; vm_compute; done. Qed.

(** Printing and parsing are inverse: every id that can be printed is read
    back, and what cannot be printed is exactly level 1b of a High profile. *)
Theorem profile_level_id_roundtrip p :
  match ProfileLevelIdToString p with
  | Some s => ParseProfileLevelId s = Some p
  | None => level p = kLevel1_b /\ printable_1b (profile p) = false
  end.
Proof. apply profile_level_id_print_parse. Qed.

(** at most one row of the profile table matches a pair of bytes, so the
    order of the rows does not matter. *)
Theorem profile_patterns_unambiguous idc iop i j r s :
  0 <= iop < 256 ->
  kProfilePatterns !! i = Some r -> kProfilePatterns !! j = Some s ->
  idc = r.1.1 -> idc = s.1.1 -> IsMatch r.1.2 iop = true -> IsMatch s.1.2 iop = true -> i = j.
Proof.
  intros Hiop Hi Hj Hr Hs Mr Ms.
  set (rows := imap pair kProfilePatterns).
  set (ok := fun iop => forallb (fun x => forallb (fun y =>
     negb ((x.2.1.1 =? y.2.1.1) && IsMatch x.2.1.2 iop && IsMatch y.2.1.2 iop) || Nat.eqb x.1 y.1) rows) rows).
  assert (forallb ok bytes = true) as Henum by (vm_compute; reflexivity).
  pose proof (forallb_bytes _ Henum iop Hiop) as Hok. unfold ok in Hok.
  assert (forall i r, kProfilePatterns !! i = Some r -> In (i, r) rows) as Hin.
  { intros i0 r0 H0. apply list_elem_of_In, list_elem_of_lookup. exists i0.
    unfold rows. by rewrite list_lookup_imap, H0. }
  pose proof (proj1 (forallb_forall _ _) Hok _ (Hin _ _ Hi)) as H1. cbv beta in H1.
  pose proof (proj1 (forallb_forall _ _) H1 _ (Hin _ _ Hj)) as H2. cbn [fst snd] in H2.
  rewrite <- Hr, <- Hs, Z.eqb_refl, Mr, Ms in H2. by apply Nat.eqb_eq in H2.
Qed.

Lemma profile_patterns_unambiguous_witness : 3%nat = 3%nat.
Proof.
  refine (profile_patterns_unambiguous 0x42 0 3 3 _ _ _ eq_refl eq_refl
    eq_refl eq_refl eq_refl eq_refl). lia.
Defined.

(** The level of an answer. *)
Definition answer_level (asymmetry : bool) (a b : Level) : Level := if asymmetry then a else Min a b.

(** Two ids with the same profile always have an answer, and it parses back. *)
Lemma GenerateProfileLevelId_ok local remote sl sr a b answer :
  obj_lookup "profile-level-id" local = Some sl -> obj_lookup "profile-level-id" remote = Some sr ->
  ParseProfileLevelId sl = Some a -> ParseProfileLevelId sr = Some b -> profile a = profile b ->
  exists s, GenerateProfileLevelIdForAnswer local remote answer = Ok (obj_insert "profile-level-id" s answer) /\
    ParseProfileLevelId s = Some {| profile := profile a; level :=
      answer_level (IsLevelAsymmetryAllowed local && IsLevelAsymmetryAllowed remote) (level a) (level b) |}.
Proof.
  intros Hl Hr Ea Eb Hs. set (lvl := answer_level _ _ _).
  assert (exists t, ProfileLevelIdToString {| profile := profile a; level := lvl |} = Some t) as [t Ht].
  { unfold lvl, answer_level, Min. destruct (_ && _); [apply (Parse_printable sl a); [done|by left]|].
    destruct (IsLess _ _); [apply (Parse_printable sl a); [done|by left]|].
    rewrite Hs. apply (Parse_printable sr b); [done|by left]. }
  exists t. split.
  - unfold GenerateProfileLevelIdForAnswer, ParseSdpProfileLevelId. rewrite Hl, Hr, Ea, Eb.
    destruct (decide _); [|done]. unfold lvl, answer_level in Ht. by rewrite Ht.
  - pose proof (profile_level_id_print_parse {| profile := profile a; level := lvl |}) as H.
    by rewrite Ht in H.
Qed.

(** The profile-level-id of an answer.  When both sides name the same
    profile (what IsSameH264Profile checks before the call), the function does
    not abort or dereference an empty optional; the id it sets parses back to
    that profile, at the local level if both sides allow asymmetry and at the
    lower of the two levels otherwise, so that without asymmetry the answer
    never exceeds either level. *)
Theorem answer_profile_level_id local remote sl sr answer :
  obj_lookup "profile-level-id" local = Some sl ->
  obj_lookup "profile-level-id" remote = Some sr ->
  IsSameH264Profile local remote = true ->
  exists a b s lvl,
    ParseProfileLevelId sl = Some a /\ ParseProfileLevelId sr = Some b /\
    GenerateProfileLevelIdForAnswer local remote answer = Ok (obj_insert "profile-level-id" s answer) /\
    ParseProfileLevelId s = Some {| profile := profile a; level := lvl |} /\
    (IsLevelAsymmetryAllowed local && IsLevelAsymmetryAllowed remote = true -> lvl = level a) /\
    (IsLevelAsymmetryAllowed local && IsLevelAsymmetryAllowed remote = false ->
     lvl = Min (level a) (level b) /\ IsLess (level a) lvl = false /\ IsLess (level b) lvl = false).
Proof.
  intros Hl Hr Hs. unfold IsSameH264Profile, ParseSdpProfileLevelId in Hs. rewrite Hl, Hr in Hs.
  destruct (ParseProfileLevelId sl) as [a|] eqn:Ea; [|done].
  destruct (ParseProfileLevelId sr) as [b|] eqn:Eb; [|done]. apply bool_decide_eq_true in Hs.
  destruct (GenerateProfileLevelId_ok local remote sl sr a b answer) as (s & Hg & Hp); [done..|].
  eexists a, b, s, _. split_and!; [done..|exact Hp| |]; intros ->; [done|].
  split; [done|]. apply Min_not_less.
Qed.

Definition sample_local : CodecParameterMap :=
  [("level-asymmetry-allowed", "0"); ("profile-level-id", "42e01f")].
Definition sample_remote : CodecParameterMap :=
  [("level-asymmetry-allowed", "1"); ("profile-level-id", "42e015")].

Lemma answer_profile_level_id_witness :
  exists s, GenerateProfileLevelIdForAnswer sample_local sample_remote [] = Ok [("profile-level-id", s)] /\
    s = "42e015".
Proof.
  destruct (answer_profile_level_id sample_local sample_remote "42e01f" "42e015" [] eq_refl eq_refl eq_refl)
    as (a & b & s & lvl & _ & _ & Hg & _).
  exists s. split; [exact Hg|]. vm_compute in Hg. congruence.
Defined.

(** [SupportedLevel] returns the last row of the level table whose two
    limits the decoder meets, and nothing exactly when no row qualifies. *)
Theorem SupportedLevel_highest pixels fps :
  match SupportedLevel pixels fps with
  | Some l => exists i c, kLevelConstraints !! i = Some c /\ c.2 = l /\ supports pixels fps c = true /\
      forall k c', (i < k)%nat -> kLevelConstraints !! k = Some c' -> supports pixels fps c' = false
  | None => Forall (fun c => supports pixels fps c = false) kLevelConstraints
  end.
Proof.
  unfold SupportedLevel. generalize kLevelConstraints as rows.
  induction rows as [|c rows IH] using rev_ind; [by constructor|].
  rewrite rev_app_distr. cbn [rev app List.find]. destruct (supports pixels fps c) eqn:E.
  - destruct c as [[x y] l]. exists (length rows), (x, y, l).
    split; [by rewrite lookup_app_r, Nat.sub_diag by done|]. split_and!; [done..|].
    intros k c' Hk Hl. apply lookup_lt_Some in Hl. rewrite length_app in Hl. cbn in Hl. lia.
  - destruct (List.find _ (rev rows)) as [[[x y] l]|].
    + destruct IH as (i & c0 & Hi & Hl & Hs & Hmax). exists i, c0.
      split; [by apply lookup_app_l_Some|]. split_and!; [done..|]. intros k c' Hk Hc'.
      apply lookup_app_Some in Hc' as [Hc'|[Hk' Hc']]; [by eapply Hmax|].
      destruct (k - length rows)%nat; cbn in Hc'; by simplify_eq.
    + apply Forall_app. split; [done|]. by constructor.
Qed.
