(* ===== verification/Utils.v ===== *)
(** * Utils.hpp, scalabilityMode.cpp and the text conversions of the standard library

    Splitting and joining, [std::stoi] and [std::stoull], the decimal output of
    a [float], and the scalability mode expression. *)

From stdpp Require Import base list strings pretty.
From Stdlib Require Import ZArith Lia Ascii SpecFloat.
From S2P Require Import Prelude Json Text.

(** ** [split] and [join] *)

(** [std::getline] with a delimiter until the stream ends: an empty rest gives
    no token. [token] is what has been read since the last delimiter. *)
Fixpoint split_from (delimiter : ascii) (token s : string) : list string :=
  match s with
  | EmptyString => match token with EmptyString => [] | _ => [token] end
  | String c r =>
    if Ascii.eqb c delimiter then token :: split_from delimiter EmptyString r
    else split_from delimiter (token +:+ String c EmptyString) r
  end.
Definition split (s : string) (delimiter : ascii) : list string := split_from delimiter EmptyString s.

Fixpoint join (v : list string) (delimiter : ascii) : string :=
  match v with
  | [] => EmptyString
  | [x] => x
  | x :: r => x +:+ String delimiter (join r delimiter)
  end.
(** The overload for [std::vector<uint32_t>]. *)
Definition join_uint32 (v : list Z) (delimiter : ascii) : string := join (map pretty v) delimiter.

(** [if (!s.empty()) s.append(" "); s.append(x);] for every [x]. *)
Fixpoint append_all (sep : string) (acc : string) (v : list string) : string :=
  match v with
  | [] => acc
  | x :: r => append_all sep ((if String.eqb acc "" then acc else acc +:+ sep) +:+ x) r
  end.

(** ** Numbers from text *)

Definition digit (c : ascii) : option Z :=
  let n := Z.of_N (N_of_ascii c) in
  if (48 <=? n)%Z && (n <=? 57)%Z then Some (n - 48)%Z else None.
Fixpoint digits_value (acc : Z) (s : string) : Z :=
  match s with
  | String c r => match digit c with Some d => digits_value (10 * acc + d) r | None => acc end
  | EmptyString => acc
  end.
Definition is_space (c : ascii) : bool :=
  let n := N_of_ascii c in (n =? 32)%N || ((9 <=? n)%N && (n <=? 13)%N).
Fixpoint skip_space (s : string) : string :=
  match s with String c r => if is_space c then skip_space r else s | _ => s end.

(** Sign and digits of [strtol] base 10; no digit at all is invalid. *)
Definition strto (s : string) : option (bool * Z) :=
  let digits (neg : bool) (s : string) :=
    match s with
    | String c _ => match digit c with Some _ => Some (neg, digits_value 0 s) | None => None end
    | EmptyString => None
    end in
  match skip_space s with
  | String "-"%char r => digits true r
  | String "+"%char r => digits false r
  | r => digits false r
  end.

Definition stoi (s : string) : outcome Z :=
  match strto s with
  | None => Throw StdInvalidArgument
  | Some (neg, z) =>
    (let v := if neg then - z else z in
     if (- 2 ^ 31 <=? v) && (v <? 2 ^ 31) then Ok v else Throw StdOutOfRange)%Z
  end.

(** A minus sign negates in the unsigned type. *)
Definition stoull (s : string) : outcome Z :=
  match strto s with
  | None => Throw StdInvalidArgument
  | Some (neg, z) =>
    (if z <? 2 ^ 64 then Ok (if neg then wrap_u 64 (- z) else z) else Throw StdOutOfRange)%Z
  end.

(** ** Floats to text: [std::ostream << float] with the default precision 6 *)

Definition to_float (f : spec_float) : spec_float :=
  match f with
  | S754_finite s m e => binary_normalize 24 128 (if s then Z.neg m else Z.pos m) e s
  | f => f
  end.

(** Nearest integer to [n/d], ties to even. *)
Definition round_even (n d : Z) : Z :=
  (let q := n / d in
   let r := n - q * d in
   if 2 * r <? d then q else if d <? 2 * r then q + 1 else if Z.even q then q else q + 1)%Z.

(** [n * 10^k / d] as a fraction. *)
Definition scale10 (n d k : Z) : Z * Z :=
  if (0 <=? k)%Z then ((n * 10 ^ k)%Z, d) else (n, (d * 10 ^ (- k))%Z).

Fixpoint pad_zeros (n : nat) (s : string) : string := match n with O => s | S n => String "0"%char (pad_zeros n s) end.
Fixpoint strip_zeros_rev (s : list ascii) : list ascii :=
  match s with c :: r => if Ascii.eqb c "0"%char then strip_zeros_rev r else s | [] => [] end.
(** Without trailing zeros. *)
Definition strip_zeros (s : string) : string :=
  String.string_of_list_ascii (rev (strip_zeros_rev (rev (String.list_ascii_of_string s)))).
Definition with_fraction (i f : string) : string :=
  let f := strip_zeros f in if String.eqb f "" then i else i +:+ "." +:+ f.

(** [%.6g] of the positive number [n/d]. *)
Definition print_positive (n d : Z) : string :=
  match List.find (fun x => let '(a, b) := scale10 n d (- x)%Z in (b <=? a)%Z) (rev (seqZ (-46) 86)) with
  | None => "0"
  | Some x0 =>
    let '(a, b) := scale10 n d (5 - x0)%Z in
    let v0 := round_even a b in
    let '(v, x) := if (v0 =? 10 ^ 6)%Z then ((10 ^ 5)%Z, (x0 + 1)%Z) else (v0, x0) in
    if ((-4 <=? x) && (x <? 6))%Z then
      if (0 <=? x)%Z then
        let p := (10 ^ (5 - x))%Z in
        let frac := pretty (v mod p)%Z in
        with_fraction (pretty (v / p)%Z)
          (if (x =? 5)%Z then "" else pad_zeros (Z.to_nat (5 - x) - String.length frac) frac)
      else with_fraction "0" (pad_zeros (Z.to_nat (- x - 1)) (pretty v))
    else
      let frac := pretty (v mod 10 ^ 5)%Z in
      let ex := pretty (Z.abs x) in
      with_fraction (pretty (v / 10 ^ 5)%Z) (pad_zeros (5 - String.length frac) frac) +:+ "e" +:+
      (if (x <? 0)%Z then "-" else "+") +:+ pad_zeros (2 - String.length ex) ex
  end.

Definition print_float (f : spec_float) : string :=
  match f with
  | S754_zero s => if s then "-0" else "0"
  | S754_infinity s => if s then "-inf" else "inf"
  | S754_nan => "nan"
  | S754_finite s m e =>
    (if s then "-" else "") +:+
    (if (0 <=? e)%Z then print_positive (Z.pos m * 2 ^ e)%Z 1 else print_positive (Z.pos m) (2 ^ (- e))%Z)
  end.

(** ** Scalability modes *)

(** [[1-9]\d{0,1}]: the digits and the rest. *)
Definition match_layers (s : string) : option (string * string) :=
  match s with
  | String c r =>
    match digit c with
    | Some d =>
      if (d =? 0)%Z then None else
      match r with
      | String c' r' =>
        match digit c' with Some _ => Some (String c (String c' ""), r') | None => Some (String c "", r) end
      | EmptyString => Some (String c "", r)
      end
    | None => None
    end
  | EmptyString => None
  end.

(** [^[LS]([1-9]\d{0,1})T([1-9]\d{0,1}).*] on the whole text: groups 1 and 2. *)
Definition match_scalability (s : string) : option (string * string) :=
  match s with
  | String c r =>
    if Ascii.eqb c "L"%char || Ascii.eqb c "S"%char then
      match match_layers r with
      | Some (spatial, String "T"%char r') =>
        match match_layers r' with
        | Some (temporal, rest) => if no_line_terminator rest then Some (spatial, temporal) else None
        | None => None
        end
      | _ => None
      end
    else None
  | EmptyString => None
  end.

(** [std::stoul] of matched digits cannot fail. *)
Definition parseScalabilityMode (scalabilityMode : string) : json :=
  match match_scalability scalabilityMode with
  | Some (spatial, temporal) =>
    mk_obj [ ("spatialLayers", JUint (digits_value 0 spatial)); ("temporalLayers", JUint (digits_value 0 temporal)) ]
  | None => mk_obj [ ("spatialLayers", JInt 1); ("temporalLayers", JInt 1) ]
  end.

(** ** Decimal numbers: reading back what was printed *)

Fixpoint all_digits (s : string) : bool :=
  match s with String c r => (match digit c with Some _ => true | None => false end) && all_digits r | EmptyString => true end.

Lemma digit_pretty x : (x < 10)%N -> digit (pretty_N_char x) = Some (Z.of_N x).
Proof.
  intros H. assert (x = 0 \/ x = 1 \/ x = 2 \/ x = 3 \/ x = 4 \/ x = 5 \/ x = 6 \/ x = 7 \/ x = 8 \/ x = 9)%N
    as Hx by lia. by repeat destruct Hx as [->|Hx]; try (by subst).
Qed.

Lemma pretty_N_go_digits x s : all_digits s = true ->
  all_digits (pretty_N_go x s) = true /\ digits_value 0 (pretty_N_go x s) = digits_value (Z.of_N x) s.
Proof.
  revert s. induction (N.lt_wf_0 x) as [x _ IH]; intros s Hs.
  destruct (decide (x = 0)%N) as [->|Hx]; [by rewrite pretty_N_go_0|].
  rewrite pretty_N_go_step by lia.
  assert (digit (pretty_N_char (x mod 10)) = Some (Z.of_N (x mod 10))) as Hd.
  { apply digit_pretty, N.mod_lt. lia. }
  destruct (IH (x / 10)%N) with (s := String (pretty_N_char (x mod 10)) s) as [H1 H2].
  { by apply N.div_lt; lia. }
  { cbn. by rewrite Hd. }
  split; [done|]. rewrite H2. cbn [digits_value]. rewrite Hd. f_equal.
  pose proof (N.div_mod x 10). lia.
Qed.

Lemma pretty_Z_N (z : Z) : (0 <= z)%Z -> pretty z = pretty (Z.to_N z).
Proof. intros Hz. by destruct z. Qed.

Lemma pretty_digits (z : Z) : (0 <= z)%Z -> exists c r, pretty z = String c r /\
  all_digits (String c r) = true /\ digits_value 0 (pretty z) = z.
Proof.
  intros Hz. rewrite pretty_Z_N by done. unfold pretty, pretty_N. destruct (decide (Z.to_N z = 0%N)) as [H0|H0].
  - exists "0"%char, "". split_and!; [done..|]. assert (z = 0)%Z as -> by lia. done.
  - destruct (pretty_N_go_digits (Z.to_N z) "" eq_refl) as [H1 H2].
    destruct (pretty_N_go (Z.to_N z) "") as [|c r] eqn:E.
    + cbn in H2. rewrite Z2N.id in H2; lia.
    + exists c, r. split_and!; [done..|]. rewrite H2. cbn. by rewrite Z2N.id.
Qed.

Lemma digit_not_space c d : digit c = Some d -> is_space c = false /\ c <> "-"%char /\ c <> "+"%char.
Proof. intros H. split_and!; [|by intros ->|by intros ->]. by destruct c as [[] [] [] [] [] [] [] []]. Qed.

(** Printed naturals are read back by [strtol], whatever the base class. *)
Lemma strto_pretty z : (0 <= z)%Z -> strto (pretty z) = Some (false, z).
Proof.
  intros Hz. destruct (pretty_digits z Hz) as (c & r & E & Hd & Hv). rewrite E in *. cbn [all_digits] in Hd.
  destruct (digit c) as [d|] eqn:Ec; [|done]. destruct (digit_not_space c d Ec) as (Hs & Hm & Hp).
  unfold strto. cbn [skip_space]. rewrite Hs. clear - Ec Hv.
  destruct c as [[] [] [] [] [] [] [] []]; try discriminate Ec; lazy beta iota zeta; rewrite Ec, Hv; done.
Qed.

Lemma stoull_pretty z : (0 <= z < 2 ^ 64)%Z -> stoull (pretty z) = Ok z.
Proof. intros Hz. unfold stoull. rewrite strto_pretty by lia. by destruct (Z.ltb_spec z (2 ^ 64)); [|lia]. Qed.

Lemma stoi_pretty z : (0 <= z < 2 ^ 31)%Z -> stoi (pretty z) = Ok z.
Proof.
  intros Hz. unfold stoi. rewrite strto_pretty by lia.
  destruct (Z.leb_spec (- 2 ^ 31) z), (Z.ltb_spec z (2 ^ 31)); by try lia.
Qed.

(** ** Splitting what was joined *)

Fixpoint has_char (d : ascii) (s : string) : bool :=
  match s with String c r => Ascii.eqb c d || has_char d r | EmptyString => false end.

Lemma string_app_assoc (a b c : string) : (a +:+ b) +:+ c = a +:+ (b +:+ c).
Proof. induction a as [|x a IH]; [done|]. by rewrite !string_app_cons, IH. Qed.

Lemma string_app_nil_r (a : string) : a +:+ "" = a.
Proof. induction a as [|x a IH]; [done|]. by rewrite string_app_cons, IH. Qed.

Lemma split_from_token d tok x r : has_char d x = false ->
  split_from d tok (x +:+ String d r) = (tok +:+ x) :: split_from d "" r.
Proof.
  revert tok. induction x as [|c x IH]; intros tok; cbn [has_char].
  - intros _. rewrite string_app_nil_l, string_app_nil_r. cbn. by rewrite Ascii.eqb_refl.
  - intros [Hc Hx]%orb_false_iff. rewrite string_app_cons. cbn [split_from]. rewrite Hc, IH by done.
    by rewrite string_app_assoc, string_app_cons, string_app_nil_l.
Qed.

Lemma split_from_last d tok x : has_char d x = false -> tok +:+ x <> "" -> split_from d tok x = [tok +:+ x].
Proof.
  revert tok. induction x as [|c x IH]; intros tok; cbn [has_char].
  - intros _. rewrite string_app_nil_r. by destruct tok.
  - intros [Hc Hx]%orb_false_iff Hne. cbn [split_from]. rewrite Hc, IH; [|done|].
    + by rewrite string_app_assoc, string_app_cons, string_app_nil_l.
    + by rewrite string_app_assoc, string_app_cons, string_app_nil_l.
Qed.

Lemma split_join_tokens d v : Forall (fun x => has_char d x = false /\ x <> "") v -> split (join v d) d = v.
Proof.
  unfold split. induction 1 as [|x v [Hx Hne] Hv IH]; [done|]. destruct v as [|y v].
  - cbn [join]. rewrite split_from_last; rewrite ?string_app_nil_l; done.
  - change (join (x :: y :: v) d) with (x +:+ String d (join (y :: v) d)).
    by rewrite split_from_token, string_app_nil_l, IH.
Qed.

(** ** Layers *)

Lemma match_layers_range s x r : match_layers s = Some (x, r) ->
  (1 <= digits_value 0 x <= 99)%Z /\ s = x +:+ r.
Proof.
  destruct s as [|c s]; [done|]. cbn [match_layers]. destruct (digit c) as [d|] eqn:Ec; [|done].
  assert (forall c d, digit c = Some d -> 0 <= d <= 9)%Z as Hr.
  { intros c' d'. unfold digit. destruct (_ && _) eqn:E; [|done]. intros [= <-]. apply andb_prop in E as [?%Z.leb_le ?%Z.leb_le]. lia. }
  pose proof (Hr _ _ Ec). destruct (Z.eqb_spec d 0) as [|Hd]; [done|].
  destruct s as [|c' s'].
  - intros [= <- <-]. cbn [digits_value]. rewrite Ec. split; [lia|done].
  - destruct (digit c') as [d'|] eqn:Ec'; intros [= <- <-]; cbn [digits_value]; rewrite ?Ec, ?Ec'.
    + pose proof (Hr _ _ Ec'). split; [lia|done].
    + split; [lia|done].
Qed.

(** The two layer counts of a result, set from the text or by default. *)
Definition layers (j : json) (sl tl : Z) : Prop :=
  j = mk_obj [("spatialLayers", JUint sl); ("temporalLayers", JUint tl)] \/
  sl = 1%Z /\ tl = 1%Z /\ j = mk_obj [("spatialLayers", JInt 1); ("temporalLayers", JInt 1)].

(** A scalability mode always yields 1 to 99 spatial and temporal layers,
    whatever the text. *)
Theorem scalability_mode_bounds s :
  exists sl tl, layers (parseScalabilityMode s) sl tl /\ (1 <= sl <= 99)%Z /\ (1 <= tl <= 99)%Z.
Proof.
  unfold parseScalabilityMode. destruct (match_scalability s) as [[x y]|] eqn:E.
  2:{ exists 1%Z, 1%Z. split; [by right|lia]. }
  exists (digits_value 0 x), (digits_value 0 y). split; [by left|].
  unfold match_scalability in E. destruct s as [|c s]; [done|]. destruct (_ || _); [|done].
  destruct (match_layers s) as [[x' [|t r]]|] eqn:E1; [done| |done].
  destruct (ascii_dec t "T"%char) as [->|Ht]; [|by destruct t as [[] [] [] [] [] [] [] []]].
  destruct (match_layers r) as [[y' r']|] eqn:E2; [|done].
  destruct (no_line_terminator r'); [|done]. injection E as -> ->.
  split; by eapply match_layers_range.
Qed.
