(* ===== verification/OrtcCaps.v ===== *)
(** * ortc.cpp: capabilities and parameters derived from them

    Codec and header extension matching, the extended RTP capabilities of the
    device, and what is sent, received and probed with them.  Reads through a
    const reference ([idx]) are undefined on a missing member; reads through a
    non-const one insert a null. *)

From stdpp Require Import base list strings pretty.
From Stdlib Require Import ZArith Lia.
From S2P Require Import Prelude Json Text OrtcValidate H264.

(** ** Helpers at the end of the file *)

Definition ProbatorSsrc : Z := 1234.
Definition ProbatorMid : string := "probator".

Definition isRtxCodec (codec : json) : outcome bool :=
  let! v := idx "mimeType" codec in
  let! mimeType := get_string v in
  Ok (match_rtx mimeType).

Definition matchHeaderExtensions (aExt bExt : json) : outcome bool :=
  let! ka := idx "kind" aExt in
  let! kb := idx "kind" bExt in
  if negb (json_eqb ka kb) then Ok false else
  let! ua := idx "uri" aExt in
  let! ub := idx "uri" bExt in
  Ok (json_eqb ua ub).

(** The member a [find] iterator points to; dereferencing [end()] is undefined. *)
Definition find_deref (k : string) (j : json) : outcome json :=
  match find k j with Some v => Ok v | None => Undef end.

Definition sameFeedback (aFb bFb : json) : outcome bool :=
  let! ta := idx "type" aFb in
  let! tb := idx "type" bFb in
  if negb (json_eqb ta tb) then Ok false else
  let! pa := idx "parameter" aFb in
  let! pb := idx "parameter" bFb in
  Ok (json_eqb pa pb).

Fixpoint reduceFeedbackLoop (fbA fbB : list json) : outcome (list json) :=
  match fbA with
  | [] => Ok []
  | aFb :: r =>
    let! it := ofind_if (sameFeedback aFb) fbB in
    let! rest := reduceFeedbackLoop r fbB in
    Ok (match it with Some bFb => bFb :: rest | None => rest end)
  end.
Definition reduceRtcpFeedback (codecA codecB : json) : outcome json :=
  let! fbA := find_deref "rtcpFeedback" codecA in
  let! fbB := find_deref "rtcpFeedback" codecB in
  let! l := reduceFeedbackLoop (elems fbA) (elems fbB) in
  Ok (JArray l).

Definition getH264PacketizationMode (codec : json) : outcome Z :=
  let! parameters := idx "parameters" codec in
  if missing is_number_integer (find "packetization-mode" parameters) then Ok 0%Z
  else get_uint8 (default JNull (find "packetization-mode" parameters)).

Definition getH264LevelAssimetryAllowed (codec : json) : outcome Z :=
  let! parameters := idx "parameters" codec in
  if missing is_number_integer (find "level-asymmetry-allowed" parameters) then Ok 0%Z
  else get_uint8 (default JNull (find "level-asymmetry-allowed" parameters)).

(** A number is printed as an [int32_t], anything else must be a string. *)
Definition number_or_string (v : json) : outcome string :=
  if is_number v then let! z := get_int32 v in Ok (pretty z) else get_string v.

Definition getH264ProfileLevelId (codec : json) : outcome string :=
  let! parameters := idx "parameters" codec in
  match find "profile-level-id" parameters with
  | None => Ok ""
  | Some v => number_or_string v
  end.

Definition getVP9ProfileId (codec : json) : outcome string :=
  let! parameters := idx "parameters" codec in
  match find "profile-id" parameters with
  | None => Ok "0"
  | Some v => number_or_string v
  end.

(** The three H.264 parameters handed to webrtc. *)
Definition h264Parameters (codec : json) (packetizationMode : Z) : outcome CodecParameterMap :=
  let! asym := getH264LevelAssimetryAllowed codec in
  let! plid := getH264ProfileLevelId codec in
  Ok (obj_insert "profile-level-id" plid
        (obj_insert "packetization-mode" (pretty packetizationMode)
          (obj_insert "level-asymmetry-allowed" (pretty asym) []))).

Definition lower_mime (codec : json) : outcome string :=
  let! v := find_deref "mimeType" codec in
  let! s := get_string v in
  Ok (lower s).

(** The H264 and VP9 parameters (the second half of [matchCodecs]); [aCodec]
    is the state: it is written when [strict] and [modify] are set. *)
Definition matchCodecParameters (aMimeType : string) (bCodec : json) (strict modify : bool) : M json bool :=
  aCodec <- get ;;
  if String.eqb aMimeType "video/h264" then
    aMode <- lift (getH264PacketizationMode aCodec) ;;
    bMode <- lift (getH264PacketizationMode bCodec) ;;
    if negb (Z.eqb aMode bMode) then ret false else
    if negb strict then ret true else
    aParameters <- lift (h264Parameters aCodec aMode) ;;
    bParameters <- lift (h264Parameters bCodec bMode) ;;
    if negb (IsSameH264Profile aParameters bParameters) then ret false else
    match GenerateProfileLevelIdForAnswer aParameters bParameters [] with
    | Ok newParameters =>
      when modify
        (match obj_lookup "profile-level-id" newParameters with
         | Some s => at_key "parameters" (set_key "profile-level-id" (JString s))
         | None => at_key "parameters" (erase_key "profile-level-id")
         end) ;;;
      ret true
    | Throw e => if is_runtime_error e then ret false else throw e
    | Undef => undef
    end
  else if String.eqb aMimeType "video/vp9" then
    if negb strict then ret true else
    aProfileId <- lift (getVP9ProfileId aCodec) ;;
    bProfileId <- lift (getVP9ProfileId bCodec) ;;
    ret (String.eqb aProfileId bProfileId)
  else ret true.

Definition matchCodecs (bCodec : json) (strict modify : bool) : M json bool :=
  aCodec <- get ;;
  aMimeType <- lift (lower_mime aCodec) ;;
  bMimeType <- lift (lower_mime bCodec) ;;
  if negb (String.eqb aMimeType bMimeType) then ret false else
  aClock <- get_key "clockRate" ;;
  bClock <- lift (idx "clockRate" bCodec) ;;
  if negb (json_eqb aClock bClock) then ret false else
  aCodec <- get ;;
  if negb (Bool.eqb (contains "channels" aCodec) (contains "channels" bCodec)) then ret false else
  differ <- (if contains "channels" aCodec then
               aCh <- get_key "channels" ;;
               bCh <- lift (idx "channels" bCodec) ;;
               ret (negb (json_eqb aCh bCh))
             else ret false) ;;
  if differ : bool then ret false else
  matchCodecParameters aMimeType bCodec strict modify.

(** ** Extended RTP capabilities *)

(** The codec lists of the local and the remote capabilities. *)
Abbreviation codec_lists := (list json * list json)%type.

(** Run on the element at an index of a list (a reference into a vector). *)
Definition at_nth {A} (i : nat) (m : M json A) : M (list json) A :=
  zoom (fun l => l !! i) (fun x l => <[i:=x]> l) m.
Definition on_local {A} (m : M (list json) A) : M codec_lists A := zoom (fun s => Some s.1) (fun l s => (l, s.2)) m.
Definition on_remote {A} (m : M (list json) A) : M codec_lists A := zoom (fun s => Some s.2) (fun r s => (s.1, r)) m.

(** [std::find_if] with a predicate that may modify the elements it visits. *)
Fixpoint find_if_ref (p : M json bool) (l : list json) : outcome (option nat) * list json :=
  match l with
  | [] => (Ok None, [])
  | x :: r =>
    match p x with
    | (Ok true, x') => (Ok (Some 0), x' :: r)
    | (Ok false, x') =>
      let '(o, r') := find_if_ref p r in
      (match o with Ok (Some n) => Ok (Some (S n)) | o => o end, x' :: r')
    | (Throw e, x') => (Throw e, x' :: r)
    | (Undef, x') => (Undef, x' :: r)
    end
  end.

(** The extended codec of a local and a remote codec, given by position. *)
Definition buildCodec (li i : nat) : M codec_lists (option json) :=
  mimeType <- on_local (at_nth li (get_key "mimeType")) ;;
  kind <- on_local (at_nth li (get_key "kind")) ;;
  clockRate <- on_local (at_nth li (get_key "clockRate")) ;;
  localPayloadType <- on_local (at_nth li (get_key "preferredPayloadType")) ;;
  remotePayloadType <- on_remote (at_nth i (get_key "preferredPayloadType")) ;;
  localParameters <- on_local (at_nth li (get_key "parameters")) ;;
  remoteParameters <- on_remote (at_nth i (get_key "parameters")) ;;
  localCodec <- on_local (at_nth li get) ;;
  remoteCodec <- on_remote (at_nth i get) ;;
  rtcpFeedback <- lift (reduceRtcpFeedback localCodec remoteCodec) ;;
  let extendedCodec := mk_obj
    [ ("mimeType", mimeType); ("kind", kind); ("clockRate", clockRate);
      ("localPayloadType", localPayloadType); ("localRtxPayloadType", JNull);
      ("remotePayloadType", remotePayloadType); ("remoteRtxPayloadType", JNull);
      ("localParameters", localParameters); ("remoteParameters", remoteParameters);
      ("rtcpFeedback", rtcpFeedback) ] in
  if contains "channels" localCodec then
    channels <- on_local (at_nth li (get_key "channels")) ;;
    let '(r, c) := set_key "channels" channels extendedCodec in
    _ <- lift r ;; ret (Some c)
  else ret (Some extendedCodec).

(** The body of the loop over the remote codecs: the extended codec, if any. *)
Definition extendCodec (i : nat) : M codec_lists (option json) :=
  remoteCodec <- on_remote (at_nth i get) ;;
  rtx <- lift (isRtxCodec remoteCodec) ;;
  if rtx : bool then ret None else
  it <- on_local (find_if_ref (matchCodecs remoteCodec true true)) ;;
  match it with
  | None => ret None
  | Some li => buildCodec li i
  end.

Fixpoint extendCodecs (idxs : list nat) : M codec_lists (list json) :=
  match idxs with
  | [] => ret []
  | i :: r =>
    c <- extendCodec i ;;
    cs <- extendCodecs r ;;
    ret (match c with Some c => c :: cs | None => cs end)
  end.

(** [isRtxCodec(codec) && codec["parameters"]["apt"] == payloadType] *)
Definition rtxFor (payloadType : json) (codec : json) : outcome bool :=
  let! rtx := isRtxCodec codec in
  if rtx : bool then
    let! parameters := idx "parameters" codec in
    let! apt := idx "apt" parameters in
    Ok (json_eqb apt payloadType)
  else Ok false.

(** The body of the loop that matches RTX codecs. *)
Definition extendRtx (extendedCodec : json) : M codec_lists json :=
  s <- get ;;
  localPayloadType <- lift (idx "localPayloadType" extendedCodec) ;;
  localIt <- lift (ofind_idx (rtxFor localPayloadType) s.1 0) ;;
  match localIt with
  | None => ret extendedCodec
  | Some li =>
    remotePayloadType <- lift (idx "remotePayloadType" extendedCodec) ;;
    remoteIt <- lift (ofind_idx (rtxFor remotePayloadType) s.2 0) ;;
    match remoteIt with
    | None => ret extendedCodec
    | Some ri =>
      localRtx <- on_local (at_nth li (get_key "preferredPayloadType")) ;;
      remoteRtx <- on_remote (at_nth ri (get_key "preferredPayloadType")) ;;
      let '(r, c) := (set_key "localRtxPayloadType" localRtx ;;;
                      set_key "remoteRtxPayloadType" remoteRtx) extendedCodec in
      _ <- lift r ;; ret c
    end
  end.

Fixpoint extendRtxs (codecs : list json) : M codec_lists (list json) :=
  match codecs with
  | [] => ret []
  | c :: r => c' <- extendRtx c ;; r' <- extendRtxs r ;; ret (c' :: r')
  end.

(** Read a member through a non-const reference, a null if it is missing. *)
Definition ref_get (k : string) (j : json) : outcome json := (get_key k j).1.

Definition extendedDirection (remoteExtDirection : string) (ext : json) : json :=
  let set d := (set_key "direction" (JString d) ext).2 in
  if String.eqb remoteExtDirection "sendrecv" then set "sendrecv"
  else if String.eqb remoteExtDirection "recvonly" then set "sendonly"
  else if String.eqb remoteExtDirection "sendonly" then set "recvonly"
  else if String.eqb remoteExtDirection "inactive" then set "inactive"
  else ext.

Definition extendExtension (localExts : list json) (remoteExt : json) : outcome (option json) :=
  let! it := ofind_if (fun localExt => matchHeaderExtensions localExt remoteExt) localExts in
  match it with
  | None => Ok None
  | Some matchingLocalExt =>
    let! kind := ref_get "kind" remoteExt in
    let! uri := ref_get "uri" remoteExt in
    let! sendId := ref_get "preferredId" matchingLocalExt in
    let! recvId := ref_get "preferredId" remoteExt in
    let! encrypt := ref_get "preferredEncrypt" matchingLocalExt in
    let! d := ref_get "direction" remoteExt in
    let! remoteExtDirection := get_string d in
    Ok (Some (extendedDirection remoteExtDirection (mk_obj
      [ ("kind", kind); ("uri", uri); ("sendId", sendId); ("recvId", recvId);
        ("encrypt", encrypt) ])))
  end.

Fixpoint extendExtensions (localExts remoteExts : list json) : outcome (list json) :=
  match remoteExts with
  | [] => Ok []
  | e :: r =>
    let! o := extendExtension localExts e in
    let! rest := extendExtensions localExts r in
    Ok (match o with Some x => x :: rest | None => rest end)
  end.

(** The array at a member (after validation). *)
Definition array_at (k : string) (j : json) : option (list json) :=
  match find k j with Some (JArray l) => Some l | _ => None end.
Definition set_array (k : string) (l : list json) (j : json) : json :=
  match j with JObject o => JObject (obj_insert k (JArray l) o) | _ => j end.

(** Both arguments are references: the state is [(localCaps, remoteCaps)]. *)
Definition on_codecs {A} (m : M codec_lists A) : M (json * json) A :=
  zoom (fun s => match array_at "codecs" s.1, array_at "codecs" s.2 with
                 | Some l, Some r => Some (l, r) | _, _ => None end)
       (fun lr s => (set_array "codecs" lr.1 s.1, set_array "codecs" lr.2 s.2)) m.

Definition getExtendedRtpCapabilities : M (json * json) json :=
  zoom (fun s => Some s.1) (fun l s => (l, s.2)) validateRtpCapabilities ;;;
  zoom (fun s => Some s.2) (fun r s => (s.1, r)) validateRtpCapabilities ;;;
  codecs <- on_codecs
    (s <- get ;;
     cs <- extendCodecs (seq 0 (length s.2)) ;;
     extendRtxs cs) ;;
  s <- get ;;
  match array_at "headerExtensions" s.1, array_at "headerExtensions" s.2 with
  | Some localExts, Some remoteExts =>
    exts <- lift (extendExtensions localExts remoteExts) ;;
    ret (mk_obj [ ("codecs", JArray codecs); ("headerExtensions", JArray exts) ])
  | _, _ => undef
  end.

(** ** Receiving capabilities *)

Definition add_channels (from to : json) : outcome json :=
  if contains "channels" from then
    let! ch := idx "channels" from in Ok (set_key "channels" ch to).2
  else Ok to.

(** The codecs one extended codec contributes: the media codec and its RTX. *)
Definition recvCodecs (extendedCodec : json) : outcome (list json) :=
  let! mimeType := idx "mimeType" extendedCodec in
  let! kind := idx "kind" extendedCodec in
  let! remotePayloadType := idx "remotePayloadType" extendedCodec in
  let! clockRate := idx "clockRate" extendedCodec in
  let! localParameters := idx "localParameters" extendedCodec in
  let! rtcpFeedback := idx "rtcpFeedback" extendedCodec in
  let! codec := add_channels extendedCodec (mk_obj
    [ ("mimeType", mimeType); ("kind", kind); ("preferredPayloadType", remotePayloadType);
      ("clockRate", clockRate); ("parameters", localParameters); ("rtcpFeedback", rtcpFeedback) ]) in
  let! remoteRtx := idx "remoteRtxPayloadType" extendedCodec in
  if json_eqb remoteRtx JNull then Ok [codec] else
  let! k := get_string kind in
  let! apt := get_uint8 remotePayloadType in
  Ok [ codec; mk_obj
    [ ("mimeType", JString (k +:+ "/rtx")); ("kind", kind); ("preferredPayloadType", remoteRtx);
      ("clockRate", clockRate); ("parameters", mk_obj [("apt", JUint apt)]);
      ("rtcpFeedback", JArray []) ] ].

Definition recvExtension (ext : json) : outcome (list json) :=
  let! d := idx "direction" ext in
  let! direction := get_string d in
  if negb (String.eqb direction "sendrecv") && negb (String.eqb direction "recvonly") then Ok [] else
  let! kind := idx "kind" ext in
  let! uri := idx "uri" ext in
  let! recvId := idx "recvId" ext in
  let! encrypt := idx "encrypt" ext in
  Ok [ mk_obj [ ("kind", kind); ("uri", uri); ("preferredId", recvId);
                ("preferredEncrypt", encrypt); ("direction", d) ] ].

Definition getRecvRtpCapabilities (extendedRtpCapabilities : json) : outcome json :=
  let! codecs := idx "codecs" extendedRtpCapabilities in
  let! cs := omapM recvCodecs (elems codecs) in
  let! exts := idx "headerExtensions" extendedRtpCapabilities in
  let! es := omapM recvExtension (elems exts) in
  Ok (mk_obj [ ("codecs", JArray (concat cs)); ("headerExtensions", JArray (concat es)) ]).

(** ** Sending parameters *)

(** The media codec and its RTX for an extended codec; [parameters] names the
    member the codec parameters are taken from. *)
Definition sendCodecs (parameters : string) (extendedCodec : json) : outcome (list json) :=
  let! mimeType := idx "mimeType" extendedCodec in
  let! localPayloadType := idx "localPayloadType" extendedCodec in
  let! clockRate := idx "clockRate" extendedCodec in
  let! params := idx parameters extendedCodec in
  let! rtcpFeedback := idx "rtcpFeedback" extendedCodec in
  let! codec := add_channels extendedCodec (mk_obj
    [ ("mimeType", mimeType); ("payloadType", localPayloadType); ("clockRate", clockRate);
      ("parameters", params); ("rtcpFeedback", rtcpFeedback) ]) in
  let! localRtx := idx "localRtxPayloadType" extendedCodec in
  if json_eqb localRtx JNull then Ok [codec] else
  let! kind := idx "kind" extendedCodec in
  let! k := get_string kind in
  let! apt := get_uint8 localPayloadType in
  Ok [ codec; mk_obj
    [ ("mimeType", JString (k +:+ "/rtx")); ("payloadType", localRtx); ("clockRate", clockRate);
      ("parameters", mk_obj [("apt", JUint apt)]); ("rtcpFeedback", JArray []) ] ].

(** The loop over the codecs stops at the first one of the given kind. *)
Fixpoint sendCodecLoop (parameters kind : string) (codecs : list json) : outcome (list json) :=
  match codecs with
  | [] => Ok []
  | c :: r =>
    let! v := idx "kind" c in
    let! k := get_string v in
    if negb (String.eqb kind k) then sendCodecLoop parameters kind r else sendCodecs parameters c
  end.

Definition sendExtension (kind : string) (ext : json) : outcome (list json) :=
  let! v := idx "kind" ext in
  let! k := get_string v in
  if negb (String.eqb kind k) then Ok [] else
  let! d := idx "direction" ext in
  let! direction := get_string d in
  if negb (String.eqb direction "sendrecv") && negb (String.eqb direction "sendonly") then Ok [] else
  let! uri := idx "uri" ext in
  let! sendId := idx "sendId" ext in
  let! encrypt := idx "encrypt" ext in
  Ok [ mk_obj [ ("uri", uri); ("id", sendId); ("encrypt", encrypt); ("parameters", JObject []) ] ].

Definition rtpParameters (mid : json) (codecs headerExtensions encodings : list json) (rtcp : json) : json :=
  mk_obj [ ("mid", mid); ("codecs", JArray codecs); ("headerExtensions", JArray headerExtensions);
           ("encodings", JArray encodings); ("rtcp", rtcp) ].

(** Codecs and header extensions of the sending parameters. *)
Definition sendingParts (parameters kind : string) (extendedRtpCapabilities : json)
    : outcome (list json * list json) :=
  let! codecs := idx "codecs" extendedRtpCapabilities in
  let! cs := sendCodecLoop parameters kind (elems codecs) in
  let! exts := idx "headerExtensions" extendedRtpCapabilities in
  let! es := omapM (sendExtension kind) (elems exts) in
  Ok (cs, concat es).

Definition getSendingRtpParameters (kind : string) (extendedRtpCapabilities : json) : outcome json :=
  let! p := sendingParts "localParameters" kind extendedRtpCapabilities in
  Ok (rtpParameters JNull p.1 p.2 [] (JObject [])).

Definition transportCcUri : string :=
  "http://www.ietf.org/id/draft-holmer-rmcat-transport-wide-cc-extensions-01".
Definition absSendTimeUri : string :=
  "http://www.webrtc.org/experiments/rtp-hdrext/abs-send-time".

Definition extHasUri (uri : string) (ext : json) : outcome bool :=
  let! v := ref_get "uri" ext in
  let! s := get_string v in
  Ok (String.eqb s uri).

(** Erase the feedback entries whose type is in [types]. *)
Fixpoint eraseFeedback (types : list string) (fbs : list json) : outcome (list json) :=
  match fbs with
  | [] => Ok []
  | fb :: r =>
    let! v := ref_get "type" fb in
    let! type := get_string v in
    let! rest := eraseFeedback types r in
    Ok (if existsb (String.eqb type) types then rest else fb :: rest)
  end.

(** [rtcpFeedback] is an array in every codec built above. *)
Definition eraseCodecFeedback (types : list string) (codec : json) : outcome json :=
  let! fb := ref_get "rtcpFeedback" codec in
  match fb with
  | JArray l => let! l' := eraseFeedback types l in Ok (set_key "rtcpFeedback" (JArray l') codec).2
  | _ => Undef
  end.

Definition getSendingRemoteRtpParameters (kind : string) (extendedRtpCapabilities : json) : outcome json :=
  let! p := sendingParts "remoteParameters" kind extendedRtpCapabilities in
  let '(codecs, exts) := p in
  let! cc := ofind_if (extHasUri transportCcUri) exts in
  let! types :=
    match cc with
    | Some _ => Ok ["goog-remb"]
    | None =>
      let! abs := ofind_if (extHasUri absSendTimeUri) exts in
      Ok (match abs with Some _ => ["transport-cc"] | None => ["transport-cc"; "goog-remb"] end)
    end in
  let! codecs' := omapM (eraseCodecFeedback types) codecs in
  Ok (rtpParameters JNull codecs' exts [] (JObject [])).

(** ** The RTP probator *)

Definition isProbatorExt (ext : json) : outcome bool :=
  let! uri := ref_get "uri" ext in
  Ok (json_eqb uri (JString absSendTimeUri) || json_eqb uri (JString transportCcUri)).

Fixpoint ofilter {A} (p : A -> outcome bool) (l : list A) : outcome (list A) :=
  match l with
  | [] => Ok []
  | x :: r => let! b := p x in let! r' := ofilter p r in Ok (if b : bool then x :: r' else r')
  end.

(** The argument is copied, so the caller's value does not change. *)
Definition generateProbatorRtpParameters (videoRtpParameters : json) : outcome json :=
  let '(r, validatedRtpParameters) := validateRtpParameters videoRtpParameters in
  let! _ := r in
  let! codecs := ref_get "codecs" validatedRtpParameters in
  let! codec := (at_idx 0 get codecs).1 in
  let! exts := ref_get "headerExtensions" validatedRtpParameters in
  let! es := ofilter isProbatorExt (elems exts) in
  Ok (rtpParameters (JString ProbatorMid) [codec] es [mk_obj [("ssrc", JUint ProbatorSsrc)]]
        (mk_obj [("cname", JString "probator")])).

(** ** Whether media can be sent or received *)

Definition canSend (kind : string) (extendedRtpCapabilities : json) : outcome bool :=
  let! codecs := idx "codecs" extendedRtpCapabilities in
  let! it := ofind_if (fun codec => let! v := idx "kind" codec in
                                    let! k := get_string v in Ok (String.eqb kind k)) (elems codecs) in
  Ok (bool_decide (is_Some it)).

(** The RTP parameters are validated in place. *)
Definition canReceive (extendedRtpCapabilities : json) : M json bool :=
  validateRtpParameters ;;;
  codecs <- get_key "codecs" ;;
  if json_empty codecs then ret false else
  firstMediaCodec <- lift (at_idx 0 get codecs).1 ;;
  extCodecs <- lift (idx "codecs" extendedRtpCapabilities) ;;
  payloadType <- lift (ref_get "payloadType" firstMediaCodec) ;;
  it <- lift (ofind_if (fun codec => let! v := idx "remotePayloadType" codec in
                                     Ok (json_eqb v payloadType)) (elems extCodecs)) ;;
  ret (bool_decide (is_Some it)).
