(* ===== verification/OrtcMatch.v ===== *)
(** * Codec matching

    The format of a codec is what [matchCodecs] compares.  Two codecs match
    exactly when both have the same format, and adjusting the local
    profile-level-id to the answer does not change the format. *)

From stdpp Require Import base list strings pretty.
From Stdlib Require Import ZArith Lia.
From S2P Require Import Prelude Json Text OrtcValidate OrtcValidateSpec H264 OrtcCaps.

(** ** Formats *)

(** The 64-bit value [operator==] compares an integer by. *)
Definition int_value (v : json) : Z :=
  match v with JInt z => z | JUint z => wrap_s 64 z | _ => 0%Z end.

Inductive codec_profile :=
| NoProfile
| H264Profile (packetization_mode : Z) (p : option Profile)
| VP9Profile (id : string).

Record media_format := MediaFormat {
  mf_mime : string;
  mf_clock : option Z;
  mf_channels : option Z;
  mf_profile : codec_profile;
}.

Definition ok {A} (o : outcome A) : option A := match o with Ok a => Some a | _ => None end.

Definition profile_format (strict : bool) (mime : string) (c : json) : option codec_profile :=
  if String.eqb mime "video/h264" then
    mode ← ok (getH264PacketizationMode c);
    if negb strict then Some (H264Profile mode None) else
    plid ← ok (getH264ProfileLevelId c);
    id ← ParseProfileLevelId plid;
    Some (H264Profile mode (Some (profile id)))
  else if String.eqb mime "video/vp9" then
    if negb strict then Some NoProfile else VP9Profile <$> ok (getVP9ProfileId c)
  else Some NoProfile.

Definition codec_mime (c : json) : string := default "" (ok (lower_mime c)).

Definition format (strict : bool) (c : json) : option media_format :=
  MediaFormat (codec_mime c) (int_value <$> find "clockRate" c) (int_value <$> find "channels" c)
    <$> profile_format strict (codec_mime c) c.

(** The two parameters that are read as a number or a string are not floating
    point numbers (a conversion that may be undefined). *)
Definition integral_ids (c : json) : bool :=
  key_opt "parameters" (fun p => key_opt "profile-level-id" (fun v => negb (is_number_float v)) p &&
                                 key_opt "profile-id" (fun v => negb (is_number_float v)) p) c.

(** One of the two is a null, which [get<std::string>()] rejects. *)
Definition null_id (c : json) : bool :=
  existsb (fun k => match find "parameters" c with
                    | Some p => negb (missing is_null (find k p)) | None => false end)
    ["profile-level-id"; "profile-id"].

(** A codec capability as it comes out of the validators, whatever its payload
    type ([operator[]] may have inserted a null one). *)
Definition codec_shape (codec : json) : bool :=
  match mime_kind codec with
  | Some kind =>
    key_ok "kind" (fun v => match v with JString k => String.eqb k kind | _ => false end) codec &&
    normalCodecCommon kind codec
  | None => false
  end.
Definition good_codec (c : json) : bool := codec_shape c && wf_json c && integral_ids c.

(** ** Views *)


Lemma get_key_present k o v :
  obj_lookup k o = Some v -> get_key k (JObject o) = (Ok v, JObject o).
Proof. intros H. unfold get_key, at_key, get. rewrite H. cbn [from_option id]. by rewrite obj_insert_id. Qed.

Lemma ill_typed_false p it v : ill_typed p it = false -> it = Some v -> p v = true.
Proof. intros H ->. by apply negb_false_iff in H. Qed.

Record codec_view (c : json) (o p : list (string * json)) (m kind rest : string) (clock : json)
    (fbs : list json) : Prop := {
  cv_obj : c = JObject o;
  cv_mime : obj_lookup "mimeType" o = Some (JString m);
  cv_match : match_mime m = Some (kind, rest);
  cv_kind : obj_lookup "kind" o = Some (JString kind);
  cv_clock : obj_lookup "clockRate" o = Some clock;
  cv_clock_int : is_number_integer clock = true;
  cv_channels : ill_typed is_number_integer (obj_lookup "channels" o) = false;
  cv_audio : String.eqb kind "audio" = present (obj_lookup "channels" o);
  cv_params : obj_lookup "parameters" o = Some (JObject p);
  cv_params_normal : forallb normalCodecParameter p = true;
  cv_feedback : obj_lookup "rtcpFeedback" o = Some (JArray fbs);
  cv_feedback_normal : forallb normalRtcpFeedback fbs = true;
}.

Lemma normal_codec_shape c :
  normalRtpCodecCapability c = codec_shape c && key_opt "preferredPayloadType" is_number_integer c.
Proof.
  unfold normalRtpCodecCapability, codec_shape. destruct (mime_kind c); [|done].
  by rewrite <- !andb_assoc, (andb_comm (normalCodecCommon _ _)).
Qed.

Lemma normal_codec_view c :
  codec_shape c = true -> exists o p m kind rest clock fbs, codec_view c o p m kind rest clock fbs.
Proof.
  destruct c as [| | | | | | |o]; try done. unfold codec_shape, mime_kind. cbn [find].
  destruct (obj_lookup "mimeType" o) as [[| | | | |m| |]|] eqn:Em; try done.
  destruct (match_mime m) as [[kind rest]|] eqn:Hm; cbn [fmap option_fmap option_map fst]; [|done].
  unfold normalCodecCommon. intros H. split_normal.
  repeat match goal with H : missing _ _ = false |- _ => apply missing_false in H as (? & ? & ?) end.
  destruct x2 as [| | | | |k| |]; try done. destruct x0 as [| | | | | | |p]; try done.
  destruct x as [| | | | | |fbs|]; try done. exists o, p, m, kind, rest, x1, fbs.
  assert (k = kind) as -> by (by apply String.eqb_eq).
  split; try done; destruct (String.eqb kind "audio") eqn:Ek; split_normal; from_missing.
  - done.
  - by destruct (obj_lookup "channels" o).
  - by destruct (obj_lookup "channels" o).
  - by destruct (obj_lookup "channels" o).
Qed.

(** ** Values read by the matching *)

Lemma wrap_s_inj x y :
  (0 <= x < 2 ^ 64)%Z -> (0 <= y < 2 ^ 64)%Z -> wrap_s 64 x = wrap_s 64 y -> x = y.
Proof.
  intros Hx Hy. unfold wrap_s. rewrite !Z.mod_small by done.
  destruct (Z.ltb_spec x (2 ^ (64 - 1))), (Z.ltb_spec y (2 ^ (64 - 1))); lia.
Qed.

Lemma int_value_eqb v w :
  is_number_integer v = true -> is_number_integer w = true -> wf_json v = true -> wf_json w = true ->
  json_eqb v w = Z.eqb (int_value v) (int_value w).
Proof.
  destruct v, w; try done; cbn; intros _ _ Hv Hw.
  apply andb_prop in Hv as [?%Z.leb_le ?%Z.ltb_lt]. apply andb_prop in Hw as [?%Z.leb_le ?%Z.ltb_lt].
  destruct (Z.eqb_spec z z0) as [->|Hne]; [by rewrite Z.eqb_refl|].
  symmetry. apply Z.eqb_neq. intros Heq. apply Hne. by apply wrap_s_inj.
Qed.

Lemma obj_lookup_forall_kv {V} (P : string * V -> bool) k (o : list (string * V)) v :
  forallb P o = true -> obj_lookup k o = Some v -> P (k, v) = true.
Proof.
  induction o as [|[k0 v0] o IH]; cbn; [done|]. intros [H1 H2]%andb_prop.
  destruct (String.eqb_spec k k0) as [->|]; [by intros [= <-]|]. by apply IH.
Qed.

Lemma obj_insert_forall_kv {V} (P : string * V -> bool) k v (o : list (string * V)) :
  P (k, v) = true -> forallb P o = true -> forallb P (obj_insert k v o) = true.
Proof.
  intros Hv. unfold obj_insert. destruct (obj_lookup k o) as [w|].
  - induction o as [|[k0 v0] o IH]; cbn; [done|]. intros [H1 H2]%andb_prop.
    destruct (String.eqb_spec k k0) as [->|]; cbn; [by rewrite Hv|]. by rewrite H1, IH.
  - induction o as [|[k0 v0] o IH]; cbn; [by rewrite Hv|]. intros [H1 H2]%andb_prop.
    destruct (str_ltb k k0); cbn; [by rewrite Hv, H1|]. by rewrite H1, IH.
Qed.

(** A codec parameter that is not a float prints, or it is a null. *)
Lemma number_or_string_cases v :
  is_string v || is_number v || is_null v = true -> is_number_float v = false ->
  (exists s, number_or_string v = Ok s) \/ v = JNull.
Proof. destruct v; try done; cbn; eauto. Qed.

Lemma get_uint8_range v z : is_number_integer v = true -> get_uint8 v = Ok z -> (0 <= z < 256)%Z.
Proof. destruct v; try done; intros _ [= <-]; apply Z.mod_pos_bound; lia. Qed.

(** Member [k] of the parameters as an octet: 0 unless it is an integer. *)
Lemma uint8_parameter it :
  exists z, (if missing is_number_integer it then Ok 0%Z else get_uint8 (default JNull it)) = Ok z /\
            (0 <= z < 256)%Z.
Proof.
  destruct (missing is_number_integer it) eqn:E; [exists 0%Z; split; [done|lia]|].
  apply missing_false in E as (v & -> & Hv). cbn [from_option id]. destruct v; try done; eexists.
  - split; [done|]. apply Z.mod_pos_bound. lia.
  - split; [done|]. apply Z.mod_pos_bound. lia.
Qed.

Section views.
Context {c o p m kind rest clock fbs} (V : codec_view c o p m kind rest clock fbs).

Lemma view_lower_mime : lower_mime c = Ok (lower m).
Proof. unfold lower_mime, find_deref. rewrite (cv_obj _ _ _ _ _ _ _ _ V). cbn [find]. by rewrite (cv_mime _ _ _ _ _ _ _ _ V). Qed.

Lemma view_codec_mime : codec_mime c = lower m.
Proof. unfold codec_mime. by rewrite view_lower_mime. Qed.

Lemma view_params : idx "parameters" c = Ok (JObject p).
Proof. rewrite (cv_obj _ _ _ _ _ _ _ _ V). cbn [idx]. by rewrite (cv_params _ _ _ _ _ _ _ _ V). Qed.

Lemma view_mode : exists z, getH264PacketizationMode c = Ok z /\ (0 <= z < 256)%Z.
Proof. unfold getH264PacketizationMode. rewrite view_params. apply uint8_parameter. Qed.

Lemma view_asym : exists z, getH264LevelAssimetryAllowed c = Ok z /\ (0 <= z < 256)%Z.
Proof. unfold getH264LevelAssimetryAllowed. rewrite view_params. apply uint8_parameter. Qed.

Lemma view_id k : key_opt k (fun v => negb (is_number_float v)) (JObject p) = true ->
  match obj_lookup k p with
  | None => True
  | Some v => (exists s, number_or_string v = Ok s) \/ v = JNull
  end.
Proof.
  unfold key_opt. cbn [find]. intros Hf%negb_true_iff. destruct (obj_lookup k p) as [v|] eqn:E; [|done].
  pose proof (obj_lookup_forall_kv _ _ _ _ (cv_params_normal _ _ _ _ _ _ _ _ V) E) as Hn.
  apply andb_prop in Hn as [Hn _]. apply number_or_string_cases; [done|].
  cbn in Hf. by rewrite negb_involutive in Hf.
Qed.

Hypothesis Hids : integral_ids c = true.

Lemma view_ids :
  key_opt "profile-level-id" (fun v => negb (is_number_float v)) (JObject p) = true /\
  key_opt "profile-id" (fun v => negb (is_number_float v)) (JObject p) = true.
Proof.
  revert Hids. rewrite (cv_obj _ _ _ _ _ _ _ _ V). unfold integral_ids, key_opt at 1. cbn [find].
  rewrite (cv_params _ _ _ _ _ _ _ _ V). cbn [ill_typed]. rewrite negb_involutive. apply andb_prop.
Qed.

Lemma view_null k : obj_lookup k p = Some JNull -> In k ["profile-level-id"; "profile-id"] -> null_id c = true.
Proof.
  intros Hk Hin. unfold null_id. apply existsb_exists. exists k. split; [done|].
  rewrite (cv_obj _ _ _ _ _ _ _ _ V). cbn [find]. rewrite (cv_params _ _ _ _ _ _ _ _ V). cbn [find].
  by rewrite Hk.
Qed.

Lemma view_plid :
  (exists s, getH264ProfileLevelId c = Ok s) \/
  getH264ProfileLevelId c = Throw (JsonTypeError 302) /\ null_id c = true.
Proof.
  unfold getH264ProfileLevelId. rewrite view_params. cbn [obind find].
  pose proof (view_id "profile-level-id" (proj1 view_ids)) as H.
  destruct (obj_lookup "profile-level-id" p) eqn:E; [|by eauto]. destruct H as [H| ->]; [by left|].
  right. split; [done|]. apply (view_null _ E). cbn. auto.
Qed.

Lemma view_vp9 :
  (exists s, getVP9ProfileId c = Ok s) \/
  getVP9ProfileId c = Throw (JsonTypeError 302) /\ null_id c = true.
Proof.
  unfold getVP9ProfileId. rewrite view_params. cbn [obind find].
  pose proof (view_id "profile-id" (proj2 view_ids)) as H.
  destruct (obj_lookup "profile-id" p) eqn:E; [|by eauto]. destruct H as [H| ->]; [by left|].
  right. split; [done|]. apply (view_null _ E). cbn. auto.
Qed.
End views.

(** ** The H.264 and VP9 half of the matching *)

(** The codec with its profile-level-id replaced. *)
Definition set_plid (s : string) (c : json) : json :=
  (at_key "parameters" (set_key "profile-level-id" (JString s)) c).2.

Definition asymmetric (c : json) : bool :=
  match getH264LevelAssimetryAllowed c with Ok z => Z.eqb z 1 | _ => false end.

(** What a successful match does to [aCodec]. *)
Definition negotiated (strict modify : bool) (a b a' : json) : Prop :=
  if strict && modify && String.eqb (codec_mime a) "video/h264" then
    exists sa sb ida idb s,
      getH264ProfileLevelId a = Ok sa /\ getH264ProfileLevelId b = Ok sb /\
      ParseProfileLevelId sa = Some ida /\ ParseProfileLevelId sb = Some idb /\
      profile ida = profile idb /\ a' = set_plid s a /\
      ParseProfileLevelId s = Some {| profile := profile ida;
        level := answer_level (asymmetric a && asymmetric b) (level ida) (level idb) |}
  else a' = a.

(** The result of matching two codecs whose formats are [fa] and [fb]. *)
Definition match_result {F} (strict modify : bool) (a b : json) (fa fb : option F)
    (r : outcome bool * json) : Prop :=
  match r with
  | (Ok true, a') => (exists f, fa = Some f /\ fb = Some f) /\ negotiated strict modify a b a'
  | (Ok false, a') => a' = a /\ ~ (exists f, fa = Some f /\ fb = Some f)
  | (Throw e, a') => a' = a /\ e = JsonTypeError 302 /\ (fa = None \/ fb = None) /\
                     null_id a || null_id b = true
  | (Undef, _) => False
  end.

Lemma asymmetry_printed z : (0 <= z < 256)%Z -> String.eqb (c_str (pretty z)) "1" = Z.eqb z 1.
Proof.
  intros Hz. apply eqb_prop. revert z Hz. apply (forallb_bytes (fun z => _)). vm_compute. reflexivity.
Qed.

Lemma h264Parameters_ok c z plid mode :
  getH264LevelAssimetryAllowed c = Ok z -> getH264ProfileLevelId c = Ok plid -> (0 <= z < 256)%Z ->
  exists ps, h264Parameters c mode = Ok ps /\ obj_lookup "profile-level-id" ps = Some plid /\
             IsLevelAsymmetryAllowed ps = asymmetric c.
Proof.
  intros Hz Hs Hr. unfold h264Parameters. rewrite Hz, Hs. eexists. split_and!; [done| |].
  - rewrite obj_lookup_insert. by eqb_literals.
  - unfold IsLevelAsymmetryAllowed, asymmetric. obj_simpl. rewrite Hz. by apply asymmetry_printed.
Qed.

Lemma h264Parameters_throw c z e mode :
  getH264LevelAssimetryAllowed c = Ok z -> getH264ProfileLevelId c = Throw e ->
  h264Parameters c mode = Throw e.
Proof. intros Hz Hs. unfold h264Parameters. by rewrite Hz, Hs. Qed.

Lemma same_profile_iff psa psb sa sb :
  obj_lookup "profile-level-id" psa = Some sa -> obj_lookup "profile-level-id" psb = Some sb ->
  IsSameH264Profile psa psb = true <->
  exists ida idb, ParseProfileLevelId sa = Some ida /\ ParseProfileLevelId sb = Some idb /\
                  profile ida = profile idb.
Proof.
  intros Ha Hb. unfold IsSameH264Profile, ParseSdpProfileLevelId. rewrite Ha, Hb.
  destruct (ParseProfileLevelId sa) as [ida|], (ParseProfileLevelId sb) as [idb|];
    rewrite ?bool_decide_eq_true; (split; [|intros (? & ? & ? & ? & ?); simplify_eq; done]);
    [intros H; eauto 6|done..].
Qed.

Ltac run := unfold matchCodecParameters, bind, get, lift, ret, throw, undef.

Section match_parameters.
Context {a oa pa ma ka ra ca fa} (Va : codec_view a oa pa ma ka ra ca fa).
Context {b ob pb mb kb rb cb fb} (Vb : codec_view b ob pb mb kb rb cb fb).
Context (Ia : integral_ids a = true) (Ib : integral_ids b = true).
Context (strict modify : bool).

Lemma match_h264 : lower ma = "video/h264" ->
  match_result strict modify a b (profile_format strict "video/h264" a) (profile_format strict "video/h264" b)
    (matchCodecParameters "video/h264" b strict modify a).
Proof.
  intros Hma. run. unfold profile_format. cbn [String.eqb Ascii.eqb Bool.eqb].
  destruct (view_mode Va) as (za & Hza & _), (view_mode Vb) as (zb & Hzb & _).
  rewrite Hza, Hzb. cbn [ok mbind option_bind].
  destruct (Z.eqb_spec za zb) as [<-|Hne]; cbn [negb].
  2:{ split; [done|]. intros (f & H1 & H2). destruct strict; cbn in *; [|congruence].
      destruct (ok _) as [sa|] eqn:?; cbn in *; [|done]. destruct (ok (getH264ProfileLevelId b)) as [sb|]; cbn in *; [|done].
      destruct (ParseProfileLevelId sa); cbn in *; [|done]. destruct (ParseProfileLevelId sb); cbn in *; congruence. }
  destruct strict; cbn [negb andb]; [|by split; [eauto|]].
  destruct (view_asym Va) as (ya & Hya & Rya), (view_asym Vb) as (yb & Hyb & Ryb).
  destruct (view_plid Va Ia) as [[sa Hsa]|[Hsa Hna]];
    [|rewrite (h264Parameters_throw a ya _ za Hya Hsa), Hsa; cbn -[null_id]; rewrite Hna; by auto].
  destruct (h264Parameters_ok a ya sa za Hya Hsa Rya) as (psa & Hpsa & Hla & Hala). rewrite Hpsa, Hsa.
  destruct (view_plid Vb Ib) as [[sb Hsb]|[Hsb Hnb]];
    [|rewrite (h264Parameters_throw b yb _ za Hyb Hsb), Hsb; cbn -[null_id]; rewrite Hnb, orb_true_r; by auto].
  destruct (h264Parameters_ok b yb sb za Hyb Hsb Ryb) as (psb & Hpsb & Hlb & Halb). rewrite Hpsb, Hsb.
  cbn [ok mbind option_bind].
  pose proof (same_profile_iff psa psb sa sb Hla Hlb) as Hsame.
  destruct (IsSameH264Profile psa psb); cbn [negb].
  2:{ split; [done|]. intros (f & H1 & H2). destruct (ParseProfileLevelId sa), (ParseProfileLevelId sb); cbn in *; try done.
      enough (false = true) by done. apply Hsame. do 2 eexists. split_and!; [done..|congruence]. }
  destruct (proj1 Hsame eq_refl) as (ida & idb & Hida & Hidb & Hp).
  destruct (GenerateProfileLevelId_ok psa psb sa sb ida idb [] Hla Hlb Hida Hidb Hp) as (s & Hg & Hs).
  rewrite Hg, obj_lookup_insert, String.eqb_refl, Hida, Hidb. cbn [mbind option_bind].
  rewrite Hala, Halb in Hs. rewrite <- Hp.
  assert ((when modify (at_key "parameters" (set_key "profile-level-id" (JString s))) a) =
          (Ok tt, if modify then set_plid s a else a)) as ->.
  { destruct modify; [|done]. unfold set_plid. rewrite (cv_obj _ _ _ _ _ _ _ _ Va). unfold when, at_key.
    by rewrite (cv_params _ _ _ _ _ _ _ _ Va). }
  split; [by eauto|]. unfold negotiated. rewrite (view_codec_mime Va), Hma.
  destruct modify; [|done]. exists sa, sb, ida, idb, s. by split_and!.
Qed.

Lemma match_parameters : 
  match_result strict modify a b (profile_format strict (lower ma) a) (profile_format strict (lower ma) b)
    (matchCodecParameters (lower ma) b strict modify a).
Proof.
  destruct (String.eqb_spec (lower ma) "video/h264") as [E|Hh]; [rewrite E; by apply match_h264|].
  assert (forall a', negotiated strict modify a b a' <-> a' = a) as Hneg.
  { intros a'. unfold negotiated. rewrite (view_codec_mime Va).
    destruct (String.eqb_spec (lower ma) "video/h264"); [done|]. by rewrite andb_false_r. }
  run. unfold profile_format. destruct (String.eqb_spec (lower ma) "video/h264"); [done|].
  destruct (String.eqb (lower ma) "video/vp9"); [|by split; [eauto|apply Hneg]].
  destruct strict; cbn [negb]; [|by split; [eauto|apply Hneg]].
  destruct (view_vp9 Va Ia) as [[sa Hsa]|[Hsa Hna]]; rewrite Hsa; [|cbn -[null_id]; rewrite Hna; by auto].
  destruct (view_vp9 Vb Ib) as [[sb Hsb]|[Hsb Hnb]]; rewrite Hsb; [|cbn -[null_id]; rewrite Hnb, orb_true_r; by auto].
  cbn. destruct (String.eqb_spec sa sb) as [->|Hne].
  - split; [eauto|by apply Hneg].
  - split; [done|]. intros (f & H1 & H2). congruence.
Qed.
End match_parameters.

(** ** The whole matching *)

Lemma fmap_format_iff {A B} (fa fb : option A) (f : A -> B) :
  (forall x y, f x = f y -> x = y) ->
  (exists x, fa = Some x /\ fb = Some x) <-> (exists y, f <$> fa = Some y /\ f <$> fb = Some y).
Proof.
  intros Hinj. split.
  - intros (x & -> & ->). by exists (f x).
  - intros (y & H1 & H2). destruct fa as [x|]; [|done]. destruct fb as [x'|]; [|done].
    cbn in *. simplify_eq. exists x. split; [done|]. f_equal. by apply Hinj.
Qed.

(** The channels of two codecs agree. *)
Definition same_channels (a b : json) : bool :=
  Bool.eqb (contains "channels" a) (contains "channels" b) &&
  (negb (contains "channels" a) ||
   json_eqb (default JNull (find "channels" a)) (default JNull (find "channels" b))).

Lemma good_parts c : good_codec c = true ->
  codec_shape c = true /\ wf_json c = true /\ integral_ids c = true.
Proof. unfold good_codec. intros [[H1 H2]%andb_prop H3]%andb_prop. done. Qed.

Lemma same_channels_format a b :
  good_codec a = true -> good_codec b = true ->
  same_channels a b = true <-> int_value <$> find "channels" a = int_value <$> find "channels" b.
Proof.
  intros (Na & Wa & _)%good_parts (Nb & Wb & _)%good_parts.
  destruct (normal_codec_view _ Na) as (oa & pa & ma & ka & ra & ca & fa & Va).
  destruct (normal_codec_view _ Nb) as (ob & pb & mb & kb & rb & cb & fb & Vb).
  pose proof (cv_channels _ _ _ _ _ _ _ _ Va) as Ia. pose proof (cv_channels _ _ _ _ _ _ _ _ Vb) as Ib.
  rewrite (cv_obj _ _ _ _ _ _ _ _ Va) in *. rewrite (cv_obj _ _ _ _ _ _ _ _ Vb) in *.
  unfold same_channels, contains. cbn [find] in *.
  destruct (obj_lookup "channels" oa) as [x|] eqn:Ex, (obj_lookup "channels" ob) as [y|] eqn:Ey; try done.
  cbn. cbn in Ia, Ib. rewrite int_value_eqb, Z.eqb_eq; try (by apply negb_false_iff).
  - split; [by intros ->|by intros [=]].
  - by apply (wf_json_find "channels" _ _ Wa).
  - by apply (wf_json_find "channels" _ _ Wb).
Qed.

(** Up to the parameters, [matchCodecs] compares three things. *)
Lemma matchCodecs_prefix a b strict modify oa pa ma ka ra ca fa ob pb mb kb rb cb fb :
  codec_view a oa pa ma ka ra ca fa -> codec_view b ob pb mb kb rb cb fb ->
  matchCodecs b strict modify a =
  if String.eqb (lower ma) (lower mb) && json_eqb ca cb && same_channels a b
  then matchCodecParameters (lower ma) b strict modify a else (Ok false, a).
Proof.
  intros Va Vb. unfold matchCodecs, same_channels. rewrite (bind_ok _ _ _ _ _ (eq_refl : get a = (Ok a, a))).
  rewrite (view_lower_mime Va), (view_lower_mime Vb), !lift_bind.
  destruct (String.eqb (lower ma) (lower mb)); cbn [negb andb]; [|done].
  rewrite (cv_obj _ _ _ _ _ _ _ _ Va).
  rewrite (bind_ok _ _ _ _ _ (get_key_present _ _ _ (cv_clock _ _ _ _ _ _ _ _ Va))).
  rewrite (cv_obj _ _ _ _ _ _ _ _ Vb). cbn [idx]. rewrite (cv_clock _ _ _ _ _ _ _ _ Vb), lift_bind.
  destruct (json_eqb ca cb); cbn [negb andb]; [|done].
  rewrite (bind_ok get _ _ _ _ eq_refl). unfold contains. cbn [find].
  destruct (obj_lookup "channels" oa) as [x|] eqn:Ex, (obj_lookup "channels" ob) as [y|] eqn:Ey; try done.
  cbn [Bool.eqb negb andb orb from_option id]. unfold bind at 1 2.
  rewrite (get_key_present _ _ _ Ex). cbn. by destruct (json_eqb x y).
Qed.

Lemma matchCodecs_result a b strict modify :
  good_codec a = true -> good_codec b = true ->
  match_result strict modify a b (format strict a) (format strict b) (matchCodecs b strict modify a).
Proof.
  intros Ha Hb. pose proof (same_channels_format a b Ha Hb) as Hch.
  apply good_parts in Ha as (Na & Wa & Ia). apply good_parts in Hb as (Nb & Wb & Ib).
  destruct (normal_codec_view _ Na) as (oa & pa & ma & ka & ra & ca & fa & Va).
  destruct (normal_codec_view _ Nb) as (ob & pb & mb & kb & rb & cb & fb & Vb).
  rewrite (matchCodecs_prefix _ _ _ _ _ _ _ _ _ _ _ _ _ _ _ _ _ _ Va Vb).
  assert (json_eqb ca cb = Z.eqb (int_value ca) (int_value cb)) as Hcl.
  { apply int_value_eqb; [by destruct Va|by destruct Vb|..].
    - apply (wf_json_find "clockRate" a); [done|]. rewrite (cv_obj _ _ _ _ _ _ _ _ Va). by destruct Va.
    - apply (wf_json_find "clockRate" b); [done|]. rewrite (cv_obj _ _ _ _ _ _ _ _ Vb). by destruct Vb. }
  assert (find "clockRate" a = Some ca) as Ca by (rewrite (cv_obj _ _ _ _ _ _ _ _ Va); by destruct Va).
  assert (find "clockRate" b = Some cb) as Cb by (rewrite (cv_obj _ _ _ _ _ _ _ _ Vb); by destruct Vb).
  unfold format. rewrite (view_codec_mime Va), (view_codec_mime Vb), Ca, Cb. cbn [fmap option_fmap option_map].
  assert (forall mime clk ch (x : codec_profile) y, MediaFormat mime clk ch x = MediaFormat mime clk ch y -> x = y) as Hinj
    by congruence.
  destruct (String.eqb_spec (lower ma) (lower mb)) as [Hm|Hm]; cbn [andb].
  2:{ split; [done|]. intros (f & H1 & H2). destruct (profile_format _ _ a), (profile_format _ _ b); cbn in *; congruence. }
  rewrite Hcl. destruct (Z.eqb_spec (int_value ca) (int_value cb)) as [Hz|Hz]; cbn [andb].
  2:{ split; [done|]. intros (f & H1 & H2). destruct (profile_format _ _ a), (profile_format _ _ b); cbn in *; congruence. }
  destruct (same_channels a b).
  2:{ split; [done|]. intros (f & H1 & H2). enough (false = true) by done. apply Hch.
      destruct (profile_format _ _ a), (profile_format _ _ b); cbn in *; congruence. }
  rewrite <- Hm, Hz, (proj1 Hch eq_refl).
  pose proof (match_parameters Va Vb Ia Ib strict modify) as H.
  destruct (matchCodecParameters _ _ _ _ _) as [[[]|e|] a']; cbn in *.
  - by rewrite (fmap_format_iff _ _ _ (Hinj (lower ma) (Some (int_value cb)) (int_value <$> find "channels" b))) in H.
  - by rewrite (fmap_format_iff _ _ _ (Hinj (lower ma) (Some (int_value cb)) (int_value <$> find "channels" b))) in H.
  - destruct H as (-> & -> & [->| ->] & ?); auto.
  - done.
Qed.

(** ** Adjusting the local codec keeps its format *)

Lemma set_plid_obj s o p :
  obj_lookup "parameters" o = Some (JObject p) ->
  set_plid s (JObject o) =
  JObject (obj_insert "parameters" (JObject (obj_insert "profile-level-id" (JString s) p)) o).
Proof. intros H. unfold set_plid, at_key, set_key. by rewrite H. Qed.

Section set_plid.
Context {c o p m kind rest clock fbs} (V : codec_view c o p m kind rest clock fbs) (s : string).

Lemma set_plid_view :
  codec_view (set_plid s c) (obj_insert "parameters" (JObject (obj_insert "profile-level-id" (JString s) p)) o)
    (obj_insert "profile-level-id" (JString s) p) m kind rest clock fbs.
Proof.
  destruct V as [-> ????????? Hp ?]; split; obj_simpl; try done.
  - by apply set_plid_obj.
  - by apply obj_insert_forall_kv.
Qed.

Lemma set_plid_find k : k <> "parameters" -> find k (set_plid s c) = find k c.
Proof.
  intros Hk. rewrite (cv_obj _ _ _ _ _ _ _ _ V), (set_plid_obj s o p) by by destruct V.
  cbn [find]. rewrite obj_lookup_insert. by destruct (String.eqb_spec k "parameters").
Qed.

Lemma set_plid_mode : getH264PacketizationMode (set_plid s c) = getH264PacketizationMode c.
Proof.
  unfold getH264PacketizationMode. rewrite (view_params set_plid_view), (view_params V). cbn [obind find].
  by obj_simpl.
Qed.

Lemma set_plid_get : getH264ProfileLevelId (set_plid s c) = Ok s.
Proof. unfold getH264ProfileLevelId. rewrite (view_params set_plid_view). cbn [obind find]. by obj_simpl. Qed.

Lemma set_plid_shape : codec_shape c = true -> codec_shape (set_plid s c) = true.
Proof.
  destruct set_plid_view as [Hobj _ _ _ _ _ _ _ Hpar Hn _ _]. cbn [find] in *.
  unfold codec_shape, mime_kind, normalCodecCommon, key_ok, key_opt, contains.
  rewrite (set_plid_find "mimeType"), (set_plid_find "kind"), (set_plid_find "clockRate"),
     (set_plid_find "channels"), (set_plid_find "rtcpFeedback") by done.
  destruct (find "mimeType" c) as [[| | | | |t| |]|]; try done.
  destruct (fst <$> match_mime t); [|done]. rewrite Hobj. cbn [find]. rewrite Hpar.
  cbn [missing normalCodecParameters]. rewrite Hn, !andb_true_iff. intuition.
Qed.

Lemma set_plid_good : good_codec c = true -> good_codec (set_plid s c) = true.
Proof.
  intros (Hn & Hw & Hi)%good_parts. unfold good_codec. rewrite set_plid_shape by done. cbn [andb].
  destruct (view_ids V Hi) as [_ Hid]. pose proof V as V'. destruct V' as [-> ????????? ?].
  rewrite (set_plid_obj s o p) by done. apply andb_true_intro. split.
  - apply wf_json_insert; [|done]. apply wf_json_insert; [done|]. by apply (wf_json_find "parameters" (JObject o)).
  - unfold integral_ids, key_opt at 1. cbn [find]. obj_simpl. cbn [ill_typed]. rewrite negb_involutive.
    unfold key_opt in *. cbn [find] in *. obj_simpl. by rewrite Hid.
Qed.
End set_plid.

(** After a match the local codec is still a good codec with the same format,
    and only its parameters may have changed. *)
Lemma negotiated_keeps strict modify a b a' :
  good_codec a = true -> negotiated strict modify a b a' ->
  good_codec a' = true /\ format strict a' = format strict a /\
  (forall k, k <> "parameters" -> find k a' = find k a).
Proof.
  intros Hg. pose proof (good_parts _ Hg) as (Hn & _ & _).
  destruct (normal_codec_view _ Hn) as (o & p & m & kind & rest & clock & fbs & V).
  unfold negotiated. destruct (strict && modify && _) eqn:E; [|by intros ->].
  apply andb_prop in E as [[-> ->]%andb_prop Em].
  intros (sa & sb & ida & idb & s & Ha & _ & Pa & _ & _ & -> & Ps).
  split_and!; [by apply (set_plid_good V)| |by apply (set_plid_find V)].
  unfold format. rewrite !(set_plid_find V) by done.
  rewrite (view_codec_mime (set_plid_view V s)), <- (view_codec_mime V).
  unfold profile_format. rewrite Em, (set_plid_mode V), (set_plid_get V), Ha. cbn [ok mbind option_bind].
  by rewrite Ps, Pa.
Qed.

(** ** Properties *)

(** C25: [matchCodecs] on validated codecs (whose profile ids are not floating
    point numbers) is a decision procedure for equality of formats: it answers
    true exactly when both codecs have a format and the two are equal; a
    negative answer or an exception leaves the local codec alone, an exception
    can only be the type error of a null profile id, and behaviour is always
    defined.  After a positive strict match with [modify] the local H.264
    codec has the negotiated profile-level-id: the common profile at the local
    level with level asymmetry on both sides, at the lower level otherwise. *)
Theorem matchCodecs_decides_format a b strict modify :
  good_codec a = true -> good_codec b = true ->
  match_result strict modify a b (format strict a) (format strict b) (matchCodecs b strict modify a).
Proof. apply matchCodecs_result. Qed.

Definition sample_h264 (plid : string) (payload : Z) : json := mk_obj
  [ ("kind", JString "video"); ("mimeType", JString "video/H264"); ("clockRate", JInt 90000);
    ("preferredPayloadType", JInt payload);
    ("parameters", mk_obj [("packetization-mode", JInt 1); ("profile-level-id", JString plid)]);
    ("rtcpFeedback", JArray []) ].

Lemma matchCodecs_decides_format_witness :
  match_result true true (sample_h264 "42e01f" 96) (sample_h264 "42e015" 100)
    (format true (sample_h264 "42e01f" 96)) (format true (sample_h264 "42e015" 100))
    (Ok true, sample_h264 "42e015" 96).
Proof.
  exact (matchCodecs_decides_format (sample_h264 "42e01f" 96) (sample_h264 "42e015" 100) true true
    eq_refl eq_refl).
Defined.

(** Matching is symmetric: for validated codecs, whichever of the two is
    the local one, [matchCodecs] gives the same positive answers, and it gives
    the same answer again after it has adjusted the local codec. *)
Theorem matchCodecs_symmetric_stable a b strict modify a' :
  good_codec a = true -> good_codec b = true ->
  matchCodecs b strict modify a = (Ok true, a') ->
  (exists b', matchCodecs a strict modify b = (Ok true, b')) /\
  (exists a'', matchCodecs b strict modify a' = (Ok true, a'')).
Proof.
  intros Ha Hb Hm. pose proof (matchCodecs_result a b strict modify Ha Hb) as H. rewrite Hm in H.
  destruct H as [(f & Fa & Fb) Hneg].
  destruct (negotiated_keeps _ _ _ _ _ Ha Hneg) as (Ha' & Hf & _).
  pose proof (matchCodecs_result b a strict modify Hb Ha) as Hba.
  pose proof (matchCodecs_result a' b strict modify Ha' Hb) as Hab'.
  rewrite Hf, Fa, Fb in *. split.
  - destruct (matchCodecs a _ _ b) as [[[]|e|] b']; cbn in *;
      [by eauto|destruct Hba as [_ []]; by eauto|by destruct Hba as (_ & _ & [] & _)|done].
  - destruct (matchCodecs b _ _ a') as [[[]|e|] b']; cbn in *;
      [by eauto|destruct Hab' as [_ []]; by eauto|by destruct Hab' as (_ & _ & [] & _)|done].
Qed.

Lemma matchCodecs_symmetric_stable_witness :
  exists b', matchCodecs (sample_h264 "42e01f" 96) true true (sample_h264 "42e015" 100) = (Ok true, b').
Proof.
  exact (proj1 (matchCodecs_symmetric_stable (sample_h264 "42e01f" 96) (sample_h264 "42e015" 100)
    true true _ eq_refl eq_refl eq_refl)).
Defined.
