(* ===== verification/OrtcExtended.v ===== *)
(** * Extended RTP capabilities

    [getExtendedRtpCapabilities] runs over mutable codec lists.  It is shown to
    compute a pure selection: for every remote media codec, in the remote
    order, the first local codec with the same format. *)

From stdpp Require Import base list strings pretty.
From Stdlib Require Import ZArith Lia.
From S2P Require Import Prelude Json Text OrtcValidate OrtcValidateSpec H264 OrtcCaps OrtcMatch.

#[global] Instance codec_profile_eq_dec : EqDecision codec_profile.
Proof. solve_decision. Defined.
#[global] Instance media_format_eq_dec : EqDecision media_format.
Proof. solve_decision. Defined.

(** ** The specification *)

Definition payload_type (c : json) : json := default JNull (find "preferredPayloadType" c).
Definition parameter (k : string) (c : json) : option json := find "parameters" c ≫= find k.
Definition is_rtx (c : json) : bool := match ok (isRtxCodec c) with Some b => b | None => false end.

Definition same_format (r l : json) : bool :=
  match format true l, format true r with Some x, Some y => bool_decide (x = y) | _, _ => false end.

(** The local codec for a remote one: none for an RTX codec. *)
Definition pick (locals : list json) (r : json) : option json :=
  if is_rtx r then None else snd <$> list_find (same_format r) locals.
Definition selection (locals remotes : list json) : list (json * json) :=
  omap (fun r => (fun l => (l, r)) <$> pick locals r) remotes.

(** The RTX codec associated with a payload type. *)
Definition rtx_for (pt c : json) : bool := is_rtx c && json_eqb (default JNull (parameter "apt" c)) pt.
Definition rtx_of (codecs : list json) (pt : json) : option json := snd <$> list_find (rtx_for pt) codecs.
(** Both sides need one. *)
Definition rtx_pair (locals remotes : list json) (lpt rpt : json) : option (json * json) :=
  match rtx_of locals lpt, rtx_of remotes rpt with Some a, Some b => Some (a, b) | _, _ => None end.

Definition feedback_key (fb : json) : option json * option json := (find "type" fb, find "parameter" fb).
Definition same_feedback (a b : json) : bool :=
  json_eqb (default JNull (find "type" a)) (default JNull (find "type" b)) &&
  json_eqb (default JNull (find "parameter" a)) (default JNull (find "parameter" b)).
Definition feedback (c : json) : list json := match array_at "rtcpFeedback" c with Some l => l | None => [] end.
(** The entries of the second codec that the first one has too. *)
Definition common_feedback (a b : json) : list json :=
  omap (fun x => snd <$> list_find (same_feedback x) (feedback b)) (feedback a).

(** The extended codec of a selected pair, before and after RTX matching. *)
Record extended_codec (l r : json) (rtx : option (json * json)) (c : json) : Prop := {
  ec_mime : find "mimeType" c = find "mimeType" l;
  ec_kind : find "kind" c = find "kind" l;
  ec_clock : find "clockRate" c = find "clockRate" l;
  ec_channels : find "channels" c = find "channels" l;
  ec_local_pt : find "localPayloadType" c = Some (payload_type l);
  ec_remote_pt : find "remotePayloadType" c = Some (payload_type r);
  ec_local_rtx : find "localRtxPayloadType" c = Some (from_option (fun p => payload_type p.1) JNull rtx);
  ec_remote_rtx : find "remoteRtxPayloadType" c = Some (from_option (fun p => payload_type p.2) JNull rtx);
  ec_local_params : exists p, find "localParameters" c = Some (JObject p) /\
    forallb normalCodecParameter p = true /\
    (forall k, k <> "profile-level-id" -> obj_lookup k p = parameter k l);
  ec_remote_params : find "remoteParameters" c = find "parameters" r;
  ec_feedback : find "rtcpFeedback" c = Some (JArray (common_feedback l r));
}.

Definition same_extension (r l : json) : bool :=
  json_eqb (default JNull (find "kind" l)) (default JNull (find "kind" r)) &&
  json_eqb (default JNull (find "uri" l)) (default JNull (find "uri" r)).
Definition member (k : string) (j : json) : json := default JNull (find k j).
(** The extended header extension of a local and a remote one. *)
Definition extended_extension (l r : json) : json :=
  extendedDirection (match member "direction" r with JString s => s | _ => "" end)
    (mk_obj [ ("kind", member "kind" r); ("uri", member "uri" r); ("sendId", member "preferredId" l);
              ("recvId", member "preferredId" r); ("encrypt", member "preferredEncrypt" l) ]).
Definition extension_selection (locals remotes : list json) : list json :=
  omap (fun r => (fun p => extended_extension p.2 r) <$> list_find (same_extension r) locals) remotes.

(** ** Codecs while the algorithm runs *)

Definition rtx_apt (c : json) : bool := negb (is_rtx c) || present (parameter "apt" c).
(** A validated codec on which the algorithm is defined and does not throw. *)
Definition ready (c : json) : bool := good_codec c && negb (null_id c) && rtx_apt c.

Record evolved (c c' : json) : Prop := {
  ev_ready : ready c' = true;
  ev_format : format true c' = format true c;
  ev_find : forall k, k <> "parameters" -> k <> "preferredPayloadType" -> find k c' = find k c;
  ev_payload : payload_type c' = payload_type c;
  ev_params : forall k, k <> "profile-level-id" -> parameter k c' = parameter k c;
}.
(** The remote codecs keep their parameters. *)
Definition evolvedR (c c' : json) : Prop := evolved c c' /\ find "parameters" c' = find "parameters" c.

Lemma evolved_refl c : ready c = true -> evolved c c.
Proof. by split. Qed.

Lemma evolved_trans a b c : evolved a b -> evolved b c -> evolved a c.
Proof.
  intros [R1 F1 K1 P1 Q1] [R2 F2 K2 P2 Q2]. split; [done|congruence|..|congruence|].
  - intros k H1 H2. rewrite K2, K1; done.
  - intros k H1. rewrite Q2, Q1; done.
Qed.

Lemma evolvedR_trans a b c : evolvedR a b -> evolvedR b c -> evolvedR a c.
Proof. intros [E1 P1] [E2 P2]. split; [by eapply evolved_trans|congruence]. Qed.

Lemma ready_parts c : ready c = true -> good_codec c = true /\ null_id c = false /\ rtx_apt c = true.
Proof. unfold ready. intros [[? ?%negb_true_iff]%andb_prop ?]%andb_prop. done. Qed.

Lemma ready_shape c : ready c = true -> codec_shape c = true.
Proof. intros H. by destruct (good_parts _ (proj1 (ready_parts _ H))) as (? & _ & _). Qed.

Lemma is_rtx_eq c :
  is_rtx c = match find "mimeType" c with Some (JString m) => match_rtx m | _ => false end.
Proof.
  destruct c as [| | | | | | |o]; try done. unfold is_rtx, isRtxCodec. cbn [idx find].
  by destruct (obj_lookup "mimeType" o) as [[]|].
Qed.

Lemma is_rtx_find c c' : find "mimeType" c' = find "mimeType" c -> is_rtx c' = is_rtx c.
Proof. intros H. by rewrite !is_rtx_eq, H. Qed.

Lemma rtx_apt_params c c' :
  find "mimeType" c' = find "mimeType" c -> parameter "apt" c' = parameter "apt" c -> rtx_apt c' = rtx_apt c.
Proof. intros H1 H2. unfold rtx_apt. rewrite (is_rtx_find c c' H1), H2. done. Qed.

Lemma integral_ids_find c c' :
  find "parameters" c' = find "parameters" c -> integral_ids c' = integral_ids c.
Proof. intros H. unfold integral_ids, key_opt at 1 4. by rewrite H. Qed.

Lemma codec_shape_find c c' :
  (forall k, k <> "preferredPayloadType" -> find k c' = find k c) -> codec_shape c' = codec_shape c.
Proof.
  intros H. unfold codec_shape, mime_kind, normalCodecCommon, key_ok, contains. by rewrite !H.
Qed.

(** [operator[]("preferredPayloadType")] keeps everything that matters. *)
Definition touch (c : json) : json := (get_key "preferredPayloadType" c).2.

Lemma touch_obj o :
  touch (JObject o) = JObject (obj_insert "preferredPayloadType" (payload_type (JObject o)) o).
Proof. done. Qed.

Lemma touch_find k c : is_object c = true -> k <> "preferredPayloadType" -> find k (touch c) = find k c.
Proof.
  destruct c as [| | | | | | |o]; try done. intros _ Hk. rewrite touch_obj. cbn [find].
  rewrite obj_lookup_insert. by destruct (String.eqb_spec k "preferredPayloadType").
Qed.

Lemma good_object c : good_codec c = true -> is_object c = true.
Proof.
  intros (Hs & _ & _)%good_parts. destruct (normal_codec_view _ Hs) as (?&?&?&?&?&?&?&V).
  by rewrite (cv_obj _ _ _ _ _ _ _ _ V).
Qed.

Lemma touch_evolvedR c : ready c = true -> evolvedR c (touch c).
Proof.
  intros Hr. destruct (ready_parts _ Hr) as (Hg & Hnull & Hapt). pose proof (good_object _ Hg) as Ho.
  assert (forall k, k <> "preferredPayloadType" -> find k (touch c) = find k c) as Hf
    by (intros; by apply touch_find).
  assert (wf_json (touch c) = true) as Hw.
  { apply preserves_get_key. by destruct (good_parts _ Hg) as (_ & ? & _). }
  assert (forall k, k <> "profile-level-id" -> parameter k (touch c) = parameter k c) as Hp
    by (intros; unfold parameter; by rewrite Hf).
  split; [split|by apply Hf].
  - unfold ready, null_id. rewrite (rtx_apt_params c) by (auto using Hf). rewrite Hapt, andb_true_r.
    apply good_parts in Hg as (Hs & _ & Hi). rewrite Hf by done.
    fold (null_id c). rewrite Hnull, andb_true_r. unfold good_codec. rewrite Hw, andb_true_r.
    rewrite (integral_ids_find c), (codec_shape_find c) by auto. by rewrite Hs, Hi.
  - unfold format, codec_mime, profile_format, lower_mime, find_deref. rewrite !Hf by done.
    destruct c as [| | | | | | |o]; try done.
    assert (idx "parameters" (touch (JObject o)) = idx "parameters" (JObject o)) as Hi.
    { rewrite touch_obj. cbn [idx]. rewrite obj_lookup_insert. by eqb_literals. }
    unfold getH264PacketizationMode, getH264ProfileLevelId, getVP9ProfileId. by rewrite Hi.
  - intros k _ Hk. by apply Hf.
  - destruct c as [| | | | | | |o]; try done. rewrite touch_obj. unfold payload_type at 1. cbn [find].
    rewrite obj_lookup_insert. by eqb_literals.
  - done.
Qed.

(** ** Matching keeps codecs ready *)

Lemma set_plid_parameter s c k : good_codec c = true ->
  parameter k (set_plid s c) = if String.eqb k "profile-level-id" then Some (JString s) else parameter k c.
Proof.
  intros (Hs & _ & _)%good_parts. destruct (normal_codec_view _ Hs) as (o&p&?&?&?&?&?&V).
  unfold parameter. pose proof (cv_obj _ _ _ _ _ _ _ _ (set_plid_view V s)) as ->.
  rewrite (cv_obj _ _ _ _ _ _ _ _ V). cbn [find]. rewrite (cv_params _ _ _ _ _ _ _ _ V).
  obj_simpl. cbn [mbind option_bind find]. by rewrite obj_lookup_insert.
Qed.

Lemma null_id_eq c : null_id c =
  negb (missing is_null (parameter "profile-level-id" c)) || negb (missing is_null (parameter "profile-id" c)).
Proof.
  unfold null_id, parameter. destruct (find "parameters" c) as [p|]; cbn [existsb mbind option_bind]; [|done].
  by rewrite orb_false_r.
Qed.

Lemma match_step r l : ready r = true -> ready l = true ->
  exists l', matchCodecs r true true l = (Ok (same_format r l), l') /\ evolved l l'.
Proof.
  intros (Gr & Nr & Ar)%ready_parts Hl. pose proof (ready_parts _ Hl) as (Gl & Nl & Al).
  pose proof (matchCodecs_result l r true true Gl Gr) as H. unfold same_format.
  destruct (matchCodecs r true true l) as [[[]|e|] l']; unfold match_result in H.
  - destruct H as [(f & -> & ->) Hneg]. rewrite bool_decide_eq_true_2 by done. exists l'. split; [done|].
    destruct (negotiated_keeps _ _ _ _ _ Gl Hneg) as (Gl' & Hf & Hk).
    assert (l' = l \/ exists s, l' = set_plid s l) as [->|[s ->]].
    { unfold negotiated in Hneg. destruct (_ && _); [|by left]. right. destruct Hneg as (?&?&?&?&s&_&_&_&_&_&->&_). eauto. }
    { by apply evolved_refl. }
    assert (forall k, k <> "profile-level-id" -> parameter k (set_plid s l) = parameter k l) as Hp.
    { intros k Hk'. rewrite set_plid_parameter by done. by destruct (String.eqb_spec k "profile-level-id"). }
    split; [|done|by auto| |done].
    + unfold ready. rewrite Gl', (rtx_apt_params l), Al by auto. rewrite null_id_eq in *.
      rewrite set_plid_parameter, Hp by done. by apply orb_false_iff in Nl as [_ ->].
    + unfold payload_type. by rewrite Hk.
  - destruct H as [-> Hn]. exists l. split; [|by apply evolved_refl]. do 2 f_equal.
    destruct (format true l) as [x|], (format true r) as [y|]; try done.
    symmetry. apply bool_decide_eq_false. intros ->. apply Hn. by exists y.
  - destruct H as (_ & _ & _ & H). by rewrite Nl, Nr in H.
  - done.
Qed.

Lemma same_format_evolved r r' l l' :
  evolved r r' -> evolved l l' -> same_format r' l' = same_format r l.
Proof. intros [_ Hr _ _ _] [_ Hl _ _ _]. unfold same_format. by rewrite Hr, Hl. Qed.

Lemma find_if_ref_step r l : ready r = true -> Forall (fun c => ready c = true) l ->
  exists l', find_if_ref (matchCodecs r true true) l = (Ok (fst <$> list_find (same_format r) l), l') /\
             Forall2 evolved l l'.
Proof.
  intros Hr. induction 1 as [|c l Hc Hl IH]; cbn [find_if_ref list_find]; [by exists []|].
  destruct (match_step r c Hr Hc) as (c' & -> & Hev).
  assert (Forall2 evolved l l) as Hid by (by eapply Forall_Forall2_diag, Forall_impl; [|apply evolved_refl]).
  destruct (same_format r c); cbn.
  - exists (c' :: l). split; [done|]. by constructor.
  - destruct IH as (l' & -> & Hl'). exists (c' :: l'). split; [|by constructor].
    by destruct (list_find (same_format r) l) as [[i x]|].
Qed.

(** [list_find] on related lists stops at the same place. *)
Lemma list_find_related {A} (R : A -> A -> Prop) (P Q : A -> bool) l l' :
  Forall2 R l l' -> (forall x y, R x y -> Q y = P x) ->
  option_Forall2 (fun p q => p.1 = q.1 /\ R p.2 q.2) (list_find P l) (list_find Q l').
Proof.
  intros HR HPQ. induction HR as [|x y l l' Hxy _ IH]; cbn; [by constructor|].
  rewrite (HPQ _ _ Hxy). destruct (P x); cbn; [by constructor|].
  destruct IH as [[i a] [j b] [Hij Hab]|]; cbn in *; constructor. by subst.
Qed.

(** ** Reading through references into the lists *)

Lemma read_at_nth i k c v l :
  l !! i = Some c -> find k c = Some v -> at_nth i (get_key k) l = (Ok v, l).
Proof.
  intros Hi Hk. unfold at_nth, zoom. rewrite Hi. destruct c; try done. rewrite (get_key_present _ _ _ Hk).
  by rewrite list_insert_id.
Qed.

Lemma get_at_nth i c l : l !! i = Some c -> at_nth i get l = (Ok c, l).
Proof. intros Hi. unfold at_nth, zoom. rewrite Hi. cbn. by rewrite list_insert_id. Qed.

Lemma touch_at_nth i c l : l !! i = Some c -> is_object c = true ->
  at_nth i (get_key "preferredPayloadType") l = (Ok (payload_type c), <[i:=touch c]> l).
Proof. intros Hi Hc. unfold at_nth, zoom. rewrite Hi. by destruct c. Qed.

Lemma bind_local_ok {A B} (m : M (list json) A) (k : A -> M codec_lists B) a L L' R :
  m L = (Ok a, L') -> bind (on_local m) k (L, R) = k a (L', R).
Proof. unfold bind, on_local, zoom. cbn. by intros ->. Qed.

Lemma bind_remote_ok {A B} (m : M (list json) A) (k : A -> M codec_lists B) a L R R' :
  m R = (Ok a, R') -> bind (on_remote m) k (L, R) = k a (L, R').
Proof. unfold bind, on_remote, zoom. cbn. by intros ->. Qed.

Lemma Forall2_touch (P : json -> json -> Prop) l0 l i c :
  (forall a b c, P a b -> evolvedR b c -> P a c) ->
  Forall2 P l0 l -> l !! i = Some c -> ready c = true -> Forall2 P l0 (<[i:=touch c]> l).
Proof.
  intros Htr Hl Hi Hc. pose proof (touch_evolvedR c Hc) as He.
  destruct (Forall2_lookup_r _ _ _ _ _ Hl Hi) as (c0 & Hi0 & Hc0).
  rewrite <- (list_insert_id l0 i c0) by done. apply Forall2_insert; [done|]. by eapply Htr.
Qed.

(** ** Feedback *)

Lemma feedback_members fb : normalRtcpFeedback fb = true ->
  idx "type" fb = Ok (member "type" fb) /\ idx "parameter" fb = Ok (member "parameter" fb).
Proof.
  destruct fb as [| | | | | | |o]; try done. unfold normalRtcpFeedback, member. intros H. split_normal.
  apply missing_false in H0 as (v & Hv & _), H1 as (w & Hw & _). cbn [find idx]. by rewrite Hv, Hw.
Qed.

Lemma sameFeedback_ok a b : normalRtcpFeedback a = true -> normalRtcpFeedback b = true ->
  sameFeedback a b = Ok (same_feedback a b).
Proof.
  intros [Ha1 Ha2]%feedback_members [Hb1 Hb2]%feedback_members.
  unfold sameFeedback, same_feedback. rewrite Ha1, Hb1. unfold member. cbn [obind].
  destruct (json_eqb _ _); cbn [negb andb]; [|done]. by rewrite Ha2, Hb2.
Qed.

Lemma list_find_bool {A} (q : A -> bool) x l :
  list_find q (x :: l) = if q x then Some (0, x) else prod_map S id <$> list_find q l.
Proof. cbn. by destruct (q x). Qed.

Lemma ofind_if_list_find {A} (p : A -> outcome bool) (q : A -> bool) l :
  Forall (fun x => p x = Ok (q x)) l -> ofind_if p l = Ok (snd <$> list_find q l).
Proof.
  induction 1 as [|x l Hx _ IH]; [done|]. rewrite list_find_bool. cbn [ofind_if]. rewrite Hx, IH.
  destruct (q x); [done|]. by destruct (list_find q l) as [[]|].
Qed.

Lemma ofind_idx_list_find {A} (p : A -> outcome bool) (q : A -> bool) l n :
  Forall (fun x => p x = Ok (q x)) l ->
  ofind_idx p l n = Ok ((fun r => n + r.1) <$> list_find q l).
Proof.
  intros H. revert n. induction H as [|x l Hx _ IH]; intros n; [done|].
  rewrite list_find_bool. cbn [ofind_idx]. rewrite Hx, IH. destruct (q x); cbn; [by rewrite Nat.add_0_r|].
  destruct (list_find q l) as [[]|]; cbn; [|done]. by rewrite Nat.add_succ_r.
Qed.

Lemma Forall_forallb {A} (f : A -> bool) l : forallb f l = true <-> Forall (fun x => f x = true) l.
Proof. rewrite forallb_forall, Forall_forall. by setoid_rewrite list_elem_of_In. Qed.

Lemma reduceRtcpFeedback_ok a b : codec_shape a = true -> codec_shape b = true ->
  reduceRtcpFeedback a b = Ok (JArray (common_feedback a b)).
Proof.
  intros Ha Hb. destruct (normal_codec_view _ Ha) as (oa&pa&ma&ka&ra&ca&fa&Va), (normal_codec_view _ Hb) as (ob&pb&mb&kb&rb&cb&fb&Vb).
  unfold reduceRtcpFeedback, common_feedback, feedback, array_at, find_deref.
  rewrite (cv_obj _ _ _ _ _ _ _ _ Va), (cv_obj _ _ _ _ _ _ _ _ Vb). cbn [find].
  rewrite (cv_feedback _ _ _ _ _ _ _ _ Va), (cv_feedback _ _ _ _ _ _ _ _ Vb). cbn [obind elems].
  pose proof (proj1 (Forall_forallb _ _) (cv_feedback_normal _ _ _ _ _ _ _ _ Va)) as HA.
  pose proof (proj1 (Forall_forallb _ _) (cv_feedback_normal _ _ _ _ _ _ _ _ Vb)) as HB.
  enough (reduceFeedbackLoop fa fb = Ok (omap (fun x => snd <$> list_find (same_feedback x) fb) fa)) as ->; [done|].
  clear Va. induction HA as [|x fa Hx _ IH]; cbn; [done|].
  rewrite (ofind_if_list_find _ (same_feedback x)), IH.
  - cbn. by destruct (list_find _ fb) as [[]|].
  - eapply Forall_impl; [exact HB|]. intros y Hy. by apply sameFeedback_ok.
Qed.

(** ** One extended codec *)

Lemma evolved_common_feedback l l' r r' :
  evolved l l' -> evolved r r' -> common_feedback l' r' = common_feedback l r.
Proof.
  intros El Er. unfold common_feedback, feedback, array_at.
  by rewrite (ev_find _ _ El), (ev_find _ _ Er).
Qed.

Lemma isRtxCodec_ok c : good_codec c = true -> isRtxCodec c = Ok (is_rtx c).
Proof.
  intros (Hs & _ & _)%good_parts. destruct (normal_codec_view _ Hs) as (?&?&?&?&?&?&?&V).
  unfold is_rtx, isRtxCodec. rewrite (cv_obj _ _ _ _ _ _ _ _ V). cbn [idx].
  by rewrite (cv_mime _ _ _ _ _ _ _ _ V).
Qed.

(** The members a good codec has. *)
Lemma good_members c : good_codec c = true -> exists p,
  find "mimeType" c = Some (member "mimeType" c) /\ find "kind" c = Some (member "kind" c) /\
  find "clockRate" c = Some (member "clockRate" c) /\ find "parameters" c = Some (JObject p) /\
  forallb normalCodecParameter p = true.
Proof.
  intros (Hs & _ & _)%good_parts. destruct (normal_codec_view _ Hs) as (o&p&?&?&?&?&?&V). exists p.
  unfold member. rewrite (cv_obj _ _ _ _ _ _ _ _ V). cbn [find]. destruct V as [-> Hm _ Hk Hc _ _ _ Hp Hn _ _].
  by rewrite Hm, Hk, Hc, Hp.
Qed.

Definition base_codec (l r : json) : json := mk_obj
  [ ("mimeType", member "mimeType" l); ("kind", member "kind" l); ("clockRate", member "clockRate" l);
    ("localPayloadType", payload_type l); ("localRtxPayloadType", JNull);
    ("remotePayloadType", payload_type r); ("remoteRtxPayloadType", JNull);
    ("localParameters", member "parameters" l); ("remoteParameters", member "parameters" r);
    ("rtcpFeedback", JArray (common_feedback l r)) ].
Definition full_codec (l r : json) : json :=
  match find "channels" l with
  | Some v => (set_key "channels" v (base_codec l r)).2
  | None => base_codec l r
  end.

Lemma full_codec_find l r k : k <> "channels" -> find k (full_codec l r) = find k (base_codec l r).
Proof.
  intros Hk. unfold full_codec. destruct (find "channels" l) as [v|]; [|done].
  unfold base_codec, mk_obj, set_key, at_key. cbn [put snd find]. rewrite obj_lookup_insert.
  by destruct (String.eqb_spec k "channels").
Qed.

Lemma full_codec_extended l0 r0 l r :
  evolved l0 l -> evolvedR r0 r -> extended_codec l0 r0 None (full_codec l r).
Proof.
  intros El [Er Pr]. destruct (good_members l) as (p & Hm & Hk & Hc & Hp & Hn).
  { by apply ready_parts, (ev_ready _ _ El). }
  destruct (good_members r) as (q & _ & _ & _ & Hq & _).
  { by apply ready_parts, (ev_ready _ _ Er). }
  split; try (rewrite full_codec_find by done; unfold base_codec; rewrite find_mk_obj; cbn [obj_lookup]; eqb_literals).
  - by rewrite <- Hm, (ev_find _ _ El).
  - by rewrite <- Hk, (ev_find _ _ El).
  - by rewrite <- Hc, (ev_find _ _ El).
  - rewrite <- (ev_find _ _ El) by done. unfold full_codec. destruct (find "channels" l); [|done].
    unfold base_codec, mk_obj, set_key, at_key. cbn [put snd find]. by rewrite obj_lookup_insert.
  - by rewrite (ev_payload _ _ El).
  - by rewrite (ev_payload _ _ Er).
  - done.
  - done.
  - exists p. unfold member. rewrite Hp. cbn [from_option id]. split_and!; [done..|].
    intros k Hk'. rewrite <- (ev_params _ _ El) by done. unfold parameter. by rewrite Hp.
  - by rewrite <- Pr, Hq; unfold member; rewrite Hq.
  - by rewrite (evolved_common_feedback _ _ _ _ El Er).
Qed.

(** The lists as the loop has them, related to the original ones. *)
Definition running (L0 R0 : list json) (s : codec_lists) : Prop :=
  Forall2 evolved L0 s.1 /\ Forall2 evolvedR R0 s.2.

Lemma touch_member k c : is_object c = true -> k <> "preferredPayloadType" -> member k (touch c) = member k c.
Proof. intros Hc Hk. unfold member. by rewrite touch_find. Qed.

Lemma buildCodec_run L R li i l r :
  L !! li = Some l -> R !! i = Some r -> ready l = true -> ready r = true ->
  buildCodec li i (L, R) =
  (Ok (Some (full_codec (touch l) (touch r))), (<[li:=touch l]> L, <[i:=touch r]> R)).
Proof.
  intros Hl Hr Rl Rr. destruct (ready_parts _ Rl) as (Gl & _ & _), (ready_parts _ Rr) as (Gr & _ & _).
  pose proof (good_object _ Gl) as Ol. pose proof (good_object _ Gr) as Or.
  destruct (good_members _ Gl) as (p & Hm & Hk & Hc & Hp & _), (good_members _ Gr) as (q & _ & _ & _ & Hq & _).
  destruct (touch_evolvedR _ Rl) as [El Pl], (touch_evolvedR _ Rr) as [Er Pr].
  assert (<[li:=touch l]> L !! li = Some (touch l)) as Hl' by (apply list_lookup_insert_eq; by eapply lookup_lt_Some).
  assert (<[i:=touch r]> R !! i = Some (touch r)) as Hr' by (apply list_lookup_insert_eq; by eapply lookup_lt_Some).
  unfold buildCodec.
  rewrite (bind_local_ok _ _ _ _ _ _ (read_at_nth _ _ _ _ _ Hl Hm)), (bind_local_ok _ _ _ _ _ _ (read_at_nth _ _ _ _ _ Hl Hk)),
    (bind_local_ok _ _ _ _ _ _ (read_at_nth _ _ _ _ _ Hl Hc)), (bind_local_ok _ _ _ _ _ _ (touch_at_nth _ _ _ Hl Ol)),
    (bind_remote_ok _ _ _ _ _ _ (touch_at_nth _ _ _ Hr Or)).
  rewrite (bind_local_ok _ _ (JObject p) _ (<[li:=touch l]> L)) by (by apply (read_at_nth _ _ (touch l)); rewrite ?Pl).
  rewrite (bind_remote_ok _ _ (JObject q) _ _ (<[i:=touch r]> R)) by (by apply (read_at_nth _ _ (touch r)); rewrite ?Pr).
  rewrite (bind_local_ok _ _ _ _ _ _ (get_at_nth _ _ _ Hl')), (bind_remote_ok _ _ _ _ _ _ (get_at_nth _ _ _ Hr')).
  rewrite reduceRtcpFeedback_ok, lift_bind
    by first [by apply ready_shape, (ev_ready _ _ El) | by apply ready_shape, (ev_ready _ _ Er)].
  set (c := mk_obj _). assert (c = base_codec (touch l) (touch r)) as ->.
  { unfold c. unfold base_codec. rewrite !touch_member by done. rewrite (ev_payload _ _ El), (ev_payload _ _ Er).
    assert (member "parameters" l = JObject p) as -> by (unfold member; by rewrite Hp).
    by assert (member "parameters" r = JObject q) as -> by (unfold member; by rewrite Hq). }
  cbv zeta. unfold contains, full_codec. destruct (find "channels" (touch l)) as [v|] eqn:Ev; [|done].
  by rewrite (bind_local_ok _ _ _ _ _ _ (read_at_nth _ _ _ _ _ Hl' Ev)).
Qed.

Lemma Forall2_evolved_ready L0 L : Forall2 evolved L0 L -> Forall (fun c => ready c = true) L.
Proof. induction 1 as [|x y L0 L Hxy _ IH]; constructor; [apply (ev_ready _ _ Hxy)|done]. Qed.

Lemma Forall2_evolved_trans L0 L L' : Forall2 evolved L0 L -> Forall2 evolved L L' -> Forall2 evolved L0 L'.
Proof.
  intros H1. revert L'. induction H1 as [|x y L0 L Hxy _ IH]; intros L' H2; inversion H2; subst; constructor.
  - by eapply evolved_trans.
  - by apply IH.
Qed.

Lemma running_touch_local L0 R0 L R i c :
  running L0 R0 (L, R) -> L !! i = Some c -> ready c = true -> running L0 R0 (<[i:=touch c]> L, R).
Proof.
  intros [HL HR] Hi Hc. split; [|done]. apply Forall2_touch; try done.
  intros x y z Hxy [Hyz _]. by eapply evolved_trans.
Qed.

Lemma running_touch_remote L0 R0 L R i c :
  running L0 R0 (L, R) -> R !! i = Some c -> ready c = true -> running L0 R0 (L, <[i:=touch c]> R).
Proof.
  intros [HL HR] Hi Hc. split; [done|]. apply Forall2_touch; try done. apply evolvedR_trans.
Qed.

Lemma extendCodec_run L0 R0 s i r0 : running L0 R0 s -> R0 !! i = Some r0 ->
  exists res s', extendCodec i s = (Ok res, s') /\ running L0 R0 s' /\
    option_Forall2 (fun l0 c => extended_codec l0 r0 None c) (pick L0 r0) res.
Proof.
  destruct s as [L R]. intros [HL HR] Hr0. cbn [fst snd] in *.
  destruct (Forall2_lookup_l _ _ _ _ _ HR Hr0) as (r & Hr & Er & Pr).
  pose proof (ev_ready _ _ Er) as Rr. destruct (ready_parts _ Rr) as (Gr & _ & _).
  unfold extendCodec, pick. rewrite (bind_remote_ok _ _ _ _ _ _ (get_at_nth _ _ _ Hr)).
  rewrite (isRtxCodec_ok _ Gr), lift_bind, (is_rtx_find r0 r) by (by apply (ev_find _ _ Er)).
  destruct (is_rtx r0); [by do 2 eexists; split; [done|]; split; [|constructor]|].
  destruct (find_if_ref_step r L Rr (Forall2_evolved_ready _ _ HL)) as (L1 & Hfind & HL1).
  rewrite (bind_local_ok _ _ _ _ _ _ Hfind).
  assert (running L0 R0 (L1, R)) as Hrun1 by (split; [by eapply Forall2_evolved_trans|done]).
  pose proof (list_find_related evolved (same_format r0) (same_format r) L0 L HL) as Hrel.
  specialize (Hrel (fun x y Hxy => same_format_evolved r0 r x y Er Hxy)).
  destruct (list_find (same_format r) L) as [[li l]|] eqn:Efind;
    inversion Hrel as [[j l0] ? [Hij Hl] E0|E0]; subst; cbn [fmap option_fmap option_map fst snd] in *.
  2:{ eexists None, _. split; [done|]. split; [done|constructor]. }
  apply list_find_Some in Efind as (Hli & _ & _).
  destruct (Forall2_lookup_l _ _ _ _ _ HL1 Hli) as (l1 & Hl1 & El1). pose proof (ev_ready _ _ El1) as Rl1.
  rewrite (buildCodec_run L1 R li i l1 r) by done. do 2 eexists. split; [done|]. split.
  - apply running_touch_remote; [|done|done]. by apply running_touch_local.
  - constructor. apply full_codec_extended.
    + eapply evolved_trans; [exact Hl|]. eapply evolved_trans; [exact El1|]. by apply touch_evolvedR.
    + eapply evolvedR_trans; [by split|]. by apply touch_evolvedR.
Qed.

Lemma extendCodecs_run L0 R0 idxs s : running L0 R0 s -> Forall (fun i => is_Some (R0 !! i)) idxs ->
  exists cs s', extendCodecs idxs s = (Ok cs, s') /\ running L0 R0 s' /\
    Forall2 (fun p c => extended_codec p.1 p.2 None c)
      (omap (fun i => r ← R0 !! i; (fun l => (l, r)) <$> pick L0 r) idxs) cs.
Proof.
  intros Hs Hi. revert s Hs. induction Hi as [|i idxs [r0 Hr0] _ IH]; intros s Hs; cbn [extendCodecs].
  { exists [], s. split_and!; [done..|constructor]. }
  destruct (extendCodec_run L0 R0 s i r0 Hs Hr0) as (res & s1 & E1 & Hs1 & Hres).
  destruct (IH s1 Hs1) as (cs & s2 & E2 & Hs2 & Hcs).
  rewrite (bind_ok _ _ _ _ _ E1), (bind_ok _ _ _ _ _ E2). do 2 eexists. split; [done|]. split; [done|].
  cbn [omap list_omap]. rewrite Hr0. cbn [mbind option_bind]. destruct Hres; [by constructor|done].
Qed.

Lemma omap_seq_lookup {A B} (f : A -> option B) (l : list A) :
  omap (fun i => x ← l !! i; f x) (seq 0 (length l)) = omap f l.
Proof.
  enough (forall pre, omap (fun i => x ← (pre ++ l) !! i; f x) (seq (length pre) (length l)) = omap f l) as H
    by apply (H []).
  induction l as [|x l IH]; intros pre; [done|]. cbn [length seq omap list_omap].
  rewrite list_lookup_middle by done. specialize (IH (pre ++ [x])).
  rewrite length_app, <- app_assoc, Nat.add_1_r in IH. cbn [app] in IH. rewrite IH.
  cbn [mbind option_bind]. by destruct (f x).
Qed.

(** ** RTX *)

Lemma rtxFor_ok pt c : ready c = true -> rtxFor pt c = Ok (rtx_for pt c).
Proof.
  intros (Hg & _ & Ha)%ready_parts. unfold rtxFor, rtx_for. rewrite isRtxCodec_ok by done. cbn [obind].
  destruct (good_members _ Hg) as (p & _ & _ & _ & Hp & _). unfold rtx_apt in Ha.
  destruct (is_rtx c); [|done]. rewrite (idx_find _ _ _ Hp). cbn [obind]. unfold parameter in *.
  rewrite Hp in *. cbn [mbind option_bind find] in *. destruct (obj_lookup "apt" p) as [v|] eqn:E; [|done].
  cbn [idx]. by rewrite E.
Qed.

Lemma rtx_for_evolved pt c c' : evolved c c' -> rtx_for pt c' = rtx_for pt c.
Proof. intros E. unfold rtx_for. by rewrite (is_rtx_find c c' (ev_find _ _ E "mimeType" ltac:(done) ltac:(done))), (ev_params _ _ E). Qed.

(** The search for an RTX codec in the current list finds the original one. *)
Lemma ofind_rtx L0 L pt : Forall2 evolved L0 L ->
  exists it, ofind_idx (rtxFor pt) L 0 = Ok it /\
    option_Forall2 (fun c0 i => exists c, L !! i = Some c /\ evolved c0 c) (rtx_of L0 pt) it.
Proof.
  intros HL. rewrite (ofind_idx_list_find _ (rtx_for pt)).
  2:{ eapply Forall_impl; [by eapply Forall2_evolved_ready|]. intros c. apply rtxFor_ok. }
  eexists. split; [done|]. unfold rtx_of.
  pose proof (list_find_related evolved (rtx_for pt) (rtx_for pt) L0 L HL
    (fun x y => rtx_for_evolved pt x y)) as Hrel.
  destruct (list_find (rtx_for pt) L) as [[i c]|] eqn:E;
    inversion Hrel as [[j c0] ? [Hij Hc] E0|E0]; subst; cbn in *; [|constructor].
  constructor. exists c. by apply list_find_Some in E as (? & _ & _).
Qed.

Definition with_rtx (a b c : json) : json :=
  ((set_key "localRtxPayloadType" (payload_type a) ;;; set_key "remoteRtxPayloadType" (payload_type b)) c).2.

Lemma with_rtx_extended l r a b c :
  extended_codec l r None c -> extended_codec l r (Some (a, b)) (with_rtx a b c).
Proof.
  intros [Hm Hk Hc Hch Hlp Hrp _ _ Hpl Hpr Hfb]. destruct c as [| | | | | | |o]; try done.
  unfold with_rtx. cbn [bind set_key at_key put snd]. unfold bind, set_key, at_key, put. cbn [snd].
  split; cbn [find] in *; obj_simpl; done.
Qed.

Lemma extendRtx_run L0 R0 s l r c : running L0 R0 s -> extended_codec l r None c ->
  exists c' s', extendRtx c s = (Ok c', s') /\ running L0 R0 s' /\
    extended_codec l r (rtx_pair L0 R0 (payload_type l) (payload_type r)) c'.
Proof.
  destruct s as [L R]. intros Hs Hc. pose proof Hs as [HL HR]. cbn [fst snd] in *.
  assert (Forall2 evolved R0 R) as HR' by (eapply Forall2_impl; [exact HR|]; by intros ?? [? _]).
  unfold extendRtx, rtx_pair. rewrite (bind_ok get _ _ _ _ eq_refl).
  rewrite (idx_find _ _ _ (ec_local_pt _ _ _ _ Hc)), lift_bind. cbn [fst snd].
  destruct (ofind_rtx L0 L (payload_type l) HL) as (it & -> & Hit). rewrite lift_bind.
  destruct Hit as [a0 li (a & Ha & Ea)|]; [|by exists c, (L, R)].
  rewrite (idx_find _ _ _ (ec_remote_pt _ _ _ _ Hc)), lift_bind.
  destruct (ofind_rtx R0 R (payload_type r) HR') as (jt & -> & Hjt). rewrite lift_bind.
  destruct Hjt as [b0 ri (b & Hb & Eb)|]; [|by exists c, (L, R)].
  pose proof (ev_ready _ _ Ea) as Ra. pose proof (ev_ready _ _ Eb) as Rb.
  rewrite (bind_local_ok _ _ _ _ _ _ (touch_at_nth _ _ _ Ha (good_object _ (proj1 (ready_parts _ Ra))))).
  rewrite (bind_remote_ok _ _ _ _ _ _ (touch_at_nth _ _ _ Hb (good_object _ (proj1 (ready_parts _ Rb))))).
  rewrite (ev_payload _ _ Ea), (ev_payload _ _ Eb).
  exists (with_rtx a0 b0 c), (<[li:=touch a]> L, <[ri:=touch b]> R). split_and!.
  - unfold with_rtx. pose proof (ec_local_pt _ _ _ _ Hc). by destruct c.
  - apply running_touch_remote; [|done|done]. by apply running_touch_local.
  - by apply with_rtx_extended.
Qed.

Lemma extendRtxs_run L0 R0 s ps cs : running L0 R0 s ->
  Forall2 (fun p c => extended_codec p.1 p.2 None c) ps cs ->
  exists cs' s', extendRtxs cs s = (Ok cs', s') /\ running L0 R0 s' /\
    Forall2 (fun p c => extended_codec p.1 p.2 (rtx_pair L0 R0 (payload_type p.1) (payload_type p.2)) c) ps cs'.
Proof.
  intros Hs Hcs. revert s Hs. induction Hcs as [|p c ps cs Hc _ IH]; intros s Hs; cbn [extendRtxs].
  { exists [], s. split_and!; [done..|constructor]. }
  destruct (extendRtx_run L0 R0 s _ _ c Hs Hc) as (c' & s1 & E1 & Hs1 & Hc').
  destruct (IH s1 Hs1) as (cs' & s2 & E2 & Hs2 & Hcs').
  rewrite (bind_ok _ _ _ _ _ E1), (bind_ok _ _ _ _ _ E2). do 2 eexists. split; [done|]. split; [done|].
  by constructor.
Qed.

(** ** Header extensions *)

Lemma extension_members e : normalRtpHeaderExtension e = true ->
  is_object e = true /\ (exists d, find "direction" e = Some (JString d)) /\
  find "kind" e = Some (member "kind" e) /\ find "uri" e = Some (member "uri" e) /\
  find "preferredId" e = Some (member "preferredId" e) /\
  find "preferredEncrypt" e = Some (member "preferredEncrypt" e).
Proof.
  destruct e as [| | | | | | |o]; try done. unfold normalRtpHeaderExtension, member. intros H. split_normal.
  repeat match goal with H : missing _ _ = false |- _ => apply missing_false in H as (? & ? & ?) end.
  cbn [find]. split_and!; try (by val_solve). destruct x; try done. by eexists.
Qed.

Lemma ref_get_find k e v : find k e = Some v -> ref_get k e = Ok v.
Proof. destruct e; try done. intros H. unfold ref_get. by rewrite (get_key_present _ _ _ H). Qed.

Lemma matchHeaderExtensions_ok l r :
  normalRtpHeaderExtension l = true -> normalRtpHeaderExtension r = true ->
  matchHeaderExtensions l r = Ok (same_extension r l).
Proof.
  intros (_ & _ & Lk & Lu & _)%extension_members (_ & _ & Rk & Ru & _)%extension_members.
  unfold matchHeaderExtensions, same_extension.
  rewrite (idx_find _ _ _ Lk), (idx_find _ _ _ Rk), (idx_find _ _ _ Lu), (idx_find _ _ _ Ru). cbn [obind].
  unfold member. by destruct (json_eqb (default JNull (find "kind" l)) _).
Qed.

Lemma extendExtension_ok L r : Forall (fun l => normalRtpHeaderExtension l = true) L ->
  normalRtpHeaderExtension r = true ->
  extendExtension L r = Ok ((fun p => extended_extension p.2 r) <$> list_find (same_extension r) L).
Proof.
  intros HL Hr. unfold extendExtension.
  rewrite (ofind_if_list_find _ (same_extension r)).
  2:{ eapply Forall_impl; [exact HL|]. intros l Hl. by apply matchHeaderExtensions_ok. }
  destruct (list_find _ L) as [[i l]|] eqn:E; cbn [fmap option_fmap option_map snd obind]; [|done].
  apply list_find_Some in E as (Hi & _ & _).
  pose proof (proj1 (Forall_lookup _ _) HL i l Hi) as Hl. 
  apply extension_members in Hl as (_ & _ & _ & _ & Li & Le), Hr as (_ & (d & Hd) & Rk & Ru & Ri & _).
  rewrite (ref_get_find _ _ _ Rk), (ref_get_find _ _ _ Ru), (ref_get_find _ _ _ Li), (ref_get_find _ _ _ Ri),
    (ref_get_find _ _ _ Le), (ref_get_find _ _ _ Hd). cbn [obind get_string].
  unfold extended_extension.
  by assert (member "direction" r = JString d) as -> by (unfold member; by rewrite Hd).
Qed.

Lemma extendExtensions_ok L R : Forall (fun l => normalRtpHeaderExtension l = true) L ->
  Forall (fun r => normalRtpHeaderExtension r = true) R ->
  extendExtensions L R = Ok (extension_selection L R).
Proof.
  intros HL. induction 1 as [|r R Hr _ IH]; cbn [extendExtensions]; [done|].
  rewrite extendExtension_ok, IH by done. unfold extension_selection. cbn [obind omap list_omap].
  by destruct (list_find _ L) as [[]|].
Qed.

(** ** The whole computation *)

Definition codecs_of (caps : json) : list json := default [] (array_at "codecs" caps).
Definition extensions_of (caps : json) : list json := default [] (array_at "headerExtensions" caps).

(** The extended capabilities [ext] of validated capabilities. *)
Definition extends (localCaps remoteCaps ext : json) : Prop :=
  let L := codecs_of localCaps in
  let R := codecs_of remoteCaps in
  exists cs,
    ext = mk_obj [ ("codecs", JArray cs);
                   ("headerExtensions", JArray (extension_selection (extensions_of localCaps)
                                                                    (extensions_of remoteCaps))) ] /\
    Forall2 (fun p c => extended_codec p.1 p.2 (rtx_pair L R (payload_type p.1) (payload_type p.2)) c)
      (selection L R) cs.

Lemma normal_caps_arrays caps : normalRtpCapabilities caps = true ->
  is_object caps = true /\ array_at "codecs" caps = Some (codecs_of caps) /\
  array_at "headerExtensions" caps = Some (extensions_of caps) /\
  Forall (fun c => normalRtpCodecCapability c = true) (codecs_of caps) /\
  Forall (fun e => normalRtpHeaderExtension e = true) (extensions_of caps).
Proof.
  destruct caps as [| | | | | | |o]; try done. unfold normalRtpCapabilities, codecs_of, extensions_of, array_at.
  intros H. split_normal. apply missing_false in H0 as (v & Hv & Hv'), H1 as (w & Hw & Hw').
  destruct v as [| | | | | |l|]; try done. destruct w as [| | | | | |l'|]; try done. cbn [find array_of] in *.
  rewrite Hv, Hw. split_and!; try done; by apply Forall_forallb.
Qed.

Lemma array_at_set_array k k' l caps : is_object caps = true -> k <> k' ->
  array_at k (set_array k' l caps) = array_at k caps.
Proof.
  destruct caps as [| | | | | | |o]; try done. intros _ Hk. unfold array_at, set_array. cbn [find].
  rewrite obj_lookup_insert. by destruct (String.eqb_spec k k').
Qed.

Lemma getExtended_run l0 r0 localCaps remoteCaps :
  validateRtpCapabilities l0 = (Ok tt, localCaps) -> validateRtpCapabilities r0 = (Ok tt, remoteCaps) ->
  forallb ready (codecs_of localCaps) = true -> forallb ready (codecs_of remoteCaps) = true ->
  exists ext s', getExtendedRtpCapabilities (l0, r0) = (Ok ext, s') /\ extends localCaps remoteCaps ext.
Proof.
  intros Vl Vr HL HR. unfold extends. set (L := codecs_of localCaps) in *. set (R := codecs_of remoteCaps) in *.
  pose proof (validator_wp _ _ validateRtpCapabilities_validator l0) as Nl.
  pose proof (validator_wp _ _ validateRtpCapabilities_validator r0) as Nr.
  unfold wp in Nl, Nr. rewrite Vl in Nl. rewrite Vr in Nr.
  destruct (normal_caps_arrays _ Nl) as (Ol & Cl & El & _ & NEl), (normal_caps_arrays _ Nr) as (Or & Cr & Er & _ & NEr).
  apply Forall_forallb in HL, HR.
  assert (running L R (L, R)) as Hrun.
  { split; (eapply Forall_Forall2_diag, Forall_impl; [eassumption|]); intros c Hc; [|split; [|done]]; by apply evolved_refl. }
  destruct (extendCodecs_run L R (seq 0 (length R)) (L, R) Hrun) as (cs & s1 & E1 & H1 & Hcs).
  { apply Forall_seq. intros i Hi. apply lookup_lt_is_Some. lia. }
  rewrite omap_seq_lookup in Hcs. destruct (extendRtxs_run L R s1 _ cs H1 Hcs) as (cs' & s2 & E2 & _ & Hcs').
  unfold getExtendedRtpCapabilities.
  rewrite (bind_ok _ _ _ _ _ (zoom_ok _ (fun l (s : json * json) => (l, s.2)) _ (l0, r0) l0 _ _ eq_refl Vl)). cbn [fst snd].
  rewrite (bind_ok _ _ _ _ _ (zoom_ok _ (fun r (s : json * json) => (s.1, r)) _ (localCaps, r0) r0 _ _ eq_refl Vr)). cbn [fst snd].
  assert ((s <- get ;; cs <- extendCodecs (seq 0 (length s.2)) ;; extendRtxs cs) (L, R) = (Ok cs', s2)) as Hloop.
  { rewrite (bind_ok get _ _ _ _ eq_refl). by rewrite (bind_ok _ _ _ _ _ E1). }
  unfold on_codecs. erewrite bind_ok.
  2:{ eapply zoom_ok; [|exact Hloop]. cbn [fst snd]. by rewrite Cl, Cr. }
  rewrite (bind_ok get _ _ _ _ eq_refl). cbn [fst snd].
  rewrite !array_at_set_array, El, Er by done. rewrite extendExtensions_ok, lift_bind by done.
  do 2 eexists. split; [done|]. by exists cs'.
Qed.

(** C6: correctness of the extended capabilities.  When both capabilities
    pass validation and every codec is ready (no null or floating point
    profile id, every RTX codec with an apt), [getExtendedRtpCapabilities]
    returns, without exceptions or undefined behaviour, exactly the following.
    There is one codec for each remote non-RTX codec that has a local codec of
    the same format, in the remote order, taken from the first such local
    codec; it has both payload types, the feedback both sides share, and the
    RTX payload types when both sides have an RTX codec for it.  Likewise the
    header extensions.  The result does not depend on the updates the
    algorithm makes to its arguments while it runs. *)
Theorem extended_capabilities_correct l0 r0 localCaps remoteCaps :
  validateRtpCapabilities l0 = (Ok tt, localCaps) -> validateRtpCapabilities r0 = (Ok tt, remoteCaps) ->
  forallb ready (codecs_of localCaps) = true -> forallb ready (codecs_of remoteCaps) = true ->
  exists ext s', getExtendedRtpCapabilities (l0, r0) = (Ok ext, s') /\ extends localCaps remoteCaps ext.
Proof. apply getExtended_run. Qed.

(** ** Sample capabilities *)

Definition sample_codec (kind mime : string) (pt clock : Z) (params fbs : list json) (ps : list (string * json)) : json :=
  mk_obj ([ ("kind", JString kind); ("mimeType", JString mime); ("preferredPayloadType", JUint pt);
            ("clockRate", JUint clock); ("parameters", mk_obj ps); ("rtcpFeedback", JArray fbs) ] ++
          match params with [ch] => [("channels", ch)] | _ => [] end).
Definition sample_fb (type parameter : string) : json :=
  mk_obj [("type", JString type); ("parameter", JString parameter)].
Definition sample_ext (kind uri : string) (id : Z) : json :=
  mk_obj [("kind", JString kind); ("uri", JString uri); ("preferredId", JUint id)].

Definition sample_local_caps : json := mk_obj
  [ ("codecs", JArray
      [ sample_codec "audio" "audio/opus" 111 48000 [JUint 2] [sample_fb "transport-cc" ""] [("minptime", JUint 10)];
        sample_codec "video" "video/VP8" 96 90000 []
          [sample_fb "nack" ""; sample_fb "nack" "pli"; sample_fb "goog-remb" ""; sample_fb "transport-cc" ""] [];
        sample_codec "video" "video/rtx" 97 90000 [] [] [("apt", JUint 96)];
        sample_codec "video" "video/H264" 102 90000 [] [sample_fb "nack" ""]
          [("packetization-mode", JUint 1); ("profile-level-id", JString "42e01f")] ]);
    ("headerExtensions", JArray
      [ sample_ext "video" absSendTimeUri 2; sample_ext "video" transportCcUri 3; sample_ext "audio" "urn:ietf:params:rtp-hdrext:ssrc-audio-level" 1 ]) ].

Definition sample_remote_caps : json := mk_obj
  [ ("codecs", JArray
      [ sample_codec "video" "video/h264" 107 90000 [] [sample_fb "nack" ""; sample_fb "ccm" "fir"]
          [("packetization-mode", JUint 1); ("profile-level-id", JString "42e015")];
        sample_codec "video" "video/VP8" 101 90000 [] [sample_fb "goog-remb" ""; sample_fb "transport-cc" ""; sample_fb "nack" ""] [];
        sample_codec "video" "video/rtx" 102 90000 [] [] [("apt", JUint 101)];
        sample_codec "audio" "audio/opus" 100 48000 [JInt 2] [] [] ]);
    ("headerExtensions", JArray
      [ sample_ext "audio" "urn:ietf:params:rtp-hdrext:ssrc-audio-level" 10; sample_ext "video" transportCcUri 5;
        sample_ext "video" absSendTimeUri 4 ]) ].

Lemma extended_capabilities_correct_witness :
  exists ext s', getExtendedRtpCapabilities (sample_local_caps, sample_remote_caps) = (Ok ext, s') /\
    extends (validateRtpCapabilities sample_local_caps).2 (validateRtpCapabilities sample_remote_caps).2 ext.
Proof.
  refine (extended_capabilities_correct sample_local_caps sample_remote_caps (validateRtpCapabilities sample_local_caps).2
    (validateRtpCapabilities sample_remote_caps).2 _ _ _ _);
    vm_compute; reflexivity.
Defined.

(** ** Where the code is undefined *)

Definition caps_rtx_without_apt : json := mk_obj
  [ ("codecs", JArray [ sample_codec "video" "video/VP8" 96 90000 [] [] [];
                        sample_codec "video" "video/rtx" 97 90000 [] [] [] ]) ].

(** An RTX codec without apt passes validation, and then reading its apt through
    a const reference is undefined behaviour. *)
Theorem rtx_without_apt_undefined :
  (validateRtpCapabilities caps_rtx_without_apt).1 = Ok tt /\
  (getExtendedRtpCapabilities (caps_rtx_without_apt, caps_rtx_without_apt)).1 = Undef.
Proof. by vm_compute. Qed.

(** An H.264 codec without profile-level-id matches no codec in strict mode,
    although webrtc takes a missing id as the default profile: the empty text
    that is passed instead does not parse. *)
Theorem h264_without_profile_never_matches c b modify :
  good_codec c = true -> good_codec b = true ->
  codec_mime c = "video/h264" -> parameter "profile-level-id" c = None ->
  (matchCodecs b true modify c).1 <> Ok true /\ (matchCodecs c true modify b).1 <> Ok true.
Proof.
  intros Hg Hb Hm Hp. assert (format true c = None) as Hf.
  { unfold format, profile_format. rewrite Hm.
    cbn [String.eqb Ascii.eqb Bool.eqb]. unfold getH264ProfileLevelId.
    destruct (good_members _ Hg) as (p & _ & _ & _ & Hps & _). rewrite (idx_find _ _ _ Hps).
    unfold parameter in Hp. rewrite Hps in Hp. cbn [mbind option_bind find] in Hp. cbn [obind find].
    rewrite Hp. by destruct (ok (getH264PacketizationMode c)). }
  pose proof (matchCodecs_result c b true modify Hg Hb) as H1.
  pose proof (matchCodecs_result b c true modify Hb Hg) as H2. rewrite Hf in H1, H2.
  destruct (matchCodecs b true modify c) as [[[]|e|] c'], (matchCodecs c true modify b) as [[[]|e'|] b'];
    unfold match_result in *; split; try done;
    first [destruct H1 as [(? & ? & ?) _] | destruct H2 as [(? & ? & ?) _]]; done.
Qed.

Definition sample_h264_no_id : json :=
  sample_codec "video" "video/H264" 102 90000 [] [] [("packetization-mode", JUint 1)].

Lemma h264_without_profile_never_matches_witness :
  (matchCodecs sample_h264_no_id true true sample_h264_no_id).1 <> Ok true.
Proof.
  exact (proj1 (h264_without_profile_never_matches sample_h264_no_id sample_h264_no_id true
    eq_refl eq_refl eq_refl eq_refl)).
Defined.
