(* ===== verification/OrtcDerive.v ===== *)
(** * What is derived from the extended capabilities

    The receiving capabilities pass validation, the sending parameters describe
    one media codec with its RTX codec and one congestion control feedback, and
    [canSend], [canReceive] and the probator agree with them. *)

From stdpp Require Import base list strings pretty.
From Stdlib Require Import ZArith Lia.
From S2P Require Import Prelude Json Text OrtcValidate OrtcValidateSpec H264 OrtcCaps OrtcMatch OrtcExtended.

(** ** Validation without exceptions *)

Definition accepts (m : M json unit) (j : json) : Prop := wp m (fun _ _ => True) (fun _ _ => False) j.

Lemma accepts_result m j : accepts m j -> exists j', m j = (Ok tt, j').
Proof. unfold accepts, wp. destruct (m j) as [[[]|e|] j']; try done. eauto. Qed.

Lemma accepts_fixed m normal j : validator m normal -> normal j = true -> accepts m j.
Proof. intros Hv Hj. unfold accepts, wp. by rewrite (validator_fixed _ _ Hv j Hj). Qed.

Lemma wp_channels kind it (Q : unit -> json -> Prop) E o :
  (forall o', (forall k, k <> "channels" -> obj_lookup k o' = obj_lookup k o) -> Q tt (JObject o')) ->
  wp (if String.eqb kind "audio" then when (missing is_number_integer it) (set_key "channels" (JInt 1))
      else when (present it) (erase_key "channels")) Q E (JObject o).
Proof.
  intros HQ. destruct (String.eqb kind "audio"); wp_step; try (by apply HQ); wp_step; apply HQ.
  - apply same_but_insert.
  - apply same_but_erase.
Qed.

(** What a codec needs to be accepted. *)
Definition acceptable (o : list (string * json)) : Prop :=
  (exists m kind rest, obj_lookup "mimeType" o = Some (JString m) /\ match_mime m = Some (kind, rest)) /\
  missing is_number_integer (obj_lookup "clockRate" o) = false /\
  missing normalCodecParameters (obj_lookup "parameters" o) = false /\
  missing (array_of normalRtcpFeedback) (obj_lookup "rtcpFeedback" o) = false.

Lemma codec_tail_accepts kind o : 
  missing normalCodecParameters (obj_lookup "parameters" o) = false ->
  missing (array_of normalRtcpFeedback) (obj_lookup "rtcpFeedback" o) = false ->
  forall it1 it2 it3, it2 = obj_lookup "parameters" o -> it3 = obj_lookup "rtcpFeedback" o ->
  accepts (codec_tail kind it1 it2 it3) (JObject o).
Proof.
  intros Hp Hf it1 it2 it3 -> ->. unfold accepts, codec_tail.
  rewrite (missing_imp is_object normalCodecParameters) by (done || by intros []).
  rewrite (missing_imp is_array (array_of normalRtcpFeedback)) by (done || by intros []).
  wp_step. apply wp_channels. intros o' Ho. wp_accept.
  apply (wp_deref_fixed _ normalCodecParameters); [apply validateCodecParameters_fixed|by rewrite Ho|].
  wp_accept. apply (wp_deref_for_range_fixed validateRtcpFeedback_validator); [by rewrite Ho|done].
Qed.

Lemma codec_capability_accepts o : acceptable o ->
  ill_typed is_number_integer (obj_lookup "preferredPayloadType" o) = false ->
  accepts validateRtpCodecCapability (JObject o).
Proof.
  intros ((m & kind & rest & Hm & Hk) & Hc & Hp & Hf) Hpt. unfold accepts, validateRtpCodecCapability.
  do 4 wp_step; [done|]. cbn [find]. rewrite Hm, Hk. do 2 wp_step.
  do 2 (wp_step; wp_step; [congruence|]). apply (codec_tail_accepts kind); by obj_simpl.
Qed.

Lemma codec_parameters_accepts o : acceptable o ->
  missing is_number_integer (obj_lookup "payloadType" o) = false ->
  accepts validateRtpCodecParameters (JObject o).
Proof.
  intros ((m & kind & rest & Hm & Hk) & Hc & Hp & Hf) Hpt. unfold accepts, validateRtpCodecParameters.
  do 4 wp_step; [done|]. cbn [find]. rewrite Hm, Hk. 
  do 2 (wp_step; wp_step; [congruence|]). by apply (codec_tail_accepts kind).
Qed.

Lemma each_accepts m l : Forall (accepts m) l -> exists l', each m l = (Ok tt, l').
Proof.
  induction 1 as [|x l Hx _ [l' IH]]; cbn; [by eexists|].
  destruct (accepts_result _ _ Hx) as [x' ->]. rewrite IH. by eexists.
Qed.

Lemma deref_each_accepts k m l j : find k j = Some (JArray l) -> Forall (accepts m) l ->
  exists l', deref k (for_range m) j = (Ok tt, match j with JObject o => JObject (obj_insert k (JArray l') o) | _ => j end).
Proof.
  intros Hk [l' Hl]%each_accepts. exists l'. unfold deref, zoom. rewrite Hk. cbn. by rewrite Hl.
Qed.

Lemma capabilities_accepts cs es :
  Forall (accepts validateRtpCodecCapability) cs -> Forall (accepts validateRtpHeaderExtension) es ->
  accepts validateRtpCapabilities (mk_obj [("codecs", JArray cs); ("headerExtensions", JArray es)]).
Proof.
  intros Hcs Hes. unfold accepts, validateRtpCapabilities, mk_obj. set (o := fold_left _ _ _).
  assert (obj_lookup "codecs" o = Some (JArray cs)) as Hc by done.
  assert (obj_lookup "headerExtensions" o = Some (JArray es)) as He by done.
  do 4 wp_step; [done|]. cbn [find]. rewrite Hc, He. wp_accept.
  destruct (deref_each_accepts "codecs" validateRtpCodecCapability cs (JObject o) Hc Hcs) as [cs' E1].
  unfold wp at 1. rewrite E1. wp_accept.
  destruct (deref_each_accepts "headerExtensions" validateRtpHeaderExtension es
    (JObject (obj_insert "codecs" (JArray cs') o))) as [es' E2]; [cbn [find]; by obj_simpl|done|].
  unfold wp. by rewrite E2.
Qed.

(** ** Views of extended codecs *)

Record ext_view (c : json) (m kind : string) (clock : json) (pl : list (string * json)) (pr lpt rpt : json)
    (fbs : list json) : Prop := {
  xv_mime : find "mimeType" c = Some (JString m);
  xv_match : exists rest, match_mime m = Some (kind, rest);
  xv_kind : find "kind" c = Some (JString kind);
  xv_clock : find "clockRate" c = Some clock;
  xv_clock_int : is_number_integer clock = true;
  xv_lpt : find "localPayloadType" c = Some lpt;
  xv_lpt_int : is_number_integer lpt = true;
  xv_rpt : find "remotePayloadType" c = Some rpt;
  xv_rpt_int : is_number_integer rpt = true;
  xv_params : find "localParameters" c = Some (JObject pl);
  xv_params_normal : forallb normalCodecParameter pl = true;
  xv_remote_params : find "remoteParameters" c = Some pr;
  xv_remote_params_normal : normalCodecParameters pr = true;
  xv_feedback : find "rtcpFeedback" c = Some (JArray fbs);
  xv_feedback_normal : forallb normalRtcpFeedback fbs = true;
  xv_local_rtx : exists v, find "localRtxPayloadType" c = Some v /\ (v = JNull \/ is_number_integer v = true);
  xv_remote_rtx : exists v, find "remoteRtxPayloadType" c = Some v /\ (v = JNull \/ is_number_integer v = true);
}.

Definition has_payload (c : json) : bool := is_number_integer (payload_type c).

Lemma common_feedback_normal l r : codec_shape r = true -> forallb normalRtcpFeedback (common_feedback l r) = true.
Proof.
  intros Hr. destruct (normal_codec_view _ Hr) as (o&p&m&k&rs&cl&fb&V).
  apply Forall_forallb, Forall_forall. intros x Hx. unfold common_feedback in Hx.
  apply list_elem_of_omap in Hx as (y & _ & Hy).
  destruct (list_find _ _) as [[i z]|] eqn:E; cbn in Hy; [|done]. simplify_eq.
  apply list_find_Some in E as (Hi & _ & _). apply list_elem_of_lookup_2 in Hi.
  revert Hi. unfold feedback, array_at. rewrite (cv_obj _ _ _ _ _ _ _ _ V). cbn [find].
  rewrite (cv_feedback _ _ _ _ _ _ _ _ V). intros Hi.
  pose proof (proj1 (Forall_forallb _ _) (cv_feedback_normal _ _ _ _ _ _ _ _ V)) as Hn.
  by eapply (proj1 (Forall_forall _ _)) in Hn.
Qed.

Lemma extended_codec_view l r rtx c :
  codec_shape l = true -> codec_shape r = true -> has_payload l = true -> has_payload r = true ->
  (forall a b, rtx = Some (a, b) -> has_payload a = true /\ has_payload b = true) ->
  extended_codec l r rtx c ->
  exists m kind clock pl pr fbs, ext_view c m kind clock pl pr (payload_type l) (payload_type r) fbs.
Proof.
  intros Hl Hr Pl Pr Hrtx [Hm Hk Hc _ Hlp Hrp Hlx Hrx (pl & Hpl & Hpn & _) Hpr Hfb].
  destruct (normal_codec_view _ Hl) as (o&p&m&k&rs&cl&fb&V), (normal_codec_view _ Hr) as (o'&p'&m'&k'&rs'&cl'&fb'&V').
  exists m, k, cl, pl, (JObject p'), (common_feedback l r).
  rewrite (cv_obj _ _ _ _ _ _ _ _ V) in Hm, Hk, Hc. rewrite (cv_obj _ _ _ _ _ _ _ _ V') in Hpr. cbn [find] in *.
  destruct V, V'. split; try done; try congruence.
  - by eexists.
  - by apply common_feedback_normal.
  - exists (from_option (fun p => payload_type p.1) JNull rtx). split; [done|]. destruct rtx as [[a b]|]; [|by left].
    right. by apply (Hrtx a b).
  - exists (from_option (fun p => payload_type p.2) JNull rtx). split; [done|]. destruct rtx as [[a b]|]; [|by left].
    right. by apply (Hrtx a b).
Qed.

Lemma match_mime_rtx m kind rest :
  match_mime m = Some (kind, rest) -> match_mime (kind +:+ "/rtx") = Some (kind, "rtx").
Proof. intros (_ & Hk & _)%match_mime_spec. by apply match_mime_spec. Qed.

Lemma add_channels_ok c l : exists o, add_channels c (mk_obj l) = Ok (JObject o) /\
  (forall k, k <> "channels" -> obj_lookup k o = obj_lookup k l) /\
  (obj_lookup "channels" l = None -> obj_lookup "channels" o = find "channels" c).
Proof.
  unfold add_channels, contains. destruct (find "channels" c) as [v|] eqn:E.
  - rewrite (idx_find _ _ _ E). cbn [obind]. unfold mk_obj, set_key, at_key. cbn [put snd].
    eexists. split; [done|]. setoid_rewrite obj_lookup_insert. split.
    + intros k Hk. destruct (String.eqb_spec k "channels"); [done|]. apply (find_mk_obj k l).
    + done.
  - unfold mk_obj. eexists. split; [done|]. split; [|intros H; rewrite <- H].
    + intros k _. apply (find_mk_obj k l).
    + apply (find_mk_obj "channels" l).
Qed.

Lemma integer_not_null v : v = JNull \/ is_number_integer v = true -> json_eqb v JNull = is_null v.
Proof. intros [->|H]; [done|]. by destruct v. Qed.

Lemma get_uint8_integer v : is_number_integer v = true -> exists z, get_uint8 v = Ok z.
Proof. destruct v; try done; intros _; by eexists. Qed.

Section derived_codecs.
Context {c m kind clock pl pr lpt rpt fbs} (V : ext_view c m kind clock pl pr lpt rpt fbs).

(** A codec with the mime type, clock rate and feedback of [c]. *)
Lemma media_acceptable o params :
  obj_lookup "mimeType" o = Some (JString m) -> obj_lookup "clockRate" o = Some clock ->
  obj_lookup "parameters" o = Some params -> normalCodecParameters params = true ->
  obj_lookup "rtcpFeedback" o = Some (JArray fbs) -> acceptable o.
Proof.
  intros Hm Hc Hp Hn Hf. destruct (xv_match _ _ _ _ _ _ _ _ _ V) as [rest Hmt]. unfold acceptable.
  rewrite Hc, Hp, Hf. cbn [missing array_of].
  rewrite (xv_clock_int _ _ _ _ _ _ _ _ _ V), (xv_feedback_normal _ _ _ _ _ _ _ _ _ V), Hn.
  split_and!; [|done..]. by exists m, kind, rest.
Qed.

(** Its RTX codec. *)
Lemma rtx_acceptable o apt :
  obj_lookup "mimeType" o = Some (JString (kind +:+ "/rtx")) -> obj_lookup "clockRate" o = Some clock ->
  obj_lookup "parameters" o = Some (mk_obj [("apt", JUint apt)]) ->
  obj_lookup "rtcpFeedback" o = Some (JArray []) -> acceptable o.
Proof.
  intros Hm Hc Hp Hf. destruct (xv_match _ _ _ _ _ _ _ _ _ V) as [rest Hmt]. unfold acceptable.
  rewrite Hc, Hp, Hf. cbn [missing array_of]. rewrite (xv_clock_int _ _ _ _ _ _ _ _ _ V).
  split; [|done]. exists (kind +:+ "/rtx"), kind, "rtx". split; [done|]. by eapply match_mime_rtx.
Qed.

Lemma recvCodecs_ok : exists cs, recvCodecs c = Ok cs /\ Forall (accepts validateRtpCodecCapability) cs.
Proof.
  destruct (xv_remote_rtx _ _ _ _ _ _ _ _ _ V) as (rtx & Hrtx & Hv). unfold recvCodecs.
  rewrite (idx_find _ _ _ (xv_mime _ _ _ _ _ _ _ _ _ V)), (idx_find _ _ _ (xv_kind _ _ _ _ _ _ _ _ _ V)),
    (idx_find _ _ _ (xv_rpt _ _ _ _ _ _ _ _ _ V)), (idx_find _ _ _ (xv_clock _ _ _ _ _ _ _ _ _ V)),
    (idx_find _ _ _ (xv_params _ _ _ _ _ _ _ _ _ V)), (idx_find _ _ _ (xv_feedback _ _ _ _ _ _ _ _ _ V)),
    (idx_find _ _ _ Hrtx). cbn [obind get_string].
  match goal with |- context [add_channels c (mk_obj ?l)] =>
    destruct (add_channels_ok c l) as (o & -> & Ho & _) end. cbn [obind].
  assert (accepts validateRtpCodecCapability (JObject o)) as Hcodec.
  { apply codec_capability_accepts.
    - apply (media_acceptable _ (JObject pl)); try (by rewrite Ho). by destruct V.
    - rewrite Ho by done. cbn. by rewrite (xv_rpt_int _ _ _ _ _ _ _ _ _ V). }
  rewrite (integer_not_null _ Hv). destruct (is_null rtx) eqn:En; [by eexists; split; [done|repeat constructor]|].
  destruct (get_uint8_integer _ (xv_rpt_int _ _ _ _ _ _ _ _ _ V)) as [apt ->]. cbn [obind].
  eexists. split; [done|]. constructor; [done|]. constructor; [|done].
  destruct Hv as [->|Hv]; [done|]. apply codec_capability_accepts.
  - by apply (rtx_acceptable _ apt).
  - by destruct rtx.
Qed.
End derived_codecs.

(** ** Receiving capabilities *)

Lemma omapM_Forall {A B} (f : A -> outcome B) (P : B -> Prop) l :
  Forall (fun x => exists y, f x = Ok y /\ P y) l -> exists ys, omapM f l = Ok ys /\ Forall P ys.
Proof.
  induction 1 as [|x l (y & Hy & HP) _ (ys & IH & Hys)]; cbn; [by exists []|].
  rewrite Hy, IH. exists (y :: ys). split; [done|]. by constructor.
Qed.

Lemma list_find_in {A} (P : A -> bool) l i x : list_find P l = Some (i, x) -> x ∈ l /\ P x = true.
Proof.
  intros (Hi & HP & _)%list_find_Some. split; [by eapply list_elem_of_lookup_2|]. by apply Is_true_true.
Qed.

Lemma selection_in L R l r : (l, r) ∈ selection L R ->
  l ∈ L /\ r ∈ R /\ is_rtx r = false /\ same_format r l = true.
Proof.
  unfold selection, pick. intros (r' & Hr & Hp)%list_elem_of_omap.
  destruct (is_rtx r') eqn:Ex; [done|]. destruct (list_find _ L) as [[i l']|] eqn:E; cbn in Hp; [|done].
  simplify_eq. apply list_find_in in E as [? ?]. done.
Qed.

Lemma rtx_pair_in L R x y a b : rtx_pair L R x y = Some (a, b) -> a ∈ L /\ b ∈ R.
Proof.
  unfold rtx_pair, rtx_of. destruct (list_find _ L) as [[i a']|] eqn:E1; cbn; [|done].
  destruct (list_find _ R) as [[j b']|] eqn:E2; cbn; [|done]. intros [= <- <-].
  split; by eapply list_find_in.
Qed.

Definition known_direction (e : json) : bool :=
  match member "direction" e with
  | JString d => existsb (String.eqb d) ["sendrecv"; "recvonly"; "sendonly"; "inactive"]
  | _ => false
  end.

(** Direction of an extended extension, from the point of view of this side. *)
Definition mirrored (d : string) : string :=
  if String.eqb d "recvonly" then "sendonly" else if String.eqb d "sendonly" then "recvonly" else d.

Lemma extendedDirection_find d o : 
  existsb (String.eqb d) ["sendrecv"; "recvonly"; "sendonly"; "inactive"] = true ->
  find "direction" (extendedDirection d (JObject o)) = Some (JString (mirrored d)) /\
  (forall k, k <> "direction" -> find k (extendedDirection d (JObject o)) = obj_lookup k o).
Proof.
  unfold extendedDirection, mirrored, set_key, at_key. cbn [existsb put snd].
  destruct (String.eqb_spec d "sendrecv") as [->|]; [|destruct (String.eqb_spec d "recvonly") as [->|];
    [|destruct (String.eqb_spec d "sendonly") as [->|]; [|destruct (String.eqb_spec d "inactive") as [->|]; [|done]]]];
    intros _; cbn [find]; (split; [rewrite obj_lookup_insert; by eqb_literals|]);
    intros k Hk; rewrite obj_lookup_insert; by destruct (String.eqb_spec k "direction").
Qed.

(** The members of an extended header extension. *)
Lemma extended_extension_find l r : known_direction r = true -> 
  let e := extended_extension l r in
  (exists d, member "direction" r = JString d /\ find "direction" e = Some (JString (mirrored d))) /\
  find "kind" e = Some (member "kind" r) /\ find "uri" e = Some (member "uri" r) /\
  find "sendId" e = Some (member "preferredId" l) /\ find "recvId" e = Some (member "preferredId" r) /\
  find "encrypt" e = Some (member "preferredEncrypt" l).
Proof.
  unfold known_direction, extended_extension. destruct (member "direction" r) as [| | | | |d| |]; try done.
  intros Hd. unfold mk_obj.
  match goal with |- context [extendedDirection d (JObject ?o)] =>
    destruct (extendedDirection_find d o Hd) as [Hf Hk] end.
  cbv zeta. split; [by eauto|]. rewrite !Hk by done. by split_and!.
Qed.

Lemma recvExtension_ok l r :
  normalRtpHeaderExtension l = true -> normalRtpHeaderExtension r = true -> known_direction r = true ->
  exists es, recvExtension (extended_extension l r) = Ok es /\ Forall (accepts validateRtpHeaderExtension) es.
Proof.
  intros Hl Hr Hd. destruct (extended_extension_find l r Hd) as ((d & _ & Hdir) & Hk & Hu & _ & Hi & He).
  unfold recvExtension. rewrite (idx_find _ _ _ Hdir). cbn [obind get_string].
  destruct (negb _ && negb _); [by exists []|].
  rewrite (idx_find _ _ _ Hk), (idx_find _ _ _ Hu), (idx_find _ _ _ Hi), (idx_find _ _ _ He). cbn [obind].
  eexists. split; [done|]. constructor; [|done]. eapply accepts_fixed; [apply validateRtpHeaderExtension_validator|].
  unfold normalRtpHeaderExtension, member in *. destruct l as [| | | | | | |ol], r as [| | | | | | |orr]; try done.
  split_normal. rewrite !find_mk_obj. cbn [obj_lookup]. eqb_literals.
  repeat match goal with H : missing _ _ = false |- _ => apply missing_false in H as (? & -> & ?) end.
  cbn. by repeat match goal with H : _ = true |- _ => rewrite H; clear H end.
Qed.

(** Everything a device needs of the capabilities it loads. *)
Definition loadable (localCaps remoteCaps : json) : bool :=
  forallb ready (codecs_of localCaps) && forallb ready (codecs_of remoteCaps) &&
  forallb has_payload (codecs_of localCaps) && forallb has_payload (codecs_of remoteCaps) &&
  forallb known_direction (extensions_of remoteCaps).

Lemma loadable_parts lc rc : loadable lc rc = true ->
  forallb ready (codecs_of lc) = true /\ forallb ready (codecs_of rc) = true /\
  Forall (fun c => has_payload c = true) (codecs_of lc) /\ Forall (fun c => has_payload c = true) (codecs_of rc) /\
  Forall (fun e => known_direction e = true) (extensions_of rc).
Proof.
  unfold loadable. intros [[[[? ?]%andb_prop ?]%andb_prop ?]%andb_prop ?]%andb_prop.
  split_and!; try done; by apply Forall_forallb.
Qed.

Lemma Forall2_Forall_r {A B} (P : A -> B -> Prop) (Q : B -> Prop) l l' :
  Forall2 P l l' -> (forall x y, x ∈ l -> P x y -> Q y) -> Forall Q l'.
Proof.
  induction 1 as [|x y l l' Hxy _ IH]; intros H; constructor; [eapply H; [left|done]|].
  apply IH. intros x' y' Hx. apply H. by right.
Qed.

(** Each extended codec has a view. *)
Lemma extends_views lc rc cs :
  loadable lc rc = true ->
  Forall2 (fun p c => extended_codec p.1 p.2
    (rtx_pair (codecs_of lc) (codecs_of rc) (payload_type p.1) (payload_type p.2)) c)
    (selection (codecs_of lc) (codecs_of rc)) cs ->
  Forall (fun c => exists m kind clock pl pr lpt rpt fbs, ext_view c m kind clock pl pr lpt rpt fbs) cs.
Proof.
  intros (Rl%Forall_forallb & Rr%Forall_forallb & Pl & Pr & _)%loadable_parts Hcs.
  rewrite Forall_forall in Rl, Rr, Pl, Pr. eapply Forall2_Forall_r; [exact Hcs|].
  intros [l r] c Hin Hc. cbn [fst snd] in Hc. apply selection_in in Hin as (Hl & Hr & _ & _).
  edestruct extended_codec_view as (m & kind & clock & pl & pr & fbs & V); [..|exact Hc|by eauto 10];
    try (by apply ready_shape; auto); auto.
  intros a b [Ha Hb]%rtx_pair_in. auto.
Qed.

Lemma extension_selection_in L R e : e ∈ extension_selection L R ->
  exists l r, l ∈ L /\ r ∈ R /\ same_extension r l = true /\ e = extended_extension l r.
Proof.
  unfold extension_selection. intros (r & Hr & He)%list_elem_of_omap.
  destruct (list_find _ L) as [[i l]|] eqn:E; cbn in He; [|done]. simplify_eq.
  apply list_find_in in E as [? ?]. by exists l, r.
Qed.

Lemma getRecv_ok lc rc ext :
  normalRtpCapabilities lc = true -> normalRtpCapabilities rc = true -> loadable lc rc = true ->
  extends lc rc ext ->
  exists caps, getRecvRtpCapabilities ext = Ok caps /\ accepts validateRtpCapabilities caps.
Proof.
  intros Nl Nr Hload (cs & -> & Hcs). unfold getRecvRtpCapabilities.
  rewrite (idx_mk_obj "codecs" _ (JArray cs)) by done. cbn [obind elems].
  destruct (omapM_Forall recvCodecs (Forall (accepts validateRtpCodecCapability)) cs) as (css & -> & Hcss).
  { eapply Forall_impl; [by eapply extends_views|]. intros c (m & k & cl & pl & pr & lpt & rpt & fbs & V).
    by eapply recvCodecs_ok. }
  cbn [obind]. erewrite idx_mk_obj by done. cbn [obind elems].
  destruct (normal_caps_arrays _ Nl) as (_ & _ & _ & _ & El), (normal_caps_arrays _ Nr) as (_ & _ & _ & _ & Er).
  apply loadable_parts in Hload as (_ & _ & _ & _ & Hd). rewrite Forall_forall in El, Er, Hd.
  destruct (omapM_Forall recvExtension (Forall (accepts validateRtpHeaderExtension))
    (extension_selection (extensions_of lc) (extensions_of rc))) as (ess & -> & Hess).
  { apply Forall_forall. intros e (l & r & Hl & Hr & _ & ->)%extension_selection_in.
    apply recvExtension_ok; auto. }
  cbn [obind]. eexists. split; [done|]. apply capabilities_accepts; by apply Forall_concat.
Qed.

(** C22: the capabilities a device reports for receiving are valid.  For all
    local and remote capabilities that pass validation, whose codecs are ready
    and have payload types and whose remote extension directions are among the
    four known ones, the extended capabilities and the receiving capabilities
    exist, and the receiving capabilities are accepted by
    [validateRtpCapabilities] (the check [Device::Load] makes). *)
Theorem recv_capabilities_valid l0 r0 localCaps remoteCaps :
  validateRtpCapabilities l0 = (Ok tt, localCaps) -> validateRtpCapabilities r0 = (Ok tt, remoteCaps) ->
  loadable localCaps remoteCaps = true ->
  exists ext s' caps caps',
    getExtendedRtpCapabilities (l0, r0) = (Ok ext, s') /\ getRecvRtpCapabilities ext = Ok caps /\
    validateRtpCapabilities caps = (Ok tt, caps').
Proof.
  intros Vl Vr Hload. destruct (loadable_parts _ _ Hload) as (Rl & Rr & _).
  destruct (getExtended_run _ _ _ _ Vl Vr Rl Rr) as (ext & s' & He & Hext).
  pose proof (validator_wp _ _ validateRtpCapabilities_validator l0) as Nl.
  pose proof (validator_wp _ _ validateRtpCapabilities_validator r0) as Nr.
  unfold wp in Nl, Nr. rewrite Vl in Nl. rewrite Vr in Nr.
  destruct (getRecv_ok _ _ _ Nl Nr Hload Hext) as (caps & Hc & [caps' Hv]%accepts_result). by exists ext, s', caps, caps'.
Qed.

(** ** Sending *)

(** What the codecs sent for an extended codec are: the media codec and, with
    an RTX payload type, the RTX codec that points back to it. *)
Definition sent_codecs (kind : string) (lpt : json) (cs : list json) : Prop :=
  Forall (accepts validateRtpCodecParameters) cs /\
  (exists media, cs = [media] /\ find "payloadType" media = Some lpt \/
     exists rtx apt, cs = [media; rtx] /\ find "payloadType" media = Some lpt /\ get_uint8 lpt = Ok apt /\
       find "mimeType" rtx = Some (JString (kind +:+ "/rtx")) /\ parameter "apt" rtx = Some (JUint apt)).

Lemma sendCodecs_ok {c m kind clock pl pr lpt rpt fbs} (V : ext_view c m kind clock pl pr lpt rpt fbs) ps params :
  find ps c = Some params -> normalCodecParameters params = true ->
  exists cs, sendCodecs ps c = Ok cs /\ sent_codecs kind lpt cs /\
    Forall (fun c => exists l, find "rtcpFeedback" c = Some (JArray l) /\ forallb normalRtcpFeedback l = true) cs.
Proof.
  intros Hps Hpn. destruct (xv_local_rtx _ _ _ _ _ _ _ _ _ V) as (rtx & Hrtx & Hv).
  pose proof (xv_lpt_int _ _ _ _ _ _ _ _ _ V) as Hint. pose proof (xv_feedback_normal _ _ _ _ _ _ _ _ _ V) as Hfn.
  unfold sendCodecs, sent_codecs.
  rewrite (idx_find _ _ _ (xv_mime _ _ _ _ _ _ _ _ _ V)), (idx_find _ _ _ (xv_kind _ _ _ _ _ _ _ _ _ V)),
    (idx_find _ _ _ (xv_lpt _ _ _ _ _ _ _ _ _ V)), (idx_find _ _ _ (xv_clock _ _ _ _ _ _ _ _ _ V)),
    (idx_find _ _ _ Hps), (idx_find _ _ _ (xv_feedback _ _ _ _ _ _ _ _ _ V)), (idx_find _ _ _ Hrtx). cbn [obind get_string].
  match goal with |- context [add_channels c (mk_obj ?l)] =>
    destruct (add_channels_ok c l) as (o & -> & Ho & _) end. cbn [obind].
  assert (accepts validateRtpCodecParameters (JObject o)) as Hcodec.
  { apply codec_parameters_accepts.
    - by apply (media_acceptable V _ params); rewrite ?Ho.
    - rewrite Ho by done. by destruct lpt. }
  assert (find "payloadType" (JObject o) = Some lpt) as Hlpt by (cbn [find]; by rewrite Ho).
  assert (exists l, find "rtcpFeedback" (JObject o) = Some (JArray l) /\ forallb normalRtcpFeedback l = true) as Hfb
    by (exists fbs; split; [cbn [find]; by rewrite Ho|done]).
  rewrite (integer_not_null _ Hv). destruct (is_null rtx) eqn:En.
  { eexists. split; [done|]. split; [|by repeat constructor]. split; [by repeat constructor|].
    exists (JObject o). by left. }
  destruct (get_uint8_integer _ Hint) as [apt Hapt]. rewrite Hapt. cbn [obind].
  destruct Hv as [->|Hv]; [done|]. eexists. split; [done|]. split; [|repeat constructor; [done|by exists []]]. split.
  - constructor; [done|]. constructor; [|done]. apply codec_parameters_accepts; [by apply (rtx_acceptable V _ apt)|by destruct rtx].
  - exists (JObject o). right. do 2 eexists. by split_and!.
Qed.

(** The first extended codec of a kind. *)
Definition first_of_kind (kind : string) (cs : list json) : option json :=
  snd <$> list_find (fun c => json_eqb (member "kind" c) (JString kind)) cs.

Definition viewed (c : json) : Prop :=
  exists m kind clock pl pr lpt rpt fbs, ext_view c m kind clock pl pr lpt rpt fbs.

Lemma sendCodecLoop_ok ps kind cs : ps = "localParameters" \/ ps = "remoteParameters" ->
  Forall viewed cs ->
  exists sent, sendCodecLoop ps kind cs = Ok sent /\
    match first_of_kind kind cs with
    | None => sent = []
    | Some c => sent_codecs kind (member "localPayloadType" c) sent
    end /\
    Forall (fun c => exists l, find "rtcpFeedback" c = Some (JArray l) /\ forallb normalRtcpFeedback l = true) sent.
Proof.
  intros Hps. unfold first_of_kind.
  induction 1 as [|c cs (m & k & cl & pl & pr & lpt & rpt & fbs & V) _ IH]; [by exists []|].
  rewrite list_find_bool. cbn [sendCodecLoop].
  rewrite (idx_find _ _ _ (xv_kind _ _ _ _ _ _ _ _ _ V)). cbn [obind get_string].
  assert (member "kind" c = JString k) as -> by (unfold member; by rewrite (xv_kind _ _ _ _ _ _ _ _ _ V)).
  cbn [json_eqb]. rewrite (String.eqb_sym k kind).
  destruct (String.eqb_spec kind k) as [->|Hne]; cbn [negb].
  - destruct (sendCodecs_ok V ps (if String.eqb ps "localParameters" then JObject pl else pr)) as (sent & -> & Hs & Hf).
    { destruct Hps as [-> | ->]; by destruct V. }
    { destruct Hps as [-> | ->]; by destruct V. }
    exists sent. split; [done|]. split; [|done]. cbn.
    by assert (member "localPayloadType" c = lpt) as -> by (unfold member; by rewrite (xv_lpt _ _ _ _ _ _ _ _ _ V)).
  - destruct IH as (sent & -> & Hs & Hf). exists sent. split; [done|]. split; [|done].
    by destruct (list_find _ cs) as [[]|].
Qed.

Lemma canSend_ok kind cs es : Forall viewed cs ->
  canSend kind (mk_obj [("codecs", JArray cs); ("headerExtensions", es)]) =
  Ok (bool_decide (is_Some (first_of_kind kind cs))).
Proof.
  intros Hcs. unfold canSend. rewrite (idx_mk_obj "codecs" _ (JArray cs)) by done. cbn [obind elems].
  rewrite (ofind_if_list_find _ (fun c => json_eqb (member "kind" c) (JString kind))); [done|].
  eapply Forall_impl; [exact Hcs|]. intros c (m & k & cl & pl & pr & lpt & rpt & fbs & V).
  rewrite (idx_find _ _ _ (xv_kind _ _ _ _ _ _ _ _ _ V)). unfold member. rewrite (xv_kind _ _ _ _ _ _ _ _ _ V).
  cbn. by rewrite String.eqb_sym.
Qed.

Lemma key_ok_member k p j : key_ok k p j = true -> p (member k j) = true.
Proof. unfold key_ok, member. intros (v & -> & Hv)%negb_true_iff%missing_false. done. Qed.

Lemma extension_kind r : normalRtpHeaderExtension r = true -> exists k, member "kind" r = JString k.
Proof.
  unfold normalRtpHeaderExtension. rewrite !andb_true_iff. intros [[[[[_ Hk%key_ok_member] _] _] _] _].
  destruct (member "kind" r); try done. by eexists.
Qed.

(** A header extension of the sending parameters. *)
Lemma sendExtension_ok kind l r :
  normalRtpHeaderExtension l = true -> normalRtpHeaderExtension r = true -> known_direction r = true ->
  exists es, sendExtension kind (extended_extension l r) = Ok es /\
    Forall (fun e => normalRtpHeaderExtensionParameters e = true) es.
Proof.
  intros Hl Hr Hd. destruct (extended_extension_find l r Hd) as ((d & _ & Hdir) & Hk & Hu & Hi & _ & He).
  unfold sendExtension. rewrite (idx_find _ _ _ Hk), (idx_find _ _ _ Hdir). cbn [obind].
  destruct (extension_kind r Hr) as [k ->].
  cbn [get_string obind]. destruct (negb (String.eqb kind k)); [by exists []|].
  destruct (negb _ && negb _); [by exists []|].
  rewrite (idx_find _ _ _ Hu), (idx_find _ _ _ Hi), (idx_find _ _ _ He). cbn [obind].
  eexists. split; [done|]. constructor; [|done].
  unfold normalRtpHeaderExtension, normalRtpHeaderExtensionParameters, member in *.
  destruct l as [| | | | | | |ol], r as [| | | | | | |orr]; try done.
  split_normal. rewrite !find_mk_obj. cbn [obj_lookup]. eqb_literals.
  repeat match goal with H : missing _ _ = false |- _ => apply missing_false in H as (? & -> & ?) end.
  cbn. by repeat match goal with H : _ = true |- _ => rewrite H; clear H end.
Qed.

(** Extended capabilities of loaded capabilities, in the form used below. *)
Record loaded (ext : json) (cs es : list json) : Prop := {
  ld_ext : ext = mk_obj [("codecs", JArray cs); ("headerExtensions", JArray es)];
  ld_codecs : Forall viewed cs;
  ld_exts : Forall (fun e => exists l r, e = extended_extension l r /\ normalRtpHeaderExtension l = true /\
                               normalRtpHeaderExtension r = true /\ known_direction r = true) es;
}.

Lemma getExtended_loaded l0 r0 lc rc :
  validateRtpCapabilities l0 = (Ok tt, lc) -> validateRtpCapabilities r0 = (Ok tt, rc) ->
  loadable lc rc = true ->
  exists ext s' cs es, getExtendedRtpCapabilities (l0, r0) = (Ok ext, s') /\ loaded ext cs es.
Proof.
  intros Vl Vr Hload. destruct (loadable_parts _ _ Hload) as (Rl & Rr & _ & _ & Hd).
  destruct (getExtended_run _ _ _ _ Vl Vr Rl Rr) as (ext & s' & He & cs & Hext & Hcs).
  pose proof (validator_wp _ _ validateRtpCapabilities_validator l0) as Nl.
  pose proof (validator_wp _ _ validateRtpCapabilities_validator r0) as Nr.
  unfold wp in Nl, Nr. rewrite Vl in Nl. rewrite Vr in Nr.
  destruct (normal_caps_arrays _ Nl) as (_ & _ & _ & _ & El), (normal_caps_arrays _ Nr) as (_ & _ & _ & _ & Er).
  do 4 eexists. split; [exact He|]. split; [exact Hext|by eapply extends_views|].
  rewrite Forall_forall in El, Er, Hd |- *. intros e (l & r & Hl & Hr & _ & ->)%extension_selection_in.
  exists l, r. auto.
Qed.

Lemma sendingParts_ok ext cs es ps kind : ps = "localParameters" \/ ps = "remoteParameters" ->
  loaded ext cs es ->
  exists codecs exts, sendingParts ps kind ext = Ok (codecs, exts) /\
    Forall (fun e => normalRtpHeaderExtensionParameters e = true) exts /\
    match first_of_kind kind cs with
    | None => codecs = []
    | Some c => sent_codecs kind (member "localPayloadType" c) codecs
    end /\
    Forall (fun c => exists l, find "rtcpFeedback" c = Some (JArray l) /\ forallb normalRtcpFeedback l = true) codecs.
Proof.
  intros Hps [-> Hcs Hes]. unfold sendingParts. rewrite (idx_mk_obj "codecs" _ (JArray cs)) by done.
  cbn [obind elems]. destruct (sendCodecLoop_ok ps kind cs Hps Hcs) as (codecs & -> & Hsent & Hfb).
  cbn [obind]. rewrite (idx_mk_obj "headerExtensions" _ (JArray es)) by done. cbn [obind elems].
  destruct (omapM_Forall (sendExtension kind)
    (Forall (fun e => normalRtpHeaderExtensionParameters e = true)) es) as (ess & -> & Hess).
  { eapply Forall_impl; [exact Hes|]. intros e (l & r & -> & Hl & Hr & Hd). by apply sendExtension_ok. }
  cbn [obind]. do 2 eexists. split; [done|]. split; [by apply Forall_concat|done].
Qed.

Lemma sending_parameters_ok ext cs es kind : loaded ext cs es -> exists codecs exts,
  getSendingRtpParameters kind ext = Ok (rtpParameters JNull codecs exts [] (JObject [])) /\
  canSend kind ext = Ok (negb (json_empty (JArray codecs))) /\
  (codecs = [] \/ exists lpt, sent_codecs kind lpt codecs) /\
  Forall (fun e => normalRtpHeaderExtensionParameters e = true) exts.
Proof.
  intros Hl. unfold getSendingRtpParameters.
  destruct (sendingParts_ok ext cs es "localParameters" kind) as (codecs & exts & -> & Hexts & Hsent & _); [by left|done|].
  exists codecs, exts. split; [done|]. destruct Hl as [-> Hcs _]. rewrite canSend_ok by done.
  destruct (first_of_kind kind cs) as [c|].
  - split; [|by eauto]. destruct Hsent as [_ (media & [[-> _]|(rtx & apt & -> & _)])]; done.
  - subst. by split; [|auto].
Qed.

(** Sending parameters.  With loaded capabilities, for every kind the
    sending parameters exist; [canSend] says exactly whether they contain a
    codec; if so there is one media codec, alone or followed by an RTX codec
    whose apt is the payload type of the media codec, all accepted by
    [validateRtpCodecParameters]; the header extensions are in normal form. *)
Theorem sending_parameters_valid l0 r0 localCaps remoteCaps :
  validateRtpCapabilities l0 = (Ok tt, localCaps) -> validateRtpCapabilities r0 = (Ok tt, remoteCaps) ->
  loadable localCaps remoteCaps = true ->
  exists ext s', getExtendedRtpCapabilities (l0, r0) = (Ok ext, s') /\
    forall kind, exists codecs exts,
      getSendingRtpParameters kind ext = Ok (rtpParameters JNull codecs exts [] (JObject [])) /\
      canSend kind ext = Ok (negb (json_empty (JArray codecs))) /\
      (codecs = [] \/ exists lpt, sent_codecs kind lpt codecs) /\
      Forall (fun e => normalRtpHeaderExtensionParameters e = true) exts.
Proof.
  intros Vl Vr Hload. destruct (getExtended_loaded _ _ _ _ Vl Vr Hload) as (ext & s' & cs & es & He & Hl).
  exists ext, s'. split; [done|]. intros kind. by eapply sending_parameters_ok.
Qed.

(** ** Congestion control feedback *)

Definition fb_type (fb : json) : string := match member "type" fb with JString s => s | _ => "" end.
Definition has_uri (uri : string) (exts : list json) : bool :=
  existsb (fun e => json_eqb (member "uri" e) (JString uri)) exts.
Definition keeps (exts : list json) (fb : json) : bool :=
  if String.eqb (fb_type fb) "transport-cc" then has_uri transportCcUri exts
  else if String.eqb (fb_type fb) "goog-remb" then negb (has_uri transportCcUri exts) && has_uri absSendTimeUri exts
  else true.

Lemma fb_type_ok fb : normalRtcpFeedback fb = true -> ref_get "type" fb = Ok (JString (fb_type fb)).
Proof.
  unfold normalRtcpFeedback. rewrite !andb_true_iff. intros [[Ho Ht] _]. unfold fb_type.
  pose proof (key_ok_member _ _ _ Ht) as Hs. unfold key_ok in Ht.
  apply negb_true_iff, missing_false in Ht as (v & Hv & _). unfold member in *. rewrite Hv in *.
  cbn [from_option id] in *. rewrite (ref_get_find _ _ _ Hv). by destruct v.
Qed.

Lemma eraseFeedback_ok types l : forallb normalRtcpFeedback l = true ->
  eraseFeedback types l = Ok (List.filter (fun fb => negb (existsb (String.eqb (fb_type fb)) types)) l).
Proof.
  induction l as [|fb l IH]; [done|]. cbn [forallb eraseFeedback List.filter]. intros [Hfb Hl]%andb_prop.
  rewrite (fb_type_ok _ Hfb). cbn [obind get_string]. rewrite (IH Hl). cbn [obind].
  by destruct (existsb _ types).
Qed.

Lemma extHasUri_ok uri e : normalRtpHeaderExtensionParameters e = true ->
  extHasUri uri e = Ok (json_eqb (member "uri" e) (JString uri)).
Proof.
  unfold normalRtpHeaderExtensionParameters. rewrite !andb_true_iff. intros [[[[_ Hu] _] _] _].
  pose proof (key_ok_member _ _ _ Hu) as Hs. unfold key_ok in Hu.
  apply negb_true_iff, missing_false in Hu as (v & Hv & _). unfold extHasUri, member in *. rewrite Hv in *.
  cbn [from_option id] in *. rewrite (ref_get_find _ _ _ Hv). by destruct v.
Qed.

Lemma find_uri_ok uri exts : Forall (fun e => normalRtpHeaderExtensionParameters e = true) exts ->
  exists it, ofind_if (extHasUri uri) exts = Ok it /\ bool_decide (is_Some it) = has_uri uri exts.
Proof.
  induction 1 as [|e exts He _ IH]; [by exists None|]. cbn [ofind_if has_uri existsb].
  rewrite (extHasUri_ok _ _ He). cbn [obind]. destruct (json_eqb _ _); [by exists (Some e)|exact IH].
Qed.

Lemma omapM_Forall2 {A B} (f : A -> outcome B) (P : A -> B -> Prop) l :
  Forall (fun x => exists y, f x = Ok y /\ P x y) l -> exists ys, omapM f l = Ok ys /\ Forall2 P l ys.
Proof.
  induction 1 as [|x l (y & Hy & HP) _ (ys & IH & Hys)]; cbn; [by exists []|].
  rewrite Hy, IH. exists (y :: ys). split; [done|]. by constructor.
Qed.

Lemma eraseCodecFeedback_ok types (keep : json -> bool) c l :
  find "rtcpFeedback" c = Some (JArray l) -> forallb normalRtcpFeedback l = true ->
  (forall fb, keep fb = negb (existsb (String.eqb (fb_type fb)) types)) ->
  exists c', eraseCodecFeedback types c = Ok c' /\
    feedback c' = List.filter keep (feedback c) /\ (forall k, k <> "rtcpFeedback" -> find k c' = find k c).
Proof.
  intros Hf Hn Hk. unfold eraseCodecFeedback. rewrite (ref_get_find _ _ _ Hf). cbn [obind].
  rewrite eraseFeedback_ok by done. cbn [obind]. eexists. split; [done|].
  destruct c as [| | | | | | |o]; try done. unfold feedback, array_at, set_key, at_key. cbn [put snd find] in *.
  rewrite obj_lookup_insert, String.eqb_refl, Hf. split.
  - apply List.filter_ext. intros fb. by rewrite Hk.
  - intros k Hk'. rewrite obj_lookup_insert. by destruct (String.eqb_spec k "rtcpFeedback").
Qed.

Lemma remote_parameters_ok ext cs es kind : loaded ext cs es -> exists codecs codecs' exts,
  sendingParts "remoteParameters" kind ext = Ok (codecs, exts) /\
  getSendingRemoteRtpParameters kind ext = Ok (rtpParameters JNull codecs' exts [] (JObject [])) /\
  Forall2 (fun c c' => feedback c' = List.filter (keeps exts) (feedback c) /\
                       forall k, k <> "rtcpFeedback" -> find k c' = find k c) codecs codecs'.
Proof.
  intros Hl. unfold getSendingRemoteRtpParameters.
  destruct (sendingParts_ok ext cs es "remoteParameters" kind) as (codecs & exts & -> & Hexts & _ & Hfb); [by right|done|].
  cbn [obind]. destruct (find_uri_ok transportCcUri exts Hexts) as (it & -> & Hit). cbn [obind].
  set (types := match it with Some _ => _ | None => _ end).
  assert (exists ts, types = Ok ts /\ forall fb, keeps exts fb = negb (existsb (String.eqb (fb_type fb)) ts)) as (ts & -> & Hts).
  { unfold types, keeps. destruct it as [e|].
    - rewrite <- Hit. eexists. split; [done|]. intros fb. cbn -[fb_type].
      destruct (String.eqb_spec (fb_type fb) "transport-cc") as [->|]; [done|].
      by destruct (String.eqb (fb_type fb) "goog-remb").
    - destruct (find_uri_ok absSendTimeUri exts Hexts) as (it' & -> & Hit'). cbn [obind].
      rewrite <- Hit, <- Hit'. eexists. split; [done|]. intros fb.
      destruct it'; cbn -[fb_type]; destruct (String.eqb (fb_type fb) "transport-cc"); try done;
        by destruct (String.eqb (fb_type fb) "goog-remb"). }
  cbn [obind]. edestruct (omapM_Forall2 (eraseCodecFeedback ts)) as (codecs' & -> & Hcs').
  { eapply Forall_impl; [exact Hfb|]. intros c (l & Hf & Hn). by eapply eraseCodecFeedback_ok. }
  cbn [obind]. by exists codecs, codecs', exts.
Qed.

(** Congestion control.  With loaded capabilities, the parameters sent to
    the remote side exist for every kind.  In each codec exactly the feedback
    of the congestion control in use is kept: transport-cc only with the
    transport-wide-cc header extension, goog-remb only without it and with the
    abs-send-time extension (so never both), and every other entry always; no
    other member of the codec changes. *)
Theorem remote_parameters_one_congestion_control l0 r0 localCaps remoteCaps :
  validateRtpCapabilities l0 = (Ok tt, localCaps) -> validateRtpCapabilities r0 = (Ok tt, remoteCaps) ->
  loadable localCaps remoteCaps = true ->
  exists ext s', getExtendedRtpCapabilities (l0, r0) = (Ok ext, s') /\
    forall kind, exists codecs codecs' exts,
      sendingParts "remoteParameters" kind ext = Ok (codecs, exts) /\
      getSendingRemoteRtpParameters kind ext = Ok (rtpParameters JNull codecs' exts [] (JObject [])) /\
      Forall2 (fun c c' => feedback c' = List.filter (keeps exts) (feedback c) /\
                           forall k, k <> "rtcpFeedback" -> find k c' = find k c) codecs codecs'.
Proof.
  intros Vl Vr Hload. destruct (getExtended_loaded _ _ _ _ Vl Vr Hload) as (ext & s' & cs & es & He & Hl).
  exists ext, s'. split; [done|]. intros kind. by eapply remote_parameters_ok.
Qed.

(** ** Receiving *)

(** Parameters in normal form. *)
Lemma normal_parameters_arrays p : normalRtpParameters p = true ->
  is_object p = true /\
  find "codecs" p = Some (JArray (codecs_of p)) /\ find "headerExtensions" p = Some (JArray (extensions_of p)) /\
  Forall (fun c => normalRtpCodecParameters c = true) (codecs_of p) /\
  Forall (fun e => normalRtpHeaderExtensionParameters e = true) (extensions_of p).
Proof.
  unfold normalRtpParameters. rewrite !andb_true_iff. intros [[[[[Ho _] Hc] He] _] _].
  unfold key_ok in Hc, He. apply negb_true_iff, missing_false in Hc as (v & Hv & Hc), He as (w & Hw & He).
  unfold codecs_of, extensions_of, array_at. rewrite Hv, Hw.
  destruct v as [| | | | | |l|]; try done. destruct w as [| | | | | |l'|]; try done.
  split_and!; try done; by apply Forall_forallb.
Qed.

Lemma payloadType_present c : normalRtpCodecParameters c = true -> find "payloadType" c = Some (member "payloadType" c).
Proof.
  unfold normalRtpCodecParameters, member. destruct (mime_kind c); [|done]. intros [H _]%andb_prop.
  unfold key_ok in H. by apply negb_true_iff, missing_false in H as (v & -> & _).
Qed.

(** [canReceive] validates the parameters in place and then answers
    exactly whether some extended codec has the payload type of the first
    codec; without codecs the answer is no. *)
Theorem canReceive_first_payload_type ext p p' :
  validateRtpParameters p = (Ok tt, p') ->
  array_at "codecs" ext = Some (codecs_of ext) ->
  forallb (contains "remotePayloadType") (codecs_of ext) = true ->
  canReceive ext p =
  (Ok (match codecs_of p' with
       | [] => false
       | c :: _ => existsb (fun x => json_eqb (member "remotePayloadType" x) (member "payloadType" c)) (codecs_of ext)
       end), p').
Proof.
  intros Hv Hext Hrpt. pose proof (validator_wp _ _ validateRtpParameters_validator p) as Hn.
  unfold wp in Hn. rewrite Hv in Hn. destruct (normal_parameters_arrays _ Hn) as (Ho & Hc & _ & Hcs & _).
  unfold canReceive. rewrite (bind_ok _ _ _ _ _ Hv). destruct p' as [| | | | | | |o]; try done.
  rewrite (bind_ok _ _ _ _ _ (get_key_present _ _ _ Hc)).
  destruct Hcs as [|c cs Hpt _]; [done|]. cbn [json_empty].
  apply payloadType_present in Hpt.
  assert ((at_idx 0 get (JArray (c :: cs))).1 = Ok c) as -> by (cbn; by destruct cs).
  rewrite lift_bind. unfold array_at in Hext. destruct (find "codecs" ext) as [[| | | | | |l|]|] eqn:E; try done.
  simplify_eq. rewrite (idx_find _ _ _ E), lift_bind, (ref_get_find _ _ _ Hpt), lift_bind. cbn [elems].
  set (pt := member "payloadType" c).
  rewrite (ofind_if_list_find _ (fun x => json_eqb (member "remotePayloadType" x) pt)).
  - unfold bind, lift, ret. do 2 f_equal. clear. induction (codecs_of ext) as [|x l IH]; [done|].
    rewrite list_find_bool. cbn [existsb]. destruct (json_eqb _ pt); [done|].
    rewrite orb_false_l, <- IH. by destruct (list_find _ l) as [[]|].
  - apply Forall_forallb in Hrpt. eapply Forall_impl; [exact Hrpt|]. intros x. unfold contains, member.
    destruct (find "remotePayloadType" x) as [v|] eqn:Ev; [|done]. by rewrite (idx_find _ _ _ Ev).
Qed.

(** ** The probator *)

Definition probator_extension (e : json) : bool :=
  json_eqb (member "uri" e) (JString absSendTimeUri) || json_eqb (member "uri" e) (JString transportCcUri).

Lemma isProbatorExt_ok e : normalRtpHeaderExtensionParameters e = true ->
  isProbatorExt e = Ok (probator_extension e).
Proof.
  unfold normalRtpHeaderExtensionParameters. rewrite !andb_true_iff. intros [[[[_ Hu] _] _] _].
  unfold key_ok in Hu. apply negb_true_iff, missing_false in Hu as (v & Hv & _).
  unfold isProbatorExt, probator_extension, member. by rewrite (ref_get_find _ _ _ Hv), Hv.
Qed.

Lemma ofilter_ok {A} (p : A -> outcome bool) (q : A -> bool) l :
  Forall (fun x => p x = Ok (q x)) l -> ofilter p l = Ok (List.filter q l).
Proof. induction 1 as [|x l Hx _ IH]; cbn; [done|]. rewrite Hx. cbn. rewrite IH. cbn. by destruct (q x). Qed.

Definition probator_parameters (c : json) (es : list json) : json :=
  rtpParameters (JString ProbatorMid) [c] es [mk_obj [("ssrc", JUint ProbatorSsrc)]]
    (mk_obj [("cname", JString "probator")]).

Lemma wp_deref_run k (m : M json unit) v v' (Q : unit -> json -> Prop) E o :
  obj_lookup k o = Some v -> m v = (Ok tt, v') -> Q tt (JObject (obj_insert k v' o)) ->
  wp (deref k m) Q E (JObject o).
Proof. intros Hk Hm HQ. eapply wp_deref; [exact Hk|]. unfold wp. by rewrite Hm. Qed.

Lemma probator_accepted c es : normalRtpCodecParameters c = true ->
  Forall (fun e => normalRtpHeaderExtensionParameters e = true) es ->
  accepts validateRtpParameters (probator_parameters c es).
Proof.
  intros Hc Hes%Forall_forallb. unfold accepts, validateRtpParameters.
  assert (exists o, probator_parameters c es = JObject o /\
    obj_lookup "mid" o = Some (JString ProbatorMid) /\ obj_lookup "codecs" o = Some (JArray [c]) /\
    obj_lookup "headerExtensions" o = Some (JArray es) /\
    obj_lookup "encodings" o = Some (JArray [mk_obj [("ssrc", JUint ProbatorSsrc)]]) /\
    obj_lookup "rtcp" o = Some (mk_obj [("cname", JString "probator")]))
    as (o & -> & Hmid & Hco & Hhe & Hen & Hrt) by (eexists; split; [reflexivity|by split_and!]).
  do 4 wp_step; [done|]. cbn [find]. rewrite Hmid, Hco, Hhe, Hen, Hrt. wp_accept.
  apply (wp_deref_for_range_fixed validateRtpCodecParameters_validator).
  { rewrite Hco. cbn. by rewrite Hc. }
  wp_accept. apply (wp_deref_for_range_fixed validateRtpHeaderExtensionParameters_validator).
  { rewrite Hhe. cbn. by rewrite Hes. }
  wp_accept. eapply wp_deref_run; [exact Hen|vm_compute; reflexivity|].
  wp_accept. eapply wp_deref_run; [obj_simpl; exact Hrt|vm_compute; reflexivity|done].
Qed.

(** The probator.  For video parameters that pass validation and have a
    codec, [generateProbatorRtpParameters] returns parameters with the mid and
    the cname "probator", the first codec, the two bandwidth estimation
    extensions that are there, and the fixed SSRC; they pass validation. *)
Theorem probator_parameters_valid p p' c cs :
  validateRtpParameters p = (Ok tt, p') -> codecs_of p' = c :: cs ->
  exists params', 
    generateProbatorRtpParameters p =
      Ok (probator_parameters c (List.filter probator_extension (extensions_of p'))) /\
    validateRtpParameters (probator_parameters c (List.filter probator_extension (extensions_of p'))) =
      (Ok tt, params').
Proof.
  intros Hv Hcs. pose proof (validator_wp _ _ validateRtpParameters_validator p) as Hn.
  unfold wp in Hn. rewrite Hv in Hn. destruct (normal_parameters_arrays _ Hn) as (_ & Hc & He & Hnc & Hne).
  rewrite Hcs in Hc, Hnc. inversion_clear Hnc as [|?? Hc1 _].
  destruct (accepts_result validateRtpParameters
    (probator_parameters c (List.filter probator_extension (extensions_of p')))) as [params' Ha].
  { apply probator_accepted; [done|]. rewrite Forall_forall in Hne |- *. intros e He'.
    apply Hne, list_elem_of_In. by apply list_elem_of_In, filter_In in He' as [? _]. }
  exists params'. split; [|exact Ha]. unfold generateProbatorRtpParameters. rewrite Hv. cbn [obind].
  rewrite (ref_get_find _ _ _ Hc). cbn [obind].
  assert ((at_idx 0 get (JArray (c :: cs))).1 = Ok c) as -> by (cbn; by destruct cs). cbn [obind].
  rewrite (ref_get_find _ _ _ He). cbn [obind elems].
  rewrite (ofilter_ok _ probator_extension); [done|].
  eapply Forall_impl; [exact Hne|]. apply isProbatorExt_ok.
Qed.

(** ** Witnesses *)

Lemma recv_capabilities_valid_witness :
  exists ext s' caps caps',
    getExtendedRtpCapabilities (sample_local_caps, sample_remote_caps) = (Ok ext, s') /\
    getRecvRtpCapabilities ext = Ok caps /\ validateRtpCapabilities caps = (Ok tt, caps').
Proof.
  refine (recv_capabilities_valid sample_local_caps sample_remote_caps (validateRtpCapabilities sample_local_caps).2
    (validateRtpCapabilities sample_remote_caps).2 _ _ _); vm_compute; reflexivity.
Defined.

Lemma sending_parameters_valid_witness :
  exists ext s', getExtendedRtpCapabilities (sample_local_caps, sample_remote_caps) = (Ok ext, s') /\
    forall kind, exists codecs exts,
      getSendingRtpParameters kind ext = Ok (rtpParameters JNull codecs exts [] (JObject [])) /\
      canSend kind ext = Ok (negb (json_empty (JArray codecs))) /\
      (codecs = [] \/ exists lpt, sent_codecs kind lpt codecs) /\
      Forall (fun e => normalRtpHeaderExtensionParameters e = true) exts.
Proof.
  refine (sending_parameters_valid sample_local_caps sample_remote_caps (validateRtpCapabilities sample_local_caps).2
    (validateRtpCapabilities sample_remote_caps).2 _ _ _); vm_compute; reflexivity.
Defined.

Lemma remote_parameters_one_congestion_control_witness :
  exists ext s', getExtendedRtpCapabilities (sample_local_caps, sample_remote_caps) = (Ok ext, s').
Proof.
  destruct (remote_parameters_one_congestion_control sample_local_caps sample_remote_caps
    (validateRtpCapabilities sample_local_caps).2 (validateRtpCapabilities sample_remote_caps).2)
    as (ext & s' & H & _); [vm_compute; reflexivity..|]. by exists ext, s'.
Defined.

Definition sample_extended : json :=
  match (getExtendedRtpCapabilities (sample_local_caps, sample_remote_caps)).1 with Ok e => e | _ => JNull end.
Definition sample_parameters : json := mk_obj
  [ ("mid", JString "0");
    ("codecs", JArray [ mk_obj [ ("mimeType", JString "video/VP8"); ("payloadType", JInt 101); ("clockRate", JInt 90000) ] ]);
    ("headerExtensions", JArray [ mk_obj [("uri", JString absSendTimeUri); ("id", JInt 4)];
                                  mk_obj [("uri", JString "urn:3gpp:video-orientation"); ("id", JInt 6)] ]) ].

Lemma canReceive_first_payload_type_witness :
  canReceive sample_extended sample_parameters = (Ok true, (validateRtpParameters sample_parameters).2).
Proof.
  rewrite (canReceive_first_payload_type sample_extended sample_parameters
    (validateRtpParameters sample_parameters).2); vm_compute; reflexivity.
Defined.

Lemma probator_parameters_valid_witness :
  exists c cs params', codecs_of (validateRtpParameters sample_parameters).2 = c :: cs /\
    generateProbatorRtpParameters sample_parameters =
      Ok (probator_parameters c (List.filter probator_extension (extensions_of (validateRtpParameters sample_parameters).2))) /\
    validateRtpParameters (probator_parameters c
      (List.filter probator_extension (extensions_of (validateRtpParameters sample_parameters).2))) = (Ok tt, params').
Proof.
  destruct (codecs_of (validateRtpParameters sample_parameters).2) as [|c cs] eqn:E; [by vm_compute in E|].
  destruct (probator_parameters_valid sample_parameters (validateRtpParameters sample_parameters).2 c cs)
    as (params' & H1 & H2); [vm_compute; reflexivity|exact E|].
  by exists c, cs, params'.
Defined.

(** ** Where the code falls short of its documentation *)

Definition caps_unknown_direction : json := mk_obj
  [ ("headerExtensions", JArray
      [ mk_obj [("kind", JString "video"); ("uri", JString transportCcUri); ("preferredId", JUint 5);
                ("direction", JString "both")] ]) ].

(** A header extension with a direction outside the four known ones passes
    validation; its extended form has no direction, and reading it is undefined
    behaviour. *)
Theorem unknown_direction_undefined :
  match getExtendedRtpCapabilities (caps_unknown_direction, caps_unknown_direction) with
  | (Ok ext, _) => getRecvRtpCapabilities ext = Undef /\ getSendingRtpParameters "video" ext = Undef
  | _ => False
  end.
Proof. vm_compute. by split. Qed.

Definition caps_without_payload_type : json := mk_obj
  [ ("codecs", JArray [ mk_obj [("kind", JString "video"); ("mimeType", JString "video/VP8"); ("clockRate", JUint 90000)] ]) ].

(** A codec without preferredPayloadType passes validation, but the receiving
    capabilities derived from it do not. *)
Theorem missing_payload_type_rejected_later :
  (validateRtpCapabilities caps_without_payload_type).1 = Ok tt /\
  match getExtendedRtpCapabilities (caps_without_payload_type, caps_without_payload_type) with
  | (Ok ext, _) =>
    match getRecvRtpCapabilities ext with
    | Ok caps => (validateRtpCapabilities caps).1 = Throw (type_error "invalid codec.preferredPayloadType")
    | _ => False
    end
  | _ => False
  end.
Proof. vm_compute. by split. Qed.

Definition caps_mixed_case : json := mk_obj
  [ ("codecs", JArray [ sample_codec "audio" "AUDIO/opus" 111 48000 [JUint 2] [] [] ]) ].

(** The mime type expression ignores case but the kind keeps it: an AUDIO
    codec loses its channels and cannot be sent as audio. *)
Theorem mixed_case_kind_not_sendable :
  match getExtendedRtpCapabilities (caps_mixed_case, caps_mixed_case) with
  | (Ok ext, _) => canSend "audio" ext = Ok false /\ forallb (contains "channels") (codecs_of ext) = false
  | _ => False
  end.
Proof. vm_compute. by split. Qed.
