(* ===== verification/MediaSection.v ===== *)
(** * sdp/MediaSection.cpp

    A media section owns its media object; the two subclasses differ in the
    constructor and in [SetDtlsRole].  The members of the answer parameters, and
    the payload types of the offered codecs, are read through non-const
    references: a missing one reads as a null ([ref_get]).  The null that such a
    read also leaves in the parameters is not recorded: it concerns only members
    that validated parameters have. *)

From stdpp Require Import base list strings pretty.
From Stdlib Require Import ZArith Lia Ascii.
From S2P Require Import Prelude Json Text OrtcCaps Utils.

Inductive section_class := AnswerSection | OfferSection.
Record MediaSection := mkSection { section_kind : section_class; mediaObject : json }.

(** [this->mediaObject[k] = v]: the media object is always an object. *)
Definition jset (k : string) (v : json) (j : json) : json := (set_key k v j).2.
Definition jerase (k : string) (j : json) : json := (erase_key k j).2.
Definition with_object (f : json -> json) (s : MediaSection) : MediaSection :=
  mkSection (section_kind s) (f (mediaObject s)).

(** ** Operations common to both classes *)

Definition candidateObject (candidate : json) : outcome json :=
  let! foundation := idx "foundation" candidate in
  let! ip := idx "ip" candidate in
  let! port := idx "port" candidate in
  let! priority := idx "priority" candidate in
  let! protocol := idx "protocol" candidate in
  let! type := idx "type" candidate in
  let c := jset "type" type (jset "transport" protocol (jset "priority" priority (jset "port" port
           (jset "ip" ip (jset "foundation" foundation (jset "component" (JInt 1) (JObject []))))))) in
  if contains "tcpType" candidate then
    let! tcpType := idx "tcpType" candidate in Ok (jset "tcptype" tcpType c)
  else Ok c.

Definition SetIceParametersObject (iceParameters mediaObject : json) : outcome json :=
  let! ufrag := idx "usernameFragment" iceParameters in
  let! pwd := idx "password" iceParameters in
  Ok (jset "icePwd" pwd (jset "iceUfrag" ufrag mediaObject)).

(** The base class constructor. *)
Definition newMediaObject (iceParameters iceCandidates : json) : outcome json :=
  let! m := SetIceParametersObject iceParameters (JObject []) in
  let! candidates := omapM candidateObject (elems iceCandidates) in
  Ok (jset "iceOptions" (JString "renomination")
       (jset "endOfCandidates" (JString "end-of-candidates")
         (jset "candidates" (JArray candidates) m))).

Definition GetMid (s : MediaSection) : outcome string :=
  let! v := idx "mid" (mediaObject s) in get_string v.
Definition IsClosed (s : MediaSection) : outcome bool :=
  let! v := idx "port" (mediaObject s) in Ok (json_eqb v (JInt 0)).
Definition GetObject (s : MediaSection) : json := mediaObject s.

Definition SetIceParameters (iceParameters : json) (s : MediaSection) : outcome MediaSection :=
  let! m := SetIceParametersObject iceParameters (mediaObject s) in Ok (mkSection (section_kind s) m).

Definition disableObject (m : json) : json :=
  jerase "rids" (jerase "simulcast" (jerase "ssrcGroups" (jerase "ssrcs" (jerase "ext"
    (jset "direction" (JString "inactive") m))))).
Definition Disable : MediaSection -> MediaSection := with_object disableObject.

Definition closeObject (m : json) : json :=
  jerase "extmapAllowMixed" (jerase "rids" (jerase "simulcast" (jerase "ssrcGroups" (jerase "ssrcs"
    (jerase "ext" (jset "port" (JInt 0) (jset "direction" (JString "inactive") m))))))).
Definition Close : MediaSection -> MediaSection := with_object closeObject.

(** The setup attribute for a DTLS role; an unknown role sets nothing. *)
Definition set_setup (role : string) (m : json) : json :=
  if String.eqb role "client" then jset "setup" (JString "active") m
  else if String.eqb role "server" then jset "setup" (JString "passive") m
  else if String.eqb role "auto" then jset "setup" (JString "actpass") m
  else m.

(** The two overrides. *)
Definition SetDtlsRole (role : string) (s : MediaSection) : MediaSection :=
  match section_kind s with
  | AnswerSection => with_object (set_setup role) s
  | OfferSection => with_object (jset "setup" (JString "actpass")) s
  end.

(** ** Codec lines *)

(** [^(audio|video)/] is removed from the mime type. *)
Definition getCodecName (codec : json) : outcome string :=
  let! v := idx "mimeType" codec in
  let! mimeType := get_string v in
  Ok (match strip_media mimeType with Some (_, r) => r | None => mimeType end).

(** The value of one codec parameter in an fmtp line. *)
Definition config_value (v : json) : outcome string :=
  match v with
  | JString s => Ok s
  | JFloat f => Ok (print_float (to_float f))
  | _ => if is_number v then let! z := get_int64 v in Ok (pretty z) else Ok ""
  end.

Fixpoint config_loop (config : string) (l : list (string * json)) : outcome string :=
  match l with
  | [] => Ok config
  | (key, value) :: r =>
    let! s := config_value value in
    config_loop ((if String.eqb config "" then config else config +:+ ";") +:+ key +:+ "=" +:+ s) r
  end.

(** [read] is [idx] for const parameters and [ref_get] for non-const ones. *)
Definition reader := string -> json -> outcome json.

Definition rtpLine (read : reader) (codec : json) : outcome json :=
  let! payloadType := read "payloadType" codec in
  let! name := getCodecName codec in
  let! clockRate := read "clockRate" codec in
  let rtp := mk_obj [ ("payload", payloadType); ("codec", JString name); ("rate", clockRate) ] in
  if contains "channels" codec then
    let! v := read "channels" codec in
    let! channels := get_uint8 v in
    Ok (if (1 <? channels)%Z then jset "encoding" (JUint channels) rtp else rtp)
  else Ok rtp.

(** The fmtp line, if there is any parameter. *)
Definition fmtpLine (payloadType codecParameters : json) : outcome (list json) :=
  let fmtp := mk_obj [ ("payload", payloadType) ] in
  let! config := config_loop "" (items codecParameters) in
  Ok (if String.eqb config "" then [] else [ jset "config" (JString config) fmtp ]).

Definition rtcpFbLines (read : reader) (payloadType codec : json) : outcome (list json) :=
  let! fbs := read "rtcpFeedback" codec in
  omapM (fun fb =>
    let! type := read "type" fb in
    let! parameter := read "parameter" fb in
    Ok (mk_obj [ ("payload", payloadType); ("type", type); ("subtype", parameter) ])) (elems fbs).

(** The payload types, separated by blanks. *)
Definition payloadsLine (read : reader) (codecs : list json) : outcome string :=
  let! pts := omapM (fun codec =>
    let! v := read "payloadType" codec in
    let! payloadType := get_uint8 v in Ok (pretty payloadType)) codecs in
  Ok (append_all " " "" pts).

(** ** Codec options in an answer *)

(** An opus option that is set on both the offered and the answered codec. *)
Definition opusOption (codecOptions : json) (li : nat) (name offerKey answerKey : string)
    (codecParameters : json) : M json json :=
  match find name codecOptions with
  | None => ret codecParameters
  | Some v =>
    b <- lift (get_bool v) ;;
    let n := JInt (if b : bool then 1 else 0) in
    at_key "codecs" (at_idx li (at_key "parameters" (set_key offerKey n))) ;;;
    let '(r, p) := set_key answerKey n codecParameters in
    lift r ;;; ret p
  end.

(** A number option that is set on the answered codec only. *)
Definition uintOption (codecOptions : json) (name key : string) (codecParameters : json) : M json json :=
  match find name codecOptions with
  | None => ret codecParameters
  | Some v =>
    n <- lift (get_uint32 v) ;;
    let '(r, p) := set_key key (JUint n) codecParameters in
    lift r ;;; ret p
  end.

(** The state is [offerRtpParameters]; the result is [codecParameters]. *)
Definition applyCodecOptions (codecOptions codec codecParameters : json) : M json json :=
  offerCodecs <- get_key "codecs" ;;
  payloadType <- lift (ref_get "payloadType" codec) ;;
  it <- lift (ofind_idx (fun offerCodec => let! v := ref_get "payloadType" offerCodec in
                                           Ok (json_eqb v payloadType)) (elems offerCodecs) 0) ;;
  match it with
  | None => undef
  | Some li =>
    v <- lift (ref_get "mimeType" codec) ;;
    s <- lift (get_string v) ;;
    let mimeType := lower s in
    if String.eqb mimeType "audio/opus" then
      p <- opusOption codecOptions li "opusStereo" "sprop-stereo" "stereo" codecParameters ;;
      p <- opusOption codecOptions li "opusFec" "useinbandfec" "useinbandfec" p ;;
      p <- opusOption codecOptions li "opusDtx" "usedtx" "usedtx" p ;;
      uintOption codecOptions "opusMaxPlaybackRate" "maxplaybackrate" p
    else if existsb (String.eqb mimeType) ["video/vp8"; "video/vp9"; "video/h264"; "video/h265"] then
      p <- uintOption codecOptions "videoGoogleStartBitrate" "x-google-start-bitrate" codecParameters ;;
      p <- uintOption codecOptions "videoGoogleMaxBitrate" "x-google-max-bitrate" p ;;
      uintOption codecOptions "videoGoogleMinBitrate" "x-google-min-bitrate" p
    else ret codecParameters
  end.

(** The lines of one codec: rtp, fmtp and rtcp-fb. *)
Definition codec_lines := (json * list json * list json)%type.

Definition answerCodec (codecOptions : option json) (codec : json) : M json codec_lines :=
  rtp <- lift (rtpLine ref_get codec) ;;
  codecParameters <- lift (ref_get "parameters" codec) ;;
  p <- match codecOptions with
       | Some o => if json_empty o then ret codecParameters else applyCodecOptions o codec codecParameters
       | None => ret codecParameters
       end ;;
  payloadType <- lift (ref_get "payloadType" codec) ;;
  fmtp <- lift (fmtpLine payloadType p) ;;
  fbs <- lift (rtcpFbLines ref_get payloadType codec) ;;
  ret (rtp, fmtp, fbs).

Fixpoint answerCodecs (codecOptions : option json) (codecs : list json) : M json (list codec_lines) :=
  match codecs with
  | [] => ret []
  | c :: r => l <- answerCodec codecOptions c ;; ls <- answerCodecs codecOptions r ;; ret (l :: ls)
  end.

(** Set the arrays the codec loop has filled. *)
Definition set_codec_lines (direction : string) (ls : list codec_lines) (payloads : string) (m : json) : json :=
  jset "payloads" (JString payloads)
   (jset "fmtp" (JArray (concat (map (fun l => l.1.2) ls)))
    (jset "rtcpFb" (JArray (concat (map snd ls)))
     (jset "rtp" (JArray (map (fun l => l.1.1) ls))
      (jset "direction" (JString direction) m)))).

(** ** The rest of an answer *)

(** Header extensions that the offer has too. *)
Fixpoint answerExts (offerMediaObject : json) (exts : list json) : outcome (list json) :=
  match exts with
  | [] => Ok []
  | ext :: r =>
    let! localExts := idx "ext" offerMediaObject in
    let! it := ofind_if (fun localExt =>
      let! u := idx "uri" localExt in
      let! v := ref_get "uri" ext in Ok (json_eqb u v)) (elems localExts) in
    match it with
    | None => answerExts offerMediaObject r
    | Some _ =>
      let! uri := ref_get "uri" ext in
      let! id := ref_get "id" ext in
      let! rest := answerExts offerMediaObject r in
      Ok (mk_obj [ ("uri", uri); ("value", id) ] :: rest)
    end
  end.

Fixpoint answerRids (rids : list json) : outcome (list json) :=
  match rids with
  | [] => Ok []
  | rid :: r =>
    let! direction := idx "direction" rid in
    if negb (json_eqb direction (JString "send")) then answerRids r else
    let! id := idx "id" rid in
    let! rest := answerRids r in
    Ok (mk_obj [ ("id", id); ("direction", JString "recv") ] :: rest)
  end.

(** Simulcast; [ridsIt->is_array()] dereferences [end()] without rids. *)
Definition answerSimulcast (offerMediaObject m : json) : outcome json :=
  match find "simulcast" offerMediaObject with
  | Some simulcast =>
    if is_object simulcast then
      let! ridsIt := find_deref "rids" offerMediaObject in
      if is_array ridsIt then
        let! list1 := idx "list1" simulcast in
        let! rids := answerRids (elems ridsIt) in
        Ok (jset "rids" (JArray rids)
             (jset "simulcast" (mk_obj [ ("dir1", JString "recv"); ("list1", list1) ]) m))
      else Ok m
    else Ok m
  | None => Ok m
  end.

Definition connectionObject : json := mk_obj [ ("ip", JString "127.0.0.1"); ("version", JInt 4) ].

(** The members every answer has, on top of the base class. *)
Definition answerBase (m dtlsParameters offerMediaObject : json) (type : string) : outcome json :=
  let! mid := idx "mid" offerMediaObject in
  let! protocol := idx "protocol" offerMediaObject in
  let m := jset "port" (JInt 7) (jset "connection" connectionObject (jset "protocol" protocol
           (jset "type" (JString type) (jset "mid" mid m)))) in
  let! v := idx "role" dtlsParameters in
  let! dtlsRole := get_string v in
  Ok (set_setup dtlsRole m).

(** An audio or video answer.  The state is [offerRtpParameters]. *)
Definition answerMedia (offerMediaObject answerRtpParameters : json) (codecOptions : option json) (m : json)
    : M json json :=
  codecs <- lift (ref_get "codecs" answerRtpParameters) ;;
  ls <- answerCodecs codecOptions (elems codecs) ;;
  payloads <- lift (payloadsLine ref_get (elems codecs)) ;;
  let m := set_codec_lines "recvonly" ls payloads m in
  headerExtensions <- lift (ref_get "headerExtensions" answerRtpParameters) ;;
  exts <- lift (answerExts offerMediaObject (elems headerExtensions)) ;;
  let m := jset "ext" (JArray exts) m in
  let m := match find "extmapAllowMixed" offerMediaObject with
           | Some (JString _) => jset "extmapAllowMixed" (JString "extmap-allow-mixed") m
           | _ => m
           end in
  m <- lift (answerSimulcast offerMediaObject m) ;;
  ret (jset "rtcpRsize" (JString "rtcp-rsize") (jset "rtcpMux" (JString "rtcp-mux") m)).

(** A data channel section, in an answer or an offer. *)
Definition applicationMedia (sctpParameters m : json) : outcome json :=
  let! port := idx "port" sctpParameters in
  let! maxMessageSize := idx "maxMessageSize" sctpParameters in
  Ok (jset "maxMessageSize" maxMessageSize (jset "sctpPort" port
       (jset "payloads" (JString "webrtc-datachannel") m))).

(** The constructor.  The state is [offerRtpParameters]. *)
Definition AnswerMediaSection (iceParameters iceCandidates dtlsParameters sctpParameters offerMediaObject
    answerRtpParameters : json) (codecOptions : option json) : M json MediaSection :=
  m <- lift (newMediaObject iceParameters iceCandidates) ;;
  v <- lift (idx "type" offerMediaObject) ;;
  type <- lift (get_string v) ;;
  m <- lift (answerBase m dtlsParameters offerMediaObject type) ;;
  m <- (if String.eqb type "audio" || String.eqb type "video"
        then answerMedia offerMediaObject answerRtpParameters codecOptions m
        else if String.eqb type "application" then lift (applicationMedia sctpParameters m)
        else ret m) ;;
  ret (mkSection AnswerSection m).

(** ** Offers *)

Definition offerCodec (codec : json) : outcome codec_lines :=
  let! rtp := rtpLine idx codec in
  let! codecParameters := idx "parameters" codec in
  let! payloadType := idx "payloadType" codec in
  let! fmtp := fmtpLine payloadType codecParameters in
  let! fbs := rtcpFbLines idx payloadType codec in
  Ok (rtp, fmtp, fbs).

Definition offerExt (ext : json) : outcome json :=
  let! uri := idx "uri" ext in
  let! id := idx "id" ext in
  Ok (mk_obj [ ("uri", uri); ("value", id) ]).

Definition ssrcLine (ssrc : Z) (attribute value : string) : json :=
  mk_obj [ ("id", JUint ssrc); ("attribute", JString attribute); ("value", JString value) ].

(** The ssrc lines and groups of the first encoding. *)
Definition offerSsrcs (offerRtpParameters : json) (streamId trackId : string) : outcome (list json * list json) :=
  let! encodings := idx "encodings" offerRtpParameters in
  let! encoding := idx_nth 0 encodings in
  let! v := idx "ssrc" encoding in
  let! ssrc := get_uint32 v in
  let! rtxSsrc :=
    match find "rtx" encoding with
    | Some rtx => if contains "ssrc" rtx then let! v := idx "ssrc" rtx in get_uint32 v else Ok 0%Z
    | None => Ok 0%Z
    end in
  let! rtcp := idx "rtcp" offerRtpParameters in
  match find "cname" rtcp with
  | Some (JString cname) =>
    let msid := streamId +:+ " " +:+ trackId in
    let lines (s : Z) := [ ssrcLine s "cname" cname; ssrcLine s "msid" msid ] in
    Ok (if (rtxSsrc =? 0)%Z then (lines ssrc, [])
        else (lines ssrc ++ lines rtxSsrc,
              [ mk_obj [ ("semantics", JString "FID");
                         ("ssrcs", JString (pretty ssrc +:+ " " +:+ pretty rtxSsrc)) ] ]))
  | _ => Ok ([], [])
  end.

(** An audio or video offer. *)
Definition offerMedia (offerRtpParameters : json) (streamId trackId : string) (m : json) : outcome json :=
  let! codecs := idx "codecs" offerRtpParameters in
  let! ls := omapM offerCodec (elems codecs) in
  let! payloads := payloadsLine idx (elems codecs) in
  let m := set_codec_lines "sendonly" ls payloads m in
  let! headerExtensions := idx "headerExtensions" offerRtpParameters in
  let! exts := omapM offerExt (elems headerExtensions) in
  let m := jset "rtcpRsize" (JString "rtcp-rsize") (jset "rtcpMux" (JString "rtcp-mux")
           (jset "ext" (JArray exts) m)) in
  let! p := offerSsrcs offerRtpParameters streamId trackId in
  Ok (jset "ssrcGroups" (JArray p.2) (jset "ssrcs" (JArray p.1) m)).

(** The constructor; [dtlsParameters] is not used by the code. *)
Definition OfferMediaSection (iceParameters iceCandidates sctpParameters : json) (mid kind : string)
    (offerRtpParameters : json) (streamId trackId : string) : outcome MediaSection :=
  let! m := newMediaObject iceParameters iceCandidates in
  let protocol := if json_eqb sctpParameters JNull then "UDP/TLS/RTP/SAVPF" else "UDP/DTLS/SCTP" in
  let m := jset "setup" (JString "actpass") (jset "port" (JInt 7) (jset "connection" connectionObject
           (jset "protocol" (JString protocol) (jset "type" (JString kind) (jset "mid" (JString mid) m))))) in
  let! m :=
    if String.eqb kind "audio" || String.eqb kind "video" then offerMedia offerRtpParameters streamId trackId m
    else if String.eqb kind "application" then applicationMedia sctpParameters m
    else Ok m in
  Ok (mkSection OfferSection m).
