(* ===== verification/MediaSectionSpec.v ===== *)
(** * Properties of media sections

    The life cycle of a section (its mid never changes, only [Close] closes
    it), and what the two constructors produce from validated parameters. *)

From stdpp Require Import base list strings pretty.
From Stdlib Require Import ZArith Lia Ascii.
From S2P Require Import Prelude Json Text OrtcValidate OrtcValidateSpec H264 OrtcCaps OrtcMatch OrtcExtended.
From S2P Require Import OrtcDerive Utils MediaSection.

(** ** Members of a media object *)

Lemma jset_object k v j : is_object j = true -> is_object (jset k v j) = true.
Proof. by destruct j. Qed.
Lemma jerase_object k j : is_object j = true -> is_object (jerase k j) = true.
Proof. by destruct j. Qed.

Lemma jset_find k k' v j : is_object j = true ->
  find k' (jset k v j) = if String.eqb k' k then Some v else find k' j.
Proof. destruct j; try done. intros _. unfold jset, set_key, at_key. cbn [put snd find]. apply obj_lookup_insert. Qed.
Lemma jerase_find k k' j : is_object j = true ->
  find k' (jerase k j) = if String.eqb k' k then None else find k' j.
Proof. destruct j; try done. intros _. unfold jerase, erase_key. cbn [snd find]. apply obj_lookup_erase. Qed.

Lemma jset_same k v j : find k j = Some v -> jset k v j = j.
Proof. destruct j; try done. cbn [find]. intros H. unfold jset. by rewrite set_key_fixed. Qed.

Lemma obj_erase_absent {V} k (o : list (string * V)) : obj_lookup k o = None -> obj_erase k o = o.
Proof.
  induction o as [|[k0 v0] o IH]; cbn; [done|]. destruct (String.eqb k k0); [done|]. intros H. by rewrite IH.
Qed.

Lemma jerase_same k j : is_object j = true -> find k j = None -> jerase k j = j.
Proof. destruct j; try done. cbn [find]. intros _ H. unfold jerase, erase_key. cbn. by rewrite obj_erase_absent. Qed.

Create HintDb media discriminated.
#[export] Hint Constants Opaque : media.
#[export] Hint Resolve jset_object jerase_object : media.

(** Push lookups of literal keys through updates of a media object. *)
Ltac media_find := repeat (first [rewrite jset_find by auto 20 with media | rewrite jerase_find by auto 20 with media];
                           eqb_literals).

Definition wf_section (s : MediaSection) : bool :=
  is_object (mediaObject s) && key_ok "mid" is_string (mediaObject s) && contains "port" (mediaObject s) &&
  contains "payloads" (mediaObject s).

(** A section with its mid and whether it is closed; every audio or video
    section has a payloads member. *)
Record section_is (s : MediaSection) (mid : string) (closed : bool) : Prop := {
  si_object : is_object (mediaObject s) = true;
  si_mid : find "mid" (mediaObject s) = Some (JString mid);
  si_port : exists p, find "port" (mediaObject s) = Some p /\ json_eqb p (JInt 0) = closed;
  si_payloads : contains "payloads" (mediaObject s) = true;
}.

Lemma section_is_get s mid closed : section_is s mid closed -> GetMid s = Ok mid /\ IsClosed s = Ok closed.
Proof.
  intros [Ho Hm (p & Hp & <-) _]. unfold GetMid, IsClosed.
  by rewrite (idx_find _ _ _ Hm), (idx_find _ _ _ Hp).
Qed.

Lemma wf_section_is s : wf_section s = true -> exists mid closed, section_is s mid closed.
Proof.
  unfold wf_section, key_ok, contains. rewrite !andb_true_iff, negb_true_iff.
  intros [[[Ho (v & Hv & Hs)%missing_false] Hp] Hpl]. destruct v as [| | | | |mid| |]; try done.
  destruct (find "port" (mediaObject s)) as [p|] eqn:Ep; [|done].
  exists mid, (json_eqb p (JInt 0)). by split; eauto.
Qed.

(** ** The life cycle *)

Lemma Close_is s mid closed : section_is s mid closed -> section_is (Close s) mid true.
Proof.
  intros [Ho Hm (p & Hp & _) Hpl]. unfold Close, with_object, closeObject. unfold contains in *.
  split; cbn [mediaObject]; [auto 20 with media|..]; unfold contains; media_find; [done| |done]. by eexists.
Qed.

Lemma Disable_is s mid closed : section_is s mid closed -> section_is (Disable s) mid closed.
Proof.
  intros [Ho Hm Hp Hpl]. unfold Disable, with_object, disableObject, contains in *.
  split; cbn [mediaObject]; [auto 20 with media|..]; unfold contains; media_find; done.
Qed.

Lemma set_setup_find role k m : is_object m = true -> k <> "setup" ->
  is_object (set_setup role m) = true /\ find k (set_setup role m) = find k m.
Proof.
  intros Hm Hk. unfold set_setup. repeat case_match; (split; [auto with media|]); try done;
    rewrite jset_find by done; by destruct (String.eqb_spec k "setup").
Qed.

Lemma SetDtlsRole_is role s mid closed : section_is s mid closed -> section_is (SetDtlsRole role s) mid closed.
Proof.
  intros [Ho Hm Hp Hpl]. unfold SetDtlsRole, with_object. destruct (section_kind s); split; cbn [mediaObject]; unfold contains in *.
  - by apply (set_setup_find role "mid").
  - by rewrite (proj2 (set_setup_find role "mid" _ Ho ltac:(done))).
  - by rewrite (proj2 (set_setup_find role "port" _ Ho ltac:(done))).
  - by rewrite (proj2 (set_setup_find role "payloads" _ Ho ltac:(done))).
  - auto with media.
  - by media_find.
  - by media_find.
  - by media_find.
Qed.

Lemma SetIceParameters_is ice s mid closed : normalIceParameters ice = true -> section_is s mid closed ->
  exists s', SetIceParameters ice s = Ok s' /\ section_is s' mid closed /\
    section_kind s' = section_kind s /\
    find "iceUfrag" (mediaObject s') = find "usernameFragment" ice /\
    find "icePwd" (mediaObject s') = find "password" ice.
Proof.
  intros Hi [Ho Hm Hp Hpl]. unfold normalIceParameters, key_ok in Hi. unfold contains in Hpl. rewrite !andb_true_iff, !negb_true_iff in Hi.
  destruct Hi as [[[_ (u & Hu & _)%missing_false] (w & Hw & _)%missing_false] _].
  unfold SetIceParameters, SetIceParametersObject. rewrite (idx_find _ _ _ Hu), (idx_find _ _ _ Hw). cbn [obind].
  eexists. split; [done|]. cbn [mediaObject]. split_and!; [split; cbn [mediaObject]; unfold contains|done|..]; media_find; auto with media.
Qed.

(** The members [Disable] and [Close] remove. *)
Definition media_keys : list string := ["ext"; "ssrcs"; "ssrcGroups"; "simulcast"; "rids"].

Lemma Close_idempotent s : is_object (mediaObject s) = true -> Close (Close s) = Close s.
Proof.
  intros Ho. unfold Close, with_object. cbn [mediaObject section_kind]. f_equal.
  unfold closeObject at 1. set (m := closeObject (mediaObject s)).
  assert (is_object m = true) as Hm by (unfold m, closeObject; auto 20 with media).
  rewrite (jset_same "direction") by (unfold m, closeObject; by media_find).
  rewrite (jset_same "port") by (unfold m, closeObject; by media_find).
  assert (forall k, k ∈ ["ext"; "ssrcs"; "ssrcGroups"; "simulcast"; "rids"; "extmapAllowMixed"] -> jerase k m = m) as He.
  { intros k Hk. apply jerase_same; [done|]. unfold m, closeObject. repeat (apply elem_of_cons in Hk as [->|Hk]; [by media_find|]).
    by apply elem_of_nil in Hk. }
  by rewrite !He by (by repeat constructor).
Qed.

(** The life cycle of a media section.  A section has a mid and is open
    or closed.  [Close] closes it for good (closing again changes nothing),
    [Disable] and [SetDtlsRole] neither open nor close it, and so does
    [SetIceParameters], which never fails on validated ICE parameters and sets
    the credentials; none of them changes the mid.  After [Close] and
    [Disable] the direction is inactive and no media description is left. *)
Theorem section_lifecycle s mid closed ice role :
  section_is s mid closed -> normalIceParameters ice = true ->
  section_is (Close s) mid true /\ Close (Close s) = Close s /\
  section_is (Disable s) mid closed /\ section_is (SetDtlsRole role s) mid closed /\
  (exists s', SetIceParameters ice s = Ok s' /\ section_is s' mid closed /\
     find "iceUfrag" (mediaObject s') = find "usernameFragment" ice /\
     find "icePwd" (mediaObject s') = find "password" ice) /\
  Forall (fun f => find "direction" (mediaObject (f s)) = Some (JString "inactive") /\
                   Forall (fun k => find k (mediaObject (f s)) = None) media_keys) [Close; Disable].
Proof.
  intros Hs Hi. pose proof (si_object _ _ _ Hs) as Ho. split_and!.
  - by eapply Close_is.
  - by apply Close_idempotent.
  - by apply Disable_is.
  - by apply SetDtlsRole_is.
  - destruct (SetIceParameters_is ice s mid closed Hi Hs) as (s' & ? & ? & _ & ? & ?). by exists s'.
  - unfold Close, Disable, with_object, closeObject, disableObject, media_keys. repeat constructor; cbn [mediaObject]; by media_find.
Qed.

Definition sample_section : MediaSection := mkSection OfferSection
  (mk_obj [("mid", JString "0"); ("port", JInt 7); ("payloads", JString "101"); ("direction", JString "sendonly"); ("ext", JArray [])]).
Definition sample_ice : json :=
  mk_obj [("usernameFragment", JString "uf"); ("password", JString "pw"); ("iceLite", JBool true)].

Lemma section_lifecycle_witness : section_is (Close sample_section) "0" true.
Proof.
  refine (proj1 (section_lifecycle sample_section "0" false sample_ice "auto" _ eq_refl)).
  split; [reflexivity|reflexivity| |reflexivity]. by exists (JInt 7).
Defined.

(** ** The base class constructor *)

Lemma key_ok_find k p j : key_ok k p j = true -> find k j = Some (member k j) /\ p (member k j) = true.
Proof. unfold key_ok, member. by intros (v & -> & Hv)%negb_true_iff%missing_false. Qed.

Lemma ref_get_member k p j : key_ok k p j = true -> ref_get k j = Ok (member k j).
Proof. intros [H _]%key_ok_find. by apply ref_get_find. Qed.

Lemma idx_member k p j : key_ok k p j = true -> idx k j = Ok (member k j).
Proof. intros [H _]%key_ok_find. by apply idx_find. Qed.

Ltac split_keys :=
  repeat match goal with H : _ && _ = true |- _ => apply andb_prop in H as [? ?] end.

(** The candidate line of a candidate. *)
Definition candidate_of (c l : json) : Prop :=
  find "component" l = Some (JInt 1) /\ find "foundation" l = find "foundation" c /\
  find "ip" l = find "ip" c /\ find "port" l = find "port" c /\ find "priority" l = find "priority" c /\
  find "transport" l = find "protocol" c /\ find "type" l = find "type" c /\ find "tcptype" l = find "tcpType" c.

Lemma candidateObject_ok c : normalIceCandidate c = true ->
  exists l, candidateObject c = Ok l /\ candidate_of c l.
Proof.
  unfold normalIceCandidate. intros H. split_keys. unfold candidateObject, contains.
  repeat match goal with H : key_ok ?k _ c = true |- _ =>
    rewrite (idx_member _ _ _ H); let F := fresh "F" in destruct (key_ok_find _ _ _ H) as [F _]; clear H end.
  cbn [obind]. destruct (find "tcpType" c) as [t|] eqn:Et.
  - rewrite (idx_find _ _ _ Et). cbn [obind]. eexists. split; [done|]. unfold candidate_of.
    rewrite Et. split_and!; media_find; done.
  - eexists. split; [done|]. unfold candidate_of. rewrite Et. split_and!; media_find; done.
Qed.

Lemma newMediaObject_ok ice cands : normalIceParameters ice = true -> normalIceCandidates cands = true ->
  exists m ls, newMediaObject ice cands = Ok m /\ is_object m = true /\
    find "iceUfrag" m = find "usernameFragment" ice /\ find "icePwd" m = find "password" ice /\
    find "candidates" m = Some (JArray ls) /\ Forall2 candidate_of (elems cands) ls.
Proof.
  unfold normalIceParameters, normalIceCandidates. intros H Hc. split_keys.
  destruct cands as [| | | | | |l|]; try done. cbn [array_of elems] in *.
  unfold newMediaObject, SetIceParametersObject.
  repeat match goal with H : key_ok ?k _ ice = true |- _ =>
    rewrite ?(idx_member _ _ _ H); let F := fresh "F" in destruct (key_ok_find _ _ _ H) as [F _]; clear H end.
  cbn [obind elems].
  destruct (omapM_Forall2 candidateObject candidate_of l) as (ls & -> & Hls).
  { apply Forall_forallb in Hc. eapply Forall_impl; [exact Hc|]. apply candidateObject_ok. }
  cbn [obind]. do 2 eexists. split; [done|]. split_and!; [auto 10 with media|by media_find..|].
  by media_find.
Qed.

(** ** Codec lines *)

(** The text of a codec parameter value. *)
Definition value_text (v : json) : string :=
  match ok (config_value v) with Some s => s | None => "" end.
Definition item_text (kv : string * json) : string := kv.1 +:+ "=" +:+ value_text kv.2.

Lemma config_value_ok v : config_value v = Ok (value_text v).
Proof. unfold value_text. by destruct v. Qed.

Lemma config_loop_ok acc l : config_loop acc l = Ok (append_all ";" acc (map item_text l)).
Proof.
  revert acc. induction l as [|[k v] l IH]; intros acc; [done|]. cbn [config_loop].
  by rewrite config_value_ok; cbn [obind]; rewrite IH.
Qed.

Lemma append_all_join d acc v : acc <> "" ->
  append_all (String d "") acc v = match v with [] => acc | _ => acc +:+ String d (join v d) end.
Proof.
  revert acc. induction v as [|x v IH]; intros acc Ha; [done|]. cbn [append_all].
  destruct (String.eqb_spec acc ""); [done|]. rewrite IH.
  - destruct v as [|y v].
    + cbn [join]. by rewrite string_app_assoc, string_app_cons, string_app_nil_l.
    + change (join (x :: y :: v) d) with (x +:+ String d (join (y :: v) d)).
      by rewrite !string_app_assoc, string_app_cons, string_app_nil_l.
  - destruct acc; [done|]. by rewrite !string_app_cons.
Qed.

(** The loops that separate texts build the joined text. *)
Lemma append_all_nil d v : Forall (fun x => x <> "") v -> append_all (String d "") "" v = join v d.
Proof.
  intros Hv. destruct Hv as [|x v Hx Hv]; [done|]. cbn [append_all String.eqb]. rewrite string_app_nil_l.
  rewrite append_all_join by done. by destruct v.
Qed.

Lemma item_text_nonempty kv : item_text kv <> "".
Proof. destruct kv as [[|c k] v]; unfold item_text; cbn [fst snd]; by rewrite ?string_app_cons. Qed.

Definition fmtp_config (p : list (string * json)) : string := join (map item_text p) ";"%char.

Lemma config_ok p : config_loop "" p = Ok (fmtp_config p).
Proof.
  rewrite config_loop_ok. f_equal. apply append_all_nil. apply Forall_forall. intros x Hx.
  apply list_elem_of_In, in_map_iff in Hx as (kv & <- & _). apply item_text_nonempty.
Qed.

Lemma fmtpLine_ok pt p : exists ls, fmtpLine pt (JObject p) = Ok ls /\
  match p with
  | [] => ls = []
  | _ => exists l, ls = [l] /\ find "payload" l = Some pt /\ find "config" l = Some (JString (fmtp_config p))
  end.
Proof.
  unfold fmtpLine. cbn [items]. rewrite config_ok. cbn [obind]. destruct p as [|kv p]; [by eexists|].
  destruct (String.eqb_spec (fmtp_config (kv :: p)) "") as [E|_].
  - unfold fmtp_config in E. cbn [map join] in E. pose proof (item_text_nonempty kv) as Hne.
    destruct (map item_text p); [done|]. by destruct (item_text kv).
  - eexists. split; [done|]. eexists. split; [done|]. split; by media_find.
Qed.

(** The payload type as the octet that is printed. *)
Definition pt_value (c : json) : Z := wrap_u 8 (match member "payloadType" c with JInt z | JUint z => z | _ => 0%Z end).

Lemma get_uint8_pt c : is_number_integer (member "payloadType" c) = true ->
  get_uint8 (member "payloadType" c) = Ok (pt_value c).
Proof. unfold pt_value. by destruct (member "payloadType" c). Qed.

Lemma pretty_nonempty z : (0 <= z)%Z -> pretty z <> "".
Proof. intros Hz. by destruct (pretty_digits z Hz) as (c & r & -> & _). Qed.

Lemma pt_value_range c : (0 <= pt_value c < 256)%Z.
Proof. apply Z.mod_pos_bound. lia. Qed.

Lemma payloadsLine_ok (read : reader) cs :
  Forall (fun c => read "payloadType" c = Ok (member "payloadType" c) /\
                   is_number_integer (member "payloadType" c) = true) cs ->
  payloadsLine read cs = Ok (join (map (fun c => pretty (pt_value c)) cs) " "%char).
Proof.
  intros Hcs. unfold payloadsLine.
  assert (omapM (fun codec => let! v := read "payloadType" codec in
            let! payloadType := get_uint8 v in Ok (pretty payloadType)) cs =
          Ok (map (fun c => pretty (pt_value c)) cs)) as ->.
  { induction Hcs as [|c cs [Hr Hi] _ IH]; [done|]. cbn [omapM map]. rewrite Hr. cbn [obind].
    rewrite get_uint8_pt by done. cbn [obind]. by rewrite IH. }
  cbn [obind]. f_equal. apply append_all_nil. apply Forall_forall. intros x Hx.
  apply list_elem_of_In, in_map_iff in Hx as (c & <- & _). apply pretty_nonempty.
  pose proof (pt_value_range c). lia.
Qed.

(** The payload list of a media line.  For codecs whose payload types are
    integers, the text of [payloads] consists of the payload types as octets
    in order: splitting it at the blanks and reading each number gives them
    back. *)
Theorem payloads_line_roundtrip cs :
  Forall (fun c => is_number_integer (member "payloadType" c) = true /\
                   find "payloadType" c = Some (member "payloadType" c)) cs ->
  exists line, payloadsLine idx cs = Ok line /\ payloadsLine ref_get cs = Ok line /\
    map stoi (split line " "%char) = map (fun c => Ok (pt_value c)) cs.
Proof.
  intros Hcs. exists (join (map (fun c => pretty (pt_value c)) cs) " "%char). split_and!.
  - apply payloadsLine_ok. eapply Forall_impl; [exact Hcs|]. intros c [Hi Hf]. by rewrite (idx_find _ _ _ Hf).
  - apply payloadsLine_ok. eapply Forall_impl; [exact Hcs|]. intros c [Hi Hf]. by rewrite (ref_get_find _ _ _ Hf).
  - rewrite split_join_tokens.
    + rewrite map_map. apply map_ext. intros c. pose proof (pt_value_range c). apply stoi_pretty. lia.
    + apply Forall_forall. intros x Hx. apply list_elem_of_In, in_map_iff in Hx as (c & <- & _).
      pose proof (pt_value_range c). split; [|apply pretty_nonempty; lia].
      destruct (pretty_digits (pt_value c)) as (a & r & -> & Hd & _); [lia|].
      clear - Hd. induction (String a r) as [|b s IH]; [done|]. cbn [all_digits] in Hd.
      destruct (digit b) as [d|] eqn:E; [|done]. cbn [has_char]. rewrite IH by done.
      by destruct b as [[] [] [] [] [] [] [] []].
Qed.

Lemma payloads_line_roundtrip_witness :
  exists line, payloadsLine idx [mk_obj [("payloadType", JInt 96)]; mk_obj [("payloadType", JUint 97)]] = Ok line.
Proof.
  destruct (payloads_line_roundtrip [mk_obj [("payloadType", JInt 96)]; mk_obj [("payloadType", JUint 97)]])
    as (line & H & _); [by repeat constructor|]. by exists line.
Defined.

(** The rtp line of a codec. *)
Definition rtp_of (c r : json) : Prop :=
  find "payload" r = Some (member "payloadType" c) /\ find "rate" r = Some (member "clockRate" c) /\
  (exists name, getCodecName c = Ok name /\ find "codec" r = Some (JString name)) /\
  (find "encoding" r = None \/ exists ch, find "encoding" r = Some (JUint ch) /\ (1 < ch < 256)%Z).

(** Both ways of reading agree on members that are there. *)
Definition reads (read : reader) : Prop := forall k j v, find k j = Some v -> read k j = Ok v.
Lemma reads_idx : reads idx.
Proof. intros k j v. apply idx_find. Qed.
Lemma reads_ref_get : reads ref_get.
Proof. intros k j v. apply ref_get_find. Qed.

Section codec_lines.
Context (read : reader) (Hread : reads read).
Context (c : json) (Hc : normalRtpCodecParameters c = true).

Lemma normal_codec_members : exists kind p fbs,
  key_ok "mimeType" is_string c = true /\ key_ok "payloadType" is_number_integer c = true /\
  key_ok "clockRate" is_number_integer c = true /\ key_opt "channels" is_number_integer c = true /\
  mime_kind c = Some kind /\
  find "parameters" c = Some (JObject p) /\ forallb normalCodecParameter p = true /\
  find "rtcpFeedback" c = Some (JArray fbs) /\ forallb normalRtcpFeedback fbs = true.
Proof.
  revert Hc. unfold normalRtpCodecParameters, normalCodecCommon. destruct (mime_kind c) as [kind|] eqn:Ek; [|done].
  intros H. split_keys.
  match goal with H : key_ok "parameters" _ c = true |- _ => destruct (key_ok_find _ _ _ H) as [Hp Hp'] end.
  match goal with H : key_ok "rtcpFeedback" _ c = true |- _ => destruct (key_ok_find _ _ _ H) as [Hf Hf'] end.
  destruct (member "parameters" c) as [| | | | | | |p]; try done.
  destruct (member "rtcpFeedback" c) as [| | | | | |fbs|]; try done.
  exists kind, p, fbs. split_and!; try done.
  - unfold mime_kind in Ek. unfold key_ok. by destruct (find "mimeType" c) as [[]|].
  - unfold key_opt. destruct (String.eqb kind "audio").
    + match goal with H : key_ok "channels" _ c = true |- _ => destruct (key_ok_find _ _ _ H) as [Hch Hch'] end.
      rewrite Hch. cbn. by rewrite Hch'.
    + unfold contains in *. by destruct (find "channels" c).
Qed.

Lemma rtpLine_ok : exists r, rtpLine read c = Ok r /\ rtp_of c r.
Proof.
  destruct normal_codec_members as (kind & p & fbs & Hm & Hpt & Hcl & Hch & _).
  destruct (key_ok_find _ _ _ Hm) as [Fm Tm], (key_ok_find _ _ _ Hpt) as [Fp Tp], (key_ok_find _ _ _ Hcl) as [Fc _].
  unfold rtpLine. rewrite (Hread _ _ _ Fp), (Hread _ _ _ Fc). cbn [obind].
  assert (exists name, getCodecName c = Ok name) as [name Hn].
  { unfold getCodecName. rewrite (idx_find _ _ _ Fm). destruct (member "mimeType" c); try done. cbn. by eexists. }
  rewrite Hn. cbn [obind]. unfold contains, key_opt in *.
  set (rtp := mk_obj _).
  assert (rtp_of c rtp) as Hrtp.
  { unfold rtp. split_and!; [done..|by exists name|]. by left. }
  destruct (find "channels" c) as [v|] eqn:Ev; [|by exists rtp].
  rewrite (Hread _ _ _ Ev). cbn [obind]. cbn in Hch. rewrite negb_involutive in Hch.
  destruct (get_uint8_integer _ Hch) as [ch Hv]. rewrite Hv. cbn [obind].
  destruct (Z.ltb_spec 1 ch); [|by exists rtp]. eexists. split; [done|].
  destruct Hrtp as (Hp1 & Hr1 & Hn1 & _). unfold rtp_of. media_find. split_and!; try done.
  right. exists ch. split; [done|]. split; [done|].
  destruct (get_uint8_range _ _ Hch Hv). lia.
Qed.

Lemma rtcpFbLines_ok pt : exists ls, rtcpFbLines read pt c = Ok ls /\
  Forall2 (fun fb l => find "payload" l = Some pt /\ find "type" l = find "type" fb /\
                       find "subtype" l = find "parameter" fb) (feedback c) ls.
Proof.
  destruct normal_codec_members as (kind & p & fbs & _ & _ & _ & _ & _ & _ & _ & Hf & Hn).
  unfold rtcpFbLines, feedback, array_at. rewrite (Hread _ _ _ Hf), Hf. cbn [obind elems].
  apply omapM_Forall2. apply Forall_forallb in Hn. eapply Forall_impl; [exact Hn|].
  intros fb H. unfold normalRtcpFeedback in H. split_keys.
  repeat match goal with H : key_ok _ _ fb = true |- _ => destruct (key_ok_find _ _ _ H) as [? _]; clear H end.
  erewrite !Hread by done. cbn [obind]. eexists. split; [done|]. unfold member in *. split_and!; done.
Qed.
End codec_lines.

(** ** Offers *)

Lemma offerCodec_ok c : normalRtpCodecParameters c = true ->
  exists l, offerCodec c = Ok l /\ rtp_of c l.1.1.
Proof.
  intros Hc. destruct (normal_codec_members c Hc) as (kind & p & fbs & _ & Hpt & _ & _ & _ & Hp & _ & _).
  destruct (rtpLine_ok idx reads_idx c Hc) as (rtp & Hr & Hrtp). unfold offerCodec. rewrite Hr. cbn [obind].
  rewrite (idx_find _ _ _ Hp), (idx_member _ _ _ Hpt). cbn [obind].
  destruct (fmtpLine_ok (member "payloadType" c) p) as (fm & -> & _). cbn [obind].
  destruct (rtcpFbLines_ok idx reads_idx c Hc (member "payloadType" c)) as (fb & -> & _). cbn [obind].
  eexists. split; [done|]. done.
Qed.

Lemma payloadsLine_normal (read : reader) cs : reads read ->
  Forall (fun c => normalRtpCodecParameters c = true) cs ->
  payloadsLine read cs = Ok (join (map (fun c => pretty (pt_value c)) cs) " "%char).
Proof.
  intros Hread Hcs. apply payloadsLine_ok. eapply Forall_impl; [exact Hcs|]. intros c Hc.
  destruct (normal_codec_members c Hc) as (kind & p & fbs & _ & Hpt & _).
  destruct (key_ok_find _ _ _ Hpt) as [F T]. by rewrite (Hread _ _ _ F).
Qed.

Lemma offerExt_ok e : normalRtpHeaderExtensionParameters e = true ->
  exists l, offerExt e = Ok l /\ find "uri" l = find "uri" e /\ find "value" l = find "id" e.
Proof.
  unfold normalRtpHeaderExtensionParameters. intros H. split_keys. unfold offerExt.
  repeat match goal with H : key_ok _ _ e = true |- _ =>
    rewrite ?(idx_member _ _ _ H); destruct (key_ok_find _ _ _ H) as [? _]; clear H end.
  cbn [obind]. eexists. split; [done|]. unfold member in *. by split.
Qed.

Lemma set_codec_lines_find d ls pl m k : is_object m = true ->
  is_object (set_codec_lines d ls pl m) = true /\
  find k (set_codec_lines d ls pl m) =
    if String.eqb k "payloads" then Some (JString pl)
    else if String.eqb k "fmtp" then Some (JArray (concat (map (fun l => l.1.2) ls)))
    else if String.eqb k "rtcpFb" then Some (JArray (concat (map snd ls)))
    else if String.eqb k "rtp" then Some (JArray (map (fun l => l.1.1) ls))
    else if String.eqb k "direction" then Some (JString d)
    else find k m.
Proof.
  intros Hm. unfold set_codec_lines. split; [auto 20 with media|].
  by rewrite !jset_find by auto 20 with media.
Qed.

Lemma set_codec_lines_object d ls pl m : is_object m = true -> is_object (set_codec_lines d ls pl m) = true.
Proof. intros Hm. by apply (set_codec_lines_find d ls pl m ""). Qed.
#[export] Hint Resolve set_codec_lines_object : media.

(** The encoding an offer announces: its SSRC and the RTX one (0 without). *)
Record first_encoding (params : json) (ssrc rtx : Z) (cname : string) : Prop := {
  fe_encoding : exists e l, find "encodings" params = Some (JArray (e :: l)) /\
    (exists v, find "ssrc" e = Some v /\ get_uint32 v = Ok ssrc) /\
    (match find "rtx" e with
     | Some r => match find "ssrc" r with Some v => get_uint32 v = Ok rtx | None => rtx = 0%Z end
     | None => rtx = 0%Z
     end);
  fe_cname : exists rtcp, find "rtcp" params = Some rtcp /\ find "cname" rtcp = Some (JString cname);
}.

Definition ssrc_lines (ssrc rtx : Z) (cname msid : string) : list json :=
  let lines s := [ssrcLine s "cname" cname; ssrcLine s "msid" msid] in
  if (rtx =? 0)%Z then lines ssrc else lines ssrc ++ lines rtx.
Definition ssrc_groups (ssrc rtx : Z) : list json :=
  if (rtx =? 0)%Z then []
  else [mk_obj [("semantics", JString "FID"); ("ssrcs", JString (pretty ssrc +:+ " " +:+ pretty rtx))]].

Lemma offerSsrcs_ok params ssrc rtx cname streamId trackId : first_encoding params ssrc rtx cname ->
  offerSsrcs params streamId trackId =
  Ok (ssrc_lines ssrc rtx cname (streamId +:+ " " +:+ trackId), ssrc_groups ssrc rtx).
Proof.
  intros [(e & l & He & (v & Hv & Hs) & Hx) (rtcp & Hr & Hc)]. unfold offerSsrcs.
  rewrite (idx_find _ _ _ He). cbn [obind idx_nth lookup list_lookup]. rewrite (idx_find _ _ _ Hv). cbn [obind].
  rewrite Hs. cbn [obind].
  assert (match find "rtx" e with
          | Some rtx => if contains "ssrc" rtx then let! v := idx "ssrc" rtx in get_uint32 v else Ok 0%Z
          | None => Ok 0%Z
          end = Ok rtx) as ->.
  { destruct (find "rtx" e) as [r|]; [|by subst]. unfold contains. destruct (find "ssrc" r) as [w|] eqn:E; [|by subst].
    by rewrite (idx_find _ _ _ E). }
  cbn [obind]. rewrite (idx_find _ _ _ Hr). cbn [obind]. rewrite Hc.
  unfold ssrc_lines, ssrc_groups. by destruct (Z.eqb rtx 0).
Qed.

(** What an audio or video offer says about its codecs and SSRCs. *)
Record media_offer (m params : json) (ssrc rtx : Z) (cname msid : string) : Prop := {
  mo_rtp : exists rtps, find "rtp" m = Some (JArray rtps) /\ Forall2 rtp_of (codecs_of params) rtps;
  mo_payloads : find "payloads" m =
    Some (JString (join (map (fun c => pretty (pt_value c)) (codecs_of params)) " "%char));
  mo_ext : exists exts, find "ext" m = Some (JArray exts) /\
    Forall2 (fun e l => find "uri" l = find "uri" e /\ find "value" l = find "id" e) (extensions_of params) exts;
  mo_ssrcs : find "ssrcs" m = Some (JArray (ssrc_lines ssrc rtx cname msid));
  mo_groups : find "ssrcGroups" m = Some (JArray (ssrc_groups ssrc rtx));
}.

Lemma offerMedia_ok params ssrc rtx cname streamId trackId m :
  normalRtpParameters params = true -> first_encoding params ssrc rtx cname -> is_object m = true ->
  exists m', offerMedia params streamId trackId m = Ok m' /\ is_object m' = true /\
    find "mid" m' = find "mid" m /\ find "port" m' = find "port" m /\ find "setup" m' = find "setup" m /\
    find "direction" m' = Some (JString "sendonly") /\
    media_offer m' params ssrc rtx cname (streamId +:+ " " +:+ trackId).
Proof.
  intros Hn He Hm. destruct (normal_parameters_arrays _ Hn) as (_ & Fc & Fe & Nc & Ne). unfold offerMedia.
  rewrite (idx_find _ _ _ Fc), (idx_find _ _ _ Fe). cbn [obind elems].
  destruct (omapM_Forall2 offerCodec (fun c l => rtp_of c l.1.1) (codecs_of params)) as (ls & -> & Hls).
  { eapply Forall_impl; [exact Nc|]. apply offerCodec_ok. }
  cbn [obind]. rewrite (payloadsLine_normal idx _ reads_idx Nc). cbn [obind].
  destruct (omapM_Forall2 offerExt (fun e l => find "uri" l = find "uri" e /\ find "value" l = find "id" e)
    (extensions_of params)) as (exts & -> & Hexts).
  { eapply Forall_impl; [exact Ne|]. apply offerExt_ok. }
  cbn [obind]. rewrite (offerSsrcs_ok _ _ _ _ _ _ He). cbn [obind fst snd].
  eexists. split; [done|]. split; [auto 10 with media|]. media_find.
  rewrite !(proj2 (set_codec_lines_find _ _ _ _ _ Hm)). eqb_literals. split_and!; try done.
  split; media_find; rewrite ?(proj2 (set_codec_lines_find _ _ _ _ _ Hm)); eqb_literals; try done.
  - eexists. split; [done|]. clear - Hls. induction Hls; by constructor.
  - by exists exts.
Qed.

Lemma OfferMediaSection_ok ice cands sctp mid kind params streamId trackId ssrc rtx cname :
  normalIceParameters ice = true -> normalIceCandidates cands = true -> normalRtpParameters params = true ->
  (kind = "audio" \/ kind = "video") -> first_encoding params ssrc rtx cname ->
  exists s, OfferMediaSection ice cands sctp mid kind params streamId trackId = Ok s /\
    section_kind s = OfferSection /\ section_is s mid false /\
    find "direction" (mediaObject s) = Some (JString "sendonly") /\
    find "setup" (mediaObject s) = Some (JString "actpass") /\
    media_offer (mediaObject s) params ssrc rtx cname (streamId +:+ " " +:+ trackId).
Proof.
  intros Hi Hc Hn Hk He. destruct (newMediaObject_ok _ _ Hi Hc) as (m & ls & Hm & Ho & _).
  unfold OfferMediaSection. rewrite Hm. cbn [obind].
  assert (String.eqb kind "audio" || String.eqb kind "video" = true) as -> by (by destruct Hk as [-> | ->]).
  match goal with |- context [offerMedia params streamId trackId ?m0] =>
    destruct (offerMedia_ok params ssrc rtx cname streamId trackId m0 Hn He) as (m' & -> & Ho' & Hmid & Hport & Hset & Hdir & Hmo);
    [auto 20 with media|] end.
  cbn [obind]. eexists. split; [done|]. cbn [section_kind mediaObject]. split_and!; try done.
  - split; cbn [mediaObject]; [done|..].
    + rewrite Hmid. by media_find.
    + exists (JInt 7). split; [|done]. rewrite Hport. by media_find.
    + unfold contains. by rewrite (mo_payloads _ _ _ _ _ _ Hmo).
  - rewrite Hset. by media_find.
Qed.

(** An offer section for a consumer.  For validated ICE parameters,
    candidates and RTP parameters with an SSRC and a cname, and kind audio or
    video, the constructor returns an open sendonly section with the given mid
    and setup actpass; its rtp lines, payload list and extensions are those of
    the parameters, in order; and its ssrc lines announce cname and msid of the
    SSRC and, with RTX, of the RTX SSRC, tied by one FID group. *)
Theorem offer_section_correct ice cands sctp mid kind params streamId trackId ssrc rtx cname :
  normalIceParameters ice = true -> normalIceCandidates cands = true -> normalRtpParameters params = true ->
  (kind = "audio" \/ kind = "video") -> first_encoding params ssrc rtx cname ->
  exists s, OfferMediaSection ice cands sctp mid kind params streamId trackId = Ok s /\
    section_kind s = OfferSection /\ section_is s mid false /\
    find "direction" (mediaObject s) = Some (JString "sendonly") /\
    find "setup" (mediaObject s) = Some (JString "actpass") /\
    media_offer (mediaObject s) params ssrc rtx cname (streamId +:+ " " +:+ trackId).
Proof. apply OfferMediaSection_ok. Qed.

Definition sample_candidates : json := JArray
  [ mk_obj [("foundation", JString "f"); ("priority", JUint 1); ("ip", JString "1.2.3.4"); ("protocol", JString "udp");
            ("port", JUint 40000); ("type", JString "host")] ].
Definition sample_encoding : json :=
  mk_obj [("ssrc", JUint 1111); ("rtx", mk_obj [("ssrc", JUint 2222)]); ("dtx", JBool false)].
Definition sample_rtcp : json := mk_obj [("cname", JString "c"); ("reducedSize", JBool true)].
Definition sample_consumer_parameters : json := mk_obj
  [ ("mid", JString "1");
    ("codecs", JArray
      [ mk_obj [ ("mimeType", JString "video/VP8"); ("payloadType", JInt 101); ("clockRate", JInt 90000);
                 ("parameters", JObject []); ("rtcpFeedback", JArray [sample_fb "nack" "pli"]) ];
        mk_obj [ ("mimeType", JString "video/rtx"); ("payloadType", JInt 102); ("clockRate", JInt 90000);
                 ("parameters", mk_obj [("apt", JInt 101)]); ("rtcpFeedback", JArray []) ] ]);
    ("headerExtensions", JArray
      [ mk_obj [("uri", JString absSendTimeUri); ("id", JInt 4); ("encrypt", JBool false); ("parameters", JObject [])] ]);
    ("encodings", JArray [ sample_encoding ]);
    ("rtcp", sample_rtcp) ].

Lemma offer_section_correct_witness :
  exists s, OfferMediaSection sample_ice sample_candidates JNull "1" "video" sample_consumer_parameters "stream" "track" = Ok s /\
    section_is s "1" false.
Proof.
  destruct (offer_section_correct sample_ice sample_candidates JNull "1" "video" sample_consumer_parameters
    "stream" "track" 1111 2222 "c") as (s & Hs & _ & H & _).
  - vm_compute. reflexivity.
  - vm_compute. reflexivity.
  - vm_compute. reflexivity.
  - by right.
  - split.
    + exists sample_encoding, []. split; [vm_compute; reflexivity|]. split; [|vm_compute; reflexivity].
      exists (JUint 1111). split; vm_compute; reflexivity.
    + exists sample_rtcp. split; vm_compute; reflexivity.
  - by exists s.
Defined.

(** ** Answers *)

(** The offered codecs: each an object with a payload type and parameters. *)
Definition offered_codec (c : json) : bool :=
  is_object c && contains "payloadType" c && key_ok "parameters" is_object c.
Record offered (params : json) (pts : list json) : Prop := {
  of_codecs : exists o l, params = JObject o /\ obj_lookup "codecs" o = Some (JArray l) /\
    Forall (fun c => offered_codec c = true) l /\ map (member "payloadType") l = pts;
}.

Lemma set_offer_parameter params pts li k v : offered params pts -> li < length pts ->
  exists params', at_key "codecs" (at_idx li (at_key "parameters" (set_key k v))) params = (Ok tt, params') /\
    offered params' pts.
Proof.
  intros [(o & l & -> & Hl & Hcs & Hpts)] Hli. subst pts. rewrite length_map in Hli.
  destruct (lookup_lt_is_Some_2 l li Hli) as [c Hc].
  pose proof (proj1 (Forall_lookup _ _) Hcs li c Hc) as Hok. unfold offered_codec in Hok. split_keys.
  destruct c as [| | | | | | |co]; try done. destruct (key_ok_find _ _ _ H0) as [Fp Tp].
  destruct (member "parameters" (JObject co)) as [| | | | | | |po]; try done. cbn [find] in Fp.
  unfold at_key at 1. rewrite Hl. cbn [from_option id]. unfold at_idx, pad_to. cbn [elems].
  assert (S li - length l = 0) as -> by lia. cbn [replicate]. rewrite app_nil_r, Hc. cbn [from_option id].
  unfold at_key at 1. rewrite Fp. cbn [from_option id set_key at_key put]. unfold set_key, at_key, put.
  eexists. split; [reflexivity|]. split. do 2 eexists. split; [reflexivity|].
  rewrite obj_lookup_insert, String.eqb_refl. split; [done|]. split.
  - apply Forall_insert; [done|]. unfold offered_codec, contains, key_ok in *. cbn [find is_object] in *. obj_simpl.
    by destruct (obj_lookup "payloadType" co).
  - rewrite list_fmap_insert. apply list_insert_id. rewrite list_lookup_fmap, Hc. cbn. f_equal.
    unfold member. cbn [find]. by obj_simpl.
Qed.

Lemma wp_set_offer_parameter params pts li k v (Q : unit -> json -> Prop) E :
  offered params pts -> li < length pts -> (forall params', offered params' pts -> Q tt params') ->
  wp (at_key "codecs" (at_idx li (at_key "parameters" (set_key k v)))) Q E params.
Proof.
  intros Ho Hli HQ. destruct (set_offer_parameter params pts li k v Ho Hli) as (params' & He & Ho').
  unfold wp. rewrite He. auto.
Qed.

Definition normal_params (p : json) : Prop := exists o, p = JObject o /\ forallb normalCodecParameter o = true.

Lemma normal_params_set k v p : normal_params p -> is_number_integer v = true ->
  exists p', set_key k v p = (Ok tt, p') /\ normal_params p'.
Proof.
  intros (o & -> & Ho) Hv. eexists. split; [done|]. eexists. split; [done|].
  apply obj_insert_forall_kv; [|done]. destruct v; try done; cbn; by rewrite orb_true_r.
Qed.

Section options.
Context (options : json) (Hopt : normalProducerCodecOptions options = true) (pts : list json).

Lemma wp_opusOption li name ok ak p params (Q : json -> json -> Prop) E :
  key_opt name is_boolean options = true -> offered params pts -> li < length pts -> normal_params p ->
  (forall p' params', normal_params p' -> offered params' pts -> Q p' params') ->
  wp (opusOption options li name ok ak p) Q E params.
Proof.
  intros Hname Ho Hli Hp HQ. unfold opusOption. unfold key_opt in Hname.
  destruct (find name options) as [v|]; [|by apply HQ]. cbn in Hname. rewrite negb_involutive in Hname.
  destruct v as [|b| | | | | |]; try done. wp_step. wp_step. cbn [owp get_bool].
  wp_step. eapply (wp_set_offer_parameter params pts); [done..|]. intros params' Ho'.
  destruct (normal_params_set ak (JInt (if b then 1 else 0)) p Hp eq_refl) as (p' & -> & Hp').
  wp_step. wp_step. cbn [owp]. wp_step. by apply HQ.
Qed.

Lemma wp_uintOption name k p params (Q : json -> json -> Prop) E :
  key_opt name is_number_integer options = true -> normal_params p ->
  (forall p', normal_params p' -> Q p' params) ->
  wp (uintOption options name k p) Q E params.
Proof.
  intros Hname Hp HQ. unfold uintOption. unfold key_opt in Hname.
  destruct (find name options) as [v|]; [|by apply HQ]. cbn in Hname. rewrite negb_involutive in Hname.
  wp_step. wp_step. assert (exists z, get_uint32 v = Ok z) as [z ->] by (destruct v; try done; by eexists).
  cbn [owp]. destruct (normal_params_set k (JUint z) p Hp eq_refl) as (p' & -> & Hp').
  wp_step. wp_step. cbn [owp]. wp_step. by apply HQ.
Qed.

Lemma key_opt_unsigned k j : key_opt k is_number_unsigned j = true -> key_opt k is_number_integer j = true.
Proof. unfold key_opt. destruct (find k j) as [v|]; [|done]. by destruct v. Qed.

(** With an offered codec of the same payload type the options are applied. *)
Lemma wp_applyCodecOptions c p params (Q : json -> json -> Prop) E :
  normalRtpCodecParameters c = true -> normal_params p -> offered params pts ->
  existsb (fun pt => json_eqb pt (member "payloadType" c)) pts = true ->
  (forall p' params', normal_params p' -> offered params' pts -> Q p' params') ->
  wp (applyCodecOptions options c p) Q E params.
Proof.
  intros Hc Hp Ho Hpt HQ. destruct (normal_codec_members c Hc) as (kind & cp & fbs & Hm & Hcpt & _).
  destruct (key_ok_find _ _ _ Hm) as [Fm Tm]. unfold applyCodecOptions.
  pose proof Ho as [(o & l & -> & Hl & Hcs & Hpts)].
  wp_step. unfold wp at 1. rewrite (get_key_present _ _ _ Hl). cbn [elems].
  rewrite (ref_get_member _ _ _ Hcpt), (ref_get_find _ _ _ Fm). wp_step. wp_step. cbn [owp].
  rewrite (ofind_idx_list_find _ (fun x => json_eqb (member "payloadType" x) (member "payloadType" c))).
  2:{ eapply Forall_impl; [exact Hcs|]. intros x Hx. unfold offered_codec, contains in Hx. split_keys.
      unfold member. destruct (find "payloadType" x) as [v|] eqn:E1; [|done]. by rewrite (ref_get_find _ _ _ E1). }
  wp_step. wp_step. cbn [owp].
  destruct (list_find _ l) as [[li x]|] eqn:Ef.
  2:{ exfalso. apply list_find_None in Ef. apply existsb_exists in Hpt as (pt & Hin & He). subst pts.
      apply in_map_iff in Hin as (x & <- & Hin%list_elem_of_In). rewrite Forall_forall in Ef.
      specialize (Ef x Hin). by rewrite He in Ef. }
  cbn [fmap option_fmap option_map fst Nat.add].
  assert (li < length pts) as Hli.
  { subst pts. rewrite length_map. apply list_find_Some in Ef as (Hi & _). by eapply lookup_lt_Some. }
  destruct (member "mimeType" c) as [| | | | |mt| |]; try done. do 2 wp_step. cbn [owp]. do 2 wp_step. cbn [owp get_string].
  unfold normalProducerCodecOptions in Hopt. split_keys. clear Ef Hpt Hl Hcs Hpts.
  destruct (String.eqb (lower mt) "audio/opus").
  - wp_step. apply wp_opusOption; [done..|]. intros. wp_step. apply wp_opusOption; [done..|]. intros.
    wp_step. apply wp_opusOption; [done..|]. intros. apply wp_uintOption; [by apply key_opt_unsigned|done|]. auto.
  - destruct (existsb _ _); [|wp_step; by apply HQ].
    wp_step. apply wp_uintOption; [done..|]. intros. wp_step. apply wp_uintOption; [done..|]. intros.
    apply wp_uintOption; [done..|]. auto.
Qed.
End options.

(** Options that can be applied to the codec: none, or valid ones when the
    payload type is offered. *)
Definition options_fit (options : option json) (pts : list json) (c : json) : Prop :=
  match options with
  | None => True
  | Some o => normalProducerCodecOptions o = true /\
              existsb (fun pt => json_eqb pt (member "payloadType" c)) pts = true
  end.

Lemma wp_answerCodec options c params pts (Q : codec_lines -> json -> Prop) E :
  normalRtpCodecParameters c = true -> offered params pts -> options_fit options pts c ->
  (forall l params', rtp_of c l.1.1 -> offered params' pts -> Q l params') ->
  wp (answerCodec options c) Q E params.
Proof.
  intros Hc Ho Hfit HQ. destruct (normal_codec_members c Hc) as (kind & p & fbs & _ & Hpt & _ & _ & _ & Hp & Hpn & _).
  destruct (rtpLine_ok ref_get reads_ref_get c Hc) as (rtp & Hr & Hrtp). unfold answerCodec.
  rewrite Hr, (ref_get_find _ _ _ Hp), (ref_get_member _ _ _ Hpt). do 2 wp_step. cbn [owp]. do 2 wp_step. cbn [owp].
  assert (normal_params (JObject p)) as Hnp by by exists p.
  assert (forall p' params', normal_params p' -> offered params' pts ->
    wp (payloadType <- lift (Ok (member "payloadType" c)) ;; fmtp <- lift (fmtpLine payloadType p') ;;
        fbs <- lift (rtcpFbLines ref_get payloadType c) ;; ret (rtp, fmtp, fbs)) Q E params') as Hrest.
  { intros p' params' (o & -> & _) Ho'. do 2 wp_step. cbn [owp].
    destruct (fmtpLine_ok (member "payloadType" c) o) as (fm & -> & _). do 2 wp_step. cbn [owp].
    destruct (rtcpFbLines_ok ref_get reads_ref_get c Hc (member "payloadType" c)) as (fb & -> & _).
    do 2 wp_step. cbn [owp]. wp_step. by apply HQ. }
  wp_step. destruct options as [opt|]; [|wp_step; by apply Hrest]. destruct Hfit as [Hn Hin].
  destruct (json_empty opt); [wp_step; by apply Hrest|].
  eapply wp_applyCodecOptions; [done..|]. apply Hrest.
Qed.

Lemma wp_answerCodecs options cs params pts (Q : list codec_lines -> json -> Prop) E :
  Forall (fun c => normalRtpCodecParameters c = true) cs -> Forall (options_fit options pts) cs -> offered params pts ->
  (forall ls params', Forall2 (fun c l => rtp_of c l.1.1) cs ls -> offered params' pts -> Q ls params') ->
  wp (answerCodecs options cs) Q E params.
Proof.
  intros Hcs. revert params Q. induction Hcs as [|c cs Hc _ IH]; intros params Q Hfit Ho HQ; cbn [answerCodecs].
  { wp_step. apply HQ; [constructor|done]. }
  inversion_clear Hfit as [|?? Hf Hfs]. wp_step. eapply wp_answerCodec; [done..|]. intros l params' Hl Ho'.
  wp_step. apply IH; [done..|]. intros ls params'' Hls Ho''. wp_step. apply HQ; [by constructor|done].
Qed.

(** What an answer needs of the offered media object. *)
Definition simulcast_ok (m : json) : bool :=
  match find "simulcast" m with
  | Some s =>
    negb (is_object s) ||
    (contains "list1" s &&
     match find "rids" m with
     | Some (JArray l) => forallb (fun r => contains "direction" r && contains "id" r) l
     | Some _ => true
     | None => false
     end)
  | None => true
  end.
Definition offer_object (m : json) : bool :=
  key_ok "type" is_string m && key_ok "mid" is_string m && contains "protocol" m &&
  key_ok "ext" (array_of (contains "uri")) m && simulcast_ok m.

Lemma contains_member k j : contains k j = true -> find k j = Some (member k j).
Proof. unfold contains, member. by destruct (find k j). Qed.

Lemma answerExts_ok m exts : key_ok "ext" (array_of (contains "uri")) m = true ->
  Forall (fun e => normalRtpHeaderExtensionParameters e = true) exts ->
  exists ls, answerExts m exts = Ok ls /\
    Forall (fun l => existsb (fun o => json_eqb (member "uri" o) (member "uri" l)) (elems (member "ext" m)) = true /\
                     exists e, e ∈ exts /\ find "uri" l = find "uri" e /\ find "value" l = find "id" e) ls.
Proof.
  intros Hm. pose proof (idx_member _ _ _ Hm) as Hidx. destruct (key_ok_find _ _ _ Hm) as [_ Ha].
  destruct (member "ext" m) as [| | | | | |le|]; try done. cbn [array_of elems] in *.
  induction 1 as [|e exts He _ (ls & IH & Hls)]; [by exists []|]. cbn [answerExts].
  rewrite Hidx. cbn [obind elems].
  unfold normalRtpHeaderExtensionParameters in He. split_keys.
  match goal with H : key_ok "uri" _ e = true |- _ => rename H into Hu end.
  match goal with H : key_ok "id" _ e = true |- _ => rename H into Hid end.
  rewrite (ofind_if_list_find _ (fun o => json_eqb (member "uri" o) (member "uri" e))).
  2:{ apply Forall_forallb in Ha. eapply Forall_impl; [exact Ha|]. intros o Ho.
      rewrite (idx_find _ _ _ (contains_member _ _ Ho)), (ref_get_member _ _ _ Hu). done. }
  cbn [obind]. assert (Forall (fun l => existsb (fun o => json_eqb (member "uri" o) (member "uri" l)) le = true /\
    (exists x, x ∈ e :: exts /\ find "uri" l = find "uri" x /\ find "value" l = find "id" x)) ls) as Hls'.
  { eapply Forall_impl; [exact Hls|]. intros l [? (x & ? & ?)]. split; [done|]. exists x. split; [by right|done]. }
  destruct (list_find _ le) as [[i o]|] eqn:Ef; cbn [fmap option_fmap option_map snd]; [|by exists ls].
  rewrite (ref_get_member _ _ _ Hu), (ref_get_member _ _ _ Hid). cbn [obind]. rewrite IH. cbn [obind].
  eexists. split; [done|]. constructor; [|done]. apply list_find_in in Ef as [Hin Heq]. split.
  - apply existsb_exists. exists o. split; [by apply list_elem_of_In|exact Heq].
  - exists e. split; [by left|]. destruct (key_ok_find _ _ _ Hu) as [-> _], (key_ok_find _ _ _ Hid) as [-> _]. done.
Qed.

Lemma answerRids_ok l : forallb (fun r => contains "direction" r && contains "id" r) l = true ->
  exists ls, answerRids l = Ok ls.
Proof.
  induction l as [|r l IH]; cbn [forallb answerRids]; [by eexists|]. intros [[Hd Hi]%andb_prop Hl]%andb_prop.
  destruct (IH Hl) as [ls Hls]. rewrite (idx_find _ _ _ (contains_member _ _ Hd)). cbn [obind].
  destruct (negb _); [by exists ls|]. rewrite (idx_find _ _ _ (contains_member _ _ Hi)). cbn [obind].
  rewrite Hls. by eexists.
Qed.

Lemma answerSimulcast_ok offer m : simulcast_ok offer = true -> is_object m = true ->
  exists m', answerSimulcast offer m = Ok m' /\ is_object m' = true /\
    forall k, k <> "simulcast" -> k <> "rids" -> find k m' = find k m.
Proof.
  intros Hs Hm. unfold answerSimulcast, simulcast_ok in *. destruct (find "simulcast" offer) as [s|]; [|by exists m].
  destruct (is_object s); [|by exists m]. cbn [negb orb] in Hs. apply andb_prop in Hs as [Hl Hr].
  unfold find_deref. destruct (find "rids" offer) as [rids|]; [|done]. cbn [obind].
  destruct (is_array rids) eqn:Ea; [|by exists m]. rewrite (idx_find _ _ _ (contains_member _ _ Hl)). cbn [obind].
  destruct rids as [| | | | | |l|]; try done. destruct (answerRids_ok l Hr) as [ls Hls]. cbn [elems]. rewrite Hls.
  cbn [obind]. eexists. split; [done|]. split; [auto 10 with media|]. intros k H1 H2. rewrite !jset_find by auto with media.
  by destruct (String.eqb_spec k "rids"), (String.eqb_spec k "simulcast").
Qed.

(** What an audio or video answer says about its codecs and extensions. *)
Record media_answer (m offer params : json) : Prop := {
  ma_rtp : exists rtps, find "rtp" m = Some (JArray rtps) /\ Forall2 rtp_of (codecs_of params) rtps;
  ma_payloads : find "payloads" m =
    Some (JString (join (map (fun c => pretty (pt_value c)) (codecs_of params)) " "%char));
  ma_ext : exists exts, find "ext" m = Some (JArray exts) /\
    Forall (fun l => existsb (fun o => json_eqb (member "uri" o) (member "uri" l)) (elems (member "ext" offer)) = true /\
                     exists e, e ∈ extensions_of params /\ find "uri" l = find "uri" e /\ find "value" l = find "id" e) exts;
}.

(** Codecs and extensions for sending, as [getSendingRemoteRtpParameters] gives them. *)
Record answer_parameters (params : json) : Prop := {
  ap_codecs : find "codecs" params = Some (JArray (codecs_of params));
  ap_codecs_normal : Forall (fun c => normalRtpCodecParameters c = true) (codecs_of params);
  ap_exts : find "headerExtensions" params = Some (JArray (extensions_of params));
  ap_exts_normal : Forall (fun e => normalRtpHeaderExtensionParameters e = true) (extensions_of params);
}.

Lemma wp_answerMedia offer params options m offerParams pts (Q : json -> json -> Prop) E :
  answer_parameters params -> offered offerParams pts -> Forall (options_fit options pts) (codecs_of params) ->
  key_ok "ext" (array_of (contains "uri")) offer = true -> simulcast_ok offer = true -> is_object m = true ->
  (forall m' offerParams', is_object m' = true -> find "mid" m' = find "mid" m -> find "port" m' = find "port" m ->
     find "setup" m' = find "setup" m -> find "direction" m' = Some (JString "recvonly") ->
     media_answer m' offer params -> offered offerParams' pts -> Q m' offerParams') ->
  wp (answerMedia offer params options m) Q E offerParams.
Proof.
  intros [Fc Nc Fe Ne] Ho Hfit Hext Hsim Hm HQ. unfold answerMedia.
  rewrite (ref_get_find _ _ _ Fc), (ref_get_find _ _ _ Fe). do 2 wp_step. cbn [owp elems].
  wp_step. eapply wp_answerCodecs; [done..|]. intros ls offerParams' Hls Ho'.
  rewrite (payloadsLine_normal ref_get _ reads_ref_get Nc). do 2 wp_step. cbn [owp]. do 2 wp_step. cbn [owp elems].
  destruct (answerExts_ok offer _ Hext Ne) as (exts & -> & Hexts). do 2 wp_step. cbn [owp].
  set (m1 := set_codec_lines _ _ _ m).
  assert (is_object m1 = true) as Hm1 by (unfold m1; auto with media).
  set (m2 := match find "extmapAllowMixed" offer with Some (JString _) => _ | _ => _ end).
  assert (is_object m2 = true /\ forall k, k <> "extmapAllowMixed" -> find k m2 = find k (jset "ext" (JArray exts) m1)) as [Hm2 Hf2].
  { unfold m2. repeat case_match; (split; [auto with media|]); try done.
    intros k Hk. rewrite jset_find by auto with media. by destruct (String.eqb_spec k "extmapAllowMixed"). }
  destruct (answerSimulcast_ok offer m2 Hsim Hm2) as (m3 & -> & Hm3 & Hf3). do 2 wp_step. cbn [owp]. wp_step.
  assert (forall k, k ∉ ["simulcast"; "rids"; "extmapAllowMixed"; "ext"; "rtcpRsize"; "rtcpMux"] ->
    find k (jset "rtcpRsize" (JString "rtcp-rsize") (jset "rtcpMux" (JString "rtcp-mux") m3)) = find k m1) as Hf.
  { intros k Hk. rewrite !not_elem_of_cons in Hk. destruct Hk as (?&?&?&?&?&?&_).
    rewrite !jset_find by auto with media. destruct (String.eqb_spec k "rtcpRsize"), (String.eqb_spec k "rtcpMux"); try done.
    rewrite Hf3, Hf2, jset_find by done. by destruct (String.eqb_spec k "ext"). }
  apply HQ; [auto 10 with media| | | | | |done];
    try (rewrite Hf by (by compute_done); unfold m1; rewrite (proj2 (set_codec_lines_find _ _ _ _ _ Hm)); by eqb_literals).
  split.
  - exists (map (fun l => l.1.1) ls). rewrite Hf by (by compute_done). unfold m1.
    rewrite (proj2 (set_codec_lines_find _ _ _ _ _ Hm)). eqb_literals. split; [done|].
    clear - Hls. induction Hls; by constructor.
  - rewrite Hf by (by compute_done). unfold m1. rewrite (proj2 (set_codec_lines_find _ _ _ _ _ Hm)). by eqb_literals.
  - exists exts. split; [|done]. media_find. rewrite Hf3, Hf2 by done. by media_find.
Qed.

Lemma answerBase_ok m dtls offer type : is_object m = true ->
  key_ok "mid" is_string offer = true -> contains "protocol" offer = true -> normalDtlsParameters dtls = true ->
  exists m', answerBase m dtls offer type = Ok m' /\ is_object m' = true /\
    find "mid" m' = find "mid" offer /\ find "port" m' = Some (JInt 7).
Proof.
  intros Hm Hmid Hp Hd. unfold normalDtlsParameters in Hd. split_keys. unfold answerBase.
  match goal with H : key_ok "role" _ dtls = true |- _ => rename H into Hr end.
  rewrite (idx_member _ _ _ Hmid), (idx_find _ _ _ (contains_member _ _ Hp)), (idx_member _ _ _ Hr). cbn [obind].
  destruct (key_ok_find _ _ _ Hmid) as [Fmid _], (key_ok_find _ _ _ Hr) as [_ Hrole].
  destruct (member "role" dtls) as [| | | | |role| |]; try done. cbn [get_string obind].
  match goal with |- context [set_setup role ?x] => set (m1 := x) end.
  assert (is_object m1 = true) as Hm1 by (unfold m1; auto 20 with media).
  eexists. split; [done|].
  rewrite (proj2 (set_setup_find role "mid" m1 Hm1 ltac:(done))), (proj2 (set_setup_find role "port" m1 Hm1 ltac:(done))).
  split_and!; [by apply (set_setup_find role "mid")|unfold m1; media_find; by rewrite Fmid|unfold m1; by media_find].
Qed.

Lemma AnswerMediaSection_ok ice cands dtls sctp offer answerParams options offerParams pts mid type :
  normalIceParameters ice = true -> normalIceCandidates cands = true -> normalDtlsParameters dtls = true ->
  offer_object offer = true -> find "mid" offer = Some (JString mid) -> find "type" offer = Some (JString type) ->
  (type = "audio" \/ type = "video") ->
  answer_parameters answerParams -> offered offerParams pts ->
  Forall (options_fit options pts) (codecs_of answerParams) ->
  exists s offerParams',
    AnswerMediaSection ice cands dtls sctp offer answerParams options offerParams = (Ok s, offerParams') /\
    offered offerParams' pts /\ section_kind s = AnswerSection /\ section_is s mid false /\
    find "direction" (mediaObject s) = Some (JString "recvonly") /\
    media_answer (mediaObject s) offer answerParams.
Proof.
  intros Hi Hc Hd Hoff Hmid Htype Hk Hap Ho Hfit. unfold offer_object in Hoff. split_keys.
  destruct (newMediaObject_ok _ _ Hi Hc) as (m & ls & Hm & Hobj & _).
  destruct (answerBase_ok m dtls offer type) as (m1 & Hb & Ho1 & Hmid1 & Hport1); [done..|].
  assert (wp (AnswerMediaSection ice cands dtls sctp offer answerParams options)
    (fun s p => offered p pts /\ section_kind s = AnswerSection /\ section_is s mid false /\
       find "direction" (mediaObject s) = Some (JString "recvonly") /\ media_answer (mediaObject s) offer answerParams)
    (fun _ _ => False) offerParams) as Hwp.
  { unfold AnswerMediaSection. rewrite Hm, (idx_find _ _ _ Htype). do 2 wp_step. cbn [owp]. do 2 wp_step. cbn [owp].
    do 2 wp_step. cbn [owp get_string]. rewrite Hb. do 2 wp_step. cbn [owp].
    assert (String.eqb type "audio" || String.eqb type "video" = true) as -> by (by destruct Hk as [-> | ->]).
    wp_step. eapply wp_answerMedia; [done..|]. intros m' offerParams' Ho' Hm' Hp' _ Hdir Hma Hoff'. wp_step.
    split_and!; try done. split; cbn [mediaObject]; [done|by rewrite Hm', Hmid1|exists (JInt 7); by rewrite Hp'|].
    unfold contains. by rewrite (ma_payloads _ _ _ Hma). }
  unfold wp in Hwp. destruct (AnswerMediaSection _ _ _ _ _ _ _ _) as [[s|e|] p]; try done. by exists s, p.
Qed.

(** C37: an answer section for a producer.  For validated transport
    parameters, a complete offered media object of type audio or video, answer
    parameters in normal form and codec options that are absent or valid and
    whose codecs are offered, the constructor returns (no exception, no
    undefined behaviour) an open recvonly section with the mid of the offer;
    its rtp lines and payload list are those of the answer parameters, in
    order, and every header extension is one that the offer has. *)
Theorem answer_section_correct ice cands dtls sctp offer answerParams options offerParams pts mid type :
  normalIceParameters ice = true -> normalIceCandidates cands = true -> normalDtlsParameters dtls = true ->
  offer_object offer = true -> find "mid" offer = Some (JString mid) -> find "type" offer = Some (JString type) ->
  (type = "audio" \/ type = "video") ->
  answer_parameters answerParams -> offered offerParams pts ->
  Forall (options_fit options pts) (codecs_of answerParams) ->
  exists s offerParams',
    AnswerMediaSection ice cands dtls sctp offer answerParams options offerParams = (Ok s, offerParams') /\
    offered offerParams' pts /\ section_kind s = AnswerSection /\ section_is s mid false /\
    find "direction" (mediaObject s) = Some (JString "recvonly") /\
    media_answer (mediaObject s) offer answerParams.
Proof. apply AnswerMediaSection_ok. Qed.

Definition sample_dtls : json := mk_obj
  [ ("role", JString "auto");
    ("fingerprints", JArray [mk_obj [("algorithm", JString "sha-256"); ("value", JString "AA:BB")]]) ].
Definition sample_offer_media : json := mk_obj
  [ ("type", JString "audio"); ("mid", JString "0"); ("protocol", JString "UDP/TLS/RTP/SAVPF");
    ("ext", JArray [mk_obj [("uri", JString "urn:ietf:params:rtp-hdrext:ssrc-audio-level"); ("value", JInt 1)]]) ].
Definition sample_opus : json := mk_obj
  [ ("mimeType", JString "audio/opus"); ("payloadType", JInt 111); ("clockRate", JInt 48000); ("channels", JInt 2);
    ("parameters", mk_obj [("minptime", JInt 10)]); ("rtcpFeedback", JArray []) ].
Definition sample_level_ext : json := mk_obj
  [("uri", JString "urn:ietf:params:rtp-hdrext:ssrc-audio-level"); ("id", JInt 1); ("encrypt", JBool false); ("parameters", JObject [])].
Definition sample_sending : json := mk_obj
  [ ("mid", JNull); ("codecs", JArray [sample_opus]); ("headerExtensions", JArray [sample_level_ext]);
    ("encodings", JArray []); ("rtcp", JObject []) ].
Definition sample_options : json := mk_obj [("opusStereo", JBool true); ("opusDtx", JBool false)].

Lemma answer_section_correct_witness :
  exists s p, AnswerMediaSection sample_ice sample_candidates sample_dtls JNull sample_offer_media sample_sending
    (Some sample_options) sample_sending = (Ok s, p) /\ section_is s "0" false.
Proof.
  destruct (answer_section_correct sample_ice sample_candidates sample_dtls JNull sample_offer_media sample_sending
    (Some sample_options) sample_sending [JInt 111] "0" "audio") as (s & p & Hs & _ & _ & H & _).
  - vm_compute. reflexivity.
  - vm_compute. reflexivity.
  - vm_compute. reflexivity.
  - vm_compute. reflexivity.
  - vm_compute. reflexivity.
  - vm_compute. reflexivity.
  - by left.
  - split; [vm_compute; reflexivity| |vm_compute; reflexivity|].
    + apply Forall_forallb. vm_compute. reflexivity.
    + apply Forall_forallb. vm_compute. reflexivity.
  - split. eexists _, [sample_opus]. split; [reflexivity|]. split; [vm_compute; reflexivity|].
    split; [apply Forall_forallb|]; vm_compute; reflexivity.
  - constructor; [|constructor]. split; vm_compute; reflexivity.
  - by exists s, p.
Defined.
