(* ===== verification/Regex.v ===== *)
(** * Regular expressions

    The ECMAScript expressions of libsdptransform's grammar as a data type, with
    the backtracking matcher that the standard prescribes: alternatives are
    tried from left to right, repetition is greedy, and the first way to match
    determines the groups. *)

From stdpp Require Import base list strings.
From Stdlib Require Import ZArith Lia Ascii.
From S2P Require Import Prelude Text Utils.

Inductive regex :=
| Eps
| Bol
| Eol
| One (p : ascii -> bool)
| Seq (a b : regex)
| Alt (a b : regex)
| Star (a : regex)
| Group (n : nat) (a : regex).

(** ** Notation for the expressions of the grammar *)

Definition one_of (cs : list ascii) (c : ascii) : bool := existsb (Ascii.eqb c) cs.
Definition is_digit (c : ascii) : bool := match digit c with Some _ => true | None => false end.
Definition in_range (lo hi : N) (c : ascii) : bool := let n := N_of_ascii c in (lo <=? n)%N && (n <=? hi)%N.
Definition is_word_char (c : ascii) : bool :=
  in_range 48 57 c || in_range 65 90 c || in_range 97 122 c || Ascii.eqb c "_"%char.
Definition chars (s : string) : list ascii := String.list_ascii_of_string s.

(** Literal text, [.], [\d], [\w], [\s], [\S], [x?], [x+] and sequences. *)
Fixpoint Lit (s : string) : regex :=
  match s with EmptyString => Eps | String c r => Seq (One (Ascii.eqb c)) (Lit r) end.
Definition Dot : regex := One (fun c => negb (is_line_terminator c)).
Definition Digit : regex := One is_digit.
Definition Word : regex := One is_word_char.
Definition Space : regex := One is_space.
Definition NotSpace : regex := One (fun c => negb (is_space c)).
Definition Opt (a : regex) : regex := Alt a Eps.
Definition Plus (a : regex) : regex := Seq a (Star a).
Definition Seqs : list regex -> regex := foldr Seq Eps.
Definition Words (ws : list string) : regex :=
  match ws with [] => Eps | w :: r => foldl (fun a w => Alt a (Lit w)) (Lit w) r end.

(** ** Matching *)

(** The groups that have taken part, latest first. *)
Definition captures := list (nat * string).

(** The text between two positions of the same string, given by their rests. *)
Definition between (s r : string) : string := String.substring 0 (String.length s - String.length r) s.

(** [m k at_start s caps]: match a prefix of [s], then go on with [k].  A
    repetition that consumes nothing stops, so a repetition is entered at most
    once per character; [fuel] counts these. *)
Definition cont := bool -> string -> captures -> option (captures * string).

Fixpoint star_loop (body : cont -> cont) (fuel : nat) (k : cont) : cont := fun bol s caps =>
  match fuel with
  | 0 => k bol s caps
  | S fuel =>
    match body (fun bol' r caps' =>
      if Nat.ltb (String.length r) (String.length s) then star_loop body fuel k bol' r caps' else None) bol s caps with
    | Some x => Some x
    | None => k bol s caps
    end
  end.

Fixpoint run_regex (a : regex) (k : cont) : cont := fun bol s caps =>
  match a with
  | Eps => k bol s caps
  | Bol => if bol then k bol s caps else None
  | Eol => match s with EmptyString => k bol s caps | _ => None end
  | One p =>
    match s with
    | String c r => if p c then k false r caps else None
    | EmptyString => None
    end
  | Seq a b => run_regex a (run_regex b k) bol s caps
  | Alt a b =>
    match run_regex a k bol s caps with Some x => Some x | None => run_regex b k bol s caps end
  | Star a => star_loop (run_regex a) (String.length s) k bol s caps
  | Group n a => run_regex a (fun bol' r caps' => k bol' r ((n, between s r) :: caps')) bol s caps
  end.

Definition accept_any : cont := fun _ r caps => Some (caps, r).
Definition accept_end : cont := fun _ r caps => match r with EmptyString => Some (caps, r) | _ => None end.

(** [std::regex_search]: the first position from the left that matches. *)
Fixpoint search_from (a : regex) (bol : bool) (s : string) : option captures :=
  match run_regex a accept_any bol s [] with
  | Some (caps, _) => Some caps
  | None => match s with String _ r => search_from a false r | EmptyString => None end
  end.
Definition regex_search (s : string) (a : regex) : option captures := search_from a true s.
(** [std::regex_match]: the whole text. *)
Definition regex_match (s : string) (a : regex) : option captures :=
  option_map fst (run_regex a accept_end true s []).

(** [match[n].str()]: empty for a group that took no part. *)
Definition group (n : nat) (caps : captures) : string :=
  match List.find (fun x => Nat.eqb x.1 n) caps with Some (_, s) => s | None => EmptyString end.
