(* ===== verification/Grammar.v ===== *)
(** * libsdptransform/src/grammar.cpp

    The rules that tie SDP lines to JSON members, one definition per rule, with
    the expressions, member names, value types and formats of the source. *)

From stdpp Require Import base list strings.
From Stdlib Require Import ZArith Lia Ascii.
From S2P Require Import Prelude Json Text Utils Regex.

(** [formatFunc] is used when [format] is empty. *)
Record Rule := mkRule {
  rule_name : string;
  rule_push : string;
  rule_reg : regex;
  rule_names : list string;
  rule_types : list ascii;
  rule_format : string;
  rule_formatFunc : json -> string;
}.
Definition no_func (o : json) : string := EmptyString.

Definition hasValue (o : json) (key : string) : bool :=
  match find key o with
  | None => false
  | Some it => match it with JString s => negb (String.eqb s "") | _ => is_number it end
  end.

(** Groups of the expressions that occur often. *)
Definition Any (n : nat) : regex := Group n (Star Dot).
Definition Digits (n : nat) : regex := Group n (Star Digit).
Definition Token (n : nat) : regex := Group n (Star NotSpace).
Definition WordChars (n : nat) : regex := Group n (Star Word).
Definition Sp : regex := Lit " ".

Definition rule_version : Rule :=
  mkRule "version" "" (Seqs [Bol; Digits 1; Eol]) [] (chars "d") "%d" no_func.
Definition rule_origin : Rule :=
  mkRule "origin" ""
    (Seqs [Bol; Token 1; Sp; Digits 2; Sp; Digits 3; Sp; Token 4; Lit " IP"; Group 5 Digit; Sp; Token 6])
    ["username"; "sessionId"; "sessionVersion"; "netType"; "ipVer"; "address"] (chars "sddsds")
    "%s %d %d %s IP%d %s" no_func.
Definition rule_session_name : Rule := mkRule "name" "" (Any 1) [] (chars "s") "%s" no_func.
Definition rule_description : Rule := mkRule "description" "" (Any 1) [] (chars "s") "%s" no_func.
Definition rule_uri : Rule := mkRule "uri" "" (Any 1) [] (chars "s") "%s" no_func.
Definition rule_email : Rule := mkRule "email" "" (Any 1) [] (chars "s") "%s" no_func.
Definition rule_phone : Rule := mkRule "phone" "" (Any 1) [] (chars "s") "%s" no_func.
Definition rule_timezones : Rule := mkRule "timezones" "" (Any 1) [] (chars "s") "%s" no_func.
Definition rule_repeats : Rule := mkRule "repeats" "" (Any 1) [] (chars "s") "%s" no_func.
Definition rule_timing : Rule :=
  mkRule "timing" "" (Seqs [Bol; Digits 1; Sp; Digits 2]) ["start"; "stop"] (chars "dd") "%d %d" no_func.

(** The class of the address is [^\\S/]: no backslash, no S and no slash. *)
Definition rule_connection : Rule :=
  mkRule "connection" ""
    (Seqs [Bol; Lit "IN IP"; Group 1 Digit; Sp;
           Group 2 (Star (One (fun c => negb (one_of (chars "\S/") c)))); Opt (Seqs [Lit "/"; Digits 3])])
    ["version"; "ip"; "ttl"] (chars "dsd") ""
    (fun o => if hasValue o "ttl" then "IN IP%d %s/%d" else "IN IP%d %s").
Definition rule_bandwidth : Rule :=
  mkRule "" "bandwidth"
    (Seqs [Bol; Group 1 (Words ["TIAS"; "AS"; "CT"; "RR"; "RS"]); Lit ":"; Digits 2])
    ["type"; "limit"] (chars "sd") "%s:%d" no_func.
Definition rule_media : Rule :=
  mkRule "" ""
    (Seqs [Bol; WordChars 1; Sp; Digits 2; Opt (Seqs [Lit "/"; Digits 3]); Sp;
           Group 4 (Star (One (fun c => is_word_char c || Ascii.eqb c "/"))); Opt (Seqs [Sp; Any 5])])
    ["type"; "port"; "numPorts"; "protocol"; "payloads"] (chars "sddss") ""
    (fun o => if hasValue o "numPorts" then "%s %d/%d %s %s" else "%s %d%v %s %s").

(** ** Attributes *)

Definition word_or (s : string) : regex := One (fun c => is_word_char c || one_of (chars s) c).

Definition rule_rtp : Rule :=
  mkRule "" "rtp"
    (Seqs [Bol; Lit "rtpmap:"; Digits 1; Sp; Group 2 (Star (word_or "-."));
           Opt (Seqs [Star Space; Lit "/"; Digits 3; Opt (Seqs [Star Space; Lit "/"; Token 4])])])
    ["payload"; "codec"; "rate"; "encoding"] (chars "dsds") ""
    (fun o => if hasValue o "encoding" then "rtpmap:%d %s/%s/%s"
              else if hasValue o "rate" then "rtpmap:%d %s/%s" else "rtpmap:%d %s").
Definition rule_fmtp : Rule :=
  mkRule "" "fmtp" (Seqs [Bol; Lit "fmtp:"; Digits 1; Sp; Any 2])
    ["payload"; "config"] (chars "ds") "fmtp:%d %s" no_func.
Definition rule_control : Rule :=
  mkRule "control" "" (Seqs [Bol; Lit "control:"; Any 1]) [] (chars "s") "control:%s" no_func.
Definition rule_rtcp : Rule :=
  mkRule "rtcp" ""
    (Seqs [Bol; Lit "rtcp:"; Digits 1; Opt (Seqs [Sp; Token 2; Lit " IP"; Group 3 Digit; Sp; Token 4])])
    ["port"; "netType"; "ipVer"; "address"] (chars "dsds") ""
    (fun o => if hasValue o "address" then "rtcp:%d %s IP%d %s" else "rtcp:%d").
Definition star_or_digits (n : nat) : regex := Group n (Alt (Lit "*") (Star Digit)).
Definition rule_rtcpFbTrrInt : Rule :=
  mkRule "" "rtcpFbTrrInt" (Seqs [Bol; Lit "rtcp-fb:"; star_or_digits 1; Lit " trr-int "; Digits 2])
    ["payload"; "value"] (chars "sd") "rtcp-fb:%s trr-int %d" no_func.
Definition rule_rtcpFb : Rule :=
  mkRule "" "rtcpFb"
    (Seqs [Bol; Lit "rtcp-fb:"; star_or_digits 1; Sp; Group 2 (Star (word_or "-_"));
           Opt (Seqs [Sp; Group 3 (Star (word_or "-_"))])])
    ["payload"; "type"; "subtype"] (chars "sss") ""
    (fun o => if hasValue o "subtype" then "rtcp-fb:%s %s %s" else "rtcp-fb:%s %s").
Definition rule_ext : Rule :=
  mkRule "" "ext"
    (Seqs [Bol; Lit "extmap:"; Group 1 (Plus Digit); Opt (Seqs [Lit "/"; Group 2 (Plus Word)]);
           Opt (Seqs [Sp; Group 3 (Lit "urn:ietf:params:rtp-hdrext:encrypt")]); Sp; Token 4;
           Opt (Seqs [Sp; Token 5])])
    ["value"; "direction"; "encrypt-uri"; "uri"; "config"] (chars "dssss") ""
    (fun o => "extmap:%d" +:+ (if hasValue o "direction" then "/%s" else "%v") +:+
              (if hasValue o "encrypt-uri" then " %s" else "%v") +:+ " %s" +:+
              (if hasValue o "config" then " %s" else "")).
Definition rule_extmapAllowMixed : Rule :=
  mkRule "extmapAllowMixed" "" (Seqs [Bol; Group 1 (Lit "extmap-allow-mixed")]) [] (chars "s") "%s" no_func.
Definition rule_crypto : Rule :=
  mkRule "" "crypto"
    (Seqs [Bol; Lit "crypto:"; Digits 1; Sp; WordChars 2; Sp; Token 3; Opt (Seqs [Sp; Token 4])])
    ["id"; "suite"; "config"; "sessionConfig"] (chars "dsss") ""
    (fun o => if hasValue o "sessionConfig" then "crypto:%d %s %s %s" else "crypto:%d %s %s").
Definition rule_setup : Rule :=
  mkRule "setup" "" (Seqs [Bol; Lit "setup:"; WordChars 1]) [] (chars "s") "setup:%s" no_func.
Definition rule_mid : Rule :=
  mkRule "mid" "" (Seqs [Bol; Lit "mid:"; Token 1]) [] (chars "s") "mid:%s" no_func.
Definition rule_msid : Rule :=
  mkRule "msid" "" (Seqs [Bol; Lit "msid:"; Any 1]) [] (chars "s") "msid:%s" no_func.
Definition rule_ptime : Rule :=
  mkRule "ptime" "" (Seqs [Bol; Lit "ptime:"; Digits 1]) [] (chars "d") "ptime:%d" no_func.
Definition rule_maxptime : Rule :=
  mkRule "maxptime" "" (Seqs [Bol; Lit "maxptime:"; Digits 1]) [] (chars "d") "maxptime:%d" no_func.
Definition rule_direction : Rule :=
  mkRule "direction" "" (Seqs [Bol; Group 1 (Words ["sendrecv"; "recvonly"; "sendonly"; "inactive"])])
    [] (chars "s") "%s" no_func.
Definition rule_icelite : Rule :=
  mkRule "icelite" "" (Seqs [Bol; Group 1 (Lit "ice-lite")]) [] (chars "s") "%s" no_func.
Definition rule_iceUfrag : Rule :=
  mkRule "iceUfrag" "" (Seqs [Bol; Lit "ice-ufrag:"; Token 1]) [] (chars "s") "ice-ufrag:%s" no_func.
Definition rule_icePwd : Rule :=
  mkRule "icePwd" "" (Seqs [Bol; Lit "ice-pwd:"; Token 1]) [] (chars "s") "ice-pwd:%s" no_func.
Definition rule_fingerprint : Rule :=
  mkRule "fingerprint" "" (Seqs [Bol; Lit "fingerprint:"; Token 1; Sp; Token 2])
    ["type"; "hash"] (chars "ss") "fingerprint:%s %s" no_func.

(** There are 14 types for 13 names. *)
Definition rule_candidates : Rule :=
  mkRule "" "candidates"
    (Seqs [Bol; Lit "candidate:"; Token 1; Sp; Digits 2; Sp; Token 3; Sp; Digits 4; Sp; Token 5; Sp; Digits 6;
           Lit " typ "; Token 7; Opt (Seqs [Lit " raddr "; Token 8; Lit " rport "; Digits 9]);
           Opt (Seqs [Lit " tcptype "; Token 10]); Opt (Seqs [Lit " generation "; Digits 11]);
           Opt (Seqs [Lit " network-id "; Digits 12]); Opt (Seqs [Lit " network-cost "; Digits 13])])
    ["foundation"; "component"; "transport"; "priority"; "ip"; "port"; "type"; "raddr"; "rport"; "tcptype";
     "generation"; "network-id"; "network-cost"] (chars "sdsdsdssdsdddd") ""
    (fun o => "candidate:%s %d %s %d %s %d typ %s" +:+
              (if hasValue o "raddr" then " raddr %s rport %d" else "%v%v") +:+
              (if hasValue o "tcptype" then " tcptype %s" else "%v") +:+
              (if hasValue o "generation" then " generation %d" else "") +:+
              (if hasValue o "network-id" then " network-id %d" else "%v") +:+
              (if hasValue o "network-cost" then " network-cost %d" else "%v")).
Definition rule_endOfCandidates : Rule :=
  mkRule "endOfCandidates" "" (Seqs [Bol; Group 1 (Lit "end-of-candidates")]) [] (chars "s") "%s" no_func.
Definition rule_remoteCandidates : Rule :=
  mkRule "remoteCandidates" "" (Seqs [Bol; Lit "remote-candidates:"; Any 1]) [] (chars "s")
    "remote-candidates:%s" no_func.
Definition rule_iceOptions : Rule :=
  mkRule "iceOptions" "" (Seqs [Bol; Lit "ice-options:"; Token 1]) [] (chars "s") "ice-options:%s" no_func.
Definition rule_ssrcs : Rule :=
  mkRule "" "ssrcs"
    (Seqs [Bol; Lit "ssrc:"; Digits 1; Sp; Group 2 (Star (word_or "_-")); Opt (Seqs [Lit ":"; Any 3])])
    ["id"; "attribute"; "value"] (chars "dss") ""
    (fun o => "ssrc:%d" +:+
              (if hasValue o "attribute" then " %s" +:+ (if hasValue o "value" then ":%s" else "") else "")).
(** In the class, [+-.] is a range: plus, comma, minus and point. *)
Definition rule_ssrcGroups : Rule :=
  mkRule "" "ssrcGroups"
    (Seqs [Bol; Lit "ssrc-group:";
           Group 1 (Star (One (fun c => is_word_char c || one_of (chars "!#$%&'*") c || in_range 43 46 c))); Sp; Any 2])
    ["semantics"; "ssrcs"] (chars "ss") "ssrc-group:%s %s" no_func.
Definition rule_msidSemantic : Rule :=
  mkRule "msidSemantic" "" (Seqs [Bol; Lit "msid-semantic:"; Opt Space; WordChars 1; Sp; Token 2])
    ["semantic"; "token"] (chars "ss") "msid-semantic: %s %s" no_func.
Definition rule_groups : Rule :=
  mkRule "" "groups" (Seqs [Bol; Lit "group:"; WordChars 1; Sp; Any 2])
    ["type"; "mids"] (chars "ss") "group:%s %s" no_func.
Definition rule_rtcpMux : Rule :=
  mkRule "rtcpMux" "" (Seqs [Bol; Group 1 (Lit "rtcp-mux")]) [] (chars "s") "%s" no_func.
Definition rule_rtcpRsize : Rule :=
  mkRule "rtcpRsize" "" (Seqs [Bol; Group 1 (Lit "rtcp-rsize")]) [] (chars "s") "%s" no_func.
Definition rule_sctpmap : Rule :=
  mkRule "sctpmap" ""
    (Seqs [Bol; Lit "sctpmap:"; Group 1 (Plus Digit); Sp; Token 2; Opt (Seqs [Sp; Digits 3])])
    ["sctpmapNumber"; "app"; "maxMessageSize"] (chars "dsd") ""
    (fun o => if hasValue o "maxMessageSize" then "sctpmap:%s %s %s" else "sctpmap:%s %s").
Definition rule_xGoogleFlag : Rule :=
  mkRule "xGoogleFlag" "" (Seqs [Lit "x-google-flag:"; Token 1]) [] (chars "s") "x-google-flag:%s" no_func.
Definition rule_rids : Rule :=
  mkRule "" "rids"
    (Seqs [Bol; Lit "rid:"; Group 1 (Plus Word); Sp; Group 2 (Plus Word); Opt (Seqs [Sp; Any 3])])
    ["id"; "direction"; "params"] (chars "sss") ""
    (fun o => if hasValue o "params" then "rid:%s %s %s" else "rid:%s %s").
Definition bracketed : regex := Seqs [Lit "["; Plus NotSpace; Lit "]"].
Definition image_list (n : nat) : regex :=
  Group n (Alt (Lit "*") (Seq bracketed (Star (Seq (Plus Space) bracketed)))).
Definition rule_imageattrs : Rule :=
  mkRule "" "imageattrs"
    (Seqs [Bol; Lit "imageattr:"; Group 1 (Alt (Plus Digit) (Lit "*"));
           Plus Space; Group 2 (Words ["send"; "recv"]); Plus Space; image_list 3;
           Opt (Seqs [Plus Space; Group 4 (Words ["recv"; "send"]); Plus Space; image_list 5])])
    ["pt"; "dir1"; "attrs1"; "dir2"; "attrs2"] (chars "sssss") ""
    (fun o => "imageattr:%s %s %s" +:+ (if hasValue o "dir2" then " %s %s" else "")).
Definition stream_list (n : nat) : regex :=
  Group n (Plus (One (fun c => in_range 97 122 c || in_range 65 90 c || is_digit c || one_of (chars "-_~;,") c))).
Definition rule_simulcast : Rule :=
  mkRule "simulcast" ""
    (Seqs [Bol; Lit "simulcast:"; Group 1 (Words ["send"; "recv"]); Sp; stream_list 2;
           Opt (Seqs [Opt Space; Group 3 (Words ["send"; "recv"]); Sp; stream_list 4]); Eol])
    ["dir1"; "list1"; "dir2"; "list2"] (chars "ssss") ""
    (fun o => "simulcast:%s %s" +:+ (if hasValue o "dir2" then " %s %s" else "")).
Definition rule_simulcast_03 : Rule :=
  mkRule "simulcast_03" "" (Seqs [Bol; Lit "simulcast: "; Group 1 (Plus Dot); Eol])
    ["value"] (chars "s") "simulcast: %s" no_func.
Definition rule_framerate : Rule :=
  mkRule "framerate" ""
    (Seqs [Bol; Lit "framerate:"; Group 1 (Seq (Plus Digit) (Alt Eol (Seqs [Lit "."; Plus Digit])))])
    [] (chars "f") "framerate:%s" no_func.
Definition rule_sourceFilter : Rule :=
  mkRule "sourceFilter" ""
    (Seqs [Bol; Lit "source-filter:"; Plus Space; Group 1 (Words ["excl"; "incl"]); Sp; Token 2; Sp;
           Group 3 (Words ["IP4"; "IP6"; "*"]); Sp; Token 4; Sp; Any 5])
    ["filterMode"; "netType"; "addressTypes"; "destAddress"; "srcList"] (chars "sssss")
    "source-filter: %s %s %s %s %s" no_func.
Definition rule_tsRefclk : Rule :=
  mkRule "tsRefclk" "" (Seqs [Bol; Lit "ts-refclk:"; Any 1]) [] (chars "s") "ts-refclk:%s" no_func.
Definition rule_mediaclk : Rule :=
  mkRule "mediaclk" "" (Seqs [Bol; Lit "mediaclk:"; Any 1]) [] (chars "s") "mediaclk:%s" no_func.
Definition rule_invalid : Rule := mkRule "" "invalid" (Any 1) ["value"] (chars "s") "%s" no_func.

Definition attribute_rules : list Rule :=
  [ rule_rtp; rule_fmtp; rule_control; rule_rtcp; rule_rtcpFbTrrInt; rule_rtcpFb; rule_ext; rule_extmapAllowMixed;
    rule_crypto; rule_setup; rule_mid; rule_msid; rule_ptime; rule_maxptime; rule_direction; rule_icelite;
    rule_iceUfrag; rule_icePwd; rule_fingerprint; rule_candidates; rule_endOfCandidates; rule_remoteCandidates;
    rule_iceOptions; rule_ssrcs; rule_ssrcGroups; rule_msidSemantic; rule_groups; rule_rtcpMux; rule_rtcpRsize;
    rule_sctpmap; rule_xGoogleFlag; rule_rids; rule_imageattrs; rule_simulcast; rule_simulcast_03; rule_framerate;
    rule_sourceFilter; rule_tsRefclk; rule_mediaclk; rule_invalid ].

(** [rulesMap.find(type)] *)
Definition rulesMap (type : ascii) : option (list Rule) :=
  obj_lookup (String type "")
    [ ("v", [rule_version]); ("o", [rule_origin]); ("s", [rule_session_name]); ("i", [rule_description]);
      ("u", [rule_uri]); ("e", [rule_email]); ("p", [rule_phone]); ("z", [rule_timezones]); ("r", [rule_repeats]);
      ("t", [rule_timing]); ("c", [rule_connection]); ("b", [rule_bandwidth]); ("m", [rule_media]);
      ("a", attribute_rules) ].
