(* ===== verification/SdpWrite.v ===== *)
(** * libsdptransform/src/writer.cpp

    Printing of a session object.  [write] first adds the members that it needs
    to the session it is given by reference, then prints by the grammar. *)

From stdpp Require Import base list strings pretty.
From Stdlib Require Import ZArith Lia Ascii.
From S2P Require Import Prelude Json Text OrtcValidateSpec OrtcMatch OrtcExtended Utils Regex Grammar.

(** [operator<<] of a JSON value calls its serializer, which may throw for
    arrays and objects with text that is not UTF-8.  Their printing, and that of
    floats, is a parameter here, which SdpDump.v instantiates with the
    serializer. *)
Class JsonDump := { dump_other : json -> string }.
Definition dump `{JsonDump} (j : json) : string :=
  match j with
  | JNull => "null"
  | JBool b => if b : bool then "true" else "false"
  | JInt z | JUint z => pretty z
  | _ => dump_other j
  end.

(** [at(key) const] *)
Definition at_const (k : string) (j : json) : outcome json :=
  match j with
  | JObject o => match obj_lookup k o with Some v => Ok v | None => Throw (JsonOutOfRange 403) end
  | _ => Throw (JsonTypeError 304)
  end.

Definition nonempty (s : string) : bool := negb (String.eqb s "").

(** ** One line *)

(** [%[sdv%]] in the format, each taking the next argument; once there is none
    left, the match itself is printed without the text before it.  Text after
    the last match is not printed. *)
Definition is_directive (c : ascii) : bool := one_of (chars "sdv%") c.
Section writer.
Context `{JsonDump}.

Definition argument (c : ascii) (arg : json) : string :=
  if Ascii.eqb c "%" then "%"
  else if Ascii.eqb c "v" then ""
  else match arg with JString s => s | _ => dump arg end.

Fixpoint fill (format prefix : string) (args : list json) : string :=
  match format with
  | String "%"%char (String c r as r0) =>
    if is_directive c then
      match args with
      | [] => String "%" (String c "") +:+ fill r "" []
      | arg :: rest => prefix +:+ argument c arg +:+ fill r "" rest
      end
    else fill r0 (prefix +:+ "%") args
  | String c r => fill r (prefix +:+ String c "") args
  | EmptyString => ""
  end.

(** The argument for one of the names of a rule. *)
Definition named_arg (rule : Rule) (location : json) (name : string) : json :=
  match (if nonempty (rule_name rule) then find (rule_name rule) location ≫= find name else None) with
  | Some v => v
  | None => match find name location with Some v => v | None => JString "" end
  end.

Definition line_args (rule : Rule) (location : json) : list json :=
  match rule_names rule with
  | [] => match find (rule_name rule) location with Some v => [v] | None => [] end
  | names => map (named_arg rule location) names
  end.

Definition line_format (rule : Rule) (location : json) : outcome string :=
  if nonempty (rule_format rule) then Ok (rule_format rule) else
  let! o := if nonempty (rule_push rule) then Ok location
            else if nonempty (rule_name rule) then at_const (rule_name rule) location
            else Ok location in
  Ok (rule_formatFunc rule o).

Definition crlf : string := String (ascii_of_N 13) (String (ascii_of_N 10) "").

Definition makeLine (type : ascii) (rule : Rule) (location : json) : outcome string :=
  let! format := line_format rule location in
  Ok (String type "=" +:+ fill format "" (line_args rule location) +:+ crlf).

(** ** A session *)

Fixpoint oconcat {A} (f : A -> outcome string) (l : list A) : outcome string :=
  match l with
  | [] => Ok ""
  | x :: r => let! s := f x in let! t := oconcat f r in Ok (s +:+ t)
  end.

(** The lines of one rule at a session or a media section. *)
Definition rule_lines (type : ascii) (location : json) (rule : Rule) : outcome string :=
  match (if nonempty (rule_name rule) then find (rule_name rule) location else None) with
  | Some (JNull) | None =>
    match (if nonempty (rule_push rule) then find (rule_push rule) location else None) with
    | Some (JArray l) => oconcat (makeLine type rule) l
    | _ => Ok ""
    end
  | Some _ => makeLine type rule location
  end.

(** [rulesMap.at(type)] *)
Definition rules_at (type : ascii) : outcome (list Rule) :=
  match rulesMap type with Some rules => Ok rules | None => Throw StdOutOfRange end.
Definition type_lines (location : json) (type : ascii) : outcome string :=
  let! rules := rules_at type in oconcat (rule_lines type location) rules.

Definition OuterOrder : list ascii := chars "vosiuepcbtrza".
Definition InnerOrder : list ascii := chars "icba".

Definition media_lines (mLine : json) : outcome string :=
  let! m := makeLine "m" rule_media mLine in
  let! inner := oconcat (type_lines mLine) InnerOrder in
  Ok (m +:+ inner).

Definition session_lines (session : json) : outcome string :=
  let! outer := oconcat (type_lines session) OuterOrder in
  let! media := at_const "media" session in
  let! inner := oconcat media_lines (elems media) in
  Ok (outer +:+ inner).

(** A member that is added unless it is there. *)
Definition ensure (k : string) (v : json) : M json unit :=
  j <- get ;; when (negb (contains k j)) (set_key k v).

Definition write : M json string :=
  j <- get ;;
  throw_if (negb (is_object j)) StdInvalidArgument ;;;
  ensure "version" (JInt 0) ;;;
  ensure "name" (JString "-") ;;;
  ensure "media" (JArray []) ;;;
  deref "media" (for_range (ensure "payloads" (JString ""))) ;;;
  session <- get ;;
  lift (session_lines session).
End writer.

(** ** Printing never fails *)

(** A session that has what [write] would add. *)
Definition writable (j : json) : bool :=
  is_object j && contains "version" j && contains "name" j &&
  key_ok "media" (array_of (fun m => is_object m && contains "payloads" m)) j.

Section writer_facts.
Context `{JsonDump}.

Lemma oconcat_ok {A} (f : A -> outcome string) l : (forall x, x ∈ l -> exists t, f x = Ok t) -> exists t, oconcat f l = Ok t.
Proof.
  induction l as [|x l IH]; intros Hf; [by exists ""|]. cbn [oconcat].
  destruct (Hf x) as [t ->]; [by constructor|]. destruct IH as [u ->]; [intros y Hy; apply Hf; by constructor|].
  by eexists.
Qed.

(** A line can be printed if its named member is there when it is needed. *)
Lemma makeLine_ok type rule loc :
  nonempty (rule_push rule) = true \/ nonempty (rule_name rule) = false \/ contains (rule_name rule) loc = true ->
  exists t, makeLine type rule loc = Ok t.
Proof.
  intros Hl. unfold makeLine, line_format. destruct (nonempty (rule_format rule)); [by eexists|].
  destruct (nonempty (rule_push rule)); [by eexists|]. destruct (nonempty (rule_name rule)); [|by eexists].
  destruct Hl as [?|[?|Hc]]; [done..|]. unfold contains in Hc. unfold at_const.
  destruct loc; try done. cbn [find] in Hc. destruct (obj_lookup _ _); [by eexists|done].
Qed.

Lemma rule_lines_ok type loc rule : exists t, rule_lines type loc rule = Ok t.
Proof.
  unfold rule_lines.
  assert (exists t, match (if nonempty (rule_push rule) then find (rule_push rule) loc else None) with
    | Some (JArray l) => oconcat (makeLine type rule) l | _ => Ok "" end = Ok t) as Hpush.
  { destruct (nonempty (rule_push rule)) eqn:Ep; [|by eexists].
    destruct (find (rule_push rule) loc) as [[]|]; try (by eexists).
    apply oconcat_ok. intros x _. apply makeLine_ok. by left. }
  destruct (nonempty (rule_name rule)) eqn:En; [|done].
  destruct (find (rule_name rule) loc) as [v|] eqn:E; [|done].
  assert (exists t, makeLine type rule loc = Ok t) as Hm.
  { apply makeLine_ok. right. right. unfold contains. by rewrite E. }
  by destruct v.
Qed.

Lemma type_lines_ok loc type : type ∈ OuterOrder ++ InnerOrder -> exists t, type_lines loc type = Ok t.
Proof.
  intros Ht. unfold type_lines, rules_at.
  assert (forallb (fun t => match rulesMap t with Some _ => true | None => false end) (OuterOrder ++ InnerOrder) = true) as Hall
    by (vm_compute; reflexivity).
  rewrite forallb_forall in Hall. apply list_elem_of_In, Hall in Ht. destruct (rulesMap type) as [rules|]; [|done].
  apply oconcat_ok. intros rule _. apply rule_lines_ok.
Qed.

Lemma media_lines_ok m : exists t, media_lines m = Ok t.
Proof.
  unfold media_lines. destruct (makeLine_ok "m" rule_media m) as [t ->]; [right; by left|]. cbn [obind].
  destruct (oconcat_ok (type_lines m) InnerOrder) as [u ->]; [|by eexists].
  intros x Hx. apply type_lines_ok, elem_of_app. by right.
Qed.

Lemma session_lines_ok j : contains "media" j = true -> exists t, session_lines j = Ok t.
Proof.
  intros Hm. unfold session_lines. destruct (oconcat_ok (type_lines j) OuterOrder) as [t ->].
  { intros x Hx. apply type_lines_ok, elem_of_app. by left. }
  cbn [obind]. unfold contains in Hm. unfold at_const. destruct j; try done. cbn [find] in Hm.
  destruct (obj_lookup "media" o) as [media|]; [|done]. cbn [obind].
  destruct (oconcat_ok media_lines (elems media)) as [u ->]; [intros; apply media_lines_ok|]. by eexists.
Qed.

Lemma ensure_present k v j : contains k j = true -> ensure k v j = (Ok tt, j).
Proof. intros Hk. unfold ensure. by rewrite (bind_ok get _ _ _ _ eq_refl), Hk. Qed.

Lemma write_ok j : writable j = true -> exists t, write j = (Ok t, j) /\ session_lines j = Ok t.
Proof.
  unfold writable. rewrite !andb_true_iff. intros [[[Ho Hv] Hn] Hm].
  unfold key_ok in Hm. apply negb_true_iff, missing_false in Hm as (media & Fm & Ha).
  assert (contains "media" j = true) as Hc by (unfold contains; by rewrite Fm).
  destruct (session_lines_ok j Hc) as [t Ht]. exists t. split; [|done]. unfold write.
  rewrite (bind_ok get _ _ _ _ eq_refl), Ho. cbn [negb throw_if]. rewrite (bind_ok (ret tt) _ _ _ _ eq_refl).
  rewrite (bind_ok _ _ _ _ _ (ensure_present _ _ _ Hv)), (bind_ok _ _ _ _ _ (ensure_present _ _ _ Hn)),
    (bind_ok _ _ _ _ _ (ensure_present _ _ _ Hc)).
  destruct media as [| | | | | |l|]; try done. cbn [array_of] in Ha.
  assert (deref "media" (for_range (ensure "payloads" (JString ""))) j = (Ok tt, j)) as Hd.
  { apply (deref_fixed _ _ _ _ (JArray l)); [done..|]. apply for_range_fixed. apply Forall_forallb in Ha.
    eapply Forall_impl; [exact Ha|]. intros m [_ Hp]%andb_prop. by apply ensure_present. }
  rewrite (bind_ok _ _ _ _ _ Hd), (bind_ok get _ _ _ _ eq_refl). unfold lift. by rewrite Ht.
Qed.
End writer_facts.
