(* ===== verification/SdpParse.v ===== *)
(** * libsdptransform/src/parser.cpp

    Parsing of SDP text into a session object.  [std::istringstream >> x] with
    [noskipws] reads a sign and digits, or a decimal floating-point number; the
    type [long] has 64 bits. *)

From stdpp Require Import base list strings pretty.
From Stdlib Require Import ZArith Lia Ascii SpecFloat.
From S2P Require Import Prelude Json Text Utils Regex Grammar.

(** ** Numbers *)

Fixpoint all_digits_ne (s : string) : bool :=
  match s with
  | EmptyString => false
  | String c EmptyString => is_digit c
  | String c r => is_digit c && all_digits_ne r
  end.

(** Sign and rest of a number. *)
Definition read_sign (s : string) : bool * string :=
  match s with
  | String "-"%char r => (true, r)
  | String "+"%char r => (false, r)
  | _ => (false, s)
  end.

(** [iss >> l] for a 64-bit integer, up to the end of the text. *)
Definition read_int64 (s : string) : option Z :=
  let '(neg, r) := read_sign s in
  if all_digits_ne r then
    (let v := if neg then - digits_value 0 r else digits_value 0 r in
     if (- 2 ^ 63 <=? v) && (v <? 2 ^ 63) then Some v else None)%Z
  else None.

(** The digits at the front, and the rest. *)
Fixpoint span_digits (s : string) : string * string :=
  match s with
  | String c r => if is_digit c then let '(d, t) := span_digits r in (String c d, t) else (EmptyString, s)
  | EmptyString => (EmptyString, EmptyString)
  end.

(** A decimal number as mantissa and power of ten. *)
Definition read_decimal (s : string) : option (bool * Z * Z) :=
  let '(neg, r) := read_sign s in
  let '(i, r) := span_digits r in
  let '(f, r) := match r with String "."%char r' => span_digits r' | _ => (EmptyString, r) end in
  if Nat.eqb (String.length i + String.length f) 0 then None else
  let m := digits_value 0 (i +:+ f) in
  let e := (- Z.of_nat (String.length f))%Z in
  match r with
  | EmptyString => Some (neg, m, e)
  | String c r' =>
    if Ascii.eqb c "e" || Ascii.eqb c "E" then
      let '(eneg, d) := read_sign r' in
      if all_digits_ne d then Some (neg, m, if eneg then e - digits_value 0 d else e + digits_value 0 d)%Z else None
    else None
  end.

(** The nearest number of the format, ties to even.  With a negative power of
    ten the quotient has more bits than the format and a sticky bit. *)
Definition round_decimal (prec emax : Z) (neg : bool) (m e : Z) : spec_float :=
  (if 0 <=? e then binary_normalize prec emax (if neg then - (m * 10 ^ e) else m * 10 ^ e) 0 neg
   else
     let d := 10 ^ (- e) in
     let s := Z.max 0 (Z.log2 d + prec + 4 - Z.log2 (Z.max 1 m)) in
     let q := m * 2 ^ s / d in
     let sticky := if m * 2 ^ s mod d =? 0 then 0 else 1 in
     let q' := 2 * q + sticky in
     binary_normalize prec emax (if neg then - q' else q') (- s - 1) neg)%Z.

(** [iss >> f], up to the end of the text; overflow fails. *)
Definition read_float (prec emax : Z) (s : string) : option spec_float :=
  match read_decimal s with
  | Some (neg, m, e) =>
    match round_decimal prec emax neg m e with
    | S754_infinity _ | S754_nan => None
    | f => Some f
    end
  | None => None
  end.

Definition isInt (s : string) : bool := match read_int64 s with Some _ => true | None => false end.
Definition isFloat (s : string) : bool := match read_float 24 128 s with Some _ => true | None => false end.

Definition toType (str : string) (type : ascii) : json :=
  if Ascii.eqb type "s" then JString str
  else if Ascii.eqb type "d" then JInt (default 0%Z (read_int64 str))
  else if Ascii.eqb type "f" then
    match read_float 53 1024 str with Some f => JFloat f | None => JFloat (S754_zero false) end
  else JNull.

(** ** Parameters *)

Definition trim_left (s : string) : string := skip_space s.
Definition reverse (s : string) : string := String.string_of_list_ascii (rev (String.list_ascii_of_string s)).
Definition trim (s : string) : string := reverse (trim_left (reverse (trim_left s))).

(** [^\s*([^= ]+)(?:\s*=\s*([^ ]+))?$] *)
Definition KeyValueRegex : regex :=
  Seqs [Bol; Star Space; Group 1 (Plus (One (fun c => negb (one_of (chars "= ") c))));
        Opt (Seqs [Star Space; Lit "="; Star Space; Group 2 (Plus (One (fun c => negb (Ascii.eqb c " "))))]); Eol].

(** The types of well-known parameters; others are typed by their text. *)
Definition param_type (param value : string) : ascii :=
  if String.eqb param "profile-level-id" then "s"
  else if String.eqb param "packetization-mode" then "d"
  else if String.eqb param "profile-id" then "s"
  else if isInt value then "d" else if isFloat value then "f" else "s".

(** [o] is an object wherever the code calls this. *)
Definition insertParam (str : string) (o : list (string * json)) : list (string * json) :=
  match regex_match str KeyValueRegex with
  | None => o
  | Some caps =>
    let param := group 1 caps in
    let value := group 2 caps in
    obj_insert param (toType value (param_type param value)) o
  end.

(** Parameters between [d]s, trimmed, without the empty ones. *)
Definition insertParams (d : ascii) (str : string) : json :=
  JObject (foldl (fun o p => let p := trim p in if String.eqb p "" then o else insertParam p o) [] (split str d)).

Definition parseParams (str : string) : json := insertParams ";" str.

Definition parsePayloads (str : string) : outcome (list Z) := omapM stoi (split str " ").

(** ** Image attributes and simulcast streams *)

Fixpoint parseImages (items : list string) (arr : list json) : json :=
  match items with
  | [] => JArray arr
  | item :: r =>
    let item := trim item in
    if String.eqb item "*" then JString item
    else if Nat.ltb (String.length item) 5 then parseImages r arr
    else parseImages r (arr ++ [insertParams "," (String.substring 1 (String.length item - 2) item)])
  end.
Definition parseImageAttributes (str : string) : json := parseImages (split str " ") [].

Definition parseFormat (format : string) : list json :=
  match format with
  | EmptyString => []
  | String c r =>
    let entry (scid : string) (paused : bool) := mk_obj [ ("scid", JString scid); ("paused", JBool paused) ] in
    [if Ascii.eqb c "~" then entry r true else entry format false]
  end.
Definition parseSimulcastStreamList (str : string) : json :=
  JArray (concat (map (fun item =>
    if String.eqb item "" then [] else [JArray (concat (map parseFormat (split item ",")))]) (split str ";"))).

(** ** Lines *)

(** The number of groups: [match.size()] is one more. *)
Fixpoint groups (a : regex) : nat :=
  match a with
  | Seq a b | Alt a b => groups a + groups b
  | Star a => groups a
  | Group _ a => S (groups a)
  | _ => 0
  end.

(** [types[i]] exists for every name in the grammar. *)
Definition type_at (rule : Rule) (i : nat) : M json ascii :=
  match rule_types rule !! i with Some t => ret t | None => undef end.

Fixpoint attachNames (rule : Rule) (caps : captures) (i : nat) (names : list string) : M json unit :=
  match names with
  | [] => ret tt
  | name :: r =>
    let s := group (S i) caps in
    when (Nat.ltb (S i) (S (groups (rule_reg rule))) && negb (String.eqb s ""))
      (t <- type_at rule i ;; set_key name (toType s t)) ;;;
    attachNames rule caps (S i) r
  end.
Definition attachProperties (rule : Rule) (caps : captures) : M json unit :=
  match rule_names rule with
  | [] =>
    when (negb (String.eqb (rule_name rule) ""))
      (t <- type_at rule 0 ;; set_key (rule_name rule) (toType (group 1 caps) t))
  | names => attachNames rule caps 0 names
  end.

(** [caps] are the groups of the match that [parse] has found; the code
    searches again with the same result. *)
Definition parseReg (rule : Rule) (caps : captures) : M json unit :=
  let needsBlank := negb (String.eqb (rule_name rule) "") && negb (Nat.eqb (length (rule_names rule)) 0) in
  let pushes := negb (String.eqb (rule_push rule) "") in
  location <- get ;;
  (if pushes && negb (contains (rule_push rule) location) then set_key (rule_push rule) (JArray [])
   else when (needsBlank && negb (contains (rule_name rule) location)) (set_key (rule_name rule) (JObject []))) ;;;
  if pushes then
    let '(r, object) := attachProperties rule caps (JObject []) in
    lift r ;;; at_key (rule_push rule) (push_back object)
  else if needsBlank then at_key (rule_name rule) (attachProperties rule caps)
  else attachProperties rule caps.

(** The first rule whose expression is found in the content. *)
Fixpoint first_rule (content : string) (rules : list Rule) : option (Rule * captures) :=
  match rules with
  | [] => None
  | rule :: r =>
    match regex_search content (rule_reg rule) with
    | Some caps => Some (rule, caps)
    | None => first_rule content r
    end
  end.

Definition strip_cr (line : string) : string :=
  match reverse line with
  | String c r => if Ascii.eqb c (ascii_of_N 13) then reverse r else line
  | EmptyString => line
  end.

(** A line is a letter from a to z, an equals sign and the content. *)
Definition valid_line (line : string) : option (ascii * string) :=
  match line with
  | String t (String "="%char content) => if in_range 97 122 t then Some (t, content) else None
  | _ => None
  end.

(** The state: the session and the media sections so far.  The location is the
    last media section, or the session before the first one. *)
Definition newMedia : json := mk_obj [ ("rtp", JArray []); ("fmtp", JArray []) ].
Definition at_location (m : M json unit) : M (json * list json) unit := fun s =>
  match s.2 with
  | [] => let '(r, session) := m s.1 in (r, (session, []))
  | _ => let n := length s.2 - 1 in
         let '(r, l) := m (default JNull (s.2 !! n)) in (r, (s.1, <[n:=l]> s.2))
  end.

Definition parseLine (line : string) : M (json * list json) unit :=
  match valid_line (strip_cr line) with
  | None => ret tt
  | Some (type, content) =>
    (if Ascii.eqb type "m" then (fun s => (Ok tt, (s.1, s.2 ++ [newMedia]))) else ret tt) ;;;
    match rulesMap type with
    | None => ret tt
    | Some rules =>
      match first_rule content rules with
      | Some (rule, caps) => at_location (parseReg rule caps)
      | None => ret tt
      end
    end
  end.

Definition newline : ascii := ascii_of_N 10.
Definition parse (sdp : string) : outcome json :=
  let '(r, (session, media)) := for_list (split sdp newline) parseLine (JObject [], []) in
  let! _ := r in
  ((set_key "media" (JArray media) ;;; get) session).1.
