(* ===== verification/Rounding.v ===== *)
(** * Rounding to the nearest double

    The rounding of [SpecFloat], which models the doubles of the C++ sources,
    gives a number for every value strictly between the midpoints to its
    neighbours, and so does the reader of decimals of SdpParse.v. *)

From stdpp Require Import base tactics.
From Stdlib Require Import ZArith Lia Reals Lra SpecFloat.
From S2P Require Import Prelude SdpParse.
Open Scope Z_scope.

(** ** Powers *)

Definition pw (b k : Z) : R := powerRZ (IZR b) k.

Lemma pw_pos b k : 0 < b -> (0 < pw b k)%R.
Proof. intros Hb. apply powerRZ_lt. by apply IZR_lt. Qed.
Lemma pw_add b j k : 0 < b -> pw b (j + k) = (pw b j * pw b k)%R.
Proof. intros Hb. apply powerRZ_add. apply IZR_lt in Hb. lra. Qed.
Lemma pw_nonneg b k : 0 <= k -> pw b k = IZR (b ^ k).
Proof.
  intros Hk. rewrite <- (Z2Nat.id k) by done. generalize (Z.to_nat k). intros n. unfold pw.
  rewrite <- pow_powerRZ. apply pow_IZR.
Qed.
Lemma pw_0 b : pw b 0 = 1%R.
Proof. done. Qed.
(** Both sides of an inequality with the powers of two made integers. *)
Lemma pw_lt_Z a j b k g : g <= j -> g <= k ->
  ((IZR a * pw 2 j < IZR b * pw 2 k)%R <-> a * 2 ^ (j - g) < b * 2 ^ (k - g)).
Proof.
  intros Hj Hk. replace j with (g + (j - g)) at 1 by lia. replace k with (g + (k - g)) at 1 by lia.
  rewrite !pw_add, (pw_nonneg 2 (j - g)), (pw_nonneg 2 (k - g)) by lia. pose proof (pw_pos 2 g ltac:(lia)).
  replace (IZR a * (pw 2 g * IZR (2 ^ (j - g))))%R with (pw 2 g * IZR (a * 2 ^ (j - g)))%R by (rewrite mult_IZR; ring).
  replace (IZR b * (pw 2 g * IZR (2 ^ (k - g))))%R with (pw 2 g * IZR (b * 2 ^ (k - g)))%R by (rewrite mult_IZR; ring).
  split; intros Hlt.
  - apply lt_IZR. by apply (Rmult_lt_reg_l (pw 2 g)).
  - apply Rmult_lt_compat_l; [done|]. by apply IZR_lt.
Qed.

(** ** Shifts *)

Lemma digits2_log2 p : Zpos (digits2_pos p) = Z.log2 (Zpos p) + 1.
Proof.
  induction p as [p IH|p IH|]; [| |done]; cbn [digits2_pos]; rewrite Pos2Z.inj_succ, IH.
  - rewrite (Pos2Z.inj_xI p), Z.log2_succ_double by lia. lia.
  - rewrite (Pos2Z.inj_xO p), Z.log2_double by lia. lia.
Qed.

Lemma iter_pos_ind {A} (P : Z -> A -> Prop) (f : A -> A) n p x :
  (forall n x, 0 <= n -> P n x -> P (n + 1) (f x)) -> 0 <= n -> P n x -> P (n + Zpos p) (SpecFloat.iter_pos f p x).
Proof.
  intros Hf. revert n x. induction p as [p IH|p IH|]; intros n x Hn Hx; cbn [SpecFloat.iter_pos].
  - replace (n + Z.pos p~1) with (n + 1 + Z.pos p + Z.pos p) by lia. apply IH, IH, Hf; [lia..|]. done.
  - replace (n + Z.pos p~0) with (n + Z.pos p + Z.pos p) by lia. apply IH, IH; [lia..|]. done.
  - by apply Hf.
Qed.

(** The record holds [y] shifted by [n], and where the rest lies. *)
Definition located (y n : Z) (mrs : shr_record) : Prop := exists rest,
  y = shr_m mrs * 2 ^ n + rest /\ 0 <= shr_m mrs /\
  match shr_r mrs, shr_s mrs with
  | false, false => rest = 0
  | false, true => 0 < 2 * rest < 2 ^ n
  | true, false => 2 * rest = 2 ^ n
  | true, true => 2 ^ n < 2 * rest < 2 * 2 ^ n
  end.

Lemma located_step y n mrs : 0 <= n -> located y n mrs -> located y (n + 1) (shr_1 mrs).
Proof.
  intros Hn (rest & Hy & Hm & Hrs). destruct mrs as [m r s]; cbn [shr_m shr_r shr_s] in *.
  assert (Hb : exists m' b, m = 2 * m' + Z.b2z b /\ 0 <= m' /\ shr_1 {| shr_m := m; shr_r := r; shr_s := s |} = {| shr_m := m'; shr_r := b; shr_s := r || s |}).
  { destruct m as [|[p|p|]|]; [exists 0, false|exists (Zpos p), true|exists (Zpos p), false|exists 0, true|lia]; (split; [done|split; [done|reflexivity]]). }
  destruct Hb as (m' & b & -> & Hm' & ->). pose proof (Z.pow_pos_nonneg 2 n ltac:(lia) Hn).
  exists (Z.b2z b * 2 ^ n + rest). unfold shr_m, shr_r, shr_s. rewrite Z.pow_add_r by lia. change (2 ^ 1) with 2.
  split; [lia|]. split; [done|]. destruct b, r, s; cbn [Z.b2z orb] in *; lia.
Qed.

Lemma located_shr y e n : 0 <= y -> 0 <= n ->
  located y n (shr {| shr_m := y; shr_r := false; shr_s := false |} e n).1 /\
  (shr {| shr_m := y; shr_r := false; shr_s := false |} e n).2 = e + n.
Proof.
  intros Hy Hn. assert (H0 : located y 0 {| shr_m := y; shr_r := false; shr_s := false |}) by (exists 0; cbn; lia).
  destruct n as [|p|p]; [by rewrite Z.add_0_r| |lia]. split; [|done].
  apply (iter_pos_ind (located y) shr_1 0); [apply located_step|lia|done].
Qed.

Lemma located_round y n mrs k : 0 <= n -> located y n mrs -> (2 * k - 1) * 2 ^ n < 2 * y < (2 * k + 1) * 2 ^ n ->
  round_nearest_even (shr_m mrs) (loc_of_shr_record mrs) = k.
Proof.
  intros Hn (rest & Hy & Hm & Hrs) [Hlo Hhi]. pose proof (Z.pow_pos_nonneg 2 n ltac:(lia) Hn) as Hp.
  destruct mrs as [m r s]; cbn [shr_m shr_r shr_s loc_of_shr_record] in *. set (N := 2 ^ n) in *. clearbody N.
  destruct r, s; cbn [round_nearest_even].
  - nia.
  - exfalso. assert (2 * k - 1 < 2 * m + 1 < 2 * k + 1) by nia. lia.
  - nia.
  - assert (2 * k - 1 < 2 * m < 2 * k + 1) by nia. lia.
Qed.

(** ** Doubles *)

Definition canonical (m e : Z) : Prop := (2 ^ 52 <= m < 2 ^ 53 /\ -1074 <= e <= 971) \/ (0 < m < 2 ^ 52 /\ e = -1074).

Lemma fexp_eq d : fexp 53 1024 d = Z.max (d - 53) (-1074).
Proof. done. Qed.

Lemma bounded_canonical m e : bounded 53 1024 m e = true <-> canonical (Zpos m) e.
Proof.
  unfold bounded, canonical_mantissa. rewrite andb_true_iff, Z.eqb_eq, Z.leb_le, digits2_log2, fexp_eq. change (1024 - 53) with 971.
  pose proof (Z.log2_spec (Zpos m) ltac:(lia)) as [Hl Hu]. unfold canonical. split.
  - intros [He Hmax]. pose proof (Z.log2_nonneg (Zpos m)). destruct (Z.eq_dec (Z.log2 (Zpos m)) 52) as [E|E].
    + rewrite E in Hl, Hu. left. lia.
    + right. assert (Z.log2 (Zpos m) < 52) as Hlt by lia. pose proof (Z.pow_le_mono_r 2 (Z.succ (Z.log2 (Zpos m))) 52). lia.
  - intros [[Hm He]|[Hm ->]].
    + rewrite (Z.log2_unique (Zpos m) 52) by lia. lia.
    + pose proof (proj1 (Z.log2_lt_pow2 (Zpos m) 52 ltac:(lia)) ltac:(lia)). lia.
Qed.

(** Four times the midpoint to the neighbour below, in units of the number; the
    neighbour of the least number of a binade is twice as near. *)
Definition low (m e : Z) : Z := if (m =? 2 ^ 52) && (-1074 <? e) then 4 * m - 1 else 4 * m - 2.
Definition within (m e : Z) (v : R) : Prop := (IZR (low m e) * pw 2 (e - 2) < v < IZR (4 * m + 2) * pw 2 (e - 2))%R.

(** What a value between the midpoints is a multiple of after the shift. *)
Definition rounds_to (m e y ez k e' : Z) : Prop :=
  (k = m /\ e' = e \/ k = 2 * m /\ m = 2 ^ 52 /\ e' = e - 1 /\ -1074 < e) /\
  fexp 53 1024 (Z.log2 y + 1 + ez) = e' /\
  (ez <= e' -> (2 * k - 1) * 2 ^ (e' - ez) < 2 * y < (2 * k + 1) * 2 ^ (e' - ez)).

Lemma log2_between a n x b k : 0 < x -> 0 <= n -> 0 <= a -> 0 <= b -> 2 ^ a * 2 ^ n <= x -> x < 2 ^ b * 2 ^ n -> k = Z.log2 x -> a + n <= k < b + n.
Proof.
  intros Hx Hn Ha Hb Hl Hu ->. rewrite <- Z.pow_add_r in Hl, Hu by lia.
  split; [by apply Z.log2_le_pow2|by apply Z.log2_lt_pow2].
Qed.

Lemma low_cases m e : low m e = 4 * m - 1 /\ m = 2 ^ 52 /\ -1074 < e \/ low m e = 4 * m - 2 /\ (m <> 2 ^ 52 \/ e <= -1074).
Proof. unfold low. destruct (Z.eqb_spec m (2 ^ 52)), (Z.ltb_spec (-1074) e); cbn [andb]; lia. Qed.

Lemma scale_cancel a b p q : 0 <= p -> 0 <= q ->
  (a * 2 ^ (p + q) < b * 2 ^ p <-> a * 2 ^ q < b) /\ (b * 2 ^ p < a * 2 ^ (p + q) <-> b < a * 2 ^ q).
Proof.
  intros Hp Hq. rewrite Z.pow_add_r by lia. pose proof (Z.pow_pos_nonneg 2 p ltac:(lia) ltac:(lia)).
  rewrite (Z.mul_comm (2 ^ p)), Z.mul_assoc, <- !Z.mul_lt_mono_pos_r by done. done.
Qed.

(** The binade of a value, with the number and the value scaled by a power of
    two. *)
Lemma scaled_binade m e y ez K L : canonical m e -> 0 < y -> 0 <= L -> 0 <= K -> e - 2 - K = ez - L ->
  low m e * 2 ^ K < y * 2 ^ L -> y * 2 ^ L < (4 * m + 2) * 2 ^ K ->
  fexp 53 1024 (Z.log2 y + 1 + ez) = e \/
  fexp 53 1024 (Z.log2 y + 1 + ez) = e - 1 /\ low m e = 4 * m - 1 /\ m = 2 ^ 52 /\ -1074 < e /\ y * 2 ^ L < 4 * m * 2 ^ K.
Proof.
  intros Hc Hy HL HK Hg Hlo Hhi. assert (HlogY : Z.log2 y + L = Z.log2 (y * 2 ^ L)) by (rewrite Z.log2_mul_pow2; lia).
  pose proof (Z.pow_pos_nonneg 2 L ltac:(lia) ltac:(lia)). pose proof (Z.pow_pos_nonneg 2 K ltac:(lia) ltac:(lia)) as HKp.
  assert (HY : 0 < y * 2 ^ L) by lia. rewrite fexp_eq. set (Y := y * 2 ^ L) in *. pose proof (low_cases m e) as Hlow.
  destruct Hc as [[Hm He]|[Hm ->]].
  - destruct (Z.lt_ge_cases Y (2 ^ 54 * 2 ^ K)) as [Hlt|Hge].
    + assert (m = 2 ^ 52) as -> by nia. pose proof (log2_between 53 K Y 54 _ HY HK ltac:(lia) ltac:(lia) ltac:(nia) Hlt HlogY).
      destruct Hlow as [(El & _ & Ee)|(El & [Hn|Hn])]; [|lia|lia]. right. split_and!; lia.
    + pose proof (log2_between 54 K Y 55 _ HY HK ltac:(lia) ltac:(lia) ltac:(lia) ltac:(nia) HlogY). lia.
  - left. assert (Hlt : Y < 2 ^ 54 * 2 ^ K) by nia. rewrite <- Z.pow_add_r in Hlt by lia. apply Z.log2_lt_pow2 in Hlt; lia.
Qed.

Lemma within_rounds m e y ez : canonical m e -> 0 < y -> within m e (IZR y * pw 2 ez) -> exists k e', rounds_to m e y ez k e'.
Proof.
  intros Hc Hy [Hlo Hhi]. set (g := Z.min ez e - 3). apply (pw_lt_Z _ _ _ _ g) in Hlo, Hhi; [|lia..].
  remember (e - 2 - g) as K eqn:HK. remember (ez - g) as L eqn:HL. assert (0 < K /\ 3 <= L) as [HK0 HL0] by lia. clearbody g.
  pose proof (Z.pow_pos_nonneg 2 K ltac:(lia) ltac:(lia)) as HKp.
  pose proof (scaled_binade m e y ez K L Hc Hy ltac:(lia) ltac:(lia) ltac:(lia) Hlo Hhi) as Hb. pose proof (low_cases m e) as Hlow.
  assert (HY : y * 2 ^ L = 2 * y * 2 ^ (L - 1)) by (replace L with (L - 1 + 1) at 1 by lia; rewrite Z.pow_add_r by lia; lia).
  assert (Hcmp : forall k e' n, ez <= e' -> n = L - 1 + (e' - ez) -> (2 * k - 1) * 2 ^ n < y * 2 ^ L < (2 * k + 1) * 2 ^ n ->
    (2 * k - 1) * 2 ^ (e' - ez) < 2 * y < (2 * k + 1) * 2 ^ (e' - ez)).
  { intros k e' n Hle ->. rewrite HY. rewrite (proj1 (scale_cancel (2 * k - 1) (2 * y) (L - 1) (e' - ez) ltac:(lia) ltac:(lia))).
    by rewrite (proj2 (scale_cancel (2 * k + 1) (2 * y) (L - 1) (e' - ez) ltac:(lia) ltac:(lia))). }
  destruct Hb as [Hf|(Hf & El & Em & Ee & Hlt)].
  - exists m, e. split_and!; [by left|done|]. intros Hle. apply (Hcmp _ _ (K + 1)); [done|lia|]. rewrite Z.pow_add_r by lia. nia.
  - exists (2 * m), (e - 1). split_and!; [by right|done|]. intros Hle. apply (Hcmp _ _ K); [done|lia|]. nia.
Qed.

(** Values strictly between the midpoints round to the number. *)
Lemma round_aux_within s m e y ez : canonical (Zpos m) e -> 0 < y -> ez <= fexp 53 1024 (Z.log2 y + 1 + ez) ->
  within (Zpos m) e (IZR y * pw 2 ez) -> binary_round_aux 53 1024 s y ez loc_Exact = S754_finite s m e.
Proof.
  intros Hc Hy Hez Hw. destruct (within_rounds _ _ _ _ Hc Hy Hw) as (k & e' & Hk & He' & Hround). rewrite He' in Hez. specialize (Hround Hez).
  assert (Hz : Zdigits2 y = Z.log2 y + 1) by (destruct y; [lia|apply digits2_log2|lia]).
  unfold binary_round_aux, shr_fexp at 1. cbn [shr_record_of_loc]. rewrite Hz, He'.
  destruct (located_shr y ez (e' - ez) ltac:(lia) ltac:(lia)) as [Hl Hs].
  destruct (shr _ ez (e' - ez)) as [mrs e0]. cbn [fst snd] in Hl, Hs. replace e0 with e' by lia. clear e0 Hs.
  rewrite (located_round y (e' - ez) mrs k ltac:(lia) Hl Hround). apply bounded_canonical in Hc as Hb. unfold bounded, canonical_mantissa in Hb.
  apply andb_true_iff in Hb as [Hb Hmax]. apply Z.eqb_eq in Hb. destruct Hk as [[-> ->]|(-> & Em & -> & Hgt)].
  - unfold shr_fexp. cbn [Zdigits2]. rewrite Hb, Z.sub_diag. cbn. by rewrite Hmax.
  - rewrite Em. assert (m = (2 ^ 52)%positive) as -> by (change (2 ^ 52) with (Zpos (2 ^ 52)) in Em; by injection Em).
    unfold shr_fexp. replace (fexp 53 1024 (Zdigits2 (2 * 2 ^ 52) + (e - 1)) - (e - 1)) with 1 by (rewrite fexp_eq; change (Zdigits2 (2 * 2 ^ 52)) with 54; lia).
    cbn [shr SpecFloat.iter_pos]. replace (e - 1 + 1) with e by lia. cbn. by rewrite Hmax.
Qed.

Lemma round_within s m e x ex : canonical (Zpos m) e -> within (Zpos m) e (IZR (Zpos x) * pw 2 ex) -> binary_round 53 1024 s x ex = S754_finite s m e.
Proof.
  intros Hc Hw. unfold binary_round, shl_align. rewrite digits2_log2. set (d := Z.log2 (Zpos x) + 1 + ex).
  destruct (fexp 53 1024 d - ex) as [|p|p] eqn:Ed; [apply round_aux_within; subst d; [done|lia|lia|done]..|].
  assert (Hpos : Zpos (Pos.iter xO x p) = Zpos x * 2 ^ Zpos p).
  { clear. induction p as [|p IH] using Pos.peano_ind; [change (2 ^ 1) with 2; cbn [Pos.iter]; lia|].
    rewrite Pos.iter_succ, Pos2Z.inj_succ, Z.pow_succ_r, (Pos2Z.inj_xO (Pos.iter _ _ _)), IH by lia. lia. }
  apply round_aux_within; [done|lia| |].
  - rewrite Hpos, Z.log2_mul_pow2 by lia. apply Z.eq_le_incl. symmetry. subst d. f_equal. lia.
  - rewrite Hpos, mult_IZR, <- (pw_nonneg 2 (Zpos p)), Rmult_assoc, <- pw_add by lia. by replace (Zpos p + fexp 53 1024 d) with ex by lia.
Qed.

(** ** Decimals *)

(** A quotient with a sticky bit stays between bounds that are multiples of a
    greater unit. *)
Lemma sticky_between d s q r b c k (sticky : Z) : 0 < d -> 0 <= s -> 0 <= r < d -> 0 <= k + s -> sticky = (if r =? 0 then 0 else 1) ->
  (IZR b * pw 2 k * IZR d < IZR (q * d + r) * pw 2 (- s) < IZR c * pw 2 k * IZR d)%R ->
  (IZR b * pw 2 k < IZR (2 * q + sticky) * pw 2 (- s - 1) < IZR c * pw 2 k)%R.
Proof.
  intros Hd Hs Hr Hk Est [Hlo Hhi].
  assert (Hlo' : b * d * 2 ^ (k + s) < q * d + r).
  { replace (IZR b * pw 2 k * IZR d)%R with (IZR (b * d) * pw 2 k)%R in Hlo by (rewrite mult_IZR; ring).
    apply (pw_lt_Z _ _ _ _ (- s)) in Hlo; [|lia..]. rewrite Z.sub_diag, Z.mul_1_r in Hlo. by replace (k - - s) with (k + s) in Hlo by lia. }
  assert (Hhi' : q * d + r < c * d * 2 ^ (k + s)).
  { replace (IZR c * pw 2 k * IZR d)%R with (IZR (c * d) * pw 2 k)%R in Hhi by (rewrite mult_IZR; ring).
    apply (pw_lt_Z _ _ _ _ (- s)) in Hhi; [|lia..]. rewrite Z.sub_diag, Z.mul_1_r in Hhi. by replace (k - - s) with (k + s) in Hhi by lia. }
  assert (b * 2 ^ (k + s) < q \/ b * 2 ^ (k + s) = q /\ 0 < r) by nia. assert (q < c * 2 ^ (k + s)) by nia.
  assert (0 <= sticky <= 1 /\ (0 < r -> sticky = 1)) by (destruct (Z.eqb_spec r 0); lia).
  split; apply (pw_lt_Z _ _ _ _ (- s - 1)); try lia; rewrite Z.sub_diag, Z.mul_1_r; replace (k - (- s - 1)) with (k + s + 1) by lia; rewrite Z.pow_add_r by lia; lia.
Qed.

(** The quotient has more bits than a double. *)
Lemma quotient_bits m d s : 0 < m -> 0 < d -> s = Z.max 0 (Z.log2 d + 53 + 4 - Z.log2 (Z.max 1 m)) -> 2 ^ 56 * d <= m * 2 ^ s.
Proof.
  intros Hm Hd ->. replace (Z.max 1 m) with m by lia. set (s := Z.max _ _). pose proof (Z.log2_spec m Hm) as [Hl _]. pose proof (Z.log2_spec d Hd) as [_ Hu].
  pose proof (Z.log2_nonneg m). pose proof (Z.log2_nonneg d). assert (Hs : 0 <= s /\ Z.log2 d + 57 <= Z.log2 m + s) by lia. clearbody s.
  pose proof (Z.pow_le_mono_r 2 (Z.log2 d + 57) (Z.log2 m + s) ltac:(lia) ltac:(lia)) as Hp. rewrite (Z.pow_add_r 2 (Z.log2 m)) in Hp by lia.
  replace (Z.log2 d + 57) with (Z.succ (Z.log2 d) + 56) in Hp by lia. rewrite Z.pow_add_r in Hp by lia. nia.
Qed.
Lemma quotient_unit m d s f e : 0 < m -> 0 < d -> 0 <= s -> f < 2 ^ 53 -> 2 ^ 56 * d <= m * 2 ^ s ->
  (IZR m < IZR (4 * f + 2) * pw 2 (e - 2) * IZR d)%R -> 0 <= e - 2 + s.
Proof.
  intros Hm Hd Hs Hf Hbits Hlt. apply Z.le_ngt. intros Hneg.
  replace (IZR (4 * f + 2) * pw 2 (e - 2) * IZR d)%R with (IZR ((4 * f + 2) * d) * pw 2 (e - 2))%R in Hlt by (rewrite mult_IZR; ring).
  rewrite <- (Rmult_1_r (IZR m)), <- (pw_0 2) in Hlt. apply (pw_lt_Z _ _ _ _ (e - 2)) in Hlt; [|lia..].
  rewrite Z.sub_diag, Z.mul_1_r in Hlt. pose proof (Z.pow_le_mono_r 2 s (0 - (e - 2)) ltac:(lia) ltac:(lia)). nia.
Qed.

(** The reader gives the number for a decimal strictly between the midpoints. *)
Lemma round_decimal_within neg m e f x : canonical (Zpos f) e -> 0 < m -> within (Zpos f) e (IZR m * pw 10 x) -> round_decimal 53 1024 neg m x = S754_finite neg f e.
Proof.
  intros Hc Hm Hw. unfold round_decimal. destruct (Z.leb_spec 0 x) as [Hx|Hx].
  - rewrite pw_nonneg, <- mult_IZR in Hw by done. pose proof (Z.pow_pos_nonneg 10 x ltac:(lia) Hx).
    destruct (m * 10 ^ x) as [|y|y] eqn:Ey; [lia| |lia]. rewrite <- (Rmult_1_r (IZR (Z.pos y))), <- (pw_0 2) in Hw.
    destruct neg; by apply round_within.
  - set (d := 10 ^ (- x)). set (s := Z.max 0 _). assert (Hd : 0 < d) by (apply Z.pow_pos_nonneg; lia).
    set (q := m * 2 ^ s / d). set (r := m * 2 ^ s mod d). set (sticky := if r =? 0 then 0 else 1).
    assert (Hone : (pw 10 x * IZR d = 1)%R) by (unfold d; rewrite <- pw_nonneg, <- pw_add, Z.add_opp_diag_r by lia; done).
    assert (Hs : 0 <= s) by apply Z.le_max_l. pose proof (quotient_bits m d s Hm Hd eq_refl) as Hbits. clearbody s.
    pose proof (Z.mod_pos_bound (m * 2 ^ s) d Hd) as Hr. fold r in Hr.
    assert (Hqr : m * 2 ^ s = q * d + r) by (unfold q, r; rewrite (Z.mul_comm _ d); apply Z.div_mod; lia).
    assert (Hm' : (IZR (q * d + r) * pw 2 (- s) = IZR m)%R).
    { rewrite <- Hqr, mult_IZR, <- pw_nonneg, Rmult_assoc, <- pw_add, Z.add_opp_diag_r, pw_0 by lia. lra. }
    assert (Hin : (IZR (low (Zpos f) e) * pw 2 (e - 2) * IZR d < IZR m < IZR (4 * Zpos f + 2) * pw 2 (e - 2) * IZR d)%R).
    { destruct Hw as [Hlo Hhi]. assert (HdR : (0 < IZR d)%R) by by apply IZR_lt.
      replace (IZR m) with (IZR m * pw 10 x * IZR d)%R by (rewrite Rmult_assoc, Hone; ring). split; by apply Rmult_lt_compat_r. }
    assert (Hf : Zpos f < 2 ^ 53) by (destruct Hc as [[??]|[??]]; lia).
    pose proof (quotient_unit m d s (Zpos f) e Hm Hd Hs Hf Hbits (proj2 Hin)) as Hunit. rewrite <- Hm' in Hin.
    pose proof (sticky_between d s q r _ _ _ sticky Hd Hs Hr Hunit eq_refl Hin) as Hw'.
    assert (Hq : 0 < 2 * q + sticky) by (assert (0 <= sticky) by (unfold sticky; case_match; lia); nia).
    destruct (2 * q + sticky) as [|y|y] eqn:Ey; [lia| |lia]. destruct neg; by apply round_within.
Qed.
