(* ===== verification/Grisu.v ===== *)
(** * json.hpp: the text of a double

    Models [dtoa_impl] and [to_chars] of libsdptransform/include/json.hpp: the
    Grisu2 algorithm, which finds a short decimal number that reads as the
    double with 64-bit integers and a table of powers of ten, and the format of
    the result.  A failed assertion is undefined; the characters of the buffer
    are a list. *)

From stdpp Require Import base list.
From Stdlib Require Import ZArith Lia SpecFloat.
From S2P Require Import Prelude.
Open Scope Z_scope.

Module dtoa_impl.

(** [assert]. *)
Definition holds (b : bool) : outcome unit := if b then Ok tt else Undef.

(** ** [diyfp]: f * 2^e *)

Record diyfp := mkDiyfp { df : Z; de : Z }.

Definition sub (x y : diyfp) : outcome diyfp :=
  let! _ := holds (de x =? de y) in
  let! _ := holds (df y <=? df x) in
  Ok (mkDiyfp (wrap_u 64 (df x - df y)) (de x)).

Definition mul (x y : diyfp) : diyfp :=
  let u_lo := Z.land (df x) 0xFFFFFFFF in
  let u_hi := Z.shiftr (df x) 32 in
  let v_lo := Z.land (df y) 0xFFFFFFFF in
  let v_hi := Z.shiftr (df y) 32 in
  let p0 := wrap_u 64 (u_lo * v_lo) in
  let p1 := wrap_u 64 (u_lo * v_hi) in
  let p2 := wrap_u 64 (u_hi * v_lo) in
  let p3 := wrap_u 64 (u_hi * v_hi) in
  let p0_hi := Z.shiftr p0 32 in
  let p1_lo := Z.land p1 0xFFFFFFFF in
  let p1_hi := Z.shiftr p1 32 in
  let p2_lo := Z.land p2 0xFFFFFFFF in
  let p2_hi := Z.shiftr p2 32 in
  let Q := wrap_u 64 (p0_hi + p1_lo + p2_lo) in
  let Q := wrap_u 64 (Q + Z.shiftl 1 (64 - 32 - 1)) in
  let h := wrap_u 64 (p3 + p2_hi + p1_hi + Z.shiftr Q 32) in
  mkDiyfp h (de x + de y + 64).

(** The loop ends after 63 rounds, unless the significand is 0. *)
Fixpoint normalize_loop (fuel : nat) (x : diyfp) : outcome diyfp :=
  if Z.shiftr (df x) 63 =? 0 then
    match fuel with
    | O => Undef
    | S fuel => normalize_loop fuel (mkDiyfp (wrap_u 64 (Z.shiftl (df x) 1)) (de x - 1))
    end
  else Ok x.
Definition normalize (x : diyfp) : outcome diyfp :=
  let! _ := holds (negb (df x =? 0)) in normalize_loop 63 x.

Definition normalize_to (x : diyfp) (target_exponent : Z) : outcome diyfp :=
  let delta := de x - target_exponent in
  let! _ := holds (0 <=? delta) in
  let! _ := holds (Z.shiftr (wrap_u 64 (Z.shiftl (df x) delta)) delta =? df x) in
  Ok (mkDiyfp (wrap_u 64 (Z.shiftl (df x) delta)) target_exponent).

(** ** Boundaries *)

(** [std::numeric_limits<double>]. *)
Definition kPrecision : Z := 53.
Definition max_exponent : Z := 1024.

(** The bits of a double. *)
Definition reinterpret_bits (value : spec_float) : Z :=
  let sign (s : bool) := if s then 2 ^ 63 else 0 in
  match value with
  | S754_zero s => sign s
  | S754_infinity s => sign s + 2047 * 2 ^ 52
  | S754_nan => 2047 * 2 ^ 52 + 2 ^ 51
  | S754_finite s m e => sign s + if Zpos m <? 2 ^ 52 then Zpos m else (e + 1075) * 2 ^ 52 + (Zpos m - 2 ^ 52)
  end.

Definition kBias : Z := max_exponent - 1 + (kPrecision - 1).
Definition kMinExp : Z := 1 - kBias.
Definition kHiddenBit : Z := Z.shiftl 1 (kPrecision - 1).

Record boundaries := mkBoundaries { w : diyfp; minus : diyfp; plus : diyfp }.

Definition compute_boundaries (value : spec_float) : outcome boundaries :=
  let! _ := holds (match value with S754_finite false _ _ => true | _ => false end) in
  let bits := reinterpret_bits value in
  let E := Z.shiftr bits (kPrecision - 1) in
  let F := Z.land bits (kHiddenBit - 1) in
  let is_denormal := E =? 0 in
  let v := if is_denormal then mkDiyfp F kMinExp else mkDiyfp (wrap_u 64 (F + kHiddenBit)) (E - kBias) in
  let lower_boundary_is_closer := (F =? 0) && (1 <? E) in
  let m_plus := mkDiyfp (wrap_u 64 (2 * df v + 1)) (de v - 1) in
  let m_minus := if lower_boundary_is_closer then mkDiyfp (wrap_u 64 (4 * df v - 1)) (de v - 2)
                 else mkDiyfp (wrap_u 64 (2 * df v - 1)) (de v - 1) in
  let! w_plus := normalize m_plus in
  let! w_minus := normalize_to m_minus (de w_plus) in
  let! w := normalize v in
  Ok (mkBoundaries w w_minus w_plus).

(** ** Powers of ten *)

Definition kAlpha : Z := -60.
Definition kGamma : Z := -32.
Record cached_power := mkCachedPower { cf : Z; ce : Z; ck : Z }.

Definition kCachedPowersMinDecExp : Z := -300.
Definition kCachedPowersDecStep : Z := 8.
Definition kCachedPowers : list cached_power :=
  [
    mkCachedPower 0xab70fe17c79ac6ca (-1060) (-300); mkCachedPower 0xff77b1fcbebcdc4f (-1034) (-292);
    mkCachedPower 0xbe5691ef416bd60c (-1007) (-284); mkCachedPower 0x8dd01fad907ffc3c (-980) (-276);
    mkCachedPower 0xd3515c2831559a83 (-954) (-268); mkCachedPower 0x9d71ac8fada6c9b5 (-927) (-260);
    mkCachedPower 0xea9c227723ee8bcb (-901) (-252); mkCachedPower 0xaecc49914078536d (-874) (-244);
    mkCachedPower 0x823c12795db6ce57 (-847) (-236); mkCachedPower 0xc21094364dfb5637 (-821) (-228);
    mkCachedPower 0x9096ea6f3848984f (-794) (-220); mkCachedPower 0xd77485cb25823ac7 (-768) (-212);
    mkCachedPower 0xa086cfcd97bf97f4 (-741) (-204); mkCachedPower 0xef340a98172aace5 (-715) (-196);
    mkCachedPower 0xb23867fb2a35b28e (-688) (-188); mkCachedPower 0x84c8d4dfd2c63f3b (-661) (-180);
    mkCachedPower 0xc5dd44271ad3cdba (-635) (-172); mkCachedPower 0x936b9fcebb25c996 (-608) (-164);
    mkCachedPower 0xdbac6c247d62a584 (-582) (-156); mkCachedPower 0xa3ab66580d5fdaf6 (-555) (-148);
    mkCachedPower 0xf3e2f893dec3f126 (-529) (-140); mkCachedPower 0xb5b5ada8aaff80b8 (-502) (-132);
    mkCachedPower 0x87625f056c7c4a8b (-475) (-124); mkCachedPower 0xc9bcff6034c13053 (-449) (-116);
    mkCachedPower 0x964e858c91ba2655 (-422) (-108); mkCachedPower 0xdff9772470297ebd (-396) (-100);
    mkCachedPower 0xa6dfbd9fb8e5b88f (-369) (-92); mkCachedPower 0xf8a95fcf88747d94 (-343) (-84);
    mkCachedPower 0xb94470938fa89bcf (-316) (-76); mkCachedPower 0x8a08f0f8bf0f156b (-289) (-68);
    mkCachedPower 0xcdb02555653131b6 (-263) (-60); mkCachedPower 0x993fe2c6d07b7fac (-236) (-52);
    mkCachedPower 0xe45c10c42a2b3b06 (-210) (-44); mkCachedPower 0xaa242499697392d3 (-183) (-36);
    mkCachedPower 0xfd87b5f28300ca0e (-157) (-28); mkCachedPower 0xbce5086492111aeb (-130) (-20);
    mkCachedPower 0x8cbccc096f5088cc (-103) (-12); mkCachedPower 0xd1b71758e219652c (-77) (-4);
    mkCachedPower 0x9c40000000000000 (-50) 4; mkCachedPower 0xe8d4a51000000000 (-24) 12;
    mkCachedPower 0xad78ebc5ac620000 3 20; mkCachedPower 0x813f3978f8940984 30 28;
    mkCachedPower 0xc097ce7bc90715b3 56 36; mkCachedPower 0x8f7e32ce7bea5c70 83 44;
    mkCachedPower 0xd5d238a4abe98068 109 52; mkCachedPower 0x9f4f2726179a2245 136 60;
    mkCachedPower 0xed63a231d4c4fb27 162 68; mkCachedPower 0xb0de65388cc8ada8 189 76;
    mkCachedPower 0x83c7088e1aab65db 216 84; mkCachedPower 0xc45d1df942711d9a 242 92;
    mkCachedPower 0x924d692ca61be758 269 100; mkCachedPower 0xda01ee641a708dea 295 108;
    mkCachedPower 0xa26da3999aef774a 322 116; mkCachedPower 0xf209787bb47d6b85 348 124;
    mkCachedPower 0xb454e4a179dd1877 375 132; mkCachedPower 0x865b86925b9bc5c2 402 140;
    mkCachedPower 0xc83553c5c8965d3d 428 148; mkCachedPower 0x952ab45cfa97a0b3 455 156;
    mkCachedPower 0xde469fbd99a05fe3 481 164; mkCachedPower 0xa59bc234db398c25 508 172;
    mkCachedPower 0xf6c69a72a3989f5c 534 180; mkCachedPower 0xb7dcbf5354e9bece 561 188;
    mkCachedPower 0x88fcf317f22241e2 588 196; mkCachedPower 0xcc20ce9bd35c78a5 614 204;
    mkCachedPower 0x98165af37b2153df 641 212; mkCachedPower 0xe2a0b5dc971f303a 667 220;
    mkCachedPower 0xa8d9d1535ce3b396 694 228; mkCachedPower 0xfb9b7cd9a4a7443c 720 236;
    mkCachedPower 0xbb764c4ca7a44410 747 244; mkCachedPower 0x8bab8eefb6409c1a 774 252;
    mkCachedPower 0xd01fef10a657842c 800 260; mkCachedPower 0x9b10a4e5e9913129 827 268;
    mkCachedPower 0xe7109bfba19c0c9d 853 276; mkCachedPower 0xac2820d9623bf429 880 284;
    mkCachedPower 0x80444b5e7aa7cf85 907 292; mkCachedPower 0xbf21e44003acdd2d 933 300;
    mkCachedPower 0x8e679c2f5e44ff8f 960 308; mkCachedPower 0xd433179d9c8cb841 986 316;
    mkCachedPower 0x9e19db92b4e31ba9 1013 324
  ].

Definition get_cached_power_for_binary_exponent (e : Z) : outcome cached_power :=
  let! _ := holds (-1500 <=? e) in
  let! _ := holds (e <=? 1500) in
  let f := kAlpha - e - 1 in
  let k := Z.quot (f * 78913) (Z.shiftl 1 18) + (if 0 <? f then 1 else 0) in
  let index := Z.quot (- kCachedPowersMinDecExp + k + (kCachedPowersDecStep - 1)) kCachedPowersDecStep in
  let! _ := holds (0 <=? index) in
  match kCachedPowers !! Z.to_nat index with
  | Some cached =>
    let! _ := holds (kAlpha <=? ce cached + e + 64) in
    let! _ := holds (ce cached + e + 64 <=? kGamma) in
    Ok cached
  | None => Undef
  end.

(** ** Digits *)

(** The number of digits, and the power of ten of the first. *)
Definition find_largest_pow10 (n : Z) : Z * nat :=
  if 1000000000 <=? n then (1000000000, 10%nat)
  else if 100000000 <=? n then (100000000, 9%nat)
  else if 10000000 <=? n then (10000000, 8%nat)
  else if 1000000 <=? n then (1000000, 7%nat)
  else if 100000 <=? n then (100000, 6%nat)
  else if 10000 <=? n then (10000, 5%nat)
  else if 1000 <=? n then (1000, 4%nat)
  else if 100 <=? n then (100, 3%nat)
  else if 10 <=? n then (10, 2%nat)
  else (1, 1%nat).

(** [buf[len - 1]--]. *)
Definition decrement_last (buf : list Z) : list Z :=
  match last buf with Some c => take (length buf - 1) buf ++ [c - 1] | None => buf end.

(** A digit is lowered at most nine times. *)
Fixpoint round_loop (fuel : nat) (buf : list Z) (dist delta rest ten_k : Z) : outcome (list Z) :=
  if (rest <? dist) && (ten_k <=? wrap_u 64 (delta - rest)) &&
     ((wrap_u 64 (rest + ten_k) <? dist) || (wrap_u 64 (wrap_u 64 (rest + ten_k) - dist) <? wrap_u 64 (dist - rest)))
  then
    match fuel with
    | O => Undef
    | S fuel =>
      let! _ := holds (negb (bool_decide (last buf = Some 48))) in
      round_loop fuel (decrement_last buf) dist delta (wrap_u 64 (rest + ten_k)) ten_k
    end
  else Ok buf.
Definition grisu2_round (buf : list Z) (dist delta rest ten_k : Z) : outcome (list Z) :=
  let! _ := holds (1 <=? length buf)%nat in
  let! _ := holds (dist <=? delta) in
  let! _ := holds (rest <=? delta) in
  let! _ := holds (0 <? ten_k) in
  round_loop 9 buf dist delta rest ten_k.

(** The digits of the integral part, of which [n] are left; [inr] goes on with
    the fraction. *)
Fixpoint integral_digits (n : nat) (buffer : list Z) (p1 p2 pow10 e delta dist decimal_exponent : Z)
    : outcome ((list Z * Z) + list Z) :=
  match n with
  | O => Ok (inr buffer)
  | S n =>
    let d := p1 / pow10 in
    let r := p1 mod pow10 in
    let! _ := holds (d <=? 9) in
    let buffer := buffer ++ [48 + d] in
    let rest := wrap_u 64 (wrap_u 64 (Z.shiftl r (- e)) + p2) in
    if rest <=? delta then
      let ten_n := wrap_u 64 (Z.shiftl pow10 (- e)) in
      let! buffer := grisu2_round buffer dist delta rest ten_n in
      Ok (inl (buffer, decimal_exponent + Z.of_nat n))
    else integral_digits n buffer r p2 (pow10 / 10) e delta dist decimal_exponent
  end.

(** The digits of the fraction: a double has at most 17. *)
Fixpoint fraction_digits (fuel : nat) (buffer : list Z) (p2 one e delta dist m : Z) : outcome (list Z * Z) :=
  match fuel with
  | O => Undef
  | S fuel =>
    let! _ := holds (p2 <=? (2 ^ 64 - 1) / 10) in
    let p2 := wrap_u 64 (p2 * 10) in
    let d := Z.shiftr p2 (- e) in
    let r := Z.land p2 (one - 1) in
    let! _ := holds (d <=? 9) in
    let buffer := buffer ++ [48 + d] in
    let m := m + 1 in
    let delta := wrap_u 64 (delta * 10) in
    let dist := wrap_u 64 (dist * 10) in
    if r <=? delta then let! buffer := grisu2_round buffer dist delta r one in Ok (buffer, m)
    else fraction_digits fuel buffer r one e delta dist m
  end.

(** The digits and the exponent. *)
Definition grisu2_digit_gen (decimal_exponent : Z) (M_minus w M_plus : diyfp) : outcome (list Z * Z) :=
  let! _ := holds (kAlpha <=? de M_plus) in
  let! _ := holds (de M_plus <=? kGamma) in
  let! delta := sub M_plus M_minus in
  let! dist := sub M_plus w in
  let one := mkDiyfp (Z.shiftl 1 (- de M_plus)) (de M_plus) in
  let p1 := wrap_u 32 (Z.shiftr (df M_plus) (- de one)) in
  let p2 := Z.land (df M_plus) (df one - 1) in
  let! _ := holds (0 <? p1) in
  let '(pow10, k) := find_largest_pow10 p1 in
  let! res := integral_digits k [] p1 p2 pow10 (de one) (df delta) (df dist) decimal_exponent in
  match res with
  | inl r => Ok r
  | inr buffer =>
    let! _ := holds (df delta <? p2) in
    let! r := fraction_digits 17 buffer p2 (df one) (de one) (df delta) (df dist) 0 in
    Ok (r.1, decimal_exponent - r.2)
  end.

Definition grisu2_diyfp (m_minus v m_plus : diyfp) : outcome (list Z * Z) :=
  let! _ := holds (de m_plus =? de m_minus) in
  let! _ := holds (de m_plus =? de v) in
  let! cached := get_cached_power_for_binary_exponent (de m_plus) in
  let c_minus_k := mkDiyfp (cf cached) (ce cached) in
  let w := mul v c_minus_k in
  let w_minus := mul m_minus c_minus_k in
  let w_plus := mul m_plus c_minus_k in
  let M_minus := mkDiyfp (wrap_u 64 (df w_minus + 1)) (de w_minus) in
  let M_plus := mkDiyfp (wrap_u 64 (df w_plus - 1)) (de w_plus) in
  grisu2_digit_gen (- ck cached) M_minus w M_plus.

Definition grisu2 (value : spec_float) : outcome (list Z * Z) :=
  let! b := compute_boundaries value in grisu2_diyfp (minus b) (w b) (plus b).

(** ** Format *)

Definition append_exponent (e : Z) : outcome (list Z) :=
  let! _ := holds (-1000 <? e) in
  let! _ := holds (e <? 1000) in
  let sign := if e <? 0 then 45 else 43 in
  let k := Z.abs e in
  Ok (sign ::
      if k <? 10 then [48; 48 + k]
      else if k <? 100 then [48 + k / 10; 48 + k mod 10]
      else [48 + k / 100; 48 + k mod 100 / 10; 48 + (k mod 100) mod 10]).

Definition format_buffer (buf : list Z) (decimal_exponent min_exp max_exp : Z) : outcome (list Z) :=
  let! _ := holds (min_exp <? 0) in
  let! _ := holds (0 <? max_exp) in
  let k := Z.of_nat (length buf) in
  let n := k + decimal_exponent in
  if (k <=? n) && (n <=? max_exp) then Ok (buf ++ replicate (Z.to_nat (n - k)) 48 ++ [46; 48])
  else if (0 <? n) && (n <=? max_exp) then
    let! _ := holds (n <? k) in Ok (take (Z.to_nat n) buf ++ 46 :: drop (Z.to_nat n) buf)
  else if (min_exp <? n) && (n <=? 0) then Ok ([48; 46] ++ replicate (Z.to_nat (- n)) 48 ++ buf)
  else
    let buf := if k =? 1 then buf else take 1 buf ++ 46 :: drop 1 buf in
    let! e := append_exponent (n - 1) in
    Ok (buf ++ 101 :: e).

End dtoa_impl.
Import dtoa_impl.

(** [std::numeric_limits<double>]; the serializer's buffer has the room that is
    asserted. *)
Definition max_digits10 : nat := 17.
Definition digits10 : Z := 15.

Definition signbit (value : spec_float) : bool :=
  match value with S754_zero s | S754_infinity s | S754_finite s _ _ => s | S754_nan => false end.
Definition to_chars (value : spec_float) : outcome (list Z) :=
  let! _ := holds (match value with S754_zero _ | S754_finite _ _ _ => true | _ => false end) in
  let sign := if signbit value then [45] else [] in
  let value := if signbit value then SFopp value else value in
  match value with
  | S754_zero _ => Ok (sign ++ [48; 46; 48])
  | _ =>
    let! r := grisu2 value in
    let! _ := holds (length r.1 <=? max_digits10)%nat in
    let! text := format_buffer r.1 r.2 (-4) digits10 in
    Ok (sign ++ text)
  end.
