(* ===== verification/JsonText.v ===== *)
(** * JSON text: lexer, parser and serializer of nlohmann::json 3.7.3

    Models the text side of libsdptransform/include/json.hpp: [json::parse],
    with the lexer, the parser and the builder of values that it uses, and
    [json::dump] with its serializer.  At the border to Java every JSON value
    of the client is such a text.  Text is a list of bytes; the lexer's
    [current] is -1 at the end of the input.  The position and the texts of
    errors, which only go into the message of an exception, are not kept.  The
    locale's decimal point is a point. *)

From stdpp Require Import base list strings.
From Stdlib Require Import ZArith Lia SpecFloat.
From S2P Require Import Prelude Json Utils SdpParse Grisu.
Open Scope Z_scope.

(** ** Bytes *)

Definition byte_of (c : Ascii.ascii) : Z := Z.of_N (Ascii.N_of_ascii c).
Definition char_of (b : Z) : Ascii.ascii := Ascii.ascii_of_N (Z.to_N b).
Definition bytes_of (s : string) : list Z := map byte_of (String.list_ascii_of_string s).
Definition text_of (l : list Z) : string := String.string_of_list_ascii (map char_of l).

(** ** The lexer *)

Module Lexer.

Inductive token_type :=
| uninitialized | literal_true | literal_false | literal_null | value_string_ | value_unsigned_ | value_integer_ | value_float_
| begin_array | begin_object | end_array | end_object | name_separator | value_separator | parse_error | end_of_input.
#[export] Instance token_type_eq_dec : EqDecision token_type.
Proof. solve_decision. Defined.

Record lexer := mkLexer {
  ia : list Z;
  current : Z;
  next_unget : bool;
  chars_read_total : Z;
  token_buffer : list Z;
  value_integer : Z;
  value_unsigned : Z;
  value_float : spec_float }.
Definition eof : Z := -1.
Definition newLexer (text : list Z) : lexer := mkLexer text eof false 0 [] 0 0 (S754_zero false).

Definition with_input i c u n (l : lexer) : lexer :=
  mkLexer i c u n (token_buffer l) (value_integer l) (value_unsigned l) (value_float l).
Definition with_buffer b (l : lexer) : lexer :=
  mkLexer (ia l) (current l) (next_unget l) (chars_read_total l) b (value_integer l) (value_unsigned l) (value_float l).
Definition with_integer v (l : lexer) : lexer :=
  mkLexer (ia l) (current l) (next_unget l) (chars_read_total l) (token_buffer l) v (value_unsigned l) (value_float l).
Definition with_unsigned v (l : lexer) : lexer :=
  mkLexer (ia l) (current l) (next_unget l) (chars_read_total l) (token_buffer l) (value_integer l) v (value_float l).
Definition with_float v (l : lexer) : lexer :=
  mkLexer (ia l) (current l) (next_unget l) (chars_read_total l) (token_buffer l) (value_integer l) (value_unsigned l) v.

(** [input_buffer_adapter::get_character]. *)
Definition get_character (i : list Z) : Z * list Z := match i with c :: r => (c, r) | [] => (eof, []) end.

Definition get : M lexer Z := fun l =>
  let '(c, i) := if next_unget l then (current l, ia l) else get_character (ia l) in
  (Ok c, with_input i c false (chars_read_total l + 1) l).
Definition unget : M lexer unit := modify (fun l => with_input (ia l) (current l) true (chars_read_total l - 1) l).
Definition add (c : Z) : M lexer unit := modify (fun l => with_buffer (token_buffer l ++ [c]) l).
Definition reset : M lexer unit := modify (with_buffer []).
Definition add_current : M lexer unit := modify (fun l => with_buffer (token_buffer l ++ [current l]) l).

(** *** Strings *)

Definition between (a b c : Z) : bool := (a <=? c) && (c <=? b).

Fixpoint codepoint_digits (factors : list Z) (codepoint : Z) : M lexer Z :=
  match factors with
  | [] => ret codepoint
  | factor :: r =>
    c <- get ;;
    if between 48 57 c then codepoint_digits r (codepoint + Z.shiftl (c - 48) factor)
    else if between 65 70 c then codepoint_digits r (codepoint + Z.shiftl (c - 55) factor)
    else if between 97 102 c then codepoint_digits r (codepoint + Z.shiftl (c - 87) factor)
    else ret (-1)
  end.
Definition get_codepoint : M lexer Z := codepoint_digits [12; 8; 4; 0] 0.

Fixpoint in_ranges (ranges : list (Z * Z)) : M lexer bool :=
  match ranges with
  | [] => ret true
  | (lo, hi) :: r => c <- get ;; if between lo hi c then add_current ;;; in_ranges r else ret false
  end.
Definition next_byte_in_range (ranges : list (Z * Z)) : M lexer bool := add_current ;;; in_ranges ranges.

(** The bytes of a code point. *)
Definition utf8 (codepoint : Z) : list Z :=
  let tail n := Z.lor 128 (Z.land (Z.shiftr codepoint n) 63) in
  if codepoint <? 128 then [codepoint]
  else if codepoint <=? 2047 then [Z.lor 192 (Z.shiftr codepoint 6); tail 0]
  else if codepoint <=? 65535 then [Z.lor 224 (Z.shiftr codepoint 12); tail 6; tail 0]
  else [Z.lor 240 (Z.shiftr codepoint 18); tail 12; tail 6; tail 0].

(** After [\u]: whether the escape is good. *)
Definition unicode_escape : M lexer bool :=
  codepoint1 <- get_codepoint ;;
  if codepoint1 =? -1 then ret false
  else if between 55296 56319 codepoint1 then
    c <- get ;;
    if negb (c =? 92) then ret false
    else
      c <- get ;;
      if negb (c =? 117) then ret false
      else
        codepoint2 <- get_codepoint ;;
        if codepoint2 =? -1 then ret false
        else if between 56320 57343 codepoint2 then
          for_list (utf8 (Z.shiftl codepoint1 10 + codepoint2 - 56613888)) add ;;; ret true
        else ret false
  else if between 56320 57343 codepoint1 then ret false
  else for_list (utf8 codepoint1) add ;;; ret true.

(** After a backslash. *)
Definition escape : M lexer bool :=
  c <- get ;;
  if c =? 34 then add 34 ;;; ret true
  else if c =? 92 then add 92 ;;; ret true
  else if c =? 47 then add 47 ;;; ret true
  else if c =? 98 then add 8 ;;; ret true
  else if c =? 102 then add 12 ;;; ret true
  else if c =? 110 then add 10 ;;; ret true
  else if c =? 114 then add 13 ;;; ret true
  else if c =? 116 then add 9 ;;; ret true
  else if c =? 117 then unicode_escape
  else ret false.

(** What must follow a byte from 0x80 on; nothing can follow other bytes. *)
Definition ranges_after (c : Z) : option (list (Z * Z)) :=
  let tail := (128, 191) in
  if between 194 223 c then Some [tail]
  else if c =? 224 then Some [(160, 191); tail]
  else if between 225 236 c || between 238 239 c then Some [tail; tail]
  else if c =? 237 then Some [(128, 159); tail]
  else if c =? 240 then Some [(144, 191); tail; tail]
  else if between 241 243 c then Some [tail; tail; tail]
  else if c =? 244 then Some [(128, 143); tail; tail]
  else None.

Fixpoint string_loop (fuel : nat) : M lexer token_type :=
  match fuel with
  | O => undef
  | S fuel =>
    c <- get ;;
    if c =? eof then ret parse_error
    else if c =? 34 then ret value_string_
    else if c =? 92 then ok <- escape ;; if ok : bool then string_loop fuel else ret parse_error
    else if c <=? 31 then ret parse_error
    else if c <=? 127 then add_current ;;; string_loop fuel
    else
      match ranges_after c with
      | Some ranges => ok <- next_byte_in_range ranges ;; if ok : bool then string_loop fuel else ret parse_error
      | None => ret parse_error
      end
  end.

(** The loop takes a byte in each round, and ends with the input. *)
Definition fuel_of (l : lexer) : nat := S (S (length (ia l))).
Definition scan_string : M lexer token_type := reset ;;; l <- Prelude.get ;; string_loop (fuel_of l).

(** *** Numbers *)

Definition is_digit (c : Z) : bool := between 48 57 c.
Definition digits_value (l : list Z) : Z := fold_left (fun n c => 10 * n + (c - 48)) l 0.
(** [std::strtoull] and [std::strtoll] of what was scanned, none if out of
    range, and [std::strtod]. *)
Definition strtoull (l : list Z) : option Z := let n := digits_value l in if n <? 2 ^ 64 then Some n else None.
Definition strtoll (l : list Z) : option Z :=
  match l with
  | 45 :: l => let n := - digits_value l in if - 2 ^ 63 <=? n then Some n else None
  | _ => let n := digits_value l in if n <? 2 ^ 63 then Some n else None
  end.
Definition strtod (l : list Z) : spec_float :=
  match read_decimal (text_of l) with
  | Some (neg, m, e) => round_decimal 53 1024 neg m e
  | None => S754_zero false
  end.

Definition scan_number_done (number_type : token_type) : M lexer token_type :=
  unget ;;;
  l <- Prelude.get ;;
  let float := modify (with_float (strtod (token_buffer l))) ;;; ret value_float_ in
  match number_type with
  | value_unsigned_ =>
    match strtoull (token_buffer l) with
    | Some x => modify (with_unsigned x) ;;; ret value_unsigned_
    | None => float
    end
  | value_integer_ =>
    match strtoll (token_buffer l) with
    | Some x => modify (with_integer x) ;;; ret value_integer_
    | None => float
    end
  | _ => float
  end.

Fixpoint scan_number_any2 (fuel : nat) : M lexer token_type :=
  match fuel with
  | O => undef
  | S fuel => c <- get ;; if is_digit c then add_current ;;; scan_number_any2 fuel else scan_number_done value_float_
  end.
Definition scan_number_sign (fuel : nat) : M lexer token_type :=
  c <- get ;; if is_digit c then add_current ;;; scan_number_any2 fuel else ret parse_error.
Definition scan_number_exponent (fuel : nat) : M lexer token_type :=
  c <- get ;;
  if (c =? 43) || (c =? 45) then add_current ;;; scan_number_sign fuel
  else if is_digit c then add_current ;;; scan_number_any2 fuel
  else ret parse_error.
Definition is_exponent (c : Z) : bool := (c =? 101) || (c =? 69).
Fixpoint scan_number_decimal2 (fuel : nat) : M lexer token_type :=
  match fuel with
  | O => undef
  | S fuel =>
    c <- get ;;
    if is_digit c then add_current ;;; scan_number_decimal2 fuel
    else if is_exponent c then add_current ;;; scan_number_exponent fuel
    else scan_number_done value_float_
  end.
Definition scan_number_decimal1 (fuel : nat) : M lexer token_type :=
  c <- get ;; if is_digit c then add_current ;;; scan_number_decimal2 fuel else ret parse_error.
Fixpoint scan_number_any1 (number_type : token_type) (fuel : nat) : M lexer token_type :=
  match fuel with
  | O => undef
  | S fuel =>
    c <- get ;;
    if is_digit c then add_current ;;; scan_number_any1 number_type fuel
    else if c =? 46 then add 46 ;;; scan_number_decimal1 fuel
    else if is_exponent c then add_current ;;; scan_number_exponent fuel
    else scan_number_done number_type
  end.
Definition scan_number_zero (number_type : token_type) (fuel : nat) : M lexer token_type :=
  c <- get ;;
  if c =? 46 then add 46 ;;; scan_number_decimal1 fuel
  else if is_exponent c then add_current ;;; scan_number_exponent fuel
  else scan_number_done number_type.
Definition scan_number_minus (fuel : nat) : M lexer token_type :=
  c <- get ;;
  if c =? 48 then add_current ;;; scan_number_zero value_integer_ fuel
  else if is_digit c then add_current ;;; scan_number_any1 value_integer_ fuel
  else ret parse_error.
Definition scan_number : M lexer token_type :=
  reset ;;;
  l <- Prelude.get ;;
  add_current ;;;
  if current l =? 45 then scan_number_minus (fuel_of l)
  else if current l =? 48 then scan_number_zero value_unsigned_ (fuel_of l)
  else scan_number_any1 value_unsigned_ (fuel_of l).

(** *** Tokens *)

(** The characters after the first. *)
Fixpoint scan_literal (text : list Z) (t : token_type) : M lexer token_type :=
  match text with
  | [] => ret t
  | x :: r => c <- get ;; if c =? x then scan_literal r t else ret parse_error
  end.

Definition skip_bom : M lexer bool :=
  c <- get ;;
  if c =? 239 then
    c <- get ;; if negb (c =? 187) then ret false else c <- get ;; ret (c =? 191)
  else unget ;;; ret true.

Definition is_space (c : Z) : bool := (c =? 32) || (c =? 9) || (c =? 10) || (c =? 13).
Fixpoint skip_whitespace (fuel : nat) : M lexer Z :=
  match fuel with
  | O => undef
  | S fuel => c <- get ;; if is_space c then skip_whitespace fuel else ret c
  end.

Definition scan : M lexer token_type :=
  l <- Prelude.get ;;
  ok <- (if chars_read_total l =? 0 then skip_bom else ret true) ;;
  if negb ok then ret parse_error
  else
    l <- Prelude.get ;;
    c <- skip_whitespace (fuel_of l) ;;
    if c =? 91 then ret begin_array
    else if c =? 93 then ret end_array
    else if c =? 123 then ret begin_object
    else if c =? 125 then ret end_object
    else if c =? 58 then ret name_separator
    else if c =? 44 then ret value_separator
    else if c =? 116 then scan_literal [114; 117; 101] literal_true
    else if c =? 102 then scan_literal [97; 108; 115; 101] literal_false
    else if c =? 110 then scan_literal [117; 108; 108] literal_null
    else if c =? 34 then scan_string
    else if (c =? 45) || is_digit c then scan_number
    else if (c =? 0) || (c =? eof) then ret end_of_input
    else ret parse_error.
End Lexer.

(** ** The parser *)

Module Parser.
Import Lexer.

(** The containers that are open, the innermost first, with the key whose value
    is next.  In the code a container is in its parent while it is filled;
    nothing reads the parent before it ends. *)
Inductive frame := InArray (l : list json) | InObject (o : list (string * json)) (object_element : option string).
Record json_sax_dom_parser := mkSax { root : json; ref_stack : list frame }.

Definition handle_value (v : json) : M json_sax_dom_parser unit :=
  s <- Prelude.get ;;
  match ref_stack s with
  | [] => put (mkSax v [])
  | InArray l :: r => put (mkSax (root s) (InArray (l ++ [v]) :: r))
  | InObject o (Some k) :: r => put (mkSax (root s) (InObject (obj_insert k v o) (Some k) :: r))
  | InObject o None :: r => undef
  end.
Definition push_frame (f : frame) : M json_sax_dom_parser unit := modify (fun s => mkSax (root s) (f :: ref_stack s)).
Definition start_object : M json_sax_dom_parser unit := push_frame (InObject [] None).
Definition start_array : M json_sax_dom_parser unit := push_frame (InArray []).
(** [operator[]] adds null for a new key. *)
Definition key (k : string) : M json_sax_dom_parser unit :=
  s <- Prelude.get ;;
  match ref_stack s with
  | InObject o _ :: r => put (mkSax (root s) (InObject (obj_emplace (k, JNull) o) (Some k) :: r))
  | _ => undef
  end.
Definition end_container : M json_sax_dom_parser unit :=
  s <- Prelude.get ;;
  match ref_stack s with
  | InArray l :: r => put (mkSax (root s) r) ;;; handle_value (JArray l)
  | InObject o _ :: r => put (mkSax (root s) r) ;;; handle_value (JObject o)
  | [] => undef
  end.

Record parser := mkParser { last_token : token_type; m_lexer : lexer; states : list bool; sax : json_sax_dom_parser }.
Definition with_states v (p : parser) : parser := mkParser (last_token p) (m_lexer p) v (sax p).
Definition on_sax {A} : M json_sax_dom_parser A -> M parser A :=
  zoom (fun p => Some (sax p)) (fun s p => mkParser (last_token p) (m_lexer p) (states p) s).

Definition get_token : M parser token_type := fun p =>
  match scan (m_lexer p) with
  | (Ok t, l) => (Ok t, mkParser t l (states p) (sax p))
  | (Throw e, l) => (Throw e, mkParser (last_token p) l (states p) (sax p))
  | (Undef, l) => (Undef, mkParser (last_token p) l (states p) (sax p))
  end.

(** [sax->parse_error], with exceptions allowed. *)
Definition syntax_error {A} : M parser A := throw (JsonParseError 101).
Definition expect (t : token_type) : M parser unit := t' <- get_token ;; if decide (t' = t) then ret tt else syntax_error.
Definition get_string (p : parser) : string := text_of (token_buffer (m_lexer p)).
Definition is_finite (f : spec_float) : bool := match f with S754_zero _ | S754_finite _ _ _ => true | _ => false end.

(** A member's key, separator and first token of its value; the key has been
    read. *)
Definition parse_member : M parser unit :=
  p <- Prelude.get ;;
  if decide (last_token p = value_string_) then
    on_sax (key (get_string p)) ;;; expect name_separator
  else syntax_error.

Inductive flow := Continue | Evaluate.
(** The switch on the last token. *)
Definition parse_value : M parser flow :=
  p <- Prelude.get ;;
  let value v := on_sax (handle_value v) ;;; ret Evaluate in
  match last_token p with
  | begin_object =>
    on_sax start_object ;;;
    t <- get_token ;;
    if decide (t = end_object) then on_sax end_container ;;; ret Evaluate
    else parse_member ;;; modify (fun p => with_states (false :: states p) p) ;;; get_token ;;; ret Continue
  | begin_array =>
    on_sax start_array ;;;
    t <- get_token ;;
    if decide (t = end_array) then on_sax end_container ;;; ret Evaluate
    else modify (fun p => with_states (true :: states p) p) ;;; ret Continue
  | value_float_ =>
    let res := value_float (m_lexer p) in
    if is_finite res then value (JFloat res) else throw (JsonOutOfRange 406)
  | literal_false => value (JBool false)
  | literal_null => value JNull
  | literal_true => value (JBool true)
  | value_integer_ => value (JInt (value_integer (m_lexer p)))
  | value_string_ => value (JString (get_string p))
  | value_unsigned_ => value (JUint (value_unsigned (m_lexer p)))
  | _ => syntax_error
  end.

Inductive next := Done | Again (skip_to_state_evaluation : bool).
(** After a value. *)
Definition evaluate_state : M parser next :=
  p <- Prelude.get ;;
  match states p with
  | [] => ret Done
  | true :: r =>
    t <- get_token ;;
    if decide (t = value_separator) then get_token ;;; ret (Again false)
    else if decide (t = end_array) then
      on_sax end_container ;;; modify (with_states r) ;;; ret (Again true)
    else syntax_error
  | false :: r =>
    t <- get_token ;;
    if decide (t = value_separator) then
      get_token ;;; parse_member ;;; get_token ;;; ret (Again false)
    else if decide (t = end_object) then
      on_sax end_container ;;; modify (with_states r) ;;; ret (Again true)
    else syntax_error
  end.

Fixpoint sax_parse_internal (fuel : nat) (skip_to_state_evaluation : bool) : M parser unit :=
  match fuel with
  | O => undef
  | S fuel =>
    f <- (if skip_to_state_evaluation then ret Evaluate else parse_value) ;;
    match f with
    | Continue => sax_parse_internal fuel false
    | Evaluate =>
      n <- evaluate_state ;;
      match n with Done => ret tt | Again skip => sax_parse_internal fuel skip end
    end
  end.

(** [json::parse], with the fuel that the text of the loop needs. *)
Definition newParser (text : list Z) : parser := mkParser uninitialized (newLexer text) [] (mkSax JNull []).
Definition parse_bytes (text : list Z) : outcome json :=
  let '(o, p) := (get_token ;;; sax_parse_internal (S (S (length text))) false ;;; expect end_of_input) (newParser text) in
  let! _ := o in Ok (root (sax p)).
Definition parse (text : string) : outcome json := parse_bytes (bytes_of text).
End Parser.

(** ** The serializer *)

Module Serializer.

Inductive error_handler_t := strict | replace | ignore.

(** *** UTF-8 *)

Definition UTF8_ACCEPT : Z := 0.
Definition UTF8_REJECT : Z := 1.

Definition utf8d : list Z :=
  replicate 128 0 ++ replicate 16 1 ++ replicate 16 9 ++ replicate 32 7 ++ [8; 8] ++ replicate 30 2 ++
  [10; 3; 3; 3; 3; 3; 3; 3; 3; 3; 3; 3; 3; 4; 3; 3] ++
  [11; 6; 6; 6; 5; 8; 8; 8; 8; 8; 8; 8; 8; 8; 8; 8] ++
  [0; 1; 2; 3; 5; 8; 7; 1; 1; 1; 4; 6; 1; 1; 1; 1] ++
  [1; 1; 1; 1; 1; 1; 1; 1; 1; 1; 1; 1; 1; 1; 1; 1; 1; 0; 1; 1; 1; 1; 1; 0; 1; 0; 1; 1; 1; 1; 1; 1] ++
  [1; 2; 1; 1; 1; 1; 1; 2; 1; 2; 1; 1; 1; 1; 1; 1; 1; 1; 1; 1; 1; 1; 1; 2; 1; 1; 1; 1; 1; 1; 1; 1] ++
  [1; 2; 1; 1; 1; 1; 1; 1; 1; 2; 1; 1; 1; 1; 1; 1; 1; 1; 1; 1; 1; 1; 1; 3; 1; 3; 1; 1; 1; 1; 1; 1] ++
  [1; 3; 1; 1; 1; 1; 1; 3; 1; 3; 1; 1; 1; 1; 1; 1; 1; 3; 1; 1; 1; 1; 1; 1; 1; 1; 1; 1; 1; 1; 1; 1].

(** The new state and code point. *)
Definition decode (state codep byte : Z) : Z * Z :=
  let type := nth (Z.to_nat byte) utf8d 0 in
  let codep := if negb (state =? UTF8_ACCEPT) then Z.lor (Z.land byte 63) (wrap_u 32 (Z.shiftl codep 6))
               else Z.land (Z.shiftr 255 type) byte in
  (nth (Z.to_nat (256 + state * 16 + type)) utf8d 0, codep).

(** *** Strings *)

(** The local variables of [dump_escaped], with what was written before; the
    array [string_buffer] up to [bytes].  A write past its 512 bytes is
    undefined. *)
Record escaping := mkEscaping {
  written : list Z;
  string_buffer : list Z;
  bytes_after_last_accept : nat;
  undumped_chars : nat;
  state : Z;
  codepoint : Z }.
Definition string_buffer_size : nat := 512.

Definition hex_digit (n : Z) : Z := if n <? 10 then 48 + n else 87 + n.
(** [%04x] of 16 bits, after [\u]. *)
Definition hex4 (n : Z) : list Z :=
  [92; 117; hex_digit (Z.land (Z.shiftr n 12) 15); hex_digit (Z.land (Z.shiftr n 8) 15);
   hex_digit (Z.land (Z.shiftr n 4) 15); hex_digit (Z.land n 15)].

(** What is put into the buffer for a code point, and whether by [snprintf],
    which needs room for a terminator. *)
Definition escaped (ensure_ascii : bool) (codepoint byte : Z) : list Z * bool :=
  if codepoint =? 8 then ([92; 98], false)
  else if codepoint =? 9 then ([92; 116], false)
  else if codepoint =? 10 then ([92; 110], false)
  else if codepoint =? 12 then ([92; 102], false)
  else if codepoint =? 13 then ([92; 114], false)
  else if codepoint =? 34 then ([92; 34], false)
  else if codepoint =? 92 then ([92; 92], false)
  else if (codepoint <=? 31) || (ensure_ascii && (127 <=? codepoint)) then
    if codepoint <=? 65535 then (hex4 codepoint, true)
    else (hex4 (wrap_u 16 (55232 + Z.shiftr codepoint 10)) ++ hex4 (wrap_u 16 (56320 + Z.land codepoint 1023)), true)
  else ([byte], false).

Definition put_buffer (bs : list Z) (terminated : bool) : M escaping unit :=
  e <- get ;;
  if (length (string_buffer e) + length bs + (if terminated then 1 else 0) <=? string_buffer_size)%nat then
    put (mkEscaping (written e) (string_buffer e ++ bs) (bytes_after_last_accept e) (undumped_chars e) (state e) (codepoint e))
  else undef.
(** The buffer is written if fewer than 13 bytes are left. *)
Definition flush : M escaping unit :=
  modify (fun e =>
    let e := if (string_buffer_size - length (string_buffer e) <? 13)%nat
             then mkEscaping (written e ++ string_buffer e) [] (bytes_after_last_accept e) (undumped_chars e) (state e) (codepoint e)
             else e in
    mkEscaping (written e) (string_buffer e) (length (string_buffer e)) (undumped_chars e) (state e) (codepoint e)).
Definition set_undumped n : M escaping unit :=
  modify (fun e => mkEscaping (written e) (string_buffer e) (bytes_after_last_accept e) n (state e) (codepoint e)).
Definition set_state s c : M escaping unit :=
  modify (fun e => mkEscaping (written e) (string_buffer e) (bytes_after_last_accept e) (undumped_chars e) s c).
(** [bytes = bytes_after_last_accept]. *)
Definition drop_rejected : M escaping unit :=
  modify (fun e => mkEscaping (written e) (take (bytes_after_last_accept e) (string_buffer e)) (bytes_after_last_accept e) (undumped_chars e) (state e) (codepoint e)).

Definition replacement (ensure_ascii : bool) : list Z := if ensure_ascii then [92; 117; 102; 102; 102; 100] else [239; 191; 189].

Section escape.
Context (error_handler : error_handler_t) (ensure_ascii : bool).

(** A byte that cannot follow; returns whether it is read again. *)
Definition rejected : M escaping bool :=
  match error_handler with
  | strict => throw (JsonTypeError 316)
  | _ =>
    e <- get ;;
    drop_rejected ;;;
    match error_handler with replace => put_buffer (replacement ensure_ascii) false ;;; flush | _ => ret tt end ;;;
    set_undumped 0 ;;;
    e' <- get ;;
    set_state UTF8_ACCEPT (codepoint e') ;;;
    ret (0 <? undumped_chars e)%nat
  end.

Definition escape_byte (byte : Z) : M escaping bool :=
  e <- get ;;
  let '(s, c) := decode (state e) (codepoint e) byte in
  set_state s c ;;;
  if s =? UTF8_ACCEPT then
    let '(bs, terminated) := escaped ensure_ascii c byte in
    put_buffer bs terminated ;;; flush ;;; set_undumped 0 ;;; ret false
  else if s =? UTF8_REJECT then rejected
  else
    when (negb ensure_ascii) (put_buffer [byte] false) ;;;
    set_undumped (S (undumped_chars e)) ;;; ret false.

(** Each byte is read at most twice. *)
Fixpoint escape_loop (fuel : nat) (l : list Z) : M escaping unit :=
  match l with
  | [] => ret tt
  | byte :: r =>
    match fuel with
    | O => undef
    | S fuel => again <- escape_byte byte ;; if again : bool then escape_loop fuel (byte :: r) else escape_loop fuel r
    end
  end.

Definition escape_end : M escaping unit :=
  e <- get ;;
  let write bs := put (mkEscaping (written e ++ bs) [] 0 (undumped_chars e) (state e) (codepoint e)) in
  if state e =? UTF8_ACCEPT then write (string_buffer e)
  else
    let accepted := take (bytes_after_last_accept e) (string_buffer e) in
    match error_handler with
    | strict => throw (JsonTypeError 316)
    | ignore => write accepted
    | replace => write (accepted ++ replacement ensure_ascii)
    end.
End escape.

Record serializer := mkSerializer { o : list Z; indent_string : list Z }.
Definition write (bs : list Z) : M serializer unit := modify (fun s => mkSerializer (o s ++ bs) (indent_string s)).

Definition dump_escaped (error_handler : error_handler_t) (ensure_ascii : bool) (text : list Z) : M serializer unit := fun s =>
  let '(r, e) := (escape_loop error_handler ensure_ascii (2 * length text) text ;;; escape_end error_handler ensure_ascii)
    (mkEscaping (o s) [] 0 0 UTF8_ACCEPT 0) in
  (r, mkSerializer (written e) (indent_string s)).

(** *** Integers *)

Fixpoint count_digits_loop (fuel : nat) (x n_digits : Z) : outcome Z :=
  match fuel with
  | O => Undef
  | S fuel =>
    if x <? 10 then Ok n_digits
    else if x <? 100 then Ok (n_digits + 1)
    else if x <? 1000 then Ok (n_digits + 2)
    else if x <? 10000 then Ok (n_digits + 3)
    else count_digits_loop fuel (x / 10000) (n_digits + 4)
  end.
(** 64 bits have at most 20 digits. *)
Definition count_digits (x : Z) : outcome Z := count_digits_loop 6 x 1.

Definition digits_to_99 (n : Z) : Z * Z := (48 + n / 10, 48 + n mod 10).
Definition number_buffer_size : nat := 64.

(** [*(--buffer_ptr) = c]. *)
Definition push_back (c : Z) (bp : list Z * nat) : outcome (list Z * nat) :=
  match bp with
  | (b, S n) => if (n <? length b)%nat then Ok (<[n := c]> b, n) else Undef
  | (_, O) => Undef
  end.
Definition push_pair (n : Z) (bp : list Z * nat) : outcome (list Z * nat) :=
  let '(d0, d1) := digits_to_99 n in let! bp := push_back d1 bp in push_back d0 bp.
Fixpoint write_digits (fuel : nat) (abs_value : Z) (bp : list Z * nat) : outcome (list Z * nat) :=
  if 100 <=? abs_value then
    match fuel with
    | O => Undef
    | S fuel => let! bp := push_pair (abs_value mod 100) bp in write_digits fuel (abs_value / 100) bp
    end
  else if 10 <=? abs_value then push_pair abs_value bp
  else push_back (48 + abs_value) bp.

Definition remove_sign (x : Z) : Z := wrap_u 64 (wrap_u 64 (- (x + 1)) + 1).

(** [signed]: of a [number_integer_t]. *)
Definition dump_integer (signed : bool) (x : Z) : M serializer unit :=
  if x =? 0 then write [48]
  else
    let is_negative := signed && negb (0 <=? x) in
    let number_buffer := replicate number_buffer_size 0 in
    let number_buffer := if is_negative then <[0%nat := 45]> number_buffer else number_buffer in
    let abs_value := if is_negative then remove_sign x else wrap_u 64 x in
    n <- lift (count_digits abs_value) ;;
    let n_chars := (Z.to_nat n + if is_negative then 1 else 0)%nat in
    bp <- lift (write_digits 10 abs_value (number_buffer, n_chars)) ;;
    write (take n_chars bp.1).

(** *** Values *)

(** [to_chars] writes into [number_buffer]; more than it holds is undefined. *)
Definition dump_float (x : spec_float) : M serializer unit :=
  if Parser.is_finite x then
    text <- lift (to_chars x) ;;
    if (length text <=? number_buffer_size)%nat then write text else undef
  else write (bytes_of "null").

(** Indentation for the next level: the string is made larger once, if it is
    too short.  Reading past it and its terminator is undefined. *)
Definition grow_indent (new_indent : Z) : M serializer unit :=
  modify (fun s => if Z.of_nat (length (indent_string s)) <? new_indent
                   then mkSerializer (o s) (indent_string s ++ replicate (length (indent_string s)) 32) else s).
Definition write_indent (n : Z) : M serializer unit :=
  s <- get ;;
  if n <=? Z.of_nat (length (indent_string s)) + 1 then write (take (Z.to_nat n) (indent_string s ++ [0])) else undef.

Section dump.
Context (error_handler : error_handler_t) (pretty_print ensure_ascii : bool) (indent_step : Z).

Definition dump_string (s : string) : M serializer unit :=
  write [34] ;;; dump_escaped error_handler ensure_ascii (bytes_of s) ;;; write [34].

(** The elements in order, with what is between them. *)
Fixpoint dump_elements (l : list (M serializer unit)) (new_indent : Z) : M serializer unit :=
  match l with
  | [] => undef
  | [x] => when pretty_print (write_indent new_indent) ;;; x
  | x :: r =>
    when pretty_print (write_indent new_indent) ;;; x ;;;
    write (if pretty_print then [44; 10] else [44]) ;;; dump_elements r new_indent
  end.
Definition dump_container (open close : Z) (l : list (M serializer unit)) (current_indent new_indent : Z) : M serializer unit :=
  match l with
  | [] => write [open; close]
  | _ =>
    write (if pretty_print then [open; 10] else [open]) ;;;
    when pretty_print (grow_indent new_indent) ;;;
    dump_elements l new_indent ;;;
    when pretty_print (write [10] ;;; write_indent current_indent) ;;;
    write [close]
  end.

Fixpoint dump (j : json) (current_indent : Z) : M serializer unit :=
  let new_indent := if pretty_print then wrap_u 32 (current_indent + indent_step) else current_indent in
  match j with
  | JObject l =>
    dump_container 123 125
      (map (fun kv => dump_string kv.1 ;;; write (if pretty_print then [58; 32] else [58]) ;;; dump kv.2 new_indent) l)
      current_indent new_indent
  | JArray l => dump_container 91 93 (map (fun x => dump x new_indent) l) current_indent new_indent
  | JString s => dump_string s
  | JBool b => write (bytes_of (if b then "true" else "false"))
  | JInt z => dump_integer true z
  | JUint z => dump_integer false z
  | JFloat f => dump_float f
  | JNull => write (bytes_of "null")
  end.
End dump.

(** [json::dump] with its arguments; a negative indentation asks for one line. *)
Definition dump_bytes (error_handler : error_handler_t) (ensure_ascii : bool) (indent indent_char : Z) (j : json) : outcome (list Z) :=
  let '(r, s) := dump error_handler (0 <=? indent) ensure_ascii (if 0 <=? indent then indent else 0) j 0
    (mkSerializer [] (replicate 512 indent_char)) in
  let! _ := r in Ok (o s).
Definition dump_text (j : json) : outcome string := let! l := dump_bytes strict false (-1) 32 j in Ok (text_of l).
End Serializer.
