(* ===== verification/JsonTextSpec.v ===== *)
(** * JSON text: the parser returns

    Every scan of the lexer ends and takes something of the input, the parser's
    stack of states follows the containers that are open, and so [json::parse]
    ends for every text. *)

From stdpp Require Import base list strings.
From Stdlib Require Import ZArith Lia SpecFloat.
From S2P Require Import Prelude Keeps Json Utils SdpParse JsonText.
Import Lexer.
Open Scope Z_scope.

(** ** Reading *)

(** What the lexer has still to read. *)
Definition feeds (l : lexer) (bs : list Z) : Prop :=
  Forall (fun c => 0 <= c) bs /\
  if next_unget l then match bs with c :: r => current l = c /\ ia l = r | [] => current l = eof /\ ia l = [] end
  else ia l = bs.
(** A byte was just read, or the end. *)
Definition just_read (l : lexer) (c : Z) (r : list Z) : Prop :=
  next_unget l = false /\ current l = c /\ ia l = r /\ (c = eof /\ r = [] \/ 0 <= c) /\ Forall (fun c => 0 <= c) r.
Definition head (bs : list Z) : Z := match bs with c :: _ => c | [] => eof end.

Definition after_get (bs : list Z) (l : lexer) : lexer := with_input (tail bs) (head bs) false (chars_read_total l + 1) l.
Lemma get_run l bs : feeds l bs -> get l = (Ok (head bs), after_get bs l).
Proof.
  intros [_ H]. unfold get, after_get. destruct (next_unget l).
  - destruct bs as [|c r]; destruct H as [-> ->]; done.
  - rewrite H. by destruct bs.
Qed.
Lemma after_get_feeds l bs : feeds l bs -> feeds (after_get bs l) (tail bs) /\ just_read (after_get bs l) (head bs) (tail bs).
Proof.
  intros [Hb _]. destruct bs as [|c r]; [by split; [split|split_and!; auto]|]. inversion Hb; subst.
  split; [by split|]. split_and!; auto.
Qed.
Lemma just_read_feeds l c r : just_read l c r -> feeds l r.
Proof. intros (H1 & _ & H3 & _ & H5). split; [done|]. by rewrite H1. Qed.

(** Putting it back. *)
Definition back (c : Z) (r : list Z) : list Z := if c =? eof then r else c :: r.
Lemma back_head bs : Forall (fun c => 0 <= c) bs -> back (head bs) (tail bs) = bs.
Proof.
  intros Hb. destruct bs as [|c r]; [done|]. unfold back. cbn. inversion Hb; subst. destruct (Z.eqb_spec c eof) as [->|]; [|done].
  unfold eof in *. lia.
Qed.
Definition after_unget (l : lexer) : lexer := with_input (ia l) (current l) true (chars_read_total l - 1) l.
Lemma unget_run l c r : just_read l c r -> unget l = (Ok tt, after_unget l) /\ feeds (after_unget l) (back c r).
Proof.
  intros (H1 & H2 & H3 & H4 & H5). split; [done|]. unfold feeds, back. cbn. rewrite H2, H3.
  destruct (Z.eqb_spec c eof) as [->|Hc]; [destruct H4 as [[_ ->]|H4]; [done|unfold eof in H4; lia]|].
  split; [|done]. constructor; [|done]. destruct H4 as [[? _]|]; [done|lia].
Qed.

(** *** Every scan returns *)

(** Something of the input is taken, and maybe nothing. *)
Definition takes {A} (m : M lexer A) : Prop := forall l bs, feeds l bs ->
  exists a l' bs', m l = (Ok a, l') /\ feeds l' bs' /\ (length bs' <= length bs)%nat.

Lemma takes_ret {A} (a : A) : takes (ret a).
Proof. intros l bs H. by exists a, l, bs. Qed.
Lemma takes_bind {A B} (m : M lexer A) (k : A -> M lexer B) : takes m -> (forall a, takes (k a)) -> takes (bind m k).
Proof.
  intros Hm Hk l bs H. destruct (Hm l bs H) as (a & l1 & b1 & E1 & H1 & L1). destruct (Hk a l1 b1 H1) as (b & l2 & b2 & E2 & H2 & L2).
  exists b, l2, b2. rewrite (bind_ok _ _ _ _ _ E1). split_and!; [done|done|lia].
Qed.
Lemma takes_get : takes get.
Proof.
  intros l bs H. eexists _, _, (tail bs). split_and!; [by apply get_run|by apply after_get_feeds|]. destruct bs; cbn; lia.
Qed.
Lemma takes_modify f : (forall l, ia (f l) = ia l /\ current (f l) = current l /\ next_unget (f l) = next_unget l) -> takes (modify f).
Proof.
  intros Hf l bs [Hb H]. destruct (Hf l) as (E1 & E2 & E3). exists tt, (f l), bs. split_and!; [done| |done]. split; [done|]. by rewrite E1, E2, E3.
Qed.
Lemma takes_add c : takes (add c).
Proof. by apply takes_modify. Qed.
Lemma takes_add_current : takes add_current.
Proof. by apply takes_modify. Qed.
Lemma takes_reset : takes reset.
Proof. by apply takes_modify. Qed.
Lemma takes_state {A} (k : lexer -> M lexer A) : (forall l, takes (k l)) -> takes (bind Prelude.get k).
Proof. intros H l bs Hl. exact (H l l bs Hl). Qed.
Lemma takes_for_list l : takes (for_list l add).
Proof. induction l as [|c l IH]; [apply takes_ret|]. apply takes_bind; [apply takes_add|done]. Qed.
Create HintDb takes discriminated.
#[export] Hint Resolve takes_ret takes_get takes_add takes_add_current takes_reset takes_for_list : takes.
Ltac take := repeat first
  [ progress intros
  | match goal with
    | |- takes (bind _ _) => apply takes_bind
    | |- takes (if ?b then _ else _) => destruct b
    | |- takes (match ?x with _ => _ end) => destruct x
    end
  | solve [auto with takes] ].

Lemma takes_codepoint : takes get_codepoint.
Proof. unfold get_codepoint. generalize 0. generalize [12; 8; 4; 0]. intros f. induction f as [|x f IH]; intros c; cbn [codepoint_digits]; take. Qed.
#[export] Hint Resolve takes_codepoint : takes.
Lemma takes_unicode_escape : takes unicode_escape.
Proof. unfold unicode_escape. take. Qed.
#[export] Hint Resolve takes_unicode_escape : takes.
Lemma takes_escape : takes escape.
Proof. unfold escape. take. Qed.
Lemma takes_ranges r : takes (next_byte_in_range r).
Proof. unfold next_byte_in_range. apply takes_bind; [apply takes_add_current|intros _]. induction r as [|[lo hi] r IH]; cbn [in_ranges]; take. Qed.
#[export] Hint Resolve takes_escape takes_ranges : takes.
Lemma takes_literal r t : takes (scan_literal r t).
Proof. induction r as [|x r IH]; cbn [scan_literal]; take. Qed.
#[export] Hint Resolve takes_literal : takes.

(** With the fuel for what is there. *)
Definition takes_fueled {A} (n : nat) (m : M lexer A) : Prop := forall l bs, feeds l bs -> (length bs < n)%nat ->
  exists a l' bs', m l = (Ok a, l') /\ feeds l' bs' /\ (length bs' <= length bs)%nat.
Lemma fueled {A} n (m : M lexer A) : takes m -> takes_fueled n m.
Proof. intros H l bs Hl _. by apply H. Qed.
Lemma fueled_bind {A B} n (m : M lexer A) (k : A -> M lexer B) : takes m -> (forall a, takes_fueled n (k a)) -> takes_fueled n (bind m k).
Proof.
  intros Hm Hk l bs H Hn. destruct (Hm l bs H) as (a & l1 & b1 & E1 & H1 & L1). destruct (Hk a l1 b1 H1) as (b & l2 & b2 & E2 & H2 & L2); [lia|].
  exists b, l2, b2. rewrite (bind_ok _ _ _ _ _ E1). split_and!; [done|done|lia].
Qed.
(** A byte is read before the loop goes on, or it stops at the end. *)
Lemma fueled_get {A} n (k : Z -> M lexer A) : (forall c, 0 <= c -> takes_fueled n (k c)) -> takes (k eof) -> takes_fueled (S n) (bind get k).
Proof.
  intros Hk He l bs H Hn. rewrite (bind_ok _ _ _ _ _ (get_run l bs H)). destruct (after_get_feeds l bs H) as [Hf _].
  destruct bs as [|c r].
  - destruct (He _ _ Hf) as (a & l' & bs' & E & H' & L). by exists a, l', bs'.
  - destruct H as [Hb _]. inversion Hb; subst. destruct (Hk c ltac:(done) _ _ Hf) as (a & l' & bs' & E & H' & L); [cbn in *; lia|].
    exists a, l', bs'. split_and!; [done|done|cbn in *; lia].
Qed.
Lemma fueled_mono {A} n n' (m : M lexer A) : takes_fueled n m -> (n' <= n)%nat -> takes_fueled n' m.
Proof. intros H Hn l bs Hl Hb. apply H; [done|lia]. Qed.

Lemma takes_string_loop n : takes_fueled n (string_loop n).
Proof.
  induction n as [|n IH]; [intros l bs _ H; lia|]. cbn [string_loop]. apply fueled_get; [|apply takes_ret]. intros c Hc.
  repeat match goal with
    | |- takes_fueled _ (if ?b then _ else _) => destruct b
    | |- takes_fueled _ (match ?x with _ => _ end) => destruct x
    | |- takes_fueled _ (ret _) => apply fueled, takes_ret
    | |- takes_fueled _ (bind _ _) => apply fueled_bind; [solve [auto with takes]|intros []]
    | |- takes_fueled _ (string_loop _) => exact IH
    end.
Qed.
Lemma fuel_enough l bs : feeds l bs -> (length bs < fuel_of l)%nat.
Proof.
  intros [_ H]. unfold fuel_of. destruct (next_unget l); [|rewrite H; lia]. destruct bs as [|c r]; [cbn; lia|]. destruct H as [_ ->]. cbn. lia.
Qed.
Lemma takes_fuel {A} (k : nat -> M lexer A) : (forall n, takes_fueled n (k n)) -> takes (bind Prelude.get (fun l => k (fuel_of l))).
Proof. intros H l bs Hl. apply H; [done|]. by apply fuel_enough. Qed.
Lemma takes_scan_string : takes scan_string.
Proof. apply takes_bind; [apply takes_reset|intros _]. apply takes_fuel, takes_string_loop. Qed.

(** Where the byte after a number is put back. *)
Definition takes_read {A} (n : nat) (m : M lexer A) : Prop := forall l c r, just_read l c r -> (length r < n)%nat ->
  exists a l' bs', m l = (Ok a, l') /\ feeds l' bs' /\ (length bs' <= length (back c r))%nat.
Lemma read_fueled {A} n (m : M lexer A) : takes_fueled n m -> takes_read n m.
Proof.
  intros H l c r Hl Hr. destruct (H l r (just_read_feeds _ _ _ Hl) Hr) as (a & l' & bs' & E & H' & L). exists a, l', bs'. split_and!; [done|done|].
  unfold back. destruct (c =? eof); cbn; lia.
Qed.
Lemma read_done n t : takes_read n (scan_number_done t).
Proof.
  intros l c r Hl _. destruct (unget_run l c r Hl) as [E Hf]. unfold scan_number_done. rewrite (bind_ok _ _ _ _ _ E), (bind_ok Prelude.get _ _ _ _ eq_refl).
  assert (forall f t', (forall l, ia (f l) = ia l /\ current (f l) = current l /\ next_unget (f l) = next_unget l) ->
    exists a l' bs', (modify f ;;; ret (t' : token_type)) (after_unget l) = (Ok a, l') /\ feeds l' bs' /\ (length bs' <= length (back c r))%nat) as Hv.
  { intros f t' H. apply (takes_bind (modify f) (fun _ => ret t')); [by apply takes_modify|intros _; apply takes_ret|done]. }
  destruct t; try (by apply Hv); [destruct (strtoull _)|destruct (strtoll _)]; by apply Hv.
Qed.
Lemma fueled_read {A} n (k : Z -> M lexer A) : (forall c, takes_read n (k c)) -> takes_read 1 (k eof) -> takes_fueled (S n) (bind get k).
Proof.
  intros Hk He l bs H Hn. rewrite (bind_ok _ _ _ _ _ (get_run l bs H)). destruct (after_get_feeds l bs H) as [_ Hj].
  pose proof (back_head bs (proj1 H)) as Eb. destruct bs as [|c r].
  - destruct (He _ _ _ Hj) as (a & l' & bs' & E & H' & L); [cbn; lia|]. by exists a, l', bs'.
  - destruct (Hk c _ _ _ Hj) as (a & l' & bs' & E & H' & L); [cbn in *; lia|]. exists a, l', bs'. rewrite Eb in L. done.
Qed.
Ltac read_step := match goal with
  | |- takes_read _ (if ?b then _ else _) => destruct b
  | |- takes_read _ (scan_number_done _) => apply read_done
  | |- takes_read _ (ret _) => apply read_fueled, fueled, takes_ret
  | |- takes_read _ (bind _ _) => apply read_fueled, fueled_bind; [solve [auto with takes]|intros _]
  | |- takes_fueled _ (bind get _) => apply fueled_read; [intros c|first [apply read_done|apply read_fueled, fueled, takes_ret]]
  | |- takes_fueled _ _ => solve [eapply fueled_mono; [eauto|lia]]
  end.
Lemma takes_any2 n : takes_fueled n (scan_number_any2 n).
Proof. induction n as [|n IH]; [intros l bs _ H; lia|]. cbn [scan_number_any2]. repeat read_step. Qed.
Lemma takes_sign n : takes_fueled (S n) (scan_number_sign n).
Proof. pose proof (takes_any2 n). unfold scan_number_sign. repeat read_step. Qed.
Lemma takes_exponent n : takes_fueled (S n) (scan_number_exponent n).
Proof. pose proof (takes_any2 n). pose proof (takes_sign n). unfold scan_number_exponent. repeat read_step. Qed.
Lemma takes_decimal2 n : takes_fueled n (scan_number_decimal2 n).
Proof.
  induction n as [|n IH]; [intros l bs _ H; lia|]. pose proof (takes_exponent n). cbn [scan_number_decimal2]. repeat read_step.
Qed.
Lemma takes_decimal1 n : takes_fueled (S n) (scan_number_decimal1 n).
Proof. pose proof (takes_decimal2 n). unfold scan_number_decimal1. repeat read_step. Qed.
Lemma takes_any1 t n : takes_fueled n (scan_number_any1 t n).
Proof.
  induction n as [|n IH]; [intros l bs _ H; lia|]. pose proof (takes_exponent n). pose proof (takes_decimal1 n). cbn [scan_number_any1].
  repeat read_step.
Qed.
Lemma takes_zero t n : takes_fueled (S n) (scan_number_zero t n).
Proof. pose proof (takes_exponent n). pose proof (takes_decimal1 n). unfold scan_number_zero. repeat read_step. Qed.
Lemma takes_minus n : takes_fueled (S n) (scan_number_minus n).
Proof.
  pose proof (takes_zero value_integer_ n). pose proof (takes_any1 value_integer_ n). unfold scan_number_minus. repeat read_step.
Qed.
Lemma takes_scan_number : takes scan_number.
Proof.
  apply takes_bind; [apply takes_reset|intros _]. intros l bs Hl. pose proof (fuel_enough l bs Hl) as Hf.
  rewrite (bind_ok Prelude.get _ _ _ _ eq_refl).
  enough (takes_fueled (fuel_of l) (add_current ;;;
    if current l =? 45 then scan_number_minus (fuel_of l)
    else if current l =? 48 then scan_number_zero value_unsigned_ (fuel_of l) else scan_number_any1 value_unsigned_ (fuel_of l))) as H by by apply H.
  generalize (fuel_of l). intros n. apply fueled_bind; [apply takes_add_current|intros _].
  destruct (_ =? 45); [|destruct (_ =? 48)]; (eapply fueled_mono; [apply takes_minus || apply takes_zero || apply takes_any1|lia]).
Qed.

Fixpoint drop_space (bs : list Z) : list Z := match bs with c :: r => if is_space c then drop_space r else bs | [] => [] end.
Lemma drop_space_length bs : (length (drop_space bs) <= length bs)%nat.
Proof. induction bs as [|c r IH]; cbn; [done|]. destruct (is_space c); cbn; lia. Qed.
Lemma skip_run n : forall l bs, feeds l bs -> (length bs < n)%nat ->
  let bs' := drop_space bs in
  skip_whitespace n l = (Ok (head bs'), with_input (tail bs') (head bs') false (chars_read_total l + (Z.of_nat (length bs) - Z.of_nat (length bs')) + 1) l).
Proof.
  induction n as [|n IH]; intros l bs Hl Hn; [lia|]. cbn [skip_whitespace]. rewrite (bind_ok _ _ _ _ _ (get_run l bs Hl)).
  destruct (after_get_feeds l bs Hl) as [Hf _]. destruct bs as [|c r].
  - cbn. unfold ret, after_get. do 2 f_equal. lia.
  - cbn [head tail drop_space] in *. destruct (is_space c).
    + rewrite (IH _ r Hf) by (cbn in *; lia). cbn zeta. f_equal. unfold with_input, after_get. cbn. f_equal. lia.
    + unfold ret, after_get. cbn [tail head]. do 2 f_equal. lia.
Qed.

Lemma bom_run l bs : feeds l bs -> exists b l' bs', skip_bom l = (Ok b, l') /\ feeds l' bs' /\ (length bs' <= length bs)%nat /\
  (b = false -> (length bs' < length bs)%nat) /\
  (head bs <> 239 -> b = true /\ bs' = bs /\ token_buffer l' = token_buffer l /\ chars_read_total l' = chars_read_total l).
Proof.
  intros Hl. unfold skip_bom. rewrite (bind_ok _ _ _ _ _ (get_run l bs Hl)). destruct (after_get_feeds l bs Hl) as [Hf Hj].
  destruct (Z.eqb_spec (head bs) 239) as [E|E].
  - destruct bs as [|c r]; [done|]. cbn [tail head] in *.
    assert (takes (c <- get ;; if negb (c =? 187) then ret false else c <- get ;; ret (c =? 191))) as Ht by take.
    destruct (Ht _ _ Hf) as (b & l' & bs' & E' & H' & L). exists b, l', bs'. split_and!; [done|done|cbn; lia|intros _; cbn; lia|done].
  - destruct (unget_run _ _ _ Hj) as [Eu Hu]. rewrite (bind_ok _ _ _ _ _ Eu). rewrite back_head in Hu by apply Hl.
    exists true, (after_unget (after_get bs l)), bs. split_and!; [done|done|done|done|]. intros _. split_and!; [done|done|done|]. cbn. lia.
Qed.

(** What follows the white space. *)
Definition scan_token (c : Z) : M lexer token_type :=
  if c =? 91 then ret begin_array
  else if c =? 93 then ret end_array
  else if c =? 123 then ret begin_object
  else if c =? 125 then ret end_object
  else if c =? 58 then ret name_separator
  else if c =? 44 then ret value_separator
  else if c =? 116 then scan_literal [114; 117; 101] literal_true
  else if c =? 102 then scan_literal [97; 108; 115; 101] literal_false
  else if c =? 110 then scan_literal [117; 108; 108] literal_null
  else if c =? 34 then scan_string
  else if (c =? 45) || is_digit c then scan_number
  else if (c =? 0) || (c =? eof) then ret end_of_input
  else ret parse_error.
#[export] Hint Resolve takes_scan_string takes_scan_number : takes.
Lemma takes_token c : takes (scan_token c).
Proof. unfold scan_token. take. Qed.

(** Every scan returns: at the end with the token for it, and else with one
    byte less at least. *)
Lemma scan_takes l bs : feeds l bs -> exists t l' bs', scan l = (Ok t, l') /\ feeds l' bs' /\
  (bs = [] -> t = end_of_input /\ bs' = []) /\ (bs <> [] -> (length bs' < length bs)%nat).
Proof.
  intros Hl. assert (exists b l1 b1, (if chars_read_total l =? 0 then skip_bom else ret true) l = (Ok b, l1) /\ feeds l1 b1 /\
    (length b1 <= length bs)%nat /\ (b = false -> (length b1 < length bs)%nat)) as (b & l1 & b1 & E1 & H1 & L1 & B1).
  { destruct (chars_read_total l =? 0); [|by exists true, l, bs]. destruct (bom_run l bs Hl) as (b & l' & bs' & E & H & L & B & _). by exists b, l', bs'. }
  unfold scan. rewrite (bind_ok Prelude.get _ _ _ _ eq_refl), (bind_ok _ _ _ _ _ E1). destruct b; cbn [negb].
  2:{ exists parse_error, l1, b1. specialize (B1 eq_refl). split_and!; [done|done|intros ->; cbn in *; lia|done]. }
  rewrite (bind_ok Prelude.get _ _ _ _ eq_refl). rewrite (bind_ok _ _ _ _ _ (skip_run _ _ _ H1 (fuel_enough _ _ H1))). cbn zeta.
  fold (scan_token (head (drop_space b1))). match goal with |- context [scan_token _ ?x] => set (l2 := x) end.
  pose proof (drop_space_length b1) as Ls. assert (feeds l2 (tail (drop_space b1))) as H2.
  { split; [|done]. destruct H1 as [Hb _]. clear -Hb. induction b1 as [|c r IH]; cbn; [done|]. inversion Hb; subst. destruct (is_space c); auto. }
  destruct (drop_space b1) as [|c r] eqn:Ed.
  - exists end_of_input, l2, []. split_and!; [done|done|done|]. intros Hn. destruct bs; [done|cbn; lia].
  - cbn [head tail] in *. destruct (takes_token c l2 r H2) as (t & l' & bs' & E & H & L). exists t, l', bs'. split_and!; [done|done| |intros _; cbn in *; lia].
    intros ->. cbn in *. lia.
Qed.

(** ** The parser returns *)

Import Parser.

Definition frame_state (s : bool) (f : frame) : Prop :=
  match f with InArray _ => s = true | InObject _ k => s = false /\ is_Some k end.
Definition shape (p : parser) : Prop := Forall2 frame_state (states p) (ref_stack (sax p)).
Definition weight (p : parser) (bs : list Z) : nat := (length bs + if decide (last_token p = end_of_input) then 0 else 1)%nat.

Lemma token_run p bs : feeds (m_lexer p) bs -> exists t l' bs', get_token p = (Ok t, mkParser t l' (states p) (sax p)) /\ feeds l' bs' /\
  (bs = [] -> t = end_of_input /\ bs' = []) /\ (bs <> [] -> (length bs' < length bs)%nat).
Proof.
  intros Hl. destruct (scan_takes _ _ Hl) as (t & l' & bs' & E & H). exists t, l', bs'. unfold get_token. by rewrite E.
Qed.
Lemma token_weight t l' bs' st sx (bs : list Z) : (bs = [] -> t = end_of_input /\ bs' = []) -> (bs <> [] -> (length bs' < length bs)%nat) ->
  (weight (mkParser t l' st sx) bs' <= length bs)%nat /\ (length bs' <= length bs)%nat /\ (t <> end_of_input -> (length bs' < length bs)%nat).
Proof.
  intros H0 H1. unfold weight. cbn [last_token]. destruct bs as [|c r].
  - destruct (H0 eq_refl) as [-> ->]. by rewrite decide_True by done.
  - specialize (H1 ltac:(done)). split_and!; [destruct (decide _); lia|lia|by intros _].
Qed.
Ltac token H := match type of H with feeds (m_lexer ?p) ?bs =>
  let t := fresh "t" in let l := fresh "l" in let b := fresh "bs" in let E := fresh "E" in let Hf := fresh "Hf" in let H0 := fresh "H0" in let H1 := fresh "H1" in
  let W := fresh "W" in let L := fresh "L" in let N := fresh "N" in
  destruct (token_run p bs H) as (t & l & b & E & Hf & H0 & H1);
  destruct (token_weight t l b (states p) (sax p) bs H0 H1) as (W & L & N); rewrite (bind_ok _ _ _ _ _ E); clear E H0 H1 end.

Lemma handle_value_run v st fs r : Forall2 frame_state st fs -> exists r' fs', handle_value v (mkSax r fs) = (Ok tt, mkSax r' fs') /\ Forall2 frame_state st fs'.
Proof.
  intros H. destruct fs as [|[l|o [k|]] fs]; inversion H as [|s f st' fs0 Hf Ht]; subst.
  - by exists v, [].
  - eexists r, _. split; [reflexivity|]. by constructor.
  - eexists r, _. split; [reflexivity|]. constructor; [|done]. destruct Hf. by split.
  - destruct Hf as [_ [? ?]]. done.
Qed.
Lemma on_sax_run {A} (m : M json_sax_dom_parser A) p o s : m (sax p) = (o, s) -> on_sax m p = (o, mkParser (last_token p) (m_lexer p) (states p) s).
Proof. intros E. unfold on_sax, zoom. by rewrite E. Qed.
Lemma value_run v p : shape p -> exists s, on_sax (handle_value v) p = (Ok tt, mkParser (last_token p) (m_lexer p) (states p) s) /\ Forall2 frame_state (states p) (ref_stack s).
Proof.
  intros H. destruct (sax p) as [r fs] eqn:Es. destruct (handle_value_run v (states p) fs r) as (r' & fs' & E & H'); [unfold shape in H; by rewrite Es in H|].
  exists (mkSax r' fs'). split; [|done]. apply on_sax_run. by rewrite Es.
Qed.
Lemma end_run f st fs r p : sax p = mkSax r (f :: fs) -> Forall2 frame_state st fs ->
  exists s, on_sax end_container p = (Ok tt, mkParser (last_token p) (m_lexer p) (states p) s) /\ Forall2 frame_state st (ref_stack s).
Proof.
  intros Es H. destruct f as [l|o k].
  - destruct (handle_value_run (JArray l) st fs r H) as (r' & fs' & E & H'). exists (mkSax r' fs'). split; [|done].
    apply on_sax_run. rewrite Es. exact E.
  - destruct (handle_value_run (JObject o) st fs r H) as (r' & fs' & E & H'). exists (mkSax r' fs'). split; [|done].
    apply on_sax_run. rewrite Es. exact E.
Qed.

(** A member up to the separator. *)
Lemma member_run p bs o k fs r : feeds (m_lexer p) bs -> sax p = mkSax r (InObject o k :: fs) ->
  (exists e p', parse_member p = (Throw e, p')) \/
  exists t l bs' o' k', parse_member p = (Ok tt, mkParser t l (states p) (mkSax r (InObject o' (Some k') :: fs))) /\ feeds l bs' /\ (length bs' <= length bs)%nat.
Proof.
  intros Hl Es. unfold parse_member. rewrite (bind_ok Prelude.get _ _ _ _ eq_refl). destruct (decide _); [|left; by eexists _, _].
  set (k' := get_string p). set (o' := obj_emplace (k', JNull) o).
  rewrite (bind_ok (on_sax (key k')) _ p (mkParser (last_token p) (m_lexer p) (states p) (mkSax r (InObject o' (Some k') :: fs))) tt);
    [|apply on_sax_run; by rewrite Es].
  unfold expect. set (p1 := mkParser _ _ _ _). assert (feeds (m_lexer p1) bs) as Hl1 by done. token Hl1.
  destruct (decide _); [right|left; by eexists _, _]. eexists _, _, _, _, _. split_and!; [done|done|done].
Qed.

Definition fails {A} (m : M parser A) (p : parser) : Prop := exists e p', m p = (Throw e, p').
Lemma evaluate_run p bs : feeds (m_lexer p) bs -> shape p ->
  fails evaluate_state p \/ evaluate_state p = (Ok Done, p) \/
  exists skip p' bs', evaluate_state p = (Ok (Again skip), p') /\ feeds (m_lexer p') bs' /\ shape p' /\ (weight p' bs' <= length bs)%nat /\
    (skip = true -> last_token p' <> end_of_input).
Proof.
  intros Hl Hs. unfold evaluate_state, fails. rewrite (bind_ok Prelude.get _ _ _ _ eq_refl).
  destruct (states p) as [|s st] eqn:Est; [by right; left|].
  unfold shape in Hs. rewrite Est in Hs. destruct (sax p) as [r fs] eqn:Esx. cbn [ref_stack] in Hs. inversion Hs as [|s' f st' fs' Hf Ht]; subst.
  destruct s; token Hl; rewrite ?Est, ?Esx in *.
  - destruct (decide (t = value_separator)) as [->|].
    + set (p1 := mkParser _ _ _ _). assert (feeds (m_lexer p1) bs0) as Hl1 by done. token Hl1.
      right; right. eexists false, _, _. split_and!; [done|done|done| |done]. specialize (N ltac:(done)). etrans; [exact W0|lia].
    + destruct (decide (t = end_array)) as [->|]; [|left; by eexists _, _]. specialize (N ltac:(done)).
      set (p1 := mkParser _ _ _ _). destruct (end_run f st fs' r p1 eq_refl Ht) as (s & E & Hs'). rewrite (bind_ok _ _ _ _ _ E).
      right; right. eexists true, _, bs0. split_and!; [done|done|done| |done]. unfold weight. rewrite decide_False by done. lia.
  - destruct (decide (t = value_separator)) as [->|].
    + set (p1 := mkParser _ _ _ _). assert (feeds (m_lexer p1) bs0) as Hl1 by done. token Hl1. specialize (N ltac:(done)).
      set (p2 := mkParser _ _ _ _). assert (feeds (m_lexer p2) bs1) as Hl2 by done. destruct f as [l2|o k]; [done|].
      destruct (member_run p2 bs1 o k fs' r Hl2 eq_refl) as [(e & p' & E)|(t2 & l2 & bs2 & o' & k' & E & Hf2 & L2)].
      { left. exists e, p'. unfold bind at 1. by rewrite E. }
      rewrite (bind_ok _ _ _ _ _ E). set (p3 := mkParser _ _ _ _). assert (feeds (m_lexer p3) bs2) as Hl3 by done. token Hl3.
      right; right. eexists false, _, _. split_and!; [done|done| |etrans; [exact W1|lia]|done]. unfold shape. cbn. constructor; [by split|done].
    + destruct (decide (t = end_object)) as [->|]; [|left; by eexists _, _]. specialize (N ltac:(done)).
      set (p1 := mkParser _ _ _ _). destruct (end_run f st fs' r p1 eq_refl Ht) as (s & E & Hs'). rewrite (bind_ok _ _ _ _ _ E).
      right; right. eexists true, _, bs0. split_and!; [done|done|done| |done]. unfold weight. rewrite decide_False by done. lia.
Qed.
Lemma parse_value_run p bs : feeds (m_lexer p) bs -> shape p ->
  fails parse_value p \/
  (last_token p <> end_of_input /\
   exists f p' bs', parse_value p = (Ok f, p') /\ feeds (m_lexer p') bs' /\ shape p' /\
     match f with Evaluate => (length bs' <= length bs)%nat | Continue => (weight p' bs' <= length bs)%nat end).
Proof.
  intros Hl Hs. unfold parse_value, fails. rewrite (bind_ok Prelude.get _ _ _ _ eq_refl). cbn zeta.
  assert (forall v, last_token p <> end_of_input -> (exists e p', (on_sax (handle_value v) ;;; ret Evaluate) p = (Throw e, p')) \/
    (last_token p <> end_of_input /\ exists f p' bs', (on_sax (handle_value v) ;;; ret Evaluate) p = (Ok f, p') /\ feeds (m_lexer p') bs' /\ shape p' /\
     match f with Evaluate => (length bs' <= length bs)%nat | Continue => (weight p' bs' <= length bs)%nat end)) as Hv.
  { intros v Hne. right. split; [done|]. destruct (value_run v p Hs) as (s & E & H'). rewrite (bind_ok _ _ _ _ _ E). by eexists _, _, bs. }
  destruct (last_token p) eqn:Et; try (left; by eexists _, _); try (by apply Hv).
  { destruct (is_finite _); [by apply Hv|left; by eexists _, _]. }
  all: destruct (sax p) as [r fs] eqn:Esx.
  - rewrite (bind_ok (on_sax start_array) _ p (mkParser (last_token p) (m_lexer p) (states p) (mkSax r (InArray [] :: fs))) tt) by (apply on_sax_run; by rewrite Esx).
    set (p1 := mkParser _ _ _ _). assert (feeds (m_lexer p1) bs) as Hl1 by done. token Hl1. unfold shape in Hs. rewrite Esx in Hs. cbn [ref_stack] in Hs.
    right. split; [done|]. destruct (decide (t = end_array)) as [->|].
    + set (p2 := mkParser _ _ _ _). destruct (end_run (InArray []) (states p) fs r p2 eq_refl Hs) as (s & E & Hs'). rewrite (bind_ok _ _ _ _ _ E). by eexists _, _, _.
    + eexists _, _, bs0. split_and!; [done|done| |exact W]. unfold shape. cbn. by constructor.
  - rewrite (bind_ok (on_sax start_object) _ p (mkParser (last_token p) (m_lexer p) (states p) (mkSax r (InObject [] None :: fs))) tt) by (apply on_sax_run; by rewrite Esx).
    set (p1 := mkParser _ _ _ _). assert (feeds (m_lexer p1) bs) as Hl1 by done. token Hl1. unfold shape in Hs. rewrite Esx in Hs. cbn [ref_stack] in Hs.
    destruct (decide (t = end_object)) as [->|].
    + right. split; [done|]. set (p2 := mkParser _ _ _ _). destruct (end_run (InObject [] None) (states p) fs r p2 eq_refl Hs) as (s & E & Hs').
      rewrite (bind_ok _ _ _ _ _ E). by eexists _, _, _.
    + set (p2 := mkParser _ _ _ _). destruct (member_run p2 bs0 [] None fs r Hf eq_refl) as [(e & p' & E)|(t2 & l2 & bs2 & o' & k' & E & Hf2 & L2)].
      { left. exists e, p'. unfold bind at 1. by rewrite E. }
      rewrite (bind_ok _ _ _ _ _ E), (bind_ok (modify _) _ _ _ _ eq_refl). set (p3 := with_states _ _). assert (feeds (m_lexer p3) bs2) as Hl3 by done. token Hl3.
      right. split; [done|]. eexists _, _, _. split_and!; [done|done| |cbn beta iota; etrans; [exact W0|lia]]. unfold shape. cbn. constructor; [by split|done].
Qed.

Lemma loop_returns fuel : forall skip p bs, feeds (m_lexer p) bs -> shape p -> (skip = true -> last_token p <> end_of_input) ->
  (weight p bs < fuel)%nat -> (sax_parse_internal fuel skip p).1 <> Undef /\
  ((sax_parse_internal fuel skip p).1 = Ok tt -> exists bs', feeds (m_lexer (sax_parse_internal fuel skip p).2) bs').
Proof.
  induction fuel as [|fuel IH]; intros skip p bs Hl Hs Hk Hw; [lia|]. cbn [sax_parse_internal].
  assert (forall p1 b1, feeds (m_lexer p1) b1 -> shape p1 -> (length b1 < fuel)%nat ->
    (bind evaluate_state (fun n => match n with Done => ret tt | Again skip => sax_parse_internal fuel skip end) p1).1 <> Undef /\
    ((bind evaluate_state (fun n => match n with Done => ret tt | Again skip => sax_parse_internal fuel skip end) p1).1 = Ok tt ->
     exists bs', feeds (m_lexer (bind evaluate_state (fun n => match n with Done => ret tt | Again skip => sax_parse_internal fuel skip end) p1).2) bs')) as He.
  { intros p1 b1 H1 S1 L1. destruct (evaluate_run p1 b1 H1 S1) as [(e & p' & E)|[E|(sk & p' & b' & E & Hf & Hs' & W & K)]].
    - unfold bind. by rewrite E.
    - rewrite (bind_ok _ _ _ _ _ E). cbn. split; [done|]. intros _. by exists b1.
    - rewrite (bind_ok _ _ _ _ _ E). apply (IH sk p' b'); [done|done|done|lia]. }
  assert (length bs < fuel \/ skip = false /\ last_token p = end_of_input)%nat as Hlen.
  { unfold weight in Hw. destruct (decide (last_token p = end_of_input)) as [E|]; [|lia]. destruct skip; [by destruct (Hk eq_refl)|by right]. }
  destruct skip.
  - rewrite (bind_ok (ret Evaluate) _ _ _ _ eq_refl). apply (He p bs); [done|done|]. destruct Hlen as [?|[? _]]; [lia|done].
  - destruct (parse_value_run p bs Hl Hs) as [(e & p' & E)|(Hne & f & p' & b' & E & Hf & Hs' & W)]; [unfold bind; by rewrite E|].
    rewrite (bind_ok _ _ _ _ _ E). destruct Hlen as [Hlen|[_ ?]]; [|done]. destruct f; [|by apply (He p' b'); [done|done|lia]].
    apply (IH false p' b'); [done|done|done|lia].
Qed.

Lemma new_feeds text : Forall (fun c => 0 <= c) text -> feeds (newLexer text) text.
Proof. by split. Qed.
Lemma bytes_of_range s : Forall (fun c => 0 <= c < 256) (bytes_of s).
Proof. unfold bytes_of. apply Forall_fmap, Forall_true. intros c. unfold byte_of. cbn. pose proof (Ascii.N_ascii_bounded c). lia. Qed.
Lemma bytes_of_nonneg s : Forall (fun c => 0 <= c) (bytes_of s).
Proof. eapply Forall_impl; [apply bytes_of_range|]. cbn. lia. Qed.

(** C33: [json::parse] ends for every text, with a value or with an exception:
    the lexer's loops and the loop of the parser all take something of the
    input in each round. *)
Theorem json_parse_returns text : (exists j, parse text = Ok j) \/ (exists e, parse text = Throw e).
Proof.
  enough (parse text <> Undef) as H by (destruct (parse text); eauto; done).
  unfold parse, parse_bytes. set (bs := bytes_of text). assert (feeds (m_lexer (newParser bs)) bs) as Hl by apply new_feeds, bytes_of_nonneg.
  token Hl. set (p1 := mkParser _ _ _ _). assert (shape p1) as Hs by constructor.
  destruct (loop_returns (S (S (length bs))) false p1 bs0 Hf Hs) as [Hd Ho]; [done|eapply Nat.le_lt_trans; [exact W|lia]|]. unfold bind at 1.
  destruct (sax_parse_internal _ false p1) as [[[]|e|] p2]; [|done|done]. destruct (Ho eq_refl) as [b2 Hf2]. cbn [snd] in Hf2.
  unfold expect. token Hf2. by destruct (decide _).
Qed.

Lemma loop_mono fuel : forall skip p, (sax_parse_internal fuel skip p).1 <> Undef -> forall n, (fuel <= n)%nat ->
  sax_parse_internal n skip p = sax_parse_internal fuel skip p.
Proof.
  induction fuel as [|fuel IH]; intros skip p Hd n Hn; [done|]. destruct n as [|n]; [lia|]. cbn [sax_parse_internal] in *.
  unfold bind in *. destruct ((if skip then ret Evaluate else parse_value) p) as [[[]|e|] p1]; [|..|done|done].
  - by apply IH; [|lia].
  - destruct (evaluate_state p1) as [[[|sk]|e|] p2]; [done| |done|done]. by apply IH; [|lia].
Qed.
