(* ===== verification/JsonReadSpec.v ===== *)
(** * JSON text: what the parser reads

    A grammar of JSON texts: a relation between values and the texts that spell
    them, with white space, all escapes of strings and all forms of numbers.
    The parser reads each such text as its value. *)

From stdpp Require Import base list strings.
From Stdlib Require Import ZArith Lia SpecFloat.
From S2P Require Import Prelude Keeps Json Utils SdpParse JsonText JsonTextSpec.
Import Lexer Parser.
Open Scope Z_scope.

(** ** The grammar *)

Definition spaces (w : list Z) : Prop := Forall (fun c => is_space c = true) w.

(** *** Strings *)

Definition hex_of (c : Z) : option Z :=
  if between 48 57 c then Some (c - 48) else if between 65 70 c then Some (c - 55) else if between 97 102 c then Some (c - 87) else None.
Definition hexes (ds : list Z) : option Z :=
  match ds with
  | [a; b; c; d] =>
    match hex_of a, hex_of b, hex_of c, hex_of d with
    | Some a, Some b, Some c, Some d => Some (4096 * a + 256 * b + 16 * c + d)
    | _, _, _, _ => None
    end
  | _ => None
  end.
Definition short_escape (c : Z) : option Z :=
  if c =? 34 then Some 34 else if c =? 92 then Some 92 else if c =? 47 then Some 47 else if c =? 98 then Some 8
  else if c =? 102 then Some 12 else if c =? 110 then Some 10 else if c =? 114 then Some 13 else if c =? 116 then Some 9 else None.

(** Some bytes of a string, and how they are spelled. *)
Inductive piece : list Z -> list Z -> Prop :=
| piece_plain c : 32 <= c <= 127 -> c <> 34 -> c <> 92 -> piece [c] [c]
| piece_multi c ranges r : 128 <= c -> ranges_after c = Some ranges -> Forall2 (fun p b => between p.1 p.2 b = true) ranges r ->
    piece (c :: r) (c :: r)
| piece_short c b : short_escape c = Some b -> piece [b] [92; c]
| piece_unicode ds cp : hexes ds = Some cp -> ~ 55296 <= cp <= 57343 -> piece (utf8 cp) (92 :: 117 :: ds)
| piece_pair ds1 ds2 hi lo : hexes ds1 = Some hi -> hexes ds2 = Some lo -> 55296 <= hi <= 56319 -> 56320 <= lo <= 57343 ->
    piece (utf8 (65536 + 1024 * (hi - 55296) + (lo - 56320))) (92 :: 117 :: ds1 ++ 92 :: 117 :: ds2).
Inductive spelled : list Z -> list Z -> Prop :=
| spelled_nil : spelled [] []
| spelled_piece b t v r : piece b t -> spelled v r -> spelled (b ++ v) (t ++ r).

(** *** Numbers *)

Definition digits (ds : list Z) : Prop := Forall (fun c => is_digit c = true) ds.
Inductive int_part : list Z -> Prop :=
| int_zero : int_part [48]
| int_digits d ds : is_digit d = true -> d <> 48 -> digits ds -> int_part (d :: ds).
Inductive frac_part : list Z -> Prop :=
| frac_none : frac_part []
| frac_digits d ds : is_digit d = true -> digits ds -> frac_part (46 :: d :: ds).
Inductive exp_part : list Z -> Prop :=
| exp_none : exp_part []
| exp_digits e d ds : is_exponent e = true -> is_digit d = true -> digits ds -> exp_part (e :: d :: ds)
| exp_signed e s d ds : is_exponent e = true -> s = 43 \/ s = 45 -> is_digit d = true -> digits ds -> exp_part (e :: s :: d :: ds).
Definition float_text (t : list Z) : Prop := exists sign i f e,
  (sign = [] \/ sign = [45]) /\ int_part i /\ frac_part f /\ exp_part e /\ (f <> [] \/ e <> []) /\ t = sign ++ i ++ f ++ e.

(** *** Values *)

(** The members of an object are put into it in order. *)
Definition object_of (ms : list (string * json)) : list (string * json) := fold_left (fun o kv => obj_insert kv.1 kv.2 o) ms [].
Definition string_text (s : string) (t : list Z) : Prop := exists t', spelled (bytes_of s) t' /\ t = 34 :: t' ++ [34].

Inductive spells : json -> list Z -> Prop :=
| spells_null : spells JNull (bytes_of "null")
| spells_true : spells (JBool true) (bytes_of "true")
| spells_false : spells (JBool false) (bytes_of "false")
| spells_string s t : string_text s t -> spells (JString s) t
| spells_uint ds : int_part ds -> digits_value ds < 2 ^ 64 -> spells (JUint (digits_value ds)) ds
| spells_int ds : int_part ds -> digits_value ds <= 2 ^ 63 -> spells (JInt (- digits_value ds)) (45 :: ds)
| spells_float t : float_text t -> is_finite (strtod t) = true -> spells (JFloat (strtod t)) t
| spells_no_array w : spaces w -> spells (JArray []) (91 :: w ++ [93])
| spells_array l t : spells_elements l t -> spells (JArray l) (91 :: t ++ [93])
| spells_no_object w : spaces w -> spells (JObject []) (123 :: w ++ [125])
| spells_object ms t : spells_members ms t -> spells (JObject (object_of ms)) (123 :: t ++ [125])
with spells_elements : list json -> list Z -> Prop :=
| spells_last w1 j t w2 : spaces w1 -> spells j t -> spaces w2 -> spells_elements [j] (w1 ++ t ++ w2)
| spells_more w1 j t w2 l r : spaces w1 -> spells j t -> spaces w2 -> spells_elements l r -> spells_elements (j :: l) (w1 ++ t ++ w2 ++ 44 :: r)
with spells_members : list (string * json) -> list Z -> Prop :=
| spells_last_member w1 k kt w2 w3 j t w4 : spaces w1 -> string_text k kt -> spaces w2 -> spaces w3 -> spells j t -> spaces w4 ->
    spells_members [(k, j)] (w1 ++ kt ++ w2 ++ 58 :: w3 ++ t ++ w4)
| spells_more_members w1 k kt w2 w3 j t w4 ms r : spaces w1 -> string_text k kt -> spaces w2 -> spaces w3 -> spells j t -> spaces w4 ->
    spells_members ms r -> spells_members ((k, j) :: ms) (w1 ++ kt ++ w2 ++ 58 :: w3 ++ t ++ w4 ++ 44 :: r).
Scheme spells_mut := Induction for spells Sort Prop
  with elements_mut := Induction for spells_elements Sort Prop
  with members_mut := Induction for spells_members Sort Prop.
Combined Scheme spells_all from spells_mut, elements_mut, members_mut.

(** ** Strings *)

(** The lexer reads on at [r], with [b] in its buffer. *)
Definition moved (l : lexer) (b r : list Z) : Prop := feeds l r /\ token_buffer l = b.

Lemma get_next {A} (k : Z -> M lexer A) l c r : feeds l (c :: r) ->
  bind get k l = k c (after_get (c :: r) l) /\ moved (after_get (c :: r) l) (token_buffer l) r.
Proof. intros H. split; [exact (bind_ok _ _ _ _ _ (get_run l _ H))|]. split; [exact (proj1 (after_get_feeds l _ H))|done]. Qed.
Ltac next H := match type of H with feeds ?l (?c :: ?r) =>
  match goal with |- context [bind get ?k l] =>
    let E := fresh "E" in let Hm := fresh "Hm" in destruct (get_next k l c r H) as [E Hm]; rewrite E; clear E
  end end.
Lemma moved_with l b b' r : moved l b r -> moved (with_buffer b' l) b' r.
Proof. intros [F _]. split; [exact F|done]. Qed.

Lemma codepoint_step f fs cp l c v r : hex_of c = Some v -> feeds l (c :: r) ->
  codepoint_digits (f :: fs) cp l = codepoint_digits fs (cp + Z.shiftl v f) (after_get (c :: r) l) /\ moved (after_get (c :: r) l) (token_buffer l) r.
Proof.
  intros Hv Hf. cbn [codepoint_digits]. destruct (get_next (A:=Z) (fun c => if between 48 57 c then codepoint_digits fs (cp + Z.shiftl (c - 48) f)
    else if between 65 70 c then codepoint_digits fs (cp + Z.shiftl (c - 55) f)
    else if between 97 102 c then codepoint_digits fs (cp + Z.shiftl (c - 87) f) else ret (-1)) l c r Hf) as [E Hm]. rewrite E. split; [|done].
  unfold hex_of in Hv. destruct (between 48 57 c); [by simplify_eq|]. destruct (between 65 70 c); [by simplify_eq|]. destruct (between 97 102 c); [by simplify_eq|done].
Qed.
Lemma codepoint_run ds cp l r : hexes ds = Some cp -> feeds l (ds ++ r) -> exists l', get_codepoint l = (Ok cp, l') /\ moved l' (token_buffer l) r.
Proof.
  intros Hd Hf. destruct ds as [|a [|b [|c [|d [|]]]]]; try done. cbn [hexes] in Hd.
  destruct (hex_of a) as [va|] eqn:Ea; [|done]. destruct (hex_of b) as [vb|] eqn:Eb; [|done].
  destruct (hex_of c) as [vc|] eqn:Ec; [|done]. destruct (hex_of d) as [vd|] eqn:Ed; [|done]. injection Hd as <-. unfold get_codepoint.
  destruct (codepoint_step 12 [8; 4; 0] 0 l a va _ Ea Hf) as [-> [F1 B1]]. destruct (codepoint_step 8 [4; 0] (0 + Z.shiftl va 12) _ b vb _ Eb F1) as [-> [F2 B2]].
  destruct (codepoint_step 4 [0] (0 + Z.shiftl va 12 + Z.shiftl vb 8) _ c vc _ Ec F2) as [-> [F3 B3]].
  destruct (codepoint_step 0 [] (0 + Z.shiftl va 12 + Z.shiftl vb 8 + Z.shiftl vc 4) _ d vd _ Ed F3) as [-> [F4 B4]].
  eexists. split; [|split; [exact F4|congruence]]. unfold codepoint_digits, ret. do 2 f_equal. rewrite !Z.shiftl_mul_pow2 by lia. lia.
Qed.

Lemma add_all bs {A} (k : M lexer A) : forall l, (for_list bs add ;;; k) l = k (with_buffer (token_buffer l ++ bs) l).
Proof.
  induction bs as [|b bs IH]; intros l.
  - cbn. rewrite app_nil_r. by destruct l.
  - change ((for_list (b :: bs) add ;;; k) l) with ((for_list bs add ;;; k) (with_buffer (token_buffer l ++ [b]) l)). rewrite IH. cbn. by rewrite <- app_assoc.
Qed.
Lemma between_spec a b c : between a b c = true <-> a <= c <= b.
Proof. unfold between. rewrite andb_true_iff. lia. Qed.
Lemma between_false a b c : ~ a <= c <= b -> between a b c = false.
Proof. intros H. destruct (between a b c) eqn:E; [|done]. by apply between_spec in E. Qed.

Lemma unicode_run ds cp l r : hexes ds = Some cp -> ~ 55296 <= cp <= 57343 -> 0 <= cp -> feeds l (ds ++ r) ->
  exists l', unicode_escape l = (Ok true, l') /\ moved l' (token_buffer l ++ utf8 cp) r.
Proof.
  intros Hd Hn H0 Hf. destruct (codepoint_run ds cp l r Hd Hf) as (l1 & E1 & F1 & B1). unfold unicode_escape. rewrite (bind_ok _ _ _ _ _ E1).
  rewrite (proj2 (Z.eqb_neq cp (-1))), !between_false, add_all by lia. eexists. split; [done|]. rewrite <- B1. by apply (moved_with l1 (token_buffer l1)).
Qed.
Lemma pair_run ds1 ds2 hi lo l r : hexes ds1 = Some hi -> hexes ds2 = Some lo -> 55296 <= hi <= 56319 -> 56320 <= lo <= 57343 ->
  feeds l (ds1 ++ 92 :: 117 :: ds2 ++ r) ->
  exists l', unicode_escape l = (Ok true, l') /\ moved l' (token_buffer l ++ utf8 (65536 + 1024 * (hi - 55296) + (lo - 56320))) r.
Proof.
  intros H1 H2 Hh Hl Hf. destruct (codepoint_run ds1 hi l _ H1 Hf) as (l1 & E1 & F1 & B1). unfold unicode_escape. rewrite (bind_ok _ _ _ _ _ E1).
  rewrite (proj2 (Z.eqb_neq hi (-1))), (proj2 (between_spec _ _ _) Hh) by lia. next F1. destruct Hm as [F2 B2]. cbn [Z.eqb Pos.eqb negb]. next F2.
  destruct Hm as [F3 B3]. cbn [Z.eqb Pos.eqb negb]. destruct (codepoint_run ds2 lo _ _ H2 F3) as (l4 & E4 & F4 & B4). rewrite (bind_ok _ _ _ _ _ E4).
  rewrite (proj2 (Z.eqb_neq lo (-1))), (proj2 (between_spec _ _ _) Hl), add_all by lia. eexists. split; [done|].
  replace (Z.shiftl hi 10 + lo - 56613888) with (65536 + 1024 * (hi - 55296) + (lo - 56320)) by (rewrite Z.shiftl_mul_pow2 by lia; lia).
  rewrite <- B1, <- B2, <- B3, <- B4. by apply (moved_with l4 (token_buffer l4)).
Qed.

Lemma hex_of_range c v : hex_of c = Some v -> 0 <= v <= 15.
Proof.
  unfold hex_of. destruct (between 48 57 c) eqn:E1; [apply between_spec in E1; intros; simplify_eq; lia|].
  destruct (between 65 70 c) eqn:E2; [apply between_spec in E2; intros; simplify_eq; lia|].
  destruct (between 97 102 c) eqn:E3; [apply between_spec in E3; intros; simplify_eq; lia|done].
Qed.
Lemma hexes_range ds cp : hexes ds = Some cp -> 0 <= cp <= 65535 /\ length ds = 4%nat.
Proof.
  intros Hd. destruct ds as [|a [|b [|c [|d [|]]]]]; try done. cbn [hexes] in Hd.
  destruct (hex_of a) eqn:Ea; [|done]. destruct (hex_of b) eqn:Eb; [|done]. destruct (hex_of c) eqn:Ec; [|done]. destruct (hex_of d) eqn:Ed; [|done].
  apply hex_of_range in Ea, Eb, Ec, Ed. injection Hd as <-. split; [lia|done].
Qed.
Lemma escape_short c b l r : short_escape c = Some b -> feeds l (c :: r) -> exists l', escape l = (Ok true, l') /\ moved l' (token_buffer l ++ [b]) r.
Proof.
  intros Hc Hf. unfold escape. next Hf. unfold short_escape in Hc.
  repeat match type of Hc with context [if ?b then _ else _] => destruct b; [simplify_eq; eexists; split; [done|]; by apply (moved_with _ (token_buffer l))|] end. done.
Qed.
Lemma escape_unicode l r : feeds l (117 :: r) -> exists l', escape l = unicode_escape l' /\ moved l' (token_buffer l) r.
Proof. intros Hf. unfold escape. next Hf. by eexists. Qed.

Lemma ranges_run ranges : forall bs l r, Forall2 (fun p b => between p.1 p.2 b = true) ranges bs -> feeds l (bs ++ r) ->
  exists l', in_ranges ranges l = (Ok true, l') /\ moved l' (token_buffer l ++ bs) r.
Proof.
  induction ranges as [|[lo hi] ranges IH]; intros bs l r H Hf; inversion H as [|p b ps bs' Hb Hr]; subst.
  - exists l. split; [done|]. by rewrite app_nil_r.
  - cbn [in_ranges]. cbn [app] in Hf. next Hf. cbn in Hb. rewrite Hb. destruct Hm as [F1 B1].
    destruct (IH bs' (with_buffer (token_buffer l ++ [b]) (after_get (b :: bs' ++ r) l)) r Hr F1) as (l' & E & F & B). exists l'. split; [exact E|].
    split; [done|]. rewrite B. cbn. by rewrite <- app_assoc.
Qed.

(** A round of the loop reads one piece. *)
Lemma piece_run b t n l r : piece b t -> feeds l (t ++ r) -> exists l', string_loop (S n) l = string_loop n l' /\ moved l' (token_buffer l ++ b) r.
Proof.
  intros Hp Hf. cbn [string_loop]. inversion Hp as [c Hc Hq Hs|c ranges r' Hc Hr Hb|c b' Hc|ds cp Hd Hn|ds1 ds2 hi lo H1 H2 Hh Hl]; subst; cbn [app] in Hf; next Hf; destruct Hm as [F1 B1].
  - rewrite (proj2 (Z.eqb_neq c eof)), (proj2 (Z.eqb_neq c 34)), (proj2 (Z.eqb_neq c 92)), (proj2 (Z.leb_gt c 31)), (proj2 (Z.leb_le c 127)) by (unfold eof; lia).
    eexists. split; [done|]. exact (moved_with _ _ (token_buffer l ++ [c]) r (conj F1 B1)).
  - rewrite (proj2 (Z.eqb_neq c eof)), (proj2 (Z.eqb_neq c 34)), (proj2 (Z.eqb_neq c 92)), (proj2 (Z.leb_gt c 31)), (proj2 (Z.leb_gt c 127)) by (unfold eof; lia).
    rewrite Hr. unfold next_byte_in_range.
    destruct (ranges_run ranges r' (with_buffer (token_buffer l ++ [c]) (after_get (c :: r' ++ r) l)) r Hb F1) as (l' & E & F & B).
    exists l'. split; [exact (bind_ok _ _ _ _ _ E)|]. split; [done|]. rewrite B. cbn. by rewrite <- app_assoc.
  - cbn [Z.eqb Pos.eqb eof]. destruct (escape_short c b' _ _ Hc F1) as (l' & E & Hm). exists l'. split; [exact (bind_ok _ _ _ _ _ E)|exact Hm].
  - cbn [Z.eqb Pos.eqb eof]. destruct (escape_unicode _ _ F1) as (l1 & E1 & F2 & B2).
    destruct (unicode_run ds cp l1 r Hd Hn (proj1 (proj1 (hexes_range ds cp Hd))) F2) as (l' & E & Hm). exists l'. rewrite <- E1 in E.
    split; [exact (bind_ok _ _ _ _ _ E)|]. by rewrite B2, B1 in Hm.
  - cbn [Z.eqb Pos.eqb eof]. destruct (escape_unicode _ _ F1) as (l1 & E1 & F2 & B2). rewrite <- app_assoc in F2.
    destruct (pair_run ds1 ds2 hi lo l1 r H1 H2 Hh Hl F2) as (l' & E & Hm). exists l'. rewrite <- E1 in E.
    split; [exact (bind_ok _ _ _ _ _ E)|]. by rewrite B2, B1 in Hm.
Qed.
Lemma piece_length b t : piece b t -> (1 <= length t)%nat.
Proof. intros []; cbn; lia. Qed.
Lemma string_run v t : spelled v t -> forall n l r, feeds l (t ++ 34 :: r) -> (length t < n)%nat ->
  exists l', string_loop n l = (Ok value_string_, l') /\ moved l' (token_buffer l ++ v) r.
Proof.
  induction 1 as [|b t v r' Hp Hs IH]; intros n l r Hf Hn; (destruct n as [|n]; [lia|]).
  - cbn [string_loop app] in *. next Hf. exists (after_get (34 :: r) l). split; [done|]. by rewrite app_nil_r.
  - rewrite <- app_assoc in Hf. destruct (piece_run b t n l _ Hp Hf) as (l1 & -> & F1 & B1). pose proof (piece_length b t Hp). rewrite length_app in Hn.
    destruct (IH n l1 r F1 ltac:(lia)) as (l' & E & F & B). exists l'. split; [done|]. split; [done|]. by rewrite B, B1, app_assoc.
Qed.

(** ** Numbers *)

(** What may come after a number. *)
Definition follow (r : list Z) : Prop := is_digit (head r) = false /\ head r <> 46 /\ is_exponent (head r) = false.

(** The token and the value of a number that was scanned. *)
Definition number_token (t : token_type) (b : list Z) (l : lexer) : token_type * lexer :=
  let float := (value_float_, with_float (strtod b) l) in
  match t with
  | value_unsigned_ => match strtoull b with Some x => (value_unsigned_, with_unsigned x l) | None => float end
  | value_integer_ => match strtoll b with Some x => (value_integer_, with_integer x l) | None => float end
  | _ => float
  end.
Definition numbered (t : token_type) (b r : list Z) (res : outcome token_type * lexer) : Prop :=
  exists l, moved l b r /\ res = (Ok (number_token t b l).1, (number_token t b l).2).
Lemma done_run t l r k : feeds l r -> k (head r) = scan_number_done t -> numbered t (token_buffer l) r (bind get k l).
Proof.
  intros Hf Hk. destruct (after_get_feeds l r Hf) as [_ Hj]. destruct (unget_run _ _ _ Hj) as [E Hu]. rewrite back_head in Hu by apply Hf.
  exists (after_unget (after_get r l)). split; [by split|]. rewrite (bind_ok _ _ _ _ _ (get_run l r Hf)), Hk. unfold scan_number_done.
  rewrite (bind_ok _ _ _ _ _ E), (bind_ok Prelude.get _ _ _ _ eq_refl). cbn [token_buffer after_unget with_input after_get]. unfold number_token.
  destruct t; try done; [destruct (strtoull _); done|destruct (strtoll _); done].
Qed.

Lemma digits_loop (F : nat -> M lexer token_type) :
  (forall n l c r, is_digit c = true -> feeds l (c :: r) -> F (S n) l = F n (with_buffer (token_buffer l ++ [c]) (after_get (c :: r) l))) ->
  forall ds l r n, digits ds -> feeds l (ds ++ r) ->
  exists l', F (length ds + n)%nat l = F n l' /\ moved l' (token_buffer l ++ ds) r.
Proof.
  intros HF. induction ds as [|c ds IH]; intros l r n Hd Hf; [exists l; by rewrite app_nil_r|].
  inversion Hd; subst. cbn [length Nat.add]. rewrite (HF _ l c (ds ++ r)) by done.
  destruct (get_next (A:=Z) ret l c (ds ++ r) Hf) as [_ Hm]. apply (moved_with _ _ (token_buffer l ++ [c])) in Hm.
  destruct (IH _ r n ltac:(done) (proj1 Hm)) as (l' & E & F1 & B1). exists l'. split; [exact E|]. split; [done|]. rewrite B1. cbn. by rewrite <- app_assoc.
Qed.
Lemma digit_step (n : M lexer token_type) l c r k : is_digit c = true -> feeds l (c :: r) -> k c = (add_current ;;; n) ->
  bind get k l = n (with_buffer (token_buffer l ++ [c]) (after_get (c :: r) l)).
Proof. intros Hc Hf Hk. rewrite (bind_ok _ _ _ _ _ (get_run l _ Hf)). cbn [head]. by rewrite Hk. Qed.

Lemma any2_run ds l r n : digits ds -> feeds l (ds ++ r) -> is_digit (head r) = false ->
  numbered value_float_ (token_buffer l ++ ds) r (scan_number_any2 (length ds + S n) l).
Proof.
  intros Hd Hf Hr. destruct (digits_loop scan_number_any2) with (ds := ds) (l := l) (r := r) (n := S n) as (l' & -> & F & <-); [|done|done|].
  - intros m l0 c r0 Hc H0. cbn [scan_number_any2]. by apply digit_step; rewrite ?Hc.
  - cbn [scan_number_any2]. apply done_run; [done|]. by rewrite Hr.
Qed.
(** A character is put into the buffer, and the rest is read by [F]. *)
Lemma step_run (F : M lexer token_type) k l c d r t : k c = (add_current ;;; F) \/ k c = (add c ;;; F) -> feeds l (c :: d ++ r) ->
  (forall l', feeds l' (d ++ r) -> numbered t (token_buffer l' ++ d) r (F l')) -> numbered t (token_buffer l ++ c :: d) r (bind get k l).
Proof.
  intros Hk Hf HF. rewrite (bind_ok _ _ _ _ _ (get_run l _ Hf)). cbn [head].
  replace (token_buffer l ++ c :: d) with ((token_buffer l ++ [c]) ++ d) by by rewrite <- app_assoc.
  destruct Hk as [-> | ->]; exact (HF (with_buffer (token_buffer l ++ [c]) (after_get (c :: d ++ r) l)) (proj1 (after_get_feeds l _ Hf))).
Qed.
Lemma fuel_digits (ds : list Z) n : (length ds < n)%nat -> exists m, n = (length ds + S m)%nat.
Proof. intros H. exists (n - length ds - 1)%nat. lia. Qed.

Lemma exponent_run e t l r n : exp_part (e :: t) -> feeds l (t ++ r) -> follow r -> (length t <= n)%nat ->
  numbered value_float_ (token_buffer l ++ t) r (scan_number_exponent n l).
Proof.
  intros He Hf (Hr & _ & _) Hn. unfold scan_number_exponent.
  assert (forall (ds : list Z) l', digits ds -> (length ds < n)%nat -> feeds l' (ds ++ r) -> numbered value_float_ (token_buffer l' ++ ds) r (scan_number_any2 n l')) as Ha.
  { intros ds l' Hds Hl Hf'. destruct (fuel_digits ds n Hl) as [m ->]. by apply any2_run. }
  inversion He as [|e' d ds Hx Hd Hds|e' s d ds Hx Hs Hd Hds]; subst; cbn [app length] in *.
  - eapply (step_run _ _ _ d); [left|done|intros l'; apply Ha; [done|lia]]. assert ((d =? 43) || (d =? 45) = false) as ->; [|by rewrite Hd].
    apply between_spec in Hd. lia.
  - eapply (step_run _ _ _ s (d :: ds)); [left|done|].
    + assert ((s =? 43) || (s =? 45) = true) as -> by lia. done.
    + intros l1 Hf1. unfold scan_number_sign. eapply (step_run _ _ _ d); [left; by rewrite Hd|done|intros l'; apply Ha; [done|lia]].
Qed.
Lemma exponent_not_digit e : is_exponent e = true -> is_digit e = false /\ (e =? 46) = false.
Proof. unfold is_exponent. intros H. split; [apply between_false|]; lia. Qed.
Lemma decimal2_run ds e l r n : digits ds -> exp_part e -> feeds l (ds ++ e ++ r) -> follow r -> (length (ds ++ e) < n)%nat ->
  numbered value_float_ (token_buffer l ++ ds ++ e) r (scan_number_decimal2 n l).
Proof.
  intros Hd He Hf Hr Hn. rewrite length_app in Hn. destruct (fuel_digits ds n ltac:(lia)) as [m ->].
  destruct (digits_loop scan_number_decimal2) with (ds := ds) (l := l) (r := e ++ r) (n := S m) as (l' & -> & F & B); [|done|done|].
  { intros m0 l0 c r0 Hc H0. cbn [scan_number_decimal2]. by apply digit_step; rewrite ?Hc. }
  rewrite app_assoc, <- B. cbn [scan_number_decimal2]. destruct e as [|x t].
  - rewrite app_nil_r. apply done_run; [done|]. destruct Hr as (-> & _ & ->). done.
  - assert (is_exponent x = true) as Hx by by inversion He. destruct (exponent_not_digit x Hx) as [Hxd _].
    eapply (step_run _ _ _ x t); [left; by rewrite Hxd, Hx|done|]. intros l1 Hf1. eapply exponent_run; [done|done|done|cbn in Hn; lia].
Qed.
(** What follows the digits before the point. *)
Definition kind_of (t : token_type) (f e : list Z) : token_type := match f, e with [], [] => t | _, _ => value_float_ end.
Lemma rest_run t f e l r n k : frac_part f -> exp_part e -> feeds l (f ++ e ++ r) -> follow r -> (length (f ++ e) <= n)%nat ->
  (forall c, is_digit c = false -> k c = if c =? 46 then add 46 ;;; scan_number_decimal1 n
    else if is_exponent c then add_current ;;; scan_number_exponent n else scan_number_done t) ->
  numbered (kind_of t f e) (token_buffer l ++ f ++ e) r (bind get k l).
Proof.
  intros Hf He Hl Hr Hn Hk. destruct Hf as [|d ds Hd Hds].
  - destruct e as [|x s].
    + rewrite app_nil_r. apply done_run; [done|]. destruct Hr as (H1 & H2 & H3). rewrite Hk by done. by rewrite (proj2 (Z.eqb_neq _ _) H2), H3.
    + assert (is_exponent x = true) as Hx by by inversion He. destruct (exponent_not_digit x Hx) as [Hxd Hx46]. cbn [app kind_of].
      eapply (step_run _ _ _ x s); [left; by rewrite (Hk x Hxd), Hx46, Hx|done|]. intros l1 Hf1. eapply exponent_run; [done|done|done|cbn in Hn; lia].
  - cbn [app kind_of] in *. eapply (step_run _ _ _ 46 (d :: ds ++ e)); [right; by rewrite Hk by done|cbn; by rewrite <- app_assoc|].
    intros l1 Hf1. unfold scan_number_decimal1. cbn [app] in Hf1. eapply (step_run _ _ _ d (ds ++ e)); [left; by rewrite Hd|done|].
    intros l2 Hf2. rewrite <- app_assoc in Hf2. apply decimal2_run; [done|done|done|done|cbn in Hn; lia].
Qed.
Lemma any1_run t ds f e l r n : digits ds -> frac_part f -> exp_part e -> feeds l (ds ++ f ++ e ++ r) -> follow r -> (length (ds ++ f ++ e) < n)%nat ->
  numbered (kind_of t f e) (token_buffer l ++ ds ++ f ++ e) r (scan_number_any1 t n l).
Proof.
  intros Hd Hfr He Hf Hr Hn. rewrite length_app in Hn. destruct (fuel_digits ds n ltac:(lia)) as [m ->].
  destruct (digits_loop (scan_number_any1 t)) with (ds := ds) (l := l) (r := f ++ e ++ r) (n := S m) as (l' & -> & F & B); [|done|done|].
  { intros m0 l0 c r0 Hc H0. cbn [scan_number_any1]. by apply digit_step; rewrite ?Hc. }
  rewrite app_assoc, <- B. cbn [scan_number_any1]. apply (rest_run t f e l' r m); [done|done|done|done|lia|]. by intros c ->.
Qed.

(** A number whose first character has been read. *)
Definition number_kind (sign : list Z) : token_type := match sign with [] => value_unsigned_ | _ => value_integer_ end.
Lemma unsigned_run i f e c t l r n : int_part i -> frac_part f -> exp_part e -> i ++ f ++ e = c :: t -> feeds l (t ++ r) -> follow r -> (length t < n)%nat ->
  forall k, numbered (kind_of k f e) (token_buffer l ++ t) r ((if c =? 48 then scan_number_zero k n else scan_number_any1 k n) l).
Proof.
  intros Hi Hf He Et Hl Hr Hn k. destruct Hi as [|d ds Hd Hnz Hds]; cbn [app] in Et; injection Et as <- <-; rewrite <- ?app_assoc in Hl.
  - cbn [Z.eqb Pos.eqb]. unfold scan_number_zero. apply (rest_run k f e l r n); [done|done|done|done|lia|done].
  - rewrite (proj2 (Z.eqb_neq d 48)) by done. by apply any1_run; rewrite <- ?app_assoc in *.
Qed.
Lemma int_first i x : int_part i -> exists c t, i ++ x = c :: t /\ is_digit c = true.
Proof. intros [|d ds Hd _ _]; by eexists _, _. Qed.
Lemma number_run sign i f e c t l r : sign = [] \/ sign = [45] -> int_part i -> frac_part f -> exp_part e -> sign ++ i ++ f ++ e = c :: t ->
  current l = c -> feeds l (t ++ r) -> follow r -> numbered (kind_of (number_kind sign) f e) (c :: t) r (scan_number l).
Proof.
  intros Hs Hi Hf He Et Hc Hl Hr. unfold scan_number. rewrite (bind_ok reset _ _ _ _ eq_refl), (bind_ok Prelude.get _ _ _ _ eq_refl), (bind_ok add_current _ _ _ _ eq_refl).
  cbn [current token_buffer with_buffer app]. rewrite Hc. set (l1 := with_buffer [c] (with_buffer [] l)).
  assert (feeds l1 (t ++ r)) as Hl1 by exact Hl. pose proof (fuel_enough _ _ Hl1) as Hn. change (fuel_of (with_buffer [] l)) with (fuel_of l1).
  rewrite length_app in Hn. destruct Hs as [-> | ->].
  - cbn [app] in Et. destruct (int_first i (f ++ e) Hi) as (c' & t' & Ei & Hd). rewrite Ei in Et. injection Et as <- <-.
    rewrite (proj2 (Z.eqb_neq c' 45)) by (apply between_spec in Hd; lia). apply (unsigned_run i f e c' t' l1 r (fuel_of l1)); [done..|lia].
  - cbn [app] in Et. injection Et as <- <-. cbn [Z.eqb Pos.eqb]. destruct (int_first i (f ++ e) Hi) as (c' & t' & Ei & Hd). rewrite Ei in *.
    unfold scan_number_minus. change (numbered (kind_of value_integer_ f e) (token_buffer l1 ++ c' :: t') r
      (bind get (fun c => if c =? 48 then add_current ;;; scan_number_zero value_integer_ (fuel_of l1)
        else if is_digit c then add_current ;;; scan_number_any1 value_integer_ (fuel_of l1) else ret parse_error) l1)).
    eapply (step_run (if c' =? 48 then scan_number_zero value_integer_ (fuel_of l1) else scan_number_any1 value_integer_ (fuel_of l1)));
      [left; destruct (c' =? 48); [done|by rewrite Hd]|done|].
    intros l2 Hl2. apply (unsigned_run i f e c' t' l2 r (fuel_of l1)); [done..|cbn in Hn; lia].
Qed.

(** ** Tokens *)

Lemma space_range c : is_space c = true -> c = 32 \/ c = 9 \/ c = 10 \/ c = 13.
Proof. unfold is_space. lia. Qed.
Lemma drop_spaces w bs : spaces w -> drop_space (w ++ bs) = drop_space bs.
Proof. induction 1 as [|c w Hc _ IH]; [done|]. cbn. by rewrite Hc. Qed.
Lemma scan_start l w bs : feeds l (w ++ bs) -> spaces w -> head bs <> 239 ->
  exists l1, scan l = scan_token (head (drop_space bs)) (with_input (tail (drop_space bs)) (head (drop_space bs)) false l1.1 l1.2) /\
    Forall (fun c => 0 <= c) bs.
Proof.
  intros Hl Hw Hh. assert (exists l1, (if chars_read_total l =? 0 then skip_bom else ret true) l = (Ok true, l1) /\ feeds l1 (w ++ bs)) as (l1 & E1 & H1).
  { destruct (chars_read_total l =? 0); [|by exists l]. destruct (bom_run l _ Hl) as (b & l' & bs' & E & H & _ & _ & Hb).
    destruct Hb as (-> & -> & _); [|by exists l']. destruct Hw as [|x w Hx _]; [done|]. cbn. apply space_range in Hx. lia. }
  unfold scan. rewrite (bind_ok Prelude.get _ _ _ _ eq_refl), (bind_ok _ _ _ _ _ E1). cbn [negb]. rewrite (bind_ok Prelude.get _ _ _ _ eq_refl).
  rewrite (bind_ok _ _ _ _ _ (skip_run _ _ _ H1 (fuel_enough _ _ H1))). cbn zeta. rewrite (drop_spaces w) by done.
  eexists (_, l1). split; [done|]. destruct Hl as [Hb _]. by apply Forall_app in Hb as [_ Hb].
Qed.
Lemma scan_run l w c r : feeds l (w ++ c :: r) -> spaces w -> is_space c = false -> c <> 239 ->
  exists l', scan l = scan_token c l' /\ feeds l' r /\ current l' = c.
Proof.
  intros Hl Hw Hc H239. destruct (scan_start l w (c :: r) Hl Hw H239) as ([x l1] & -> & Hb). cbn [drop_space]. rewrite Hc.
  eexists. split_and!; [done| |done]. split; [|done]. by inversion Hb.
Qed.
Lemma scan_end l w : feeds l w -> spaces w -> exists l', scan l = (Ok end_of_input, l').
Proof.
  intros Hl Hw. rewrite <- (app_nil_r w) in Hl. destruct (scan_start l w [] Hl Hw ltac:(done)) as (l1 & -> & _). by eexists.
Qed.
Lemma literal_run bs t l r : feeds l (bs ++ r) -> exists l', scan_literal bs t l = (Ok t, l') /\ feeds l' r.
Proof.
  revert l. induction bs as [|c bs IH]; intros l Hl; [by exists l|]. cbn [scan_literal app] in *. next Hl. rewrite Z.eqb_refl. apply IH, Hm.
Qed.

Definition reads (p : parser) (t : token_type) (p' : parser) (r : list Z) : Prop :=
  get_token p = (Ok t, p') /\ last_token p' = t /\ feeds (m_lexer p') r /\ states p' = states p /\ sax p' = sax p.
Lemma scan_reads p t l r : scan (m_lexer p) = (Ok t, l) -> feeds l r -> reads p t (mkParser t l (states p) (sax p)) r.
Proof. intros E Hf. unfold reads, get_token. by rewrite E. Qed.
Definition punctuation (c : Z) : option token_type :=
  if c =? 91 then Some begin_array else if c =? 93 then Some end_array else if c =? 123 then Some begin_object
  else if c =? 125 then Some end_object else if c =? 58 then Some name_separator else if c =? 44 then Some value_separator else None.
Lemma punctuation_reads p w c t r : punctuation c = Some t -> spaces w -> feeds (m_lexer p) (w ++ c :: r) -> exists p', reads p t p' r.
Proof.
  intros Hc Hw Hf. assert (c = 91 \/ c = 93 \/ c = 123 \/ c = 125 \/ c = 58 \/ c = 44) as Hv.
  { unfold punctuation in Hc. repeat case_match; try done; lia. }
  destruct (scan_run _ w c r Hf Hw) as (l' & E & Hl & _); [unfold is_space; lia|lia|]. eexists. eapply scan_reads; [|done]. rewrite E. unfold scan_token.
  unfold punctuation in Hc. repeat case_match; simplify_eq; done.
Qed.
Lemma string_reads p w s t r : string_text s t -> spaces w -> feeds (m_lexer p) (w ++ t ++ r) -> exists p', reads p value_string_ p' r /\ get_string p' = s.
Proof.
  intros (t' & Ht & ->) Hw Hf. cbn [app] in Hf. rewrite <- app_assoc in Hf. cbn [app] in Hf.
  destruct (scan_run _ w 34 _ Hf Hw) as (l' & E & Hl & _); [done|done|]. assert (feeds (with_buffer [] l') (t' ++ 34 :: r)) as Hl' by exact Hl.
  destruct (string_run _ _ Ht (fuel_of (with_buffer [] l')) _ _ Hl') as (l2 & E2 & F2 & B2).
  { pose proof (fuel_enough _ _ Hl') as Hn. rewrite length_app in Hn. lia. }
  eexists. split; [eapply scan_reads; [rewrite E; exact E2|done]|]. unfold get_string. cbn [m_lexer]. rewrite B2. cbn [token_buffer with_buffer app].
  unfold text_of, bytes_of. rewrite map_map. rewrite <- (String.string_of_list_ascii_of_string s) at 2. f_equal.
  rewrite <- (map_id (String.list_ascii_of_string s)) at 2. apply map_ext. intros a. unfold char_of, byte_of. rewrite N2Z.id. apply Ascii.ascii_N_embedding.
Qed.

(** ** Values *)

Definition ready (s : json_sax_dom_parser) : Prop := match ref_stack s with InObject _ None :: _ => False | _ => True end.
Definition place (v : json) (s : json_sax_dom_parser) : json_sax_dom_parser := (handle_value v s).2.
Lemma place_run v s : ready s -> handle_value v s = (Ok tt, place v s).
Proof. destruct s as [r [|[l|o [k|]] fs]]; done. Qed.

Lemma emplace_insert k v (o : list (string * json)) : obj_insert k v (obj_emplace (k, JNull) o) = obj_insert k v o.
Proof.
  unfold obj_emplace. cbn [fst snd]. destruct (obj_lookup k o) eqn:E; [done|]. unfold obj_insert at 1. rewrite obj_lookup_insert, String.eqb_refl.
  unfold obj_insert. rewrite E. revert E. induction o as [|[k' v'] o IH]; cbn; [by rewrite String.eqb_refl|].
  destruct (String.eqb_spec k k') as [->|Hne]; [done|]. intros E. destruct (str_ltb k k'); cbn; [by rewrite String.eqb_refl|].
  rewrite (proj2 (String.eqb_neq k k') Hne). by rewrite IH.
Qed.

(** After its first token was read, a value is parsed to the point where the
    state is evaluated. *)
Definition parsed (v : json) (p p1 : parser) (r : list Z) : Prop := forall st, exists p2 k,
  (forall n, sax_parse_internal (k + S n) false (with_states st p1) = sax_parse_internal (S n) true p2) /\
  feeds (m_lexer p2) r /\ states p2 = st /\ sax p2 = place v (sax p).
Definition parses (v : json) (t : list Z) : Prop := forall p w r, spaces w -> feeds (m_lexer p) (w ++ t ++ r) -> follow r -> ready (sax p) ->
  exists tok p1 r1, reads p tok p1 r1 /\ tok <> end_array /\ tok <> end_object /\ parsed v p p1 r.
(** The same up to the end of the container. *)
Definition parsed_container (v : json) (b : bool) (s : json_sax_dom_parser) (p1 : parser) (r : list Z) : Prop := forall st, exists p2 k,
  (forall n, sax_parse_internal (k + n) false (with_states (b :: st) p1) = sax_parse_internal n true p2) /\
  feeds (m_lexer p2) r /\ states p2 = st /\ sax p2 = place v s.
Definition parses_elements (l : list json) (t : list Z) : Prop := forall p r rt l0 fs,
  sax p = mkSax rt (InArray l0 :: fs) -> feeds (m_lexer p) (t ++ 93 :: r) -> ready (mkSax rt fs) ->
  exists tok p1 r1, reads p tok p1 r1 /\ tok <> end_array /\ parsed_container (JArray (l0 ++ l)) true (mkSax rt fs) p1 r.
Definition parses_members (ms : list (string * json)) (t : list Z) : Prop := forall p r rt o k0 fs,
  sax p = mkSax rt (InObject o k0 :: fs) -> feeds (m_lexer p) (t ++ 125 :: r) -> ready (mkSax rt fs) ->
  exists p1 r1 p2 tok p3 r3, reads p value_string_ p1 r1 /\ parse_member p1 = (Ok tt, p2) /\ states p2 = states p1 /\ reads p2 tok p3 r3 /\
    parsed_container (JObject (fold_left (fun o kv => obj_insert kv.1 kv.2 o) ms o)) false (mkSax rt fs) p3 r.

Lemma with_states_id p st : states p = st -> with_states st p = p.
Proof. intros <-. by destruct p. Qed.
Lemma reads_with_states st p t p' r : reads p t p' r -> reads (with_states st p) t (with_states st p') r.
Proof.
  intros (E & H1 & H2 & H3 & H4). unfold reads, get_token in *. cbn [m_lexer with_states states sax]. destruct (scan (m_lexer p)) as [[t0|e|] l]; try done.
  injection E as <- <-. done.
Qed.

Lemma atom_parsed v tok p p1 r : reads p tok p1 r -> ready (sax p) ->
  (forall st, parse_value (with_states st p1) = (on_sax (handle_value v) ;;; ret Evaluate) (with_states st p1)) -> parsed v p p1 r.
Proof.
  intros (_ & _ & Hf & _ & Hs) Hr Hv st. set (p2 := mkParser (last_token p1) (m_lexer p1) st (place v (sax p))). exists p2, 0%nat.
  split_and!; [|exact Hf|done|done]. intros n. cbn [Nat.add sax_parse_internal]. rewrite <- Hs in Hr.
  assert (parse_value (with_states st p1) = (Ok Evaluate, p2)) as E.
  { rewrite Hv. rewrite (bind_ok _ _ _ _ _ (on_sax_run _ (with_states st p1) _ _ (place_run v (sax p1) Hr))). cbn. by rewrite Hs. }
  by rewrite (bind_ok _ _ _ _ _ E).
Qed.
(** A value of one token. *)
Lemma atom_parses v t tok : tok <> end_array -> tok <> end_object ->
  (forall p w r, spaces w -> feeds (m_lexer p) (w ++ t ++ r) -> follow r -> exists p1, reads p tok p1 r /\
    forall st, parse_value (with_states st p1) = (on_sax (handle_value v) ;;; ret Evaluate) (with_states st p1)) -> parses v t.
Proof.
  intros H1 H2 H p w r Hw Hf Hfo Hr. destruct (H p w r Hw Hf Hfo) as (p1 & Hrd & Hv). exists tok, p1, r. split_and!; [done|done|done|].
  by eapply atom_parsed.
Qed.
Lemma literal_parses v c bs tok : is_space c = false -> c <> 239 -> tok <> end_array -> tok <> end_object ->
  (forall l, scan_token c l = scan_literal bs tok l) -> (forall p, last_token p = tok -> parse_value p = (on_sax (handle_value v) ;;; ret Evaluate) p) ->
  parses v (c :: bs).
Proof.
  intros Hc H239 H1 H2 Ht Hv. apply (atom_parses v _ tok H1 H2). intros p w r Hw Hf _. destruct (scan_run _ w c (bs ++ r) Hf Hw Hc H239) as (l1 & E1 & F1 & _).
  destruct (literal_run bs tok l1 r F1) as (l2 & E2 & F2). eexists. split; [eapply scan_reads; [rewrite E1, Ht; exact E2|done]|]. intros st. by apply Hv.
Qed.
Lemma string_parses s t : string_text s t -> parses (JString s) t.
Proof.
  intros Ht. apply (atom_parses _ _ value_string_); [done|done|]. intros p w r Hw Hf _. destruct (string_reads p w s t r Ht Hw Hf) as (p1 & Hr & Hs).
  exists p1. split; [done|]. destruct Hr as (_ & Hl & _). intros st. unfold parse_value. rewrite (bind_ok Prelude.get _ _ _ _ eq_refl).
  change (last_token (with_states st p1)) with (last_token p1). rewrite Hl. change (get_string (with_states st p1)) with (get_string p1). by rewrite Hs.
Qed.
Lemma number_parses sign i f e v : sign = [] \/ sign = [45] -> int_part i -> frac_part f -> exp_part e ->
  (forall l, exists tok l', number_token (kind_of (number_kind sign) f e) (sign ++ i ++ f ++ e) l = (tok, l') /\
     (forall p, last_token p = tok -> m_lexer p = l' -> parse_value p = (on_sax (handle_value v) ;;; ret Evaluate) p)) ->
  parses v (sign ++ i ++ f ++ e).
Proof.
  intros Hs Hi Hf He Hv p w r Hw Hl Hfo Hr. set (t := sign ++ i ++ f ++ e) in *.
  assert (exists c t', t = c :: t' /\ ((c =? 45) || is_digit c = true)) as (c & t' & Et & Hc).
  { destruct Hs as [-> | ->]; [|by eexists _, _]. destruct (int_first i (f ++ e) Hi) as (c & t' & E & Hd). exists c, t'. by rewrite Hd, orb_true_r. }
  assert (c = 45 \/ 48 <= c <= 57) as Hc' by (apply orb_prop in Hc as [?|Hd]; [lia|apply between_spec in Hd; lia]).
  rewrite Et in Hl. destruct (scan_run _ w c (t' ++ r) Hl Hw) as (l1 & E1 & F1 & C1); [unfold is_space; lia|lia|].
  destruct (number_run sign i f e c t' l1 r Hs Hi Hf He Et C1 F1 Hfo) as (l2 & [F2 B2] & E2).
  destruct (Hv l2) as (tok & l3 & En & Hp). rewrite <- Et, En in E2. cbn [fst snd] in E2.
  assert (scan (m_lexer p) = (Ok tok, l3)) as E.
  { rewrite E1. unfold scan_token. rewrite Hc.
    repeat match goal with |- (if ?a =? ?b then _ else _) _ = _ => rewrite (proj2 (Z.eqb_neq a b)) by lia end. done. }
  assert (feeds l3 r /\ tok <> end_array /\ tok <> end_object) as (F3 & N1 & N2).
  { unfold number_token in En. repeat case_match; simplify_eq; done. }
  eexists tok, _, r. split_and!; [by eapply scan_reads|done|done|]. eapply atom_parsed; [by eapply scan_reads|done|]. intros st. by apply Hp.
Qed.

(** *** Containers *)

Lemma follow_punctuation w c r : spaces w -> c = 44 \/ c = 93 \/ c = 125 -> follow (w ++ c :: r).
Proof.
  intros Hw Hc. assert (let h := head (w ++ c :: r) in h = 44 \/ h = 93 \/ h = 125 \/ h = 32 \/ h = 9 \/ h = 10 \/ h = 13) as Hh.
  { destruct Hw as [|x w Hx _]; cbn; [lia|]. apply space_range in Hx. lia. }
  unfold follow, is_exponent. split_and!; [apply between_false|..]; cbn in Hh; lia.
Qed.

Definition container (f : frame) : json := match f with InArray l => JArray l | InObject o _ => JObject o end.
Definition closing (b : bool) : token_type := if b then end_array else end_object.
Lemma end_container_run p rt f fs : sax p = mkSax rt (f :: fs) -> ready (mkSax rt fs) ->
  on_sax end_container p = (Ok tt, mkParser (last_token p) (m_lexer p) (states p) (place (container f) (mkSax rt fs))).
Proof. intros Es Hr. apply on_sax_run. rewrite Es. destruct f as [l|o k]; exact (place_run _ (mkSax rt fs) Hr). Qed.
Lemma evaluate_more p2 st p3 r3 tok p4 r4 : states p2 = true :: st -> reads p2 value_separator p3 r3 -> reads p3 tok p4 r4 ->
  forall n, sax_parse_internal (S n) true p2 = sax_parse_internal n false p4.
Proof.
  intros Es (E3 & _) (E4 & _) n. cbn [sax_parse_internal]. rewrite (bind_ok (ret Evaluate) _ _ _ _ eq_refl).
  enough (evaluate_state p2 = (Ok (Again false), p4)) as E by by rewrite (bind_ok _ _ _ _ _ E).
  unfold evaluate_state. rewrite (bind_ok Prelude.get _ _ _ _ eq_refl), Es, (bind_ok _ _ _ _ _ E3), decide_True by done. by rewrite (bind_ok _ _ _ _ _ E4).
Qed.
Lemma evaluate_member p2 st p3 r3 p4 r4 p5 tok p6 r6 : states p2 = false :: st -> reads p2 value_separator p3 r3 -> reads p3 value_string_ p4 r4 ->
  parse_member p4 = (Ok tt, p5) -> reads p5 tok p6 r6 -> forall n, sax_parse_internal (S n) true p2 = sax_parse_internal n false p6.
Proof.
  intros Es (E3 & _) (E4 & _) E5 (E6 & _) n. cbn [sax_parse_internal]. rewrite (bind_ok (ret Evaluate) _ _ _ _ eq_refl).
  enough (evaluate_state p2 = (Ok (Again false), p6)) as E by by rewrite (bind_ok _ _ _ _ _ E).
  unfold evaluate_state. rewrite (bind_ok Prelude.get _ _ _ _ eq_refl), Es, (bind_ok _ _ _ _ _ E3), decide_True by done.
  by rewrite (bind_ok _ _ _ _ _ E4), (bind_ok _ _ _ _ _ E5), (bind_ok _ _ _ _ _ E6).
Qed.
Lemma evaluate_end b p2 st p3 r rt f fs : states p2 = b :: st -> reads p2 (closing b) p3 r -> sax p2 = mkSax rt (f :: fs) -> ready (mkSax rt fs) ->
  exists p4, (forall n, sax_parse_internal (S n) true p2 = sax_parse_internal n true p4) /\ feeds (m_lexer p4) r /\ states p4 = st /\
    sax p4 = place (container f) (mkSax rt fs).
Proof.
  intros Es (E3 & _ & F3 & S3 & X3) Ex Hr. rewrite <- X3 in Ex. pose proof (end_container_run p3 rt f fs Ex Hr) as Ec.
  set (p4 := mkParser _ _ _ _) in Ec. exists (with_states st p4). split_and!; [|exact F3|done|done]. intros n.
  enough (evaluate_state p2 = (Ok (Again true), with_states st p4)) as E by exact (bind_ok _ _ _ _ _ E).
  unfold evaluate_state. rewrite (bind_ok Prelude.get _ _ _ _ eq_refl), Es. destruct b.
  - by rewrite (bind_ok _ _ _ _ _ E3), decide_False, decide_True, (bind_ok _ _ _ _ _ Ec) by done.
  - by rewrite (bind_ok _ _ _ _ _ E3), decide_False, decide_True, (bind_ok _ _ _ _ _ Ec) by done.
Qed.

Lemma last_element w1 j t w2 : spaces w1 -> parses j t -> spaces w2 -> parses_elements [j] (w1 ++ t ++ w2).
Proof.
  intros H1 Hj H2 p r rt l0 fs Es Hf Hr. rewrite <- !app_assoc in Hf.
  destruct (Hj p w1 _ H1 Hf) as (tok & p1 & r1 & Hrd & N1 & N2 & Hp); [apply follow_punctuation; [done|auto]|by rewrite Es|].
  exists tok, p1, r1. split_and!; [done|done|]. intros st. destruct (Hp (true :: st)) as (p2 & k & E & F2 & S2 & X2). rewrite Es in X2.
  destruct (punctuation_reads p2 w2 93 end_array r eq_refl H2 F2) as [p3 Hrd3].
  destruct (evaluate_end true p2 st p3 r rt (InArray (l0 ++ [j])) fs S2 Hrd3 X2 Hr) as (p4 & E4 & F4 & S4 & X4). exists p4, (S k). split_and!; [|done|done|done].
  intros n. by rewrite <- E4, <- E, Nat.add_succ_r.
Qed.
Lemma more_elements w1 j t w2 l r0 : spaces w1 -> parses j t -> spaces w2 -> parses_elements l r0 -> parses_elements (j :: l) (w1 ++ t ++ w2 ++ 44 :: r0).
Proof.
  intros H1 Hj H2 Hl p r rt l0 fs Es Hf Hr. rewrite <- !app_assoc in Hf.
  destruct (Hj p w1 _ H1 Hf) as (tok & p1 & r1 & Hrd & N1 & N2 & Hp); [apply follow_punctuation; [done|auto]|by rewrite Es|].
  exists tok, p1, r1. split_and!; [done|done|]. intros st. destruct (Hp (true :: st)) as (p2 & k & E & F2 & S2 & X2). rewrite Es in X2.
  destruct (punctuation_reads p2 w2 44 value_separator _ eq_refl H2 F2) as [p3 Hrd3]. destruct Hrd3 as (E3 & L3 & F3 & S3 & X3) eqn:Hrd3'.
  destruct (Hl p3 r rt (l0 ++ [j]) fs) as (tok4 & p4 & r4 & Hrd4 & _ & Hp4); [by rewrite X3|done|done|].
  destruct (Hp4 st) as (p5 & k5 & E5 & F5 & S5 & X5). exists p5, (k + S k5)%nat. split_and!; [|done|done|by rewrite X5, <- app_assoc].
  intros n. rewrite <- E5, <- Nat.add_assoc. cbn [Nat.add]. rewrite E, (evaluate_more p2 st p3 _ tok4 p4 r4 S2 Hrd3 Hrd4).
  by rewrite (with_states_id p4) by (destruct Hrd4 as (_ & _ & _ & -> & _); congruence).
Qed.

Lemma member_start p w1 k kt w2 rest rt o k0 fs : spaces w1 -> string_text k kt -> spaces w2 -> sax p = mkSax rt (InObject o k0 :: fs) ->
  feeds (m_lexer p) (w1 ++ kt ++ w2 ++ 58 :: rest) ->
  exists p1 r1 p2, reads p value_string_ p1 r1 /\ parse_member p1 = (Ok tt, p2) /\ states p2 = states p1 /\ feeds (m_lexer p2) rest /\
    sax p2 = mkSax rt (InObject (obj_emplace (k, JNull) o) (Some k) :: fs).
Proof.
  intros H1 Hk H2 Es Hf. destruct (string_reads p w1 k kt _ Hk H1 Hf) as (p1 & Hrd & Hs). pose proof Hrd as (E1 & L1 & F1 & S1 & X1).
  set (p1' := mkParser (last_token p1) (m_lexer p1) (states p1) (mkSax rt (InObject (obj_emplace (k, JNull) o) (Some k) :: fs))).
  destruct (punctuation_reads p1' w2 58 name_separator rest eq_refl H2 F1) as (p2 & E2 & L2 & F2 & S2 & X2). exists p1, (w2 ++ 58 :: rest), p2.
  split_and!; [done| |done|done|done]. unfold parse_member. rewrite (bind_ok Prelude.get _ _ _ _ eq_refl), decide_True by done. rewrite Hs.
  rewrite (bind_ok (on_sax (key k)) _ p1 p1' tt) by (apply on_sax_run; by rewrite X1, Es). unfold expect. by rewrite (bind_ok _ _ _ _ _ E2), decide_True.
Qed.
Lemma last_member w1 k kt w2 w3 j t w4 : spaces w1 -> string_text k kt -> spaces w2 -> spaces w3 -> parses j t -> spaces w4 ->
  parses_members [(k, j)] (w1 ++ kt ++ w2 ++ 58 :: w3 ++ t ++ w4).
Proof.
  intros H1 Hk H2 H3 Hj H4 p r rt o k0 fs Es Hf Hr. rewrite <- !app_assoc in Hf. cbn [app] in Hf. rewrite <- !app_assoc in Hf.
  destruct (member_start p w1 k kt w2 _ rt o k0 fs H1 Hk H2 Es Hf) as (p1 & r1 & p2 & Hrd & E2 & S2 & F2 & X2).
  destruct (Hj p2 w3 _ H3 F2) as (tok & p3 & r3 & Hrd3 & N1 & N2 & Hp); [apply follow_punctuation; [done|auto]|by rewrite X2|].
  exists p1, r1, p2, tok, p3, r3. split_and!; [done|done|done|done|]. intros st. destruct (Hp (false :: st)) as (p4 & n4 & E4 & F4 & S4 & X4). rewrite X2 in X4.
  destruct (punctuation_reads p4 w4 125 end_object r eq_refl H4 F4) as [p5 Hrd5]. cbn in X4. rewrite emplace_insert in X4.
  destruct (evaluate_end false p4 st p5 r rt _ fs S4 Hrd5 X4 Hr) as (p6 & E6 & F6 & S6 & X6). exists p6, (S n4). split_and!; [|done|done|done].
  intros n. by rewrite <- E6, <- E4, Nat.add_succ_r.
Qed.
Lemma more_members w1 k kt w2 w3 j t w4 ms r0 : spaces w1 -> string_text k kt -> spaces w2 -> spaces w3 -> parses j t -> spaces w4 ->
  parses_members ms r0 -> parses_members ((k, j) :: ms) (w1 ++ kt ++ w2 ++ 58 :: w3 ++ t ++ w4 ++ 44 :: r0).
Proof.
  intros H1 Hk H2 H3 Hj H4 Hms p r rt o k0 fs Es Hf Hr. rewrite <- !app_assoc in Hf. cbn [app] in Hf. rewrite <- !app_assoc in Hf.
  destruct (member_start p w1 k kt w2 _ rt o k0 fs H1 Hk H2 Es Hf) as (p1 & r1 & p2 & Hrd & E2 & S2 & F2 & X2).
  destruct (Hj p2 w3 _ H3 F2) as (tok & p3 & r3 & Hrd3 & N1 & N2 & Hp); [apply follow_punctuation; [done|auto]|by rewrite X2|].
  exists p1, r1, p2, tok, p3, r3. split_and!; [done|done|done|done|]. intros st. destruct (Hp (false :: st)) as (p4 & n4 & E4 & F4 & S4 & X4). rewrite X2 in X4.
  destruct (punctuation_reads p4 w4 44 value_separator _ eq_refl H4 F4) as [p5 Hrd5]. cbn in X4. rewrite emplace_insert in X4.
  pose proof Hrd5 as (E5 & L5 & F5 & S5 & X5).
  destruct (Hms p5 r rt (obj_insert k j o) (Some k) fs) as (p6 & r6 & p7 & tok8 & p8 & r8 & Hrd6 & E7 & S7 & Hrd8 & Hp8); [by rewrite X5|done|done|].
  destruct (Hp8 st) as (p9 & n9 & E9 & F9 & S9 & X9). exists p9, (n4 + S n9)%nat. split_and!; [|done|done|done].
  intros n. rewrite <- E9, <- Nat.add_assoc. cbn [Nat.add]. rewrite E4, (evaluate_member p4 st p5 _ p6 r6 p7 tok8 p8 r8 S4 Hrd5 Hrd6 E7 Hrd8).
  rewrite (with_states_id p8); [done|]. destruct Hrd6 as (_ & _ & _ & S6 & _), Hrd8 as (_ & _ & _ & S8 & _). congruence.
Qed.

(** What is between the brackets. *)
Lemma array_parses l t : parses_elements l t -> parses (JArray l) (91 :: t ++ [93]).
Proof.
  intros Hl p w r Hw Hf _ Hr. cbn [app] in Hf. destruct (punctuation_reads p w 91 begin_array _ eq_refl Hw Hf) as (p1 & Hrd).
  exists begin_array, p1, ((t ++ [93]) ++ r). split_and!; [done|done|done|]. destruct Hrd as (E1 & L1 & F1 & S1 & X1). rewrite <- app_assoc in F1. intros st.
  destruct (sax p) as [rt fs] eqn:Es. set (p1' := mkParser (last_token p1) (m_lexer p1) st (mkSax rt (InArray [] :: fs))).
  destruct (Hl p1' r rt [] fs eq_refl F1 Hr) as (tok & p2 & r2 & Hrd2 & N2 & Hp). destruct (Hp st) as (p3 & k & E3 & F3 & S3 & X3).
  exists p3, (S k). split_and!; [|done|done|done]. intros n. rewrite <- E3. cbn [Nat.add sax_parse_internal].
  enough (parse_value (with_states st p1) = (Ok Continue, with_states (true :: st) p2)) as E by by rewrite (bind_ok _ _ _ _ _ E).
  unfold parse_value. rewrite (bind_ok Prelude.get _ _ _ _ eq_refl). cbn zeta. change (last_token (with_states st p1)) with (last_token p1). rewrite L1.
  rewrite (bind_ok (on_sax start_array) _ (with_states st p1) p1' tt) by (unfold on_sax, zoom; cbn; by rewrite X1).
  destruct Hrd2 as (E2 & _ & _ & S2 & _). rewrite (bind_ok _ _ _ _ _ E2), decide_False by done. cbn. by rewrite S2.
Qed.
Lemma object_parses ms t : parses_members ms t -> parses (JObject (object_of ms)) (123 :: t ++ [125]).
Proof.
  intros Hl p w r Hw Hf _ Hr. cbn [app] in Hf. destruct (punctuation_reads p w 123 begin_object _ eq_refl Hw Hf) as (p1 & Hrd).
  exists begin_object, p1, ((t ++ [125]) ++ r). split_and!; [done|done|done|]. destruct Hrd as (E1 & L1 & F1 & S1 & X1). rewrite <- app_assoc in F1. intros st.
  destruct (sax p) as [rt fs] eqn:Es. set (p1' := mkParser (last_token p1) (m_lexer p1) st (mkSax rt (InObject [] None :: fs))).
  destruct (Hl p1' r rt [] None fs eq_refl F1 Hr) as (p2 & r2 & p3 & tok & p4 & r4 & Hrd2 & E3 & S3 & Hrd4 & Hp).
  destruct (Hp st) as (p5 & k & E5 & F5 & S5 & X5).
  exists p5, (S k). split_and!; [|done|done|done]. intros n. rewrite <- E5. cbn [Nat.add sax_parse_internal].
  enough (parse_value (with_states st p1) = (Ok Continue, with_states (false :: st) p4)) as E by by rewrite (bind_ok _ _ _ _ _ E).
  unfold parse_value. rewrite (bind_ok Prelude.get _ _ _ _ eq_refl). cbn zeta. change (last_token (with_states st p1)) with (last_token p1). rewrite L1.
  rewrite (bind_ok (on_sax start_object) _ (with_states st p1) p1' tt) by (unfold on_sax, zoom; cbn; by rewrite X1).
  destruct Hrd2 as (E2 & _ & _ & S2 & _). rewrite (bind_ok _ _ _ _ _ E2), decide_False, (bind_ok _ _ _ _ _ E3), (bind_ok (modify _) _ _ _ _ eq_refl) by done.
  rewrite S3, S2. change (states p1') with st. destruct (reads_with_states (false :: st) _ _ _ _ Hrd4) as (E4 & _). by rewrite (bind_ok _ _ _ _ _ E4).
Qed.
Lemma empty_parses v f (b : bool) (o c : Z) tok w0 : spaces w0 -> punctuation o = Some tok -> punctuation c = Some (closing b) -> tok <> end_array -> tok <> end_object ->
  container f = v ->
  (forall p rt fs p2 r2, last_token p = tok -> sax p = mkSax rt fs ->
    reads (mkParser (last_token p) (m_lexer p) (states p) (mkSax rt (f :: fs))) (closing b) p2 r2 -> parse_value p = (on_sax end_container ;;; ret Evaluate) p2) ->
  parses v (o :: w0 ++ [c]).
Proof.
  intros H0 Ho Hc N1 N2 <- Hv p w r Hw Hf _ Hr. cbn [app] in Hf. destruct (punctuation_reads p w o tok _ Ho Hw Hf) as (p1 & Hrd).
  exists tok, p1, ((w0 ++ [c]) ++ r). split_and!; [done|done|done|]. destruct Hrd as (E1 & L1 & F1 & S1 & X1). rewrite <- app_assoc in F1. intros st.
  destruct (sax p) as [rt fs] eqn:Es. set (p1' := mkParser (last_token p1) (m_lexer p1) st (mkSax rt (f :: fs))).
  destruct (punctuation_reads p1' w0 c (closing b) r Hc H0 F1) as (p2 & Hrd2). pose proof Hrd2 as (E2 & L2 & F2 & S2 & X2).
  exists (mkParser (last_token p2) (m_lexer p2) (states p2) (place (container f) (mkSax rt fs))), 0%nat. split_and!; [|done|done|done].
  intros n. cbn [Nat.add sax_parse_internal].
  enough (parse_value (with_states st p1) = (Ok Evaluate, mkParser (last_token p2) (m_lexer p2) (states p2) (place (container f) (mkSax rt fs)))) as E
    by by rewrite (bind_ok _ _ _ _ _ E).
  rewrite (Hv (with_states st p1) rt fs p2 r L1 X1 Hrd2). by rewrite (bind_ok _ _ _ _ _ (end_container_run p2 rt f fs X2 Hr)).
Qed.

Lemma start_parse_value p rt fs f b tok p2 r2 : (tok, f, b) = (begin_array, InArray [], true) \/ (tok, f, b) = (begin_object, InObject [] None, false) ->
  last_token p = tok -> sax p = mkSax rt fs -> reads (mkParser (last_token p) (m_lexer p) (states p) (mkSax rt (f :: fs))) (closing b) p2 r2 ->
  parse_value p = (on_sax end_container ;;; ret Evaluate) p2.
Proof.
  intros Ht Hl Hs (E2 & _). unfold parse_value. rewrite (bind_ok Prelude.get _ _ _ _ eq_refl). cbn zeta.
  set (p1 := mkParser _ _ _ _) in E2. destruct Ht as [Ht|Ht]; injection Ht as -> -> ->; rewrite Hl.
  - rewrite (bind_ok (on_sax start_array) _ p p1 tt) by (unfold on_sax, zoom; cbn; by rewrite Hs). by rewrite (bind_ok _ _ _ _ _ E2), decide_True.
  - rewrite (bind_ok (on_sax start_object) _ p p1 tt) by (unfold on_sax, zoom; cbn; by rewrite Hs). by rewrite (bind_ok _ _ _ _ _ E2), decide_True.
Qed.

Lemma digits_value_nonneg ds : digits ds -> 0 <= digits_value ds.
Proof.
  intros Hd. unfold digits_value. enough (forall z, 0 <= z -> 0 <= fold_left (fun n c => 10 * n + (c - 48)) ds z) as H by by apply H.
  induction Hd as [|c ds Hc _ IH]; intros z H0; cbn; [done|]. apply IH. apply between_spec in Hc. lia.
Qed.
Lemma int_part_digits ds : int_part ds -> digits ds.
Proof. intros [|d ds' Hd _ Hds]; by repeat constructor. Qed.

Ltac value_token := let p := fresh "p" in let Hp := fresh "Hp" in let Hl := fresh "Hl" in
  intros p Hp; try intros Hl; unfold parse_value; rewrite (bind_ok Prelude.get _ _ _ _ eq_refl); cbn zeta; rewrite Hp; try rewrite Hl.
Lemma uint_parses ds : int_part ds -> digits_value ds < 2 ^ 64 -> parses (JUint (digits_value ds)) ds.
Proof.
  intros Hi Hr. rewrite <- (app_nil_r ds) at 2. apply (number_parses [] ds [] []); [by left|done|constructor|constructor|]. intros l.
  cbn [number_token kind_of number_kind]. rewrite app_nil_r. cbn [app]. unfold strtoull. rewrite (proj2 (Z.ltb_lt _ _)) by done.
  eexists _, _. split; [done|]. by value_token.
Qed.
Lemma int_parses ds : int_part ds -> digits_value ds <= 2 ^ 63 -> parses (JInt (- digits_value ds)) (45 :: ds).
Proof.
  intros Hi Hr. rewrite <- (app_nil_r ds) at 2. apply (number_parses [45] ds [] []); [by right|done|constructor|constructor|]. intros l.
  cbn [number_token kind_of number_kind app]. rewrite app_nil_r. unfold strtoll. rewrite (proj2 (Z.leb_le _ _)) by lia.
  eexists _, _. split; [done|]. by value_token.
Qed.
Lemma float_parses t : float_text t -> is_finite (strtod t) = true -> parses (JFloat (strtod t)) t.
Proof.
  intros (sign & i & f & e & Hs & Hi & Hf & He & Hne & ->) Hfin. apply number_parses; [done..|]. intros l.
  assert (kind_of (number_kind sign) f e = value_float_) as -> by (destruct Hf, He; try done; by destruct Hne).
  eexists _, _. split; [done|]. value_token. cbn [value_float with_float]. by rewrite Hfin.
Qed.

(** Every text of the grammar is parsed. *)
Lemma spells_parses : (forall j t, spells j t -> parses j t) /\ (forall l t, spells_elements l t -> parses_elements l t) /\
  (forall ms t, spells_members ms t -> parses_members ms t).
Proof.
  apply spells_all.
  - apply (literal_parses JNull 110 [117; 108; 108] literal_null); try done. by value_token.
  - apply (literal_parses (JBool true) 116 [114; 117; 101] literal_true); try done. by value_token.
  - apply (literal_parses (JBool false) 102 [97; 108; 115; 101] literal_false); try done. by value_token.
  - exact string_parses.
  - exact uint_parses.
  - exact int_parses.
  - exact float_parses.
  - intros w Hw. apply (empty_parses (JArray []) (InArray []) true 91 93 begin_array); try done. intros p rt fs p2 r2. by apply start_parse_value; left.
  - intros l t _. apply array_parses.
  - intros w Hw. apply (empty_parses (JObject []) (InObject [] None) false 123 125 begin_object); try done. intros p rt fs p2 r2. by apply start_parse_value; right.
  - intros ms t _. apply object_parses.
  - intros. by apply last_element.
  - intros. by apply more_elements.
  - intros. by apply last_member.
  - intros. by apply more_members.
Qed.

(** A text of the grammar with white space around it. *)
Lemma parse_spelled j t w1 w2 : spells j t -> spaces w1 -> spaces w2 -> Forall (fun c => 0 <= c) (w1 ++ t ++ w2) ->
  parse_bytes (w1 ++ t ++ w2) = Ok j.
Proof.
  intros Hj Hw1 Hw2 Hb. set (bs := w1 ++ t ++ w2). pose proof (new_feeds bs Hb) as Hf.
  assert (follow w2) as Hfo.
  { destruct Hw2 as [|x w Hx _]; [done|]. apply space_range in Hx. unfold follow, is_exponent. cbn [head]. split_and!; [apply between_false|..]; lia. }
  destruct (proj1 spells_parses j t Hj (newParser bs) w1 w2 Hw1 Hf Hfo I) as (tok & p1 & r1 & (E1 & L1 & F1 & S1 & X1) & _ & _ & Hp).
  destruct (Hp []) as (p2 & k & E2 & F2 & S2 & X2). rewrite with_states_id in E2 by by rewrite S1.
  unfold parse_bytes. rewrite (bind_ok _ _ _ _ _ E1).
  assert (sax_parse_internal (S (S (length bs))) false p1 = (Ok tt, p2)) as El.
  { pose proof (token_run (newParser bs) bs Hf) as (t0 & l0 & b0 & E0 & Hf0 & H0 & H1). 
    assert (t0 = tok) as -> by congruence. assert (p1 = mkParser tok l0 (states (newParser bs)) (sax (newParser bs))) as Ep by congruence.
    destruct (token_weight tok l0 b0 (states (newParser bs)) (sax (newParser bs)) bs H0 H1) as (W & _). rewrite <- Ep in W.
    destruct (loop_returns (S (S (length bs))) false p1 b0) as [Hd _]; [by rewrite Ep|rewrite Ep; constructor|done|eapply Nat.le_lt_trans; [exact W|lia]|].
    rewrite <- (loop_mono _ _ _ Hd (k + S (S (S (length bs)))) ltac:(lia)), E2. cbn [sax_parse_internal].
    rewrite (bind_ok (ret Evaluate) _ _ _ _ eq_refl). rewrite (bind_ok evaluate_state _ p2 p2 Done); [done|].
    unfold evaluate_state. rewrite (bind_ok Prelude.get _ _ _ _ eq_refl). by rewrite S2. }
  rewrite (bind_ok _ _ _ _ _ El). destruct (scan_end _ _ F2 Hw2) as (l3 & E3). unfold expect, get_token, bind at 1. rewrite E3, decide_True by done.
  cbn. by rewrite X2.
Qed.

(** C7: A text of the JSON grammar, with white space between all tokens, with
    every escape of strings and every form of numbers, and with repeated keys
    and keys in any order, is parsed as the value it spells. *)
Theorem json_grammar_parsed text j t w1 w2 : spells j t -> spaces w1 -> spaces w2 -> bytes_of text = w1 ++ t ++ w2 -> parse text = Ok j.
Proof. intros Hj H1 H2 E. unfold parse. rewrite E. apply parse_spelled; [done..|]. rewrite <- E. apply bytes_of_nonneg. Qed.

(** A sample: an object with a key twice, the second time with an escape. *)
Definition sample_key : list Z := [34; 107; 34].
Definition sample_array : list Z := [91; 45; 48; 44; 32; 116; 114; 117; 101; 93].
Definition sample_escaped : list Z := [34; 92; 117; 48; 48; 101; 57; 34].
Definition sample_members : list Z := sample_key ++ 58 :: sample_array ++ 44 :: 32 :: sample_key ++ 58 :: sample_escaped.
Lemma sample_key_text : string_text "k" sample_key.
Proof. exists [107]. split; [|done]. apply (spelled_piece [107] [107] [] []); [by apply piece_plain|constructor]. Qed.
Lemma sample_array_text : spells (JArray [JInt 0; JBool true]) sample_array.
Proof.
  apply (spells_array _ [45; 48; 44; 32; 116; 114; 117; 101]). apply (spells_more [] (JInt (- digits_value [48])) [45; 48] [] [JBool true] [32; 116; 114; 117; 101]); [constructor| |constructor|].
  - apply spells_int; [constructor|done].
  - apply (spells_last [32] (JBool true) (bytes_of "true") []); [by apply Forall_singleton|constructor|constructor].
Qed.
Lemma sample_escaped_text : spells (JString (text_of [195; 169])) sample_escaped.
Proof.
  apply spells_string. exists [92; 117; 48; 48; 101; 57]. split; [|done].
  change (bytes_of (text_of [195; 169])) with (utf8 233 ++ []).
  apply (spelled_piece (utf8 233) [92; 117; 48; 48; 101; 57] [] []); [apply (piece_unicode [48; 48; 101; 57]); [done|lia]|constructor].
Qed.
Lemma sample_members_text : spells_members [("k"%string, JArray [JInt 0; JBool true]); ("k"%string, JString (text_of [195; 169]))] sample_members.
Proof.
  pose proof (Forall_nil_2 (fun c => is_space c = true)) as H0.
  apply (spells_more_members [] _ sample_key [] [] _ sample_array []); [done|apply sample_key_text|done|done|apply sample_array_text|done|].
  apply (spells_last_member [32] _ sample_key [] [] _ sample_escaped []); [by apply Forall_singleton|apply sample_key_text|done|done|apply sample_escaped_text|done].
Qed.
Lemma json_grammar_parsed_witness :
  parse (text_of (10 :: 123 :: sample_members ++ [125])) = Ok (JObject [("k"%string, JString (text_of [195; 169]))]).
Proof.
  apply (json_grammar_parsed _ _ (123 :: sample_members ++ [125]) [10] []); [|by apply Forall_singleton|constructor|by vm_compute].
  exact (spells_object _ _ sample_members_text).
Defined.
