(* ===== verification/JsonWriteSpec.v ===== *)
(** * JSON text: integers and strings of the serializer

    The optimised printing of integers writes the decimal digits.  The decoder
    of UTF-8, a table, is the automaton of the lexer's ranges; strings are
    escaped within the 512 bytes of the buffer, whatever their bytes, and what
    is written of a valid string spells it. *)

From stdpp Require Import base list strings.
From Stdlib Require Import ZArith Lia SpecFloat.
From S2P Require Import Prelude Keeps Json Utils SdpParse JsonText JsonTextSpec JsonReadSpec.
Open Scope Z_scope.

(** ** Integers *)

Import Lexer Parser Serializer.

Lemma count_digits_loop_run fuel : forall x n, 1 <= x < 10 ^ (4 * Z.of_nat fuel) ->
  exists k, count_digits_loop fuel x n = Ok (n - 1 + k) /\ 1 <= k /\ 10 ^ (k - 1) <= x < 10 ^ k.
Proof.
  induction fuel as [|fuel IH]; intros x n Hx; [cbn in Hx; lia|]. cbn [count_digits_loop].
  destruct (Z.ltb_spec x 10); [exists 1; split_and!; [f_equal|..]; cbn; lia|].
  destruct (Z.ltb_spec x 100); [exists 2; split_and!; [f_equal|..]; cbn; lia|].
  destruct (Z.ltb_spec x 1000); [exists 3; split_and!; [f_equal|..]; cbn; lia|].
  destruct (Z.ltb_spec x 10000); [exists 4; split_and!; [f_equal|..]; cbn; lia|].
  rewrite Nat2Z.inj_succ in Hx. replace (4 * Z.succ (Z.of_nat fuel)) with (4 * Z.of_nat fuel + 4) in Hx by lia. rewrite Z.pow_add_r in Hx by lia.
  destruct (IH (x / 10000) (n + 4)) as (k & E & Hk & Hl).
  { split; [apply Z.div_le_lower_bound; lia|apply Z.div_lt_upper_bound; lia]. }
  exists (k + 4). split_and!; [rewrite E; f_equal; lia|lia|..].
  - replace (k + 4 - 1) with (k - 1 + 4) by lia. rewrite Z.pow_add_r by lia. pose proof (Z.mul_div_le x 10000). lia.
  - rewrite Z.pow_add_r by lia. pose proof (Z.mul_succ_div_gt x 10000). lia.
Qed.

Lemma push_back_run c b n : (n < length b)%nat -> push_back c (b, S n) = Ok (take n b ++ c :: drop (S n) b, n).
Proof.
  intros H. unfold push_back. rewrite (proj2 (Nat.ltb_lt _ _) H). do 2 f_equal. by apply insert_take_drop.
Qed.
Lemma push_pair_run v b n : (S n < length b)%nat -> push_pair v (b, S (S n)) = Ok (take n b ++ [48 + v / 10; 48 + v mod 10] ++ drop (S (S n)) b, n).
Proof.
  intros H. unfold push_pair, digits_to_99. rewrite push_back_run by done. cbn [obind]. rewrite push_back_run; [|rewrite length_app, length_take; lia].
  do 2 f_equal. rewrite take_app_le, take_take, Nat.min_l by (rewrite ?length_take; lia). f_equal. cbn [app]. f_equal.
  rewrite drop_app_ge by (rewrite length_take; lia). rewrite length_take, Nat.min_l by lia. by replace (S n - S n)%nat with 0%nat by lia.
Qed.

Lemma digits_value_app a b : digits_value (a ++ b) = digits_value a * 10 ^ Z.of_nat (length b) + digits_value b.
Proof.
  unfold digits_value. rewrite fold_left_app. generalize (fold_left (fun n c => 10 * n + (c - 48)) a 0). clear a. intros z.
  assert (forall y z, fold_left (fun n c => 10 * n + (c - 48)) b (y + z) = y * 10 ^ Z.of_nat (length b) + fold_left (fun n c => 10 * n + (c - 48)) b z) as H.
  { clear. induction b as [|c b IH]; intros y z; [cbn; lia|]. cbn [fold_left length]. rewrite Nat2Z.inj_succ, Z.pow_succ_r by lia.
    replace (10 * (y + z) + (c - 48)) with (10 * y + (10 * z + (c - 48))) by lia. rewrite IH. lia. }
  rewrite <- (H z 0). f_equal. lia.
Qed.
Lemma digits_value_below ds : digits ds -> digits_value ds < 10 ^ Z.of_nat (length ds).
Proof.
  induction ds as [|c ds IH] using rev_ind; [done|]. intros [Hd Hc]%Forall_app. inversion Hc as [|? ? Hc' _]; subst. apply between_spec in Hc'.
  rewrite digits_value_app, length_app, Nat2Z.inj_add, Z.pow_add_r by lia. specialize (IH Hd). cbn [length]. cbn. lia.
Qed.
(** Digits without a leading zero. *)
Lemma canonical_digits ds v k : digits ds -> Z.of_nat (length ds) = k -> digits_value ds = v -> 1 <= k -> 10 ^ (k - 1) <= v -> int_part ds.
Proof.
  intros Hd Hl Hv Hk Hb. destruct Hd as [|c ds Hc Hd]; [cbn in Hl; lia|]. destruct (Z.eq_dec c 48) as [->|]; [|by constructor].
  change (48 :: ds) with ([48] ++ ds) in Hv. rewrite digits_value_app in Hv. change (digits_value [48]) with 0 in Hv. rewrite Z.mul_0_l in Hv. pose proof (digits_value_below ds Hd).
  cbn [length] in Hl. replace (k - 1) with (Z.of_nat (length ds)) in Hb by lia. lia.
Qed.

(** The digits are written from the end. *)
Definition digits_written (v k : Z) (b : list Z) (n : nat) (res : outcome (list Z * nat)) : Prop :=
  exists ds, digits ds /\ Z.of_nat (length ds) = k /\ digits_value ds = v /\ res = Ok (take (n - Z.to_nat k) b ++ ds ++ drop n b, (n - Z.to_nat k)%nat).
Lemma digit_ok v : 0 <= v < 10 -> is_digit (48 + v) = true.
Proof. intros. apply between_spec. lia. Qed.
Lemma pair_digits v : 0 <= v < 100 -> digits [48 + v / 10; 48 + v mod 10] /\ digits_value [48 + v / 10; 48 + v mod 10] = v.
Proof.
  intros Hv. pose proof (Z.div_mod v 10 ltac:(lia)). pose proof (Z.mod_pos_bound v 10 ltac:(lia)). split.
  - repeat constructor; apply digit_ok; lia.
  - unfold digits_value. cbn [fold_left]. lia.
Qed.
Lemma exponent_of v k a : 1 <= k -> 0 <= a -> 10 ^ (k - 1) <= v < 10 ^ k -> (v < 10 ^ a <-> k <= a).
Proof.
  intros Hk Ha Hv. split; intros H.
  - destruct (Z.lt_ge_cases a k) as [Hl|]; [|done]. assert (10 ^ a <= 10 ^ (k - 1)) by (apply Z.pow_le_mono_r; lia). lia.
  - assert (10 ^ k <= 10 ^ a) by (apply Z.pow_le_mono_r; lia). lia.
Qed.
Lemma write_last v k b n fuel : 1 <= k <= 2 -> 10 ^ (k - 1) <= v < 10 ^ k -> (Z.to_nat k <= n <= length b)%nat ->
  digits_written v k b n (write_digits fuel v (b, n)).
Proof.
  intros Hk Hv Hn. assert (write_digits fuel v (b, n) = if 10 <=? v then push_pair v (b, n) else push_back (48 + v) (b, n)) as ->.
  { assert (v < 10 ^ 2) by (eapply exponent_of; [..|exact Hv|]; lia). destruct fuel; cbn [write_digits]; by rewrite (proj2 (Z.leb_gt 100 v)). }
  destruct (decide (k = 1)) as [->|]; [|assert (k = 2) as -> by lia]; cbn in Hv; unfold digits_written; (destruct n as [|n]; [cbn in Hn; lia|]).
  - rewrite (proj2 (Z.leb_gt 10 v)) by lia. exists [48 + v]. split_and!; [constructor; [apply digit_ok; lia|done]|done|unfold digits_value; cbn [fold_left]; lia|].
    rewrite push_back_run by (cbn in Hn; lia). replace (S n - Z.to_nat 1)%nat with n by (cbn; lia). done.
  - rewrite (proj2 (Z.leb_le 10 v)) by lia. destruct n as [|n]; [cbn in Hn; lia|]. destruct (pair_digits v) as [Hd Hdv]; [lia|].
    eexists. split_and!; [exact Hd|done|exact Hdv|]. rewrite push_pair_run by (cbn in Hn; lia). replace (S (S n) - Z.to_nat 2)%nat with n by (cbn; lia). done.
Qed.
Lemma write_digits_run fuel : forall v k b n, 1 <= k <= 2 * Z.of_nat fuel + 2 -> 10 ^ (k - 1) <= v < 10 ^ k -> (Z.to_nat k <= n <= length b)%nat ->
  digits_written v k b n (write_digits fuel v (b, n)).
Proof.
  induction fuel as [|fuel IH]; intros v k b n Hk Hv Hn; [by apply write_last; [lia|..]|].
  destruct (decide (k <= 2)); [by apply write_last; [lia|..]|]. cbn [write_digits].
  assert (100 <= v) as H100 by (etrans; [|apply Hv]; change 100 with (10 ^ 2); apply Z.pow_le_mono_r; lia). rewrite (proj2 (Z.leb_le 100 v)) by done.
  destruct n as [|[|n]]; [lia|lia|]. destruct (pair_digits (v mod 100)) as [Hd Hdv]; [apply Z.mod_pos_bound; lia|]. rewrite push_pair_run by lia. cbn [obind].
  set (ls := [48 + v mod 100 / 10; 48 + (v mod 100) mod 10]) in *.
  destruct (IH (v / 100) (k - 2) (take n b ++ ls ++ drop (S (S n)) b) n) as (ds & Hds & Hl & Hvv & E); [lia| | |].
  { assert (10 ^ k = 10 ^ (k - 2) * 100) as Ek by (change 100 with (10 ^ 2); rewrite <- Z.pow_add_r by lia; f_equal; lia).
    assert (10 ^ (k - 1) = 10 ^ (k - 2 - 1) * 100) as Ek1 by (change 100 with (10 ^ 2); rewrite <- Z.pow_add_r by lia; f_equal; lia).
    split; [apply Z.div_le_lower_bound; lia|apply Z.div_lt_upper_bound; lia]. }
  { rewrite !length_app, length_take, length_drop. cbn [length]. lia. }
  exists (ds ++ ls). split_and!; [by apply Forall_app|rewrite length_app; cbn [length ls]; lia|..].
  - rewrite digits_value_app, Hdv, Hvv. cbn [length ls]. pose proof (Z.div_mod v 100). change (10 ^ Z.of_nat 2) with 100. lia.
  - rewrite E. replace (n - Z.to_nat (k - 2))%nat with (S (S n) - Z.to_nat k)%nat by lia. do 2 f_equal.
    rewrite take_app_le, take_take, Nat.min_l by (rewrite ?length_take; lia). rewrite <- !app_assoc. f_equal. f_equal.
    rewrite drop_app_ge by (rewrite length_take; lia). by rewrite length_take, Nat.min_l, Nat.sub_diag by lia.
Qed.

Lemma remove_sign_abs x : - 2 ^ 63 <= x < 0 -> remove_sign x = - x.
Proof. intros H. unfold remove_sign. rewrite (wrap_u_small 64 (- (x + 1))) by lia. rewrite wrap_u_small; lia. Qed.

(** Counting the digits and writing them in pairs from the end of the 64 byte
    buffer gives the decimal text without leading zeros, for every signed and
    unsigned 64-bit integer. *)
Lemma dump_integer_run signed x s : (if signed : bool then - 2 ^ 63 <= x < 2 ^ 63 else 0 <= x < 2 ^ 64) ->
  exists ds, int_part ds /\ digits_value ds = Z.abs x /\
    dump_integer signed x s = (Ok tt, mkSerializer (o s ++ (if x <? 0 then [45] else []) ++ ds) (indent_string s)).
Proof.
  intros Hx. unfold dump_integer. destruct (Z.eqb_spec x 0) as [->|Hnz]; [exists [48]; split_and!; [constructor|done..]|].
  set (neg := signed && negb (0 <=? x)). assert (neg = (x <? 0)) as En by (unfold neg; destruct signed; lia). rewrite <- En. clearbody neg.
  set (a := if neg then remove_sign x else wrap_u 64 x).
  assert (a = Z.abs x) as Ea.
  { unfold a. rewrite En. destruct (Z.ltb_spec x 0).
    - rewrite remove_sign_abs by (destruct signed; lia). lia.
    - rewrite wrap_u_small by (destruct signed; lia). lia. }
  cbn zeta. destruct (count_digits_loop_run 6 a 1) as (k & Ek & Hk & Hb); [cbn; destruct signed; lia|].
  assert (k <= 20) as Hk20 by (eapply exponent_of; [..|exact Hb|]; [lia|lia|cbn; destruct signed; lia]).
  set (b := if neg then <[0%nat := 45]> (replicate number_buffer_size 0) else replicate number_buffer_size 0).
  assert (length b = 64%nat) as Hl by by destruct neg. set (n := (Z.to_nat (1 - 1 + k) + if neg then 1 else 0)%nat).
  destruct (write_digits_run 10 a k b n) as (ds & Hd & Hdl & Hdv & E); [lia|done|unfold n; destruct neg; lia|].
  exists ds. split_and!; [by eapply (canonical_digits ds a k); try lia|congruence|]. unfold count_digits. rewrite Ek, lift_bind. fold b n. rewrite E, lift_bind. cbn [fst].
  unfold write, modify. do 3 f_equal. assert (n - Z.to_nat k = if neg then 1 else 0)%nat as Ens by (unfold n; destruct neg; lia). rewrite Ens.
  rewrite app_assoc, take_app_le by (rewrite length_app, length_take; unfold n in *; destruct neg; lia).
  rewrite firstn_all2 by (rewrite length_app, length_take; unfold n; destruct neg; lia). f_equal. by destruct neg.
Qed.

(** ** UTF-8 *)

(** The states of the decoder: what a first byte leads to, and what must
    follow. *)
Definition lead (b : Z) : Z * Z :=
  if b <? 128 then (0, b) else if between 194 223 b then (2, b - 192) else if b =? 224 then (4, 0)
  else if between 225 236 b || between 238 239 b then (3, b - 224) else if b =? 237 then (5, 13) else if b =? 240 then (6, 0)
  else if between 241 243 b then (7, b - 240) else if b =? 244 then (8, 4) else (1, 0).
Definition next_state (s b : Z) : Z :=
  if (s =? 2) && between 128 191 b then 0 else if (s =? 3) && between 128 191 b then 2 else if (s =? 4) && between 160 191 b then 2
  else if (s =? 5) && between 128 159 b then 2 else if (s =? 6) && between 144 191 b then 3 else if (s =? 7) && between 128 191 b then 3
  else if (s =? 8) && between 128 143 b then 3 else 1.
Definition is_byte_value (b : Z) : Prop := 0 <= b < 256.
Lemma byte_cases (P : Z -> bool) : forallb P (map Z.of_nat (seq 0 256)) = true -> forall b, is_byte_value b -> P b = true.
Proof.
  intros H b Hb. rewrite forallb_forall in H. apply H. apply in_map_iff. exists (Z.to_nat b). split; [unfold is_byte_value in Hb; lia|].
  apply in_seq. unfold is_byte_value in Hb. lia.
Qed.
Lemma decode_lead c b : is_byte_value b -> (decode 0 c b).1 = (lead b).1 /\ ((lead b).1 <> 1 -> (decode 0 c b).2 = (lead b).2).
Proof.
  intros Hb. change (decode 0 c b) with (decode 0 0 b).
  pose proof (byte_cases (fun b => ((decode 0 0 b).1 =? (lead b).1) && (((lead b).1 =? 1) || ((decode 0 0 b).2 =? (lead b).2))) ltac:(by vm_compute) b Hb) as H.
  cbn beta in H. apply andb_prop in H as [H1 H2]. split; [lia|]. intros Hn. apply orb_prop in H2 as [?|?]; lia.
Qed.
Definition pending (s : Z) : Prop := 2 <= s <= 8.
Lemma decode_next s c b : pending s -> is_byte_value b -> (decode s c b).1 = next_state s b.
Proof.
  intros Hs Hb.
  pose proof (byte_cases (fun b => forallb (fun s => (decode s 0 b).1 =? next_state s b) [2; 3; 4; 5; 6; 7; 8]) ltac:(by vm_compute) b Hb) as H.
  cbn beta in H. rewrite forallb_forall in H. assert ((decode s 0 b).1 = next_state s b) as <-; [|done].
  apply Z.eqb_eq, H. unfold pending in Hs. cbn. lia.
Qed.
Lemma decode_codepoint s c b : pending s -> 128 <= b <= 191 -> 0 <= c < 2 ^ 15 -> (decode s c b).2 = c * 64 + (b - 128).
Proof.
  intros Hs Hb Hc. unfold decode. cbn [snd]. rewrite (proj2 (Z.eqb_neq s UTF8_ACCEPT)) by (unfold pending, UTF8_ACCEPT in *; lia). cbn [negb].
  change 63 with (Z.ones 6). rewrite Z.land_ones by lia. rewrite Z.lor_comm. rewrite wrap_u_small by (rewrite Z.shiftl_mul_pow2 by lia; lia).
  assert (b mod 2 ^ 6 = b - 128) as -> by (symmetry; apply (Z.mod_unique b (2 ^ 6) 2); lia). rewrite lor_shiftl by lia. lia.
Qed.

(** Bounds of the code point in each state. *)
Definition codepoint_in (s c : Z) : Prop :=
  (s = 2 -> 2 <= c < 2 ^ 15) /\ (s = 3 -> 1 <= c < 2 ^ 9) /\ (s = 4 -> c = 0) /\ (s = 5 -> c = 13) /\ (s = 6 -> c = 0) /\ (s = 7 -> 1 <= c <= 3) /\ (s = 8 -> c = 4).
Definition need (s : Z) : nat := if s =? 0 then 0 else if s =? 2 then 1 else if s <=? 5 then 2 else 3.
(** The first bytes of code points, for the decoder and for the lexer. *)
Lemma lead_class c : 128 <= c < 256 -> let tail := (128, 191) in
  (194 <= c <= 223 /\ lead c = (2, c - 192) /\ ranges_after c = Some [tail]) \/
  (c = 224 /\ lead c = (4, 0) /\ ranges_after c = Some [(160, 191); tail]) \/
  ((225 <= c <= 236 \/ 238 <= c <= 239) /\ lead c = (3, c - 224) /\ ranges_after c = Some [tail; tail]) \/
  (c = 237 /\ lead c = (5, 13) /\ ranges_after c = Some [(128, 159); tail]) \/
  (c = 240 /\ lead c = (6, 0) /\ ranges_after c = Some [(144, 191); tail; tail]) \/
  (241 <= c <= 243 /\ lead c = (7, c - 240) /\ ranges_after c = Some [tail; tail; tail]) \/
  (c = 244 /\ lead c = (8, 4) /\ ranges_after c = Some [(128, 143); tail; tail]) \/
  ((c < 194 \/ 244 < c) /\ lead c = (1, 0) /\ ranges_after c = None).
Proof.
  intros Hc. cbn zeta. unfold lead, ranges_after. rewrite (proj2 (Z.ltb_ge c 128)) by lia.
  destruct (between 194 223 c) eqn:E1; [left; by apply between_spec in E1|right]. destruct (Z.eqb_spec c 224); [by left|right].
  destruct (between 225 236 c) eqn:E2; [left; apply between_spec in E2; split_and!; [lia|done..]|].
  destruct (between 238 239 c) eqn:E3; [left; apply between_spec in E3; split_and!; [lia|done..]|right]. cbn [orb].
  destruct (Z.eqb_spec c 237); [by left|right]. destruct (Z.eqb_spec c 240); [by left|right].
  destruct (between 241 243 c) eqn:E4; [left; by apply between_spec in E4|right]. destruct (Z.eqb_spec c 244); [by left|right].
  split_and!; [|done|done]. destruct (Z.lt_ge_cases c 194); [by left|right]. destruct (Z.lt_ge_cases 244 c); [done|exfalso].
  assert (forall a b, between a b c = false -> ~ a <= c <= b) as Hf by (intros a b E H'; apply between_spec in H'; congruence).
  apply Hf in E1, E2, E3, E4. lia.
Qed.
Lemma lead_ascii c : c < 128 -> lead c = (0, c).
Proof. intros H. unfold lead. by rewrite (proj2 (Z.ltb_lt c 128)). Qed.
Lemma lead_in b : is_byte_value b -> (lead b).1 <> 1 ->
  (lead b).1 = 0 /\ b < 128 /\ (lead b).2 = b \/ 128 <= b /\ pending (lead b).1 /\ codepoint_in (lead b).1 (lead b).2.
Proof.
  unfold pending, codepoint_in, is_byte_value. intros Hb Hn. destruct (Z.lt_ge_cases b 128); [left; by rewrite lead_ascii|right]. split; [done|].
  destruct (lead_class b ltac:(lia)) as [(Hx & E & _)|[(Hx & E & _)|[(Hx & E & _)|[(Hx & E & _)|[(Hx & E & _)|[(Hx & E & _)|[(Hx & E & _)|(_ & E & _)]]]]]]];
    rewrite E in *; cbn [fst snd] in *; lia.
Qed.
(** The states that can follow, by the byte. *)
Lemma next_cases s b : next_state s b <> 1 ->
  (s = 2 /\ 128 <= b <= 191 /\ next_state s b = 0) \/ (s = 3 /\ 128 <= b <= 191 /\ next_state s b = 2) \/ (s = 4 /\ 160 <= b <= 191 /\ next_state s b = 2) \/
  (s = 5 /\ 128 <= b <= 159 /\ next_state s b = 2) \/ (s = 6 /\ 144 <= b <= 191 /\ next_state s b = 3) \/ (s = 7 /\ 128 <= b <= 191 /\ next_state s b = 3) \/
  (s = 8 /\ 128 <= b <= 143 /\ next_state s b = 3).
Proof.
  unfold next_state. intros H.
  repeat match type of H with context [if (s =? ?x) && between ?lo ?hi b then _ else _] =>
    let E := fresh "E" in destruct ((s =? x) && between lo hi b) eqn:E; [apply andb_prop in E as [E1 E2]; apply between_spec in E2; lia|clear E] end. done.
Qed.
Lemma next_in s c b : codepoint_in s c -> next_state s b <> 1 ->
  0 <= c < 2 ^ 15 /\
  (next_state s b = 0 /\ 128 <= c * 64 + (b - 128) < 2 ^ 21 /\ need s = 1%nat \/
   pending (next_state s b) /\ codepoint_in (next_state s b) (c * 64 + (b - 128)) /\ need s = S (need (next_state s b))).
Proof.
  intros Hc Hn. pose proof (next_cases s b Hn) as Hs. unfold codepoint_in, pending in *.
  destruct Hs as [(-> & Hb & ->)|[(-> & Hb & ->)|[(-> & Hb & ->)|[(-> & Hb & ->)|[(-> & Hb & ->)|[(-> & Hb & ->)|(-> & Hb & ->)]]]]]];
    (split; [lia|]); [left|right..]; split_and!; try done; lia.
Qed.
Lemma next_range s b : next_state s b <> 1 -> 128 <= b <= 191.
Proof. intros H. apply next_cases in H. lia. Qed.

(** The rest of a code point, up to its end. *)
Inductive leads : Z -> Z -> list Z -> Z -> Prop :=
| leads_last s c b : next_state s b = 0 -> leads s c [b] (c * 64 + (b - 128))
| leads_more s c b bs cp : next_state s b <> 0 -> next_state s b <> 1 -> leads (next_state s b) (c * 64 + (b - 128)) bs cp -> leads s c (b :: bs) cp.
Lemma next_eqs b :
  (128 <= b <= 191 -> next_state 2 b = 0 /\ next_state 3 b = 2 /\ next_state 7 b = 3) /\ (160 <= b <= 191 -> next_state 4 b = 2) /\
  (128 <= b <= 159 -> next_state 5 b = 2) /\ (144 <= b <= 191 -> next_state 6 b = 3) /\ (128 <= b <= 143 -> next_state 8 b = 3).
Proof. unfold next_state. cbn [Z.eqb Pos.eqb andb]. split_and!; intros Hb; apply between_spec in Hb; by rewrite Hb. Qed.

(** The bytes of a code point, without the operations on bits. *)
Lemma tail_byte v : 0 <= v -> Z.lor 128 (Z.land v 63) = 128 + v mod 64.
Proof.
  intros Hv. change 63 with (Z.ones 6). rewrite Z.land_ones by lia. change 128 with (Z.shiftl 1 7). rewrite lor_shiftl; [done|lia|].
  pose proof (Z.mod_pos_bound v (2 ^ 6)). lia.
Qed.
Ltac divide := cbn [Z.pow Z.pow_pos Pos.iter Z.mul Pos.mul] in *; Z.to_euclidean_division_equations; lia.
Lemma utf8_two c b : 194 <= c <= 223 -> 128 <= b <= 191 -> utf8 ((c - 192) * 64 + (b - 128)) = [c; b].
Proof.
  intros Hc Hb. remember ((c - 192) * 64 + (b - 128)) as v eqn:Ev. unfold utf8. rewrite (proj2 (Z.ltb_ge v 128)), (proj2 (Z.leb_le v 2047)) by lia.
  rewrite Z.shiftr_0_r, tail_byte, Z.shiftr_div_pow2 by lia. change 192 with (Z.shiftl 3 6) at 1. rewrite lor_shiftl; [|lia|]; [f_equal; [|f_equal]|]; divide.
Qed.
Lemma utf8_three c b1 b2 : 224 <= c <= 239 -> 128 <= b1 <= 191 -> 128 <= b2 <= 191 -> (c = 224 -> 160 <= b1) ->
  utf8 (((c - 224) * 64 + (b1 - 128)) * 64 + (b2 - 128)) = [c; b1; b2].
Proof.
  intros Hc H1 H2 H0. remember (((c - 224) * 64 + (b1 - 128)) * 64 + (b2 - 128)) as v eqn:Ev. unfold utf8.
  rewrite (proj2 (Z.ltb_ge v 128)), (proj2 (Z.leb_gt v 2047)), (proj2 (Z.leb_le v 65535)) by lia.
  rewrite Z.shiftr_0_r, !Z.shiftr_div_pow2 by lia. rewrite !tail_byte by (divide). change 224 with (Z.shiftl 7 5) at 1. rewrite lor_shiftl; [|lia|]; [f_equal; [|f_equal; [|f_equal]]|]; divide.
Qed.
Lemma utf8_four c b1 b2 b3 : 240 <= c <= 244 -> 128 <= b1 <= 191 -> 128 <= b2 <= 191 -> 128 <= b3 <= 191 -> (c = 240 -> 144 <= b1) ->
  utf8 ((((c - 240) * 64 + (b1 - 128)) * 64 + (b2 - 128)) * 64 + (b3 - 128)) = [c; b1; b2; b3].
Proof.
  intros Hc H1 H2 H3 H0. remember ((((c - 240) * 64 + (b1 - 128)) * 64 + (b2 - 128)) * 64 + (b3 - 128)) as v eqn:Ev. unfold utf8.
  rewrite (proj2 (Z.ltb_ge v 128)), (proj2 (Z.leb_gt v 2047)), (proj2 (Z.leb_gt v 65535)) by lia.
  rewrite Z.shiftr_0_r, !Z.shiftr_div_pow2 by lia. rewrite !tail_byte by (divide). change 240 with (Z.shiftl 15 4) at 1.
  rewrite lor_shiftl; [|lia|]; [f_equal; [|f_equal; [|f_equal; [|f_equal]]]|]; divide.
Qed.

(** Code points in UTF-8, as the lexer takes them. *)
Inductive valid_utf8 : list Z -> Prop :=
| valid_nil : valid_utf8 []
| valid_ascii c r : 0 <= c < 128 -> valid_utf8 r -> valid_utf8 (c :: r)
| valid_multi c ranges bs r : 128 <= c < 256 -> ranges_after c = Some ranges -> Forall2 (fun p b => between p.1 p.2 b = true) ranges bs ->
    valid_utf8 r -> valid_utf8 (c :: bs ++ r).

Definition multi (c : Z) (bs : list Z) : Prop :=
  exists b1, (194 <= c <= 223 /\ bs = [b1] /\ 128 <= b1 <= 191) \/
  exists b2, (224 <= c <= 239 /\ bs = [b1; b2] /\ 128 <= b1 <= 191 /\ 128 <= b2 <= 191 /\ (c = 224 -> 160 <= b1) /\ (c = 237 -> b1 <= 159)) \/
  exists b3, 240 <= c <= 244 /\ bs = [b1; b2; b3] /\ 128 <= b1 <= 191 /\ 128 <= b2 <= 191 /\ 128 <= b3 <= 191 /\ (c = 240 -> 144 <= b1) /\ (c = 244 -> b1 <= 143).
Lemma multi_ranges c bs : 128 <= c < 256 ->
  multi c bs <-> exists ranges, ranges_after c = Some ranges /\ Forall2 (fun p b => between p.1 p.2 b = true) ranges bs.
Proof.
  intros Hc. unfold multi. split.
  - intros [b1 [(H & -> & H1)|[b2 [(H & -> & H1 & H2 & H3 & H4)|(b3 & H & -> & H1 & H2 & H3 & H4 & H5)]]]];
      destruct (lead_class c Hc) as [(Hx & _ & ->)|[(Hx & _ & ->)|[(Hx & _ & ->)|[(Hx & _ & ->)|[(Hx & _ & ->)|[(Hx & _ & ->)|[(Hx & _ & ->)|(Hx & _)]]]]]]]; try lia;
      (eexists; split; [done|]; repeat constructor; cbn [fst snd]; apply between_spec; lia).
  - intros (ranges & Hr & Hb).
    destruct (lead_class c Hc) as [(Hx & _ & E)|[(Hx & _ & E)|[(Hx & _ & E)|[(Hx & _ & E)|[(Hx & _ & E)|[(Hx & _ & E)|[(Hx & _ & E)|(_ & _ & E)]]]]]]]; rewrite E in Hr; simplify_eq;
    repeat match goal with H : Forall2 _ (_ :: _) _ |- _ => apply Forall2_cons_inv_l in H as (? & ? & ?%between_spec & ? & ->) | H : Forall2 _ [] _ |- _ => apply Forall2_nil_inv_l in H as -> end;
    cbn [fst snd] in *; eexists;
    first [by left; split_and!; first [reflexivity|lia]|by right; eexists; left; split_and!; first [reflexivity|lia]
      |by right; eexists; right; eexists; split_and!; first [reflexivity|lia]].
Qed.

Lemma leads_inv s c bs cp : leads s c bs cp -> exists b r, bs = b :: r /\
  (next_state s b = 0 /\ r = [] /\ cp = c * 64 + (b - 128) \/ next_state s b <> 0 /\ next_state s b <> 1 /\ leads (next_state s b) (c * 64 + (b - 128)) r cp).
Proof. intros [s' c' b H|s' c' b r cp' H0 H1 Hl]; eexists _, _; (split; [done|]); auto. Qed.
Lemma leads_2 c bs cp : leads 2 c bs cp -> exists b, bs = [b] /\ 128 <= b <= 191 /\ cp = c * 64 + (b - 128).
Proof.
  intros (b & r & -> & [(Hn & -> & ->)|(H0 & H1 & _)])%leads_inv; [|pose proof (next_cases 2 b H1); lia].
  exists b. split_and!; try done; pose proof (next_range 2 b); lia.
Qed.
Lemma leads_first s s' c bs cp : (forall b, next_state s b <> 1 -> next_state s b = s') -> s' <> 0 -> leads s c bs cp ->
  exists b r, bs = b :: r /\ next_state s b = s' /\ leads s' (c * 64 + (b - 128)) r cp.
Proof.
  intros Hs H0 (b & r & -> & [(Hn & _)|(_ & H1 & Hl)])%leads_inv; [by rewrite Hs in Hn by lia|]. rewrite (Hs b H1) in Hl. exists b, r. auto.
Qed.
Ltac leads_by s s' Hl := let b := fresh "b" in let r := fresh "r" in let Hb := fresh "Hb" in
  apply (leads_first s s') in Hl as (b & r & -> & Hb & Hl); [|intros b Hb; pose proof (next_cases s b Hb); lia|done];
  let Hc := fresh "Hc" in pose proof (next_cases s b ltac:(lia)) as Hc; clear Hb.
Lemma leads_multi c bs cp : 128 <= c < 256 -> pending (lead c).1 -> leads (lead c).1 (lead c).2 bs cp -> multi c bs.
Proof.
  intros Hc Hp Hl. unfold multi.
  destruct (lead_class c Hc) as [(Hx & E & _)|[(Hx & E & _)|[(Hx & E & _)|[(Hx & E & _)|[(Hx & E & _)|[(Hx & E & _)|[(Hx & E & _)|(_ & E & _)]]]]]]]; rewrite E in *; cbn [fst snd] in *;
    [..|unfold pending in Hp; lia]; clear E Hp; [|leads_by 4 2 Hl|leads_by 3 2 Hl|leads_by 5 2 Hl|leads_by 6 3 Hl; leads_by 3 2 Hl|leads_by 7 3 Hl; leads_by 3 2 Hl|leads_by 8 3 Hl; leads_by 3 2 Hl];
    apply leads_2 in Hl as (b' & -> & Hb' & _); eexists;
    first [by left; split_and!; first [reflexivity|lia]|by right; eexists; left; split_and!; first [reflexivity|lia]
      |by right; eexists; right; eexists; split_and!; first [reflexivity|lia]].
Qed.
Lemma leads_one c b : 128 <= b <= 191 -> leads 2 c [b] (c * 64 + (b - 128)).
Proof. intros Hb. constructor. by apply next_eqs. Qed.
Lemma leads_on s s' c b bs cp : next_state s b = s' -> pending s' -> leads s' (c * 64 + (b - 128)) bs cp -> leads s c (b :: bs) cp.
Proof. unfold pending. intros <- Hp Hl. apply leads_more; [lia|lia|done]. Qed.
Lemma lead_three c b1 : 224 <= c <= 239 -> 128 <= b1 <= 191 -> (c = 224 -> 160 <= b1) -> (c = 237 -> b1 <= 159) ->
  pending (lead c).1 /\ (lead c).2 = c - 224 /\ next_state (lead c).1 b1 = 2.
Proof.
  intros Hc Hb H1 H2. destruct (next_eqs b1) as (N1 & N4 & N5 & _). unfold pending.
  destruct (lead_class c ltac:(lia)) as [(Hx & -> & _)|[(Hx & -> & _)|[(Hx & -> & _)|[(Hx & -> & _)|[(Hx & -> & _)|[(Hx & -> & _)|[(Hx & -> & _)|(Hx & _)]]]]]]]; try lia;
    cbn [fst snd]; split_and!; first [lia|apply N4; lia|apply N1; lia|apply N5; lia].
Qed.
Lemma lead_four c b1 : 240 <= c <= 244 -> 128 <= b1 <= 191 -> (c = 240 -> 144 <= b1) -> (c = 244 -> b1 <= 143) ->
  pending (lead c).1 /\ (lead c).2 = c - 240 /\ next_state (lead c).1 b1 = 3.
Proof.
  intros Hc Hb H1 H2. destruct (next_eqs b1) as (N1 & _ & _ & N6 & N8). unfold pending.
  destruct (lead_class c ltac:(lia)) as [(Hx & -> & _)|[(Hx & -> & _)|[(Hx & -> & _)|[(Hx & -> & _)|[(Hx & -> & _)|[(Hx & -> & _)|[(Hx & -> & _)|(Hx & _)]]]]]]]; try lia;
    cbn [fst snd]; split_and!; first [lia|apply N6; lia|apply N1; lia|apply N8; lia].
Qed.
Lemma multi_leads c bs : 128 <= c < 256 -> multi c bs -> pending (lead c).1 /\
  exists cp, leads (lead c).1 (lead c).2 bs cp /\ utf8 cp = c :: bs /\ 0 <= cp <= 1114111 /\ ~ 55296 <= cp <= 57343.
Proof.
  intros Hc [b1 [(H & -> & H1)|[b2 [(H & -> & H1 & H2 & H3 & H4)|(b3 & H & -> & H1 & H2 & H3 & H4 & H5)]]]].
  - destruct (lead_class c Hc) as [(Hx & -> & _)|Hx]; [|lia]. split; [done|]. eexists. split; [by apply leads_one|]. split; [by apply utf8_two|]. cbn [snd]. lia.
  - destruct (lead_three c b1 H H1 H3 H4) as (Hp & -> & Hn). split; [done|]. eexists. split; [apply (leads_on _ 2); [done|done|by apply leads_one]|].
    split; [by apply utf8_three|]. lia.
  - destruct (lead_four c b1 H H1 H4 H5) as (Hp & -> & Hn). split; [done|]. eexists.
    split; [apply (leads_on _ 3); [done|done|]; apply (leads_on _ 2); [by apply next_eqs|done|by apply leads_one]|]. split; [by apply utf8_four|]. lia.
Qed.
(** How a code point is escaped where only ASCII may be written. *)
Definition unicode_text (cp : Z) : list Z :=
  if cp <=? 65535 then hex4 cp else hex4 (wrap_u 16 (55232 + Z.shiftr cp 10)) ++ hex4 (wrap_u 16 (56320 + Z.land cp 1023)).
Lemma escaped_unicode c b : 128 <= c -> escaped true c b = (unicode_text c, true).
Proof.
  intros Hc. unfold escaped, unicode_text. repeat match goal with |- context [c =? ?x] => rewrite (proj2 (Z.eqb_neq c x)) by lia end.
  rewrite (proj2 (Z.leb_gt c 31)), (proj2 (Z.leb_le 127 c)) by lia. cbn [orb andb]. by destruct (c <=? 65535).
Qed.
Lemma escaped_multi c b : 128 <= c -> escaped false c b = ([b], false).
Proof.
  intros Hc. unfold escaped. repeat match goal with |- context [c =? ?x] => rewrite (proj2 (Z.eqb_neq c x)) by lia end. by rewrite (proj2 (Z.leb_gt c 31)) by lia.
Qed.

Lemma hex_digit_of v : 0 <= v < 16 -> hex_of (hex_digit v) = Some v.
Proof.
  intros Hv. unfold hex_digit, hex_of. destruct (Z.ltb_spec v 10).
  - rewrite (proj2 (between_spec 48 57 (48 + v))) by lia. f_equal. lia.
  - rewrite !between_false, (proj2 (between_spec 97 102 (87 + v))) by lia. f_equal. lia.
Qed.
Lemma hex4_text n : 0 <= n < 65536 -> exists ds, hex4 n = 92 :: 117 :: ds /\ hexes ds = Some n.
Proof.
  intros Hn. eexists. split; [reflexivity|]. change 15 with (Z.ones 4). rewrite !Z.land_ones, !Z.shiftr_div_pow2 by lia. cbn [hexes].
  rewrite !hex_digit_of by (apply Z.mod_pos_bound; lia). f_equal. divide.
Qed.
Lemma unicode_piece cp : 0 <= cp <= 1114111 -> ~ 55296 <= cp <= 57343 -> piece (utf8 cp) (unicode_text cp).
Proof.
  intros Hc Hs. unfold unicode_text. destruct (Z.leb_spec cp 65535).
  - destruct (hex4_text cp ltac:(lia)) as (ds & -> & Hd). by apply piece_unicode.
  - change 1023 with (Z.ones 10). rewrite Z.land_ones, Z.shiftr_div_pow2 by lia.
    assert (64 <= cp / 2 ^ 10 <= 1087 /\ 0 <= cp mod 2 ^ 10 < 1024 /\ cp = cp / 2 ^ 10 * 1024 + cp mod 2 ^ 10) as (H1 & H2 & H3) by divide.
    rewrite !wrap_u_small by lia. destruct (hex4_text (55232 + cp / 2 ^ 10) ltac:(lia)) as (d1 & -> & Hd1).
    destruct (hex4_text (56320 + cp mod 2 ^ 10) ltac:(lia)) as (d2 & -> & Hd2).
    replace cp with (65536 + 1024 * (55232 + cp / 2 ^ 10 - 55296) + (56320 + cp mod 2 ^ 10 - 56320)) at 1 by lia. by apply (piece_pair d1 d2); [..|lia|lia].
Qed.
Lemma ascii_piece ens c : 0 <= c < 128 -> piece [c] (escaped ens c c).1.
Proof.
  intros Hc. unfold escaped. assert (utf8 c = [c]) as Hu by (unfold utf8; by rewrite (proj2 (Z.ltb_lt c 128)) by lia).
  destruct (Z.eqb_spec c 8) as [->|]; [by apply piece_short|]. destruct (Z.eqb_spec c 9) as [->|]; [by apply piece_short|].
  destruct (Z.eqb_spec c 10) as [->|]; [by apply piece_short|]. destruct (Z.eqb_spec c 12) as [->|]; [by apply piece_short|].
  destruct (Z.eqb_spec c 13) as [->|]; [by apply piece_short|]. destruct (Z.eqb_spec c 34) as [->|]; [by apply piece_short|].
  destruct (Z.eqb_spec c 92) as [->|]; [by apply piece_short|]. destruct ((c <=? 31) || (ens && (127 <=? c))) eqn:E.
  - rewrite (proj2 (Z.leb_le c 65535)) by lia. destruct (hex4_text c ltac:(lia)) as (ds & Hds & Hd). cbn [fst]. rewrite Hds, <- Hu. by apply piece_unicode; [|lia].
  - apply orb_false_elim in E as [E _]. apply piece_plain; lia.
Qed.

(** ** Strings *)

Section escape.
Context (error_handler : error_handler_t) (ensure_ascii : bool).
Abbreviation escape_byte := (escape_byte error_handler ensure_ascii).
Abbreviation escape_loop := (escape_loop error_handler ensure_ascii).

(** The buffer has room for what can come before the next code point ends. *)
Record in_buffer (e : escaping) : Prop := {
  accepted_room : (bytes_after_last_accept e <= 499)%nat;
  buffer_length : length (string_buffer e) = (bytes_after_last_accept e + if ensure_ascii then 0 else undumped_chars e)%nat;
  buffer_state : state e = 0 /\ undumped_chars e = 0%nat \/
    pending (state e) /\ codepoint_in (state e) (codepoint e) /\ (1 <= undumped_chars e)%nat /\ (undumped_chars e + need (state e) <= 4)%nat }.
Definition out (e : escaping) : list Z := written e ++ string_buffer e.
Definition clean (e : escaping) : Prop := in_buffer e /\ state e = 0.

Lemma put_run bs t e : (length (string_buffer e) + length bs + (if t : bool then 1 else 0) <= 512)%nat ->
  put_buffer bs t e = (Ok tt, mkEscaping (written e) (string_buffer e ++ bs) (bytes_after_last_accept e) (undumped_chars e) (state e) (codepoint e)).
Proof. intros H. unfold put_buffer. rewrite (bind_ok Prelude.get _ _ _ _ eq_refl). unfold string_buffer_size. by rewrite (proj2 (Nat.leb_le _ _) H). Qed.
Definition flushed (e : escaping) : escaping := (flush e).2.
Lemma flush_run e : flush e = (Ok tt, flushed e) /\ out (flushed e) = out e /\ state (flushed e) = state e /\ codepoint (flushed e) = codepoint e /\
  (bytes_after_last_accept (flushed e) <= 499)%nat /\ length (string_buffer (flushed e)) = bytes_after_last_accept (flushed e).
Proof.
  unfold flushed, flush, modify, out. cbn [snd]. destruct (Nat.ltb_spec (string_buffer_size - length (string_buffer e)) 13) as [H|H].
  - cbn. rewrite app_nil_r. split_and!; try done; lia.
  - cbn. unfold string_buffer_size in H. split_and!; try done; lia.
Qed.

Lemma escaped_length c b : (length (escaped ensure_ascii c b).1 + (if (escaped ensure_ascii c b).2 then 1 else 0) <= 13)%nat.
Proof.
  unfold escaped. repeat match goal with |- context [if ?x then _ else _] => destruct x end; cbn; lia.
Qed.

(** The end of a code point. *)
Lemma accept_run b s c e : in_buffer e -> decode (state e) (codepoint e) b = (s, c) -> s = 0 -> (state e <> 0 -> 128 <= c) ->
  exists e', escape_byte b e = (Ok false, e') /\ clean e' /\ out e' = out e ++ (escaped ensure_ascii c b).1.
Proof.
  intros He Ed -> Hc. unfold Serializer.escape_byte. rewrite (bind_ok Prelude.get _ _ _ _ eq_refl), Ed, (bind_ok (set_state _ _) _ _ _ _ eq_refl). cbn [Z.eqb UTF8_ACCEPT].
  set (e1 := mkEscaping _ _ _ _ _ _). destruct (escaped ensure_ascii c b) as [bs t] eqn:Ex.
  assert (length (string_buffer e1) + length bs + (if t then 1 else 0) <= 512)%nat as Hr.
  { cbn [string_buffer e1]. destruct He as [H1 H2 H3]. pose proof (escaped_length c b) as Hl. rewrite Ex in Hl. cbn in Hl. rewrite H2.
    destruct H3 as [[_ Hu]|(Hp & _ & _ & Hu)]; [rewrite Hu; destruct ensure_ascii; lia|].
    destruct ensure_ascii; [lia|]. rewrite escaped_multi in Ex by (apply Hc; unfold pending in Hp; lia). injection Ex as <- <-. cbn. lia. }
  rewrite (bind_ok _ _ _ _ _ (put_run bs t e1 Hr)). set (e2 := mkEscaping _ _ _ _ _ _). destruct (flush_run e2) as (Ef & Eo & Es & Ec & Hb & Hl).
  rewrite (bind_ok _ _ _ _ _ Ef). eexists. split; [reflexivity|]. split; [split; [split|]|].
  - exact Hb.
  - cbn [string_buffer bytes_after_last_accept undumped_chars]. rewrite Hl. destruct ensure_ascii; lia.
  - left. by rewrite Es.
  - exact Es.
  - unfold out in *. cbn [written string_buffer]. rewrite Eo. cbn [written string_buffer e2 e1 fst]. by rewrite app_assoc.
Qed.
(** A byte in the middle of one. *)
Lemma pending_run b s c e : in_buffer e -> decode (state e) (codepoint e) b = (s, c) -> pending s -> codepoint_in s c ->
  (S (undumped_chars e) + need s <= 4)%nat ->
  exists e', escape_byte b e = (Ok false, e') /\ in_buffer e' /\ state e' = s /\ codepoint e' = c /\ out e' = out e ++ (if ensure_ascii then [] else [b]).
Proof.
  intros He Ed Hs Hc Hn. unfold Serializer.escape_byte. rewrite (bind_ok Prelude.get _ _ _ _ eq_refl), Ed, (bind_ok (set_state _ _) _ _ _ _ eq_refl).
  unfold UTF8_ACCEPT, UTF8_REJECT. rewrite (proj2 (Z.eqb_neq s 0)), (proj2 (Z.eqb_neq s 1)) by (unfold pending in Hs; lia).
  set (e1 := mkEscaping _ _ _ _ _ _). destruct He as [H1 H2 H3].
  set (e2 := mkEscaping (written e) (string_buffer e ++ if ensure_ascii then [] else [b]) (bytes_after_last_accept e) (undumped_chars e) s c).
  assert (when (negb ensure_ascii) (put_buffer [b] false) e1 = (Ok tt, e2)) as E2.
  { unfold e2. destruct ensure_ascii; [by rewrite app_nil_r|]. apply (put_run [b] false e1). cbn. lia. }
  rewrite (bind_ok _ _ _ _ _ E2). eexists. split; [reflexivity|]. split_and!; [split|done|done|unfold out; cbn; by rewrite app_assoc].
  - exact H1.
  - cbn. rewrite length_app, H2. destruct ensure_ascii; cbn; lia.
  - right. cbn. split_and!; [done|done|lia|lia].
Qed.
(** A byte that cannot follow. *)
Lemma reject_run b c e : in_buffer e -> decode (state e) (codepoint e) b = (1, c) ->
  (exists e', escape_byte b e = (Ok (0 <? undumped_chars e)%nat, e') /\ in_buffer e' /\ undumped_chars e' = 0%nat /\ error_handler <> strict) \/
  (error_handler = strict /\ exists e', escape_byte b e = (Throw (JsonTypeError 316), e')).
Proof.
  intros He Ed. unfold Serializer.escape_byte. rewrite (bind_ok Prelude.get _ _ _ _ eq_refl), Ed, (bind_ok (set_state _ _) _ _ _ _ eq_refl).
  cbn [Z.eqb UTF8_ACCEPT UTF8_REJECT Pos.eqb]. set (e1 := mkEscaping _ _ _ _ _ _). destruct He as [H1 H2 H3]. unfold rejected.
  set (e2 := mkEscaping (written e) (take (bytes_after_last_accept e) (string_buffer e)) (bytes_after_last_accept e) (undumped_chars e) 1 c).
  assert (length (string_buffer e2) = bytes_after_last_accept e) as Hl by (cbn; rewrite length_take, H2; lia).
  destruct error_handler; [right; by eauto|left..].
  - rewrite (bind_ok Prelude.get _ _ _ _ eq_refl), (bind_ok drop_rejected _ e1 e2 _ eq_refl).
    assert (length (string_buffer e2) + length (replacement ensure_ascii) + 0 <= 512)%nat as Hr by (unfold replacement; destruct ensure_ascii; cbn [length]; lia).
    set (e3 := mkEscaping (written e2) (string_buffer e2 ++ replacement ensure_ascii) (bytes_after_last_accept e2) (undumped_chars e2) (state e2) (codepoint e2)).
    destruct (flush_run e3) as (Ef & _ & Es & _ & Hb & Hl').
    rewrite (bind_ok (put_buffer (replacement ensure_ascii) false ;;; flush) _ e2 (flushed e3) tt) by by rewrite (bind_ok _ _ _ _ _ (put_run _ false e2 Hr)).
    eexists. split_and!; [reflexivity| |done|done]. split; [exact Hb| |by left]. etrans; [exact Hl'|]. cbn [bytes_after_last_accept undumped_chars]. destruct ensure_ascii; lia.
  - rewrite (bind_ok Prelude.get _ _ _ _ eq_refl), (bind_ok drop_rejected _ e1 e2 _ eq_refl).
    eexists. split_and!; [reflexivity| |done|done]. split; [exact H1| |by left]. etrans; [exact Hl|]. cbn. destruct ensure_ascii; lia.
Qed.

(** Every byte keeps the buffer in its bounds. *)
Definition after (e : escaping) (b : Z) : Z := if state e =? 0 then (lead b).1 else next_state (state e) b.
Definition after_codepoint (e : escaping) (b : Z) : Z := if state e =? 0 then (lead b).2 else codepoint e * 64 + (b - 128).
Lemma byte_cases_run b e : in_buffer e -> is_byte_value b ->
  (after e b = 0 /\ exists e', escape_byte b e = (Ok false, e') /\ clean e') \/
  (pending (after e b) /\ exists e', escape_byte b e = (Ok false, e') /\ in_buffer e' /\ state e' = after e b /\ codepoint e' = after_codepoint e b) \/
  (after e b = 1 /\ (exists e', escape_byte b e = (Ok (0 <? undumped_chars e)%nat, e') /\ in_buffer e' /\ undumped_chars e' = 0%nat /\ error_handler <> strict) \/
   error_handler = strict /\ exists e', escape_byte b e = (Throw (JsonTypeError 316), e')).
Proof.
  intros He Hb. destruct (decode (state e) (codepoint e) b) as [s c] eqn:Ed. unfold after, after_codepoint.
  destruct (buffer_state e He) as [[Hs Hu]|(Hp & Hc & Hu1 & Hu)].
  - rewrite Hs in *. destruct (decode_lead (codepoint e) b Hb) as [Ds Dc]. rewrite Ed in Ds, Dc. cbn [fst snd] in *. cbn [Z.eqb].
    destruct (Z.eq_dec s 1) as [->|Hn].
    + right; right. destruct (reject_run b c e He ltac:(by rewrite Hs)) as [?|?]; auto.
    + destruct (lead_in b Hb ltac:(congruence)) as [(L & Hb' & Lc)|(Hb' & L & Lc)]; rewrite <- Ds, <- ?Dc in * by congruence.
      * left. split; [done|]. destruct (accept_run b s c e He ltac:(by rewrite Hs) L ltac:(done)) as (e' & E & Hcl & _). by exists e'.
      * right; left. split; [done|]. destruct (pending_run b s c e He ltac:(by rewrite Hs) L Lc) as (e' & E & Hi & Hs' & Hc' & _); [|by exists e'].
        rewrite Hu. unfold need, pending in *. repeat case_match; lia.
  - rewrite (proj2 (Z.eqb_neq (state e) 0)) by (unfold pending in Hp; lia). pose proof (decode_next (state e) (codepoint e) b Hp Hb) as Ds. rewrite Ed in Ds. cbn [fst] in Ds.
    destruct (Z.eq_dec s 1) as [->|Hn].
    + right; right. destruct (reject_run b c e He Ed) as [?|?]; auto.
    + rewrite <- Ds. destruct (next_in (state e) (codepoint e) b Hc ltac:(congruence)) as [Hr Hx]. rewrite <- Ds in Hx.
      pose proof (decode_codepoint (state e) (codepoint e) b Hp ltac:(apply (next_range (state e)); congruence) Hr) as Dc. rewrite Ed in Dc. cbn [snd] in Dc. rewrite <- Dc in Hx.
      destruct Hx as [(Hs & Hcp & Hne)|(Hs & Hcp & Hne)].
      * left. split; [done|]. destruct (accept_run b s c e He Ed Hs ltac:(lia)) as (e' & E & Hcl & _). by exists e'.
      * right; left. split; [done|]. destruct (pending_run b s c e He Ed Hs Hcp) as (e' & E & Hi & Hs' & Hc' & _); [lia|]. exists e'. split_and!; congruence.
Qed.

Lemma escape_loop_bounded n : forall l e, in_buffer e -> Forall is_byte_value l ->
  (2 * length l <= n + if (undumped_chars e =? 0)%nat then 1 else 0)%nat ->
  (exists e', escape_loop n l e = (Ok tt, e') /\ in_buffer e') \/ (error_handler = strict /\ exists e', escape_loop n l e = (Throw (JsonTypeError 316), e')).
Proof.
  induction n as [|n IH]; intros l e He Hl Hn; (destruct l as [|b l]; [left; by exists e|]).
  { cbn in Hn. case_match; lia. }
  cbn [Serializer.escape_loop]. inversion Hl as [|? ? Hb Hl']; subst. cbn [length] in Hn.
  assert (forall e', in_buffer e' -> (exists e'', escape_loop n l e' = (Ok tt, e'') /\ in_buffer e'') \/ (error_handler = strict /\ exists e'', escape_loop n l e' = (Throw (JsonTypeError 316), e''))) as Hnext.
  { intros e' He'. apply IH; [done|done|]. repeat case_match; lia. }
  destruct (byte_cases_run b e He Hb) as [(_ & e' & E & [Hi _])|[(_ & e' & E & Hi & _)|[(_ & e' & E & Hi & Hu & _)|(Hs & e' & E)]]].
  - rewrite (bind_ok _ _ _ _ _ E). by apply Hnext.
  - rewrite (bind_ok _ _ _ _ _ E). by apply Hnext.
  - rewrite (bind_ok _ _ _ _ _ E). destruct (Nat.ltb_spec 0 (undumped_chars e)) as [Hd|Hd]; [|by apply Hnext].
    apply IH; [done|done|]. rewrite Hu. cbn [length Nat.eqb]. destruct (Nat.eqb_spec (undumped_chars e) 0); lia.
  - right. split; [done|]. exists e'. unfold bind. by rewrite E.
Qed.

(** A code point that has begun, to its end. *)
Lemma chain_run s c bs cp : leads s c bs cp -> forall e n r, in_buffer e -> state e = s -> codepoint e = c -> pending s -> Forall is_byte_value bs ->
  128 <= cp /\ exists e', escape_loop (length bs + n) (bs ++ r) e = escape_loop n r e' /\ clean e' /\
    out e' = out e ++ if ensure_ascii then unicode_text cp else bs.
Proof.
  induction 1 as [s c b Hn|s c b bs cp H0 H1 Hl IH]; intros e n r He Es Ec Hp Hb; inversion Hb as [|? ? Hb1 Hb2]; subst; cbn [length Nat.add app Serializer.escape_loop].
  all: destruct (buffer_state e He) as [[Hs Hu]|(_ & Hc & Hu1 & Hu)]; [unfold pending in Hp; lia|].
  all: destruct (next_in (state e) (codepoint e) b Hc ltac:(lia)) as [Hr Hx].
  all: pose proof (decode_codepoint (state e) (codepoint e) b Hp ltac:(apply (next_range (state e)); lia) Hr) as Dc.
  all: pose proof (decode_next (state e) (codepoint e) b Hp Hb1) as Ds.
  all: destruct (decode (state e) (codepoint e) b) as [s' c'] eqn:Ed; cbn [fst snd] in Ds, Dc.
  - destruct Hx as [(_ & Hcp & _)|(Hs & _)]; [|unfold pending in Hs; lia]. split; [lia|].
    destruct (accept_run b s' c' e He Ed ltac:(congruence) ltac:(lia)) as (e' & E & Hcl & Ho). exists e'. split_and!; [by rewrite (bind_ok _ _ _ _ _ E)|done|].
    rewrite Ho. f_equal. rewrite <- Dc. destruct ensure_ascii; [by rewrite escaped_unicode by lia|by rewrite escaped_multi by lia].
  - destruct Hx as [(? & _)|(Hs & Hcp & Hne)]; [done|].
    destruct (pending_run b s' c' e He Ed ltac:(congruence) ltac:(congruence) ltac:(rewrite Ds; lia)) as (e1 & E & Hi & Es1 & Ec1 & Ho1).
    destruct (IH e1 n r Hi ltac:(congruence) ltac:(congruence) Hs Hb2) as (Hcp' & e' & E' & Hcl & Ho). split; [done|]. exists e'.
    split_and!; [by rewrite (bind_ok _ _ _ _ _ E)|done|]. rewrite Ho, Ho1, <- app_assoc. f_equal. by destruct ensure_ascii.
Qed.
(** Without another handler, a loop that comes to an end has read whole code
    points, but for the last one. *)
Lemma chain_inv n : forall l e e', error_handler = strict -> in_buffer e -> pending (state e) -> Forall is_byte_value l -> escape_loop n l e = (Ok tt, e') ->
  state e' = 0 -> exists bs r cp n' e1, l = bs ++ r /\ leads (state e) (codepoint e) bs cp /\ (n' < n)%nat /\ clean e1 /\ escape_loop n' r e1 = (Ok tt, e').
Proof.
  induction n as [|n IH]; intros l e e' Hh He Hp Hl E Es; (destruct l as [|b l]; [injection E as <-; unfold pending in Hp; lia|]); [done|].
  cbn [Serializer.escape_loop] in E. apply Forall_cons in Hl as [Hb Hl']. pose proof (byte_cases_run b e He Hb) as Hc. unfold after, after_codepoint in Hc.
  rewrite (proj2 (Z.eqb_neq (state e) 0)) in Hc by (unfold pending in Hp; lia).
  destruct Hc as [(Hn & e1 & E1 & Hcl)|[(Hn & e1 & E1 & Hi & Hs1 & Hc1)|[(_ & e1 & _ & _ & _ & Hne)|(_ & e1 & E1)]]]; [| |done|unfold bind in E; by rewrite E1 in E].
  - rewrite (bind_ok _ _ _ _ _ E1) in E. exists [b], l, (codepoint e * 64 + (b - 128)), n, e1. split_and!; [done|by constructor|lia|done|done].
  - rewrite (bind_ok _ _ _ _ _ E1) in E. destruct (IH l e1 e' ltac:(done) Hi ltac:(by rewrite Hs1) Hl' E Es) as (bs & r & cp & n' & e2 & -> & Hld & Hlt & Hcl & E2).
    exists (b :: bs), r, cp, n', e2. split_and!; [done| |lia|done|done]. apply leads_more; [unfold pending in Hn; lia|unfold pending in Hn; lia|].
    by rewrite <- Hs1, <- Hc1.
Qed.

(** Valid text is escaped to a text that spells it. *)
Lemma ascii_run c e : clean e -> 0 <= c < 128 ->
  exists e', escape_byte c e = (Ok false, e') /\ clean e' /\ out e' = out e ++ (escaped ensure_ascii c c).1.
Proof.
  intros [He Hs] Hc. destruct (decode_lead (codepoint e) c) as [D1 D2]; [unfold is_byte_value; lia|]. rewrite lead_ascii in D1, D2 by lia.
  apply (accept_run c 0 c); [done| |done|by rewrite Hs]. rewrite Hs. rewrite (surjective_pairing (decode 0 _ c)), D1. cbn [fst] in *. by rewrite D2.
Qed.
Lemma multi_run c bs e n r : clean e -> 128 <= c < 256 -> multi c bs -> Forall is_byte_value bs ->
  exists t e', piece (c :: bs) t /\ escape_loop (length (c :: bs) + n) ((c :: bs) ++ r) e = escape_loop n r e' /\ clean e' /\ out e' = out e ++ t.
Proof.
  intros [He Hs] Hc Hm Hb. destruct (multi_leads c bs Hc Hm) as (Hp & cp & Hl & Hu & Hcp & Hns).
  assert (is_byte_value c) as Hbc by (unfold is_byte_value; lia).
  destruct (lead_in c) as [(H0 & _)|(_ & _ & Hin)]; [done|unfold pending in Hp; lia|unfold pending in Hp; lia|].
  destruct (decode_lead (codepoint e) c) as [D1 D2]; [done|]. specialize (D2 ltac:(unfold pending in Hp; lia)).
  destruct (buffer_state e He) as [[_ Hu0]|[Hpe _]]; [|unfold pending in Hpe; lia].
  destruct (pending_run c (lead c).1 (lead c).2 e He) as (e1 & E1 & H1 & S1 & C1 & O1); [|done|done| |].
  { rewrite Hs, <- D1, <- D2. apply surjective_pairing. }
  { rewrite Hu0. unfold need, pending in *. repeat case_match; lia. }
  destruct (chain_run _ _ bs cp Hl e1 n r H1 S1 C1 Hp Hb) as (Hcp1 & e2 & E2 & Hcl & O2).
  exists (if ensure_ascii then unicode_text cp else c :: bs), e2. cbn [length Nat.add app Serializer.escape_loop]. split_and!.
  - destruct ensure_ascii; [rewrite <- Hu; by apply unicode_piece|]. apply multi_ranges in Hm as (ranges & Hr & Hf); [|done]. by eapply piece_multi; [lia|..].
  - by rewrite (bind_ok _ _ _ _ _ E1).
  - done.
  - rewrite O2, O1, <- app_assoc. f_equal. by destruct ensure_ascii.
Qed.
Lemma ranges_bytes ranges bs : Forall2 (fun p b => between p.1 p.2 b = true) ranges bs -> (exists c, ranges_after c = Some ranges) -> Forall is_byte_value bs.
Proof.
  intros Hf [c Hc]. assert (Forall (fun p => 0 <= p.1 /\ p.2 < 256) ranges) as Hr.
  { unfold ranges_after in Hc. repeat case_match; simplify_eq; repeat constructor; cbn; lia. }
  clear Hc. induction Hf as [|p b ps bs Hb _ IH]; [done|]. inversion Hr; subst. constructor; [|by apply IH]. apply between_spec in Hb. unfold is_byte_value. lia.
Qed.
Lemma valid_run l : valid_utf8 l -> forall e n, clean e ->
  exists t e', spelled l t /\ escape_loop (length l + n) l e = (Ok tt, e') /\ clean e' /\ out e' = out e ++ t.
Proof.
  induction 1 as [|c r Hc Hv IH|c ranges bs r Hc Hr Hf Hv IH]; intros e n He.
  - exists [], e. split_and!; [constructor|by destruct n|done|by rewrite app_nil_r].
  - destruct (ascii_run c e He Hc) as (e1 & E1 & H1 & O1). destruct (IH e1 n H1) as (t & e2 & Ht & E2 & H2 & O2).
    exists ((escaped ensure_ascii c c).1 ++ t), e2. split_and!; [apply (spelled_piece [c]); [by apply ascii_piece|done]| |done|by rewrite O2, O1, app_assoc].
    cbn [length Nat.add Serializer.escape_loop]. by rewrite (bind_ok _ _ _ _ _ E1).
  - destruct (multi_run c bs e (length r + n) r He Hc) as (t1 & e1 & Hp & E1 & H1 & O1); [apply multi_ranges; eauto|by eapply ranges_bytes; eauto|].
    destruct (IH e1 n H1) as (t & e2 & Ht & E2 & H2 & O2). exists (t1 ++ t), e2.
    split_and!; [by apply (spelled_piece (c :: bs))| |done|by rewrite O2, O1, app_assoc].
    cbn [app] in E1. replace (length (c :: bs ++ r) + n)%nat with (length (c :: bs) + (length r + n))%nat by (cbn; rewrite length_app; lia). by rewrite E1.
Qed.
(** Only valid text is escaped to the end without another handler. *)
Lemma strict_valid n : error_handler = strict -> forall l e e', clean e -> Forall is_byte_value l -> escape_loop n l e = (Ok tt, e') -> state e' = 0 -> valid_utf8 l.
Proof.
  intros Hh. induction n as [n IH] using lt_wf_ind. intros l e e' [He Hs] Hl E Es. destruct l as [|b l]; [constructor|].
  destruct n as [|n]; [done|]. cbn [Serializer.escape_loop] in E. apply Forall_cons in Hl as [Hb Hl'].
  pose proof (byte_cases_run b e He Hb) as Hc. unfold after, after_codepoint in Hc. rewrite Hs in Hc. cbn [Z.eqb] in Hc.
  destruct Hc as [(Hn & e1 & E1 & Hcl)|[(Hn & e1 & E1 & Hi & Hs1 & Hc1)|[(_ & e1 & _ & _ & _ & Hne)|(_ & e1 & E1)]]]; [| |done|unfold bind in E; by rewrite E1 in E];
    rewrite (bind_ok _ _ _ _ _ E1) in E; (destruct (lead_in b Hb) as [(H0 & Hb' & _)|(Hb' & Hp & _)]; [unfold pending in *; lia| |]).
  - apply valid_ascii; [unfold is_byte_value in Hb; lia|]. by apply (IH n ltac:(lia) l e1 e').
  - unfold pending in Hp. lia.
  - unfold pending in Hn. lia.
  - destruct (chain_inv n l e1 e' Hh Hi ltac:(by rewrite Hs1) Hl' E Es) as (bs & r & cp & n' & e2 & -> & Hld & Hlt & Hcl & E2). rewrite Hs1, Hc1 in Hld.
    apply Forall_app in Hl' as [_ Hr]. apply leads_multi in Hld; [|unfold is_byte_value in Hb; lia|done].
    apply multi_ranges in Hld as (ranges & Hra & Hf); [|unfold is_byte_value in Hb; lia].
    apply (valid_multi b ranges); [unfold is_byte_value in Hb; lia|done|done|]. apply (IH n' ltac:(lia) r e2 e'); done.
Qed.
End escape.

Definition start (s : serializer) : escaping := mkEscaping (o s) [] 0 0 UTF8_ACCEPT 0.
Lemma start_clean ensure_ascii s : clean ensure_ascii (start s).
Proof. split; [split; [cbn; lia|by destruct ensure_ascii|by left]|done]. Qed.
Lemma escape_end_run error_handler ensure_ascii e : state e = 0 ->
  exists e', escape_end error_handler ensure_ascii e = (Ok tt, e') /\ written e' = out e.
Proof. intros Hs. unfold escape_end. rewrite (bind_ok Prelude.get _ _ _ _ eq_refl), Hs. by eexists. Qed.

Lemma dump_escaped_run error_handler ensure_ascii text s : valid_utf8 text ->
  exists t, spelled text t /\ dump_escaped error_handler ensure_ascii text s = (Ok tt, mkSerializer (o s ++ t) (indent_string s)).
Proof.
  intros Hv. destruct (valid_run error_handler ensure_ascii text Hv (start s) (length text) (start_clean ensure_ascii s)) as (t & e & Ht & E & [_ Hs] & Ho).
  destruct (escape_end_run error_handler ensure_ascii e Hs) as (e' & E' & Hw). exists t. split; [done|]. unfold dump_escaped. fold (start s).
  replace (2 * length text)%nat with (length text + length text)%nat by lia. rewrite (bind_ok _ _ _ _ _ E), E', Hw, Ho. unfold out. cbn. by rewrite app_nil_r.
Qed.

(** C24: [dump_escaped] writes inside of its buffer of 512 bytes and comes to an
    end for all bytes, with every handler of errors, and with and without
    escapes for all but ASCII.  It throws only with the strict handler, and then
    exactly for what is not UTF-8. *)
Theorem escaping_in_bounds error_handler ensure_ascii text s :
  match (dump_escaped error_handler ensure_ascii (bytes_of text) s).1 with
  | Ok _ => error_handler = strict -> valid_utf8 (bytes_of text)
  | Throw e => error_handler = strict /\ e = JsonTypeError 316 /\ ~ valid_utf8 (bytes_of text)
  | Undef => False
  end.
Proof.
  set (bs := bytes_of text). pose proof (bytes_of_range text) as Hb. fold bs in Hb. pose proof (start_clean ensure_ascii s) as Hc.
  assert (forall e s', dump_escaped error_handler ensure_ascii bs s = (Throw e, s') -> ~ valid_utf8 bs) as Hnv.
  { intros e s' E Hv. destruct (dump_escaped_run error_handler ensure_ascii bs s Hv) as (t & _ & E'). by rewrite E' in E. }
  unfold dump_escaped in *. fold (start s) in *.
  destruct (escape_loop_bounded error_handler ensure_ascii (2 * length bs) bs (start s)) as [(e1 & E1 & H1)|(Hh & e1 & E1)]; [apply Hc|exact Hb|cbn; lia| |].
  - rewrite (bind_ok _ _ _ _ _ E1) in *. destruct (Z.eq_dec (state e1) 0) as [Hs|Hs].
    + destruct (escape_end_run error_handler ensure_ascii e1 Hs) as (e2 & E2 & _). rewrite E2. cbn [fst]. intros Hh.
      by apply (strict_valid error_handler ensure_ascii (2 * length bs) Hh bs (start s) e1).
    + unfold escape_end in *. rewrite (bind_ok Prelude.get _ _ _ _ eq_refl) in *. rewrite (proj2 (Z.eqb_neq (state e1) UTF8_ACCEPT)) in * by done.
      destruct error_handler; [|done|done]. cbn [fst]. split_and!; [done|done|by eapply Hnv].
  - rewrite (bind_throw _ _ _ _ _ E1) in *. cbn [fst]. split_and!; [done|done|by eapply Hnv].
Qed.
