(* ===== verification/GrisuSpec.v ===== *)
(** * The shortest decimals

    The arithmetic of Grisu.v does not wrap around, its assertions hold, and
    the decimal it finds lies strictly between the midpoints to the neighbours
    of the double. *)

From stdpp Require Import base list tactics.
From Stdlib Require Import ZArith Lia Reals Lra SpecFloat.
From S2P Require Import Prelude Rounding Grisu JsonText JsonReadSpec JsonWriteSpec.
Import Lexer dtoa_impl.
Open Scope Z_scope.

(** ** [diyfp] *)

Lemma low_half x : 0 <= x -> Z.land x 0xFFFFFFFF = x mod 2 ^ 32.
Proof. intros Hx. change 0xFFFFFFFF with (Z.ones 32). by apply Z.land_ones. Qed.
Lemma high_half x : Z.shiftr x 32 = x / 2 ^ 32.
Proof. by apply Z.shiftr_div_pow2. Qed.
Lemma halves x : 0 <= x < 2 ^ 64 -> x = x / 2 ^ 32 * 2 ^ 32 + x mod 2 ^ 32 /\ 0 <= x / 2 ^ 32 < 2 ^ 32 /\ 0 <= x mod 2 ^ 32 < 2 ^ 32.
Proof.
  intros Hx. pose proof (Z.div_mod x (2 ^ 32) ltac:(lia)). pose proof (Z.mod_pos_bound x (2 ^ 32) ltac:(lia)).
  split; [lia|]. split; [|done]. split; [apply Z.div_pos; lia|apply Z.div_lt_upper_bound; lia].
Qed.
Lemma half_product a b : 0 <= a < 2 ^ 32 -> 0 <= b < 2 ^ 32 -> 0 <= a * b <= (2 ^ 32 - 1) * (2 ^ 32 - 1).
Proof. intros Ha Hb. split; [lia|]. apply Z.mul_le_mono_nonneg; lia. Qed.

(** The product is rounded to the nearest. *)
Lemma mul_spec x y : 0 <= df x < 2 ^ 64 -> 0 <= df y < 2 ^ 64 ->
  mul x y = mkDiyfp ((df x * df y + 2 ^ 63) / 2 ^ 64) (de x + de y + 64).
Proof.
  destruct x as [x ex], y as [y ey]. cbn [df de]. intros Hx Hy. unfold mul. cbn [df de]. f_equal.
  rewrite !high_half, !(low_half x), !(low_half y) by lia.
  destruct (halves x Hx) as (Ex & Hxh & Hxl), (halves y Hy) as (Ey & Hyh & Hyl).
  set (a := x / 2 ^ 32) in *. set (b := x mod 2 ^ 32) in *. set (c := y / 2 ^ 32) in *. set (d := y mod 2 ^ 32) in *. clearbody a b c d.
  pose proof (half_product b d Hxl Hyl). pose proof (half_product b c Hxl Hyh). pose proof (half_product a d Hxh Hyl). pose proof (half_product a c Hxh Hyh).
  rewrite !(wrap_u_small 64 (b * d)), !(wrap_u_small 64 (b * c)), !(wrap_u_small 64 (a * d)), !(wrap_u_small 64 (a * c)) by lia.
  rewrite !low_half by lia.
  destruct (halves (b * d)) as (E0 & H0h & H0l); [lia|]. destruct (halves (b * c)) as (E1 & H1h & H1l); [lia|]. destruct (halves (a * d)) as (E2 & H2h & H2l); [lia|].
  assert (Exy : x * y = a * c * 2 ^ 64 + (b * c + a * d) * 2 ^ 32 + b * d) by (rewrite Ex, Ey; ring).
  set (p0h := b * d / 2 ^ 32) in *. set (p1h := b * c / 2 ^ 32) in *. set (p2h := a * d / 2 ^ 32) in *.
  set (p0l := (b * d) mod 2 ^ 32) in *. set (p1l := (b * c) mod 2 ^ 32) in *. set (p2l := (a * d) mod 2 ^ 32) in *.
  clearbody p0h p1h p2h p0l p1l p2l. change (Z.shiftl 1 (64 - 32 - 1)) with (2 ^ 31).
  rewrite (wrap_u_small 64 (p0h + p1l + p2l)) by lia. rewrite (wrap_u_small 64 (p0h + p1l + p2l + 2 ^ 31)) by lia.
  destruct (halves (p0h + p1l + p2l + 2 ^ 31)) as (EQ & HQh & HQl); [lia|].
  set (Qh := (p0h + p1l + p2l + 2 ^ 31) / 2 ^ 32) in *. set (Ql := (p0h + p1l + p2l + 2 ^ 31) mod 2 ^ 32) in *. clearbody Qh Ql.
  assert (Hs : x * y + 2 ^ 63 = (a * c + p2h + p1h + Qh) * 2 ^ 64 + (Ql * 2 ^ 32 + p0l)) by (rewrite Exy, E0, E1, E2; lia).
  assert (Hlt : x * y + 2 ^ 63 < 2 ^ 128) by nia.
  rewrite wrap_u_small by lia. apply (Z.div_unique _ _ _ (Ql * 2 ^ 32 + p0l)); lia.
Qed.

Lemma normalize_loop_spec fuel f e s : 0 < f < 2 ^ 64 -> Z.log2 f + s = 63 -> s <= Z.of_nat fuel ->
  normalize_loop fuel (mkDiyfp f e) = Ok (mkDiyfp (f * 2 ^ s) (e - s)).
Proof.
  revert f e s. induction fuel as [|fuel IH]; intros f e s Hf Hs Hfuel; cbn [normalize_loop df de].
  all: pose proof (Z.log2_spec f ltac:(lia)) as [Hl Hu]; rewrite Z.shiftr_div_pow2 by lia.
  all: assert (Hle : Z.log2 f <= 63) by (enough (Z.log2 f < 64) by lia; apply Z.log2_lt_pow2; lia).
  all: destruct (Z.eq_dec s 0) as [->|Hs0]; [rewrite Z.add_0_r in Hs; rewrite Hs in Hl; rewrite (proj2 (Z.eqb_neq _ _)), Z.mul_1_r, Z.sub_0_r;
    [done|pose proof (Z.div_le_lower_bound f (2 ^ 63) 1); lia]|].
  { lia. }
  assert (Hlt : f < 2 ^ 63) by (apply Z.log2_lt_cancel; rewrite Z.log2_pow2; lia). rewrite Z.div_small by lia. cbn [Z.eqb].
  rewrite Z.shiftl_mul_pow2, wrap_u_small by lia. rewrite (IH _ _ (s - 1)); [|lia|rewrite Z.log2_mul_pow2; lia|lia].
  f_equal. f_equal; [|lia]. replace s with (1 + (s - 1)) at 2 by lia. rewrite Z.pow_add_r by lia. lia.
Qed.
Lemma normalize_spec f e s : 0 < f < 2 ^ 64 -> Z.log2 f + s = 63 -> normalize (mkDiyfp f e) = Ok (mkDiyfp (f * 2 ^ s) (e - s)).
Proof.
  intros Hf Hs. unfold normalize. cbn [df]. rewrite (proj2 (Z.eqb_neq f 0)) by lia. cbn [negb holds obind].
  apply normalize_loop_spec; [done..|]. pose proof (Z.log2_nonneg f). lia.
Qed.
Lemma normalize_to_spec f e s : 0 <= f -> 0 <= s -> f * 2 ^ s < 2 ^ 64 -> normalize_to (mkDiyfp f e) (e - s) = Ok (mkDiyfp (f * 2 ^ s) (e - s)).
Proof.
  intros Hf Hs Hlt. unfold normalize_to. cbn [df de]. replace (e - (e - s)) with s by lia. pose proof (Z.pow_pos_nonneg 2 s ltac:(lia) Hs).
  rewrite (proj2 (Z.leb_le 0 s)) by done. rewrite Z.shiftl_mul_pow2, wrap_u_small, Z.shiftr_div_pow2, Z.div_mul, Z.eqb_refl by lia. done.
Qed.

(** ** Boundaries *)

(** The boundaries of a double, shifted by [s]: the one below is at a quarter
    of a unit where the neighbour is nearer. *)
Record shifted (m e s : Z) (b : boundaries) : Prop := {
  shifted_w : w b = mkDiyfp (m * 2 ^ s) (e - s);
  shifted_plus : plus b = mkDiyfp ((2 * m + 1) * 2 ^ (s - 1)) (e - s);
  shifted_minus : minus b = mkDiyfp (low m e * 2 ^ (s - 2)) (e - s);
}.

Lemma bits_spec m e : canonical (Zpos m) e ->
  let bits := reinterpret_bits (S754_finite false m e) in
  Z.shiftr bits 52 = (if Zpos m <? 2 ^ 52 then 0 else e + 1075) /\ Z.land bits (2 ^ 52 - 1) = (if Zpos m <? 2 ^ 52 then Zpos m else Zpos m - 2 ^ 52).
Proof.
  intros Hc. cbn [reinterpret_bits]. change (2 ^ 52 - 1) with (Z.ones 52). rewrite Z.shiftr_div_pow2, Z.land_ones, Z.add_0_l by lia.
  destruct (Z.ltb_spec (Zpos m) (2 ^ 52)) as [Hlt|Hge].
  - rewrite Z.div_small, Z.mod_small by lia. done.
  - destruct Hc as [[Hm He]|[Hm He]]; [|lia]. rewrite Z.add_comm, Z.div_add, Z.mod_add, Z.div_small, Z.mod_small by lia. lia.
Qed.

Lemma canonical_below m e : canonical m e -> 0 < m < 2 ^ 53.
Proof. intros [[??]|[??]]; lia. Qed.
Lemma shift_bounds m s : 0 < m < 2 ^ 53 -> Z.log2 m + s = 63 -> 11 <= s /\ 2 ^ 63 <= m * 2 ^ s /\ (2 * m + 1) * 2 ^ (s - 1) < 2 ^ 64.
Proof.
  intros Hm Hs. pose proof (Z.log2_spec m ltac:(lia)) as [Hl Hu]. assert (Hlt : Z.log2 m < 53) by (apply Z.log2_lt_pow2; lia).
  split; [lia|]. pose proof (Z.pow_pos_nonneg 2 (s - 1) ltac:(lia) ltac:(lia)) as Hp. split.
  - replace 63 with (Z.log2 m + s) by lia. rewrite Z.pow_add_r by (pose proof (Z.log2_nonneg m); lia).
    apply Z.mul_le_mono_nonneg_r; [|done]. apply Z.pow_nonneg. lia.
  - replace 64 with (Z.succ (Z.log2 m) + 1 + (s - 1)) by lia. rewrite !Z.pow_add_r by (pose proof (Z.log2_nonneg m); lia). nia.
Qed.

Lemma compute_boundaries_spec m e s : canonical (Zpos m) e -> Z.log2 (Zpos m) + s = 63 -> exists b,
  compute_boundaries (S754_finite false m e) = Ok b /\ shifted (Zpos m) e s b.
Proof.
  intros Hc Hs. destruct (bits_spec m e Hc) as [HE HF]. unfold compute_boundaries. cbn [holds obind].
  change (kPrecision - 1) with 52. change (kHiddenBit - 1) with (2 ^ 52 - 1). change kHiddenBit with (2 ^ 52). change kMinExp with (-1074). change kBias with 1075.
  rewrite HE, HF. clear HE HF. pose proof (canonical_below _ _ Hc) as Hm. set (E := if Zpos m <? 2 ^ 52 then 0 else e + 1075). set (F := if Zpos m <? 2 ^ 52 then Zpos m else _).
  replace (if E =? 0 then mkDiyfp F (-1074) else _) with (mkDiyfp (Zpos m) e).
  2: { subst E F. destruct Hc as [[Hm' He]|[Hm' He]].
    - rewrite (proj2 (Z.ltb_ge _ _)) by lia. rewrite (proj2 (Z.eqb_neq _ 0)), wrap_u_small by lia. f_equal; lia.
    - rewrite (proj2 (Z.ltb_lt _ _)) by lia. by rewrite He. }
  replace ((F =? 0) && (1 <? E)) with ((Zpos m =? 2 ^ 52) && (-1074 <? e)).
  2: { subst E F. destruct Hc as [[Hm' He]|[Hm' He]].
    - rewrite (proj2 (Z.ltb_ge (Zpos m) (2 ^ 52))) by lia. f_equal; [|destruct (Z.ltb_spec (-1074) e), (Z.ltb_spec 1 (e + 1075)); lia].
      destruct (Z.eqb_spec (Zpos m) (2 ^ 52)), (Z.eqb_spec (Zpos m - 2 ^ 52) 0); lia.
    - rewrite (proj2 (Z.ltb_lt (Zpos m) (2 ^ 52))), (proj2 (Z.eqb_neq (Zpos m) (2 ^ 52))), (proj2 (Z.eqb_neq (Zpos m) 0)) by lia. done. }
  clearbody E F. clear E F. cbn [df de]. set (M := Zpos m) in *. clearbody M. destruct (shift_bounds M s Hm Hs) as (Hs11 & Hlo & Hhi).
  rewrite !(wrap_u_small 64) by lia. rewrite (normalize_spec (2 * M + 1) (e - 1) (s - 1)) by (try rewrite Z.log2_succ_double; lia). cbn [obind de].
  replace (e - 1 - (s - 1)) with (e - s) by lia. rewrite (normalize_spec M e s) by lia.
  assert (Hp : 2 ^ (s - 1) = 2 * 2 ^ (s - 2)) by (replace (s - 1) with (1 + (s - 2)) by lia; by rewrite Z.pow_add_r by lia).
  assert (Hminus : normalize_to (if (M =? 2 ^ 52) && (-1074 <? e) then mkDiyfp (4 * M - 1) (e - 2) else mkDiyfp (2 * M - 1) (e - 1)) (e - s)
    = Ok (mkDiyfp (low M e * 2 ^ (s - 2)) (e - s))).
  { unfold low. pose proof (Z.pow_pos_nonneg 2 (s - 2) ltac:(lia) ltac:(lia)). destruct (_ && _).
    - replace (e - s) with (e - 2 - (s - 2)) by lia. apply normalize_to_spec; lia.
    - replace (e - s) with (e - 1 - (s - 1)) by lia. rewrite normalize_to_spec by lia. f_equal. f_equal. lia. }
  rewrite Hminus. cbn [obind]. eexists. split; [reflexivity|]. done.
Qed.

(** ** The table *)

(** Half a unit from the power of ten. *)
Record accurate (c : cached_power) : Prop := {
  accurate_norm : 2 ^ 63 <= cf c < 2 ^ 64;
  accurate_range : -300 <= ck c <= 324;
  accurate_low : (IZR (2 * cf c - 1) * pw 2 (ce c) <= 2 * pw 10 (ck c))%R;
  accurate_high : (2 * pw 10 (ck c) <= IZR (2 * cf c + 1) * pw 2 (ce c))%R;
}.

(** The rows from that of [10 ^ k] on, with [p] for [10 ^ (k + 300)]. *)
Fixpoint table_ok (unit k p : Z) (l : list cached_power) : bool :=
  match l with
  | [] => true
  | c :: l =>
    let g := Z.min (ce c) 0 in
    (ck c =? k) && (k <=? 324) && (2 ^ 63 <=? cf c) && (cf c <? 2 ^ 64) &&
    ((2 * cf c - 1) * unit * 2 ^ (ce c - g) <=? 2 * p * 2 ^ (0 - g)) &&
    (2 * p * 2 ^ (0 - g) <=? (2 * cf c + 1) * unit * 2 ^ (ce c - g)) &&
    table_ok unit (k + 8) (p * 10 ^ 8) l
  end.

Lemma pw_le_Z a j b k g : g <= j -> g <= k -> a * 2 ^ (j - g) <= b * 2 ^ (k - g) -> (IZR a * pw 2 j <= IZR b * pw 2 k)%R.
Proof. intros Hj Hk Hle. apply Rnot_lt_le. intros Hlt. apply (pw_lt_Z _ _ _ _ g) in Hlt; lia. Qed.

Lemma table_ok_accurate l k p : -300 <= k -> p = 10 ^ (k + 300) -> table_ok (10 ^ 300) k p l = true -> Forall accurate l.
Proof.
  intros Hk Hp. revert k p Hk Hp. induction l as [|c l IH]; intros k p Hk Hp Hok; [done|]. cbn [table_ok] in Hok. cbn zeta in Hok.
  rewrite !andb_true_iff, !Z.leb_le, Z.eqb_eq, Z.ltb_lt in Hok. destruct Hok as ((((((Ek & Hmax) & Hlo) & Hhi) & Hl) & Hu) & Hok).
  constructor; [|apply (IH (k + 8) (p * 10 ^ 8)); [lia| |done]].
  2: { rewrite Hp, <- Z.pow_add_r by lia. f_equal. lia. }
  apply (pw_le_Z _ _ (2 * p) 0) in Hl; [|lia..]. apply (pw_le_Z (2 * p) 0) in Hu; [|lia..].
  rewrite !mult_IZR, Hp, <- !pw_nonneg, pw_add, pw_0, Rmult_1_r in Hl, Hu by lia.
  pose proof (pw_pos 10 300 ltac:(lia)) as Hpos. split; [lia|lia| |]; rewrite Ek; apply (Rmult_le_reg_l (pw 10 300)); try done; lra.
Qed.

Lemma table_accurate : Forall accurate kCachedPowers.
Proof. apply (table_ok_accurate _ (-300) 1); [done|done|]. vm_compute. reflexivity. Qed.

(** Every exponent of a normalized boundary has its row. *)
Definition cached_ok (e : Z) : bool := match get_cached_power_for_binary_exponent e with Ok _ => true | _ => false end.
Fixpoint range_ok (n : nat) (e : Z) : bool := match n with O => true | S n => cached_ok e && range_ok n (e + 1) end.
Lemma range_ok_spec n e i : range_ok n e = true -> e <= i < e + Z.of_nat n -> cached_ok i = true.
Proof.
  revert e. induction n as [|n IH]; intros e Hok Hi; [lia|]. cbn [range_ok] in Hok. apply andb_true_iff in Hok as [He Hok].
  destruct (Z.eq_dec i e) as [->|]; [done|]. apply (IH (e + 1)); [done|lia].
Qed.

Lemma holds_ok b r : holds b = Ok r -> b = true.
Proof. by destruct b. Qed.

Lemma cached_spec e : -1137 <= e <= 960 -> exists c,
  get_cached_power_for_binary_exponent e = Ok c /\ accurate c /\ -60 <= ce c + e + 64 <= -32.
Proof.
  intros He. assert (Hok : cached_ok e = true) by (apply (range_ok_spec 2098 (-1137)); [vm_compute; reflexivity|lia]).
  unfold cached_ok in Hok. destruct (get_cached_power_for_binary_exponent e) as [c| |] eqn:Ec; [|done..]. exists c. split; [done|].
  unfold get_cached_power_for_binary_exponent in Ec. cbv zeta in Ec.
  repeat (match type of Ec with obind (holds ?b) _ = _ => destruct b eqn:?; cbn [holds obind] in Ec; [|done] end).
  destruct (kCachedPowers !! _) as [c'|] eqn:El; [|done].
  repeat (match type of Ec with obind (holds ?b) _ = _ => destruct b eqn:?; cbn [holds obind] in Ec; [|done] end).
  injection Ec as ->. split; [|unfold kAlpha, kGamma in *; lia]. apply (Forall_lookup_1 _ _ _ _ table_accurate El).
Qed.

(** ** Digits *)

Lemma digit_char d : 0 <= d <= 9 -> is_digit (48 + d) = true.
Proof. intros Hd. unfold is_digit, between. lia. Qed.

(** A number without leading zeros. *)
Definition leading (buf : list Z) : Prop := exists c r, buf = c :: r /\ c <> 48.
Lemma leading_last front d : digits front -> front = [] \/ leading front -> 1 <= d <= 9 -> digits (front ++ [48 + d]) /\ leading (front ++ [48 + d]).
Proof.
  intros Hf Hl Hd. split.
  - apply Forall_app. split; [done|]. apply Forall_singleton, digit_char. lia.
  - destruct Hl as [->|(c & r & -> & Hc)]; [exists (48 + d), []|exists c, (r ++ [48 + d])]; split; [done|lia|done|done].
Qed.
Lemma digits_value_snoc front d : digits_value (front ++ [48 + d]) = digits_value front * 10 + d.
Proof. rewrite digits_value_app. change (digits_value [48 + d]) with (10 * 0 + (48 + d - 48)). cbn [length Z.of_nat]. lia. Qed.

Lemma decrement_last_app front c : decrement_last (front ++ [c]) = front ++ [c - 1].
Proof. unfold decrement_last. rewrite last_snoc, length_app. cbn [length]. by rewrite Nat.add_sub, take_app_length. Qed.

(** Rounding lowers the last digit, but not to zero, and stays above the lower
    bound. *)
Lemma round_loop_spec fuel front d dist delta rest ten_k :
  0 <= rest <= delta -> delta < 2 ^ 64 -> 0 <= dist <= delta -> 0 < ten_k -> d <= Z.of_nat fuel -> delta < rest + d * ten_k ->
  exists j, 0 <= j < d /\ rest + j * ten_k <= delta /\ round_loop fuel (front ++ [48 + d]) dist delta rest ten_k = Ok (front ++ [48 + (d - j)]).
Proof.
  revert d rest. induction fuel as [|fuel IH]; intros d rest Hrest Hdelta Hdist Hten Hd Hprev; [nia|].
  cbn [round_loop]. rewrite (wrap_u_small 64 (delta - rest)) by lia.
  destruct (Z.ltb_spec rest dist); cbn [andb]; [|exists 0; rewrite Z.sub_0_r; split_and!; [lia|nia|lia|done]].
  destruct (Z.leb_spec ten_k (delta - rest)) as [Hten'|]; cbn [andb]; [|exists 0; rewrite Z.sub_0_r; split_and!; [lia|nia|lia|done]].
  destruct (_ || _); [|exists 0; rewrite Z.sub_0_r; split_and!; [lia|nia|lia|done]].
  rewrite last_snoc, bool_decide_eq_false_2 by (intros [=]; nia). cbn [negb holds obind].
  rewrite decrement_last_app, (wrap_u_small 64 (rest + ten_k)) by lia. replace (48 + d - 1) with (48 + (d - 1)) by lia.
  destruct (IH (d - 1) (rest + ten_k)) as (j & Hj & Hle & ->); [lia|lia|lia|lia|lia|lia|].
  exists (j + 1). split_and!; [lia|lia|lia|]. do 4 f_equal. lia.
Qed.
Lemma grisu2_round_spec front d dist delta rest ten_k : digits front -> front = [] \/ leading front ->
  0 <= rest <= delta -> delta < 2 ^ 64 -> 0 <= dist <= delta -> 0 < ten_k -> d <= 9 -> delta < rest + d * ten_k ->
  exists d' buf, grisu2_round (front ++ [48 + d]) dist delta rest ten_k = Ok buf /\ buf = front ++ [48 + d'] /\ digits buf /\ leading buf /\
    rest <= rest + (d - d') * ten_k <= delta.
Proof.
  intros Hf Hl Hrest Hdelta Hdist Hten Hd Hprev. unfold grisu2_round. rewrite length_app. cbn [length].
  rewrite (proj2 (Nat.leb_le 1 _)), (proj2 (Z.leb_le dist _)), (proj2 (Z.leb_le rest _)), (proj2 (Z.ltb_lt 0 _)) by lia. cbn [holds obind].
  destruct (round_loop_spec 9 front d dist delta rest ten_k) as (j & Hj & Hle & ->); [done..|lia|done|].
  exists (d - j), (front ++ [48 + (d - j)]). split; [done|]. split; [done|].
  destruct (leading_last front (d - j) Hf Hl ltac:(lia)) as [H1 H2]. split; [done|]. split; [done|]. nia.
Qed.

(** The decimal in [buf] with the exponent [x] is at most [delta] below [F]. *)
Record found (F delta one : Z) (buf : list Z) (x : Z) : Prop := {
  found_digits : digits buf;
  found_leading : leading buf;
  found_length : (length buf <= 17)%nat;
  found_exponent : -17 <= x <= 10;
  found_low : (IZR (F - delta) <= IZR (digits_value buf) * pw 10 x * IZR one)%R;
  found_high : (IZR (digits_value buf) * pw 10 x * IZR one <= IZR F)%R;
}.

Section DigitGen.
Context (F e one delta dist : Z).
Context (He : -60 <= e <= -32) (Eone : one = 2 ^ (- e)) (HF : F < 2 ^ 64) (Hdist : 0 <= dist <= delta) (Hdelta : delta < F).

Lemma one_bounds : 2 ^ 32 <= one <= 2 ^ 60.
Proof. rewrite Eone. split; apply Z.pow_le_mono_r; lia. Qed.

(** Rounding after a digit: the digit [d] stands at [ten_k], and what was left
    before it was more than [delta]. *)
Lemma found_round front d n rest : digits front -> front = [] \/ leading front -> (length front <= 16)%nat -> d <= 9 -> 0 <= n <= 10 ->
  0 <= rest <= delta -> delta < rest + d * (10 ^ n * one) ->
  digits_value (front ++ [48 + d]) * 10 ^ n * one + rest = F ->
  exists buf, grisu2_round (front ++ [48 + d]) dist delta rest (10 ^ n * one) = Ok buf /\ found F delta one buf n.
Proof.
  intros Hf Hl Hlen Hd Hn Hrest Hprev HFv. pose proof one_bounds. pose proof (Z.pow_pos_nonneg 10 n ltac:(lia) ltac:(lia)).
  destruct (grisu2_round_spec front d dist delta rest (10 ^ n * one)) as (d' & buf & Hr & Hb & Hbd & Hbl & Hle); [done|done|done|lia|done|nia|done|done|].
  exists buf. split; [done|]. split; [done|done|rewrite Hb, length_app; cbn; lia|lia| |].
  all: rewrite (pw_nonneg 10 n), <- !mult_IZR by lia; apply IZR_le; rewrite Hb; rewrite digits_value_snoc in *; nia.
Qed.

(** A digit [d] at [P], with [r] left, in units of [u]. *)
Lemma decimal_step B P p1 d r p2 u : 0 <= B -> 0 < P -> 0 < u -> 0 <= p1 < 10 * P -> p1 = P * d + r -> 0 <= r < P -> 0 <= p2 ->
  B * (10 * P) * u + p1 * u + p2 = F ->
  0 <= d <= 9 /\ 0 <= r * u /\ 0 <= r * u + p2 < 2 ^ 64 /\ (0 < d -> P * u < 2 ^ 64) /\
  (B * 10 + d) * P * u + (r * u + p2) = F /\ r * u + p2 + d * (P * u) = p1 * u + p2.
Proof.
  intros HB HP Hu Hp1 Ep1 Hr Hp2 HFv. assert (Hd : 0 <= d <= 9) by nia.
  assert (0 <= B * (10 * P) * u) by (repeat apply Z.mul_nonneg_nonneg; lia).
  assert (Hru : r * u <= p1 * u) by (apply Z.mul_le_mono_nonneg_r; nia). assert (0 <= r * u) by (apply Z.mul_nonneg_nonneg; lia).
  split; [done|]. split; [done|]. split; [lia|]. split; [|split; [rewrite <- HFv, Ep1; ring|rewrite Ep1; ring]].
  intros Hd0. assert (P * u <= p1 * u) by (apply Z.mul_le_mono_nonneg_r; nia). lia.
Qed.

(** The digits left of the point. *)
Lemma integral_digits_spec n buffer p1 p2 dexp :
  digits buffer -> buffer = [] /\ 10 ^ (Z.of_nat n - 1) <= p1 \/ leading buffer -> (n <= 10)%nat -> (length buffer + n <= 16)%nat ->
  0 <= p1 < 10 ^ Z.of_nat n -> 0 <= p2 < one -> digits_value buffer * 10 ^ Z.of_nat n * one + p1 * one + p2 = F -> delta < p1 * one + p2 ->
  (exists buf x, integral_digits n buffer p1 p2 (10 ^ (Z.of_nat n - 1)) e delta dist dexp = Ok (inl (buf, dexp + x)) /\ found F delta one buf x) \/
  (exists buf, integral_digits n buffer p1 p2 (10 ^ (Z.of_nat n - 1)) e delta dist dexp = Ok (inr buf) /\ digits buf /\ (n = 0%nat /\ buf = buffer \/ leading buf) /\
    length buf = (length buffer + n)%nat /\ digits_value buf * one + p2 = F /\ delta < p2).
Proof.
  revert buffer p1. induction n as [|n IH]; intros buffer p1 Hb Hl Hn Hlen Hp1 Hp2 HFv Hprev.
  { right. exists buffer. change (10 ^ Z.of_nat 0) with 1 in *. assert (p1 = 0) as -> by lia. split_and!; [done|done|by left|lia|lia|lia]. }
  cbn [integral_digits]. replace (Z.of_nat (S n) - 1) with (Z.of_nat n) in * by lia. rewrite Nat2Z.inj_succ, Z.pow_succ_r in Hp1, HFv by lia.
  set (P := 10 ^ Z.of_nat n) in *. assert (HP : 0 < P) by (apply Z.pow_pos_nonneg; lia). pose proof one_bounds as Hone.
  pose proof (Z.div_mod p1 P ltac:(lia)) as Edm. pose proof (Z.mod_pos_bound p1 P HP) as Hr. set (d := p1 / P) in *. set (r := p1 mod P) in *.
  destruct (decimal_step (digits_value buffer) P p1 d r p2 one (digits_value_nonneg _ Hb) HP ltac:(lia) Hp1 Edm Hr ltac:(lia) HFv) as (Hd & Hr0 & Hrest & Hten & HFd & Erest).
  rewrite <- digits_value_snoc in HFd. rewrite <- Erest in Hprev. clearbody d r. clear Erest HFv.
  rewrite (proj2 (Z.leb_le d 9)) by lia. cbn [holds obind].
  rewrite !Z.shiftl_mul_pow2, <- Eone by lia. rewrite (wrap_u_small 64 (r * one)), (wrap_u_small 64 (r * one + p2)) by lia.
  destruct (Z.leb_spec (r * one + p2) delta) as [Hstop|Hgo].
  - left. destruct (found_round buffer d (Z.of_nat n) (r * one + p2)) as (buf & Hround & Hfound); [done|tauto|lia|lia|lia|lia|done|done|].
    fold P in Hround. rewrite (wrap_u_small 64 (P * one)) by (split; [apply Z.mul_nonneg_nonneg; lia|apply Hten; destruct (Z.eq_dec d 0) as [->|]; lia]).
    rewrite Hround. cbn [obind]. by exists buf, (Z.of_nat n).
  - assert (Hlead : leading (buffer ++ [48 + d])).
    { destruct Hl as [[-> Hge]|(c & t & -> & Hc)]; [|by exists c, (t ++ [48 + d])]. apply (leading_last [] d); [done|by left|].
      split; [|lia]. apply Z.le_ngt. intros Hlt. assert (d = 0) as -> by lia. lia. }
    assert (Hpow : integral_digits n (buffer ++ [48 + d]) r p2 (P / 10) e delta dist dexp =
                   integral_digits n (buffer ++ [48 + d]) r p2 (10 ^ (Z.of_nat n - 1)) e delta dist dexp).
    { destruct n as [|n]; [done|]. f_equal. subst P. replace (Z.of_nat (S n)) with (Z.of_nat (S n) - 1 + 1) at 1 by lia.
      rewrite Z.pow_add_r, Z.div_mul by lia. done. }
    rewrite Hpow. destruct (IH (buffer ++ [48 + d]) r) as [Hdone|(buf & Hbuf & Hbd & Hbl & Hblen & Hrest')];
      [apply Forall_app; split; [done|apply Forall_singleton, digit_char; lia]|by right|lia|rewrite length_app; cbn [length]; lia|done|done|fold P; lia|lia|by left|].
    right. exists buf. split; [done|]. split; [done|]. split; [right; destruct Hbl as [[_ ->]|]; done|]. split; [rewrite Hblen, length_app; cbn [length]; lia|done].
Qed.
(** The digits right of the point: [k] digits stand to its left. *)
Context (k : nat) (Hk : 10 ^ (Z.of_nat k - 1) * one <= F) (Hk1 : (1 <= k)%nat) (Hshort : F <= delta * 10 ^ 16).

Lemma few_digits m : 0 <= m -> delta * 10 ^ m < one -> Z.of_nat k + m <= 16.
Proof.
  intros Hm Hlt. apply Z.le_ngt. intros Hgt. pose proof (Z.pow_pos_nonneg 10 (Z.of_nat k - 1) ltac:(lia) ltac:(lia)).
  pose proof (Z.pow_le_mono_r 10 16 (Z.of_nat k - 1 + m) ltac:(lia) ltac:(lia)) as Hp. rewrite Z.pow_add_r in Hp by lia.
  assert (delta * 10 ^ 16 <= delta * (10 ^ (Z.of_nat k - 1) * 10 ^ m)) by (apply Z.mul_le_mono_nonneg_l; lia).
  assert (10 ^ (Z.of_nat k - 1) * (delta * 10 ^ m) < 10 ^ (Z.of_nat k - 1) * one) by (apply Z.mul_lt_mono_pos_l; lia). lia.
Qed.

Lemma found_fraction buf m rest : digits buf -> leading buf -> (length buf <= 17)%nat -> 0 <= m <= 17 -> 0 <= rest <= delta * 10 ^ m ->
  digits_value buf * one + rest = F * 10 ^ m -> found F delta one buf (- m).
Proof.
  intros Hb Hl Hlen Hm Hrest HFv. pose proof (pw_pos 10 m ltac:(lia)) as Hpos.
  assert (Hone : (pw 10 (- m) * pw 10 m = 1)%R) by (rewrite <- pw_add, Z.add_opp_diag_l by lia; done).
  split; [done|done|done|lia| |]; apply (Rmult_le_reg_r (pw 10 m)); try done;
    replace (IZR (digits_value buf) * pw 10 (- m) * IZR one * pw 10 m)%R with (IZR (digits_value buf) * IZR one * (pw 10 (- m) * pw 10 m))%R by ring;
    rewrite Hone, Rmult_1_r, (pw_nonneg 10 m), <- !mult_IZR by lia; apply IZR_le; lia.
Qed.

Lemma fraction_digits_spec fuel buffer p2 m : digits buffer -> leading buffer -> Z.of_nat (length buffer) = Z.of_nat k + m -> 0 <= m ->
  m + Z.of_nat fuel = 17 -> p2 < one -> delta * 10 ^ m < p2 -> digits_value buffer * one + p2 = F * 10 ^ m ->
  exists buf m', fraction_digits fuel buffer p2 one e (delta * 10 ^ m) (dist * 10 ^ m) m = Ok (buf, m') /\ found F delta one buf (- m').
Proof.
  revert buffer p2 m. induction fuel as [|fuel IH]; intros buffer p2 m Hb Hl Hlen Hm Hfuel Hp2 Hprev HFv; pose proof (few_digits m Hm ltac:(lia)) as Hfew; [lia|].
  cbn [fraction_digits]. pose proof one_bounds as Hone. pose proof (Z.pow_pos_nonneg 10 m ltac:(lia) Hm) as HT.
  assert (0 <= delta * 10 ^ m) by (apply Z.mul_nonneg_nonneg; lia). assert (0 <= dist * 10 ^ m <= delta * 10 ^ m) by (split; [apply Z.mul_nonneg_nonneg|apply Z.mul_le_mono_nonneg_r]; lia).
  rewrite (proj2 (Z.leb_le p2 _)) by (change ((2 ^ 64 - 1) / 10) with 1844674407370955161; lia). cbn [holds obind].
  rewrite (wrap_u_small 64 (p2 * 10)), (wrap_u_small 64 (delta * 10 ^ m * 10)), (wrap_u_small 64 (dist * 10 ^ m * 10)) by lia.
  replace (one - 1) with (Z.ones (- e)) by (rewrite Eone, Z.ones_equiv; lia). rewrite Z.land_ones, Z.shiftr_div_pow2, <- Eone by lia.
  pose proof (Z.div_mod (p2 * 10) one ltac:(lia)) as Edm. pose proof (Z.mod_pos_bound (p2 * 10) one ltac:(lia)) as Hr.
  set (d := p2 * 10 / one) in *. set (r := (p2 * 10) mod one) in *. assert (Hd : 0 <= d <= 9) by (clear - Edm Hr Hp2 Hone Hprev H; nia).
  clearbody d r. rewrite (proj2 (Z.leb_le d 9)) by lia. cbn [holds obind].
  assert (E10 : delta * 10 ^ m * 10 = delta * 10 ^ (m + 1) /\ dist * 10 ^ m * 10 = dist * 10 ^ (m + 1)) by (rewrite Z.pow_add_r by lia; lia).
  assert (HF' : digits_value (buffer ++ [48 + d]) * one + r = F * 10 ^ (m + 1)) by (rewrite digits_value_snoc, Z.pow_add_r by lia; lia).
  destruct (Z.leb_spec r (delta * 10 ^ m * 10)) as [Hstop|Hgo].
  - destruct (grisu2_round_spec buffer d (dist * 10 ^ m * 10) (delta * 10 ^ m * 10) r one) as (d' & buf & -> & Hbuf & Hbd & Hbl & Hrest);
      [done|by right|lia|lia|lia|lia|lia|lia|].
    cbn [obind]. exists buf, (m + 1). split; [done|]. apply (found_fraction buf (m + 1) (r + (d - d') * one)); [done|done| |lia|lia|].
    + rewrite Hbuf, length_app. cbn [length]. lia.
    + rewrite Hbuf. rewrite digits_value_snoc in *. lia.
  - destruct E10 as [E1 E2]. rewrite E1 in Hgo |- *. rewrite E2. apply IH; [|destruct Hl as (c & t & -> & Hc); by exists c, (t ++ [48 + d])|rewrite length_app; cbn [length]; lia|lia|lia|lia|lia|done].
    apply Forall_app. split; [done|]. apply Forall_singleton, digit_char. lia.
Qed.
End DigitGen.

Lemma find_largest_pow10_spec p : 0 < p < 2 ^ 32 -> exists k,
  find_largest_pow10 p = (10 ^ (Z.of_nat k - 1), k) /\ (1 <= k <= 10)%nat /\ 10 ^ (Z.of_nat k - 1) <= p < 10 ^ Z.of_nat k.
Proof.
  intros Hp. unfold find_largest_pow10.
  repeat (match goal with |- exists _, (if ?a <=? ?b then _ else _) = _ /\ _ => destruct (Z.leb_spec a b) end);
    match goal with |- exists _, (_, ?n) = _ /\ _ => exists n end; (split; [reflexivity|split; [lia|]]); cbn; lia.
Qed.

Lemma grisu2_digit_gen_spec dexp Mm W F e : -60 <= e <= -32 -> 0 < Mm <= W -> W <= F -> 2 ^ 60 <= F < 2 ^ 64 -> F <= (F - Mm) * 10 ^ 16 ->
  exists buf x, grisu2_digit_gen dexp (mkDiyfp Mm e) (mkDiyfp W e) (mkDiyfp F e) = Ok (buf, dexp + x) /\ found F (F - Mm) (2 ^ (- e)) buf x.
Proof.
  intros He HM HW HF Hshort. unfold grisu2_digit_gen, sub, kAlpha, kGamma. cbn [df de].
  rewrite (proj2 (Z.leb_le (-60) e)), (proj2 (Z.leb_le e (-32))), Z.eqb_refl, (proj2 (Z.leb_le Mm F)), (proj2 (Z.leb_le W F)) by lia. cbn [holds obind df de].
  rewrite (wrap_u_small 64 (F - Mm)), (wrap_u_small 64 (F - W)) by lia. rewrite (Z.shiftl_mul_pow2 1), Z.mul_1_l by lia.
  set (one := 2 ^ (- e)). pose proof (one_bounds e one He eq_refl) as Hone.
  replace (one - 1) with (Z.ones (- e)) by (rewrite Z.ones_equiv; fold one; lia). rewrite Z.land_ones, Z.shiftr_div_pow2 by lia. fold one.
  pose proof (Z.div_mod F one ltac:(lia)) as Edm. pose proof (Z.mod_pos_bound F one ltac:(lia)) as Hp2.
  assert (Hp1 : 0 < F / one < 2 ^ 32) by (split; [apply Z.div_str_pos; lia|apply Z.div_lt_upper_bound; lia]).
  rewrite (wrap_u_small 32 (F / one)), (proj2 (Z.ltb_lt 0 (F / one))) by lia. cbn [holds obind].
  set (p1 := F / one) in *. set (p2 := F mod one) in *. clearbody p1 p2.
  destruct (find_largest_pow10_spec p1 Hp1) as (k & -> & Hk & Hpow).
  destruct (integral_digits_spec F e one (F - Mm) (F - W) He eq_refl ltac:(lia) ltac:(lia) ltac:(lia) k [] p1 p2 dexp) as [(buf & x & -> & Hfound)|(buf & -> & Hbd & Hbl & Hlen & HFv & Hp2d)];
    [constructor|left; split; [done|lia]|lia|cbn; lia|lia|lia|change (digits_value []) with 0; lia|lia|cbn [obind]; by exists buf, x|].
  cbn [obind]. rewrite (proj2 (Z.ltb_lt (F - Mm) p2)) by lia. cbn [holds obind].
  destruct (fraction_digits_spec F e one (F - Mm) (F - W) He eq_refl ltac:(lia) ltac:(lia) k ltac:(nia) ltac:(lia) ltac:(lia) 17%nat buf p2 0) as (buf' & m' & Hfrac & Hfound);
    [done|destruct Hbl as [[??]|]; [lia|done]|rewrite Hlen; cbn; lia|lia|lia|lia|lia|lia|].
  rewrite !Z.mul_1_r in Hfrac. rewrite Hfrac. cbn [obind fst snd]. exists buf', (- m'). done.
Qed.

(** ** The scaled boundaries *)

(** The boundaries [l * U], [4 * M * U] and [(4 * M + 2) * U] times the power [C], rounded
    and taken one unit inwards. *)
Record scaled (M l U C Mm W F : Z) : Prop := {
  scaled_order : 0 < Mm <= W /\ W <= F;
  scaled_top : 2 ^ 60 <= F < 2 ^ 64 - 1;
  scaled_short : F <= (F - Mm) * 10 ^ 16;
  scaled_high : 2 * 2 ^ 64 * F < (4 * M + 2) * U * (2 * C - 1);
  scaled_low : l * U * (2 * C + 1) < 2 * 2 ^ 64 * Mm;
}.

Lemma scaled_spec M l U C : 0 < M < 2 ^ 53 -> l = 4 * M - 2 \/ l = 4 * M - 1 /\ M = 2 ^ 52 -> 2 ^ 9 <= U -> 2 ^ 63 <= C < 2 ^ 64 ->
  2 ^ 63 <= 4 * M * U -> (4 * M + 2) * U < 2 ^ 64 ->
  scaled M l U C ((l * U * C + 2 ^ 63) / 2 ^ 64 + 1) ((4 * M * U * C + 2 ^ 63) / 2 ^ 64) (((4 * M + 2) * U * C + 2 ^ 63) / 2 ^ 64 - 1).
Proof.
  intros HM Hl HU HC Hlo Hhi.
  assert (HX : 2 ^ 72 <= U * C) by (change (2 ^ 72) with (2 ^ 9 * 2 ^ 63); apply Z.mul_le_mono_nonneg; lia).
  assert (HY : 1 * (U * C) <= M * (U * C) <= (2 ^ 53 - 1) * (U * C)) by (split; apply Z.mul_le_mono_nonneg_r; lia).
  assert (Hbot : 2 ^ 63 * 2 ^ 63 <= 4 * M * U * C) by (apply Z.mul_le_mono_nonneg; lia).
  assert (Htop : (4 * M + 2) * U * C <= (2 ^ 64 - 1) * (2 ^ 64 - 1)) by (apply Z.mul_le_mono_nonneg; lia).
  assert (HM52 : M = 2 ^ 52 -> M * (U * C) = 2 ^ 52 * (U * C)) by (by intros ->).
  assert (HlU : l * U < 2 ^ 64) by (assert (l * U <= (4 * M + 2) * U) by (apply Z.mul_le_mono_nonneg_r; lia); lia).
  pose proof (Z.div_mod (l * U * C + 2 ^ 63) (2 ^ 64) ltac:(lia)). pose proof (Z.mod_pos_bound (l * U * C + 2 ^ 63) (2 ^ 64) ltac:(lia)).
  pose proof (Z.div_mod (4 * M * U * C + 2 ^ 63) (2 ^ 64) ltac:(lia)). pose proof (Z.mod_pos_bound (4 * M * U * C + 2 ^ 63) (2 ^ 64) ltac:(lia)).
  pose proof (Z.div_mod ((4 * M + 2) * U * C + 2 ^ 63) (2 ^ 64) ltac:(lia)). pose proof (Z.mod_pos_bound ((4 * M + 2) * U * C + 2 ^ 63) (2 ^ 64) ltac:(lia)).
  set (qm := (l * U * C + 2 ^ 63) / 2 ^ 64) in *. set (qw := (4 * M * U * C + 2 ^ 63) / 2 ^ 64) in *. set (qp := ((4 * M + 2) * U * C + 2 ^ 63) / 2 ^ 64) in *.
  set (rm := (l * U * C + 2 ^ 63) mod 2 ^ 64) in *. set (rw := (4 * M * U * C + 2 ^ 63) mod 2 ^ 64) in *. set (rp := ((4 * M + 2) * U * C + 2 ^ 63) mod 2 ^ 64) in *.
  clearbody qm qw qp rm rw rp.
  assert (ElX : l * U * C = l * (U * C)) by ring. assert (EwX : 4 * M * U * C = 4 * (M * (U * C))) by ring. assert (EpX : (4 * M + 2) * U * C = 4 * (M * (U * C)) + 2 * (U * C)) by ring.
  assert (HlX : l * (U * C) = 4 * (M * (U * C)) - 2 * (U * C) \/ l * (U * C) = 4 * (M * (U * C)) - U * C /\ M * (U * C) = 2 ^ 52 * (U * C)).
  { destruct Hl as [->|[-> ->]]; [left|right; split]; ring. }
  assert (Eh : (4 * M + 2) * U * (2 * C - 1) = 2 * ((4 * M + 2) * U * C) - (4 * M + 2) * U) by ring.
  assert (El : l * U * (2 * C + 1) = 2 * (l * U * C) + l * U) by ring.
  split; [lia|lia|lia|lia|lia].
Qed.

(** A power of ten [K] between [P * c] and [Q * c] halves, and a decimal [B] inside the
    scaled boundaries. *)
Lemma below_decimal l U t c P K T m B : (0 <= l -> 0 < U -> 0 < t -> 0 < c -> 2 * K <= P * c ->
  l * U * P < 2 * T * m -> m * (t * c * T) <= B -> l * (t * U) * K < B)%R.
Proof.
  intros Hl HU Ht Hc HK Hlt HB. assert (H1 : (l * (t * U) * (2 * K) <= l * (t * U) * (P * c))%R) by (apply Rmult_le_compat_l; [apply Rmult_le_pos; nra|done]).
  assert (H2 : (l * U * P * (t * c) < 2 * T * m * (t * c))%R) by (apply Rmult_lt_compat_r; [nra|done]).
  replace (l * (t * U) * (P * c))%R with (l * U * P * (t * c))%R in H1 by ring. replace (m * (t * c * T))%R with (T * m * (t * c))%R in HB by ring. nra.
Qed.
Lemma above_decimal a U t c Q K T f B : (0 <= a -> 0 < U -> 0 < t -> 0 < c -> Q * c <= 2 * K ->
  2 * T * f < a * U * Q -> B <= f * (t * c * T) -> B < a * (t * U) * K)%R.
Proof.
  intros Ha HU Ht Hc HK Hlt HB. assert (H1 : (a * (t * U) * (Q * c) <= a * (t * U) * (2 * K))%R) by (apply Rmult_le_compat_l; [apply Rmult_le_pos; nra|done]).
  assert (H2 : (2 * T * f * (t * c) < a * U * Q * (t * c))%R) by (apply Rmult_lt_compat_r; [nra|done]).
  replace (a * (t * U) * (Q * c))%R with (a * U * Q * (t * c))%R in H1 by ring. replace (f * (t * c * T))%R with (T * f * (t * c))%R in HB by ring. nra.
Qed.

Lemma scaled_within M e s c Mm W F buf x : 0 < M -> 2 <= s -> accurate c -> scaled M (low M e) (2 ^ (s - 2)) (cf c) Mm W F ->
  e - s + ce c + 64 <= 0 -> found F (F - Mm) (2 ^ (- (e - s + ce c + 64))) buf x -> within M e (IZR (digits_value buf) * pw 10 (- ck c + x)).
Proof.
  intros HM Hs [_ _ Hcl Hch] [_ _ _ Hsh Hsl] HE [_ _ _ _ Hfl Hfh]. set (E := e - s + ce c + 64) in *.
  rewrite <- (pw_nonneg 2 (- E)) in Hfl, Hfh by lia. replace (F - (F - Mm)) with Mm in Hfl by lia.
  assert (Hinv : (pw 2 (- E) * pw 2 E = 1)%R) by (rewrite <- pw_add, Z.add_opp_diag_l by lia; done).
  assert (HpE : pw 2 E = (pw 2 (e - s) * pw 2 (ce c) * IZR (2 ^ 64))%R) by (unfold E; rewrite <- (pw_nonneg 2 64), <- !pw_add by lia; f_equal; lia).
  assert (Hpe : pw 2 (e - 2) = (pw 2 (e - s) * IZR (2 ^ (s - 2)))%R) by (rewrite <- pw_nonneg, <- pw_add by lia; f_equal; lia).
  assert (Hten : (pw 10 (- ck c) * pw 10 (ck c) = 1)%R) by (rewrite <- pw_add, Z.add_opp_diag_l by lia; done).
  pose proof (pw_pos 2 E ltac:(lia)) as HE0. pose proof (pw_pos 2 (e - s) ltac:(lia)) as Ht. pose proof (pw_pos 2 (ce c) ltac:(lia)) as Hc0. pose proof (pw_pos 10 (ck c) ltac:(lia)) as Hk0.
  set (B := (IZR (digits_value buf) * pw 10 x)%R) in *.
  assert (HB : (IZR Mm * pw 2 E <= B <= IZR F * pw 2 E)%R).
  { replace B with (B * pw 2 (- E) * pw 2 E)%R by (rewrite Rmult_assoc, Hinv; ring). split; apply Rmult_le_compat_r; lra. }
  assert (Hlow0 : (0 <= IZR (low M e))%R) by (apply IZR_le; destruct (low_cases M e) as [[-> _]|[-> _]]; lia).
  assert (Hplus0 : (0 <= IZR (4 * M + 2))%R) by (apply IZR_le; lia).
  assert (HU0 : (0 < IZR (2 ^ (s - 2)))%R) by (apply IZR_lt, Z.pow_pos_nonneg; lia).
  apply IZR_lt in Hsh, Hsl. rewrite !mult_IZR in Hsh, Hsl.
  split; apply (Rmult_lt_reg_r (pw 10 (ck c))); try done;
    replace (IZR (digits_value buf) * pw 10 (- ck c + x) * pw 10 (ck c))%R with B by (rewrite pw_add by lia; unfold B; transitivity (IZR (digits_value buf) * pw 10 x * (pw 10 (- ck c) * pw 10 (ck c)))%R; [rewrite Hten|]; ring);
    rewrite Hpe.
  - apply (below_decimal _ _ _ (pw 2 (ce c)) (IZR (2 * cf c + 1)) _ (IZR (2 ^ 64)) (IZR Mm)); rewrite <- ?HpE; lra.
  - apply (above_decimal _ _ _ (pw 2 (ce c)) (IZR (2 * cf c - 1)) _ (IZR (2 ^ 64)) (IZR F)); rewrite <- ?HpE; lra.
Qed.

(** The decimal found reads as the double: it has at most 17 digits, and lies
    strictly between the midpoints. *)
Lemma grisu2_spec m e : canonical (Zpos m) e -> exists buf x,
  grisu2 (S754_finite false m e) = Ok (buf, x) /\ digits buf /\ leading buf /\ (length buf <= 17)%nat /\ -400 <= x <= 400 /\
  within (Zpos m) e (IZR (digits_value buf) * pw 10 x).
Proof.
  intros Hc. pose proof (canonical_below _ _ Hc) as Hm. set (s := 63 - Z.log2 (Zpos m)).
  assert (Hs : Z.log2 (Zpos m) + s = 63) by lia. destruct (shift_bounds (Zpos m) s Hm Hs) as (Hs11 & Hlo & Hhi).
  destruct (compute_boundaries_spec m e s Hc Hs) as (b & Hb & [Ew Ep Em]). unfold grisu2. rewrite Hb. cbn [obind]. rewrite Ew, Ep, Em.
  assert (Hrange : -1137 <= e - s <= 960).
  { pose proof (Z.log2_nonneg (Zpos m)). destruct Hc as [[Hm' He]|[Hm' He]]; lia. }
  destruct (cached_spec (e - s) Hrange) as (c & Hget & Hacc & HE). unfold grisu2_diyfp. cbn [df de]. rewrite !Z.eqb_refl. cbn [holds obind].
  rewrite Hget. cbn [obind]. pose proof (accurate_norm _ Hacc) as Hcf. pose proof (accurate_range _ Hacc) as Hck.
  assert (HU : 2 ^ (s - 1) = 2 * 2 ^ (s - 2) /\ 2 ^ s = 4 * 2 ^ (s - 2) /\ 2 ^ 9 <= 2 ^ (s - 2)).
  { split_and!; [rewrite <- (Z.pow_add_r 2 1) by lia; f_equal; lia|change 4 with (2 ^ 2); rewrite <- Z.pow_add_r by lia; f_equal; lia|apply Z.pow_le_mono_r; lia]. }
  destruct HU as (H1 & H2 & H3). rewrite H1 in Hhi. rewrite H2 in Hlo. set (M := Zpos m) in *. set (U := 2 ^ (s - 2)) in *.
  pose proof (low_cases M e) as Hlow. assert (HlU : low M e * U <= (4 * M + 2) * U) by (apply Z.mul_le_mono_nonneg_r; lia).
  assert (0 <= low M e * U) by (apply Z.mul_nonneg_nonneg; lia).
  rewrite !mul_spec by (cbn [df]; lia). cbn [df de].
  assert (Hsc : scaled M (low M e) U (cf c) ((low M e * U * cf c + 2 ^ 63) / 2 ^ 64 + 1) ((M * 2 ^ s * cf c + 2 ^ 63) / 2 ^ 64) (((2 * M + 1) * 2 ^ (s - 1) * cf c + 2 ^ 63) / 2 ^ 64 - 1)).
  { replace (M * 2 ^ s) with (4 * M * U) by lia. replace ((2 * M + 1) * 2 ^ (s - 1)) with ((4 * M + 2) * U) by lia. apply scaled_spec; lia. }
  destruct (scaled_order _ _ _ _ _ _ _ Hsc) as [HMm HW]. pose proof (scaled_top _ _ _ _ _ _ _ Hsc) as HF.
  rewrite !(wrap_u_small 64) by lia. set (Mm := _ / 2 ^ 64 + 1) in *. set (F := _ / 2 ^ 64 - 1) in *. set (W := (M * 2 ^ s * cf c + 2 ^ 63) / 2 ^ 64) in *.
  replace (e - s + ce c + 64) with (ce c + (e - s) + 64) in * by lia.
  destruct (grisu2_digit_gen_spec (- ck c) Mm W F (ce c + (e - s) + 64) HE HMm HW ltac:(lia) (scaled_short _ _ _ _ _ _ _ Hsc)) as (buf & x & -> & Hfound).
  exists buf, (- ck c + x). split; [done|]. destruct Hfound as [Hd Hl Hlen Hx Hfl Hfh].
  split; [done|]. split; [done|]. split; [done|]. split; [lia|].
  apply (scaled_within M e s c Mm W F); [lia|lia|done|done|lia|]. by replace (e - s + ce c + 64) with (ce c + (e - s) + 64) by lia.
Qed.
