(* ===== verification/GrisuText.v ===== *)
(** * The text of a double reads as the double

    The formats of Grisu.v are numbers of the grammar, with the value of the
    digits that were found, so [std::strtod] gives the double back. *)

From stdpp Require Import base list strings tactics.
From Stdlib Require Import ZArith Lia Ascii Reals Lra SpecFloat.
From S2P Require Import Prelude Utils Regex SdpParse Rounding Grisu JsonText JsonReadSpec JsonWriteSpec GrisuSpec.
Import Lexer Parser dtoa_impl.
Open Scope Z_scope.

(** ** Reading *)

Lemma digit_chars c : is_digit c = true -> Regex.is_digit (char_of c) = true /\ digit (char_of c) = Some (c - 48).
Proof.
  intros Hc%between_spec.
  assert (c = 48 \/ c = 49 \/ c = 50 \/ c = 51 \/ c = 52 \/ c = 53 \/ c = 54 \/ c = 55 \/ c = 56 \/ c = 57) as Hcases by lia.
  repeat destruct Hcases as [->|Hcases]; [..|rewrite Hcases]; by vm_compute.
Qed.

Lemma text_of_cons c l : text_of (c :: l) = String (char_of c) (text_of l).
Proof. done. Qed.
Lemma text_of_app a b : text_of (a ++ b) = text_of a +:+ text_of b.
Proof. induction a as [|c a IH]; [done|]. cbn [app]. rewrite !text_of_cons, IH. done. Qed.
Lemma text_of_length l : String.length (text_of l) = length l.
Proof. induction l as [|c l IH]; [done|]. rewrite text_of_cons. cbn [String.length length]. by rewrite IH. Qed.
Lemma text_digits_value ds acc : digits ds -> Utils.digits_value acc (text_of ds) = acc * 10 ^ Z.of_nat (length ds) + digits_value ds.
Proof.
  intros Hd. revert acc. induction Hd as [|c ds Hc Hd IH]; intros acc; [change (digits_value []) with 0; cbn; lia|].
  rewrite text_of_cons. cbn [Utils.digits_value]. destruct (digit_chars c Hc) as [_ ->]. rewrite IH.
  change (c :: ds) with ([c] ++ ds). rewrite digits_value_app, length_app, Nat2Z.inj_add, Z.pow_add_r by lia.
  change (digits_value [c]) with (10 * 0 + (c - 48)). cbn [length]. lia.
Qed.
Lemma span_text ds rest : digits ds -> span_digits (text_of rest) = (EmptyString, text_of rest) -> span_digits (text_of (ds ++ rest)) = (text_of ds, text_of rest).
Proof.
  intros Hd Hr. induction Hd as [|c ds Hc Hd IH]; [done|]. cbn [app]. rewrite text_of_cons. cbn [span_digits].
  destruct (digit_chars c Hc) as [-> _]. rewrite IH. done.
Qed.
Lemma all_digits_text d ds : is_digit d = true -> digits ds -> all_digits_ne (text_of (d :: ds)) = true.
Proof.
  intros Hc Hd. revert d Hc. induction Hd as [|c ds Hc' Hd IH]; intros d Hc; destruct (digit_chars d Hc) as [E _]; [done|].
  rewrite text_of_cons. specialize (IH c Hc'). rewrite text_of_cons in IH |- *. cbn [all_digits_ne] in *. by rewrite E, IH.
Qed.
Lemma read_sign_digit d l : is_digit d = true -> read_sign (text_of (d :: l)) = (false, text_of (d :: l)).
Proof.
  intros Hc%between_spec. rewrite text_of_cons.
  assert (d = 48 \/ d = 49 \/ d = 50 \/ d = 51 \/ d = 52 \/ d = 53 \/ d = 54 \/ d = 55 \/ d = 56 \/ d = 57) as Hcases by lia.
  repeat destruct Hcases as [->|Hcases]; [..|rewrite Hcases]; reflexivity.
Qed.

(** An exponent and its value; a fraction. *)
Inductive exponent : list Z -> Z -> Prop :=
| exponent_none : exponent [] 0
| exponent_signed s d ds : is_digit d = true -> digits ds -> s = 43 \/ s = 45 ->
    exponent (101 :: s :: d :: ds) (if s =? 45 then - digits_value (d :: ds) else digits_value (d :: ds)).
Definition fraction (f : list Z) : list Z := match f with [] => [] | _ => 46 :: f end.

Lemma read_text (neg : bool) d ds f ex x : is_digit d = true -> digits ds -> digits f -> exponent ex x ->
  read_decimal (text_of ((if neg then [45] else []) ++ (d :: ds) ++ fraction f ++ ex)) = Some (neg, digits_value ((d :: ds) ++ f), x - Z.of_nat (length f)).
Proof.
  intros Hd Hds Hf Hex. set (i := d :: ds). assert (Hi : digits i) by by constructor.
  assert (Hsign : read_sign (text_of ((if neg then [45] else []) ++ i ++ fraction f ++ ex)) = (neg, text_of (i ++ fraction f ++ ex))).
  { destruct neg; [reflexivity|]. cbn [app]. unfold i. cbn [app]. by apply read_sign_digit. }
  unfold read_decimal. rewrite Hsign.
  assert (Hstop : span_digits (text_of ex) = (EmptyString, text_of ex)) by (destruct Hex; reflexivity).
  rewrite (span_text i) by (done || (destruct f; [done|reflexivity])).
  assert (Hfrac : (match text_of (fraction f ++ ex) with String "."%char r' => span_digits r' | _ => (EmptyString, text_of (fraction f ++ ex)) end) = (text_of f, text_of ex)).
  { destruct f as [|c f]; [by destruct Hex as [|s ? ? ? ? [->| ->]]|]. cbn [fraction app]. rewrite text_of_cons. change (char_of 46) with "."%char.
    rewrite app_comm_cons. by apply span_text. }
  rewrite Hfrac, !text_of_length. cbn [Nat.eqb length Nat.add].
  assert (Hv : Utils.digits_value 0 (text_of i +:+ text_of f) = digits_value (i ++ f)).
  { rewrite <- text_of_app. apply (text_digits_value (i ++ f) 0). by apply Forall_app. }
  rewrite Hv. destruct Hex as [|s d' ds' Hd' Hds' Hs]; [done|]. rewrite text_of_cons. change (char_of 101) with "e"%char. cbn [Ascii.eqb orb].
  assert (Hsg : read_sign (text_of (s :: d' :: ds')) = (s =? 45, text_of (d' :: ds'))) by by destruct Hs as [-> | ->].
  change (Ascii.eqb "e" "e" || Ascii.eqb "e" "E") with true. cbv iota beta zeta. rewrite Hsg, (all_digits_text d' ds' Hd' Hds').
  rewrite (text_digits_value (d' :: ds') 0) by by constructor. rewrite Z.mul_0_l, Z.add_0_l. do 2 f_equal. destruct (s =? 45); lia.
Qed.

(** ** Formats *)

Lemma zeros_value n : digits_value (replicate n 48) = 0.
Proof. induction n as [|n IH]; [done|]. cbn [replicate]. change (48 :: replicate n 48) with ([48] ++ replicate n 48). rewrite digits_value_app, IH. done. Qed.
Lemma zeros_digits n : digits (replicate n 48).
Proof. by apply Forall_replicate. Qed.

Lemma append_exponent_spec e : -1000 < e < 1000 -> exists ex, append_exponent e = Ok ex /\ exponent (101 :: ex) e /\ (length ex <= 4)%nat.
Proof.
  intros He. unfold append_exponent. rewrite (proj2 (Z.ltb_lt (-1000) e)), (proj2 (Z.ltb_lt e 1000)) by lia. cbn [holds obind].
  set (s := if e <? 0 then 45 else 43). assert (Hs : s = 43 \/ s = 45) by (unfold s; case_match; tauto).
  assert (Hsign : forall d ds, digits_value (d :: ds) = Z.abs e -> e = (if s =? 45 then - digits_value (d :: ds) else digits_value (d :: ds))).
  { intros d ds ->. unfold s. destruct (Z.ltb_spec e 0); cbv beta iota delta [Z.eqb Pos.eqb]; lia. }
  eexists. split; [reflexivity|]. clearbody s. set (k := Z.abs e) in *. assert (Hk : 0 <= k < 1000) by lia. clearbody k.
  assert (Hval : forall d ds, digits (d :: ds) -> digits_value (d :: ds) = k -> exponent (101 :: s :: d :: ds) e).
  { intros d ds Hd Hv. rewrite (Hsign d ds Hv) at 1. inversion Hd. by apply exponent_signed. }
  pose proof (Z.div_mod k 10 ltac:(lia)). pose proof (Z.mod_pos_bound k 10 ltac:(lia)). pose proof (Z.div_mod k 100 ltac:(lia)). pose proof (Z.mod_pos_bound k 100 ltac:(lia)).
  pose proof (Z.div_mod (k mod 100) 10 ltac:(lia)). pose proof (Z.mod_pos_bound (k mod 100) 10 ltac:(lia)).
  repeat case_match; (split; [|cbn [length]; lia]); apply Hval; try (unfold digits_value; cbn [fold_left]; lia);
    repeat (constructor; [done || (apply digit_char; lia)|]); constructor.
Qed.

(** A text of the grammar with the value [v]. *)
Definition text_value (t : list Z) (v : R) : Prop := exists d ds f ex x,
  t = (d :: ds) ++ fraction f ++ ex /\ int_part (d :: ds) /\ digits f /\ exponent ex x /\ (f <> [] \/ ex <> []) /\
  0 < digits_value ((d :: ds) ++ f) /\ v = (IZR (digits_value ((d :: ds) ++ f)) * pw 10 (x - Z.of_nat (length f)))%R.

Lemma leading_int_part buf : digits buf -> leading buf -> int_part buf.
Proof. intros Hd (c & r & -> & Hc). inversion Hd. by apply int_digits. Qed.
Lemma leading_positive buf : digits buf -> leading buf -> 0 < digits_value buf.
Proof.
  intros Hd (c & r & -> & Hc). inversion Hd as [|? ? Hc' Hr]. apply between_spec in Hc'. change (c :: r) with ([c] ++ r).
  rewrite digits_value_app. change (digits_value [c]) with (10 * 0 + (c - 48)). pose proof (digits_value_nonneg r Hr).
  pose proof (Z.pow_pos_nonneg 10 (Z.of_nat (length r)) ltac:(lia) ltac:(lia)). nia.
Qed.
Lemma leading_zeros buf n : digits buf -> leading buf -> int_part (buf ++ replicate n 48).
Proof.
  intros Hd (c & r & -> & Hc). inversion Hd. cbn [app]. apply int_digits; [done|done|]. apply Forall_app. split; [done|apply zeros_digits].
Qed.
Lemma scale_value a n x : 0 <= n -> (IZR (a * 10 ^ n) * pw 10 x = IZR a * pw 10 (n + x))%R.
Proof. intros Hn. rewrite mult_IZR, <- pw_nonneg, pw_add by lia. ring. Qed.

Section Format.
Context (buf : list Z) (e : Z) (Hd : digits buf) (Hl : leading buf).
Abbreviation v := (IZR (digits_value buf) * pw 10 e)%R.

(** The four formats: digits with zeros after them, with a point among them,
    with zeros before them, and with an exponent. *)
Lemma format_integer n : Z.of_nat n = e -> text_value (buf ++ replicate n 48 ++ [46; 48]) v.
Proof.
  intros Hn. pose proof (leading_positive buf Hd Hl) as Hpos. pose proof (leading_zeros buf n Hd Hl) as Hi.
  assert (Hv : digits_value ((buf ++ replicate n 48) ++ [48]) = digits_value buf * 10 ^ (e + 1)).
  { rewrite !digits_value_app, zeros_value, length_replicate, Hn, Z.pow_add_r by lia. change (digits_value [48]) with 0. cbn [length]. lia. }
  destruct (buf ++ replicate n 48) as [|d ds] eqn:Eb; [inversion Hi|]. exists d, ds, [48], [], 0.
  split; [rewrite app_assoc, Eb; done|]. split; [done|]. split; [by repeat constructor|]. split; [constructor|]. split; [by left|]. rewrite Hv.
  split; [apply Z.mul_pos_pos; [done|apply Z.pow_pos_nonneg; lia]|]. rewrite scale_value by lia. do 2 f_equal. cbn [length]. lia.
Qed.
Lemma format_point (n : nat) : (0 < n < length buf)%nat -> Z.of_nat n = Z.of_nat (length buf) + e -> text_value (take n buf ++ 46 :: drop n buf) v.
Proof.
  intros Hn He. pose proof (leading_positive buf Hd Hl) as Hpos. destruct Hl as (c & r & Eb & Hc). destruct n as [|n]; [lia|]. rewrite Eb in *. cbn [take drop length] in *.
  inversion Hd as [|? ? Hc' Hr]. exists c, (take n r), (drop n r), [], 0. assert (drop n r <> []) as Hne.
  { intros E. apply (f_equal length) in E. rewrite length_drop in E. cbn [length] in E. lia. }
  assert (Hv : (c :: take n r) ++ drop n r = c :: r) by (cbn [app]; by rewrite take_drop). rewrite Hv.
  split; [unfold fraction; destruct (drop n r); [done|by rewrite app_nil_r]|]. split; [apply int_digits; [done|done|by apply Forall_take]|].
  split; [by apply Forall_drop|]. split; [constructor|]. split; [by left|]. split; [done|]. do 2 f_equal. rewrite length_drop. lia.
Qed.
Lemma format_small (n : nat) : Z.of_nat n = - (Z.of_nat (length buf) + e) -> text_value ([48; 46] ++ replicate n 48 ++ buf) v.
Proof.
  intros Hn. pose proof (leading_positive buf Hd Hl) as Hpos.
  assert (Hv : digits_value ([48] ++ replicate n 48 ++ buf) = digits_value buf) by (rewrite !digits_value_app, zeros_value; change (digits_value [48]) with 0; lia).
  exists 48, [], (replicate n 48 ++ buf), [], 0. rewrite Hv. assert (replicate n 48 ++ buf <> []) as Hne by (destruct Hl as (c & r & -> & _); by destruct n).
  split; [unfold fraction; destruct (replicate n 48 ++ buf); [done|by rewrite app_nil_r]|]. split; [constructor|].
  split; [apply Forall_app; split; [apply zeros_digits|done]|]. split; [constructor|]. split; [by left|]. split; [done|].
  do 2 f_equal. rewrite length_app, length_replicate. lia.
Qed.
Lemma format_exponent x ex : exponent (101 :: ex) x -> x = Z.of_nat (length buf) + e - 1 ->
  text_value ((if Z.of_nat (length buf) =? 1 then buf else take 1 buf ++ 46 :: drop 1 buf) ++ 101 :: ex) v.
Proof.
  intros Hex Hx. pose proof (leading_positive buf Hd Hl) as Hpos. destruct Hl as (c & r & Eb & Hc). rewrite Eb in *. inversion Hd as [|? ? Hc' Hr].
  exists c, [], r, (101 :: ex), x. split; [|split; [apply int_digits; [done|done|constructor]|split; [done|split; [done|split; [by right|split; [done|]]]]]].
  - destruct r as [|c' r]; [done|]. destruct (Z.eqb_spec (Z.of_nat (length (c :: c' :: r))) 1) as [E|]; [cbn [length] in E; lia|done].
  - do 2 f_equal. cbn [length] in *. lia.
Qed.
End Format.

Lemma format_buffer_spec buf e : digits buf -> leading buf -> (length buf <= 17)%nat -> -400 <= e <= 400 -> exists t,
  format_buffer buf e (-4) digits10 = Ok t /\ (length t <= 23)%nat /\ text_value t (IZR (digits_value buf) * pw 10 e).
Proof.
  intros Hd Hl Hlen He. unfold format_buffer, digits10. change (-4 <? 0) with true. change (0 <? 15) with true. cbn [holds obind].
  assert (Hlen1 : (1 <= length buf)%nat) by (destruct Hl as (c & r & -> & _); cbn; lia). set (k := Z.of_nat (length buf)). set (n := k + e).
  destruct ((k <=? n) && (n <=? 15)) eqn:E1.
  { eexists. split; [done|]. split; [rewrite !length_app, length_replicate; cbn [length]; lia|]. apply format_integer; [done|done|lia]. }
  destruct ((0 <? n) && (n <=? 15)) eqn:E2.
  { rewrite (proj2 (Z.ltb_lt n k)) by lia. cbn [holds obind]. eexists. split; [done|]. split; [rewrite length_app, length_take; cbn [length]; rewrite length_drop; lia|].
    apply format_point; [done|done|lia|lia]. }
  destruct ((-4 <? n) && (n <=? 0)) eqn:E3.
  { eexists. split; [done|]. split; [rewrite !length_app, length_replicate; cbn [length]; lia|]. apply format_small; [done|done|lia]. }
  destruct (append_exponent_spec (n - 1) ltac:(lia)) as (ex & -> & Hex & Hxl). cbn [obind]. eexists. split; [done|].
  split; [|by apply (format_exponent buf e Hd Hl (n - 1))]. rewrite length_app. cbn [length].
  destruct (k =? 1); [lia|]. rewrite length_app, length_take. cbn [length]. rewrite length_drop. lia.
Qed.

(** ** Doubles *)

Lemma exponent_part ex x : exponent ex x -> exp_part ex.
Proof. intros [|s d ds Hd Hds Hs]; [constructor|by apply exp_signed]. Qed.
Lemma text_value_float (neg : bool) t v : text_value t v -> float_text ((if neg then [45] else []) ++ t).
Proof.
  intros (d & ds & f & ex & x & -> & Hi & Hf & Hex & Hne & _). exists (if neg then [45] else []), (d :: ds), (fraction f), ex.
  split; [destruct neg; tauto|]. split; [done|]. split; [destruct f as [|c f]; [constructor|inversion Hf; by constructor]|]. split; [by eapply exponent_part|].
  split; [|done]. destruct Hne; [left; by destruct f|by right].
Qed.
Lemma text_value_strtod (neg : bool) t v m e : text_value t v -> canonical (Zpos m) e -> within (Zpos m) e v ->
  strtod ((if neg then [45] else []) ++ t) = S754_finite neg m e.
Proof.
  intros (d & ds & f & ex & x & -> & Hi & Hf & Hex & Hne & Hpos & ->) Hc Hw. pose proof (int_part_digits _ Hi) as Hd. inversion Hd.
  unfold strtod. rewrite (read_text neg d ds f ex x) by done. by apply round_decimal_within.
Qed.

Lemma to_chars_finite (neg : bool) m e : canonical (Zpos m) e -> exists t,
  to_chars (S754_finite neg m e) = Ok t /\ float_text t /\ (length t <= 24)%nat /\ strtod t = S754_finite neg m e.
Proof.
  intros Hc. destruct (grisu2_spec m e Hc) as (buf & x & Hg & Hd & Hl & Hlen & Hx & Hw). destruct (format_buffer_spec buf x Hd Hl Hlen Hx) as (t & Hf & Htl & Ht).
  exists ((if neg then [45] else []) ++ t). unfold to_chars. cbn [holds obind signbit].
  replace (if neg then SFopp (S754_finite neg m e) else S754_finite neg m e) with (S754_finite false m e) by by destruct neg.
  rewrite Hg. cbn [obind fst snd]. unfold max_digits10. rewrite (proj2 (Nat.leb_le _ _) Hlen). cbn [holds obind]. rewrite Hf. cbn [obind].
  split; [done|]. split; [by eapply text_value_float|]. split; [rewrite length_app; destruct neg; cbn [length]; lia|by eapply text_value_strtod].
Qed.
Lemma to_chars_spec f : valid_binary 53 1024 f = true -> is_finite f = true -> exists t,
  to_chars f = Ok t /\ float_text t /\ (length t <= 24)%nat /\ strtod t = f.
Proof.
  destruct f as [neg|neg| |neg m e]; intros Hv Hf; [|done|done|by apply to_chars_finite, bounded_canonical].
  exists ((if neg then [45] else []) ++ [48; 46; 48]). split; [by destruct neg|].
  split; [|split; destruct neg; [cbn; lia|cbn; lia|done|done]].
  exists (if neg then [45] else []), [48], [46; 48], []. split; [destruct neg; tauto|]. split; [constructor|]. split; [apply frac_digits; [done|constructor]|]. split; [constructor|].
  split; [by left|done].
Qed.

(** C3: Every finite double has a text, which reads as the double: no
    assertion of the Grisu2 algorithm fails and none of its 64-bit operations
    overruns, for normal numbers, subnormal numbers and both zeros; the text is
    a number with a point or an exponent, of at most 24 characters, so it fits
    the 64 of the serializer's buffer; and [std::strtod] of it is the double. *)
Theorem double_text_roundtrip f : valid_binary 53 1024 f = true -> is_finite f = true -> exists t,
  to_chars f = Ok t /\ float_text t /\ (length t <= 24)%nat /\ strtod t = f.
Proof. apply to_chars_spec. Qed.

(** The least subnormal number, below zero. *)
Lemma double_text_roundtrip_witness : exists t,
  to_chars (S754_finite true 1 (-1074)) = Ok t /\ float_text t /\ (length t <= 24)%nat /\ strtod t = S754_finite true 1 (-1074).
Proof. apply (double_text_roundtrip (S754_finite true 1 (-1074))); reflexivity. Defined.

(** The digits are not always as few as possible: the text of [1e126] has sixteen. *)
Lemma shortest_not_found : let f := strtod (bytes_of "1e126") in to_chars f = Ok (bytes_of "9.999999999999999e+125") /\ strtod (bytes_of "9.999999999999999e+125") = f.
Proof. vm_compute. done. Qed.
