(* ===== verification/JsonRoundTrip.v ===== *)
(** * JSON text: what is dumped is parsed back

    [json::dump] writes a text of the grammar, in one line or with an
    indentation up to 512, with or without escapes for all but ASCII; so
    [json::parse] reads the value again. *)

From stdpp Require Import base list strings.
From Stdlib Require Import ZArith Lia SpecFloat.
From S2P Require Import Prelude Keeps Json Utils SdpParse JsonText JsonTextSpec JsonReadSpec JsonWriteSpec Grisu GrisuText.
Import Lexer Parser Serializer.
Open Scope Z_scope.

(** ** Values that have a text *)

(** Integers of 64 bits, doubles, strings in UTF-8, and members in the order of
    their keys. *)
Fixpoint dumpable (j : json) : Prop :=
  match j with
  | JInt z => - 2 ^ 63 <= z < 2 ^ 63
  | JUint z => 0 <= z < 2 ^ 64
  | JFloat f => valid_binary 53 1024 f = true
  | JString s => valid_utf8 (bytes_of s)
  | JArray l => foldr (fun x P => dumpable x /\ P) True l
  | JObject o => obj_sorted o = true /\ foldr (fun kv P => (valid_utf8 (bytes_of kv.1) /\ dumpable kv.2) /\ P) True o
  | _ => True
  end.
Fixpoint depth (j : json) : Z :=
  match j with
  | JArray l => 1 + foldr (fun x d => Z.max (depth x) d) 0 l
  | JObject o => 1 + foldr (fun kv d => Z.max (depth kv.2) d) 0 o
  | _ => 0
  end.
(** The value that is read: a text has no sign of a type for integers from 0
    on, and infinities and NaN are null. *)
Fixpoint normal (j : json) : json :=
  match j with
  | JInt z => if 0 <=? z then JUint z else JInt z
  | JFloat f => if is_finite f then JFloat f else JNull
  | JArray l => JArray (map normal l)
  | JObject o => JObject (map (fun kv => (kv.1, normal kv.2)) o)
  | _ => j
  end.

Lemma fold_insert_lookup k (l o : list (string * json)) : obj_sorted l = true ->
  obj_lookup k (fold_left (fun o kv => obj_insert kv.1 kv.2 o) l o) = match obj_lookup k l with Some v => Some v | None => obj_lookup k o end.
Proof.
  revert o. induction l as [|[k0 v0] l IH]; intros o Hs; [done|]. cbn in Hs. apply andb_prop in Hs as [Hb Hs]. cbn [fold_left fst snd].
  rewrite IH, obj_lookup_insert by done. cbn [obj_lookup]. destruct (String.eqb_spec k k0) as [->|]; [|done]. by rewrite key_below_lookup.
Qed.
Lemma fold_insert_sorted (l o : list (string * json)) : obj_sorted o = true -> obj_sorted (fold_left (fun o kv => obj_insert kv.1 kv.2 o) l o) = true.
Proof. revert o. induction l as [|kv l IH]; intros o Ho; [done|]. cbn. by apply IH, obj_sorted_insert. Qed.
Lemma object_of_sorted ms : obj_sorted ms = true -> object_of ms = ms.
Proof.
  intros Hs. apply obj_ext; [by apply fold_insert_sorted|done|]. intros k. unfold object_of. rewrite fold_insert_lookup by done. by destruct (obj_lookup k ms).
Qed.

(** ** Writing *)

Definition wrote (m : M serializer unit) (s : serializer) (t i : list Z) : Prop := m s = (Ok tt, mkSerializer (o s ++ t) i).
Lemma wrote_bind m k s t1 t2 i1 i2 : wrote m s t1 i1 -> wrote k (mkSerializer (o s ++ t1) i1) t2 i2 -> wrote (m ;;; k) s (t1 ++ t2) i2.
Proof. unfold wrote. intros E1 E2. rewrite (bind_ok _ _ _ _ _ E1), E2. cbn. by rewrite <- app_assoc. Qed.
Lemma wrote_write t s : wrote (write t) s t (indent_string s).
Proof. done. Qed.
Lemma wrote_string error_handler ensure_ascii str s : valid_utf8 (bytes_of str) ->
  exists t, string_text str t /\ wrote (dump_string error_handler ensure_ascii str) s t (indent_string s).
Proof.
  intros Hv. destruct (dump_escaped_run error_handler ensure_ascii (bytes_of str) (mkSerializer (o s ++ [34]) (indent_string s)) Hv) as (t & Ht & E).
  exists (34 :: t ++ [34]). split; [by exists t|]. unfold dump_string. apply (wrote_bind _ _ s [34] (t ++ [34]) (indent_string s)); [done|].
  by eapply wrote_bind; [exact E|].
Qed.
Lemma spaces_take n i : spaces i -> spaces (take n i).
Proof. apply Forall_take. Qed.
Lemma wrote_indent n s : 0 <= n <= Z.of_nat (length (indent_string s)) -> wrote (write_indent n) s (take (Z.to_nat n) (indent_string s)) (indent_string s).
Proof.
  intros Hn. unfold wrote, write_indent. rewrite (bind_ok Prelude.get _ _ _ _ eq_refl), (proj2 (Z.leb_le _ _)) by lia. rewrite take_app_le by lia. done.
Qed.

Section dump.
Context (error_handler : error_handler_t) (pretty_print ensure_ascii : bool) (indent_step : Z).
Hypothesis Hstep : pretty_print = true -> 0 <= indent_step <= 512.
Abbreviation dump := (dump error_handler pretty_print ensure_ascii indent_step).

(** The string of the indentation is long enough for [n]. *)
Definition wide (n : Z) (i : list Z) : Prop := pretty_print = true -> spaces i /\ 512 <= Z.of_nat (length i) /\ 0 <= n <= Z.of_nat (length i).
Definition wider (i i' : list Z) : Prop := forall n, wide n i -> wide n i'.
Lemma wider_refl i : wider i i.
Proof. by intros n. Qed.
Definition newline : list Z := if pretty_print then [10] else [].
Definition indentation (n : Z) (i : list Z) : list Z := if pretty_print then take (Z.to_nat n) i else [].
Lemma spaces_newline : spaces newline.
Proof. unfold newline. destruct pretty_print; by repeat constructor. Qed.
Lemma spaces_indentation n i : wide n i -> spaces (indentation n i).
Proof. unfold wide, indentation. destruct pretty_print; [|constructor]. intros Hw. by apply spaces_take, Hw. Qed.
Lemma wrote_indentation n s : wide n (indent_string s) -> wrote (when pretty_print (write_indent n)) s (indentation n (indent_string s)) (indent_string s).
Proof.
  unfold wide, indentation. destruct pretty_print; intros Hw; [by apply wrote_indent, Hw|]. unfold wrote. cbn. rewrite app_nil_r. by destruct s.
Qed.
Lemma wide_grow n n' s : wide n (indent_string s) -> (pretty_print = true -> n' = n + indent_step) ->
  exists i, wrote (when pretty_print (grow_indent n')) s [] i /\ wide n i /\ wide n' i /\ wider (indent_string s) i.
Proof.
  unfold wrote, wider, wide, when, grow_indent, modify. rewrite app_nil_r. destruct pretty_print; [|intros _ _; exists (indent_string s); destruct s; split_and!; try done].
  specialize (Hstep eq_refl). intros Hw Hn. rewrite (Hn eq_refl). clear n' Hn. destruct (Hw eq_refl) as (H1 & H2 & H3). destruct (Z.ltb_spec (Z.of_nat (length (indent_string s))) (n + indent_step)).
  - eexists. split; [done|]. assert (spaces (indent_string s ++ replicate (length (indent_string s)) 32)) as Hsp by (apply Forall_app; split; [done|by apply Forall_replicate]).
    rewrite !length_app, !length_replicate. split_and!; [intros _; split_and!; [done|lia..]|intros _; split_and!; [done|lia..]|].
    intros m Hm _. destruct (Hm eq_refl) as (_ & _ & ?). split_and!; [done|lia..].
  - exists (indent_string s). split_and!; [by destruct s|done|intros _; split_and!; [done|lia..]|done].
Qed.

(** *** Containers *)

(** The items of a container, each with the program that writes it. *)
Section items.
Context {X : Type} (item : X -> list Z -> Prop) (items : list X -> list Z -> Prop) (n : Z).
Hypothesis Hlast : forall w1 x t w2, spaces w1 -> item x t -> spaces w2 -> items [x] (w1 ++ t ++ w2).
Hypothesis Hmore : forall w1 x t l r, spaces w1 -> item x t -> items l r -> items (x :: l) (w1 ++ t ++ 44 :: r).
Definition writes (p : M serializer unit * X) : Prop := forall s, wide n (indent_string s) ->
  exists t i, wrote p.1 s t i /\ item p.2 t /\ wider (indent_string s) i.

Lemma elements_run l : Forall writes l -> l <> [] -> forall s w1, wide n (indent_string s) -> spaces w1 ->
  exists t i, wrote (dump_elements pretty_print (map fst l) n) s t i /\ (forall w2, spaces w2 -> items (map snd l) (w1 ++ t ++ w2)) /\ wider (indent_string s) i.
Proof.
  induction 1 as [|[m x] l Hx Hl IH]; intros Hne s w1 Hw H1; [done|]. set (g := indentation n (indent_string s)).
  assert (spaces (w1 ++ g)) as Hg by (apply Forall_app; split; [done|by apply spaces_indentation]).
  destruct (Hx (mkSerializer (o s ++ g) (indent_string s)) Hw) as (t & i & E & Ht & Hi). cbn [fst snd indent_string] in E, Ht, Hi.
  pose proof (wrote_indentation n s Hw) as Eg. fold g in Eg. destruct l as [|y l].
  - exists (g ++ t), i. split_and!; [by eapply wrote_bind| |done]. intros w2 H2. replace (w1 ++ (g ++ t) ++ w2) with ((w1 ++ g) ++ t ++ w2) by by rewrite <- !app_assoc.
    by apply Hlast.
  - destruct (IH ltac:(done) (mkSerializer ((o s ++ g) ++ t ++ (if pretty_print then [44; 10] else [44])) i) newline) as (t2 & i2 & E2 & Hi2 & Hw2);
      [by apply Hi|apply spaces_newline|].
    exists (g ++ t ++ (if pretty_print then [44; 10] else [44]) ++ t2), i2. split_and!.
    + eapply wrote_bind; [exact Eg|]. eapply wrote_bind; [exact E|]. eapply wrote_bind; [apply wrote_write|]. cbn [o indent_string]. rewrite <- app_assoc. exact E2.
    + intros w2 H2. replace (w1 ++ (g ++ t ++ (if pretty_print then [44; 10] else [44]) ++ t2) ++ w2) with ((w1 ++ g) ++ t ++ 44 :: newline ++ t2 ++ w2); [by apply Hmore; auto|].
      unfold newline. rewrite <- !app_assoc. by destruct pretty_print.
    + intros k Hk. by apply Hw2, Hi.
Qed.
Lemma container_run open close l ci s : Forall writes l -> l <> [] -> wide ci (indent_string s) -> (pretty_print = true -> n = ci + indent_step) ->
  exists t i, wrote (dump_container pretty_print open close (map fst l) ci n) s (open :: t ++ [close]) i /\ items (map snd l) t /\ wider (indent_string s) i.
Proof.
  intros Hl Hne Hw Hn. set (s1 := mkSerializer (o s ++ open :: newline) (indent_string s)).
  destruct (wide_grow ci n s1 Hw Hn) as (i1 & E1 & W1 & W2 & W3). set (s2 := mkSerializer (o s1 ++ []) i1).
  destruct (elements_run l Hl Hne s2 newline W2 spaces_newline) as (t & i2 & E2 & Hi & W4). set (s3 := mkSerializer (o s2 ++ t) i2).
  assert (wide ci (indent_string s3)) as W5 by by apply W4. exists (newline ++ t ++ newline ++ indentation ci i2), i2.
  split_and!; [|apply Hi, Forall_app; split; [apply spaces_newline|by apply spaces_indentation]|intros k Hk; by apply W4, W3].
  assert (wrote (when pretty_print (write [10] ;;; write_indent ci)) s3 (newline ++ indentation ci i2) i2) as E3.
  { pose proof (wrote_indentation ci (mkSerializer (o s3 ++ newline) i2) W5) as E. unfold newline, indentation in *. destruct pretty_print.
    - by eapply wrote_bind; [apply wrote_write|].
    - unfold wrote. cbn [when app]. by rewrite (app_nil_r (o s3)). }
  assert (map fst l <> []) as Hne' by by destruct l. unfold dump_container. destruct (map fst l) as [|x xs]; [done|].
  replace (open :: (newline ++ t ++ newline ++ indentation ci i2) ++ [close]) with ((if pretty_print then [open; 10] else [open]) ++ [] ++ t ++ (newline ++ indentation ci i2) ++ [close]).
  2:{ unfold newline. cbn [app]. rewrite <- !app_assoc. by destruct pretty_print. }
  eapply wrote_bind; [apply wrote_write|]. assert ((if pretty_print then [open; 10] else [open]) = open :: newline) as -> by (unfold newline; by destruct pretty_print).
  eapply wrote_bind; [exact E1|]. eapply wrote_bind; [exact E2|]. eapply wrote_bind; [exact E3|]. apply wrote_write.
Qed.
End items.

(** ** Values *)

Definition member_text (kv : string * json) (t : list Z) : Prop :=
  exists kt w t', string_text kv.1 kt /\ spaces w /\ spells kv.2 t' /\ t = kt ++ 58 :: w ++ t'.
Definition dumps (j : json) : Prop := forall ci s, dumpable j -> wide ci (indent_string s) -> (pretty_print = true -> ci + indent_step * depth j < 2 ^ 32) ->
  exists t i, wrote (dump j ci) s t i /\ spells (normal j) t /\ wider (indent_string s) i.
Lemma new_indent_plain ci d i : wide ci i -> (pretty_print = true -> ci + indent_step * (1 + d) < 2 ^ 32) -> 0 <= d ->
  let n := if pretty_print then wrap_u 32 (ci + indent_step) else ci in
  (pretty_print = true -> n = ci + indent_step) /\ (pretty_print = true -> n + indent_step * d < 2 ^ 32).
Proof.
  cbn zeta. unfold wide. destruct pretty_print; [|done]. intros Hw Hb Hd. specialize (Hw eq_refl). specialize (Hb eq_refl). specialize (Hstep eq_refl).
  rewrite wrap_u_small by nia. split; intros _; [done|]. lia.
Qed.
Lemma depth_nonneg j : 0 <= depth j.
Proof. destruct j; cbn; try lia; induction l || induction o0; cbn; lia. Qed.

Lemma dumps_integer signed z : dumpable (if signed : bool then JInt z else JUint z) ->
  forall s, exists t, wrote (dump_integer signed z) s t (indent_string s) /\ spells (normal (if signed then JInt z else JUint z)) t.
Proof.
  intros Hz s. destruct (dump_integer_run signed z s) as (ds & Hi & Hv & E); [by destruct signed|]. eexists. split; [exact E|].
  destruct (Z.ltb_spec z 0).
  - destruct signed; cbn in Hz; [|lia]. cbn [normal]. rewrite (proj2 (Z.leb_gt 0 z)) by done. replace z with (- digits_value ds) by lia. apply spells_int; [done|lia].
  - assert (normal (if signed then JInt z else JUint z) = JUint z) as -> by (destruct signed; [cbn; by rewrite (proj2 (Z.leb_le 0 z))|done]).
    cbn [app]. replace z with (digits_value ds) by lia. apply spells_uint; [done|]. destruct signed; cbn in Hz; lia.
Qed.
Definition depths {X} (f : X -> Z) (l : list X) : Z := foldr (fun x d => Z.max (f x) d) 0 l.
Lemma depths_nonneg {X} (f : X -> Z) l : 0 <= depths f l.
Proof. unfold depths. induction l; cbn; lia. Qed.
Lemma depths_items {X} (f : X -> Z) l n : (pretty_print = true -> n + indent_step * depths f l < 2 ^ 32) ->
  Forall (fun x => pretty_print = true -> n + indent_step * f x < 2 ^ 32) l.
Proof.
  induction l as [|x l IH]; intros Hb; [done|]. change (depths f (x :: l)) with (Z.max (f x) (depths f l)) in Hb.
  constructor; [|apply IH]; intros Hp; specialize (Hb Hp); specialize (Hstep Hp); nia.
Qed.
Lemma last_text w1 x t w2 : spaces w1 -> member_text x t -> spaces w2 -> spells_members [x] (w1 ++ t ++ w2).
Proof.
  destruct x as [k j]. intros H1 (kt & w & t' & Hk & Hw & Hj & ->) H2. pose proof (spells_last_member w1 k kt [] w j t' w2 H1 Hk (Forall_nil_2 _) Hw Hj H2) as Hs.
  cbn [app] in Hs. rewrite <- !app_assoc. cbn [app]. by rewrite <- !app_assoc.
Qed.
Lemma more_text w1 x t l r : spaces w1 -> member_text x t -> spells_members l r -> spells_members (x :: l) (w1 ++ t ++ 44 :: r).
Proof.
  destruct x as [k j]. intros H1 (kt & w & t' & Hk & Hw & Hj & ->) Hr. pose proof (spells_more_members w1 k kt [] w j t' [] l r H1 Hk (Forall_nil_2 _) Hw Hj (Forall_nil_2 _) Hr) as Hs.
  cbn [app] in Hs. rewrite <- !app_assoc. cbn [app]. by rewrite <- !app_assoc.
Qed.

Lemma dumps_array l : Forall dumps l -> dumps (JArray l).
Proof.
  intros Hl ci s Hd Hw Hb. cbn [Serializer.dump]. set (n := if pretty_print then _ else ci). destruct (decide (l = [])) as [->|Hne].
  { exists [91; 93], (indent_string s). split_and!; [done|apply (spells_no_array []), Forall_nil_2|apply wider_refl]. }
  destruct (new_indent_plain ci _ _ Hw Hb (depths_nonneg depth l)) as [Hn Hb']. fold n in Hn, Hb'. apply depths_items in Hb'.
  set (ps := map (fun x => (dump x n, normal x)) l). assert (Forall (writes spells n) ps) as Hps.
  { apply Forall_fmap. cbn in Hd. clear Hne Hb ps. induction Hl as [|x xs Hx _ IH]; [done|]. inversion Hb' as [|? ? Hbx Hbs]; subst. destruct Hd as [Hdx Hds].
    constructor; [|by apply IH]. intros s' Hw'. exact (Hx n s' Hdx Hw' Hbx). }
  destruct (container_run spells spells_elements n spells_last (fun w1 x t l r H1 Hx Hr => spells_more w1 x t [] l r H1 Hx (Forall_nil_2 _) Hr) 91 93 ps ci s Hps)
    as (t & i & E & Ht & Hi); [by destruct l|done|done|].
  exists (91 :: t ++ [93]), i. unfold ps in *. rewrite !map_map in *. split_and!; [exact E|by apply spells_array|done].
Qed.
Lemma dumps_object o : Forall (fun kv => dumps kv.2) o -> dumps (JObject o).
Proof.
  intros Hl ci s [Hs Hd] Hw Hb. cbn [Serializer.dump]. set (n := if pretty_print then _ else ci). destruct (decide (o = [])) as [->|Hne].
  { exists [123; 125], (indent_string s). split_and!; [done|apply (spells_no_object []), Forall_nil_2|apply wider_refl]. }
  destruct (new_indent_plain ci _ _ Hw Hb (depths_nonneg (fun kv => depth kv.2) o)) as [Hn Hb']. fold n in Hn, Hb'. apply depths_items in Hb'.
  set (sep := if pretty_print then [58; 32] else [58]).
  set (ps := map (fun kv => ((dump_string error_handler ensure_ascii kv.1 ;;; write sep ;;; dump kv.2 n), (kv.1, normal kv.2))) o).
  assert (Forall (writes member_text n) ps) as Hps.
  { apply Forall_fmap. clear Hne Hb ps Hs. induction Hl as [|[k x] xs Hx _ IH]; [done|]. inversion Hb' as [|? ? Hbx Hbs]; subst. destruct Hd as [[Hk Hdx] Hds].
    constructor; [|by apply IH]. intros s' Hw'. cbn [fst snd] in *. destruct (wrote_string error_handler ensure_ascii k s' Hk) as (kt & Hkt & Ek).
    destruct (Hx n (mkSerializer ((Serializer.o s' ++ kt) ++ sep) (indent_string s')) Hdx Hw' Hbx) as (t & i & E & Ht & Hi).
    exists (kt ++ sep ++ t), i. split_and!; [by eapply wrote_bind; [exact Ek|]; eapply wrote_bind; [apply wrote_write|]| |done].
    exists kt, (if pretty_print then [32] else []), t. split_and!; [done|destruct pretty_print; by repeat constructor|done|]. unfold sep. by destruct pretty_print. }
  destruct (container_run member_text spells_members n last_text more_text 123 125 ps ci s Hps) as (t & i & E & Ht & Hi); [by destruct o|done|done|].
  exists (123 :: t ++ [125]), i. unfold ps in *. rewrite !map_map in *. split_and!; [exact E| |done]. apply spells_object in Ht. rewrite object_of_sorted in Ht; [exact Ht|].
  rewrite <- Hs. apply obj_sorted_keys. by rewrite map_map.
Qed.
Lemma every_dumps j : dumps j.
Proof.
  induction j as [|b|z|z|f|str|l IH|ob IH] using json_ind'; [..|by apply dumps_array|by apply dumps_object]; intros ci s Hd _ _; cbn [Serializer.dump normal].
  - eexists _, _. split_and!; [done|apply spells_null|apply wider_refl].
  - eexists _, _. split_and!; [done|destruct b; constructor|apply wider_refl].
  - destruct (dumps_integer true z Hd s) as (t & E & Ht). exists t, (indent_string s). split_and!; [done|done|apply wider_refl].
  - destruct (dumps_integer false z Hd s) as (t & E & Ht). exists t, (indent_string s). split_and!; [done|done|apply wider_refl].
  - unfold dump_float. cbn [dumpable] in Hd. destruct (is_finite f) eqn:Ef.
    + destruct (to_chars_spec f Hd Ef) as (t & E & Hf & Hlen & Hv). exists t, (indent_string s). split_and!; [|pose proof (spells_float _ Hf ltac:(by rewrite Hv)) as Hs; by rewrite Hv in Hs|apply wider_refl].
      unfold wrote. rewrite E, lift_bind, (proj2 (Nat.leb_le _ _)) by (unfold number_buffer_size; lia). apply wrote_write.
    + eexists _, _. split_and!; [done|apply spells_null|apply wider_refl].
  - destruct (wrote_string error_handler ensure_ascii str s Hd) as (t & Ht & E). exists t, (indent_string s). split_and!; [done|by apply spells_string|apply wider_refl].
Qed.
End dump.

(** ** Bytes *)

Abbreviation in_bytes := (Forall is_byte_value).
Lemma spaces_bytes w : spaces w -> in_bytes w.
Proof. intros Hw. eapply Forall_impl; [exact Hw|]. intros c Hc%space_range. unfold is_byte_value. lia. Qed.
Lemma digits_bytes ds : digits ds -> in_bytes ds.
Proof. intros Hd. eapply Forall_impl; [exact Hd|]. intros c Hc%between_spec. unfold is_byte_value. lia. Qed.
Lemma hexes_bytes ds cp : hexes ds = Some cp -> in_bytes ds.
Proof.
  assert (forall c, is_Some (hex_of c) -> is_byte_value c) as Hh.
  { intros c [v Hv]. unfold hex_of in Hv. unfold is_byte_value. repeat case_match; try done;
      repeat match goal with E : between _ _ c = true |- _ => apply between_spec in E end; lia. }
  intros Hd. destruct ds as [|a [|b [|c [|d [|]]]]]; try done. cbn in Hd. repeat case_match; try done. repeat constructor; apply Hh; eauto.
Qed.
Lemma piece_bytes b t : piece b t -> in_bytes t.
Proof.
  intros [c Hc _ _|c ranges r Hc Hr Hf|c b' Hb|ds cp Hd _|ds1 ds2 hi lo H1 H2 _ _].
  - constructor; [unfold is_byte_value; lia|done].
  - constructor; [|eapply ranges_bytes; eauto]. unfold is_byte_value. unfold ranges_after, between in Hr. repeat case_match; try done; lia.
  - constructor; [done|]. apply Forall_singleton. unfold is_byte_value. unfold short_escape in Hb. repeat case_match; try done; lia.
  - do 2 (constructor; [done|]). by eapply hexes_bytes.
  - do 2 (constructor; [done|]). apply Forall_app. split; [by eapply hexes_bytes|]. do 2 (constructor; [done|]). by eapply hexes_bytes.
Qed.
Lemma spelled_bytes v t : spelled v t -> in_bytes t.
Proof. induction 1 as [|b t v r Hp _ IH]; [done|]. apply Forall_app. split; [by eapply piece_bytes|done]. Qed.
Lemma string_bytes s t : string_text s t -> in_bytes t.
Proof. intros (t' & Ht & ->). constructor; [done|]. apply Forall_app. split; [by eapply spelled_bytes|by constructor]. Qed.
Lemma int_bytes i : int_part i -> in_bytes i.
Proof. intros Hi. by apply digits_bytes, int_part_digits. Qed.
Lemma float_bytes t : float_text t -> in_bytes t.
Proof.
  assert (forall e, is_exponent e = true -> is_byte_value e) as Hx by (unfold is_exponent, is_byte_value; lia).
  assert (forall d ds, is_digit d = true -> digits ds -> in_bytes (d :: ds)) as Hdd by (intros d ds Hd Hds; apply digits_bytes; by constructor).
  intros (sign & i & f & e & Hs & Hi & Hf & He & _ & ->). apply Forall_app; split; [destruct Hs as [-> | ->]; by repeat constructor|].
  apply Forall_app; split; [by apply int_bytes|]. apply Forall_app; split.
  - destruct Hf; [done|]. constructor; [done|by apply Hdd].
  - destruct He as [|e d ds He Hd Hds|e sg d ds He Hsg Hd Hds]; [done|constructor; [by apply Hx|by apply Hdd]|].
    constructor; [by apply Hx|]. constructor; [destruct Hsg as [-> | ->]; done|by apply Hdd].
Qed.
Create HintDb bytes discriminated.
#[export] Hint Resolve spaces_bytes string_bytes int_bytes float_bytes : bytes.
Lemma spells_bytes : (forall j t, spells j t -> in_bytes t) /\ (forall l t, spells_elements l t -> in_bytes t) /\ (forall ms t, spells_members ms t -> in_bytes t).
Proof.
  apply spells_all; intros; repeat match goal with
    | |- in_bytes (_ ++ _) => apply Forall_app; split
    | |- in_bytes (_ :: _) => constructor; [done|]
    | |- in_bytes [] => constructor
    | |- in_bytes (bytes_of _) => apply bytes_of_range
    end; eauto with bytes.
Qed.
Lemma bytes_of_text_of l : in_bytes l -> bytes_of (text_of l) = l.
Proof.
  intros Hl. unfold bytes_of, text_of. rewrite String.list_ascii_of_string_of_list_ascii, map_map. rewrite <- (map_id l) at 2. apply map_ext_in.
  intros c Hc. rewrite Forall_forall in Hl. assert (is_byte_value c) as Hb by (apply Hl; by apply list_elem_of_In). unfold byte_of, char_of.
  rewrite Ascii.N_ascii_embedding; unfold is_byte_value in Hb; lia.
Qed.

(** C2: A value is the same after [dump] and [parse], for every value with
    64-bit integers, doubles, strings in UTF-8 and members in the order of the
    keys, with any indentation up to 512 (or in one line), by any kind of white
    space, with or without escapes for all but ASCII and with every handler of
    errors.  Integers from 0 on are read as unsigned, and infinities and NaN as
    null. *)
Theorem json_text_roundtrip error_handler ensure_ascii indent indent_char j :
  dumpable j -> is_space indent_char = true -> indent <= 512 -> indent * depth j < 2 ^ 32 ->
  exists text, dump_bytes error_handler ensure_ascii indent indent_char j = Ok (bytes_of text) /\ parse text = Ok (normal j).
Proof.
  intros Hd Hc Hi Hdep. set (s := mkSerializer [] (replicate 512 indent_char)). set (step := if 0 <=? indent then indent else 0).
  assert ((0 <=? indent) = true -> 0 <= step <= 512) as Hstep by (unfold step; intros E; rewrite E; lia).
  destruct (every_dumps error_handler (0 <=? indent) ensure_ascii step Hstep j 0 s Hd) as (t & i & E & Ht & _).
  - intros _. split_and!; [by apply Forall_replicate|done..].
  - intros E. unfold step. by rewrite E.
  - pose proof (proj1 spells_bytes _ _ Ht) as Hb. exists (text_of t). unfold dump_bytes, parse. fold s step. rewrite E, bytes_of_text_of by done. split; [done|].
    pose proof (parse_spelled (normal j) t [] [] Ht (Forall_nil_2 _) (Forall_nil_2 _)) as Hp. cbn [app] in Hp. rewrite app_nil_r in Hp. apply Hp.
    eapply Forall_impl; [exact Hb|]. unfold is_byte_value. lia.
Qed.

(** A sample: the doubles are 0.1 and a NaN. *)
Definition sample_value : json :=
  JObject [("k"%string, JArray [JInt (-5); JUint 18446744073709551615; JFloat (S754_finite false 7205759403792794 (-56)); JFloat S754_nan]); (text_of [195; 169], JString (text_of [34; 10; 240; 159; 152; 128]))].
Lemma sample_dumpable : dumpable sample_value.
Proof.
  cbn. split_and!; try done; try lia.
  - by apply valid_ascii; [|constructor].
  - apply (valid_multi 195 [(128, 191)] [169] []); [done|done|by repeat constructor|constructor].
  - apply valid_ascii; [done|]. apply valid_ascii; [done|]. apply (valid_multi 240 [(144, 191); (128, 191); (128, 191)] [159; 152; 128] []); [done|done|by repeat constructor|constructor].
Qed.
Lemma json_text_roundtrip_witness : exists text,
  dump_bytes strict true 4 32 sample_value = Ok (bytes_of text) /\ parse text = Ok (normal sample_value).
Proof.
  apply (json_text_roundtrip strict true 4 32 sample_value); [apply sample_dumpable|done|done|done].
Defined.
