(* ===== verification/SdpDump.v ===== *)
(** * What the writer of session descriptions prints of other values

    [operator<<] of a JSON value, which writer.cpp calls for arguments that are
    not strings, is json.hpp's serializer: the printing of SdpWrite.v, with the
    serializer of JsonText.v as its parameter, gives the serializer's text for
    every value that has one. *)

From stdpp Require Import base list strings pretty.
From Stdlib Require Import ZArith Lia SpecFloat.
From S2P Require Import Prelude Json Utils SdpWrite JsonText JsonTextSpec JsonReadSpec JsonWriteSpec GrisuText JsonRoundTrip.
Import Lexer Serializer.
Local Open Scope Z_scope.

(** The serializer; a value that it throws for has no text. *)
Definition serializer_dump : JsonDump := {| dump_other j := match dump_text j with Ok s => s | _ => EmptyString end |}.

(** ** Integers *)

Lemma digit_last ds : digits ds -> ds <> [] -> exists ds' d, ds = ds' ++ [48 + d] /\ digits ds' /\ 0 <= d <= 9 /\ digits_value ds = 10 * digits_value ds' + d.
Proof.
  intros Hd Hne. destruct ds as [|c ds' _] using rev_ind; [done|]. apply Forall_app in Hd as [Hd Hc]. apply Forall_singleton, between_spec in Hc.
  exists ds', (c - 48). replace (48 + (c - 48)) with c by lia. split_and!; [done|done|lia|lia|]. rewrite digits_value_app. change (digits_value [c]) with (10 * 0 + (c - 48)). cbn [length]. lia.
Qed.
Lemma char_of_digit d : 0 <= d <= 9 -> char_of (48 + d) = pretty_N_char (Z.to_N d).
Proof.
  intros Hd. assert (d = 0 \/ d = 1 \/ d = 2 \/ d = 3 \/ d = 4 \/ d = 5 \/ d = 6 \/ d = 7 \/ d = 8 \/ d = 9) as Hcases by lia.
  repeat destruct Hcases as [->|Hcases]; [..|rewrite Hcases]; reflexivity.
Qed.

(** Digits without a leading zero are those that [pretty] gives. *)
Lemma digits_pretty_go ds s : digits ds -> ds = [] \/ (exists c r, ds = c :: r /\ c <> 48) -> text_of ds +:+ s = pretty_N_go (Z.to_N (digits_value ds)) s.
Proof.
  remember (length ds) as n eqn:Hn. revert ds s Hn. induction n as [|n IH]; intros ds s Hn Hd Hl; [destruct ds; done|].
  destruct (digit_last ds Hd) as (ds' & d & -> & Hd' & Hdr & Hv); [by intros ->|].
  assert (Hl' : ds' = [] \/ (exists c r, ds' = c :: r /\ c <> 48)).
  { destruct ds' as [|c ds']; [by left|]. destruct Hl as [Hl|(c' & r & [= <- _] & Hc)]; [done|]. right. by exists c, ds'. }
  assert (Hpos : 0 < digits_value (ds' ++ [48 + d])).
  { destruct Hl as [Hl|(c & r & E & Hc)]; [by destruct ds'|]. rewrite E in *. apply (GrisuText.leading_positive (c :: r)); [done|]. by exists c, r. }
  rewrite pretty_N_go_step by lia. rewrite length_app in Hn. cbn [length] in Hn. pose proof (digits_value_nonneg ds' Hd').
  assert (E : digits_value (ds' ++ [48 + d]) / 10 = digits_value ds' /\ digits_value (ds' ++ [48 + d]) mod 10 = d).
  { rewrite Hv. split; [symmetry; apply (Z.div_unique _ _ _ d); lia|symmetry; apply (Z.mod_unique _ _ (digits_value ds')); lia]. }
  destruct E as [Ediv Emod]. set (v := digits_value (ds' ++ [48 + d])) in *.
  replace (Z.to_N v `div` 10)%N with (Z.to_N (digits_value ds')) by (rewrite <- Ediv; apply (Z2N.inj_div v 10); lia).
  replace (Z.to_N v `mod` 10)%N with (Z.to_N d) by (rewrite <- Emod; apply (Z2N.inj_mod v 10); lia).
  rewrite <- IH, text_of_app, <- char_of_digit by (done || lia). by rewrite string_app_assoc.
Qed.
Lemma int_part_pretty ds : int_part ds -> text_of ds = pretty (digits_value ds).
Proof.
  intros [|d ds' Hd Hne Hds]; [done|]. assert (Hdig : digits (d :: ds')) by by constructor.
  pose proof (GrisuText.leading_positive (d :: ds') Hdig ltac:(by exists d, ds')) as Hpos.
  rewrite pretty_Z_N by lia. unfold pretty, pretty_N. rewrite decide_False by lia. rewrite <- digits_pretty_go; [|done|right; by exists d, ds'].
  by rewrite string_app_nil_r.
Qed.

(** ** Values *)

Lemma dump_text_ok j : dumpable j -> exists t, dump_text j = Ok t.
Proof.
  intros Hd. set (s := mkSerializer [] (replicate 512 32)). destruct (every_dumps strict false false 0 ltac:(done) j 0 s Hd) as (t & i & E & _); [done|done|].
  exists (text_of t). unfold dump_text, dump_bytes. change (0 <=? -1) with false. cbv iota. fold s. rewrite E. done.
Qed.
Lemma dump_text_integer signed z : dumpable (if signed : bool then JInt z else JUint z) -> dump_text (if signed then JInt z else JUint z) = Ok (pretty z).
Proof.
  intros Hz. set (s := mkSerializer [] (replicate 512 32)). destruct (dump_integer_run signed z s) as (ds & Hi & Hv & E); [by destruct signed|].
  assert (Ed : dump_text (if signed then JInt z else JUint z) = Ok (text_of ((if z <? 0 then [45] else []) ++ ds))).
  { unfold dump_text, dump_bytes. change (0 <=? -1) with false. cbv iota. fold s. destruct signed; cbn [dump]; rewrite E; done. }
  rewrite Ed. f_equal. rewrite text_of_app, (int_part_pretty ds Hi), Hv. destruct (Z.ltb_spec z 0) as [Hneg|Hpos].
  - destruct z as [|p|p]; [lia|lia|]. reflexivity.
  - cbn [app]. rewrite Z.abs_eq by lia. done.
Qed.

(** The writer prints what the serializer gives, for every value with a text
    that is not a string (whose bytes the writer copies). *)
Theorem writer_prints_serialized j : dumpable j -> is_string j = false -> dump_text j = Ok (@SdpWrite.dump serializer_dump j).
Proof.
  intros Hd Hs. destruct (dump_text_ok j Hd) as [t Ht].
  destruct j as [|b|z|z|f|str|l|ob]; [done|by destruct b|exact (dump_text_integer true z Hd)|exact (dump_text_integer false z Hd)|..|done| |];
    cbn [SdpWrite.dump dump_other serializer_dump]; by rewrite Ht.
Qed.
