(* ===== verification/SdpSpec.v ===== *)
(** * Properties of libsdptransform

    Parsing never fails, whatever the text, and printing never fails on an
    object whose media is an array of objects. *)

From stdpp Require Import base list strings pretty.
From Stdlib Require Import ZArith Lia Ascii.
From S2P Require Import Prelude Json Text OrtcValidate OrtcValidateSpec OrtcCaps OrtcMatch OrtcExtended Utils.
From S2P Require Import MediaSection MediaSectionSpec Regex Grammar SdpWrite SdpParse.

(** ** The shape of a session or media object while parsing *)

Definition all_rules : list Rule :=
  concat (map (fun t => default [] (rulesMap t)) (chars "vosiuepzrtcbma")).
Definition push_keys : list string := filter (fun k => k <> "") (map rule_push all_rules).
Definition is_blank (rule : Rule) : bool :=
  negb (String.eqb (rule_name rule) "") && negb (Nat.eqb (length (rule_names rule)) 0).
Definition blank_keys : list string := map rule_name (List.filter is_blank all_rules).
Definition mem (k : string) (l : list string) : bool := existsb (String.eqb k) l.
Definition plain (k : string) : bool := negb (mem k push_keys) && negb (mem k blank_keys).

(** Members filled by pushing are arrays, members with named parts are objects. *)
Record location_ok (j : json) : Prop := {
  lo_object : is_object j = true;
  lo_push : forall k, mem k push_keys = true -> key_opt k is_array j = true;
  lo_blank : forall k, mem k blank_keys = true -> key_opt k is_object j = true;
}.

Lemma key_opt_jset k k' p v j : is_object j = true ->
  key_opt k p (jset k' v j) = if String.eqb k k' then p v else key_opt k p j.
Proof.
  intros Ho. unfold key_opt. rewrite jset_find by done. destruct (String.eqb k k'); [|done]. cbn. by rewrite negb_involutive.
Qed.

Lemma location_set k v j : location_ok j ->
  (mem k push_keys = true -> is_array v = true) -> (mem k blank_keys = true -> is_object v = true) ->
  location_ok (jset k v j).
Proof.
  intros [Ho Hp Hb] Hv1 Hv2. split; [by apply jset_object|..]; intros k' Hk'; rewrite key_opt_jset by done;
    destruct (String.eqb_spec k' k) as [->|]; auto.
Qed.

(** What the rules of the grammar keep to. *)
Definition rule_ok (rule : Rule) : bool :=
  Nat.leb (Nat.max 1 (length (rule_names rule))) (length (rule_types rule)) &&
  if negb (String.eqb (rule_push rule) "") then mem (rule_push rule) push_keys && negb (mem (rule_push rule) blank_keys) && String.eqb (rule_name rule) ""
  else if is_blank rule then mem (rule_name rule) blank_keys && negb (mem (rule_name rule) push_keys)
  else plain (rule_name rule) && forallb plain (rule_names rule).

Lemma all_rules_ok : forallb rule_ok all_rules = true.
Proof. vm_compute. reflexivity. Qed.

Lemma set_key_object k v j : is_object j = true -> set_key k v j = (Ok tt, jset k v j).
Proof. by destruct j. Qed.

(** Setting names whose values are not constrained. *)
Lemma attachNames_ok rule caps (P : json -> Prop) :
  (forall j, P j -> is_object j = true) ->
  forall names i j, i + length names <= length (rule_types rule) ->
  (forall k v j, k ∈ names -> P j -> P (jset k v j)) -> P j ->
  exists j', attachNames rule caps i names j = (Ok tt, j') /\ P j'.
Proof.
  intros HP names. induction names as [|name names IH]; intros i j Hlen Hset Hj; cbn [attachNames]; [by exists j|].
  cbn [length] in Hlen. destruct (lookup_lt_is_Some_2 (rule_types rule) i) as [t Ht]; [lia|].
  assert (forall k v j, k ∈ names -> P j -> P (jset k v j)) as Hset' by (intros; apply Hset; [by right|done]).
  assert (exists j1, when (Nat.ltb (S i) (S (groups (rule_reg rule))) && negb (String.eqb (group (S i) caps) ""))
    (t <- type_at rule i ;; set_key name (toType (group (S i) caps) t)) j = (Ok tt, j1) /\ P j1) as (j1 & E1 & H1).
  { destruct (_ && _); cbn [when]; [|by exists j]. unfold type_at. rewrite Ht, (bind_ok (ret t) _ _ _ _ eq_refl).
    eexists. split; [by apply set_key_object, HP|]. apply Hset; [by left|done]. }
  rewrite (bind_ok _ _ _ _ _ E1). apply IH; [lia|done|done].
Qed.

Lemma attachProperties_ok rule caps (P : json -> Prop) j :
  (forall j, P j -> is_object j = true) -> Nat.max 1 (length (rule_names rule)) <= length (rule_types rule) ->
  (forall k v j, k ∈ rule_name rule :: rule_names rule -> P j -> P (jset k v j)) -> P j ->
  exists j', attachProperties rule caps j = (Ok tt, j') /\ P j'.
Proof.
  intros HP Hlen Hset Hj. unfold attachProperties. destruct (rule_names rule) as [|n ns] eqn:En.
  - destruct (negb _); cbn [when]; [|by exists j].
    destruct (lookup_lt_is_Some_2 (rule_types rule) 0) as [t Ht]; [cbn in Hlen; lia|].
    unfold type_at. rewrite Ht, (bind_ok (ret t) _ _ _ _ eq_refl).
    eexists. split; [by apply set_key_object, HP|]. apply Hset; [by left|done].
  - apply (attachNames_ok rule caps P HP); [cbn in *; lia| |done]. intros k v j' Hk. apply Hset. by right.
Qed.

Lemma at_key_present {A} k (m : M json A) j v a v' : is_object j = true -> find k j = Some v -> m v = (Ok a, v') ->
  at_key k m j = (Ok a, jset k v' j).
Proof. destruct j; try done. cbn [find]. intros _ Hf E. unfold at_key. by rewrite Hf; cbn; rewrite E. Qed.

(** A member of the given kind, added when it was missing. *)
Lemma ensured k v (p : json -> bool) j : is_object j = true -> key_opt k p j = true -> p v = true ->
  exists x, find k (if contains k j then j else jset k v j) = Some x /\ p x = true.
Proof.
  intros Ho Hk Hv. unfold contains, key_opt in *. destruct (find k j) as [x|] eqn:E.
  - exists x. split; [done|]. cbn in Hk. by rewrite negb_involutive in Hk.
  - exists v. rewrite jset_find, String.eqb_refl by done. by split.
Qed.

Lemma mem_not_plain k : plain k = true -> mem k push_keys = false /\ mem k blank_keys = false.
Proof. unfold plain. rewrite andb_true_iff, !negb_true_iff. done. Qed.

Lemma location_set_plain k v j : location_ok j -> plain k = true -> location_ok (jset k v j).
Proof. intros H [H1 H2]%mem_not_plain. apply location_set; [done|by rewrite H1|by rewrite H2]. Qed.

(** One step of [parseReg]: the array to push to, or the object for the parts. *)
Definition prepared (rule : Rule) (j : json) : json :=
  if negb (String.eqb (rule_push rule) "") && negb (contains (rule_push rule) j) then jset (rule_push rule) (JArray []) j
  else if is_blank rule && negb (contains (rule_name rule) j) then jset (rule_name rule) (JObject []) j else j.

Lemma prepare_ok rule j : is_object j = true ->
  (if negb (String.eqb (rule_push rule) "") && negb (contains (rule_push rule) j) then set_key (rule_push rule) (JArray [])
   else when (is_blank rule && negb (contains (rule_name rule) j)) (set_key (rule_name rule) (JObject []))) j
  = (Ok tt, prepared rule j).
Proof.
  intros Ho. unfold prepared. destruct (_ && _); [by apply set_key_object|].
  destruct (is_blank rule && _); cbn [when]; [by apply set_key_object|done].
Qed.

Lemma parseReg_pushes rule caps j : location_ok j -> rule_ok rule = true -> String.eqb (rule_push rule) "" = false ->
  exists j', parseReg rule caps j = (Ok tt, j') /\ location_ok j'.
Proof.
  intros Hj Hr Hp. unfold rule_ok in Hr. rewrite Hp in Hr. cbn [negb] in Hr. rewrite !andb_true_iff, negb_true_iff, Nat.leb_le in Hr.
  destruct Hr as [Hlen [[Hk Hnb] Hname]]. pose proof (lo_object _ Hj) as Ho.
  assert (is_blank rule = false) as Hblank by (unfold is_blank; by rewrite Hname).
  unfold parseReg. fold (is_blank rule). cbv zeta. rewrite (bind_ok get _ _ _ _ eq_refl), (bind_ok _ _ _ _ _ (prepare_ok rule j Ho)).
  unfold prepared. rewrite Hp, Hblank. cbn [negb andb].
  destruct (attachProperties_ok rule caps (fun j => is_object j = true) (JObject [])) as (obj & -> & _);
    [done|done|intros; by apply jset_object|done|].
  destruct (ensured (rule_push rule) (JArray []) is_array j Ho (lo_push _ Hj _ Hk) eq_refl) as (x & Hx & Hax).
  set (j1 := if negb (contains (rule_push rule) j) then _ else _).
  assert (location_ok j1 /\ find (rule_push rule) j1 = Some x) as [H1 Hx1].
  { unfold j1. destruct (contains (rule_push rule) j); cbn [negb]; [done|].
    split; [apply location_set; [done|done|by rewrite Hnb]|done]. }
  rewrite (bind_ok (lift (Ok tt)) _ _ _ _ eq_refl). destruct x as [| | | | | |l|]; try done.
  eexists. split; [eapply at_key_present; [apply H1|exact Hx1|reflexivity]|].
  apply location_set; [done|done|by rewrite Hnb].
Qed.

Lemma parseReg_names rule caps j : location_ok j -> rule_ok rule = true -> String.eqb (rule_push rule) "" = true ->
  exists j', parseReg rule caps j = (Ok tt, j') /\ location_ok j'.
Proof.
  intros Hj Hr Hp. unfold rule_ok in Hr. rewrite Hp in Hr. cbn [negb] in Hr. rewrite andb_true_iff, Nat.leb_le in Hr.
  destruct Hr as [Hlen Hr]. pose proof (lo_object _ Hj) as Ho.
  unfold parseReg. fold (is_blank rule). cbv zeta. rewrite (bind_ok get _ _ _ _ eq_refl), (bind_ok _ _ _ _ _ (prepare_ok rule j Ho)).
  unfold prepared. rewrite Hp. cbn [negb andb]. destruct (is_blank rule) eqn:Hblank; cbn [andb].
  - apply andb_prop in Hr as [Hk Hnp%negb_true_iff].
    destruct (ensured (rule_name rule) (JObject []) is_object j Ho (lo_blank _ Hj _ Hk) eq_refl) as (x & Hx & Hox).
    set (j1 := if negb (contains (rule_name rule) j) then _ else _).
    assert (location_ok j1 /\ find (rule_name rule) j1 = Some x) as [H1 Hx1].
    { unfold j1. destruct (contains (rule_name rule) j); cbn [negb]; [done|].
      split; [apply location_set; [done|by rewrite Hnp|done]|done]. }
    destruct (attachProperties_ok rule caps (fun j => is_object j = true) x) as (obj & E & Hobj);
      [done|done|intros; by apply jset_object|done|].
    eexists. split; [eapply at_key_present; [apply H1|exact Hx1|exact E]|].
    apply location_set; [done|by rewrite Hnp|done].
  - apply andb_prop in Hr as [Hn Hns]. apply (attachProperties_ok rule caps location_ok); [apply lo_object|done| |done].
    intros k v j' Hk Hj'. apply location_set_plain; [done|]. apply elem_of_cons in Hk as [->|Hk]; [done|].
    rewrite forallb_forall in Hns. by apply Hns, list_elem_of_In.
Qed.

Lemma parseReg_ok rule caps j : location_ok j -> rule_ok rule = true ->
  exists j', parseReg rule caps j = (Ok tt, j') /\ location_ok j'.
Proof.
  intros Hj Hr. destruct (String.eqb (rule_push rule) "") eqn:Hp; [by apply parseReg_names|by apply parseReg_pushes].
Qed.

(** ** Lines and texts *)

Lemma rulesMap_ok t rules : rulesMap t = Some rules -> Forall (fun r => rule_ok r = true) rules.
Proof.
  intros Ht. pose proof all_rules_ok as Hall. unfold all_rules in Hall. rewrite forallb_forall in Hall.
  apply List.Forall_forall. intros r Hr. apply Hall, in_concat. exists rules. split; [|done]. apply in_map_iff.
  exists t. rewrite Ht. split; [done|]. destruct t as [[] [] [] [] [] [] [] []]; try discriminate Ht; vm_compute; tauto.
Qed.

Lemma first_rule_in content rules rule caps : first_rule content rules = Some (rule, caps) -> rule ∈ rules.
Proof.
  induction rules as [|r rules IH]; [done|]. cbn [first_rule]. destruct (regex_search content (rule_reg r)).
  - intros [= <- <-]. by left.
  - intros H. right. by apply IH.
Qed.

Definition state_ok (s : json * list json) : Prop := location_ok s.1 /\ Forall location_ok s.2.

Lemma location_empty : location_ok (JObject []).
Proof. split; [done|..]; intros k _; done. Qed.
Lemma location_newMedia : location_ok newMedia.
Proof.
  assert (newMedia = jset "rtp" (JArray []) (jset "fmtp" (JArray []) (JObject []))) as -> by (vm_compute; reflexivity).
  do 2 (apply location_set; [|done|by intros Hb; vm_compute in Hb]). apply location_empty.
Qed.

Lemma at_location_ok m s : state_ok s -> (forall j, location_ok j -> exists j', m j = (Ok tt, j') /\ location_ok j') ->
  exists s', at_location m s = (Ok tt, s') /\ state_ok s'.
Proof.
  destruct s as [session media]. intros [Hs Hm] Hf. unfold at_location. cbn [fst snd] in *. destruct media as [|x media].
  - destruct (Hf _ Hs) as (j' & -> & Hj'). by eexists.
  - set (n := length (x :: media) - 1). destruct (lookup_lt_is_Some_2 (x :: media) n) as [l Hl]; [cbn; lia|].
    cbv zeta. assert (default JNull ((x :: media) !! n) = l) as -> by (by rewrite Hl). destruct (Hf l) as (j' & -> & Hj'); [by eapply Forall_lookup_1|].
    eexists. split; [done|]. split; [done|]. by apply Forall_insert.
Qed.

Lemma parseLine_ok line s : state_ok s -> exists s', parseLine line s = (Ok tt, s') /\ state_ok s'.
Proof.
  intros Hs. unfold parseLine. destruct (valid_line _) as [[type content]|]; [|by exists s].
  assert (exists s1, (if Ascii.eqb type "m" then (fun s => (Ok tt, (s.1, s.2 ++ [newMedia]))) else ret tt) s = (Ok tt, s1) /\
    state_ok s1) as (s1 & E1 & H1).
  { destruct (Ascii.eqb type "m"); [|by exists s]. eexists. split; [done|]. destruct Hs as [? ?]. split; [done|].
    apply Forall_app. split; [done|]. constructor; [apply location_newMedia|done]. }
  rewrite (bind_ok _ _ _ _ _ E1). destruct (rulesMap type) as [rules|] eqn:Er; [|by exists s1].
  destruct (first_rule content rules) as [[rule caps]|] eqn:Ef; [|by exists s1].
  apply at_location_ok; [done|]. intros j Hj. apply parseReg_ok; [done|].
  pose proof (rulesMap_ok _ _ Er) as Hall. rewrite Forall_forall in Hall. by eapply Hall, first_rule_in.
Qed.

Lemma parse_lines_ok lines s : state_ok s -> exists s', for_list lines parseLine s = (Ok tt, s') /\ state_ok s'.
Proof.
  revert s. induction lines as [|l lines IH]; intros s Hs; cbn [for_list]; [by exists s|].
  destruct (parseLine_ok l s Hs) as (s1 & E1 & H1). rewrite (bind_ok _ _ _ _ _ E1). by apply IH.
Qed.

Lemma parse_ok sdp :
  exists session media, parse sdp = Ok session /\ is_object session = true /\
    find "media" session = Some (JArray media) /\ Forall (fun m => is_object m = true) media.
Proof.
  destruct (parse_lines_ok (split sdp newline) (JObject [], [])) as ([session media] & E & [Hs Hm]).
  { split; [apply location_empty|constructor]. }
  unfold parse. rewrite E. cbn [obind fst snd] in *. pose proof (lo_object _ Hs) as Ho.
  exists (jset "media" (JArray media) session), media. split_and!.
  - by rewrite (bind_ok _ _ _ _ _ (set_key_object _ _ _ Ho)).
  - by apply jset_object.
  - by rewrite jset_find, String.eqb_refl.
  - eapply Forall_impl; [exact Hm|]. intros m Hlm. apply Hlm.
Qed.


(** ** Printing *)

Section printing.
Context `{JsonDump}.

Lemma ensure_ok k v j : is_object j = true -> exists j', ensure k v j = (Ok tt, j') /\ is_object j' = true /\
  contains k j' = true /\ (forall k', k' <> k -> find k' j' = find k' j) /\ (contains k j = true -> j' = j) /\
  (contains k j = false -> find k j' = Some v).
Proof.
  intros Ho. destruct (contains k j) eqn:Ec.
  - exists j. by rewrite (ensure_present k v j Ec).
  - exists (jset k v j). unfold ensure. rewrite (bind_ok get _ _ _ _ eq_refl), Ec. cbn [negb when].
    split_and!; [by apply set_key_object|by apply jset_object| | |done|].
    + unfold contains. by rewrite jset_find, String.eqb_refl.
    + intros k' Hk. rewrite jset_find by done. by apply String.eqb_neq in Hk as ->.
    + intros _. by rewrite jset_find, String.eqb_refl.
Qed.

Lemma ensure_payloads_ok l : forallb is_object l = true ->
  exists l', for_range (ensure "payloads" (JString "")) (JArray l) = (Ok tt, JArray l') /\
    forallb (fun m => is_object m && contains "payloads" m) l' = true.
Proof.
  intros Hl. cbn [for_range]. assert (exists l', each (ensure "payloads" (JString "")) l = (Ok tt, l') /\
    forallb (fun m => is_object m && contains "payloads" m) l' = true) as (l' & -> & Hl').
  { induction l as [|m l IH]; [by exists []|]. cbn [forallb] in Hl. apply andb_prop in Hl as [Hm Hl]. cbn [each].
    destruct (ensure_ok "payloads" (JString "") m Hm) as (m' & -> & Hm' & Hc & _).
    destruct (IH Hl) as (l' & -> & Hl'). exists (m' :: l'). cbn [forallb]. by rewrite Hm', Hc, Hl'. }
  by exists l'.
Qed.

Lemma write_completes j : is_object j = true -> key_opt "media" (array_of is_object) j = true ->
  exists t j', write j = (Ok t, j') /\ session_lines j' = Ok t /\ writable j' = true.
Proof.
  intros Ho Hm. unfold write. rewrite (bind_ok get _ _ _ _ eq_refl), Ho. cbn [negb throw_if].
  rewrite (bind_ok (ret tt) _ _ _ _ eq_refl).
  destruct (ensure_ok "version" (JInt 0) j Ho) as (j1 & E1 & Ho1 & Hv1 & Hf1 & _). rewrite (bind_ok _ _ _ _ _ E1).
  destruct (ensure_ok "name" (JString "-") j1 Ho1) as (j2 & E2 & Ho2 & Hn2 & Hf2 & _). rewrite (bind_ok _ _ _ _ _ E2).
  destruct (ensure_ok "media" (JArray []) j2 Ho2) as (j3 & E3 & Ho3 & Hm3 & Hf3 & Hsame & Hnew). rewrite (bind_ok _ _ _ _ _ E3).
  assert (exists l, find "media" j3 = Some (JArray l) /\ forallb is_object l = true) as (l & Hl & Hobj).
  { destruct (contains "media" j2) eqn:Ec.
    - rewrite (Hsame eq_refl), Hf2, Hf1 by done. unfold contains in Ec. rewrite Hf2, Hf1 in Ec by done.
      unfold key_opt in Hm. destruct (find "media" j) as [x|]; [|done]. cbn in Hm. rewrite negb_involutive in Hm.
      destruct x as [| | | | | |l|]; try done. by exists l.
    - exists []. by rewrite (Hnew eq_refl). }
  destruct (ensure_payloads_ok l Hobj) as (l' & El & Hl').
  pose (j4 := jset "media" (JArray l') j3).
  assert (deref "media" (for_range (ensure "payloads" (JString ""))) j3 = (Ok tt, j4)) as E4.
  { unfold deref, zoom. rewrite Hl, El. unfold j4. destruct j3; done. }
  rewrite (bind_ok _ _ _ _ _ E4), (bind_ok get _ _ _ _ eq_refl).
  assert (writable j4 = true) as Hw.
  { assert (contains "version" j4 = true) as Hv by (unfold contains, j4 in *; rewrite jset_find, Hf3, Hf2 by done; done).
    assert (contains "name" j4 = true) as Hn by (unfold contains, j4 in *; rewrite jset_find, Hf3 by done; done).
    unfold writable, key_ok. rewrite Hv, Hn. unfold j4. rewrite jset_find, jset_object, String.eqb_refl by done.
    cbn [andb missing array_of]. by rewrite Hl'. }
  destruct (write_ok j4 Hw) as (t & _ & Ht). exists t, j4. unfold lift. by rewrite Ht.
Qed.
End printing.

(** [sdptransform::write] returns for every text that was parsed: the
    lines of the session, with the version, name and payloads it lacked added;
    and writing again gives the same text and changes nothing. *)
Theorem parsed_is_writable `{JsonDump} sdp :
  exists session session' text, parse sdp = Ok session /\ write session = (Ok text, session') /\
    write session' = (Ok text, session').
Proof.
  destruct (parse_lines_ok (split sdp newline) (JObject [], [])) as ([session media] & E & [Hs Hm]).
  { split; [apply location_empty|constructor]. }
  pose proof (lo_object _ Hs) as Ho. pose (j := jset "media" (JArray media) session).
  destruct (write_completes j) as (t & j' & Hw & Ht & Hwr).
  { by apply jset_object. }
  { unfold key_opt, j. rewrite jset_find, String.eqb_refl by done. cbn. rewrite negb_involutive.
    apply Forall_forallb. eapply Forall_impl; [exact Hm|]. intros m Hlm. apply Hlm. }
  exists j, j', t. split_and!; [|done|].
  - unfold parse. rewrite E. cbn [obind fst snd] in *. by rewrite (bind_ok _ _ _ _ _ (set_key_object _ _ _ Ho)).
  - destruct (write_ok j' Hwr) as (t' & Hw' & Ht'). rewrite Ht in Ht'. by injection Ht' as <-.
Qed.

(** The candidate of the grammar's examples, with a network id only. *)
Definition sample_candidate (network_id : Z) : json := mk_obj
  [ ("foundation", JString "f"); ("component", JInt 1); ("transport", JString "udp"); ("priority", JInt 1);
    ("ip", JString "1.2.3.4"); ("port", JInt 4000); ("type", JString "host"); ("network-id", JInt network_id) ].

(** A candidate with a network id and no generation is printed without
    the id: the format has no place for the missing generation, so the id's
    place takes the empty argument of the generation. *)
Theorem network_id_lost `{JsonDump} n :
  makeLine "a" rule_candidates (sample_candidate n) =
    Ok ("a=candidate:f 1 udp 1 1.2.3.4 4000 typ host network-id " +:+ crlf).
Proof. vm_compute. reflexivity. Qed.
