(* ===== verification/SdpUtils.v ===== *)
(** * sdp/Utils.cpp

    Reading capabilities, DTLS parameters and encodings out of a parsed session,
    and the two functions that edit a media object. *)

From stdpp Require Import base list strings pretty.
From Stdlib Require Import ZArith Lia Ascii.
From S2P Require Import Prelude Json Text OrtcCaps Utils MediaSection Regex Grammar SdpParse.

(** ** [std::map] and [std::set] with integer keys: lists in order *)

Fixpoint zinsert {V} (k : Z) (v : V) (m : list (Z * V)) : list (Z * V) :=
  match m with
  | [] => [(k, v)]
  | (k0, v0) :: r =>
    if (k <? k0)%Z then (k, v) :: m else if (k =? k0)%Z then (k, v) :: r else (k0, v0) :: zinsert k v r
  end.
Fixpoint zlookup {V} (k : Z) (m : list (Z * V)) : option V :=
  match m with
  | [] => None
  | (k0, v0) :: r => if (k =? k0)%Z then Some v0 else zlookup k r
  end.
Definition zerase {V} (k : Z) (m : list (Z * V)) : list (Z * V) :=
  List.filter (fun x => negb (x.1 =? k)%Z) m.

(** [v[i]] of a vector: undefined past the end. *)
Definition vec_at {A} (i : nat) (v : list A) : outcome A := match v !! i with Some x => Ok x | None => Undef end.

Fixpoint ofold {A B} (f : A -> B -> outcome A) (l : list B) (a : A) : outcome A :=
  match l with
  | [] => Ok a
  | x :: r => let! a' := f a x in ofold f r a'
  end.

(** ** [extractRtpCapabilities] *)

Definition codecs_map := list (Z * json).

Definition rtpCodec (kind : string) (codecsMap : codecs_map) (rtp : json) : outcome codecs_map :=
  let! c := idx "codec" rtp in
  let! name := get_string c in
  let! rate := idx "rate" rtp in
  let! payload := idx "payload" rtp in
  let codec := mk_obj
    [ ("mimeType", JString (kind +:+ "/" +:+ name)); ("kind", JString kind); ("clockRate", rate);
      ("preferredPayloadType", payload); ("rtcpFeedback", JArray []); ("parameters", JObject []) ] in
  let! codec :=
    if String.eqb kind "audio" then
      match find "encoding" rtp with
      | Some (JString s) => let! channels := stoi s in Ok (jset "channels" (JInt channels) codec)
      | _ => Ok (jset "channels" (JInt 1) codec)
      end
    else Ok codec in
  let! pt := get_uint8 payload in
  Ok (zinsert pt codec codecsMap).

Definition fmtpParameters (codecsMap : codecs_map) (fmtp : json) : outcome codecs_map :=
  let! c := idx "config" fmtp in
  let! config := get_string c in
  let parameters := parseParams config in
  let! p := idx "payload" fmtp in
  let! pt := get_uint8 p in
  match zlookup pt codecsMap with
  | None => Ok codecsMap
  | Some codec => Ok (zinsert pt (jset "parameters" parameters codec) codecsMap)
  end.

(** The payload type of a feedback line is text, and may be a star. *)
Definition rtcpFeedback (codecsMap : codecs_map) (fb : json) : outcome codecs_map :=
  let! p := idx "payload" fb in
  let! s := get_string p in
  let! n := stoi s in
  let pt := wrap_u 8 n in
  match zlookup pt codecsMap with
  | None => Ok codecsMap
  | Some codec =>
    let! type := idx "type" fb in
    let feedback := mk_obj [ ("type", type) ] in
    let feedback := match find "subtype" fb with Some s => jset "parameter" s feedback | None => feedback end in
    let '(r, codec) := at_key "rtcpFeedback" (push_back feedback) codec in
    let! _ := r in
    Ok (zinsert pt codec codecsMap)
  end.

Definition headerExtension (kind : string) (ext : json) : outcome json :=
  let! uri := idx "uri" ext in
  let! value := idx "value" ext in
  Ok (mk_obj [ ("kind", JString kind); ("uri", uri); ("preferredId", value) ]).

Record extraction := mkExtraction {
  codecsMap : codecs_map;
  headerExtensions : list json;
  gotAudio : bool;
  gotVideo : bool;
}.

(** The section is used if it is the first of its kind. *)
Definition extractMedia (s : extraction) (m : json) : outcome extraction :=
  let! v := idx "type" m in
  let! kind := get_string v in
  let used := (String.eqb kind "audio" && negb (gotAudio s)) || (String.eqb kind "video" && negb (gotVideo s)) in
  if negb used then Ok s else
  let! rtps := idx "rtp" m in
  let! cm := ofold (rtpCodec kind) (elems rtps) (codecsMap s) in
  let! fmtps := idx "fmtp" m in
  let! cm := ofold fmtpParameters (elems fmtps) cm in
  let! fbs := idx "rtcpFb" m in
  let! cm := ofold rtcpFeedback (elems fbs) cm in
  let! exts := idx "ext" m in
  let! hs := omapM (headerExtension kind) (elems exts) in
  Ok (mkExtraction cm (headerExtensions s ++ hs)
        (gotAudio s || String.eqb kind "audio") (gotVideo s || String.eqb kind "video")).

Definition extractRtpCapabilities (sdpObject : json) : outcome json :=
  let! media := idx "media" sdpObject in
  let! s := ofold extractMedia (elems media) (mkExtraction [] [] false false) in
  Ok (mk_obj [ ("headerExtensions", JArray (headerExtensions s)); ("codecs", JArray (map snd (codecsMap s)));
               ("fecMechanisms", JArray []) ]).

(** ** [extractDtlsParameters] *)

Definition usable_media (media : json) : outcome bool :=
  if contains "iceUfrag" media then let! port := idx "port" media in Ok (negb (json_eqb port (JInt 0))) else Ok false.

Definition setup_role (setup : string) : string :=
  if String.eqb setup "active" then "client"
  else if String.eqb setup "passive" then "server"
  else if String.eqb setup "actpass" then "auto" else "".

Definition extractDtlsParameters (sdpObject : json) : outcome json :=
  let! media := idx "media" sdpObject in
  let! it := ofind_if usable_media (elems media) in
  let m := default JNull it in
  let fingerprint :=
    match find "fingerprint" m with
    | Some f => f
    | None => match find "fingerprint" sdpObject with Some f => f | None => JNull end
    end in
  let! role := match find "setup" m with
               | Some v => let! setup := get_string v in Ok (setup_role setup)
               | None => Ok ""
               end in
  let '(r, fingerprint) := get_key "type" fingerprint in
  let! algorithm := r in
  let! value := ref_get "hash" fingerprint in
  Ok (mk_obj [ ("role", JString role);
               ("fingerprints", JArray [mk_obj [ ("algorithm", algorithm); ("value", value) ]]) ]).

(** ** [addLegacySimulcast] *)

(** The test is [it == end() && !it->is_string()]: a line without the attribute
    dereferences [end()]. *)
Definition isMsidLine (line : json) : outcome bool :=
  let! v := find_deref "attribute" line in
  let! s := get_string v in
  Ok (String.eqb s "msid").

(** The RTX SSRC of the first group, of any semantics, that starts with
    [firstSsrc]; 0 if there is none. *)
Fixpoint findRtxSsrc (firstSsrc : Z) (ssrcGroups : list json) : outcome Z :=
  match ssrcGroups with
  | [] => Ok 0%Z
  | line :: r =>
    match find "semantics" line, find "ssrcs" line with
    | Some (JString _), Some (JString ssrcs) =>
      let v := split ssrcs " " in
      let! v0 := vec_at 0 v in
      let! first := stoull v0 in
      if (first =? firstSsrc)%Z then
        let! v1 := vec_at 1 v in
        let! rtx := stoull v1 in
        Ok (wrap_u 32 rtx)
      else findRtxSsrc firstSsrc r
    | _, _ => findRtxSsrc firstSsrc r
    end
  end.

Definition isCnameLine (firstSsrc : Z) (line : json) : outcome bool :=
  match find "attribute" line, find "id" line with
  | Some (JString attribute), Some id =>
    if is_number id then
      if String.eqb attribute "cname" then let! n := get_uint32 id in Ok (n =? firstSsrc)%Z else Ok false
    else Ok false
  | _, _ => Ok false
  end.

(** [first + i] in 32 bits, for every stream. *)
Definition streamSsrcs (first : Z) (numStreams : nat) : list Z :=
  map (fun i => wrap_u 32 (first + Z.of_nat i)) (seq 0 numStreams).

Definition fidGroup (ssrc rtxSsrc : Z) : json :=
  mk_obj [ ("semantics", JString "FID"); ("ssrcs", JString (pretty ssrc +:+ " " +:+ pretty rtxSsrc)) ].
Definition ssrcLines (cname msid : string) (ssrc : Z) : list json :=
  [ ssrcLine ssrc "cname" cname; ssrcLine ssrc "msid" msid ].

(** The groups and lines that replace the old ones. *)
Definition simulcastGroups (ssrcs rtxSsrcs : list Z) : list json :=
  mk_obj [ ("semantics", JString "SIM"); ("ssrcs", JString (join_uint32 ssrcs " ")) ] ::
  zip_with fidGroup ssrcs rtxSsrcs.
Definition simulcastLines (cname msid : string) (ssrcs rtxSsrcs : list Z) : list json :=
  concat (map (ssrcLines cname msid) ssrcs) ++ concat (map (ssrcLines cname msid) rtxSsrcs).

Definition addLegacySimulcast (numStreams : nat) : M json unit :=
  if Nat.leb numStreams 1 then ret tt else
  mSsrcs <- get_key "ssrcs" ;;
  it <- lift (ofind_if isMsidLine (elems mSsrcs)) ;;
  match it with
  | None => throw (MediaSoupClientError "a=ssrc line with msid information not found")
  | Some ssrcMsidLine =>
    value <- lift (ref_get "value" ssrcMsidLine) ;;
    s <- lift (get_string value) ;;
    let v := split s " " in
    streamId <- lift (vec_at 0 v) ;;
    trackId <- lift (vec_at 1 v) ;;
    id <- lift (ref_get "id" ssrcMsidLine) ;;
    firstSsrc <- lift (get_uint32 id) ;;
    offerMediaObject <- get ;;
    firstRtxSsrc <- lift (match find "ssrcGroups" offerMediaObject with
                          | Some ssrcGroups => findRtxSsrc firstSsrc (elems ssrcGroups)
                          | None => Ok 0%Z
                          end) ;;
    it <- lift (ofind_if (isCnameLine firstSsrc) (elems mSsrcs)) ;;
    match it with
    | None => throw (MediaSoupClientError "CNAME line not found")
    | Some line =>
      value <- lift (ref_get "value" line) ;;
      cname <- lift (get_string value) ;;
      let ssrcs := streamSsrcs firstSsrc numStreams in
      let rtxSsrcs := if (firstRtxSsrc =? 0)%Z then [] else streamSsrcs firstRtxSsrc numStreams in
      let msidValue := streamId +:+ " " +:+ trackId in
      set_key "ssrcGroups" (JArray (simulcastGroups ssrcs rtxSsrcs)) ;;;
      set_key "ssrcs" (JArray (simulcastLines cname msidValue ssrcs rtxSsrcs))
    end
  end.

(** ** [getCname] and [getRtpEncodings] *)

Definition hasAttribute (line : json) : bool :=
  match find "attribute" line with Some (JString _) => true | _ => false end.

(** The member that is read is "ssrc". *)
Definition getCname (offerMediaObject : json) : outcome string :=
  match find "ssrc" offerMediaObject with
  | None => Ok ""
  | Some mSsrcs =>
    match List.find hasAttribute (elems mSsrcs) with
    | None => Ok ""
    | Some line => let! v := idx "value" line in get_string v
    end
  end.

Definition lineSsrc (ssrcs : list (Z * unit)) (line : json) : outcome (list (Z * unit)) :=
  let! v := idx "id" line in
  let! ssrc := get_uint32 v in
  Ok (zinsert ssrc tt ssrcs).

(** The state: the SSRCs not handled yet, and the map to RTX SSRCs. *)
Definition fidLine (s : list (Z * unit) * list (Z * Z)) (line : json) : outcome (list (Z * unit) * list (Z * Z)) :=
  let '(ssrcs, ssrcToRtxSsrc) := s in
  let! v := idx "semantics" line in
  let! semantics := get_string v in
  if negb (String.eqb semantics "FID") then Ok s else
  let! v := idx "ssrcs" line in
  let! fid := get_string v in
  let v := split fid " " in
  let! v0 := vec_at 0 v in
  let! ssrc := stoull v0 in
  let! v1 := vec_at 1 v in
  let! rtxSsrc := stoull v1 in
  let ssrc := wrap_u 32 ssrc in
  let rtxSsrc := wrap_u 32 rtxSsrc in
  let ssrcs := match zlookup ssrc ssrcs with Some _ => zerase rtxSsrc (zerase ssrc ssrcs) | None => ssrcs end in
  Ok (ssrcs, zinsert ssrc rtxSsrc ssrcToRtxSsrc).

Definition encodingOf (kv : Z * Z) : json :=
  let encoding := mk_obj [ ("ssrc", JUint kv.1) ] in
  if (kv.2 =? 0)%Z then encoding else jset "rtx" (mk_obj [ ("ssrc", JUint kv.2) ]) encoding.

Definition getRtpEncodings (offerMediaObject : json) : outcome json :=
  let! lines := idx "ssrcs" offerMediaObject in
  let! ssrcs := ofold lineSsrc (elems lines) [] in
  match ssrcs with
  | [] => Throw (MediaSoupClientError "no a=ssrc lines found")
  | _ =>
    let! s := match find "ssrcGroups" offerMediaObject with
              | Some ssrcGroups => ofold fidLine (elems ssrcGroups) (ssrcs, [])
              | None => Ok (ssrcs, [])
              end in
    let ssrcToRtxSsrc := foldl (fun m x => zinsert x.1 0%Z m) s.2 s.1 in
    Ok (JArray (map encodingOf ssrcToRtxSsrc))
  end.

(** ** [applyCodecParameters] *)

(** A reference to the [i]-th value that iteration visits. *)
Definition at_elem {A} (i : nat) (m : M json A) : M json A := fun j =>
  match j with
  | JNull => (Undef, j)
  | JArray l =>
    match l !! i with Some x => let '(r, x') := m x in (r, JArray (<[i:=x']> l)) | None => (Undef, j) end
  | JObject o =>
    match o !! i with Some (k, x) => let '(r, x') := m x in (r, JObject (<[i:=(k, x')]> o)) | None => (Undef, j) end
  | _ => m j
  end.

(** As for an fmtp line of a section, but numbers are read as [int]. *)
Definition apply_value (v : json) : outcome string :=
  match v with
  | JString s => Ok s
  | JFloat f => Ok (print_float (to_float f))
  | _ => if is_number v then let! z := get_int32 v in Ok (pretty z) else Ok ""
  end.
Fixpoint apply_config (config : string) (l : list (string * json)) : outcome string :=
  match l with
  | [] => Ok config
  | (key, value) :: r =>
    let! s := apply_value value in
    apply_config ((if String.eqb config "" then config else config +:+ ";") +:+ key +:+ "=" +:+ s) r
  end.

(** [fmtp] is the state: its configuration is parsed, edited and written back. *)
Definition applyStereo (codec : json) : M json unit :=
  c <- get_key "config" ;;
  config <- lift (get_string c) ;;
  let parameters := parseParams config in
  p <- lift (idx "parameters" codec) ;;
  let parameters := match find "sprop-stereo" p with
                    | Some (JBool spropStereo) => jset "stereo" (JInt (if spropStereo then 1 else 0)) parameters
                    | _ => parameters
                    end in
  config <- lift (apply_config "" (items parameters)) ;;
  set_key "config" (JString config).

Definition samePayload (codec x : json) : outcome bool :=
  let! p := idx "payload" x in
  let! pt := idx "payloadType" codec in
  Ok (json_eqb p pt).

Definition applyCodec (codec : json) : M json unit :=
  v <- lift (idx "mimeType" codec) ;;
  s <- lift (get_string v) ;;
  if negb (String.eqb (lower s) "audio/opus") then ret tt else
  rtps <- get_key "rtp" ;;
  it <- lift (ofind_if (samePayload codec) (elems rtps)) ;;
  match it with
  | None => ret tt
  | Some _ =>
    answerMediaObject <- get ;;
    when (negb (contains "fmtp" answerMediaObject)) (set_key "fmtp" (JArray [])) ;;;
    fmtps <- get_key "fmtp" ;;
    it <- lift (ofind_idx (samePayload codec) (elems fmtps) 0) ;;
    i <- match it with
         | Some i => ret i
         | None =>
           pt <- lift (idx "payloadType" codec) ;;
           at_key "fmtp" (push_back (mk_obj [ ("payload", pt); ("config", JString "") ])) ;;;
           ret (length (elems fmtps))
         end ;;
    at_key "fmtp" (at_elem i (applyStereo codec))
  end.

Definition applyCodecParameters (offerRtpParameters : json) : M json unit :=
  codecs <- lift (idx "codecs" offerRtpParameters) ;;
  for_list (elems codecs) applyCodec.
