(* ===== verification/SdpUtilsSpec.v ===== *)
(** * Properties of sdp/Utils.cpp

    Encodings are read back from the lines that announce them, with and without
    RTX and simulcast; roles and fingerprints are read back from sections; and
    the cases in which reading fails. *)

From stdpp Require Import base list strings pretty.
From Stdlib Require Import ZArith Lia Ascii.
From S2P Require Import Prelude Json Text OrtcValidate OrtcValidateSpec OrtcCaps OrtcMatch OrtcExtended.
From S2P Require Import OrtcDerive Utils MediaSection MediaSectionSpec Regex Grammar SdpParse SdpUtils.

(** ** Ordered maps *)

Section maps.
Context {V : Type}.
Implicit Types m : list (Z * V).

Lemma zlookup_insert k k' v m : zlookup k (zinsert k' v m) = if (k =? k')%Z then Some v else zlookup k m.
Proof.
  induction m as [|[k0 v0] m IH]; cbn [zinsert zlookup]; [done|].
  destruct (Z.ltb_spec k' k0); cbn [zlookup]; [done|]. destruct (Z.eqb_spec k' k0) as [->|]; cbn [zlookup].
  - by destruct (Z.eqb_spec k k0).
  - rewrite IH. destruct (Z.eqb_spec k k0), (Z.eqb_spec k k'); try done. lia.
Qed.

Lemma zlookup_erase k k' m : zlookup k (zerase k' m) = if (k =? k')%Z then None else zlookup k m.
Proof.
  unfold zerase. induction m as [|[k0 v0] m IH]; cbn [List.filter zlookup fst]; [by destruct (k =? k')%Z|].
  destruct (Z.eqb_spec k0 k') as [->|]; cbn [negb zlookup].
  - rewrite IH. by destruct (Z.eqb_spec k k').
  - rewrite IH. destruct (Z.eqb_spec k k0), (Z.eqb_spec k k'); try done. lia.
Qed.

Lemma zinsert_last k v m : Forall (fun x => (x.1 < k)%Z) m -> zinsert k v m = m ++ [(k, v)].
Proof.
  induction 1 as [|[k0 v0] m Hk _ IH]; cbn [zinsert app]; [done|]. cbn in Hk.
  destruct (Z.ltb_spec k k0); [lia|]. destruct (Z.eqb_spec k k0); [lia|]. by rewrite IH.
Qed.

Lemma zlookup_empty m : (forall k, zlookup k m = None) -> m = [].
Proof. destruct m as [|[k v] m]; [done|]. intros H. specialize (H k). cbn in H. by rewrite Z.eqb_refl in H. Qed.
End maps.

(** ** The SSRC lines *)

Definition u32 (z : Z) : Prop := (0 <= z < 2 ^ 32)%Z.
Lemma wrap_u32 z : u32 z -> wrap_u 32 z = z.
Proof. intros H. apply Z.mod_small, H. Qed.
Lemma get_uint32_u32 z : u32 z -> get_uint32 (JUint z) = Ok z.
Proof. intros H. unfold get_uint32, get_arith. cbn. f_equal. by apply wrap_u32. Qed.

Lemma lineSsrc_ok ssrcs ssrc a v : u32 ssrc -> lineSsrc ssrcs (ssrcLine ssrc a v) = Ok (zinsert ssrc tt ssrcs).
Proof.
  intros H. unfold lineSsrc, ssrcLine. erewrite idx_mk_obj by reflexivity. cbn [obind].
  by rewrite get_uint32_u32.
Qed.

Lemma zinsert_twice {V} k (v : V) m : zinsert k v (zinsert k v m) = zinsert k v m.
Proof.
  induction m as [|[k0 v0] m IH]; cbn [zinsert].
  - by rewrite Z.ltb_irrefl, Z.eqb_refl.
  - destruct (Z.ltb_spec k k0); cbn [zinsert]; [by rewrite Z.ltb_irrefl, Z.eqb_refl|].
    destruct (Z.eqb_spec k k0) as [->|]; cbn [zinsert]; [by rewrite Z.ltb_irrefl, Z.eqb_refl|].
    destruct (Z.ltb_spec k k0); [lia|]. destruct (Z.eqb_spec k k0); [lia|]. by rewrite IH.
Qed.

Lemma ssrcLines_ok cname msid l : Forall u32 l -> forall ssrcs,
  ofold lineSsrc (concat (map (ssrcLines cname msid) l)) ssrcs = Ok (foldl (fun s x => zinsert x tt s) ssrcs l).
Proof.
  induction 1 as [|x l Hx _ IH]; intros ssrcs; [done|].
  change (concat (map (ssrcLines cname msid) (x :: l))) with
    (ssrcLine x "cname" cname :: ssrcLine x "msid" msid :: concat (map (ssrcLines cname msid) l)).
  cbn [ofold]. rewrite lineSsrc_ok by done. cbn [obind]. rewrite lineSsrc_ok by done. cbn [obind].
  by rewrite zinsert_twice, IH.
Qed.

Lemma zlookup_foldl l s k :
  zlookup k (foldl (fun s x => zinsert x tt s) s l) = if existsb (Z.eqb k) l then Some tt else zlookup k s.
Proof.
  revert s. induction l as [|x l IH]; intros s; [done|]. cbn [foldl existsb]. rewrite IH, zlookup_insert.
  by destruct (k =? x)%Z, (existsb (Z.eqb k) l).
Qed.

Lemma ofold_app {A B} (f : A -> B -> outcome A) l1 l2 a a' : ofold f l1 a = Ok a' -> ofold f (l1 ++ l2) a = ofold f l2 a'.
Proof.
  revert a. induction l1 as [|x l1 IH]; intros a; cbn [ofold app]; [by intros [= ->]|].
  destruct (f a x) as [b|e|]; [|done..]. cbn [obind]. apply IH.
Qed.

(** ** FID groups *)

Lemma no_blank z : (0 <= z)%Z -> has_char " " (pretty z) = false /\ pretty z <> "".
Proof.
  intros Hz. destruct (pretty_digits z Hz) as (c & r & E & Hd & _). rewrite E. split; [|done].
  clear E. revert Hd. generalize (String c r). intros s. induction s as [|x s IH]; [done|]. cbn [all_digits has_char].
  destruct (digit x) as [d|] eqn:Ed; [|done]. intros Hs. rewrite IH by done.
  destruct (digit_not_space x d Ed) as [Hsp _]. destruct (Ascii.eqb_spec x " "); [by subst|done].
Qed.

Lemma split_pair a b : u32 a -> u32 b -> split (pretty a +:+ " " +:+ pretty b) " " = [pretty a; pretty b].
Proof.
  intros [Ha _] [Hb _]. apply (split_join_tokens " " [pretty a; pretty b]).
  constructor; [by apply no_blank|]. constructor; [by apply no_blank|done].
Qed.

Lemma fidLine_ok S T a b : u32 a -> u32 b -> fidLine (S, T) (fidGroup a b) =
  Ok (match zlookup a S with Some _ => zerase b (zerase a S) | None => S end, zinsert a b T).
Proof.
  intros Ha Hb. unfold fidLine, fidGroup. erewrite idx_mk_obj by reflexivity. cbn [obind get_string].
  eqb_literals. cbn [negb]. erewrite idx_mk_obj by reflexivity. cbn [obind get_string].
  rewrite split_pair by done. cbn [vec_at lookup list_lookup obind]. unfold u32 in *.
  rewrite !stoull_pretty by lia. cbn [obind]. by rewrite !wrap_u32.
Qed.

Definition in_z (k : Z) (l : list Z) : bool := existsb (Z.eqb k) l.
Lemma in_z_true k l : in_z k l = true <-> k ∈ l.
Proof. unfold in_z. rewrite existsb_exists, list_elem_of_In. split; [intros (x & ? & ->%Z.eqb_eq); done|intros; exists k; by rewrite Z.eqb_refl]. Qed.
Lemma in_z_app k l1 l2 : in_z k (l1 ++ l2) = in_z k l1 || in_z k l2.
Proof. apply existsb_app. Qed.

(** Strictly increasing. *)
Fixpoint increasing (l : list Z) : Prop :=
  match l with [] => True | x :: r => Forall (fun y => (x < y)%Z) r /\ increasing r end.

Lemma fid_fold A : forall B S T, length A = length B -> Forall u32 A -> Forall u32 B -> increasing A ->
  Forall (fun t => Forall (fun a => (t.1 < a)%Z) A) T -> (forall k, k ∈ A -> k ∉ B) ->
  (forall k, k ∈ A -> zlookup k S = Some tt) ->
  exists S', ofold fidLine (zip_with fidGroup A B) (S, T) = Ok (S', T ++ zip A B) /\
    forall k, zlookup k S' = if in_z k (A ++ B) then None else zlookup k S.
Proof.
  induction A as [|a A IH]; intros [|b B] S T Hlen HA HB Hinc HT Hd HS; try done.
  - exists S. cbn. by rewrite app_nil_r.
  - apply Forall_cons in HA as [Ha HA], HB as [Hb HB]. cbn in Hinc. destruct Hinc as [Hlt Hinc].
    cbn [zip_with ofold]. rewrite fidLine_ok by done. cbn [obind]. rewrite (HS a) by (by left).
    assert (Forall (fun x => (x.1 < a)%Z) T) as HTa.
    { eapply Forall_impl; [exact HT|]. intros t Ht. by apply Forall_cons in Ht as [? _]. }
    rewrite zinsert_last by done.
    destruct (IH B (zerase b (zerase a S)) (T ++ [(a, b)])) as (S' & E & HS'); [by injection Hlen|done..| | | |].
    + apply Forall_app. split; [|by constructor]. eapply Forall_impl; [exact HT|]. intros t Ht. by apply Forall_cons in Ht as [_ ?].
    + intros k Hk Hkb. apply (Hd k); by right.
    + intros k Hk. rewrite !zlookup_erase. rewrite Forall_forall in Hlt. specialize (Hlt k Hk).
      destruct (Z.eqb_spec k b) as [->|]; [destruct (Hd b); [by right|by left]|].
      destruct (Z.eqb_spec k a); [lia|]. apply HS. by right.
    + exists S'. rewrite E, <- app_assoc. split; [done|]. intros k. rewrite HS', !zlookup_erase, !in_z_app. cbn [in_z existsb].
      unfold in_z. destruct (Z.eqb_spec k a), (Z.eqb_spec k b), (existsb (Z.eqb k) A), (existsb (Z.eqb k) B); done.
Qed.

Lemma foldl_zinsert_sorted {V W} (f : V -> Z) (g : W) l : increasing (map f l) ->
  forall m, Forall (fun t => Forall (fun x => (t.1 < f x)%Z) l) m ->
  foldl (fun (m : list (Z * W)) x => zinsert (f x) g m) m l = m ++ map (fun x => (f x, g)) l.
Proof.
  induction l as [|x l IH]; intros Hinc m Hm; cbn [foldl map]; [by rewrite app_nil_r|].
  cbn [map increasing] in Hinc. destruct Hinc as [Hlt Hinc].
  rewrite zinsert_last by (eapply Forall_impl; [exact Hm|]; intros t Ht; by apply Forall_cons in Ht as [? _]).
  rewrite IH; [by rewrite <- app_assoc|done|]. apply Forall_app. split.
  - eapply Forall_impl; [exact Hm|]. intros t Ht. by apply Forall_cons in Ht as [_ ?].
  - constructor; [|done]. cbn. by rewrite List.Forall_map in Hlt.
Qed.

(** Groups that are not FID groups are passed over. *)
Definition other_group (g : json) : Prop := exists s, find "semantics" g = Some (JString s) /\ s <> "FID".
Lemma other_groups_ok gs st : Forall other_group gs -> ofold fidLine gs st = Ok st.
Proof.
  destruct st as [S T]. induction 1 as [|g gs (s & Hs & Hne) _ IH]; [done|]. cbn [ofold fidLine].
  rewrite (idx_find _ _ _ Hs). cbn [obind get_string]. apply String.eqb_neq in Hne. by rewrite Hne.
Qed.

(** A section that announces the media SSRCs [A], each with the RTX SSRC of
    [B] at its position if there is any. *)
Record announces (m : json) (cname msid : string) (A B : list Z) : Prop := {
  an_lines : find "ssrcs" m = Some (JArray (simulcastLines cname msid A B));
  an_groups : exists gs, find "ssrcGroups" m = Some (JArray (gs ++ zip_with fidGroup A B)) /\ Forall other_group gs;
  an_range : Forall u32 A /\ Forall u32 B;
  an_order : increasing A;
  an_some : A <> [];
}.

Lemma announced_ssrcs m cname msid A B : announces m cname msid A B ->
  exists x S, ofold lineSsrc (simulcastLines cname msid A B) [] = Ok (x :: S) /\
    forall k, zlookup k (x :: S) = if in_z k (A ++ B) then Some tt else None.
Proof.
  intros [_ _ [HA HB] _ Hne]. unfold simulcastLines.
  erewrite ofold_app by (by apply ssrcLines_ok). rewrite ssrcLines_ok by done.
  set (S := foldl _ _ B). assert (forall k, zlookup k S = if in_z k (A ++ B) then Some tt else None) as HS.
  { intros k. unfold S. rewrite !zlookup_foldl, in_z_app. unfold in_z.
    by destruct (existsb (Z.eqb k) B), (existsb (Z.eqb k) A). }
  destruct S as [|x S]; [|by exists x, S]. destruct A as [|a A]; [done|]. specialize (HS a). cbn in HS. by rewrite Z.eqb_refl in HS.
Qed.

Lemma encodings_with_rtx m cname msid A B : announces m cname msid A B -> length A = length B ->
  (forall k, k ∈ A -> k ∉ B) -> getRtpEncodings m = Ok (JArray (map encodingOf (zip A B))).
Proof.
  intros H Hlen Hd. destruct (announced_ssrcs _ _ _ _ _ H) as (x & S & E & HS).
  destruct H as [Hl (gs & Hg & Hgs) [HA HB] Hinc _]. unfold getRtpEncodings.
  rewrite (idx_find _ _ _ Hl). cbn [obind elems]. rewrite E. cbn [obind]. rewrite Hg. cbn [elems].
  rewrite (ofold_app _ gs _ _ _ (other_groups_ok gs (x :: S, []) Hgs)).
  destruct (fid_fold A B (x :: S) [] Hlen HA HB Hinc) as (S' & -> & HS'); [done|done| |].
  { intros k Hk. rewrite HS, in_z_app. apply in_z_true in Hk. by rewrite Hk. }
  cbn [obind fst snd]. rewrite (zlookup_empty S'); [done|]. intros k. rewrite HS', HS. by destruct (in_z k (A ++ B)).
Qed.

Lemma encodings_without_rtx m cname msid A : announces m cname msid A [] ->
  getRtpEncodings m = Ok (JArray (map (fun a => encodingOf (a, 0%Z)) A)).
Proof.
  intros H. destruct (announced_ssrcs _ _ _ _ _ H) as (x & S & E & _). destruct H as [Hl (gs & Hg & Hgs) [HA _] Hinc _].
  pose proof E as E'. unfold simulcastLines in E. cbn [map concat] in E. rewrite app_nil_r, ssrcLines_ok in E by done.
  rewrite (foldl_zinsert_sorted id tt) in E by (rewrite ?map_id; done). unfold getRtpEncodings.
  rewrite (idx_find _ _ _ Hl). cbn [obind elems]. rewrite E'. cbn [obind]. rewrite Hg. cbn [elems].
  replace (zip_with fidGroup A []) with (@nil json) by (by destruct A). rewrite app_nil_r, other_groups_ok by done.
  cbn [obind fst snd]. injection E as <-. cbn [app].
  rewrite (foldl_zinsert_sorted fst 0%Z); [by rewrite app_nil_l, !map_map|by rewrite map_map, map_id|done].
Qed.

(** ** Legacy simulcast *)

Lemma find_ssrcLine s a v : find "id" (ssrcLine s a v) = Some (JUint s) /\
  find "attribute" (ssrcLine s a v) = Some (JString a) /\ find "value" (ssrcLine s a v) = Some (JString v).
Proof. unfold ssrcLine. by rewrite !find_mk_obj. Qed.

Lemma isMsidLine_line s a v : isMsidLine (ssrcLine s a v) = Ok (String.eqb a "msid").
Proof. unfold isMsidLine, find_deref. by rewrite (proj1 (proj2 (find_ssrcLine s a v))). Qed.

Lemma isCnameLine_line s a v x : u32 s -> isCnameLine x (ssrcLine s a v) = Ok (String.eqb a "cname" && (s =? x)%Z).
Proof.
  intros Hs. unfold isCnameLine. destruct (find_ssrcLine s a v) as (-> & -> & _). cbn [is_number is_number_integer orb].
  destruct (String.eqb a "cname"); [|done]. by rewrite get_uint32_u32.
Qed.

(** The RTX SSRC that the groups give to the first stream. *)
Definition rtx_list (rtx : Z) : list Z := if (rtx =? 0)%Z then [] else [rtx].

Lemma findRtxSsrc_ok ssrc rtx : u32 ssrc -> u32 rtx ->
  findRtxSsrc ssrc (zip_with fidGroup [ssrc] (rtx_list rtx)) = Ok rtx.
Proof.
  intros Hs Hr. unfold rtx_list. destruct (Z.eqb_spec rtx 0) as [->|Hne]; [done|]. cbn [zip_with findRtxSsrc].
  unfold fidGroup. rewrite !find_mk_obj. cbn [obj_lookup]. eqb_literals. rewrite split_pair by done.
  cbn [vec_at lookup list_lookup obind]. unfold u32 in *. rewrite !stoull_pretty by lia. cbn [obind].
  rewrite Z.eqb_refl. cbn [obind]. by rewrite wrap_u32.
Qed.

(** A stream and a track id of an msid. *)
Definition id_token (s : string) : Prop := has_char " " s = false /\ s <> "".

Lemma addLegacySimulcast_ok m cname sid tid ssrc rtx n :
  is_object m = true -> 1 < n -> id_token sid -> id_token tid -> u32 ssrc -> u32 rtx ->
  find "ssrcs" m = Some (JArray (simulcastLines cname (sid +:+ " " +:+ tid) [ssrc] (rtx_list rtx))) ->
  find "ssrcGroups" m = Some (JArray (zip_with fidGroup [ssrc] (rtx_list rtx))) ->
  let B := if (rtx =? 0)%Z then [] else streamSsrcs rtx n in
  addLegacySimulcast n m = (Ok tt,
    jset "ssrcs" (JArray (simulcastLines cname (sid +:+ " " +:+ tid) (streamSsrcs ssrc n) B))
      (jset "ssrcGroups" (JArray (simulcastGroups (streamSsrcs ssrc n) B)) m)).
Proof.
  intros Ho Hn Hsid Htid Hs Hr Hl Hg B. unfold addLegacySimulcast.
  destruct (Nat.leb_spec n 1); [lia|].
  assert (get_key "ssrcs" m = (Ok (JArray (simulcastLines cname (sid +:+ " " +:+ tid) [ssrc] (rtx_list rtx))), m)) as Hk.
  { destruct m; try done. by apply get_key_present. }
  rewrite (bind_ok _ _ _ _ _ Hk). cbn [elems].
  set (lines := simulcastLines cname (sid +:+ " " +:+ tid) [ssrc] (rtx_list rtx)).
  assert (ofind_if isMsidLine lines = Ok (Some (ssrcLine ssrc "msid" (sid +:+ " " +:+ tid)))) as ->.
  { unfold lines, simulcastLines. cbn [map concat app ssrcLines ofind_if]. rewrite !isMsidLine_line. done. }
  assert (ofind_if (isCnameLine ssrc) lines = Ok (Some (ssrcLine ssrc "cname" cname))) as Hcn.
  { unfold lines, simulcastLines. cbn [map concat app ssrcLines ofind_if]. rewrite isCnameLine_line by done.
    by rewrite Z.eqb_refl. }
  destruct (find_ssrcLine ssrc "msid" (sid +:+ " " +:+ tid)) as (Fi & _ & Fv).
  destruct (find_ssrcLine ssrc "cname" cname) as (_ & _ & Fc).
  rewrite lift_bind, (ref_get_find _ _ _ Fv), lift_bind. cbn [get_string]. rewrite lift_bind.
  assert (split (sid +:+ " " +:+ tid) " " = [sid; tid]) as Hsp.
  { apply (split_join_tokens " " [sid; tid]). by constructor; [|constructor]. }
  cbv zeta. rewrite Hsp. cbn [vec_at lookup list_lookup]. rewrite !lift_bind, (ref_get_find _ _ _ Fi), lift_bind, get_uint32_u32, lift_bind by done.
  rewrite (bind_ok get _ _ _ _ eq_refl), Hg. cbn [elems]. rewrite findRtxSsrc_ok, lift_bind, Hcn, lift_bind by done.
  rewrite (ref_get_find _ _ _ Fc), lift_bind. cbn [get_string]. rewrite lift_bind. cbv zeta. fold B.
  by destruct m.
Qed.

Lemma streamSsrcs_range first n : u32 first -> (first + Z.of_nat n <= 2 ^ 32)%Z ->
  Forall u32 (streamSsrcs first n) /\ increasing (streamSsrcs first n) /\
  forall k, k ∈ streamSsrcs first n <-> (first <= k < first + Z.of_nat n)%Z.
Proof.
  intros Hf Hn. unfold u32 in *.
  assert (streamSsrcs first n = map (fun i => (first + Z.of_nat i)%Z) (seq 0 n)) as ->.
  { unfold streamSsrcs. apply map_ext_in. intros i Hi%in_seq. apply Z.mod_small. lia. }
  split_and!.
  - apply List.Forall_map, List.Forall_forall. intros i Hi%in_seq. lia.
  - generalize 0. clear Hn. induction n as [|n IH]; intros i; [done|]. cbn [seq map increasing]. split; [|done].
    apply List.Forall_map, List.Forall_forall. intros j Hj%in_seq. lia.
  - intros k. rewrite list_elem_of_In, in_map_iff. split.
    + intros (i & <- & Hi%in_seq). lia.
    + intros Hk. exists (Z.to_nat (k - first)). rewrite in_seq. split; lia.
Qed.

(** ** Theorems *)

(** The encodings of an offered section.  From the SSRC lines and groups
    that [OfferMediaSection] writes for one encoding, [getRtpEncodings] reads
    back exactly that encoding, with its RTX SSRC if there is one. *)
Theorem offered_encoding_roundtrip m ssrc rtx cname msid :
  u32 ssrc -> u32 rtx -> ssrc <> rtx ->
  find "ssrcs" m = Some (JArray (ssrc_lines ssrc rtx cname msid)) ->
  find "ssrcGroups" m = Some (JArray (ssrc_groups ssrc rtx)) ->
  getRtpEncodings m = Ok (JArray [encodingOf (ssrc, rtx)]).
Proof.
  intros Hs Hr Hne Hl Hg. unfold ssrc_lines, ssrc_groups in *. destruct (Z.eqb_spec rtx 0) as [->|Hrtx].
  - apply (encodings_without_rtx m cname msid [ssrc]). split; try done; [by exists []|by split; [constructor|]].
  - apply (encodings_with_rtx m cname msid [ssrc] [rtx]); [|done|].
    + split; try done; [by exists []|by split; constructor].
    + intros k ->%list_elem_of_singleton ?%list_elem_of_singleton. done.
Qed.

Definition sample_announcing : json := mk_obj
  [ ("ssrcs", JArray (ssrc_lines 1111 2222 "c" "s t")); ("ssrcGroups", JArray (ssrc_groups 1111 2222)) ].
Lemma offered_encoding_roundtrip_witness :
  getRtpEncodings sample_announcing = Ok (JArray [mk_obj [("ssrc", JUint 1111); ("rtx", mk_obj [("ssrc", JUint 2222)])]]).
Proof.
  rewrite (offered_encoding_roundtrip sample_announcing 1111 2222 "c" "s t").
  - reflexivity.
  - unfold u32. lia.
  - unfold u32. lia.
  - done.
  - vm_compute. reflexivity.
  - vm_compute. reflexivity.
Defined.

(** Legacy simulcast.  From a section that announces one SSRC, with or
    without RTX, [addLegacySimulcast] makes one that announces [n] streams:
    [getRtpEncodings] reads back [n] encodings with consecutive SSRCs, each
    with the RTX SSRC at the same offset.  The SSRC ranges must neither leave
    32 bits nor overlap. *)
Theorem legacy_simulcast_encodings m cname sid tid ssrc rtx n :
  is_object m = true -> 1 < n -> id_token sid -> id_token tid -> u32 ssrc -> u32 rtx ->
  (ssrc + Z.of_nat n <= 2 ^ 32)%Z -> (rtx + Z.of_nat n <= 2 ^ 32)%Z ->
  (ssrc + Z.of_nat n <= rtx \/ rtx + Z.of_nat n <= ssrc)%Z ->
  find "ssrcs" m = Some (JArray (simulcastLines cname (sid +:+ " " +:+ tid) [ssrc] (rtx_list rtx))) ->
  find "ssrcGroups" m = Some (JArray (zip_with fidGroup [ssrc] (rtx_list rtx))) ->
  exists m', addLegacySimulcast n m = (Ok tt, m') /\
    getRtpEncodings m' = Ok (JArray (map (fun i => encodingOf (ssrc + Z.of_nat i, if (rtx =? 0)%Z then 0 else rtx + Z.of_nat i)%Z)
                                         (seq 0 n))).
Proof.
  intros Ho Hn Hsid Htid Hs Hr Hsn Hrn Hdis Hl Hg.
  pose (B := if (rtx =? 0)%Z then [] else streamSsrcs rtx n).
  pose proof (addLegacySimulcast_ok m cname sid tid ssrc rtx n Ho Hn Hsid Htid Hs Hr Hl Hg) as E. cbv zeta in E. fold B in E.
  eexists. split; [exact E|].
  set (m' := jset "ssrcs" _ _). destruct (streamSsrcs_range ssrc n Hs Hsn) as (RA & IA & MA).
  destruct (streamSsrcs_range rtx n Hr Hrn) as (RB & _ & MB).
  assert (announces m' cname (sid +:+ " " +:+ tid) (streamSsrcs ssrc n) B) as Han.
  { split; [unfold m'; by media_find| |split; [done|unfold B; by destruct (rtx =? 0)%Z]|done|destruct n; [lia|done]].
    exists [mk_obj [("semantics", JString "SIM"); ("ssrcs", JString (join_uint32 (streamSsrcs ssrc n) " "))]].
    split; [unfold m'; by media_find|]. constructor; [|done]. exists "SIM". by rewrite find_mk_obj. }
  assert (forall first, u32 first -> (first + Z.of_nat n <= 2 ^ 32)%Z ->
    streamSsrcs first n = map (fun i => (first + Z.of_nat i)%Z) (seq 0 n)) as Hmap.
  { unfold u32. intros first ? ?. apply map_ext_in. intros i Hi%in_seq. apply Z.mod_small. lia. }
  unfold B in *. destruct (Z.eqb_spec rtx 0) as [->|Hne].
  - rewrite (encodings_without_rtx _ _ _ _ Han), Hmap, map_map by done. done.
  - rewrite (encodings_with_rtx _ _ _ _ _ Han).
    + rewrite !Hmap by done. do 2 f_equal. generalize (seq 0 n). intros l. induction l as [|i l IH]; [done|]. cbn. by f_equal.
    + unfold streamSsrcs. by rewrite !length_map.
    + intros k Hk%MA Hk'%MB. lia.
Qed.

Definition sample_single : json := mk_obj
  [ ("ssrcs", JArray (simulcastLines "c" "s t" [1111%Z] [2222%Z])); ("ssrcGroups", JArray [fidGroup 1111 2222]) ].
Lemma legacy_simulcast_encodings_witness :
  exists m', addLegacySimulcast 3 sample_single = (Ok tt, m') /\
    getRtpEncodings m' = Ok (JArray [encodingOf (1111, 2222); encodingOf (1112, 2223); encodingOf (1113, 2224)]%Z).
Proof.
  refine (legacy_simulcast_encodings sample_single "c" "s" "t" 1111 2222 3 _ _ _ _ _ _ _ _ _ _ _).
  - reflexivity.
  - lia.
  - done.
  - done.
  - unfold u32. lia.
  - unfold u32. lia.
  - lia.
  - lia.
  - left. lia.
  - vm_compute. reflexivity.
  - vm_compute. reflexivity.
Defined.

(** ** DTLS parameters *)

Definition closed_media (m : json) : Prop := exists p, find "port" m = Some p /\ json_eqb p (JInt 0) = true.

Lemma usable_skips pre m post : Forall closed_media pre -> usable_media m = Ok true ->
  ofind_if usable_media (pre ++ m :: post) = Ok (Some m).
Proof.
  intros Hpre Hm. induction Hpre as [|x pre (p & Hp & Hc) _ IH]; cbn [ofind_if app]; [by rewrite Hm|].
  assert (usable_media x = Ok false) as ->; [|done].
  unfold usable_media. destruct (contains "iceUfrag" x); [|done]. rewrite (idx_find _ _ _ Hp). cbn [obind]. by rewrite Hc.
Qed.

(** The DTLS role and fingerprint are read back.  In a session whose
    closed sections are followed by a section with the setup attribute that
    [AnswerMediaSection] gives for a role, and with a session fingerprint as
    [RemoteSdp] writes it, [extractDtlsParameters] returns that role and that
    fingerprint. *)
Theorem dtls_parameters_roundtrip session pre m0 m post role alg value :
  role ∈ ["client"; "server"; "auto"] -> is_object m0 = true -> m = set_setup role m0 ->
  find "media" session = Some (JArray (pre ++ m :: post)) -> Forall closed_media pre ->
  contains "iceUfrag" m = true -> find "port" m = Some (JInt 7) -> find "fingerprint" m = None ->
  find "fingerprint" session = Some (mk_obj [("type", alg); ("hash", value)]) ->
  extractDtlsParameters session =
    Ok (mk_obj [("role", JString role); ("fingerprints", JArray [mk_obj [("algorithm", alg); ("value", value)]])]).
Proof.
  intros Hrole Ho Hm Hmedia Hpre Hu Hp Hf Hsf. unfold extractDtlsParameters.
  assert (usable_media m = Ok true) as Hus.
  { unfold usable_media. rewrite Hu, (idx_find _ _ _ Hp). done. }
  assert (exists setup, find "setup" m = Some (JString setup) /\ setup_role setup = role) as (setup & Hs & Hr).
  { subst m. unfold set_setup. repeat (apply elem_of_cons in Hrole as [->|Hrole]); [..|by apply elem_of_nil in Hrole];
      eqb_literals; rewrite jset_find, String.eqb_refl by done; by eexists. }
  rewrite (idx_find _ _ _ Hmedia). cbn [obind elems]. rewrite (usable_skips _ _ _ Hpre Hus). cbn [obind]. cbv zeta.
  change (default JNull (Some m)) with m. rewrite Hf, Hsf, Hs. cbn [obind get_string]. rewrite Hr. done.
Qed.

Definition sample_answer_media : json :=
  mk_obj [("iceUfrag", JString "u"); ("port", JInt 7)].
Definition sample_answer_session : json := mk_obj
  [ ("media", JArray [mk_obj [("port", JInt 0)]; set_setup "client" sample_answer_media]);
    ("fingerprint", mk_obj [("type", JString "sha-256"); ("hash", JString "AA:BB")]) ].
Lemma dtls_parameters_roundtrip_witness :
  extractDtlsParameters sample_answer_session = Ok (mk_obj [("role", JString "client");
    ("fingerprints", JArray [mk_obj [("algorithm", JString "sha-256"); ("value", JString "AA:BB")]])]).
Proof.
  apply (dtls_parameters_roundtrip sample_answer_session [mk_obj [("port", JInt 0)]] sample_answer_media
    (set_setup "client" sample_answer_media) [] "client").
  - by left.
  - reflexivity.
  - reflexivity.
  - vm_compute. reflexivity.
  - constructor; [|constructor]. exists (JInt 0). by vm_compute.
  - vm_compute. reflexivity.
  - vm_compute. reflexivity.
  - vm_compute. reflexivity.
  - vm_compute. reflexivity.
Defined.

(** ** Texts that cannot be read *)

Definition sdp_text (lines : list string) : string := join (lines ++ [""]) newline.
(** An audio section, complete, without feedback, and with feedback for all. *)
Definition audio_lines (fb : list string) : string := sdp_text (
  ["v=0"; "s=-"; "m=audio 9 UDP/TLS/RTP/SAVPF 111"; "a=rtpmap:111 opus/48000/2"; "a=fmtp:111 minptime=10";
   "a=extmap:1 urn:x"; "a=ssrc:1111 cname:c"] ++ fb).
Definition capabilities_of (sdp : string) : outcome json := let! session := parse sdp in extractRtpCapabilities session.
Definition cname_of (sdp : string) : outcome string :=
  let! session := parse sdp in
  let! media := idx "media" session in
  let! m := idx_nth 0 media in getCname m.

(** What [extractRtpCapabilities] and [getCname] make of valid texts.  The
    capabilities of an audio section with a feedback line are extracted; with
    no feedback line at all the member that is read does not exist, which is
    undefined; feedback for all payload types, a star, throws
    std::invalid_argument.  The cname of the section is never found: the
    parser stores the lines as ssrcs, and the member that is read is ssrc. *)
Theorem capabilities_reading_gaps :
  (exists caps, capabilities_of (audio_lines ["a=rtcp-fb:111 transport-cc"]) = Ok caps /\
     exists caps', validateRtpCapabilities caps = (Ok tt, caps')) /\
  capabilities_of (audio_lines []) = Undef /\
  capabilities_of (audio_lines ["a=rtcp-fb:* nack"]) = Throw StdInvalidArgument /\
  cname_of (audio_lines ["a=rtcp-fb:111 transport-cc"]) = Ok "".
Proof.
  split_and!; [|vm_compute; reflexivity..].
  exists (match capabilities_of (audio_lines ["a=rtcp-fb:111 transport-cc"]) with Ok c => c | _ => JNull end).
  split; [vm_compute; reflexivity|].
  exists (validateRtpCapabilities (match capabilities_of (audio_lines ["a=rtcp-fb:111 transport-cc"]) with Ok c => c | _ => JNull end)).2.
  vm_compute. reflexivity.
Qed.
