(* ===== verification/RemoteSdp.v ===== *)
(** * sdp/RemoteSdp.cpp

    The remote description: the media sections in order, their indices by mid,
    and the SDP object that is kept beside them.  Sections are owned by the
    description, one pointer each, so the vector holds them by value. *)

From stdpp Require Import base list gmap strings pretty.
From Stdlib Require Import ZArith Lia Ascii.
From S2P Require Import Prelude Json Text OrtcCaps Utils MediaSection Regex Grammar SdpWrite.

Record RemoteSdp := mkRemoteSdp {
  iceParameters : json;
  iceCandidates : json;
  dtlsParameters : json;
  sctpParameters : json;
  mediaSections : list MediaSection;
  midToIndex : gmap string nat;
  firstMid : string;
  sdpObject : json;
}.

Definition with_ice v r := mkRemoteSdp v (iceCandidates r) (dtlsParameters r) (sctpParameters r)
  (mediaSections r) (midToIndex r) (firstMid r) (sdpObject r).
Definition with_dtls v r := mkRemoteSdp (iceParameters r) (iceCandidates r) v (sctpParameters r)
  (mediaSections r) (midToIndex r) (firstMid r) (sdpObject r).
Definition with_sections v r := mkRemoteSdp (iceParameters r) (iceCandidates r) (dtlsParameters r) (sctpParameters r)
  v (midToIndex r) (firstMid r) (sdpObject r).
Definition with_map v r := mkRemoteSdp (iceParameters r) (iceCandidates r) (dtlsParameters r) (sctpParameters r)
  (mediaSections r) v (firstMid r) (sdpObject r).
Definition with_first v r := mkRemoteSdp (iceParameters r) (iceCandidates r) (dtlsParameters r) (sctpParameters r)
  (mediaSections r) (midToIndex r) v (sdpObject r).
Definition with_sdp v r := mkRemoteSdp (iceParameters r) (iceCandidates r) (dtlsParameters r) (sctpParameters r)
  (mediaSections r) (midToIndex r) (firstMid r) v.

(** Run on a member of the description. *)
Definition on_sdp {A} (m : M json A) : M RemoteSdp A := zoom (fun r => Some (sdpObject r)) with_sdp m.
Definition on_dtls {A} (m : M json A) : M RemoteSdp A := zoom (fun r => Some (dtlsParameters r)) with_dtls m.

(** [this->mediaSections[idx]]: undefined past the end. *)
Definition section_at (i : nat) : M RemoteSdp MediaSection := fun r =>
  (match mediaSections r !! i with Some s => Ok s | None => Undef end, r).
Definition set_section (i : nat) (s : MediaSection) : M RemoteSdp unit :=
  modify (fun r => with_sections (<[i:=s]> (mediaSections r)) r).
(** [this->midToIndex[mid]]: a missing mid is inserted with index 0. *)
Definition index_of (mid : string) : M RemoteSdp nat := fun r =>
  match midToIndex r !! mid with
  | Some i => (Ok i, r)
  | None => (Ok 0, with_map (<[mid:=0]> (midToIndex r)) r)
  end.
(** [this->sdpObject["media"][idx] = obj] *)
Definition set_media (i : nat) (obj : json) : M RemoteSdp unit :=
  on_sdp (at_key "media" (at_idx i (put obj))).

(** ** Construction *)

Definition initialOrigin : list (string * json) :=
  [ ("address", JString "0.0.0.0"); ("ipVer", JInt 4); ("netType", JString "IN");
    ("sessionId", JInt 10000); ("sessionVersion", JInt 0); ("username", JString "libmediasoupclient") ].
Definition initialSdpObject : json := mk_obj
  [ ("version", JInt 0);
    ("origin", mk_obj initialOrigin);
    ("name", JString "-");
    ("timing", mk_obj [ ("start", JInt 0); ("stop", JInt 0) ]);
    ("media", JArray []) ].

(** [this->dtlsParameters.at("fingerprints")[numFingerprints - 1][k]], with the
    DTLS parameters as the state.  Without any fingerprint, the index wraps and
    the array cannot grow that far. *)
Definition lastFingerprint (k : string) : M json json :=
  fingerprints <- get_key "fingerprints" ;;
  match json_size fingerprints with
  | 0 => undef
  | S n => at_key "fingerprints" (at_idx n (get_key k))
  end.

Definition newRemoteSdp (iceParameters iceCandidates dtlsParameters sctpParameters : json) : outcome RemoteSdp :=
  let sdp := initialSdpObject in
  let sdp := if contains "iceLite" iceParameters then jset "icelite" (JString "ice-lite") sdp else sdp in
  let sdp := jset "msidSemantic" (mk_obj [ ("semantic", JString "WMS"); ("token", JString "*") ]) sdp in
  let '(r, dtlsParameters) :=
    (algorithm <- lastFingerprint "algorithm" ;;
     value <- lastFingerprint "value" ;;
     ret (mk_obj [ ("type", algorithm); ("hash", value) ])) dtlsParameters in
  let! fingerprint := r in
  let sdp := jset "fingerprint" fingerprint sdp in
  let sdp := jset "groups" (JArray [ mk_obj [ ("type", JString "BUNDLE"); ("mids", JString "") ] ]) sdp in
  Ok (mkRemoteSdp iceParameters iceCandidates dtlsParameters sctpParameters [] ∅ "" sdp).

(** ** Updates of all sections *)

Definition set_icelite : M RemoteSdp unit :=
  r <- get ;;
  when (contains "iceLite" (iceParameters r)) (on_sdp (set_key "icelite" (JString "ice-lite"))).

(** [for (idx = 0; idx < size(); ++idx)] with the section replaced by [f]. *)
Definition update_section (f : MediaSection -> outcome MediaSection) (i : nat) : M RemoteSdp unit :=
  s <- section_at i ;;
  s' <- lift (f s) ;;
  set_section i s' ;;;
  set_media i (GetObject s').
Definition update_sections (f : MediaSection -> outcome MediaSection) : M RemoteSdp unit :=
  r <- get ;; for_list (seq 0 (length (mediaSections r))) (update_section f).

Definition UpdateIceParameters (ice : json) : M RemoteSdp unit :=
  modify (with_ice ice) ;;;
  set_icelite ;;;
  update_sections (SetIceParameters ice).

Definition UpdateDtlsRole (role : string) : M RemoteSdp unit :=
  on_dtls (set_key "role" (JString role)) ;;;
  set_icelite ;;;
  update_sections (fun s => Ok (SetDtlsRole role s)).

(** ** Sections *)

(** The first closed section from [i] on with its mid, or the next index. *)
Fixpoint next_index (i : nat) (l : list MediaSection) : outcome (nat * string) :=
  match l with
  | [] => Ok (i, "")
  | s :: r =>
    let! closed := IsClosed s in
    if closed : bool then let! mid := GetMid s in Ok (i, mid) else next_index (S i) r
  end.
Definition GetNextMediaSectionIdx (r : RemoteSdp) : outcome (nat * string) := next_index 0 (mediaSections r).

Fixpoint bundle_mids (mids : string) (l : list MediaSection) : outcome string :=
  match l with
  | [] => Ok mids
  | s :: r =>
    let! closed := IsClosed s in
    if negb closed then
      let! mid := GetMid s in
      bundle_mids (if String.eqb mids "" then mid else mids +:+ " " +:+ mid) r
    else bundle_mids mids r
  end.
Definition RegenerateBundleMids : M RemoteSdp unit :=
  r <- get ;;
  mids <- lift (bundle_mids "" (mediaSections r)) ;;
  on_sdp (at_key "groups" (at_idx 0 (set_key "mids" (JString mids)))).

Definition AddMediaSection (newMediaSection : MediaSection) : M RemoteSdp unit :=
  r <- get ;;
  when (String.eqb (firstMid r) "")
    (mid <- lift (GetMid newMediaSection) ;; modify (with_first mid)) ;;;
  modify (fun r => with_sections (mediaSections r ++ [newMediaSection]) r) ;;;
  mid <- lift (GetMid newMediaSection) ;;
  modify (fun r => with_map (<[mid := length (mediaSections r) - 1]> (midToIndex r)) r) ;;;
  on_sdp (at_key "media" (push_back (GetObject newMediaSection))) ;;;
  RegenerateBundleMids.

Definition ReplaceMediaSection (newMediaSection : MediaSection) (reuseMid : string) : M RemoteSdp unit :=
  if negb (String.eqb reuseMid "") then
    i <- index_of reuseMid ;;
    oldMediaSection <- section_at i ;;
    set_section i newMediaSection ;;;
    oldMid <- lift (GetMid oldMediaSection) ;;
    modify (fun r => with_map (delete oldMid (midToIndex r)) r) ;;;
    newMid <- lift (GetMid newMediaSection) ;;
    modify (fun r => with_map (<[newMid := i]> (midToIndex r)) r) ;;;
    set_media i (GetObject newMediaSection) ;;;
    RegenerateBundleMids
  else
    newMid <- lift (GetMid newMediaSection) ;;
    i <- index_of newMid ;;
    _ <- section_at i ;;
    set_section i newMediaSection ;;;
    r <- get ;;
    set_media (length (mediaSections r) - 1) (GetObject newMediaSection).

(** The second component of the state is [offerRtpParameters], passed by
    reference to the constructor of the answer. *)
Definition on_remote_sdp {A} (m : M RemoteSdp A) : M (RemoteSdp * json) A :=
  zoom (fun s => Some s.1) (fun r s => (r, s.2)) m.
Definition Send (offerMediaObject : json) (reuseMid : string) (answerRtpParameters : json)
    (codecOptions : option json) : M (RemoteSdp * json) unit :=
  s <- get ;;
  let r := s.1 in
  mediaSection <- zoom (fun s => Some s.2) (fun p s => (s.1, p))
    (AnswerMediaSection (iceParameters r) (iceCandidates r) (dtlsParameters r) (sctpParameters r)
       offerMediaObject answerRtpParameters codecOptions) ;;
  on_remote_sdp (if negb (String.eqb reuseMid "") then ReplaceMediaSection mediaSection reuseMid
                 else AddMediaSection mediaSection).

Definition Receive (mid kind : string) (offerRtpParameters : json) (streamId trackId : string) : M RemoteSdp unit :=
  r <- get ;;
  mediaSection <- lift (OfferMediaSection (iceParameters r) (iceCandidates r) JNull mid kind
                          offerRtpParameters streamId trackId) ;;
  AddMediaSection mediaSection.

Definition DisableMediaSection (mid : string) : M RemoteSdp unit :=
  i <- index_of mid ;;
  s <- section_at i ;;
  set_section i (Disable s).

Definition CloseMediaSection (mid : string) : M RemoteSdp unit :=
  i <- index_of mid ;;
  s <- section_at i ;;
  r <- get ;;
  let s' := if String.eqb mid (firstMid r) then Disable s else Close s in
  set_section i s' ;;;
  set_media i (GetObject s') ;;;
  RegenerateBundleMids.

Definition GetSdp `{JsonDump} : M RemoteSdp string :=
  v <- on_sdp (at_key "origin" (get_key "sessionVersion")) ;;
  version <- lift (get_uint32 v) ;;
  on_sdp (at_key "origin" (set_key "sessionVersion" (JUint (wrap_u 32 (version + 1))))) ;;;
  on_sdp write.
