(* ===== verification/RemoteSdpSpec.v ===== *)
(** * Properties of the remote description

    An abstract description is the list of mids in order, each open or closed,
    with the session version.  The concrete one, with its index map and its SDP
    object, implements it through every sequence of operations. *)

From stdpp Require Import base list gmap strings pretty.
From Stdlib Require Import ZArith Lia Ascii.
From S2P Require Import Prelude Json Text OrtcValidate OrtcValidateSpec H264 OrtcCaps OrtcMatch OrtcExtended SdpDump.
From S2P Require Import OrtcDerive Utils MediaSection MediaSectionSpec Regex Grammar SdpWrite RemoteSdp.

(** ** The abstract description *)

Record description := mkDescription { d_sections : list (string * bool); d_version : Z }.

Definition mids (l : list (string * bool)) : list string := map fst l.
Definition open_mids (l : list (string * bool)) : list string := map fst (filter (fun x => x.2 = false) l).

(** The mids are distinct and not empty, and the first section is open. *)
Record good_sections (l : list (string * bool)) : Prop := {
  gs_nodup : NoDup (mids l);
  gs_nonempty : Forall (fun x => x.1 <> "") l;
  gs_first : forall x, l !! 0 = Some x -> x.2 = false;
}.

(** What the SDP object holds of the sections and of the version. *)
Record sdp_ok (j : json) (ss : list MediaSection) (d : description) : Prop := {
  so_object : is_object j = true;
  so_header : contains "version" j = true /\ contains "name" j = true;
  so_media : find "media" j = Some (JArray (map mediaObject ss));
  so_groups : exists g, find "groups" j = Some (JArray [g]) /\ is_object g = true /\
    find "mids" g = Some (JString (join (open_mids (d_sections d)) " "%char));
  so_origin : exists g v, find "origin" j = Some g /\ is_object g = true /\
    find "sessionVersion" g = Some v /\ get_uint32 v = Ok (d_version d);
}.

Record remote_ok (r : RemoteSdp) (d : description) : Prop := {
  ro_ice : normalIceParameters (iceParameters r) = true;
  ro_cands : normalIceCandidates (iceCandidates r) = true;
  ro_dtls : normalDtlsParameters (dtlsParameters r) = true;
  ro_sections : Forall2 (fun s x => section_is s x.1 x.2) (mediaSections r) (d_sections d);
  ro_map : forall mid i, midToIndex r !! mid = Some i <-> mids (d_sections d) !! i = Some mid;
  ro_first : firstMid r = default "" (mids (d_sections d) !! 0);
  ro_good : good_sections (d_sections d);
  ro_sdp : sdp_ok (sdpObject r) (mediaSections r) d;
}.

(** ** Operations on members *)

Lemma set_key_jset k v j : is_object j = true -> set_key k v j = (Ok tt, jset k v j).
Proof. by destruct j. Qed.

Lemma at_key_find {A} k (m : M json A) j v r v' : is_object j = true -> find k j = Some v -> m v = (r, v') ->
  at_key k m j = (r, jset k v' j).
Proof. destruct j; try done. cbn [find]. intros _ H E. unfold at_key. by rewrite H; cbn; rewrite E. Qed.

Lemma pad_to_in i l : i < length l -> pad_to i l = l.
Proof. intros H. unfold pad_to. replace (S i - length l) with 0 by lia. by rewrite app_nil_r. Qed.

Lemma at_idx_in {A} i (m : M json A) l x r x' : l !! i = Some x -> m x = (r, x') ->
  at_idx i m (JArray l) = (r, JArray (<[i:=x']> l)).
Proof.
  intros H E. cbn [at_idx elems]. rewrite pad_to_in by (by apply lookup_lt_Some in H). by rewrite H; cbn; rewrite E.
Qed.

Lemma on_sdp_ok {A} (m : M json A) r a j : m (sdpObject r) = (Ok a, j) -> on_sdp m r = (Ok a, with_sdp j r).
Proof. intros H. unfold on_sdp, zoom. by rewrite H. Qed.

(** ** Bundles *)

Lemma bundle_mids_ok acc ss l : Forall2 (fun s x => section_is s x.1 x.2) ss l ->
  bundle_mids acc ss = Ok (append_all " " acc (open_mids l)).
Proof.
  intros H. revert acc. induction H as [|s [mid c] ss l Hs _ IH]; intros acc; [done|].
  destruct (section_is_get _ _ _ Hs) as [Hm Hc]. cbn [bundle_mids]. rewrite Hc. cbn [obind fst snd] in *.
  unfold open_mids. rewrite filter_cons. destruct c; cbn [negb]; case_decide; try done.
  rewrite Hm. cbn [obind map fst append_all]. rewrite IH. do 2 f_equal.
  destruct (String.eqb_spec acc "") as [->|]; [done|]. by rewrite <- string_app_assoc.
Qed.

Lemma open_mids_nonempty l : Forall (fun x => x.1 <> "") l -> Forall (fun x => x <> "") (open_mids l).
Proof.
  intros H. unfold open_mids. apply Forall_fmap, Forall_forall. intros x [_ Hx]%list_elem_of_filter.
  by rewrite Forall_forall in H; apply H.
Qed.

(** [RegenerateBundleMids] re-establishes the bundle line for new sections. *)
Record sdp_stale (j : json) (ss : list MediaSection) (v : Z) : Prop := {
  ss_object : is_object j = true;
  ss_header : contains "version" j = true /\ contains "name" j = true;
  ss_media : find "media" j = Some (JArray (map mediaObject ss));
  ss_groups : exists g, find "groups" j = Some (JArray [g]) /\ is_object g = true;
  ss_origin : exists g x, find "origin" j = Some g /\ is_object g = true /\ find "sessionVersion" g = Some x /\ get_uint32 x = Ok v;
}.

Lemma RegenerateBundleMids_ok r l v :
  Forall2 (fun s x => section_is s x.1 x.2) (mediaSections r) l -> Forall (fun x => x.1 <> "") l ->
  sdp_stale (sdpObject r) (mediaSections r) v ->
  exists j, RegenerateBundleMids r = (Ok tt, with_sdp j r) /\ sdp_ok j (mediaSections r) (mkDescription l v).
Proof.
  intros Hs Hn [Ho Hh Hm (g & Hg & Hgo) Hor]. unfold RegenerateBundleMids.
  rewrite (bind_ok get _ _ _ _ eq_refl), (bundle_mids_ok _ _ _ Hs), lift_bind, append_all_nil by (by apply open_mids_nonempty).
  eexists. split.
  - apply on_sdp_ok. eapply at_key_find; [done|exact Hg|].
    eapply at_idx_in; [done|]. by apply set_key_jset.
  - destruct Hor as (og & x & ? & ? & ? & ?).
    unfold contains in Hh. split; unfold contains; media_find; [auto with media|done|done| |by exists og, x].
    exists (jset "mids" (JString (join (open_mids l) " "%char)) g). split; [done|]. split; [auto with media|by media_find].
Qed.

Lemma sdp_ok_stale j ss d : sdp_ok j ss d -> sdp_stale j ss (d_version d).
Proof. intros [Ho Hh Hm (g & Hg & Hgo & _) Hor]. split; [done..|by exists g|done]. Qed.

Lemma set_media_ok r i s ss : is_object (sdpObject r) = true ->
  find "media" (sdpObject r) = Some (JArray (map mediaObject ss)) -> i < length ss ->
  set_media i (GetObject s) r =
    (Ok tt, with_sdp (jset "media" (JArray (map mediaObject (<[i:=s]> ss))) (sdpObject r)) r).
Proof.
  intros Ho Hm Hi. unfold set_media. apply on_sdp_ok. eapply at_key_find; [done|exact Hm|].
  destruct (lookup_lt_is_Some_2 (map mediaObject ss) i) as [x Hx]; [by rewrite length_map|].
  change (map mediaObject (<[i:=s]> ss)) with (mediaObject <$> <[i:=s]> ss). rewrite list_fmap_insert.
  by apply (at_idx_in i _ _ x).
Qed.

Lemma sdp_stale_media j ss ss' v : sdp_stale j ss v -> sdp_stale (jset "media" (JArray (map mediaObject ss')) j) ss' v.
Proof. unfold contains. intros [Ho Hh Hm Hg Hor]. unfold contains in Hh. split; unfold contains; media_find; auto with media. Qed.

Lemma sdp_ok_media j ss ss' d : sdp_ok j ss d -> sdp_ok (jset "media" (JArray (map mediaObject ss')) j) ss' d.
Proof. unfold contains. intros [Ho Hh Hm Hg Hor]. unfold contains in Hh. split; unfold contains; media_find; auto with media. Qed.

(** ** Updates of all sections *)

Lemma remote_section r d i : remote_ok r d -> i < length (mediaSections r) ->
  exists s mid c, mediaSections r !! i = Some s /\ d_sections d !! i = Some (mid, c) /\ section_is s mid c.
Proof.
  intros H [s Hs]%lookup_lt_is_Some_2.
  destruct (Forall2_lookup_l _ _ _ _ _ (ro_sections _ _ H) Hs) as ([mid c] & Hx & Hi). by exists s, mid, c.
Qed.

Section updates.
Context (f : MediaSection -> outcome MediaSection).
Context (Hf : forall s mid c, section_is s mid c -> exists s', f s = Ok s' /\ section_is s' mid c).

(** The state after section [i] has become [s]. *)
Definition with_section (i : nat) (s : MediaSection) (r : RemoteSdp) : RemoteSdp :=
  let ss := <[i:=s]> (mediaSections r) in
  with_sdp (jset "media" (JArray (map mediaObject ss)) (sdpObject r)) (with_sections ss r).

Lemma update_section_ok r d i : remote_ok r d -> i < length (mediaSections r) ->
  exists s s', mediaSections r !! i = Some s /\ f s = Ok s' /\
    update_section f i r = (Ok tt, with_section i s' r) /\ remote_ok (with_section i s' r) d.
Proof.
  intros H Hi. destruct (remote_section _ _ _ H Hi) as (s & mid & c & Hs & Hd & His).
  destruct (Hf _ _ _ His) as (s' & Hfs & His'). exists s, s'. split_and!; try done.
  - unfold update_section. erewrite bind_ok by (unfold section_at; by rewrite Hs).
    rewrite Hfs, lift_bind. erewrite bind_ok by done.
    destruct (ro_sdp _ _ H) as [Ho _ Hm _ _]. by rewrite (set_media_ok _ _ _ (mediaSections r)).
  - destruct H as [? ? ? Hss ? ? ? Hsdp]. split; try done; cbn.
    + rewrite <- (list_insert_id (d_sections d) i (mid, c)) by done. by apply Forall2_insert.
    + by eapply sdp_ok_media.
Qed.

Lemma update_range_ok d n : forall i r, remote_ok r d -> i + n = length (mediaSections r) ->
  exists r', for_list (seq i n) (update_section f) r = (Ok tt, r') /\ remote_ok r' d /\
    iceParameters r' = iceParameters r /\ dtlsParameters r' = dtlsParameters r /\
    (forall j, j < i -> mediaSections r' !! j = mediaSections r !! j) /\
    (forall j s, i <= j -> mediaSections r !! j = Some s ->
       exists s', f s = Ok s' /\ mediaSections r' !! j = Some s').
Proof.
  induction n as [|n IH]; intros i r H Hn; cbn [seq for_list].
  - exists r. split_and!; try done. intros j s Hj Hs%lookup_lt_Some. lia.
  - destruct (update_section_ok r d i H) as (s & s' & Hs & Hfs & Hrun & H'); [lia|].
    rewrite (bind_ok _ _ _ _ _ Hrun).
    destruct (IH (S i) _ H') as (r' & Hr' & Hok & Hice & Hdt & Hlow & Hhigh); [cbn; rewrite length_insert; lia|].
    exists r'. split_and!; try done.
    + intros j Hj. rewrite Hlow by lia. cbn. by rewrite list_lookup_insert_ne by lia.
    + intros j t Hj Ht. destruct (decide (i = j)) as [<-|Hne].
      * rewrite Hs in Ht. injection Ht as <-. exists s'. split; [done|].
        rewrite Hlow by lia. cbn. rewrite list_lookup_insert_eq by lia. done.
      * apply (Hhigh j t); [lia|]. cbn. by rewrite list_lookup_insert_ne.
Qed.

Lemma update_sections_ok r d : remote_ok r d ->
  exists r', update_sections f r = (Ok tt, r') /\ remote_ok r' d /\
    iceParameters r' = iceParameters r /\ dtlsParameters r' = dtlsParameters r /\
    (forall j s, mediaSections r !! j = Some s -> exists s', f s = Ok s' /\ mediaSections r' !! j = Some s').
Proof.
  intros H. unfold update_sections. rewrite (bind_ok get _ _ _ _ eq_refl).
  destruct (update_range_ok d (length (mediaSections r)) 0 r H) as (r' & ? & ? & ? & ? & _ & Hh); [done|].
  exists r'. split_and!; try done. intros j s. apply Hh. lia.
Qed.
End updates.

(** ** ICE and DTLS parameters *)

Lemma sdp_ok_icelite j ss d v : sdp_ok j ss d -> sdp_ok (jset "icelite" v j) ss d.
Proof. unfold contains. intros [Ho Hh Hm Hg Hor]. unfold contains in Hh. split; unfold contains; media_find; auto with media. Qed.

Lemma set_icelite_ok r d : remote_ok r d -> set_icelite r =
  (Ok tt, with_sdp (jset "icelite" (JString "ice-lite") (sdpObject r)) r) /\
  remote_ok (with_sdp (jset "icelite" (JString "ice-lite") (sdpObject r)) r) d.
Proof.
  intros H. pose proof (ro_ice _ _ H) as Hi. unfold normalIceParameters in Hi. split_keys. split.
  - unfold set_icelite. rewrite (bind_ok get _ _ _ _ eq_refl). unfold contains.
    match goal with K : key_ok "iceLite" _ _ = true |- _ => rewrite (proj1 (key_ok_find _ _ _ K)) end. cbn [when].
    apply on_sdp_ok, set_key_jset, (so_object _ _ _ (ro_sdp _ _ H)).
  - destruct H. split; try done. by apply sdp_ok_icelite.
Qed.

Lemma UpdateIceParameters_ok r d ice : remote_ok r d -> normalIceParameters ice = true ->
  exists r', UpdateIceParameters ice r = (Ok tt, r') /\ remote_ok r' d /\ iceParameters r' = ice /\
    Forall (fun s => find "iceUfrag" (mediaObject s) = find "usernameFragment" ice /\
                     find "icePwd" (mediaObject s) = find "password" ice) (mediaSections r').
Proof.
  intros H Hi. assert (remote_ok (with_ice ice r) d) as H1 by (by destruct H).
  destruct (set_icelite_ok _ _ H1) as [Hl H2]. unfold UpdateIceParameters.
  rewrite (bind_ok (modify _) _ _ _ _ eq_refl), (bind_ok _ _ _ _ _ Hl).
  destruct (update_sections_ok (SetIceParameters ice)) with (r := with_sdp (jset "icelite" (JString "ice-lite") (sdpObject (with_ice ice r))) (with_ice ice r)) (d := d)
    as (r' & Hr & Hok & Hice & _ & Hall); [|done|].
  { intros s mid c Hs. destruct (SetIceParameters_is ice s mid c Hi Hs) as (s' & ? & ? & _). by exists s'. }
  exists r'. split_and!; try done. apply Forall_lookup. intros i s' Hs'.
  assert (i < length (mediaSections r)) as [s Hs]%lookup_lt_is_Some_2.
  { apply lookup_lt_Some in Hs'. rewrite (Forall2_length _ _ _ (ro_sections _ _ H)).
    by rewrite <- (Forall2_length _ _ _ (ro_sections _ _ Hok)). }
  destruct (Hall i s Hs) as (s'' & Hf & Hs''). rewrite Hs' in Hs''. injection Hs'' as <-.
  destruct (Forall2_lookup_l _ _ _ _ _ (ro_sections _ _ H) Hs) as ([mid c] & _ & His).
  destruct (SetIceParameters_is ice s mid c Hi His) as (s2 & Hf2 & _ & _ & ? & ?). rewrite Hf in Hf2. by injection Hf2 as <-.
Qed.

Lemma normalDtls_role role dtls : match_words ["auto"; "client"; "server"] role = true ->
  normalDtlsParameters dtls = true -> normalDtlsParameters (jset "role" (JString role) dtls) = true.
Proof.
  unfold normalDtlsParameters. intros Hr H. rewrite !andb_true_iff in *. destruct H as [[Ho _] Hfp].
  unfold key_ok in *. media_find. split_and!; [by apply jset_object| |done]. cbn [missing is_word]. by rewrite Hr.
Qed.

Lemma UpdateDtlsRole_ok r d role : remote_ok r d -> match_words ["auto"; "client"; "server"] role = true ->
  exists r', UpdateDtlsRole role r = (Ok tt, r') /\ remote_ok r' d.
Proof.
  intros H Hr. pose (r1 := with_dtls (jset "role" (JString role) (dtlsParameters r)) r).
  assert (remote_ok r1 d) as H1 by (destruct H; split; try done; by apply normalDtls_role).
  destruct (set_icelite_ok _ _ H1) as [Hl H2]. unfold UpdateDtlsRole.
  assert (on_dtls (set_key "role" (JString role)) r = (Ok tt, r1)) as Hd.
  { pose proof (ro_dtls _ _ H) as Hn. unfold normalDtlsParameters in Hn. split_keys.
    unfold on_dtls, zoom. by rewrite set_key_jset. }
  rewrite (bind_ok _ _ _ _ _ Hd), (bind_ok _ _ _ _ _ Hl).
  destruct (update_sections_ok (fun s => Ok (SetDtlsRole role s))) with (r := with_sdp (jset "icelite" (JString "ice-lite") (sdpObject r1)) r1) (d := d)
    as (r' & Hru & Hok & _); [|done|by exists r'].
  intros s mid c Hs. eexists. split; [done|]. by apply SetDtlsRole_is.
Qed.

(** ** Sections *)

(** The next section to use: the first closed one, or a new one. *)
Definition next_section (i : nat) (l : list (string * bool)) : nat * string :=
  match list_find (fun x => x.2 = true) l with
  | Some (n, x) => (i + n, x.1)
  | None => (i + length l, "")
  end.

Lemma next_index_ok ss l : Forall2 (fun s x => section_is s x.1 x.2) ss l ->
  forall i, next_index i ss = Ok (next_section i l).
Proof.
  induction 1 as [|s [mid c] ss l Hs _ IH]; intros i; unfold next_section; cbn [next_index list_find length].
  - by rewrite Nat.add_0_r.
  - destruct (section_is_get _ _ _ Hs) as [Hm Hc]. rewrite Hc. cbn [obind fst snd] in *. destruct c; case_decide; try done.
    + rewrite Hm. cbn [obind]. by rewrite Nat.add_0_r.
    + rewrite IH. unfold next_section. destruct (list_find _ l) as [[n x]|]; cbn; by rewrite Nat.add_succ_r.
Qed.

Lemma mids_lookup l i mid c : l !! i = Some (mid, c) -> mids l !! i = Some mid.
Proof. intros H. unfold mids. by rewrite (list_lookup_fmap fst), H. Qed.

Lemma good_add l mid : good_sections l -> mid <> "" -> mid ∉ mids l -> good_sections (l ++ [(mid, false)]).
Proof.
  intros [Hn He Hf] Hm Hni. split.
  - unfold mids. rewrite map_app. apply NoDup_app. split_and!; [done| |apply NoDup_singleton].
    intros x Hx ->%list_elem_of_singleton. done.
  - apply Forall_app. split; [done|by constructor].
  - intros x. destruct l as [|y l]; cbn; [by intros [= <-]|]. apply Hf.
Qed.

Lemma map_add (m : gmap string nat) l mid : mid ∉ mids l ->
  (forall k i, m !! k = Some i <-> mids l !! i = Some k) ->
  forall k i, <[mid := length l]> m !! k = Some i <-> mids (l ++ [(mid, false)]) !! i = Some k.
Proof.
  intros Hni Hm k i. unfold mids in *. rewrite map_app. cbn [map fst]. rewrite lookup_app_Some, length_map.
  rewrite list_lookup_singleton_Some. destruct (decide (mid = k)) as [<-|Hk].
  - rewrite lookup_insert_eq. split.
    + intros [= <-]. right. split; [lia|]. split; [lia|done].
    + intros [H|(? & ? & _)]; [|f_equal; lia]. destruct Hni. by eapply list_elem_of_lookup_2.
  - rewrite lookup_insert_ne, Hm by done. split; [by left|]. intros [?|(_ & _ & ?)]; done.
Qed.

Lemma good_first_mid l : good_sections l -> (default "" (mids l !! 0) = "" <-> l = []).
Proof.
  intros [_ He _]. destruct l as [|[mid c] l]; [done|]. cbn. apply Forall_cons in He as [He _]. by split.
Qed.

(** The description with the sections replaced. *)
Definition set_sections (l : list (string * bool)) (d : description) : description := mkDescription l (d_version d).

Lemma AddMediaSection_ok r d s mid : remote_ok r d -> section_is s mid false -> mid <> "" ->
  mid ∉ mids (d_sections d) ->
  exists r', AddMediaSection s r = (Ok tt, r') /\ remote_ok r' (set_sections (d_sections d ++ [(mid, false)]) d) /\
    mediaSections r' = mediaSections r ++ [s].
Proof.
  intros [Hice Hca Hdt Hss Hmap Hfi Hgood Hsdp] Hs Hne Hni. destruct (section_is_get _ _ _ Hs) as [Hmid _].
  pose (ss := mediaSections r ++ [s]). pose (first := default "" (mids (d_sections d ++ [(mid, false)]) !! 0)).
  assert (when (String.eqb (firstMid r) "") (mid <- lift (GetMid s) ;; modify (with_first mid)) r
          = (Ok tt, with_first first r)) as Hfirst.
  { rewrite Hfi, Hmid. pose proof (good_first_mid _ Hgood) as Hg.
    destruct (String.eqb_spec (default "" (mids (d_sections d) !! 0)) "") as [E|E]; cbn [when].
    - apply Hg in E. unfold first. by rewrite E.
    - unfold ret, first. f_equal. destruct r; cbn in *. unfold with_first. cbn. f_equal. rewrite Hfi.
      by destruct (d_sections d). }
  unfold AddMediaSection. rewrite (bind_ok get _ _ _ _ eq_refl), (bind_ok _ _ _ _ _ Hfirst).
  rewrite (bind_ok (modify _) _ _ _ _ eq_refl), Hmid, lift_bind, (bind_ok (modify _) _ _ _ _ eq_refl). cbn [mediaSections with_sections with_first].
  pose proof Hsdp as [Ho _ Hm Hg Hor].
  assert (Forall2 (fun s x => section_is s x.1 x.2) ss (d_sections d ++ [(mid, false)])) as Hss'
    by (apply Forall2_app; [done|by constructor]).
  match goal with |- context [bind _ _ ?st] => set (r1 := st) end.
  pose (j1 := jset "media" (JArray (map mediaObject ss)) (sdpObject r)).
  assert (on_sdp (at_key "media" (push_back (GetObject s))) r1 = (Ok tt, with_sdp j1 r1)) as Hpush.
  { apply on_sdp_ok. eapply at_key_find; [done|exact Hm|]. unfold j1, ss. by rewrite map_app. }
  rewrite (bind_ok _ _ _ _ _ Hpush).
  destruct (RegenerateBundleMids_ok (with_sdp j1 r1) (d_sections d ++ [(mid, false)]) (d_version d)) as (j & Hrun & Hj);
    [done|by apply good_add|by eapply sdp_stale_media, (sdp_ok_stale _ _ d)|].
  rewrite Hrun. eexists. split; [done|]. split; [|done]. split; try done; cbn.
  - rewrite length_app. cbn. rewrite Nat.add_sub, (Forall2_length _ _ _ Hss). by apply map_add.
  - by apply good_add.
Qed.

(** A closed section may take a new mid, or keep its own. *)
Definition fresh_at (l : list (string * bool)) (i : nat) (mid : string) : Prop :=
  forall j, mids l !! j = Some mid -> j = i.

Lemma good_replace l i x mid c : good_sections l -> l !! i = Some x -> mid <> "" -> fresh_at l i mid ->
  (i = 0 -> c = false) -> good_sections (<[i := (mid, c)]> l).
Proof.
  intros [Hn He Hf] Hi Hm Hfr Hc. split.
  - unfold mids. rewrite (list_fmap_insert fst). cbn. apply NoDup_alt. intros a b y Ha Hb.
    rewrite list_lookup_insert_Some in Ha, Hb. rewrite NoDup_alt in Hn.
    destruct Ha as [(<- & <- & _)|[Hna Ha]], Hb as [(Hb & Hy & _)|[Hnb Hb]]; try done.
    + by rewrite (Hfr b Hb).
    + subst. by rewrite (Hfr a Ha).
    + by eapply Hn.
  - by apply Forall_insert.
  - intros y. rewrite list_lookup_insert_Some. intros [(-> & <- & _)|[_ Hy]]; [by apply Hc|by apply Hf].
Qed.

Lemma map_replace (m : gmap string nat) l i old c mid : l !! i = Some (old, c) -> NoDup (mids l) -> fresh_at l i mid ->
  (forall k i, m !! k = Some i <-> mids l !! i = Some k) ->
  forall b k j, <[mid := i]> (delete old m) !! k = Some j <-> mids (<[i := (mid, b)]> l) !! j = Some k.
Proof.
  intros Hi Hn Hfr Hm b k j. unfold mids. rewrite (list_fmap_insert fst), list_lookup_insert_Some, length_map. cbn [fst].
  pose proof (mids_lookup _ _ _ _ Hi) as Hmi. apply lookup_lt_Some in Hi. rewrite NoDup_alt in Hn.
  destruct (decide (mid = k)) as [<-|Hk].
  - rewrite lookup_insert_eq. split; [intros [= <-]; by left|].
    intros [(-> & _)|[Hne Hj]]; [done|]. by rewrite (Hfr j Hj) in Hne.
  - rewrite lookup_insert_ne by done. destruct (decide (old = k)) as [<-|Hok].
    + rewrite lookup_delete_eq. split; [done|]. intros [(_ & ? & _)|[Hne Hj]]; [done|]. by destruct Hne; eapply Hn.
    + rewrite lookup_delete_ne, Hm by done. split; [|by intros [(_ & ? & _)|[_ Hj]]].
      intros Hj. right. split; [|done]. intros ->. unfold mids in Hmi, Hj. rewrite Hmi in Hj. by injection Hj.
Qed.

Lemma index_of_ok r d i mid c : remote_ok r d -> d_sections d !! i = Some (mid, c) -> index_of mid r = (Ok i, r).
Proof. intros H Hi. unfold index_of. by rewrite (proj2 (ro_map _ _ H mid i) (mids_lookup _ _ _ _ Hi)). Qed.

Lemma section_at_ok r d i mid c : remote_ok r d -> d_sections d !! i = Some (mid, c) ->
  exists s, section_at i r = (Ok s, r) /\ mediaSections r !! i = Some s /\ section_is s mid c.
Proof.
  intros H Hi. destruct (Forall2_lookup_r _ _ _ _ _ (ro_sections _ _ H) Hi) as (s & Hs & His).
  exists s. unfold section_at. by rewrite Hs.
Qed.

(** The end both of replacing and of closing: section [i] is stored, its media
    object is replaced and the bundle regenerated. *)
Lemma store_section_ok r d i x s mid c :
  remote_ok r d -> d_sections d !! i = Some x -> section_is s mid c -> mid <> "" -> fresh_at (d_sections d) i mid ->
  (i = 0 -> c = false) ->
  forall m, (forall k j, m !! k = Some j <-> mids (<[i := (mid, c)]> (d_sections d)) !! j = Some k) ->
  firstMid r = default "" (mids (<[i := (mid, c)]> (d_sections d)) !! 0) ->
  exists r', (set_media i (GetObject s) ;;; RegenerateBundleMids)
      (with_map m (with_sections (<[i:=s]> (mediaSections r)) r)) = (Ok tt, r') /\
    remote_ok r' (set_sections (<[i := (mid, c)]> (d_sections d)) d) /\
    mediaSections r' = <[i:=s]> (mediaSections r).
Proof.
  intros [Hice Hca Hdt Hss Hmap Hfi Hgood Hsdp] Hi Hs Hne Hfr Hc m Hm Hfi'.
  pose proof Hsdp as [Ho _ Hme Hg Hor].
  assert (Forall2 (fun s x => section_is s x.1 x.2) (<[i:=s]> (mediaSections r)) (<[i := (mid, c)]> (d_sections d)))
    as Hss' by (by apply Forall2_insert).
  erewrite bind_ok.
  2:{ apply (set_media_ok _ _ _ (mediaSections r)); [done..|]. rewrite (Forall2_length _ _ _ Hss). by apply lookup_lt_Some in Hi. }
  match goal with |- context [RegenerateBundleMids ?st] => set (r1 := st) end.
  destruct (RegenerateBundleMids_ok r1 (<[i := (mid, c)]> (d_sections d)) (d_version d)) as (j & Hrun & Hj);
    [done|by eapply good_replace|by eapply sdp_stale_media, (sdp_ok_stale _ _ d)|].
  rewrite Hrun. eexists. split; [done|]. split; [|done]. split; try done. by eapply good_replace.
Qed.

Lemma ReplaceMediaSection_ok r d i old s mid : remote_ok r d -> d_sections d !! i = Some (old, true) ->
  section_is s mid false -> mid <> "" -> fresh_at (d_sections d) i mid ->
  exists r', ReplaceMediaSection s old r = (Ok tt, r') /\
    remote_ok r' (set_sections (<[i := (mid, false)]> (d_sections d)) d) /\
    mediaSections r' = <[i:=s]> (mediaSections r).
Proof.
  intros H Hi Hs Hne Hfr. destruct (section_at_ok _ _ _ _ _ H Hi) as (s0 & Hat & Hs0 & His0).
  destruct (section_is_get _ _ _ Hs) as [Hmid _], (section_is_get _ _ _ His0) as [Hmid0 _].
  pose proof (ro_good _ _ H) as Hgood. unfold ReplaceMediaSection.
  assert (String.eqb old "" = false) as ->.
  { apply String.eqb_neq. pose proof (gs_nonempty _ Hgood) as He. rewrite Forall_lookup in He. apply (He _ _ Hi). }
  cbn [negb]. rewrite (bind_ok _ _ _ _ _ (index_of_ok _ _ _ _ _ H Hi)), (bind_ok _ _ _ _ _ Hat).
  rewrite (bind_ok (set_section _ _) _ _ _ _ eq_refl), Hmid0, lift_bind, (bind_ok (modify _) _ _ _ _ eq_refl).
  rewrite Hmid, lift_bind, (bind_ok (modify _) _ _ _ _ eq_refl).
  apply (store_section_ok r d i (old, true) s mid false H Hi Hs Hne Hfr ltac:(done)).
  - eapply map_replace; [exact Hi|apply Hgood|done|apply H].
  - rewrite (ro_first _ _ H). destruct i as [|i]; [|by destruct (d_sections d)].
    by pose proof (gs_first _ Hgood _ Hi).
Qed.

(** Closing: the first section stays open. *)
Definition close_at (i : nat) (mid : string) (l : list (string * bool)) : list (string * bool) :=
  match i with 0 => l | _ => <[i := (mid, true)]> l end.

Lemma insert_same_mid l i mid c c' : l !! i = Some (mid, c) -> mids (<[i := (mid, c')]> l) = mids l.
Proof.
  intros H. unfold mids. rewrite (list_fmap_insert fst). cbn. apply list_insert_id. by rewrite list_lookup_fmap, H.
Qed.

Lemma CloseMediaSection_ok r d i mid c : remote_ok r d -> d_sections d !! i = Some (mid, c) ->
  exists r' s, CloseMediaSection mid r = (Ok tt, r') /\ mediaSections r !! i = Some s /\
    remote_ok r' (set_sections (close_at i mid (d_sections d)) d) /\
    mediaSections r' = <[i := if bool_decide (i = 0) then Disable s else Close s]> (mediaSections r).
Proof.
  intros H Hi. destruct (section_at_ok _ _ _ _ _ H Hi) as (s & Hat & Hs & His). pose proof (ro_good _ _ H) as Hgood.
  pose proof (mids_lookup _ _ _ _ Hi) as Hmi. pose proof (gs_nodup _ Hgood) as Hnd. rewrite NoDup_alt in Hnd.
  assert (mid <> "") as Hne by (pose proof (gs_nonempty _ Hgood) as He; rewrite Forall_lookup in He; apply (He _ _ Hi)).
  assert (String.eqb mid (firstMid r) = bool_decide (i = 0)) as Hfirst.
  { rewrite (ro_first _ _ H). case_bool_decide as E; [subst; rewrite Hmi; apply String.eqb_refl|].
    apply String.eqb_neq. intros Heq. destruct (mids (d_sections d) !! 0) as [m0|] eqn:E0; cbn in Heq; [|done].
    subst. by destruct E; eapply Hnd. }
  unfold CloseMediaSection. rewrite (bind_ok _ _ _ _ _ (index_of_ok _ _ _ _ _ H Hi)), (bind_ok _ _ _ _ _ Hat).
  rewrite (bind_ok get _ _ _ _ eq_refl), Hfirst.
  set (s' := if bool_decide (i = 0) then Disable s else Close s). cbv zeta.
  pose (c' := if bool_decide (i = 0) then c else true).
  assert (section_is s' mid c') as His'.
  { unfold s', c'. case_bool_decide; [by apply Disable_is|by eapply Close_is]. }
  assert (close_at i mid (d_sections d) = <[i := (mid, c')]> (d_sections d)) as ->.
  { unfold c'. destruct i; [|done]. cbn. by rewrite list_insert_id. }
  rewrite (bind_ok (set_section _ _) _ _ _ _ eq_refl).
  assert (with_sections (<[i:=s']> (mediaSections r)) r =
    with_map (midToIndex r) (with_sections (<[i:=s']> (mediaSections r)) r)) as -> by done.
  destruct (store_section_ok r d i (mid, c) s' mid c' H Hi His' Hne) with (m := midToIndex r) as (r' & Hr' & Hok & Hms).
  - intros j Hj. by eapply Hnd.
  - intros ->. unfold c'. cbn. by pose proof (gs_first _ Hgood _ Hi).
  - rewrite (insert_same_mid _ _ _ _ _ Hi). apply H.
  - rewrite (insert_same_mid _ _ _ _ _ Hi). apply H.
  - by exists r', s.
Qed.

(** ** The session version *)

Lemma get_uint32_JUint z : get_uint32 (JUint z) = Ok (wrap_u 32 z).
Proof. done. Qed.
Lemma wrap_u_idem w z : wrap_u w (wrap_u w z) = wrap_u w z.
Proof. apply Zmod_mod. Qed.

Lemma get_key_same k j v : is_object j = true -> find k j = Some v -> get_key k j = (Ok v, j).
Proof. destruct j; try done. cbn [find]. intros _ H. by apply get_key_present. Qed.

Section writer.
Context `{JsonDump}.

Lemma remote_writable r d : remote_ok r d -> writable (sdpObject r) = true.
Proof.
  intros [_ _ _ Hss _ _ _ [Ho [Hv Hn] Hm _ _]]. unfold writable, key_ok. rewrite Ho, Hv, Hn, Hm. cbn [andb missing array_of].
  rewrite negb_involutive. apply Forall_forallb, Forall_fmap.
  eapply Forall2_Forall_l; [exact Hss|]. apply Forall_true. intros x s [Hso _ _ Hp]. cbn. by rewrite Hso, Hp.
Qed.

Lemma bump_version r d : remote_ok r d ->
  exists j, (v <- on_sdp (at_key "origin" (get_key "sessionVersion")) ;;
             version <- lift (get_uint32 v) ;;
             on_sdp (at_key "origin" (set_key "sessionVersion" (JUint (wrap_u 32 (version + 1)))))) r
            = (Ok tt, with_sdp j r) /\
    remote_ok (with_sdp j r) (mkDescription (d_sections d) (wrap_u 32 (d_version d + 1))).
Proof.
  intros [Hice Hca Hdt Hss Hmap Hfi Hgood [Ho Hh Hm Hg (g & v & Hor & Hgo & Hv & Hn)]].
  assert (on_sdp (at_key "origin" (get_key "sessionVersion")) r = (Ok v, r)) as Hread.
  { rewrite (on_sdp_ok _ r v (sdpObject r)); [by destruct r|].
    rewrite (at_key_find _ _ _ g (Ok v) g); [by rewrite jset_same|done..|by apply get_key_same]. }
  rewrite (bind_ok _ _ _ _ _ Hread), Hn, lift_bind.
  set (v' := JUint (wrap_u 32 (d_version d + 1))). pose (g' := jset "sessionVersion" v' g).
  assert (on_sdp (at_key "origin" (set_key "sessionVersion" v')) r = (Ok tt, with_sdp (jset "origin" g' (sdpObject r)) r)) as Hw.
  { apply on_sdp_ok. eapply at_key_find; [done|exact Hor|]. by apply set_key_jset. }
  exists (jset "origin" g' (sdpObject r)). split; [done|]. split; try done. unfold contains in Hh.
  split; cbn [sdpObject with_sdp]; unfold contains; media_find; [auto with media|done|done|done|].
  exists g', v'. unfold g'. split; [done|]. split; [auto with media|]. media_find. split; [done|].
  unfold v'. by rewrite get_uint32_JUint, wrap_u_idem.
Qed.

Lemma bind_assoc {S A B C} (m : M S A) (f : A -> M S B) (g : B -> M S C) s :
  bind m (fun x => bind (f x) g) s = bind (bind m f) g s.
Proof. unfold bind. by destruct (m s) as [[a|e|] s']. Qed.

(** The text is that of the session with the new version. *)
Lemma GetSdp_ok r d : remote_ok r d ->
  exists j t, GetSdp r = (Ok t, with_sdp j r) /\ session_lines j = Ok t /\
    remote_ok (with_sdp j r) (mkDescription (d_sections d) (wrap_u 32 (d_version d + 1))).
Proof.
  intros H0. destruct (bump_version r d H0) as (j & Hb & Hok).
  destruct (write_ok j (remote_writable _ _ Hok)) as (t & Hw & Ht).
  exists j, t. split_and!; [|done..]. unfold GetSdp.
  transitivity (((v <- on_sdp (at_key "origin" (get_key "sessionVersion")) ;;
             version <- lift (get_uint32 v) ;;
             on_sdp (at_key "origin" (set_key "sessionVersion" (JUint (wrap_u 32 (version + 1)))))) ;;; on_sdp write) r).
  { rewrite <- bind_assoc. unfold bind at 1. unfold bind at 3. destruct (on_sdp _ r) as [[v|e|] s]; [apply bind_assoc|done..]. }
  rewrite (bind_ok _ _ _ _ _ Hb). by rewrite (on_sdp_ok write (with_sdp j r) t j Hw).
Qed.
End writer.

(** ** Construction *)

Lemma lastFingerprint_ok k dtls : normalDtlsParameters dtls = true -> k = "algorithm" \/ k = "value" ->
  exists v, lastFingerprint k dtls = (Ok v, dtls) /\ is_nonempty_string v = true /\
    exists fp, last (elems (member "fingerprints" dtls)) = Some fp /\ find k fp = Some v.
Proof.
  intros H Hk. unfold normalDtlsParameters in H. split_keys.
  match goal with K : key_ok "fingerprints" _ _ = true |- _ => destruct (key_ok_find _ _ _ K) as [Hf Hn] end.
  unfold normalDtlsFingerprints in Hn. apply andb_prop in Hn as [Ha He].
  destruct (member "fingerprints" dtls) as [| | | | | |l|]; try done. cbn [elems array_of json_empty] in *.
  assert (is_object dtls = true) as Ho by done.
  unfold lastFingerprint. rewrite (bind_ok _ _ _ _ _ (get_key_same _ _ _ Ho Hf)). cbn [json_size].
  destruct l as [|fp0 l0]; [done|]. cbn [length].
  destruct (lookup_lt_is_Some_2 (fp0 :: l0) (length l0)) as [fp Hfp]; [cbn; lia|].
  pose proof Hfp as Hnf. rewrite forallb_forall in Ha. apply list_elem_of_lookup_2, list_elem_of_In, Ha in Hnf.
  unfold normalDtlsFingerprint in Hnf. split_keys.
  assert (exists v, find k fp = Some v /\ is_nonempty_string v = true) as (v & Hv & Hs).
  { destruct Hk as [-> | ->];
      match goal with K : key_ok ?q is_nonempty_string fp = true |- context [find ?q fp] =>
        destruct (key_ok_find _ _ _ K); by eexists end. }
  exists v. split_and!; [|done|exists fp; split; [by rewrite last_lookup|done]].
  rewrite (at_key_find _ _ _ (JArray (fp0 :: l0)) (Ok v) (JArray (fp0 :: l0))); [by rewrite jset_same|done..|].
  rewrite (at_idx_in _ _ _ fp (Ok v) fp) by (done || by apply get_key_same). by rewrite list_insert_id.
Qed.

(** The empty description. *)
Definition initial : description := mkDescription [] 0.

Lemma newRemoteSdp_ok ice cands dtls sctp : normalIceParameters ice = true -> normalIceCandidates cands = true ->
  normalDtlsParameters dtls = true ->
  exists r, newRemoteSdp ice cands dtls sctp = Ok r /\ remote_ok r initial /\
    dtlsParameters r = dtls /\ find "icelite" (sdpObject r) = Some (JString "ice-lite") /\
    exists fp alg value, last (elems (member "fingerprints" dtls)) = Some fp /\
      find "algorithm" fp = Some alg /\ find "value" fp = Some value /\
      find "fingerprint" (sdpObject r) = Some (mk_obj [("type", alg); ("hash", value)]).
Proof.
  intros Hi Hc Hd. destruct (lastFingerprint_ok "algorithm" dtls Hd) as (alg & Ha & _ & fp & Hfp & Hfa); [by left|].
  destruct (lastFingerprint_ok "value" dtls Hd) as (value & Hv & _ & fp' & Hfp' & Hfv); [by right|].
  rewrite Hfp in Hfp'. injection Hfp' as <-. unfold newRemoteSdp.
  rewrite (bind_ok _ _ _ _ _ Ha), (bind_ok _ _ _ _ _ Hv). unfold ret. cbn [obind].
  pose proof Hi as Hi'. unfold normalIceParameters in Hi'. split_keys. unfold contains.
  match goal with K : key_ok "iceLite" _ _ = true |- _ => rewrite (proj1 (key_ok_find _ _ _ K)) end.
  eexists. split; [reflexivity|]. cbn [sdpObject dtlsParameters].
  assert (is_object initialSdpObject = true) as Ho by done.
  split_and!; [|done|by media_find|].
  - split; try done; cbn [mediaSections midToIndex firstMid sdpObject d_sections initial].
    + split; [constructor|constructor|done].
    + split; unfold contains; media_find; [auto 10 with media|by split|done|..].
      * eexists. split; [reflexivity|]. split; [done|]. by rewrite find_mk_obj.
      * exists (mk_obj initialOrigin), (JInt 0). unfold initialSdpObject. rewrite !find_mk_obj. by split_and!.
  - exists fp, alg, value. by split_and!.
Qed.

(** ** Sequences of operations *)

(** The arguments of [Send] for an audio or video producer. *)
Record sendable (offer offerParams answer : json) (options : option json) (mid : string) : Prop := {
  se_offer : offer_object offer = true;
  se_mid : find "mid" offer = Some (JString mid);
  se_type : exists type, find "type" offer = Some (JString type) /\ (type = "audio" \/ type = "video");
  se_answer : answer_parameters answer;
  se_options : exists pts, offered offerParams pts /\ Forall (options_fit options pts) (codecs_of answer);
}.

(** The arguments of [Receive] for an audio or video consumer. *)
Record receivable (kind : string) (params : json) : Prop := {
  re_kind : kind = "audio" \/ kind = "video";
  re_params : normalRtpParameters params = true;
  re_encoding : exists ssrc rtx cname, first_encoding params ssrc rtx cname;
}.

Inductive command :=
| CUpdateIce (ice : json)
| CUpdateRole (role : string)
| CSend (offer : json) (reuseMid : string) (offerParams answer : json) (options : option json)
| CReceive (mid kind : string) (params : json) (streamId trackId : string)
| CClose (mid : string)
| CGetSdp.

Section commands.
Context `{JsonDump}.

Definition run (c : command) : M RemoteSdp unit :=
  match c with
  | CUpdateIce ice => UpdateIceParameters ice
  | CUpdateRole role => UpdateDtlsRole role
  | CSend offer reuseMid offerParams answer options => fun r =>
    let '(o, s) := Send offer reuseMid answer options (r, offerParams) in (o, s.1)
  | CReceive mid kind params streamId trackId => Receive mid kind params streamId trackId
  | CClose mid => CloseMediaSection mid
  | CGetSdp => _ <- GetSdp ;; ret tt
  end.
Definition run_all (cs : list command) : M RemoteSdp unit := for_list cs run.
End commands.

(** What each operation does to the abstract description. *)
Inductive step (d : description) : command -> description -> Prop :=
| step_ice ice : normalIceParameters ice = true -> step d (CUpdateIce ice) d
| step_role role : match_words ["auto"; "client"; "server"] role = true -> step d (CUpdateRole role) d
| step_send offer offerParams answer options mid :
  sendable offer offerParams answer options mid -> mid <> "" -> mid ∉ mids (d_sections d) ->
  step d (CSend offer "" offerParams answer options) (set_sections (d_sections d ++ [(mid, false)]) d)
| step_reuse offer reuseMid offerParams answer options i mid :
  sendable offer offerParams answer options mid -> mid <> "" ->
  d_sections d !! i = Some (reuseMid, true) -> fresh_at (d_sections d) i mid ->
  step d (CSend offer reuseMid offerParams answer options) (set_sections (<[i := (mid, false)]> (d_sections d)) d)
| step_receive mid kind params streamId trackId :
  receivable kind params -> mid <> "" -> mid ∉ mids (d_sections d) ->
  step d (CReceive mid kind params streamId trackId) (set_sections (d_sections d ++ [(mid, false)]) d)
| step_close i mid c : d_sections d !! i = Some (mid, c) ->
  step d (CClose mid) (set_sections (close_at i mid (d_sections d)) d)
| step_get : step d CGetSdp (mkDescription (d_sections d) (wrap_u 32 (d_version d + 1))).

Inductive steps : description -> list command -> description -> Prop :=
| steps_nil d : steps d [] d
| steps_cons d c d' cs d'' : step d c d' -> steps d' cs d'' -> steps d (c :: cs) d''.

Lemma Send_section r d offer reuseMid offerParams answer options mid : remote_ok r d ->
  sendable offer offerParams answer options mid ->
  exists s offerParams', section_is s mid false /\
    Send offer reuseMid answer options (r, offerParams) =
    on_remote_sdp (if negb (String.eqb reuseMid "") then ReplaceMediaSection s reuseMid else AddMediaSection s) (r, offerParams').
Proof.
  intros H [Ho Hm (type & Ht & Hk) Ha (pts & Hof & Hfit)].
  destruct (AnswerMediaSection_ok (iceParameters r) (iceCandidates r) (dtlsParameters r) (sctpParameters r) offer answer
    options offerParams pts mid type) as (s & p & Hrun & _ & _ & His & _); [apply H..|done|done|done|done|done|done|done|].
  exists s, p. split; [done|]. unfold Send. rewrite (bind_ok get _ _ _ _ eq_refl). cbv zeta. cbn [fst].
  by rewrite (bind_ok _ _ _ _ _ (zoom_ok _ (fun p (s : RemoteSdp * json) => (s.1, p)) _ (r, offerParams) offerParams _ _ eq_refl Hrun)).
Qed.

Lemma Receive_ok r d mid kind params streamId trackId : remote_ok r d -> receivable kind params -> mid <> "" ->
  mid ∉ mids (d_sections d) ->
  exists r', Receive mid kind params streamId trackId r = (Ok tt, r') /\
    remote_ok r' (set_sections (d_sections d ++ [(mid, false)]) d).
Proof.
  intros H [Hk Hp (ssrc & rtx & cname & He)] Hne Hni.
  destruct (OfferMediaSection_ok (iceParameters r) (iceCandidates r) JNull mid kind params streamId trackId ssrc rtx cname)
    as (s & Hs & _ & His & _); [apply H..|done|done|done|].
  unfold Receive. rewrite (bind_ok get _ _ _ _ eq_refl), Hs, lift_bind.
  destruct (AddMediaSection_ok _ _ _ _ H His Hne Hni) as (r' & ? & ? & _). by exists r'.
Qed.

Lemma on_remote_sdp_ok {A} (m : M RemoteSdp A) r p a r' : m r = (Ok a, r') -> on_remote_sdp m (r, p) = (Ok a, (r', p)).
Proof. intros E. unfold on_remote_sdp, zoom. cbn. by rewrite E. Qed.

Lemma step_ok `{JsonDump} r d c d' : remote_ok r d -> step d c d' -> exists r', run c r = (Ok tt, r') /\ remote_ok r' d'.
Proof.
  intros Hr Hs. destruct Hs; cbn [run].
  - destruct (UpdateIceParameters_ok r d ice) as (r' & ? & ? & _); [done..|]. by exists r'.
  - by apply UpdateDtlsRole_ok.
  - destruct (Send_section r d offer "" offerParams answer options mid) as (s & p & His & ->); [done..|].
    destruct (AddMediaSection_ok r d s mid) as (r' & E & Hok & _); [done..|].
    exists r'. by rewrite (on_remote_sdp_ok _ _ _ _ _ E).
  - destruct (Send_section r d offer reuseMid offerParams answer options mid) as (s & p & His & ->); [done..|].
    destruct (ReplaceMediaSection_ok r d i reuseMid s mid) as (r' & E & Hok & _); [done..|].
    assert (String.eqb reuseMid "" = false) as ->.
    { apply String.eqb_neq. pose proof (gs_nonempty _ (ro_good _ _ Hr)) as He. rewrite Forall_lookup in He. by eapply He in H2. }
    exists r'. cbn [negb]. by rewrite (on_remote_sdp_ok _ _ _ _ _ E).
  - by apply Receive_ok.
  - destruct (CloseMediaSection_ok r d i mid c) as (r' & s & ? & _ & ? & _); [done..|]. by exists r'.
  - destruct (GetSdp_ok r d Hr) as (j & t & E & _ & Hok). exists (with_sdp j r). by rewrite (bind_ok _ _ _ _ _ E).
Qed.

Lemma steps_ok `{JsonDump} d cs d' : steps d cs d' -> forall r, remote_ok r d ->
  exists r', run_all cs r = (Ok tt, r') /\ remote_ok r' d'.
Proof.
  induction 1 as [d|d c d1 cs d2 Hs _ IH]; intros r Hr; [by exists r|].
  destruct (step_ok _ _ _ _ Hr Hs) as (r1 & E1 & H1). destruct (IH _ H1) as (r2 & E2 & H2).
  exists r2. split; [|done]. unfold run_all. cbn [for_list]. by rewrite (bind_ok _ _ _ _ _ E1).
Qed.

(** C1: the remote description implements the abstract one.  From validated
    transport parameters, through every sequence of ICE and DTLS updates, new
    and replaced sending sections, receiving sections, closings and
    serialisations that the abstract description allows, no operation throws
    or runs into undefined behaviour; and afterwards the sections have the
    abstract mids and states, the index map is exactly their positions, the
    media array of the SDP object is exactly their media objects, the BUNDLE
    line lists the open mids in order, the first section is open, and the
    session version counts the serialisations modulo 2^32. *)
Theorem remote_sdp_refines `{JsonDump} ice cands dtls sctp cs d :
  normalIceParameters ice = true -> normalIceCandidates cands = true -> normalDtlsParameters dtls = true ->
  steps initial cs d ->
  exists r0 r, newRemoteSdp ice cands dtls sctp = Ok r0 /\ run_all cs r0 = (Ok tt, r) /\ remote_ok r d.
Proof.
  intros Hi Hc Hd Hs. destruct (newRemoteSdp_ok ice cands dtls sctp Hi Hc Hd) as (r0 & E0 & H0 & _).
  destruct (steps_ok _ _ _ Hs _ H0) as (r & E & Hr). by exists r0, r.
Qed.

(** The serializer, two offered media objects and a session that reuses a section. *)
Definition sample_dump : JsonDump := serializer_dump.
Definition sample_offer_of (mid : string) : json := mk_obj
  [ ("type", JString "audio"); ("mid", JString mid); ("protocol", JString "UDP/TLS/RTP/SAVPF"); ("ext", JArray []) ].
Definition sample_commands : list command :=
  [ CReceive "0" "video" sample_consumer_parameters "s" "t";
    CSend (sample_offer_of "1") "" sample_sending sample_sending None;
    CClose "1"; CSend (sample_offer_of "2") "1" sample_sending sample_sending None; CClose "0"; CGetSdp ].

Lemma sample_receivable : receivable "video" sample_consumer_parameters.
Proof.
  split; [by right|by vm_compute|]. exists 1111%Z, 2222%Z, "c". split.
  - exists sample_encoding, []. split; [by vm_compute|]. split; [|by vm_compute].
    exists (JUint 1111). split; by vm_compute.
  - exists sample_rtcp. split; by vm_compute.
Qed.

Lemma sample_sendable mid : sendable (sample_offer_of mid) sample_sending sample_sending None mid.
Proof.
  split; [done|done|exists "audio"; split; [done|by left]|..].
  - split; [by vm_compute| |by vm_compute|]; apply Forall_forallb; by vm_compute.
  - exists [JInt 111]. split; [|by repeat constructor]. split. eexists _, [sample_opus].
    split; [reflexivity|]. split; [vm_compute; reflexivity|]. split; [apply Forall_forallb|]; vm_compute; reflexivity.
Qed.

Lemma sample_steps : steps initial sample_commands (mkDescription [("0", false); ("2", false)] 1).
Proof.
  eapply steps_cons; [apply step_receive; [apply sample_receivable|done|by apply not_elem_of_nil]|]. cbn.
  eapply steps_cons; [apply (step_send _ _ _ _ _ "1"); [apply sample_sendable|done|by compute_done]|]. cbn.
  eapply steps_cons; [by apply (step_close _ 1 "1" false)|]. cbn.
  eapply steps_cons; [apply (step_reuse _ _ _ _ _ _ 1 "2"); [apply sample_sendable|done|done|]|].
  { intros [|[|j]]; cbn; done. }
  cbn. eapply steps_cons; [by apply (step_close _ 0 "0" false)|]. cbn.
  eapply steps_cons; [apply step_get|]. apply steps_nil.
Qed.

Lemma remote_sdp_refines_witness :
  exists r0 r, newRemoteSdp sample_ice sample_candidates sample_dtls JNull = Ok r0 /\
    @run_all sample_dump sample_commands r0 = (Ok tt, r) /\
    remote_ok r (mkDescription [("0", false); ("2", false)] 1).
Proof.
  apply (@remote_sdp_refines sample_dump sample_ice sample_candidates sample_dtls JNull sample_commands).
  - vm_compute. reflexivity.
  - vm_compute. reflexivity.
  - vm_compute. reflexivity.
  - exact sample_steps.
Defined.

(** [GetNextMediaSectionIdx] returns the first closed section and its
    mid, so that a new producer reuses it, or the index past the last section
    with an empty mid.  It never offers the first section for reuse, which
    carries the bundled transport. *)
Theorem next_section_first_closed r d : remote_ok r d ->
  exists i mid, GetNextMediaSectionIdx r = Ok (i, mid) /\
    ((mid = "" /\ i = length (mediaSections r) /\ Forall (fun x => x.2 = false) (d_sections d)) \/
     (0 < i /\ d_sections d !! i = Some (mid, true) /\ mid <> "" /\
      forall j x, j < i -> d_sections d !! j = Some x -> x.2 = false)).
Proof.
  intros H. unfold GetNextMediaSectionIdx. rewrite (next_index_ok _ _ (ro_sections _ _ H)).
  pose proof (ro_good _ _ H) as Hg. do 2 eexists. split; [apply f_equal, surjective_pairing|]. unfold next_section.
  destruct (list_find _ (d_sections d)) as [[n [mid c]]|] eqn:E; cbn [fst snd].
  - apply list_find_Some in E as (Hn & Hc & Hbefore). cbn in Hc. subst c. right. split_and!.
    + destruct n; [|lia]. by pose proof (gs_first _ Hg _ Hn).
    + done.
    + pose proof (gs_nonempty _ Hg) as He. rewrite Forall_lookup in He. by apply (He _ _ Hn).
    + intros j x Hj Hx. by apply not_true_is_false, (Hbefore j x Hx).
  - left. split_and!; [done|symmetry; apply (Forall2_length _ _ _ (ro_sections _ _ H))|].
    apply list_find_None in E. eapply Forall_impl; [exact E|]. intros x Hx. by apply not_true_is_false.
Qed.

(** A description with an open section 0 and a closed section 1. *)
Definition sample_remote : RemoteSdp :=
  match newRemoteSdp sample_ice sample_candidates sample_dtls JNull with
  | Ok r => (@run_all sample_dump
      [ CReceive "0" "video" sample_consumer_parameters "s" "t";
        CReceive "1" "video" sample_consumer_parameters "s" "t"; CClose "1" ] r).2
  | _ => mkRemoteSdp JNull JNull JNull JNull [] ∅ "" JNull
  end.
Definition sample_description : description := mkDescription [("0", false); ("1", true)] 0.

Lemma sample_remote_ok : remote_ok sample_remote sample_description.
Proof.
  destruct (newRemoteSdp_ok sample_ice sample_candidates sample_dtls JNull) as (r0 & E0 & H0 & _); [by vm_compute..|].
  unfold sample_remote. rewrite E0.
  match goal with |- remote_ok (@run_all _ ?cs _).2 _ =>
    destruct (@steps_ok sample_dump initial cs sample_description) with (r := r0) as (r & E & Hr); [|done|] end.
  - eapply steps_cons; [apply step_receive; [apply sample_receivable|done|by apply not_elem_of_nil]|]. cbn.
    eapply steps_cons; [apply step_receive; [apply sample_receivable|done|by compute_done]|]. cbn.
    eapply steps_cons; [by apply (step_close _ 1 "1" false)|]. apply steps_nil.
  - by rewrite E.
Qed.

Lemma next_section_first_closed_witness : exists i mid, GetNextMediaSectionIdx sample_remote = Ok (i, mid).
Proof.
  destruct (next_section_first_closed sample_remote sample_description) as (i & mid & E & _).
  - exact sample_remote_ok.
  - exists i, mid. exact E.
Defined.

(** An ICE restart reaches every section: [UpdateIceParameters] stores the
    new parameters and, in every section and in its media object in the SDP,
    the new username fragment and password; mids, states and bundle stay. *)
Theorem update_ice_reaches_sections r d ice : remote_ok r d -> normalIceParameters ice = true ->
  exists r', UpdateIceParameters ice r = (Ok tt, r') /\ remote_ok r' d /\ iceParameters r' = ice /\
    Forall (fun s => find "iceUfrag" (mediaObject s) = find "usernameFragment" ice /\
                     find "icePwd" (mediaObject s) = find "password" ice) (mediaSections r').
Proof. apply UpdateIceParameters_ok. Qed.

Definition sample_restart : json :=
  mk_obj [("usernameFragment", JString "new"); ("password", JString "secret"); ("iceLite", JBool false)].
Lemma update_ice_reaches_sections_witness :
  exists r', UpdateIceParameters sample_restart sample_remote = (Ok tt, r') /\ remote_ok r' sample_description.
Proof.
  destruct (update_ice_reaches_sections sample_remote sample_description sample_restart) as (r' & E & H & _).
  - exact sample_remote_ok.
  - vm_compute. reflexivity.
  - exists r'. split; [exact E|exact H].
Defined.

(** [CloseMediaSection] of a known mid closes exactly that section, except
    the first one, which is only disabled; the other sections stay as they are. *)
Theorem close_section_exact r d i mid c : remote_ok r d -> d_sections d !! i = Some (mid, c) ->
  exists r' s, CloseMediaSection mid r = (Ok tt, r') /\ mediaSections r !! i = Some s /\
    remote_ok r' (set_sections (close_at i mid (d_sections d)) d) /\
    mediaSections r' = <[i := if bool_decide (i = 0) then Disable s else Close s]> (mediaSections r).
Proof. apply CloseMediaSection_ok. Qed.

Lemma close_section_exact_witness :
  exists r', CloseMediaSection "0" sample_remote = (Ok tt, r') /\ remote_ok r' sample_description.
Proof.
  destruct (close_section_exact sample_remote sample_description 0 "0" false) as (r' & s & E & _ & H & _).
  - exact sample_remote_ok.
  - reflexivity.
  - exists r'. split; [exact E|exact H].
Defined.

(** [CloseMediaSection] of an unknown mid closes the first section:
    [midToIndex[mid]] inserts index 0 for it, and the comparison with the
    first mid, which should protect section 0, fails.  The index map is no
    longer that of the sections. *)
Theorem close_unknown_mid_closes_first r d mid s : remote_ok r d -> mid ∉ mids (d_sections d) ->
  mediaSections r !! 0 = Some s ->
  exists r', CloseMediaSection mid r = (Ok tt, r') /\ mediaSections r' = <[0 := Close s]> (mediaSections r) /\
    IsClosed (Close s) = Ok true /\ midToIndex r' !! mid = Some 0.
Proof.
  intros H Hni Hs. pose proof (Forall2_length _ _ _ (ro_sections _ _ H)) as Hlen.
  destruct (Forall2_lookup_l _ _ _ _ _ (ro_sections _ _ H) Hs) as ([mid0 c] & Hd & His).
  pose proof (Close_is _ _ _ His) as Hcl. pose (r1 := with_map (<[mid:=0]> (midToIndex r)) r).
  assert (index_of mid r = (Ok 0, r1)) as Hidx.
  { unfold index_of. destruct (midToIndex r !! mid) as [j|] eqn:Em; [|done].
    apply (ro_map _ _ H) in Em. destruct Hni. by eapply list_elem_of_lookup_2. }
  assert (section_at 0 r1 = (Ok s, r1)) as Hat by (unfold section_at; cbn; by rewrite Hs).
  unfold CloseMediaSection. rewrite (bind_ok _ _ _ _ _ Hidx), (bind_ok _ _ _ _ _ Hat).
  rewrite (bind_ok get _ _ _ _ eq_refl). cbn [firstMid with_map].
  assert (String.eqb mid (firstMid r1) = false) as Hneq.
  { apply String.eqb_neq. cbn. rewrite (ro_first _ _ H), (mids_lookup _ _ _ _ Hd). cbn. intros ->.
    apply Hni. eapply list_elem_of_lookup_2, (mids_lookup _ _ _ _ Hd). }
  rewrite Hneq. cbv zeta. rewrite (bind_ok (set_section _ _) _ _ _ _ eq_refl).
  destruct (ro_sdp _ _ H) as [Ho _ Hm Hg Hor].
  erewrite bind_ok by (apply (set_media_ok _ _ _ (mediaSections r)); [done..|by apply lookup_lt_Some in Hs]).
  match goal with |- context [RegenerateBundleMids ?st] => set (r2 := st) end.
  destruct (RegenerateBundleMids_ok r2 (<[0 := (mid0, true)]> (d_sections d)) (d_version d)) as (j & E & _).
  - change (mediaSections r2) with (<[0:=Close s]> (mediaSections r)). apply Forall2_insert; [apply H|done].
  - apply Forall_insert; [apply (gs_nonempty _ (ro_good _ _ H))|].
    pose proof (gs_nonempty _ (ro_good _ _ H)) as He. rewrite Forall_lookup in He. apply (He _ _ Hd).
  - by eapply sdp_stale_media, (sdp_ok_stale _ _ d), (ro_sdp _ _ H).
  - rewrite E. eexists. split_and!; [done|done|apply (section_is_get _ _ _ Hcl)|]. cbn. by rewrite lookup_insert_eq.
Qed.

Lemma close_unknown_mid_closes_first_witness : exists r' s, CloseMediaSection "9" sample_remote = (Ok tt, r') /\
  mediaSections r' !! 0 = Some (Close s).
Proof.
  destruct (remote_section sample_remote sample_description 0) as (s & mid & c & Hs & _).
  - exact sample_remote_ok.
  - rewrite (Forall2_length _ _ _ (ro_sections _ _ sample_remote_ok)). cbn. lia.
  - destruct (close_unknown_mid_closes_first sample_remote sample_description "9" s) as (r' & E & Hss & _).
    + exact sample_remote_ok.
    + by compute_done.
    + exact Hs.
    + exists r', s. split; [exact E|]. rewrite Hss. apply list_lookup_insert_eq. by apply lookup_lt_Some in Hs.
Defined.

(** Every SDP announces ice-lite.  The constructor tests whether iceLite
    is present, and [validateIceParameters] always adds it, also as false. *)
Theorem ice_lite_always_announced ice ice' cands dtls sctp :
  validateIceParameters ice = (Ok tt, ice') -> normalIceCandidates cands = true -> normalDtlsParameters dtls = true ->
  exists r, newRemoteSdp ice' cands dtls sctp = Ok r /\ find "icelite" (sdpObject r) = Some (JString "ice-lite").
Proof.
  intros Hv Hc Hd. pose proof (validator_wp _ _ validateIceParameters_validator ice) as Hi. unfold wp in Hi. rewrite Hv in Hi.
  destruct (newRemoteSdp_ok ice' cands dtls sctp Hi Hc Hd) as (r & E & _ & _ & Hl & _). by exists r.
Qed.

Definition sample_ice_full : json :=
  mk_obj [("usernameFragment", JString "u"); ("password", JString "p"); ("iceLite", JBool false)].
Lemma ice_lite_always_announced_witness :
  exists r, newRemoteSdp sample_ice_full sample_candidates sample_dtls JNull = Ok r /\
    find "icelite" (sdpObject r) = Some (JString "ice-lite").
Proof.
  apply (ice_lite_always_announced sample_ice_full).
  - vm_compute. reflexivity.
  - vm_compute. reflexivity.
  - vm_compute. reflexivity.
Defined.
