(* ===== verification/WebRtc.v ===== *)
(** * libwebrtc's tracks, senders, transceivers and connections

    The objects of deps/webrtc/src that the client holds pointers to: tracks
    (pc/media_stream_track.h), RTP senders (pc/rtp_sender.cc), transceivers
    (pc/rtp_transceiver.cc) and the operations of pc/peer_connection.cc on
    them.  A pointer is a number: of a track in [tracks], of a transceiver, its
    sender and its receiver in [transceivers].  What lies behind them (the
    offer/answer machinery, the media channels, statistics) is the class
    [Engine], whose operations may change every object. *)

From stdpp Require Import base list gmap strings pretty.
From Stdlib Require Import ZArith Lia Ascii Floats.SpecFloat.
From S2P Require Import Prelude Json Utils.

(** ** Data *)

Record Track := mkTrack { t_kind : string; t_id : string; enabled : bool; ended : bool }.

Inductive RtpTransceiverDirection := kSendRecv | kSendOnly | kRecvOnly | kInactive.
#[global] Instance direction_eq_dec : EqDecision RtpTransceiverDirection.
Proof. solve_decision. Defined.

Inductive DtxStatus := DISABLED | ENABLED.
Inductive FecMechanism := RED | RED_AND_ULPFEC | FLEXFEC.
Record RtpFecParameters := mkFec { fec_ssrc : option Z; fec_mechanism : FecMechanism }.

Record RtpEncodingParameters := mkEncoding {
  ssrc : option Z;
  codec_payload_type : option Z;
  fec : option RtpFecParameters;
  rtx : option (option Z);
  dtx : option DtxStatus;
  bitrate_priority : spec_float;
  network_priority : spec_float;
  ptime : option Z;
  max_bitrate_bps : option Z;
  min_bitrate_bps : option Z;
  max_framerate : option Z;
  num_temporal_layers : option Z;
  scale_resolution_down_by : option spec_float;
  scale_framerate_down_by : option spec_float;
  active : bool;
  rid : string;
  dependency_rids : list string;
}.

Definition kDefaultBitratePriority : spec_float := double_of_Z 1.
Definition kMaxSimulcastStreams : nat := 3.
Definition kMaxTemporalStreams : Z := 4.

Definition defaultEncoding : RtpEncodingParameters :=
  mkEncoding None None None None None kDefaultBitratePriority kDefaultBitratePriority None None None None None
    None None true "" [].

Definition with_rid (r : string) (e : RtpEncodingParameters) : RtpEncodingParameters :=
  mkEncoding (ssrc e) (codec_payload_type e) (fec e) (rtx e) (dtx e) (bitrate_priority e) (network_priority e) (ptime e)
    (max_bitrate_bps e) (min_bitrate_bps e) (max_framerate e) (num_temporal_layers e) (scale_resolution_down_by e)
    (scale_framerate_down_by e) (active e) r (dependency_rids e).
Definition with_active (b : bool) (e : RtpEncodingParameters) : RtpEncodingParameters :=
  mkEncoding (ssrc e) (codec_payload_type e) (fec e) (rtx e) (dtx e) (bitrate_priority e) (network_priority e) (ptime e)
    (max_bitrate_bps e) (min_bitrate_bps e) (max_framerate e) (num_temporal_layers e) (scale_resolution_down_by e)
    (scale_framerate_down_by e) b (rid e) (dependency_rids e).

(** The members that the client reads or writes; codecs, header extensions and
    RTCP parameters are passed through unchanged. *)
Record RtpParameters := mkParameters {
  transaction_id : nat;
  p_mid : string;
  encodings : list RtpEncodingParameters;
}.

Record RtpTransceiverInit := mkInit {
  init_direction : RtpTransceiverDirection;
  stream_ids : list string;
  send_encodings : list RtpEncodingParameters;
}.

(** A transceiver with its one sender and its one receiver.  [channel] holds
    the encodings of the media channel once the sender has a channel and an
    SSRC; before, the sender keeps them itself. *)
Record Transceiver := mkTransceiver {
  media_type : string;
  mid : option string;
  direction : RtpTransceiverDirection;
  stopped : bool;
  sender_track : option nat;
  sender_stopped : bool;
  sender_streams : list string;
  init_encodings : list RtpEncodingParameters;
  channel : option (list RtpEncodingParameters);
  disabled_rids : list string;
  last_transaction_id : option nat;
  receiver_track : nat;
}.

Definition with_direction v t := mkTransceiver (media_type t) (mid t) v (stopped t) (sender_track t) (sender_stopped t)
  (sender_streams t) (init_encodings t) (channel t) (disabled_rids t) (last_transaction_id t) (receiver_track t).
Definition with_sender_track v t := mkTransceiver (media_type t) (mid t) (direction t) (stopped t) v (sender_stopped t)
  (sender_streams t) (init_encodings t) (channel t) (disabled_rids t) (last_transaction_id t) (receiver_track t).
Definition with_init v t := mkTransceiver (media_type t) (mid t) (direction t) (stopped t) (sender_track t) (sender_stopped t)
  (sender_streams t) v (channel t) (disabled_rids t) (last_transaction_id t) (receiver_track t).
Definition with_transaction v t := mkTransceiver (media_type t) (mid t) (direction t) (stopped t) (sender_track t)
  (sender_stopped t) (sender_streams t) (init_encodings t) (channel t) (disabled_rids t) v (receiver_track t).

(** One connection with the tracks that live beside it. *)
Record native (E : Type) := mkNative {
  tracks : gmap nat Track;
  transceivers : list Transceiver;
  signaling_closed : bool;
  ice_servers : list string;
  next_uuid : nat;
  engine : E;
}.
Arguments mkNative {_}.
Arguments tracks {_}.
Arguments transceivers {_}.
Arguments signaling_closed {_}.
Arguments ice_servers {_}.
Arguments next_uuid {_}.
Arguments engine {_}.

Inductive stats_selector := StatsAll | StatsSender (t : nat) | StatsReceiver (t : nat).

(** ** What lies behind the objects

    An operation that libwebrtc reports to an observer returns the error's
    message or the result.  [create_description] is CreateSessionDescription. *)
Class Engine (E : Type) := {
  session_description : Type;
  create_description : string -> string -> string + session_description;
  native_create_offer : bool -> native E -> (string + string) * native E;
  native_create_answer : native E -> (string + string) * native E;
  native_set_local : session_description -> native E -> option string * native E;
  native_set_remote : session_description -> native E -> option string * native E;
  native_local_description : native E -> option string;
  native_remote_description : native E -> option string;
  native_set_configuration : list string -> native E -> option string * native E;
  native_set_send_parameters : nat -> list RtpEncodingParameters -> native E -> option string * native E;
  native_stats : stats_selector -> native E -> string;
  native_close : native E -> gmap nat Track * E;
}.

Section objects.
Context {E : Type} `{!Engine E}.

Definition with_tracks v (n : native E) :=
  mkNative v (transceivers n) (signaling_closed n) (ice_servers n) (next_uuid n) (engine n).
Definition with_transceivers v (n : native E) :=
  mkNative (tracks n) v (signaling_closed n) (ice_servers n) (next_uuid n) (engine n).
Definition with_uuid v (n : native E) :=
  mkNative (tracks n) (transceivers n) (signaling_closed n) (ice_servers n) v (engine n).

(** An engine operation as a computation; a dangling pointer is undefined. *)
Definition native_op {A} (f : native E -> A * native E) : M (native E) A := fun n => let '(a, n') := f n in (Ok a, n').
Definition track_at (p : nat) : M (native E) Track := fun n =>
  (match tracks n !! p with Some t => Ok t | None => Undef end, n).
Definition transceiver_at (t : nat) : M (native E) Transceiver := fun n =>
  (match transceivers n !! t with Some x => Ok x | None => Undef end, n).
Definition set_transceiver (t : nat) (x : Transceiver) : M (native E) unit := fun n =>
  (Ok tt, with_transceivers (<[t := x]> (transceivers n)) n).

(** [rtc::CreateRandomUuid], here a number that was not used before. *)
Definition CreateRandomUuid : M (native E) nat := fun n => (Ok (next_uuid n), with_uuid (S (next_uuid n)) n).

(** ** Tracks *)

Definition set_enabled (p : nat) (enable : bool) : M (native E) bool :=
  t <- track_at p ;;
  (fun n => (Ok tt, with_tracks (<[p := mkTrack (t_kind t) (t_id t) enable (ended t)]> (tracks n)) n)) ;;;
  ret (negb (Bool.eqb enable (enabled t))).

(** ** Transceivers *)

Definition SetDirection (t : nat) (new_direction : RtpTransceiverDirection) : M (native E) unit :=
  x <- transceiver_at t ;;
  if stopped x then ret tt
  else if decide (new_direction = direction x) then ret tt
  else set_transceiver t (with_direction new_direction x).

(** [transceiver->mid().value()]: the process aborts if there is no mid. *)
Definition mid_value (t : nat) : M (native E) string :=
  x <- transceiver_at t ;;
  match mid x with Some m => ret m | None => undef end.

(** ** Senders *)

Definition SetTrack (t : nat) (track : option nat) : M (native E) bool :=
  x <- transceiver_at t ;;
  if sender_stopped x then ret false else
  mismatch <- match track with
              | Some p => tr <- track_at p ;; ret (negb (String.eqb (t_kind tr) (media_type x)))
              | None => ret false
              end ;;
  if mismatch : bool then ret false else
  set_transceiver t (with_sender_track track x) ;;; ret true.

Definition UnimplementedRtpEncodingParameterHasValue (e : RtpEncodingParameters) : bool :=
  bool_decide (is_Some (codec_payload_type e)) || bool_decide (is_Some (fec e)) || bool_decide (is_Some (rtx e)) ||
  bool_decide (is_Some (dtx e)) || bool_decide (is_Some (ptime e)) ||
  bool_decide (is_Some (scale_framerate_down_by e)) || negb (bool_decide (dependency_rids e = [])).

Definition PerSenderRtpEncodingParameterHasValue (e : RtpEncodingParameters) : bool :=
  negb (SFeqb (bitrate_priority e) kDefaultBitratePriority) ||
  negb (SFeqb (network_priority e) kDefaultBitratePriority).

Definition UnimplementedRtpParameterHasValue (p : RtpParameters) : bool :=
  negb (String.eqb (p_mid p) "") ||
  existsb UnimplementedRtpEncodingParameterHasValue (encodings p) ||
  existsb PerSenderRtpEncodingParameterHasValue (tail (encodings p)).

(** media/base/media_engine.cc; [previous] is the encoding before the [i]-th. *)
Fixpoint check_values (i : nat) (previous : option RtpEncodingParameters) (l : list RtpEncodingParameters) : option string :=
  match l with
  | [] => None
  | e :: r =>
    if SFleb (bitrate_priority e) (S754_zero false) then
      Some "Attempted to set RtpParameters bitrate_priority to an invalid number. bitrate_priority must be > 0."
    else if match scale_resolution_down_by e with Some s => SFltb s (double_of_Z 1) | None => false end then
      Some "Attempted to set RtpParameters scale_resolution_down_by to an invalid number. scale_resolution_down_by must be >= 1.0"
    else if match min_bitrate_bps e, max_bitrate_bps e with Some lo, Some hi => (hi <? lo)%Z | _, _ => false end then
      Some "Attempted to set RtpParameters min bitrate larger than max bitrate."
    else if match num_temporal_layers e with Some k => (k <? 1)%Z || (kMaxTemporalStreams <? k)%Z | None => false end then
      Some "Attempted to set RtpParameters num_temporal_layers to an invalid number."
    else if match previous with
            | Some p => negb (bool_decide (num_temporal_layers e = num_temporal_layers p))
            | None => false
            end then
      Some ("Attempted to set RtpParameters num_temporal_layers at encoding layer i: " +:+ pretty i +:+
            " to a different value than other encoding layers.")
    else check_values (S i) (Some e) r
  end.
Definition CheckRtpParametersValues (p : RtpParameters) : option string := check_values 0 None (encodings p).

Definition CheckRtpParametersInvalidModificationAndValues (old : list RtpEncodingParameters) (p : RtpParameters) : option string :=
  if negb (length (encodings p) =? length old)%nat then
    Some "Attempted to set RtpParameters with different encoding count"
  else if negb (bool_decide (map rid old = map rid (encodings p))) then
    Some "Attempted to change RID values in the encodings."
  else if negb (bool_decide (map ssrc old = map ssrc (encodings p))) then
    Some "Attempted to set RtpParameters with modified SSRC"
  else CheckRtpParametersValues p.

Definition is_disabled (x : Transceiver) (e : RtpEncodingParameters) : bool := bool_decide (rid e ∈ disabled_rids x).

Definition GetParametersInternal (x : Transceiver) : list RtpEncodingParameters :=
  if sender_stopped x then [] else
  match channel x with
  | None => init_encodings x
  | Some all => filter (fun e => is_disabled x e = false) all
  end.

Definition GetParameters (t : nat) : M (native E) RtpParameters :=
  x <- transceiver_at t ;;
  uuid <- CreateRandomUuid ;;
  set_transceiver t (with_transaction (Some uuid) x) ;;;
  ret (mkParameters uuid "" (GetParametersInternal x)).

(** The disabled layers go back to their places; [parameters.encodings[index++]]
    is undefined past the end. *)
Fixpoint RestoreEncodingLayers (x : Transceiver) (given all_layers : list RtpEncodingParameters)
    : outcome (list RtpEncodingParameters) :=
  match all_layers with
  | [] => Ok []
  | e :: r =>
    if is_disabled x e then let! l := RestoreEncodingLayers x given r in Ok (e :: l)
    else match given with
         | g :: given => let! l := RestoreEncodingLayers x given r in Ok (g :: l)
         | [] => Undef
         end
  end.

Definition SetParametersInternal (t : nat) (p : RtpParameters) : M (native E) (option string) :=
  x <- transceiver_at t ;;
  if UnimplementedRtpParameterHasValue p then
    ret (Some "Attempted to set an unimplemented parameter of RtpParameters.")
  else match channel x with
  | None =>
    match CheckRtpParametersInvalidModificationAndValues (init_encodings x) p with
    | Some e => ret (Some e)
    | None => set_transceiver t (with_init (encodings p) x) ;;; ret None
    end
  | Some all =>
    l <- lift (if bool_decide (disabled_rids x = []) then Ok (encodings p) else RestoreEncodingLayers x (encodings p) all) ;;
    native_op (native_set_send_parameters t l)
  end.

Definition SetParameters (t : nat) (p : RtpParameters) : M (native E) (option string) :=
  x <- transceiver_at t ;;
  if sender_stopped x then ret (Some "Cannot set parameters on a stopped sender.") else
  match last_transaction_id x with
  | None => ret (Some "Failed to set parameters since getParameters() has never been called on this sender")
  | Some id =>
    if negb (id =? transaction_id p)%nat then
      ret (Some "Failed to set parameters since the transaction_id doesn't match the last value returned from getParameters()")
    else
      result <- SetParametersInternal t p ;;
      x <- transceiver_at t ;;
      set_transceiver t (with_transaction None x) ;;;
      ret result
  end.

(** ** The connection *)

Definition is_alnum (c : ascii) : bool :=
  let n := nat_of_ascii c in
  (48 <=? n)%nat && (n <=? 57)%nat || (65 <=? n)%nat && (n <=? 90)%nat || (97 <=? n)%nat && (n <=? 122)%nat.
Definition IsLegalRsidName (name : string) : bool :=
  (String.length name <=? 16)%nat && negb (String.eqb name "") && forallb is_alnum (String.list_ascii_of_string name).

(** The encodings that a new sender gets, or why they are refused. *)
Definition checkSendEncodings (l : list RtpEncodingParameters) : string + list RtpEncodingParameters :=
  let num_rids := length (filter (fun e => rid e <> "") l) in
  if negb (num_rids =? 0)%nat && negb (num_rids =? length l)%nat then
    inl "RIDs must be provided for either all or none of the send encodings."
  else if negb (num_rids =? 0)%nat && existsb (fun e => negb (IsLegalRsidName (rid e))) l then
    inl "Invalid RID value provided."
  else if existsb (fun e => bool_decide (is_Some (ssrc e))) l then
    inl "Attempted to set an unimplemented parameter of RtpParameters."
  else
    let l := take kMaxSimulcastStreams l in
    let l := match l with [e] => [with_rid "" e] | _ => l end in
    let l := if (1 <? length l)%nat && (num_rids =? 0)%nat then zip_with (fun i e => with_rid (pretty i) e) (seq 0 (length l)) l
             else l in
    if UnimplementedRtpParameterHasValue (mkParameters 0 "" l) then
      inl "Attempted to set an unimplemented parameter of RtpParameters."
    else match CheckRtpParametersValues (mkParameters 0 "" l) with Some e => inl e | None => inr l end.

(** The sender's default is one encoding, which [set_init_send_encodings]
    replaces; the receiver comes with a live track of its own. *)
Definition addTransceiver (media_type : string) (track : option nat) (init : RtpTransceiverInit) : M (native E) (string + nat) :=
  match checkSendEncodings (send_encodings init) with
  | inl e => ret (inl e)
  | inr l => fun n =>
    let uuid := next_uuid n in
    let p := fresh (dom (tracks n)) in
    let x := mkTransceiver media_type None (init_direction init) false track false (stream_ids init) l None [] None p in
    (Ok (inr (length (transceivers n))),
     mkNative (<[p := mkTrack media_type (pretty uuid) true false]> (tracks n)) (transceivers n ++ [x])
       (signaling_closed n) (ice_servers n) (S uuid) (engine n))
  end.

Definition native_AddTransceiver_track (track : option nat) (init : RtpTransceiverInit) : M (native E) (string + nat) :=
  match track with
  | None => ret (inl "track is null")
  | Some p =>
    t <- track_at p ;;
    if String.eqb (t_kind t) "audio" then addTransceiver "audio" track init
    else if String.eqb (t_kind t) "video" then addTransceiver "video" track init
    else ret (inl "Track kind is not audio or video")
  end.

Definition native_AddTransceiver_kind (media_type : string) : M (native E) (string + nat) :=
  if String.eqb media_type "audio" || String.eqb media_type "video" then
    addTransceiver media_type None (mkInit kSendRecv [] [])
  else ret (inl "media type is not audio or video").

Definition RemoveTrackNew (t : nat) : M (native E) (option string) :=
  n <- get ;;
  if signaling_closed n then ret (Some "PeerConnection is closed.") else
  x <- transceiver_at t ;;
  match sender_track x with
  | None => ret None
  | Some _ =>
    _ <- SetTrack t None ;;
    x <- transceiver_at t ;;
    match direction x with
    | kSendRecv => set_transceiver t (with_direction kRecvOnly x)
    | kSendOnly => set_transceiver t (with_direction kInactive x)
    | _ => ret tt
    end ;;;
    ret None
  end.

(** [Stop] of a transceiver and of its sender. *)
Definition Stop (x : Transceiver) : Transceiver :=
  mkTransceiver (media_type x) (mid x) (direction x) true (sender_track x) true (sender_streams x) (init_encodings x)
    None (disabled_rids x) (last_transaction_id x) (receiver_track x).

(** The engine tears down the receivers, which may end their tracks, and the
    channels. *)
Definition native_Close : M (native E) unit := fun n =>
  let n := mkNative (tracks n) (map Stop (transceivers n)) true (ice_servers n) (next_uuid n) (engine n) in
  let '(ts, e) := native_close n in
  (Ok tt, mkNative ts (transceivers n) true (ice_servers n) (next_uuid n) e).
End objects.
