(* ===== verification/PeerConnection.v ===== *)
(** * PeerConnection.cpp

    The wrapper around libwebrtc's connection: it turns the observers of
    asynchronous operations into results and exceptions.  A promise is
    fulfilled once, by [OnSuccess], [OnFailure] or [Reject], and [future.get()]
    then returns or throws what it holds, so a promise is an [outcome]. *)

From stdpp Require Import base list gmap strings pretty.
From Stdlib Require Import ZArith Lia Ascii.
From S2P Require Import Prelude Json Utils JsonText WebRtc.

(** ** Names of states *)

Inductive SdpType := OFFER | PRANSWER | ANSWER.
Definition sdpType2String (t : SdpType) : string :=
  match t with OFFER => "offer" | PRANSWER => "pranswer" | ANSWER => "answer" end.

Inductive IceConnectionState :=
| kIceConnectionNew | kIceConnectionChecking | kIceConnectionConnected | kIceConnectionCompleted
| kIceConnectionFailed | kIceConnectionDisconnected | kIceConnectionClosed.
#[global] Instance ice_state_eq_dec : EqDecision IceConnectionState.
Proof. solve_decision. Defined.

Definition iceConnectionState2String (s : IceConnectionState) : string :=
  match s with
  | kIceConnectionNew => "new"
  | kIceConnectionChecking => "checking"
  | kIceConnectionConnected => "connected"
  | kIceConnectionCompleted => "completed"
  | kIceConnectionFailed => "failed"
  | kIceConnectionDisconnected => "disconnected"
  | kIceConnectionClosed => "closed"
  end.

(** ** Observers *)

(** [error.c_str()] as read by a constructor that takes a C string. *)
Fixpoint c_str (s : string) : string :=
  match s with
  | EmptyString => EmptyString
  | String c r => if (nat_of_ascii c =? 0)%nat then EmptyString else String c (c_str r)
  end.

Definition Reject {A} (error : string) : outcome A := Throw (MediaSoupClientError (c_str error)).
Definition OnSuccess {A} (a : A) : outcome A := Ok a.
Definition OnFailure {A} (message : string) : outcome A := Reject message.

Section connection.
Context {E : Type} `{!Engine E}.

Definition OnStatsDelivered (s : string) : outcome json :=
  if String.eqb s "" then Ok (JArray []) else Parser.parse s.

(** ** Operations *)

Definition Close : M (native E) unit := native_Close.

Definition GetConfiguration : M (native E) (list string) := n <- get ;; ret (ice_servers n).

(** On success libwebrtc keeps the new configuration. *)
Definition SetConfiguration (servers : list string) : M (native E) bool :=
  error <- native_op (native_set_configuration servers) ;;
  match error with
  | Some _ => ret false
  | None => fun n => (Ok true, mkNative (tracks n) (transceivers n) (signaling_closed n) servers (next_uuid n) (engine n))
  end.

Definition created (r : string + string) : outcome string :=
  match r with inl message => OnFailure message | inr sdp => OnSuccess sdp end.
Definition CreateOffer (ice_restart : bool) : M (native E) string :=
  r <- native_op (native_create_offer ice_restart) ;; lift (created r).
Definition CreateAnswer : M (native E) string :=
  r <- native_op native_create_answer ;; lift (created r).

Definition set_done (r : option string) : outcome unit :=
  match r with Some message => OnFailure message | None => OnSuccess tt end.
Definition SetLocalDescription (type : SdpType) (sdp : string) : M (native E) unit :=
  match create_description (sdpType2String type) sdp with
  | inl description => lift (Reject description)
  | inr d => r <- native_op (native_set_local d) ;; lift (set_done r)
  end.
Definition SetRemoteDescription (type : SdpType) (sdp : string) : M (native E) unit :=
  match create_description (sdpType2String type) sdp with
  | inl description => lift (Reject description)
  | inr d => r <- native_op (native_set_remote d) ;; lift (set_done r)
  end.

(** A connection without a description yields a null pointer, which is used. *)
Definition GetLocalDescription : M (native E) string := fun n =>
  (match native_local_description n with Some sdp => Ok sdp | None => Undef end, n).
Definition GetRemoteDescription : M (native E) string := fun n =>
  (match native_remote_description n with Some sdp => Ok sdp | None => Undef end, n).

(** The pointers are positions in the list. *)
Definition GetTransceivers : M (native E) (list nat) := n <- get ;; ret (seq 0 (length (transceivers n))).

Definition pointer (r : string + nat) : option nat := match r with inl _ => None | inr t => Some t end.
Definition AddTransceiver_kind (mediaType : string) : M (native E) (option nat) :=
  r <- native_AddTransceiver_kind mediaType ;; ret (pointer r).
Definition AddTransceiver (track : option nat) (init : RtpTransceiverInit) : M (native E) (option nat) :=
  let init := mkInit (init_direction init) (stream_ids init ++ ["0"]) (send_encodings init) in
  r <- native_AddTransceiver_track track init ;; ret (pointer r).

Definition RemoveTrack (sender : nat) : M (native E) bool :=
  error <- RemoveTrackNew sender ;; ret (match error with None => true | Some _ => false end).

Definition GetStats (selector : stats_selector) : M (native E) json :=
  n <- get ;; lift (OnStatsDelivered (native_stats selector n)).
End connection.

(** ** Construction

    [options] are the ICE servers of the configuration and whether a factory
    comes with them; without one, the three threads of a factory of its own
    have to start.  [CreatePeerConnection] may return a null pointer. *)
Class ConnectionFactory (E : Type) := {
  threads_start : bool;
  create_connection : list string -> option E;
}.

Definition Options : Type := list string * bool.
Definition newPeerConnection {E} `{!ConnectionFactory E} (options : option Options) (ts : gmap nat Track)
    : outcome (option (native E)) :=
  let config := match options with Some (servers, _) => servers | None => [] end in
  let factory := match options with Some (_, factory) => factory | None => false end in
  if negb factory && negb threads_start then Throw (MediaSoupClientInvalidStateError "thread start errored")
  else Ok (e ← create_connection config; Some (mkNative ts [] false config 0 e)).
