(* ===== verification/Producer.v ===== *)
(** * Producer.cpp

    A producer against the interface of its private listener, the transport,
    whose state is the first component.  The listener's operations get the
    producer by value: they read its ids and do not change it. *)

From stdpp Require Import base list gmap strings.
From Stdlib Require Import ZArith Lia.
From S2P Require Import Prelude Json WebRtc.

Record Producer := mkProducer {
  id : string;
  localId : string;
  closed : bool;
  rtpSender : nat;
  track : nat;
  rtpParameters : json;
  maxSpatialLayer : Z;
  appData : json;
}.

Definition newProducer (id localId : string) (rtpSender track : nat) (rtpParameters appData : json) : Producer :=
  mkProducer id localId false rtpSender track rtpParameters 0 appData.

(** [Producer::PrivateListener], the application's [Producer::Listener], and
    the tracks that both sides hold pointers to. *)
Class ProducerListener (E S : Type) := {
  OnClose : Producer -> M S unit;
  OnReplaceTrack : Producer -> option nat -> M S unit;
  OnSetMaxSpatialLayer : Producer -> Z -> M S unit;
  OnGetStats : Producer -> M S json;
  OnTransportClose : Producer -> M S unit;
  on_tracks : forall A, M (native E) A -> M S A;
}.
#[global] Hint Mode ProducerListener - ! : typeclass_instances.

Section producer.
Context {E S : Type} `{!ProducerListener E S}.

Definition this : M (S * Producer) Producer := s <- get ;; ret s.2.
Definition on_owner {A} (m : M S A) : M (S * Producer) A := zoom (fun s => Some s.1) (fun x s => (x, s.2)) m.
Definition set_this (f : Producer -> Producer) : M (S * Producer) unit := fun s => (Ok tt, (s.1, f (s.2))).
Definition track_op {A} (m : M (native E) A) : M (S * Producer) A := on_owner (on_tracks A m).

Definition mark_closed (p : Producer) : Producer :=
  mkProducer (id p) (localId p) true (rtpSender p) (track p) (rtpParameters p) (maxSpatialLayer p) (appData p).
Definition with_track (t : nat) (p : Producer) : Producer :=
  mkProducer (id p) (localId p) (closed p) (rtpSender p) t (rtpParameters p) (maxSpatialLayer p) (appData p).
Definition with_layer (l : Z) (p : Producer) : Producer :=
  mkProducer (id p) (localId p) (closed p) (rtpSender p) (track p) (rtpParameters p) l (appData p).

Definition GetKind : M (S * Producer) string := p <- this ;; t <- track_op (track_at (track p)) ;; ret (t_kind t).
Definition IsPaused : M (S * Producer) bool := p <- this ;; t <- track_op (track_at (track p)) ;; ret (negb (enabled t)).

Definition Close : M (S * Producer) unit :=
  p <- this ;;
  if closed p then ret tt else
  set_this mark_closed ;;;
  p <- this ;;
  on_owner (OnClose p).

Definition GetStats : M (S * Producer) json :=
  p <- this ;;
  if closed p then throw (MediaSoupClientInvalidStateError "Producer closed") else
  on_owner (OnGetStats p).

Definition Pause : M (S * Producer) unit :=
  p <- this ;;
  if closed p then ret tt else
  _ <- track_op (WebRtc.set_enabled (track p) false) ;; ret tt.

Definition Resume : M (S * Producer) unit :=
  p <- this ;;
  if closed p then ret tt else
  _ <- track_op (WebRtc.set_enabled (track p) true) ;; ret tt.

Definition ReplaceTrack (newTrack : option nat) : M (S * Producer) unit :=
  p <- this ;;
  if closed p then throw (MediaSoupClientInvalidStateError "Producer closed") else
  match newTrack with
  | None => throw (type_error "missing track")
  | Some t =>
    tr <- track_op (track_at t) ;;
    if ended tr then throw (MediaSoupClientInvalidStateError "track ended") else
    if bool_decide (t = track p) then ret tt else
    on_owner (OnReplaceTrack p newTrack) ;;;
    paused <- IsPaused ;;
    set_this (with_track t) ;;;
    _ <- track_op (WebRtc.set_enabled t (negb paused)) ;;
    ret tt
  end.

Definition SetMaxSpatialLayer (spatialLayer : Z) : M (S * Producer) unit :=
  p <- this ;;
  if closed p then throw (MediaSoupClientInvalidStateError "Producer closed") else
  kind <- GetKind ;;
  if negb (String.eqb kind "video") then throw (type_error "not a video Producer") else
  if (spatialLayer =? maxSpatialLayer p)%Z then ret tt else
  on_owner (OnSetMaxSpatialLayer p spatialLayer) ;;;
  set_this (with_layer spatialLayer).

Definition TransportClosed : M (S * Producer) unit :=
  p <- this ;;
  if closed p then ret tt else
  set_this mark_closed ;;;
  p <- this ;;
  on_owner (OnTransportClose p).
End producer.
