(* ===== verification/Consumer.v ===== *)
(** * Consumer.cpp

    A consumer against the interface of its private listener, the transport,
    whose state is the first component. *)

From stdpp Require Import base list gmap strings.
From Stdlib Require Import ZArith Lia.
From S2P Require Import Prelude Json WebRtc.

Record Consumer := mkConsumer {
  id : string;
  localId : string;
  producerId : string;
  closed : bool;
  rtpReceiver : nat;
  track : nat;
  rtpParameters : json;
  appData : json;
}.

Definition newConsumer (id localId producerId : string) (rtpReceiver track : nat) (rtpParameters appData : json) : Consumer :=
  mkConsumer id localId producerId false rtpReceiver track rtpParameters appData.

(** [Consumer::PrivateListener], the application's [Consumer::Listener], and
    the tracks. *)
Class ConsumerListener (E S : Type) := {
  OnClose : Consumer -> M S unit;
  OnGetStats : Consumer -> M S json;
  OnTransportClose : Consumer -> M S unit;
  on_tracks : forall A, M (native E) A -> M S A;
}.
#[global] Hint Mode ConsumerListener - ! : typeclass_instances.

Section consumer.
Context {E S : Type} `{!ConsumerListener E S}.

Definition this : M (S * Consumer) Consumer := s <- get ;; ret s.2.
Definition on_owner {A} (m : M S A) : M (S * Consumer) A := zoom (fun s => Some s.1) (fun x s => (x, s.2)) m.
Definition set_this (f : Consumer -> Consumer) : M (S * Consumer) unit := fun s => (Ok tt, (s.1, f (s.2))).
Definition track_op {A} (m : M (native E) A) : M (S * Consumer) A := on_owner (on_tracks A m).

Definition mark_closed (c : Consumer) : Consumer :=
  mkConsumer (id c) (localId c) (producerId c) true (rtpReceiver c) (track c) (rtpParameters c) (appData c).

Definition GetKind : M (S * Consumer) string := c <- this ;; t <- track_op (track_at (track c)) ;; ret (t_kind t).
Definition IsPaused : M (S * Consumer) bool := c <- this ;; t <- track_op (track_at (track c)) ;; ret (negb (enabled t)).

Definition Close : M (S * Consumer) unit :=
  c <- this ;;
  if closed c then ret tt else
  set_this mark_closed ;;;
  c <- this ;;
  on_owner (OnClose c).

Definition GetStats : M (S * Consumer) json :=
  c <- this ;;
  if closed c then throw (MediaSoupClientInvalidStateError "Consumer closed") else
  on_owner (OnGetStats c).

Definition Pause : M (S * Consumer) unit :=
  c <- this ;;
  if closed c then ret tt else
  _ <- track_op (WebRtc.set_enabled (track c) false) ;; ret tt.

Definition Resume : M (S * Consumer) unit :=
  c <- this ;;
  if closed c then ret tt else
  _ <- track_op (WebRtc.set_enabled (track c) true) ;; ret tt.

Definition TransportClosed : M (S * Consumer) unit :=
  c <- this ;;
  if closed c then ret tt else
  set_this mark_closed ;;;
  c <- this ;;
  on_owner (OnTransportClose c).
End consumer.
