(* ===== verification/Handler.v ===== *)
(** * Handler.cpp

    A handler drives one connection: it keeps the remote description, hands
    descriptions back and forth between it and libwebrtc, and tells its
    listener, the transport, the local DTLS parameters once.  The first
    component of the state is the listener's. *)

From stdpp Require Import base list gmap strings pretty.
From Stdlib Require Import ZArith Lia Ascii.
From S2P Require Import Prelude Json Text OrtcCaps Utils MediaSection Regex Grammar SdpWrite SdpParse SdpUtils.
From S2P Require Import RemoteSdp WebRtc PeerConnection.

(** [Handler::PrivateListener] *)
Class HandlerListener (L : Type) := {
  OnConnect : json -> M L unit;
  OnConnectionStateChange : IceConnectionState -> M L unit;
}.

Record Handler (E : Type) := mkHandler {
  pc : option (native E);
  remoteSdp : RemoteSdp;
  transportReady : bool;
  mapMidTransceiver : gmap string nat;
}.
Arguments mkHandler {_}.
Arguments pc {_}.
Arguments remoteSdp {_}.
Arguments transportReady {_}.
Arguments mapMidTransceiver {_}.

Definition SctpNumStreams : json := mk_obj [ ("OS", JUint 1024); ("MIS", JUint 1024) ].
Definition GetNativeSctpCapabilities : json := mk_obj [ ("numStreams", SctpNumStreams) ].

(** The capabilities of libwebrtc: what a connection of its own offers for one
    audio and one video transceiver. *)
Definition GetNativeRtpCapabilities {E} `{!Engine E, !ConnectionFactory E} (options : option Options) : outcome json :=
  let! connection := newPeerConnection options ∅ in
  match connection with
  | None => Undef
  | Some n =>
    ((_ <- AddTransceiver_kind "audio" ;;
      _ <- AddTransceiver_kind "video" ;;
      offer <- CreateOffer false ;;
      lift (let! sdpObject := parse offer in extractRtpCapabilities sdpObject)) n).1
  end.

(** The description comes from JSON parameters, the connection from options. *)
Definition newHandler {E} `{!ConnectionFactory E} (iceParameters iceCandidates dtlsParameters sctpParameters : json)
    (options : option Options) (ts : gmap nat Track) : outcome (Handler E) :=
  let! connection := newPeerConnection options ts in
  let! r := newRemoteSdp iceParameters iceCandidates dtlsParameters sctpParameters in
  Ok (mkHandler connection r false ∅).

Section handler.
Context {E L : Type} `{!Engine E, !HandlerListener L, !JsonDump}.

Definition with_pc v (h : Handler E) : Handler E := mkHandler v (remoteSdp h) (transportReady h) (mapMidTransceiver h).
Definition with_remoteSdp v (h : Handler E) := mkHandler (pc h) v (transportReady h) (mapMidTransceiver h).
Definition with_ready v (h : Handler E) := mkHandler (pc h) (remoteSdp h) v (mapMidTransceiver h).
Definition with_transceiver_map v (h : Handler E) := mkHandler (pc h) (remoteSdp h) (transportReady h) v.

(** Calls on the members; a null connection is undefined. *)
Definition on_pc {A} (m : M (native E) A) : M (L * Handler E) A :=
  zoom (fun s => pc s.2) (fun n s => (s.1, with_pc (Some n) s.2)) m.
Definition on_remoteSdp {A} (m : M RemoteSdp A) : M (L * Handler E) A :=
  zoom (fun s => Some (remoteSdp s.2)) (fun r s => (s.1, with_remoteSdp r s.2)) m.
Definition on_listener {A} (m : M L A) : M (L * Handler E) A :=
  zoom (fun s => Some s.1) (fun l s => (l, s.2)) m.
Definition on_self (f : Handler E -> Handler E) : M (L * Handler E) unit := modify (fun s => (s.1, f s.2)).

Definition Close : M (L * Handler E) unit := on_pc PeerConnection.Close.
Definition GetTransportStats : M (L * Handler E) json := on_pc (GetStats StatsAll).

Definition UpdateIceServers (iceServerUris : json) : M (L * Handler E) unit :=
  _ <- on_pc GetConfiguration ;;
  servers <- lift (omapM get_string (elems iceServerUris)) ;;
  ok <- on_pc (SetConfiguration servers) ;;
  if ok : bool then ret tt else throw (MediaSoupClientError "failed to update ICE servers").

Definition OnIceConnectionChange (newState : IceConnectionState) : M (L * Handler E) unit :=
  on_listener (OnConnectionStateChange newState).

Definition SetupTransport (localDtlsRole : string) (localSdpObject : json) : M (L * Handler E) unit :=
  localSdpObject <- (if json_empty localSdpObject then sdp <- on_pc GetLocalDescription ;; lift (parse sdp)
                     else ret localSdpObject) ;;
  dtlsParameters <- lift (extractDtlsParameters localSdpObject) ;;
  dtlsParameters <- lift (let '(o, d) := set_key "role" (JString localDtlsRole) dtlsParameters in let! _ := o in Ok d) ;;
  let remoteDtlsRole := if String.eqb localDtlsRole "client" then "server" else "client" in
  on_remoteSdp (UpdateDtlsRole remoteDtlsRole) ;;;
  on_listener (OnConnect dtlsParameters) ;;;
  on_self (with_ready true).

(** [this->mapMidTransceiver.find(localId)] *)
Definition find_transceiver (localId : string) : M (L * Handler E) nat :=
  s <- get ;;
  match mapMidTransceiver s.2 !! localId with
  | Some t => ret t
  | None => throw (MediaSoupClientError "associated RtpTransceiver not found")
  end.

End handler.

(** ** RecvHandler *)

Module RecvHandler.
Record RecvData := mkRecvData { localId : string; rtpReceiver : nat; track : nat }.

Section recv.
Context {E L : Type} `{!Engine E, !HandlerListener L, !JsonDump}.

Definition local_id (rtpParameters : json) (h : Handler E) : string :=
  match find "mid" rtpParameters with
  | Some (JString m) => if negb (String.eqb m "") then m else pretty (size (mapMidTransceiver h))
  | _ => pretty (size (mapMidTransceiver h))
  end.

Definition isMedia (localId : string) (m : json) : outcome bool :=
  let! v := idx "mid" m in let! s := get_string v in Ok (String.eqb s localId).

(** The transceivers of the connection, searched by mid. *)
Fixpoint find_by_mid (localId : string) (i : nat) (l : list Transceiver) : option nat :=
  match l with
  | [] => None
  | x :: r => if bool_decide (mid x = Some localId) then Some i else find_by_mid localId (S i) r
  end.

Definition Receive (id kind : string) (rtpParameters : json) : M (L * Handler E) RecvData :=
  s <- get ;;
  let localId := local_id rtpParameters s.2 in
  rtcp <- lift (idx "rtcp" rtpParameters) ;;
  v <- lift (idx "cname" rtcp) ;;
  cname <- lift (get_string v) ;;
  on_remoteSdp (RemoteSdp.Receive localId kind rtpParameters cname id) ;;;
  offer <- on_remoteSdp GetSdp ;;
  on_pc (SetRemoteDescription OFFER offer) ;;;
  answer <- on_pc CreateAnswer ;;
  localSdpObject <- lift (parse answer) ;;
  (* [localSdpObject["media"]] with the element of that mid edited *)
  localSdpObject <- lift (
    let '(o, j) := (media <- get_key "media" ;;
                    i <- lift (ofind_idx (isMedia localId) (elems media) 0) ;;
                    match i with
                    | Some i => at_key "media" (at_elem i (applyCodecParameters rtpParameters))
                    | None => undef
                    end) localSdpObject in
    let! _ := o in Ok j) ;;
  r <- lift (let '(o, j) := write localSdpObject in let! answer := o in Ok (answer, j)) ;;
  s <- get ;;
  when (negb (transportReady s.2)) (SetupTransport "client" r.2) ;;;
  on_pc (SetLocalDescription ANSWER r.1) ;;;
  n <- on_pc get ;;
  match find_by_mid localId 0 (transceivers n) with
  | None => throw (MediaSoupClientError "new RTCRtpTransceiver not found")
  | Some t =>
    on_self (fun h => with_transceiver_map (<[localId := t]> (mapMidTransceiver h)) h) ;;;
    x <- on_pc (transceiver_at t) ;;
    ret (mkRecvData localId t (receiver_track x))
  end.

(** A remote offer, answered by the connection. *)
Definition renegotiate : M (L * Handler E) unit :=
  offer <- on_remoteSdp GetSdp ;;
  on_pc (SetRemoteDescription OFFER offer) ;;;
  answer <- on_pc CreateAnswer ;;
  on_pc (SetLocalDescription ANSWER answer).

Definition StopReceiving (localId : string) : M (L * Handler E) unit :=
  t <- find_transceiver localId ;;
  m <- on_pc (mid_value t) ;;
  on_remoteSdp (CloseMediaSection m) ;;;
  renegotiate.

Definition GetReceiverStats (localId : string) : M (L * Handler E) json :=
  t <- find_transceiver localId ;; on_pc (GetStats (StatsReceiver t)).

Definition RestartIce (iceParameters : json) : M (L * Handler E) unit :=
  on_remoteSdp (UpdateIceParameters iceParameters) ;;;
  s <- get ;;
  if negb (transportReady s.2) then ret tt else renegotiate.
End recv.
End RecvHandler.

(** ** SendHandler *)

(** [if (encoding.x) jsonEncoding[k] = *encoding.x;] *)
Definition set_opt {A} (k : string) (f : A -> json) (o : option A) : M json unit :=
  match o with Some a => set_key k (f a) | None => ret tt end.
Definition fillJsonRtpEncodingParameters (e : RtpEncodingParameters) : M json unit :=
  set_key "active" (JBool (active e)) ;;;
  when (negb (String.eqb (rid e) "")) (set_key "rid" (JString (rid e))) ;;;
  set_opt "maxBitrate" JInt (max_bitrate_bps e) ;;;
  set_opt "maxFramerate" JInt (max_framerate e) ;;;
  set_opt "scaleFramerateDownBy" JFloat (scale_framerate_down_by e) ;;;
  set_opt "scaleResolutionDownBy" JFloat (scale_resolution_down_by e) ;;;
  when (match dtx e with Some ENABLED => true | _ => false end) (set_key "dtx" (JBool true)) ;;;
  set_key "networkPriority" (JFloat (network_priority e)).

Module SendHandler.
Record SendHandler (E : Type) := mkSendHandler {
  handler : Handler E;
  sendingRtpParametersByKind : json;
  sendingRemoteRtpParametersByKind : json;
}.
Arguments mkSendHandler {_}.
Arguments handler {_}.
Arguments sendingRtpParametersByKind {_}.
Arguments sendingRemoteRtpParametersByKind {_}.

Record SendData := mkSendData { localId : string; rtpSender : nat; rtpParameters : json }.

(** The counter of the RIDs has eight bits. *)
Definition number_rids (l : list RtpEncodingParameters) : list RtpEncodingParameters :=
  imap (fun i e => with_rid ("r" +:+ pretty (wrap_u 8 (Z.of_nat i))) e) l.

(** The encodings of which [SetMaxSpatialLayer] edits the first three. *)
Definition edit_active (low medium high : bool) (l : list RtpEncodingParameters) : list RtpEncodingParameters :=
  let l := match l !! 0 with Some e => <[0 := with_active low e]> l | None => l end in
  let l := match l !! 1 with Some e => <[1 := with_active medium e]> l | None => l end in
  match l !! 2 with Some e => <[2 := with_active high e]> l | None => l end.
Definition limitLayers (spatialLayer : Z) (l : list RtpEncodingParameters) : list RtpEncodingParameters :=
  if (spatialLayer =? 1)%Z then edit_active true false false l
  else if (spatialLayer =? 2)%Z then edit_active true true false l
  else if (spatialLayer =? 3)%Z then edit_active true true true l
  else l.

(** [MSC_THROW_ERROR("%s", message)] prints into a buffer of 2000 bytes. *)
Definition error_message (message : string) : string := String.substring 0 1999 (c_str message).

Section send.
Context {E L : Type} `{!Engine E, !HandlerListener L, !JsonDump}.

Definition with_handler v (h : SendHandler E) : SendHandler E :=
  mkSendHandler v (sendingRtpParametersByKind h) (sendingRemoteRtpParametersByKind h).
Definition with_sending v (h : SendHandler E) := mkSendHandler (handler h) v (sendingRemoteRtpParametersByKind h).
Definition with_sending_remote v (h : SendHandler E) := mkSendHandler (handler h) (sendingRtpParametersByKind h) v.

Definition on_handler {A} (m : M (L * Handler E) A) : M (L * SendHandler E) A :=
  zoom (fun s => Some (s.1, handler s.2)) (fun t s => (t.1, with_handler t.2 s.2)) m.
Definition on_native {A} (m : M (native E) A) : M (L * SendHandler E) A := on_handler (on_pc m).
(** [sendingRtpParameters], the reference into the map. *)
Definition on_params {A} (kind : string) (m : M json A) : M (L * SendHandler E) A :=
  zoom (fun s => Some (sendingRtpParametersByKind s.2)) (fun j s => (s.1, with_sending j s.2)) (at_key kind m).

(** Both arguments that [RemoteSdp::Send] may change. *)
Definition on_remoteSdp_params {A} (kind : string) (m : M (RemoteSdp * json) A) : M (L * SendHandler E) A :=
  zoom (fun s => p ← find kind (sendingRtpParametersByKind s.2); Some (remoteSdp (handler s.2), p))
       (fun t s => (s.1, with_sending (jset kind t.2 (sendingRtpParametersByKind s.2))
                           (with_handler (with_remoteSdp t.1 (handler s.2)) s.2))) m.

(** The local offer of a new transceiver: the mid that it gets. *)
Definition send_offer (t : nat) (kind : string) : M (L * SendHandler E) string :=
  offer <- on_native (CreateOffer false) ;;
  localSdpObject <- lift (parse offer) ;;
  s <- get ;;
  when (negb (transportReady (handler s.2))) (on_handler (SetupTransport "server" localSdpObject)) ;;;
  on_native (SetLocalDescription OFFER offer) ;;;
  localId <- on_native (mid_value t) ;;
  on_params kind (set_key "mid" (JString localId)) ;;;
  ret localId.

(** The encodings of the sending parameters, from the offer or as given. *)
Definition send_encodings_of (encs : option (list RtpEncodingParameters)) (offerMediaObject : json) : M json unit :=
  match encs with
  | None | Some [] =>
    e <- lift (getRtpEncodings offerMediaObject) ;; set_key "encodings" e
  | Some [e] =>
    newEncodings <- lift (getRtpEncodings offerMediaObject) ;;
    newEncodings <- lift (let '(o, j) := at_elem 0 (fillJsonRtpEncodingParameters e) newEncodings in let! _ := o in Ok j) ;;
    set_key "encodings" newEncodings
  | Some l =>
    set_key "encodings" (JArray []) ;;;
    for_list l (fun e =>
      jsonEncoding <- lift (let '(o, j) := fillJsonRtpEncodingParameters e JNull in let! _ := o in Ok j) ;;
      at_key "encodings" (push_back jsonEncoding))
  end.

(** If there is effective simulcast, each encoding gets a scalability mode. *)
Definition send_scalability : M json unit :=
  v <- at_key "codecs" (at_idx 0 (get_key "mimeType")) ;;
  mimeType <- lift (get_string v) ;;
  encs <- get_key "encodings" ;;
  when ((1 <? json_size encs)%nat &&
        (String.eqb (lower mimeType) "video/vp8" || String.eqb (lower mimeType) "video/h264"))
    (at_key "encodings" (for_range (set_key "scalabilityMode" (JString "S1T3")))).

Definition Send (track : option nat) (encs : option (list RtpEncodingParameters)) (codecOptions : option json)
    : M (L * SendHandler E) SendData :=
  match track with
  | None => throw (type_error "missing track")
  | Some p =>
    let encs := match encs with Some l => Some (if (1 <? length l)%nat then number_rids l else l) | None => None end in
    s <- get ;;
    mediaSectionIdx <- lift (GetNextMediaSectionIdx (remoteSdp (handler s.2))) ;;
    transceiver <- on_native (AddTransceiver track (mkInit kSendRecv [] (default [] encs))) ;;
    match transceiver with
    | None => throw (MediaSoupClientError "error creating transceiver")
    | Some t =>
      on_native (SetDirection t kSendOnly) ;;;
      tr <- on_native (track_at p) ;;
      let kind := t_kind tr in
      on_params kind (ret tt) ;;;
      localId <- try_catch (send_offer t kind) (fun _ => true)
        (fun e => on_native (SetDirection t kInactive) ;;; _ <- on_native (SetTrack t None) ;; throw e) ;;
      localSdp <- on_native GetLocalDescription ;;
      localSdpObject <- lift (parse localSdp) ;;
      offerMediaObject <- lift (at_key "media" (at_idx mediaSectionIdx.1 get) localSdpObject).1 ;;
      cname <- lift (getCname offerMediaObject) ;;
      on_params kind (at_key "rtcp" (set_key "cname" (JString cname))) ;;;
      on_params kind (send_encodings_of encs offerMediaObject) ;;;
      on_params kind send_scalability ;;;
      answerRtpParameters <- zoom (fun s => Some (sendingRemoteRtpParametersByKind s.2))
        (fun j s => (s.1, with_sending_remote j s.2)) (get_key kind) ;;
      on_remoteSdp_params kind (RemoteSdp.Send offerMediaObject mediaSectionIdx.2 answerRtpParameters codecOptions) ;;;
      answer <- on_handler (on_remoteSdp GetSdp) ;;
      on_native (SetRemoteDescription ANSWER answer) ;;;
      on_handler (on_self (fun h => with_transceiver_map (<[localId := t]> (mapMidTransceiver h)) h)) ;;;
      sendingRtpParameters <- on_params kind get ;;
      ret (mkSendData localId t sendingRtpParameters)
    end
  end.

(** A local offer, answered by the remote description. *)
Definition renegotiate (ice_restart : bool) : M (L * SendHandler E) unit :=
  offer <- on_native (CreateOffer ice_restart) ;;
  on_native (SetLocalDescription OFFER offer) ;;;
  localSdp <- on_native GetLocalDescription ;;
  _ <- lift (parse localSdp) ;;
  answer <- on_handler (on_remoteSdp GetSdp) ;;
  on_native (SetRemoteDescription ANSWER answer).

Definition StopSending (localId : string) : M (L * SendHandler E) unit :=
  t <- on_handler (find_transceiver localId) ;;
  _ <- on_native (SetTrack t None) ;;
  _ <- on_native (RemoveTrack t) ;;
  m <- on_native (mid_value t) ;;
  on_handler (on_remoteSdp (CloseMediaSection m)) ;;;
  renegotiate false.

Definition ReplaceTrack (localId : string) (track : option nat) : M (L * SendHandler E) unit :=
  t <- on_handler (find_transceiver localId) ;;
  _ <- on_native (SetTrack t track) ;;
  ret tt.

Definition SetMaxSpatialLayer (localId : string) (spatialLayer : Z) : M (L * SendHandler E) unit :=
  t <- on_handler (find_transceiver localId) ;;
  parameters <- on_native (GetParameters t) ;;
  result <- on_native (SetParameters t (mkParameters (transaction_id parameters) (p_mid parameters)
                                          (limitLayers spatialLayer (encodings parameters)))) ;;
  match result with
  | Some message => throw (MediaSoupClientError (error_message message))
  | None => ret tt
  end.

Definition GetSenderStats (localId : string) : M (L * SendHandler E) json :=
  t <- on_handler (find_transceiver localId) ;; on_native (GetStats (StatsSender t)).

Definition RestartIce (iceParameters : json) : M (L * SendHandler E) unit :=
  on_handler (on_remoteSdp (UpdateIceParameters iceParameters)) ;;;
  s <- get ;;
  if negb (transportReady (handler s.2)) then ret tt else renegotiate true.
End send.

Definition newSendHandler {E} `{!ConnectionFactory E} (iceParameters iceCandidates dtlsParameters sctpParameters : json)
    (options : option Options) (ts : gmap nat Track) (sendingRtpParametersByKind sendingRemoteRtpParametersByKind : json)
    : outcome (SendHandler E) :=
  let! h := newHandler iceParameters iceCandidates dtlsParameters sctpParameters options ts in
  Ok (mkSendHandler h sendingRtpParametersByKind sendingRemoteRtpParametersByKind).
End SendHandler.
