(* ===== verification/Transport.v ===== *)
(** * Transport.cpp

    Send and receive transports.  A transport is the listener of its handler
    and of its producers or consumers; the application is the listener of the
    transport.  What the application is told is recorded in [calls], oldest
    first, and it answers as the class [Application] says, depending on the
    calls before.  Producers and consumers are objects in [heap]; a pointer to
    one is its position. *)

From stdpp Require Import base list gmap strings.
From Stdlib Require Import ZArith Lia.
From S2P Require Import Prelude Json OrtcValidate OrtcCaps SdpWrite RemoteSdp WebRtc PeerConnection Producer Consumer Handler.

(** ** The application *)

Inductive call :=
| CallConnect (dtlsParameters : json)
| CallConnectionStateChange (connectionState : string)
| CallProduce (kind : string) (rtpParameters appData : json)
| CallProducerTransportClose (id : string)
| CallConsumerTransportClose (id : string).

(** [get()] of the future that a listener returns, or the listener's own
    exception, given the earlier calls. *)
Class Application := {
  app_connect : list call -> json -> outcome unit;
  app_state_change : list call -> string -> outcome unit;
  app_produce : list call -> string -> json -> json -> outcome string;
  app_producer_closed : list call -> string -> outcome unit;
  app_consumer_closed : list call -> string -> outcome unit;
}.

(** ** Transport *)

Record Transport := mkTransport {
  transportId : string;
  transportClosed : bool;
  connectionState : IceConnectionState;
  maxSctpMessageSize : Z;
  probatorConsumerCreated : bool;
  transportAppData : json;
  calls : list call;
}.

Definition newTransport (id : string) (appData : json) : Transport :=
  mkTransport id false kIceConnectionNew 0 false appData [].

Definition set_closed t := mkTransport (transportId t) true (connectionState t) (maxSctpMessageSize t)
  (probatorConsumerCreated t) (transportAppData t) (calls t).
Definition set_state s t := mkTransport (transportId t) (transportClosed t) s (maxSctpMessageSize t)
  (probatorConsumerCreated t) (transportAppData t) (calls t).
Definition set_max_message z t := mkTransport (transportId t) (transportClosed t) (connectionState t) z
  (probatorConsumerCreated t) (transportAppData t) (calls t).
Definition set_probator t := mkTransport (transportId t) (transportClosed t) (connectionState t) (maxSctpMessageSize t)
  true (transportAppData t) (calls t).
Definition add_call c t := mkTransport (transportId t) (transportClosed t) (connectionState t) (maxSctpMessageSize t)
  (probatorConsumerCreated t) (transportAppData t) (calls t ++ [c]).

(** A call of the application, recorded. *)
Definition tell {A} (c : call) (answer : list call -> outcome A) : M Transport A := fun t =>
  (answer (calls t), add_call c t).

Definition GetConnectionState (t : Transport) : string := iceConnectionState2String (connectionState t).

#[export] Instance transport_listener `{!Application} : HandlerListener Transport := {
  OnConnect dtlsParameters :=
    t <- get ;;
    if transportClosed t then throw (MediaSoupClientInvalidStateError "Transport closed") else
    tell (CallConnect dtlsParameters) (fun before => app_connect before dtlsParameters);
  OnConnectionStateChange newState :=
    modify (set_state newState) ;;;
    tell (CallConnectionStateChange (iceConnectionState2String newState))
      (fun before => app_state_change before (iceConnectionState2String newState));
}.

(** ** SendTransport *)

Module SendTransport.
Record SendTransport (E : Type) := mkSendTransport {
  transport : Transport;
  sendHandler : SendHandler.SendHandler E;
  producers : gmap string nat;
  heap : list Producer.Producer;
  extendedRtpCapabilities : json;
  canProduceByKind : gmap string bool;
}.
Arguments mkSendTransport {_}.
Arguments transport {_}.
Arguments sendHandler {_}.
Arguments producers {_}.
Arguments heap {_}.
Arguments extendedRtpCapabilities {_}.
Arguments canProduceByKind {_}.

(** An iterator at the end is dereferenced if there is no maxMessageSize. *)
Definition maxMessageSize (sctpParameters : json) : outcome (option Z) :=
  if negb (is_null sctpParameters) && is_object sctpParameters then
    match find "maxMessageSize" sctpParameters with
    | None => Undef
    | Some v => if is_number_integer v then let! z := get_uint64 v in Ok (Some z) else Ok None
    end
  else Ok None.

Definition newSendTransport {E} `{!ConnectionFactory E} (id : string)
    (iceParameters iceCandidates dtlsParameters sctpParameters : json) (options : option Options) (ts : gmap nat Track)
    (extendedRtpCapabilities : json) (canProduceByKind : gmap string bool) (appData : json) : outcome (SendTransport E) :=
  let t := newTransport id appData in
  let! size := maxMessageSize sctpParameters in
  let t := match size with Some z => set_max_message z t | None => t end in
  let! audio := getSendingRtpParameters "audio" extendedRtpCapabilities in
  let! video := getSendingRtpParameters "video" extendedRtpCapabilities in
  let! remoteAudio := getSendingRemoteRtpParameters "audio" extendedRtpCapabilities in
  let! remoteVideo := getSendingRemoteRtpParameters "video" extendedRtpCapabilities in
  let! h := SendHandler.newSendHandler iceParameters iceCandidates dtlsParameters sctpParameters options ts
    (mk_obj [ ("audio", audio); ("video", video) ]) (mk_obj [ ("audio", remoteAudio); ("video", remoteVideo) ]) in
  Ok (mkSendTransport t h ∅ [] extendedRtpCapabilities canProduceByKind).

Section send_transport.
Context {E : Type} `{!Engine E, !Application, !JsonDump}.

Definition with_transport v (t : SendTransport E) : SendTransport E := mkSendTransport v (sendHandler t) (producers t) (heap t)
  (extendedRtpCapabilities t) (canProduceByKind t).
Definition with_sendHandler v (t : SendTransport E) : SendTransport E := mkSendTransport (transport t) v (producers t) (heap t)
  (extendedRtpCapabilities t) (canProduceByKind t).
Definition with_producers v (t : SendTransport E) : SendTransport E := mkSendTransport (transport t) (sendHandler t) v (heap t)
  (extendedRtpCapabilities t) (canProduceByKind t).
Definition with_heap v (t : SendTransport E) : SendTransport E := mkSendTransport (transport t) (sendHandler t) (producers t) v
  (extendedRtpCapabilities t) (canProduceByKind t).

(** Calls of the handler, with the transport as its listener. *)
Definition on_sendHandler {A} (m : M (Transport * SendHandler.SendHandler E) A) : M (SendTransport E) A :=
  zoom (fun t => Some (transport t, sendHandler t)) (fun s t => with_sendHandler s.2 (with_transport s.1 t)) m.
Definition on_transport {A} (m : M Transport A) : M (SendTransport E) A :=
  zoom (fun t => Some (transport t)) with_transport m.

(** *** The transport as the listener of its producers *)

Definition OnClose (p : Producer.Producer) : M (SendTransport E) unit :=
  modify (fun t => with_producers (delete (Producer.id p) (producers t)) t) ;;;
  t <- get ;;
  if transportClosed (transport t) then ret tt else
  on_sendHandler (SendHandler.StopSending (Producer.localId p)).

Definition OnReplaceTrack (p : Producer.Producer) (track : option nat) : M (SendTransport E) unit :=
  on_sendHandler (SendHandler.ReplaceTrack (Producer.localId p) track).

Definition OnSetMaxSpatialLayer (p : Producer.Producer) (layer : Z) : M (SendTransport E) unit :=
  on_sendHandler (SendHandler.SetMaxSpatialLayer (Producer.localId p) layer).

Definition OnGetStats (p : Producer.Producer) : M (SendTransport E) json :=
  t <- get ;;
  if transportClosed (transport t) then throw (MediaSoupClientInvalidStateError "SendTransport closed") else
  on_sendHandler (SendHandler.GetSenderStats (Producer.localId p)).

#[export] Instance send_listener : ProducerListener E (SendTransport E) := {
  OnClose := OnClose;
  OnReplaceTrack := OnReplaceTrack;
  OnSetMaxSpatialLayer := OnSetMaxSpatialLayer;
  OnGetStats := OnGetStats;
  OnTransportClose p := on_transport
    (tell (CallProducerTransportClose (Producer.id p)) (fun before => app_producer_closed before (Producer.id p)));
  on_tracks A m := on_sendHandler (SendHandler.on_native m);
}.

(** A method of the producer at [n]. *)
Definition on_producer {A} (n : nat) (m : M (SendTransport E * Producer.Producer) A) : M (SendTransport E) A := fun t =>
  match heap t !! n with
  | None => (Undef, t)
  | Some p => let '(o, (t', p')) := m (t, p) in (o, with_heap (<[n := p']> (heap t')) t')
  end.

(** *** Operations *)

Definition normalizeEncoding (entry : RtpEncodingParameters) : RtpEncodingParameters :=
  mkEncoding None None None None (dtx entry) kDefaultBitratePriority (network_priority entry) None
    (max_bitrate_bps entry) None (max_framerate entry) None (scale_resolution_down_by entry)
    (scale_framerate_down_by entry) (active entry) "" [].

(** [validateProducerCodecOptions] changes the options in place. *)
Definition checked_options (codecOptions : option json) : outcome (option json) :=
  match codecOptions with
  | None => Ok None
  | Some j => let '(o, j') := validateProducerCodecOptions j in let! _ := o in Ok (Some j')
  end.

(** The server's id for the parameters; they are completed in place. *)
Definition announce (kind : string) (sendData : SendHandler.SendData) (appData : json) : M (SendTransport E) (string * json) :=
  let '(o, params) := validateRtpParameters (SendHandler.rtpParameters sendData) in
  _ <- lift o ;;
  producerId <- on_transport (tell (CallProduce kind params appData) (fun before => app_produce before kind params appData)) ;;
  ret (producerId, params).

Definition Produce (track : option nat) (encs : option (list RtpEncodingParameters)) (codecOptions : option json)
    (appData : json) : M (SendTransport E) nat :=
  t <- get ;;
  if transportClosed (transport t) then throw (MediaSoupClientInvalidStateError "SendTransport closed") else
  match track with
  | None => throw (type_error "missing track")
  | Some p =>
    tr <- on_sendHandler (SendHandler.on_native (track_at p)) ;;
    if ended tr then throw (MediaSoupClientInvalidStateError "track ended") else
    if negb (bool_decide (is_Some (canProduceByKind t !! t_kind tr))) then
      throw (MediaSoupClientUnsupportedError "cannot produce track kind")
    else
    codecOptions <- lift (checked_options codecOptions) ;;
    let normalizedEncodings := map normalizeEncoding (default [] encs) in
    sendData <- on_sendHandler (SendHandler.Send track (Some normalizedEncodings) codecOptions) ;;
    produced <- try_catch (announce (t_kind tr) sendData appData) is_msc_error
      (fun e => on_sendHandler (SendHandler.StopSending (SendHandler.localId sendData)) ;;; throw e) ;;
    let producer := newProducer produced.1 (SendHandler.localId sendData) (SendHandler.rtpSender sendData) p
                      produced.2 appData in
    fun t =>
      let n := length (heap t) in
      (Ok n, with_producers (<[Producer.id producer := n]> (producers t)) (with_heap (heap t ++ [producer]) t))
  end.

(** The producers in the order of the map, which the source leaves open. *)
Definition Close : M (SendTransport E) unit :=
  t <- get ;;
  if transportClosed (transport t) then ret tt else
  on_transport (modify set_closed) ;;;
  on_sendHandler (SendHandler.on_handler Handler.Close) ;;;
  t <- get ;;
  for_list (map_to_list (producers t)) (fun kv => on_producer kv.2 Producer.TransportClosed).

Definition if_open {A} (m : M (SendTransport E) A) : M (SendTransport E) A :=
  t <- get ;;
  if transportClosed (transport t) then throw (MediaSoupClientInvalidStateError "Transport closed") else m.
Definition GetStats : M (SendTransport E) json := if_open (on_sendHandler (SendHandler.on_handler GetTransportStats)).
Definition RestartIce (iceParameters : json) : M (SendTransport E) unit :=
  if_open (on_sendHandler (SendHandler.RestartIce iceParameters)).
Definition UpdateIceServers (iceServers : json) : M (SendTransport E) unit :=
  if_open (on_sendHandler (SendHandler.on_handler (Handler.UpdateIceServers iceServers))).
Definition OnIceConnectionChange (newState : IceConnectionState) : M (SendTransport E) unit :=
  on_sendHandler (SendHandler.on_handler (Handler.OnIceConnectionChange newState)).
End send_transport.
End SendTransport.

(** ** RecvTransport *)

Module RecvTransport.
Record RecvTransport (E : Type) := mkRecvTransport {
  transport : Transport;
  recvHandler : Handler E;
  consumers : gmap string nat;
  heap : list Consumer.Consumer;
  extendedRtpCapabilities : json;
}.
Arguments mkRecvTransport {_}.
Arguments transport {_}.
Arguments recvHandler {_}.
Arguments consumers {_}.
Arguments heap {_}.
Arguments extendedRtpCapabilities {_}.

Definition newRecvTransport {E} `{!ConnectionFactory E} (id : string)
    (iceParameters iceCandidates dtlsParameters sctpParameters : json) (options : option Options) (ts : gmap nat Track)
    (extendedRtpCapabilities appData : json) : outcome (RecvTransport E) :=
  let! h := newHandler iceParameters iceCandidates dtlsParameters sctpParameters options ts in
  Ok (mkRecvTransport (newTransport id appData) h ∅ [] extendedRtpCapabilities).

Section recv_transport.
Context {E : Type} `{!Engine E, !Application, !JsonDump}.

Definition with_transport v (t : RecvTransport E) : RecvTransport E :=
  mkRecvTransport v (recvHandler t) (consumers t) (heap t) (extendedRtpCapabilities t).
Definition with_recvHandler v (t : RecvTransport E) : RecvTransport E :=
  mkRecvTransport (transport t) v (consumers t) (heap t) (extendedRtpCapabilities t).
Definition with_consumers v (t : RecvTransport E) : RecvTransport E :=
  mkRecvTransport (transport t) (recvHandler t) v (heap t) (extendedRtpCapabilities t).
Definition with_heap v (t : RecvTransport E) : RecvTransport E :=
  mkRecvTransport (transport t) (recvHandler t) (consumers t) v (extendedRtpCapabilities t).

Definition on_recvHandler {A} (m : M (Transport * Handler E) A) : M (RecvTransport E) A :=
  zoom (fun t => Some (transport t, recvHandler t)) (fun s t => with_recvHandler s.2 (with_transport s.1 t)) m.
Definition on_transport {A} (m : M Transport A) : M (RecvTransport E) A :=
  zoom (fun t => Some (transport t)) with_transport m.

(** *** The transport as the listener of its consumers *)

Definition OnClose (c : Consumer.Consumer) : M (RecvTransport E) unit :=
  modify (fun t => with_consumers (delete (Consumer.id c) (consumers t)) t) ;;;
  t <- get ;;
  if transportClosed (transport t) then ret tt else
  on_recvHandler (RecvHandler.StopReceiving (Consumer.localId c)).

Definition OnGetStats (c : Consumer.Consumer) : M (RecvTransport E) json :=
  t <- get ;;
  if transportClosed (transport t) then throw (MediaSoupClientInvalidStateError "RecvTransport closed") else
  on_recvHandler (RecvHandler.GetReceiverStats (Consumer.localId c)).

#[export] Instance recv_listener : ConsumerListener E (RecvTransport E) := {
  Consumer.OnClose := OnClose;
  Consumer.OnGetStats := OnGetStats;
  Consumer.OnTransportClose c := on_transport
    (tell (CallConsumerTransportClose (Consumer.id c)) (fun before => app_consumer_closed before (Consumer.id c)));
  Consumer.on_tracks A m := on_recvHandler (on_pc m);
}.

(** A method of the consumer at [n]. *)
Definition on_consumer {A} (n : nat) (m : M (RecvTransport E * Consumer.Consumer) A) : M (RecvTransport E) A := fun t =>
  match heap t !! n with
  | None => (Undef, t)
  | Some c => let '(o, (t', c')) := m (t, c) in (o, with_heap (<[n := c']> (heap t')) t')
  end.

(** *** Operations *)

(** The consumer that probes the bandwidth, for the first video consumer. *)
Definition createProbator (kind : string) (rtpParameters : json) : M (RecvTransport E) unit :=
  try_catch
    (probatorRtpParameters <- lift (generateProbatorRtpParameters rtpParameters) ;;
     _ <- on_recvHandler (RecvHandler.Receive "probator" kind probatorRtpParameters) ;;
     on_transport (modify set_probator))
    is_runtime_error (fun _ => ret tt).

(** [canReceive] validates the parameters in place. *)
Definition Consume (id producerId kind : string) (rtpParameters : option json) (appData : json) : M (RecvTransport E) nat :=
  t <- get ;;
  if transportClosed (transport t) then throw (MediaSoupClientInvalidStateError "RecvTransport closed") else
  if String.eqb id "" then throw (type_error "missing id") else
  if String.eqb producerId "" then throw (type_error "missing producerId") else
  if negb (String.eqb kind "audio") && negb (String.eqb kind "video") then throw (type_error "invalid kind") else
  match rtpParameters with
  | None => throw (type_error "missing rtpParameters")
  | Some params =>
    if negb (is_object appData) then throw (type_error "appData must be a JSON object") else
    let '(o, params) := canReceive (extendedRtpCapabilities t) params in
    receivable <- lift o ;;
    if negb receivable then throw (MediaSoupClientUnsupportedError "cannot consume this Producer") else
    recvData <- on_recvHandler (RecvHandler.Receive id kind params) ;;
    let consumer := newConsumer id (RecvHandler.localId recvData) producerId (RecvHandler.rtpReceiver recvData)
                      (RecvHandler.track recvData) params appData in
    n <- (fun t =>
      let n := length (heap t) in
      (Ok n, with_consumers (<[Consumer.id consumer := n]> (consumers t)) (with_heap (heap t ++ [consumer]) t))) ;;
    t <- get ;;
    when (negb (probatorConsumerCreated (transport t)) && String.eqb kind "video") (createProbator kind params) ;;;
    ret n
  end.

Definition Close : M (RecvTransport E) unit :=
  t <- get ;;
  if transportClosed (transport t) then ret tt else
  on_transport (modify set_closed) ;;;
  on_recvHandler Handler.Close ;;;
  t <- get ;;
  for_list (map_to_list (consumers t)) (fun kv => on_consumer kv.2 Consumer.TransportClosed).

Definition if_open {A} (m : M (RecvTransport E) A) : M (RecvTransport E) A :=
  t <- get ;;
  if transportClosed (transport t) then throw (MediaSoupClientInvalidStateError "Transport closed") else m.
Definition GetStats : M (RecvTransport E) json := if_open (on_recvHandler GetTransportStats).
Definition RestartIce (iceParameters : json) : M (RecvTransport E) unit :=
  if_open (on_recvHandler (RecvHandler.RestartIce iceParameters)).
Definition UpdateIceServers (iceServers : json) : M (RecvTransport E) unit :=
  if_open (on_recvHandler (Handler.UpdateIceServers iceServers)).
Definition OnIceConnectionChange (newState : IceConnectionState) : M (RecvTransport E) unit :=
  on_recvHandler (Handler.OnIceConnectionChange newState).
End recv_transport.
End RecvTransport.
