(* ===== verification/Device.v ===== *)
(** * Device.cpp

    The entry point: it computes what the device and the router have in common
    and creates transports. *)

From stdpp Require Import base list gmap strings.
From Stdlib Require Import ZArith Lia.
From S2P Require Import Prelude Json OrtcValidate OrtcCaps RemoteSdp WebRtc PeerConnection Handler Transport.

Record Device := mkDevice {
  loaded : bool;
  extendedRtpCapabilities : json;
  recvRtpCapabilities : json;
  canProduceByKind : gmap string bool;
  sctpCapabilities : json;
}.

Definition newDevice : Device :=
  mkDevice false JNull JNull (<["audio" := false]> (<["video" := false]> ∅)) JNull.

Definition with_loaded v d :=
  mkDevice v (extendedRtpCapabilities d) (recvRtpCapabilities d) (canProduceByKind d) (sctpCapabilities d).
Definition with_extended v d :=
  mkDevice (loaded d) v (recvRtpCapabilities d) (canProduceByKind d) (sctpCapabilities d).
Definition with_recv v d :=
  mkDevice (loaded d) (extendedRtpCapabilities d) v (canProduceByKind d) (sctpCapabilities d).
Definition with_can v d :=
  mkDevice (loaded d) (extendedRtpCapabilities d) (recvRtpCapabilities d) v (sctpCapabilities d).
Definition with_sctp v d :=
  mkDevice (loaded d) (extendedRtpCapabilities d) (recvRtpCapabilities d) (canProduceByKind d) v.

(** A validator run on a value of one's own. *)
Definition validated (validate : M json unit) (j : json) : outcome json :=
  let '(o, j') := validate j in let! _ := o in Ok j'.

Definition IsLoaded (d : Device) : bool := loaded d.
Definition if_loaded {A} (d : Device) (o : outcome A) : outcome A :=
  if negb (loaded d) then Throw (MediaSoupClientInvalidStateError "not loaded") else o.
Definition GetRtpCapabilities (d : Device) : outcome json := if_loaded d (Ok (recvRtpCapabilities d)).
Definition GetSctpCapabilities (d : Device) : outcome json := if_loaded d (Ok (sctpCapabilities d)).

Definition CanProduce (kind : string) (d : Device) : outcome bool :=
  if_loaded d (
    if negb (String.eqb kind "audio") && negb (String.eqb kind "video") then Throw (type_error "invalid kind")
    else Ok (default false (canProduceByKind d !! kind))).

Section device.
Context {E : Type} `{!Engine E, !ConnectionFactory E}.

(** The members keep what was stored in them when a later step throws. *)
Definition Load (routerRtpCapabilities : json) (options : option Options) : M Device unit :=
  d <- get ;;
  if loaded d then throw (MediaSoupClientInvalidStateError "already loaded") else
  router <- lift (validated validateRtpCapabilities routerRtpCapabilities) ;;
  native <- lift (GetNativeRtpCapabilities (E := E) options) ;;
  native <- lift (validated validateRtpCapabilities native) ;;
  extended <- lift (getExtendedRtpCapabilities (native, router)).1 ;;
  modify (with_extended extended) ;;;
  audio <- lift (canSend "audio" extended) ;;
  modify (fun d => with_can (<["audio" := audio]> (canProduceByKind d)) d) ;;;
  video <- lift (canSend "video" extended) ;;
  modify (fun d => with_can (<["video" := video]> (canProduceByKind d)) d) ;;;
  recv <- lift (getRecvRtpCapabilities extended) ;;
  modify (with_recv recv) ;;;
  zoom (fun d => Some (recvRtpCapabilities d)) with_recv validateRtpCapabilities ;;;
  modify (with_sctp GetNativeSctpCapabilities) ;;;
  zoom (fun d => Some (sctpCapabilities d)) with_sctp validateSctpCapabilities ;;;
  modify (with_loaded true).

(** The parameters of a transport, validated in place. *)
Definition transport_parameters (appData iceParameters iceCandidates dtlsParameters sctpParameters : json) (d : Device)
    : outcome (json * json * json * json) :=
  if_loaded d (
    if negb (is_object appData) then Throw (type_error "appData must be a JSON object") else
    let! ice := validated validateIceParameters iceParameters in
    let! candidates := validated validateIceCandidates iceCandidates in
    let! dtls := validated validateDtlsParameters dtlsParameters in
    let! sctp := if negb (is_null sctpParameters) then validated validateSctpParameters sctpParameters
                 else Ok sctpParameters in
    Ok (ice, candidates, dtls, sctp)).

Definition CreateSendTransport (id : string) (iceParameters iceCandidates dtlsParameters sctpParameters : json)
    (options : option Options) (ts : gmap nat Track) (appData : json) (d : Device) : outcome (SendTransport.SendTransport E) :=
  let! p := transport_parameters appData iceParameters iceCandidates dtlsParameters sctpParameters d in
  let '(ice, candidates, dtls, sctp) := p in
  SendTransport.newSendTransport id ice candidates dtls sctp options ts (extendedRtpCapabilities d) (canProduceByKind d) appData.

Definition CreateRecvTransport (id : string) (iceParameters iceCandidates dtlsParameters sctpParameters : json)
    (options : option Options) (ts : gmap nat Track) (appData : json) (d : Device) : outcome (RecvTransport.RecvTransport E) :=
  let! p := transport_parameters appData iceParameters iceCandidates dtlsParameters sctpParameters d in
  let '(ice, candidates, dtls, sctp) := p in
  RecvTransport.newRecvTransport id ice candidates dtls sctp options ts (extendedRtpCapabilities d) appData.
End device.
