(* ===== verification/Sample.v ===== *)
(** * A concrete environment

    A small libwebrtc, application and serializer, with which the properties of
    handlers, transports and the device are applied: offers have one section
    per transceiver, a local description gives each transceiver its position
    as its mid, and the application accepts everything. *)

From stdpp Require Import base list gmap strings pretty.
From Stdlib Require Import ZArith Lia Ascii.
From S2P Require Import Prelude Json OrtcExtended OrtcDerive SdpWrite RemoteSdp RemoteSdpSpec MediaSectionSpec WebRtc PeerConnection Handler Transport.

Definition lines (l : list string) : string := fold_right (fun x r => x +:+ crlf +:+ r) "" l.

Definition sample_header : list string :=
  [ "v=0"; "o=- 1 2 IN IP4 127.0.0.1"; "s=-"; "t=0 0"; "a=msid-semantic: WMS" ].
Definition sample_media (i : nat) (kind : string) : list string :=
  [ "m=" +:+ kind +:+ " 9 UDP/TLS/RTP/SAVPF 111"; "c=IN IP4 0.0.0.0"; "a=ice-ufrag:u"; "a=ice-pwd:p";
    "a=fingerprint:sha-256 AA:BB"; "a=setup:actpass"; "a=mid:" +:+ pretty i;
    "a=extmap:1 urn:ietf:params:rtp-hdrext:ssrc-audio-level"; "a=sendrecv"; "a=rtcp-mux";
    "a=rtpmap:111 opus/48000/2"; "a=ssrc:1000 cname:c"; "a=ssrc:1000 msid:s t" ].
Definition sample_sdp (l : list Transceiver) : string :=
  lines (sample_header ++ concat (imap (fun i x => sample_media i (media_type x)) l)).

(** The local description is the state of this engine. *)
Definition with_mids (n : native (option string)) (sdp : string) : native (option string) :=
  mkNative (tracks n)
    (imap (fun i x => mkTransceiver (media_type x) (Some (pretty i)) (direction x) (stopped x) (sender_track x)
       (sender_stopped x) (sender_streams x) (init_encodings x) (channel x) (disabled_rids x) (last_transaction_id x)
       (receiver_track x)) (transceivers n))
    (signaling_closed n) (ice_servers n) (next_uuid n) (Some sdp).

#[export] Instance sample_engine : Engine (option string) := {|
  session_description := string;
  create_description _ sdp := inr sdp;
  native_create_offer _ n := (inr (sample_sdp (transceivers n)), n);
  native_create_answer n := (inr (sample_sdp (transceivers n)), n);
  native_set_local sdp n := (None, with_mids n sdp);
  native_set_remote _ n := (None, n);
  native_local_description n := engine n;
  native_remote_description _ := None;
  native_set_configuration _ n := (None, n);
  native_set_send_parameters _ _ n := (None, n);
  native_stats _ _ := "";
  native_close n := (tracks n, engine n);
|}.

#[export] Instance sample_factory : ConnectionFactory (option string) := {| threads_start := true; create_connection _ := Some None |}.

#[export] Instance sample_application : Application := {|
  app_connect _ _ := Ok tt;
  app_state_change _ _ := Ok tt;
  app_produce before _ _ _ := Ok (pretty (length before));
  app_producer_closed _ _ := Ok tt;
  app_consumer_closed _ _ := Ok tt;
|}.
#[export] Existing Instance sample_dump.

Definition sample_tracks : gmap nat Track := <[0 := mkTrack "audio" "t0" true false]> (<[1 := mkTrack "video" "t1" true false]> ∅).

Definition sample_can : gmap string bool := <["audio" := true]> (<["video" := true]> ∅).
Definition sample_send_transport : outcome (SendTransport.SendTransport (option string)) :=
  SendTransport.newSendTransport "id" sample_ice sample_candidates sample_dtls JNull None sample_tracks sample_extended
    sample_can (JObject []).
