(* ===== verification/Preserve.v ===== *)
(** * What the handlers keep

    The calculus of Keeps.v for the operations of the handlers: a relation that
    allows every change of the connection, of the remote description and of the
    transceiver map is kept by all of them. *)

From stdpp Require Import base list gmap strings.
From S2P Require Import Prelude Json SdpWrite RemoteSdp WebRtc PeerConnection Handler Keeps.

(** The transport is set up only while it is not ready. *)
Ltac keep_special ::=
  match goal with
  | |- keeps _ (bind get (fun s => bind (when (negb (transportReady _)) _) _)) => apply keeps_get_when; [apply _|..]
  end.

(** ** Handlers

    A relation of listener and handler is kept by the operations of the handler
    if it allows every change of the connection, of the remote description and
    of the transceiver map, and if [SetupTransport], which is only called while
    the transport is not ready, keeps it. *)

Record handler_frame {E L : Type} `{!Engine E, !HandlerListener L, !JsonDump}
    (R : L * Handler E -> L * Handler E -> Prop) : Prop := {
  hf_preorder : PreOrder R;
  hf_pc : forall l h n, R (l, h) (l, with_pc (Some n) h);
  hf_sdp : forall l h r, R (l, h) (l, with_remoteSdp r h);
  hf_map : forall l h m, R (l, h) (l, with_transceiver_map m h);
  hf_setup : forall role j s, transportReady s.2 = false -> R s (SetupTransport role j s).2;
}.

Section handler.
Context {E L : Type} `{!Engine E, !HandlerListener L, !JsonDump}.
Context (R : L * Handler E -> L * Handler E -> Prop) (F : handler_frame R).
#[local] Instance frame_preorder : PreOrder R := hf_preorder R F.

Lemma on_pc_keeps {A} (m : M (native E) A) : keeps R (on_pc m).
Proof. apply keeps_zoom_any; [apply _|]. intros [l h] t. apply F. Qed.
Lemma on_remoteSdp_keeps {A} (m : M RemoteSdp A) : keeps R (on_remoteSdp m).
Proof. apply keeps_zoom_any; [apply _|]. intros [l h] t. apply F. Qed.
Lemma store_transceiver_keeps (f : Handler E -> gmap string nat) : keeps R (on_self (fun h => with_transceiver_map (f h) h)).
Proof. intros [l h]. apply F. Qed.
Lemma setup_keeps role j (s : L * Handler E) : negb (transportReady s.2) = true -> R s (SetupTransport role j s).2.
Proof. intros Hr%negb_true_iff. by apply F. Qed.
Hint Resolve on_pc_keeps on_remoteSdp_keeps store_transceiver_keeps setup_keeps : keeps.

Lemma find_transceiver_keeps localId : keeps R (find_transceiver localId).
Proof. unfold find_transceiver. keep. Qed.
Hint Resolve find_transceiver_keeps : keeps.

Lemma handler_Close_keeps : keeps R Handler.Close.
Proof. unfold Handler.Close. keep. Qed.
Lemma GetTransportStats_keeps : keeps R GetTransportStats.
Proof. unfold GetTransportStats. keep. Qed.
Lemma UpdateIceServers_keeps uris : keeps R (UpdateIceServers uris).
Proof. unfold UpdateIceServers. keep. Qed.
Lemma Receive_keeps id kind params : keeps R (RecvHandler.Receive id kind params).
Proof. unfold RecvHandler.Receive. keep. Qed.
Lemma recv_renegotiate_keeps : keeps R RecvHandler.renegotiate.
Proof. unfold RecvHandler.renegotiate. keep. Qed.
Hint Resolve recv_renegotiate_keeps : keeps.
Lemma StopReceiving_keeps localId : keeps R (RecvHandler.StopReceiving localId).
Proof. unfold RecvHandler.StopReceiving. keep. Qed.
Lemma recv_RestartIce_keeps ice : keeps R (RecvHandler.RestartIce ice).
Proof. unfold RecvHandler.RestartIce. keep. Qed.
Lemma GetReceiverStats_keeps localId : keeps R (RecvHandler.GetReceiverStats localId).
Proof. unfold RecvHandler.GetReceiverStats. keep. Qed.

(** The sending handler has sending parameters besides. *)
Import SendHandler.
Definition of_handler (s s' : L * SendHandler E) : Prop := R (s.1, handler s.2) (s'.1, handler s'.2).
#[local] Instance of_handler_preorder : PreOrder of_handler.
Proof.
  split; [intros s|intros s t u]; unfold of_handler; [reflexivity|]. intros H1 H2. by transitivity (t.1, handler t.2).
Qed.

Lemma on_handler_keeps {A} (m : M (L * Handler E) A) : keeps R m -> keeps of_handler (on_handler m).
Proof. intros Hm. eapply keeps_zoom; [apply _|exact Hm|]. by intros s t t' [= <-]; destruct t'. Qed.
Lemma on_native_keeps {A} (m : M (native E) A) : keeps of_handler (on_native m).
Proof. apply on_handler_keeps, on_pc_keeps. Qed.
Lemma on_params_keeps {A} kind (m : M json A) : keeps of_handler (on_params kind m).
Proof. apply keeps_zoom_any; [apply _|]. intros s t. unfold of_handler. reflexivity. Qed.
Lemma on_remoteSdp_params_keeps {A} kind (m : M (RemoteSdp * json) A) : keeps of_handler (on_remoteSdp_params kind m).
Proof. apply keeps_zoom_any; [apply _|]. intros s t. unfold of_handler. apply F. Qed.
Lemma on_answer_keeps {A} (m : M json A) : keeps of_handler
  (zoom (fun s => Some (sendingRemoteRtpParametersByKind s.2)) (fun j s => (s.1, with_sending_remote j s.2)) m).
Proof. apply keeps_zoom_any; [apply _|]. intros s t. unfold of_handler. reflexivity. Qed.
Lemma send_setup_keeps role j (s : L * SendHandler E) : negb (transportReady (handler s.2)) = true ->
  of_handler s (on_handler (SetupTransport role j) s).2.
Proof.
  intros Hr%negb_true_iff. unfold on_handler, zoom. pose proof (hf_setup _ F role j (s.1, handler s.2) Hr) as HR.
  destruct (SetupTransport role j _) as [o [l h]]. exact HR.
Qed.
Hint Resolve on_handler_keeps on_native_keeps on_params_keeps on_remoteSdp_params_keeps on_answer_keeps send_setup_keeps : keeps.

Lemma send_offer_keeps t kind : keeps of_handler (send_offer t kind).
Proof. unfold send_offer. keep. Qed.
Hint Resolve send_offer_keeps : keeps.
Lemma Send_keeps track encs options : keeps of_handler (Send track encs options).
Proof. unfold Send. keep. Qed.
Lemma send_renegotiate_keeps b : keeps of_handler (renegotiate b).
Proof. unfold renegotiate. keep. Qed.
Hint Resolve send_renegotiate_keeps : keeps.
Lemma StopSending_keeps localId : keeps of_handler (StopSending localId).
Proof. unfold StopSending. keep. Qed.
Lemma ReplaceTrack_keeps localId track : keeps of_handler (ReplaceTrack localId track).
Proof. unfold ReplaceTrack. keep. Qed.
Lemma SetMaxSpatialLayer_keeps localId layer : keeps of_handler (SetMaxSpatialLayer localId layer).
Proof. unfold SetMaxSpatialLayer. keep. Qed.
Lemma GetSenderStats_keeps localId : keeps of_handler (GetSenderStats localId).
Proof. unfold GetSenderStats. keep. Qed.
Lemma send_RestartIce_keeps ice : keeps of_handler (SendHandler.RestartIce ice).
Proof. unfold SendHandler.RestartIce. keep. Qed.
End handler.
