(* ===== verification/HandlerSpec.v ===== *)
(** * Properties of the handlers

    A handler implements the abstract description of RemoteSdpSpec.v: sending
    opens a section or reuses a closed one, stopping closes it, and every
    negotiation raises the version.  The hypotheses say what libwebrtc and the
    listener answer in a negotiation that succeeds. *)

From stdpp Require Import base list gmap strings pretty.
From Stdlib Require Import ZArith Lia Ascii.
From S2P Require Import Prelude Json Text OrtcValidate OrtcValidateSpec OrtcCaps OrtcMatch OrtcExtended OrtcDerive Utils.
From S2P Require Import MediaSection MediaSectionSpec Regex Grammar SdpWrite SdpParse SdpUtils SdpUtilsSpec RemoteSdp RemoteSdpSpec SdpSpec.
From S2P Require Import WebRtc PeerConnection Producer Consumer Handler Transport Sample Keeps Preserve.

(** ** The sending parameters *)

Definition nullable_object (j : json) : bool := is_null j || is_object j.

Lemma set_key_nullable k v j : nullable_object j = true -> exists j', set_key k v j = (Ok tt, j') /\ is_object j' = true.
Proof. destruct j; try done; intros _; eexists; (split; [reflexivity|done]). Qed.

Lemma wp_set_nullable k v (Q : unit -> json -> Prop) X j : nullable_object j = true ->
  (forall j', is_object j' = true -> Q tt j') -> wp (set_key k v) Q X j.
Proof. intros Hj HQ. destruct (set_key_nullable k v j Hj) as (j' & E & Ho). unfold wp. rewrite E. by apply HQ. Qed.

Lemma object_nullable j : is_object j = true -> nullable_object j = true.
Proof. by destruct j. Qed.

Lemma wp_set_opt {A} k (f : A -> json) o (Q : unit -> json -> Prop) X j : is_object j = true ->
  (forall j', is_object j' = true -> Q tt j') -> wp (set_opt k f o) Q X j.
Proof. intros Hj HQ. destruct o; cbn; [|by apply HQ]. apply wp_set_nullable; [by apply object_nullable|done]. Qed.

(** An encoding of libwebrtc becomes a JSON object. *)
Lemma fill_ok e j : nullable_object j = true -> exists j', fillJsonRtpEncodingParameters e j = (Ok tt, j') /\ is_object j' = true.
Proof.
  intros Hj. assert (wp (fillJsonRtpEncodingParameters e) (fun _ j' => is_object j' = true) (fun _ _ => False) j) as Hw.
  { unfold fillJsonRtpEncodingParameters. apply wp_bind, wp_set_nullable; [done|]. intros j1 H1.
    apply wp_bind, wp_when; intros _; [apply wp_set_nullable; [by apply object_nullable|]; intros j2 H2|];
    do 4 (apply wp_bind, wp_set_opt; [done|]; intros ? ?);
    (apply wp_bind, wp_when; intros _; [apply wp_set_nullable; [by apply object_nullable|]; intros ? ?|];
     (apply wp_set_nullable; [by apply object_nullable|done])). }
  unfold wp in Hw. destruct (fillJsonRtpEncodingParameters e j) as [[[]|x|] j']; [|done..]. by exists j'.
Qed.

Definition filled (e : RtpEncodingParameters) (j : json) : json := (fillJsonRtpEncodingParameters e j).2.
Lemma fill_filled e j : nullable_object j = true -> fillJsonRtpEncodingParameters e j = (Ok tt, filled e j) /\ is_object (filled e j) = true.
Proof. intros Hj. destruct (fill_ok e j Hj) as (j' & E & Ho). unfold filled. by rewrite E. Qed.

Lemma set_each k v l : Forall (fun j => is_object j = true) l -> each (set_key k v) l = (Ok tt, map (jset k v) l).
Proof. induction 1 as [|j l Hj _ IH]; cbn [each map]; [done|]. by rewrite (set_key_jset _ _ _ Hj), IH. Qed.

(** [P'] is [P] with another value for one key. *)
Definition updated (k : string) (v : json) (P P' : json) : Prop :=
  is_object P' = true /\ find k P' = Some v /\ forall k', k' <> k -> find k' P' = find k' P.
Lemma find_jset_same k v j : is_object j = true -> find k (jset k v j) = Some v.
Proof. intros Hj. by rewrite jset_find, String.eqb_refl. Qed.
#[local] Hint Resolve find_jset_same : media.
Lemma jset_updated k v P : is_object P = true -> updated k v P (jset k v P).
Proof.
  intros HP. split_and!; [auto with media|by rewrite jset_find, String.eqb_refl|].
  intros k' Hk. rewrite jset_find by done. by apply String.eqb_neq in Hk as ->.
Qed.
Lemma updated_again k v v' P P' P'' : updated k v P P' -> updated k v' P' P'' -> updated k v' P P''.
Proof. intros (_ & _ & H1) (H2 & H3 & H4). split_and!; [done..|]. intros k' Hk. by rewrite H4, H1. Qed.

(** The encodings that are announced: those of the offer, the first of them
    completed with the one that was given, or all that were given. *)
Definition sent_encodings (encs : option (list RtpEncodingParameters)) (es : list json) : list json :=
  match encs with
  | None | Some [] => es
  | Some [e] => match es with e0 :: r => filled e e0 :: r | [] => [] end
  | Some l => map (fun e => filled e JNull) l
  end.

Lemma push_encodings l acc P : is_object P = true -> find "encodings" P = Some (JArray acc) ->
  exists P', for_list l (fun e =>
    jsonEncoding <- lift (let '(o, j) := fillJsonRtpEncodingParameters e JNull in let! _ := o in Ok j) ;;
    at_key "encodings" (push_back jsonEncoding)) P = (Ok tt, P') /\
    updated "encodings" (JArray (acc ++ map (fun e => filled e JNull) l)) P P'.
Proof.
  revert acc P. induction l as [|e l IH]; intros acc P HP Hf; cbn [for_list map].
  - exists P. rewrite app_nil_r. by split.
  - destruct (fill_filled e JNull eq_refl) as [Ee _]. rewrite Ee. cbn [obind].
    pose proof (at_key_find "encodings" (push_back (filled e JNull)) P _ _ _ HP Hf eq_refl) as Ep.
    erewrite bind_ok by (rewrite lift_bind; exact Ep).
    destruct (IH (acc ++ [filled e JNull]) (jset "encodings" (JArray (acc ++ [filled e JNull])) P)) as (P' & E' & U);
      [auto with media|by rewrite jset_find by done|].
    exists P'. split; [exact E'|]. rewrite <- app_assoc in U. eapply updated_again; [|exact U]. by apply jset_updated.
Qed.

Lemma send_encodings_ok P offer encs es : is_object P = true -> getRtpEncodings offer = Ok (JArray es) -> es <> [] ->
  Forall (fun j => is_object j = true) es ->
  exists P', SendHandler.send_encodings_of encs offer P = (Ok tt, P') /\
    updated "encodings" (JArray (sent_encodings encs es)) P P' /\ Forall (fun j => is_object j = true) (sent_encodings encs es).
Proof.
  intros HP Hes Hne Hob. unfold SendHandler.send_encodings_of, sent_encodings.
  destruct encs as [[|e [|e' l]]|].
  - rewrite Hes, lift_bind, set_key_jset by done. eexists. split; [done|]. split; [by apply jset_updated|done].
  - destruct es as [|e0 r]; [done|]. inversion_clear Hob as [|?? H0 Hr]. rewrite Hes, lift_bind. cbn [at_elem lookup list_lookup].
    destruct (fill_filled e e0) as [Ee Ho]; [by apply object_nullable|]. rewrite Ee. cbn [obind].
    rewrite lift_bind, set_key_jset by done. eexists. split; [done|]. split; [by apply jset_updated|by constructor].
  - rewrite (bind_ok _ _ _ _ _ (set_key_jset _ _ _ HP)).
    destruct (push_encodings (e :: e' :: l) [] (jset "encodings" (JArray []) P)) as (P' & E' & U);
      [auto with media|by rewrite jset_find by done|].
    exists P'. split; [exact E'|]. split; [eapply updated_again; [by apply jset_updated|exact U]|].
    apply Forall_fmap, Forall_true. intros x. by apply fill_filled.
  - rewrite Hes, lift_bind, set_key_jset by done. eexists. split; [done|]. split; [by apply jset_updated|done].
Qed.

(** With effective simulcast of VP8 or H264, every encoding gets the mode. *)
Definition with_mode (mime : string) (es : list json) : list json :=
  if (1 <? length es)%nat && (String.eqb (lower mime) "video/vp8" || String.eqb (lower mime) "video/h264")
  then map (jset "scalabilityMode" (JString "S1T3")) es else es.

Lemma at_key_same {A} k (m : M json A) j v r : is_object j = true -> find k j = Some v -> m v = (r, v) -> at_key k m j = (r, j).
Proof.
  destruct j as [| | | | | | |o]; try done. cbn [find]. intros _ Hf E. unfold at_key. rewrite Hf. cbn. rewrite E. by rewrite obj_insert_id.
Qed.

Lemma send_scalability_ok P c cs mime es : is_object P = true -> find "codecs" P = Some (JArray (c :: cs)) ->
  is_object c = true -> find "mimeType" c = Some (JString mime) -> find "encodings" P = Some (JArray es) ->
  Forall (fun j => is_object j = true) es ->
  exists P', SendHandler.send_scalability P = (Ok tt, P') /\ updated "encodings" (JArray (with_mode mime es)) P P'.
Proof.
  intros HP Hcs Hc Hm He Hob. unfold SendHandler.send_scalability, with_mode.
  assert (at_key "codecs" (at_idx 0 (get_key "mimeType")) P = (Ok (JString mime), P)) as E1.
  { eapply at_key_same; [done..|]. erewrite at_idx_in; [|reflexivity|by apply get_key_same]. done. }
  rewrite (bind_ok _ _ _ _ _ E1). cbn [get_string]. rewrite lift_bind, (bind_ok _ _ _ _ _ (get_key_same _ _ _ HP He)).
  cbn [json_size elems]. destruct (_ && _); cbn [when]; [|by exists P].
  eexists. split; [|by apply jset_updated]. eapply at_key_find; [done..|].
  unfold for_range. by rewrite (set_each _ _ _ Hob).
Qed.

(** An answer may change the codecs of the sending parameters, nothing else. *)
Definition same_but (k : string) (j j' : json) : Prop := forall k', k' <> k -> find k' j' = find k' j.
#[export] Instance same_but_preorder k : PreOrder (same_but k).
Proof. split; red; unfold same_but; [done|]. intros x y z H1 H2 k' Hk. by rewrite H2, H1. Qed.
Lemma at_key_same_but {A} k (m : M json A) : keeps (same_but k) (at_key k m).
Proof.
  intros j k' Hk. destruct j as [| | | | | | |o]; try done; cbn [at_key].
  - destruct (m JNull) as [r v]. cbn. by apply String.eqb_neq in Hk as ->.
  - destruct (m _) as [r v]. cbn [snd find]. rewrite obj_lookup_insert. by apply String.eqb_neq in Hk as ->.
Qed.
Hint Resolve at_key_same_but : keeps.
Lemma opusOption_same_but o li n ok ak p : keeps (same_but "codecs") (opusOption o li n ok ak p).
Proof. unfold opusOption. keep. Qed.
Lemma uintOption_same_but o n k p : keeps (same_but "codecs") (uintOption o n k p).
Proof. unfold uintOption. keep. Qed.
Hint Resolve opusOption_same_but uintOption_same_but : keeps.
Lemma applyCodecOptions_same_but o c p : keeps (same_but "codecs") (applyCodecOptions o c p).
Proof. unfold applyCodecOptions, get_key. cbv zeta. keep. Qed.
Hint Resolve applyCodecOptions_same_but : keeps.
Lemma answerCodecs_same_but o l : keeps (same_but "codecs") (answerCodecs o l).
Proof. induction l as [|c l IH]; cbn [answerCodecs]; unfold answerCodec; keep. Qed.
Hint Resolve answerCodecs_same_but : keeps.
Lemma AnswerMediaSection_same_but ice cands dtls sctp offer answer options :
  keeps (same_but "codecs") (AnswerMediaSection ice cands dtls sctp offer answer options).
Proof. unfold AnswerMediaSection, answerMedia. keep. Qed.
Lemma remote_Send_same_but offer reuseMid answer options :
  keeps (fun s s' => same_but "codecs" s.2 s'.2) (RemoteSdp.Send offer reuseMid answer options).
Proof.
  assert (PreOrder (fun s s' : RemoteSdp * json => same_but "codecs" s.2 s'.2)) as Hp.
  { split; red; [done|]. intros x y z H1 H2. by etrans. }
  unfold RemoteSdp.Send. keep; [|by apply keeps_zoom_any].
  eapply keeps_zoom; [done|apply AnswerMediaSection_same_but|]. by intros s t t' [= <-].
Qed.

(** ** The abstract description of a handler *)

(** A new section takes the place of the first closed one, or comes last. *)
Definition opened (mid : string) (l : list (string * bool)) : list (string * bool) :=
  match list_find (fun x => x.2 = true) l with
  | Some (i, _) => <[i := (mid, false)]> l
  | None => l ++ [(mid, false)]
  end.
(** The mid is not that of another section. *)
Definition mid_free (mid : string) (l : list (string * bool)) : Prop :=
  mid <> "" /\
  match list_find (fun x => x.2 = true) l with
  | Some (i, _) => fresh_at l i mid
  | None => (mid ∉ mids l)
  end.

Lemma remote_Send_ok r d offer P answer options mid : remote_ok r d -> sendable offer P answer options mid ->
  mid_free mid (d_sections d) ->
  exists r' P', RemoteSdp.Send offer (next_section 0 (d_sections d)).2 answer options (r, P) = (Ok tt, (r', P')) /\
    remote_ok r' (set_sections (opened mid (d_sections d)) d) /\ same_but "codecs" P P'.
Proof.
  intros Hr Hs [Hne Hfree].
  pose proof (remote_Send_same_but offer (next_section 0 (d_sections d)).2 answer options (r, P)) as Hk.
  unfold next_section, opened in *. destruct (list_find _ (d_sections d)) as [[i [old c]]|] eqn:Hf; cbn [fst snd] in *.
  - apply list_find_Some in Hf as (Hi & Hc & _). cbn in Hc. subst c.
    destruct (Send_section r d offer old P answer options mid) as (s & p & His & E); [done..|].
    destruct (ReplaceMediaSection_ok r d i old s mid) as (r' & Er & Hok & _); [done..|].
    assert (String.eqb old "" = false) as Hold.
    { apply String.eqb_neq. pose proof (gs_nonempty _ (ro_good _ _ Hr)) as He. rewrite Forall_lookup in He. by eapply He in Hi. }
    rewrite Hold in E. cbn [negb] in E. rewrite (on_remote_sdp_ok _ _ _ _ _ Er) in E. rewrite E in *. by exists r', p.
  - destruct (Send_section r d offer "" P answer options mid) as (s & p & His & E); [done..|].
    destruct (AddMediaSection_ok r d s mid) as (r' & Er & Hok & _); [done..|].
    cbn [negb String.eqb] in E. rewrite (on_remote_sdp_ok _ _ _ _ _ Er) in E. rewrite E in *. by exists r', p.
Qed.

Lemma try_ok {S A} (m : M S A) p h s a s' : m s = (Ok a, s') -> try_catch m p h s = (Ok a, s').
Proof. unfold try_catch. by intros ->. Qed.

Lemma parsed_nonempty sdp j : parse sdp = Ok j -> json_empty j = false.
Proof.
  destruct (parse_ok sdp) as (session & media & -> & Ho & Hm & _). intros [= <-].
  destruct session as [| | | | | | |[|kv o]]; done.
Qed.

(** What [extractDtlsParameters] returns is an object. *)
Lemma dtls_object j d : extractDtlsParameters j = Ok d -> is_object d = true.
Proof.
  unfold extractDtlsParameters. destruct (idx "media" j); cbn [obind]; [|done..].
  destruct (ofind_if _ _) as [it|e|]; cbn [obind]; [|done..].
  destruct (match find "setup" _ with Some v => _ | None => _ end); cbn [obind]; [|done..].
  destruct (get_key _ _) as [[v|e|] f]; cbn [obind]; [|done..]. destruct (ref_get _ _); cbn [obind]; [|done..].
  by intros [= <-].
Qed.

(** ** The codec parameters of a receiver's answer *)

(** The lines of a section that [applyCodecParameters] goes through. *)
Definition fmtp_line (f : json) : bool := is_object f && contains "payload" f && key_ok "config" is_string f.
Record answer_lines (m : json) : Prop := {
  al_object : is_object m = true;
  al_rtp : exists l, find "rtp" m = Some (JArray l) /\ Forall (fun x => contains "payload" x = true) l;
  al_fmtp : exists l, find "fmtp" m = Some (JArray l) /\ Forall (fun x => fmtp_line x = true) l;
}.

Lemma apply_config_ok c l : exists s, apply_config c l = Ok s.
Proof.
  revert c. induction l as [|[k v] l IH]; intros c; cbn [apply_config]; [by eexists|].
  assert (exists s, apply_value v = Ok s) as [s ->] by (destruct v; by eexists). cbn [obind]. apply IH.
Qed.

Lemma samePayload_ok c x : contains "payloadType" c = true -> contains "payload" x = true ->
  samePayload c x = Ok (json_eqb (member "payload" x) (member "payloadType" c)).
Proof. intros Hc Hx. unfold samePayload. by rewrite (idx_find _ _ _ (contains_member _ _ Hx)), (idx_find _ _ _ (contains_member _ _ Hc)). Qed.

Lemma applyStereo_ok c f : contains "parameters" c = true -> fmtp_line f = true ->
  exists f', applyStereo c f = (Ok tt, f') /\ fmtp_line f' = true.
Proof.
  unfold fmtp_line. intros Hc Hf. split_keys. match goal with K : key_ok "config" _ f = true |- _ => destruct (key_ok_find _ _ _ K) as [Hcf Hs] end.
  destruct (member "config" f) as [| | | | |config| |]; try done. unfold applyStereo.
  rewrite (bind_ok _ _ _ _ _ (get_key_same _ _ _ ltac:(done) Hcf)). cbn [get_string]. rewrite lift_bind. cbv zeta.
  rewrite (idx_find _ _ _ (contains_member _ _ Hc)), lift_bind.
  edestruct (apply_config_ok "" (items (match find "sprop-stereo" (member "parameters" c) with
    | Some (JBool b) => jset "stereo" (JInt (if b then 1 else 0)) (parseParams config) | _ => parseParams config end))) as [s Es].
  rewrite Es, lift_bind, set_key_jset by done. eexists. split; [done|].
  unfold contains, key_ok in *. media_find. rewrite jset_object by done. by destruct (find "payload" f).
Qed.

Definition codec_line (c : json) : Prop :=
  key_ok "mimeType" is_string c = true /\ contains "payloadType" c = true /\ contains "parameters" c = true.

Lemma set_fmtp_ok l m : answer_lines m -> Forall (fun x => fmtp_line x = true) l ->
  answer_lines (jset "fmtp" (JArray l) m) /\ same_but "fmtp" m (jset "fmtp" (JArray l) m).
Proof.
  intros [Ho (rl & Hr & Hrl) _] Hl. split.
  - split; [auto with media|exists rl; by media_find|exists l; by media_find].
  - intros k Hk. rewrite jset_find by done. by apply String.eqb_neq in Hk as ->.
Qed.
Lemma edit_line_ok c m fl i f : codec_line c -> answer_lines m -> find "fmtp" m = Some (JArray fl) ->
  Forall (fun x => fmtp_line x = true) fl -> fl !! i = Some f ->
  exists m', at_key "fmtp" (at_elem i (applyStereo c)) m = (Ok tt, m') /\ answer_lines m' /\ same_but "fmtp" m m'.
Proof.
  intros (_ & _ & Hpa) Hm Hf Hfl Hi. pose proof Hfl as Hfl'. rewrite Forall_lookup in Hfl'.
  destruct (applyStereo_ok c f Hpa (Hfl' _ _ Hi)) as (f' & Es & Hf').
  exists (jset "fmtp" (JArray (<[i := f']> fl)) m). split; [|by apply set_fmtp_ok; [done|apply Forall_insert]].
  eapply at_key_find; [apply Hm|exact Hf|]. cbn [at_elem]. by rewrite Hi, Es.
Qed.

Lemma applyCodec_ok c m : codec_line c -> answer_lines m ->
  exists m', applyCodec c m = (Ok tt, m') /\ answer_lines m' /\ same_but "fmtp" m m'.
Proof.
  intros (Hmi & Hpt & Hpa) Hm. pose proof Hm as [Ho (rl & Hr & Hrl) (fl & Hf & Hfl)].
  destruct (key_ok_find _ _ _ Hmi) as [Fmi Hs]. unfold applyCodec. rewrite (idx_find _ _ _ Fmi), lift_bind.
  destruct (member "mimeType" c) as [| | | | |mime| |]; try done. cbn [get_string]. rewrite lift_bind.
  destruct (negb _); [by exists m|]. rewrite (bind_ok _ _ _ _ _ (get_key_same _ _ _ Ho Hr)). cbn [elems].
  pose (q x := json_eqb (member "payload" x) (member "payloadType" c)).
  rewrite (ofind_if_list_find _ q) by (eapply Forall_impl; [exact Hrl|]; intros x Hx; by apply samePayload_ok).
  rewrite lift_bind. destruct (list_find _ rl); cbn [fmap option_fmap option_map]; [|by exists m].
  rewrite (bind_ok get _ _ _ _ eq_refl). unfold contains at 1. rewrite Hf. cbn [negb when].
  rewrite (bind_ok (ret tt) _ _ _ _ eq_refl), (bind_ok _ _ _ _ _ (get_key_same _ _ _ Ho Hf)). cbn [elems].
  rewrite (ofind_idx_list_find _ q) by (eapply Forall_impl; [exact Hfl|]; intros x Hx; unfold fmtp_line in Hx; split_keys; by apply samePayload_ok).
  rewrite lift_bind. destruct (list_find (fun x => q x) fl) as [[i f]|] eqn:El; cbn [fmap option_fmap option_map].
  - rewrite (bind_ok (ret _) _ _ _ _ eq_refl). apply list_find_Some in El as (Hi & _). by eapply edit_line_ok.
  - rewrite (idx_find _ _ _ (contains_member _ _ Hpt)).
    pose (f := mk_obj [("payload", member "payloadType" c); ("config", JString "")]).
    assert (Forall (fun x => fmtp_line x = true) (fl ++ [f])) as Hfl' by (apply Forall_app; by repeat constructor).
    destruct (set_fmtp_ok _ _ Hm Hfl') as [Hm1 Hs1]. set (m1 := jset _ _ m) in *.
    destruct (edit_line_ok c m1 (fl ++ [f]) (length fl) f) as (m' & E' & Hm' & Hs'); [done|done| |done|by apply list_lookup_middle|].
    { unfold m1. auto with media. }
    exists m'. split_and!; [|done|by etrans].
    erewrite bind_ok; [exact E'|]. rewrite lift_bind. erewrite bind_ok; [reflexivity|]. by eapply at_key_find.
Qed.

Lemma applyCodecParameters_ok params m : normalRtpParameters params = true -> answer_lines m ->
  exists m', applyCodecParameters params m = (Ok tt, m') /\ answer_lines m' /\ same_but "fmtp" m m'.
Proof.
  unfold normalRtpParameters. intros Hp Hm. split_keys.
  match goal with K : key_ok "codecs" _ params = true |- _ => destruct (key_ok_find _ _ _ K) as [Hc Hn] end.
  unfold applyCodecParameters. rewrite (idx_find _ _ _ Hc), lift_bind.
  destruct (member "codecs" params) as [| | | | | |l|]; try done. cbn [elems array_of] in *. clear Hc. apply Forall_forallb in Hn.
  revert m Hm. induction Hn as [|c l Hcn _ IH]; intros m Hm; cbn [for_list]; [by exists m|].
  destruct (applyCodec_ok c m) as (m1 & E1 & Hm1 & Hs1); [|done|].
  { destruct (normal_codec_members c Hcn) as (kind & p & fbs & ? & Hpt & _ & _ & _ & Hpar & _). split_and!; [done|..].
    - unfold contains. by rewrite (proj1 (key_ok_find _ _ _ Hpt)).
    - unfold contains. by rewrite Hpar. }
  rewrite (bind_ok _ _ _ _ _ E1). destruct (IH m1 Hm1) as (m2 & E2 & Hm2 & Hs2). exists m2. split_and!; [done..|by etrans].
Qed.

(** ** Telling the listener *)

Section setup.
Context {E L : Type} `{!Engine E, !HandlerListener L, !JsonDump}.

(** What the listener does when the handler is not ready yet. *)
Definition connects (b : bool) (role : string) (j : json) (l l' : L) : Prop :=
  if b then l' = l
  else exists dtls, extractDtlsParameters j = Ok dtls /\ OnConnect (jset "role" (JString role) dtls) l = (Ok tt, l').

Lemma setup_ok role j l n r d mp l' : remote_ok r d -> match_words ["client"; "server"] role = true -> json_empty j = false ->
  connects false role j l l' ->
  exists r', SetupTransport role j (l, mkHandler (Some n) r false mp) = (Ok tt, (l', mkHandler (Some n) r' true mp)) /\ remote_ok r' d.
Proof.
  intros Hr Hrole Hj (dtls & Hd & Hc).
  destruct (UpdateDtlsRole_ok r d (if String.eqb role "client" then "server" else "client") Hr) as (r' & Er & Hok).
  { by destruct (String.eqb role "client"). }
  exists r'. split; [|done]. unfold SetupTransport. rewrite Hj.
  rewrite (bind_ok (ret j) _ _ _ _ eq_refl), Hd, lift_bind, set_key_jset by (by eapply dtls_object). cbn [obind].
  rewrite lift_bind. cbv zeta.
  erewrite bind_ok by (unfold on_remoteSdp, zoom; cbn; by rewrite Er).
  erewrite bind_ok by (unfold on_listener, zoom; cbn; by rewrite Hc). done.
Qed.
Lemma when_setup_ok role j l n r d b mp l' : remote_ok r d -> match_words ["client"; "server"] role = true -> json_empty j = false ->
  connects b role j l l' ->
  exists r', when (negb b) (SetupTransport role j) (l, mkHandler (Some n) r b mp) = (Ok tt, (l', mkHandler (Some n) r' true mp)) /\ remote_ok r' d.
Proof.
  intros Hr Hrole Hj Hc. destruct b; cbn [negb when]; [|by eapply setup_ok].
  cbn in Hc. subst l'. by exists r.
Qed.
End setup.

(** ** Sending *)

Module Sending.
Import SendHandler.

Section sending.
Context {E L : Type} `{!Engine E, !HandlerListener L, !JsonDump}.

Definition st (l : L) (n : native E) (r : RemoteSdp) (b : bool) (mp : gmap string nat) (sp rp : json) : L * SendHandler E :=
  (l, mkSendHandler (mkHandler (Some n) r b mp) sp rp).

Lemma st_native {A} (m : M (native E) A) l n r b mp sp rp o n' : m n = (o, n') ->
  on_native m (st l n r b mp sp rp) = (o, st l n' r b mp sp rp).
Proof. intros Em. unfold on_native, on_handler, on_pc, zoom. cbn. by rewrite Em. Qed.
Lemma st_handler {A} (m : M (L * Handler E) A) l n r b mp sp rp o l' n' r' b' mp' :
  m (l, mkHandler (Some n) r b mp) = (o, (l', mkHandler (Some n') r' b' mp')) ->
  on_handler m (st l n r b mp sp rp) = (o, st l' n' r' b' mp' sp rp).
Proof. intros Em. unfold on_handler, zoom. cbn. by rewrite Em. Qed.
Lemma st_remote {A} (m : M RemoteSdp A) l n r b mp sp rp o r' : m r = (o, r') ->
  on_handler (on_remoteSdp m) (st l n r b mp sp rp) = (o, st l n r' b mp sp rp).
Proof. intros Em. apply st_handler. unfold on_remoteSdp, zoom. cbn. by rewrite Em. Qed.
Lemma st_params {A} kind (m : M json A) l n r b mp sp rp P o P' : is_object sp = true -> find kind sp = Some P ->
  m P = (o, P') -> on_params kind m (st l n r b mp sp rp) = (o, st l n r b mp (jset kind P' sp) rp).
Proof. intros Ho Hf Em. unfold on_params, zoom. cbn. by rewrite (at_key_find _ _ _ _ _ _ Ho Hf Em). Qed.
Lemma st_answer kind l n r b mp sp rp answer : is_object rp = true -> find kind rp = Some answer ->
  zoom (fun s => Some (sendingRemoteRtpParametersByKind s.2)) (fun j s => (s.1, with_sending_remote j s.2)) (get_key kind)
    (st l n r b mp sp rp) = (Ok answer, st l n r b mp sp rp).
Proof. intros Ho Hf. unfold zoom. cbn. by rewrite (get_key_same _ _ _ Ho Hf). Qed.
Lemma st_remote_params {A} kind (m : M (RemoteSdp * json) A) l n r b mp sp rp P o r' P' : find kind sp = Some P ->
  m (r, P) = (o, (r', P')) ->
  on_remoteSdp_params kind m (st l n r b mp sp rp) = (o, st l n r' b mp (jset kind P' sp) rp).
Proof. intros Hf Em. unfold on_remoteSdp_params, zoom. cbn. rewrite Hf. cbn. by rewrite Em. Qed.


(** *** The new transceiver *)

(** The connection after a transceiver was added for the track at [p]. *)
Definition added (p : nat) (kind : string) (encs : list RtpEncodingParameters) (n : native E) : native E :=
  let q := fresh (dom (tracks n)) in
  mkNative (<[q := mkTrack kind (pretty (next_uuid n)) true false]> (tracks n))
    (transceivers n ++ [mkTransceiver kind None kSendOnly false (Some p) false ["0"] encs None [] None q])
    (signaling_closed n) (ice_servers n) (S (next_uuid n)) (engine n).

Lemma add_ok p tr encs encs' n : tracks n !! p = Some tr -> t_kind tr = "audio" \/ t_kind tr = "video" ->
  checkSendEncodings encs = inr encs' ->
  exists n1, AddTransceiver (Some p) (mkInit kSendRecv [] encs) n = (Ok (Some (length (transceivers n))), n1) /\
    SetDirection (length (transceivers n)) kSendOnly n1 = (Ok tt, added p (t_kind tr) encs' n).
Proof.
  intros Hp Hk He. destruct tr as [kind i en ed]. cbn [t_kind] in *. eexists. split.
  - transitivity ((r <- addTransceiver kind (Some p) (mkInit kSendRecv ["0"] encs) ;; ret (pointer r)) n).
    + unfold AddTransceiver, native_AddTransceiver_track, bind, track_at. cbn. rewrite Hp. by destruct Hk as [-> | ->].
    + unfold addTransceiver, bind. cbn. by rewrite He.
  - unfold SetDirection, bind, transceiver_at, set_transceiver. cbn. rewrite list_lookup_middle by done. cbn [stopped direction init_direction]. rewrite decide_False by done.
    unfold with_transceivers, added, with_direction. cbn. rewrite insert_app_r_alt, Nat.sub_diag by lia. done.
Qed.
Lemma added_track p q tr kind encs n : tracks n !! p = Some tr -> tracks (added q kind encs n) !! p = Some tr.
Proof.
  intros Hp. cbn. rewrite lookup_insert_ne; [done|]. intros Hq. apply (is_fresh (dom (tracks n))).
  rewrite Hq. by apply elem_of_dom_2 in Hp.
Qed.

(** *** The sending parameters *)

Record sending (P answer : json) (options : option json) (mime : string) : Prop := {
  sd_object : is_object P = true;
  sd_rtcp : exists rtcp, find "rtcp" P = Some rtcp /\ is_object rtcp = true;
  sd_codecs : exists c cs, find "codecs" P = Some (JArray (c :: cs)) /\ is_object c = true /\
    find "mimeType" c = Some (JString mime);
  sd_answer : answer_parameters answer;
  sd_offered : exists pts, offered P pts /\ Forall (options_fit options pts) (codecs_of answer);
}.

Lemma sending_same P P' answer options mime : sending P answer options mime -> is_object P' = true ->
  find "codecs" P' = find "codecs" P -> find "rtcp" P' = find "rtcp" P -> sending P' answer options mime.
Proof.
  intros [Ho (rtcp & Hr & Hro) (c & cs & Hc & ?) Ha (pts & [(o & l & -> & Hl & ?)] & Hf)] Ho' Ec Er.
  split; [done|exists rtcp; by rewrite Er|exists c, cs; by rewrite Ec|done|].
  exists pts. split; [|done]. destruct P' as [| | | | | | |o']; try done. split. exists o', l. by rewrite <- Hl.
Qed.

Lemma complete_ok P answer options mime media cname encs e0 es : sending P answer options mime ->
  getRtpEncodings media = Ok (JArray (e0 :: es)) -> Forall (fun j => is_object j = true) (e0 :: es) ->
  exists P1 P2 P3, at_key "rtcp" (set_key "cname" (JString cname)) P = (Ok tt, P1) /\
    send_encodings_of encs media P1 = (Ok tt, P2) /\ send_scalability P2 = (Ok tt, P3) /\
    is_object P3 = true /\ find "codecs" P3 = find "codecs" P /\ find "mid" P3 = find "mid" P /\
    find "encodings" P3 = Some (JArray (with_mode mime (sent_encodings encs (e0 :: es)))) /\
    exists rtcp, find "rtcp" P3 = Some rtcp /\ find "cname" rtcp = Some (JString cname).
Proof.
  intros [Ho (rtcp & Hr & Hro) (c & cs & Hc & Hco & Hm) _ _] He Heo.
  pose (P1 := jset "rtcp" (jset "cname" (JString cname) rtcp) P).
  assert (is_object P1 = true) as Ho1 by (unfold P1; auto with media).
  destruct (send_encodings_ok P1 media encs (e0 :: es) Ho1 He) as (P2 & E2 & (Ho2 & F2 & K2) & Hall); [done..|].
  assert (find "codecs" P2 = find "codecs" P) as C2 by (rewrite K2 by done; unfold P1; by media_find).
  destruct (send_scalability_ok P2 c cs mime (sent_encodings encs (e0 :: es))) as (P3 & E3 & Ho3 & F3 & K3);
    [done|by rewrite C2|done..|].
  exists P1, P2, P3. split_and!; [|done..|by rewrite K3| |done|].
  - eapply at_key_find; [done..|]. by apply set_key_jset.
  - rewrite K3, K2 by done. unfold P1. by media_find.
  - exists (jset "cname" (JString cname) rtcp). rewrite K3, K2 by done. unfold P1. split; by media_find.
Qed.

(** *** A negotiation that succeeds *)

(** libwebrtc offers [offer] for the new transceiver [t] and takes it as the
    local description; the transceiver gets the mid [localId], the section [i]
    of the local description is [media]; every answer is accepted. *)
Record engine_sends (t i : nat) (offer media : json) (localId : string) (n n' : native E) : Prop := {
  es_offer : exists text n1, CreateOffer false n = (Ok text, n1) /\ parse text = Ok offer /\
    SetLocalDescription OFFER text n1 = (Ok tt, n');
  es_mid : mid_value t n' = (Ok localId, n');
  es_media : exists text local ms, GetLocalDescription n' = (Ok text, n') /\ parse text = Ok local /\
    find "media" local = Some (JArray ms) /\ ms !! i = Some media;
  es_remote : forall text, exists n'', SetRemoteDescription ANSWER text n' = (Ok tt, n'');
}.

Lemma send_offer_ok t i kind offer media localId l l' n n' r d b mp sp rp P :
  remote_ok r d -> engine_sends t i offer media localId n n' -> connects b "server" offer l l' ->
  is_object sp = true -> find kind sp = Some P -> is_object P = true ->
  exists r', send_offer t kind (st l n r b mp sp rp) =
      (Ok localId, st l' n' r' true mp (jset kind (jset "mid" (JString localId) P) sp) rp) /\ remote_ok r' d.
Proof.
  intros Hr [(text & n1 & Eo & Ep & El) Em _ _] Hc Hsp HP HPo.
  destruct (when_setup_ok "server" offer l n1 r d b mp l') as (r' & Es & Hok); [done|done|by eapply parsed_nonempty|done|].
  exists r'. split; [|done]. unfold send_offer. rewrite (bind_ok _ _ _ _ _ (st_native _ _ _ _ _ _ _ _ _ _ Eo)), Ep, lift_bind.
  rewrite (bind_ok get _ _ _ _ eq_refl). cbn [st snd handler transportReady].
  erewrite bind_ok; [|by destruct b; [injection Es as <- <-|apply st_handler]].
  erewrite bind_ok by (by apply st_native). erewrite bind_ok by (by apply st_native).
  erewrite bind_ok; [done|]. eapply st_params; [done..|]. by apply set_key_jset.
Qed.

(** With several encodings, each gets a RID. *)
Definition numbered (encs : option (list RtpEncodingParameters)) : option (list RtpEncodingParameters) :=
  match encs with Some l => Some (if (1 <? length l)%nat then number_rids l else l) | None => None end.

(** The section of the local description that is sent. *)
Record sent_media (media : json) (localId cname : string) (es : list json) : Prop := {
  sm_offer : offer_object media = true;
  sm_mid : find "mid" media = Some (JString localId);
  sm_type : exists type, find "type" media = Some (JString type) /\ (type = "audio" \/ type = "video");
  sm_cname : getCname media = Ok cname;
  sm_encodings : getRtpEncodings media = Ok (JArray es) /\ es <> [];
}.

Lemma encodings_objects media es : getRtpEncodings media = Ok (JArray es) -> Forall (fun j => is_object j = true) es.
Proof.
  unfold getRtpEncodings. destruct (idx "ssrcs" media); cbn [obind]; [|done..].
  destruct (ofold _ _ _) as [[|kv l]|e|]; cbn [obind]; [done| |done..].
  destruct (match find "ssrcGroups" media with Some g => _ | None => _ end); cbn [obind]; [|done..].
  intros [= <-]. apply Forall_fmap, Forall_true. intros [s x]. unfold encodingOf. cbn. by destruct (x =? 0)%Z.
Qed.

(** What is left of [Send] once the local description has the section. *)
Definition answered (i : nat) (reuseMid kind localId : string) (t : nat) (encs : option (list RtpEncodingParameters))
    (options : option json) : M (L * SendHandler E) SendData :=
  localSdp <- on_native GetLocalDescription ;;
  localSdpObject <- lift (parse localSdp) ;;
  offerMediaObject <- lift (at_key "media" (at_idx i get) localSdpObject).1 ;;
  cname <- lift (getCname offerMediaObject) ;;
  on_params kind (at_key "rtcp" (set_key "cname" (JString cname))) ;;;
  on_params kind (send_encodings_of encs offerMediaObject) ;;;
  on_params kind send_scalability ;;;
  answerRtpParameters <- zoom (fun s => Some (sendingRemoteRtpParametersByKind s.2))
    (fun j s => (s.1, with_sending_remote j s.2)) (get_key kind) ;;
  on_remoteSdp_params kind (RemoteSdp.Send offerMediaObject reuseMid answerRtpParameters options) ;;;
  answer <- on_handler (on_remoteSdp GetSdp) ;;
  on_native (SetRemoteDescription ANSWER answer) ;;;
  on_handler (on_self (fun h => with_transceiver_map (<[localId := t]> (mapMidTransceiver h)) h)) ;;;
  sendingRtpParameters <- on_params kind get ;;
  ret (mkSendData localId t sendingRtpParameters).

(** The result of a negotiation: the section is open, the version raised, and
    what libwebrtc was given as the answer is the text of the description. *)
Record sent_state (d : description) (localId kind mime cname : string) (encs : option (list RtpEncodingParameters))
    (es : list json) (n : native E) (P' : json) (n' : native E) (r' : RemoteSdp) (sp' : json) : Prop := {
  ss_remote : remote_ok r' (mkDescription (opened localId (d_sections d)) (wrap_u 32 (d_version d + 1)));
  ss_stored : find kind sp' = Some P';
  ss_mid : find "mid" P' = Some (JString localId);
  ss_encodings : find "encodings" P' = Some (JArray (with_mode mime (sent_encodings encs es)));
  ss_cname : exists rtcp, find "rtcp" P' = Some rtcp /\ find "cname" rtcp = Some (JString cname);
  ss_answer : exists text, session_lines (sdpObject r') = Ok text /\ SetRemoteDescription ANSWER text n = (Ok tt, n');
}.

Lemma answered_ok t offer media localId cname es kind encs options mime l n0 n r d mp sp rp P answer :
  remote_ok r d -> engine_sends t (next_section 0 (d_sections d)).1 offer media localId n0 n ->
  sent_media media localId cname es -> mid_free localId (d_sections d) ->
  is_object sp = true -> find kind sp = Some P -> is_object rp = true -> find kind rp = Some answer ->
  sending P answer options mime -> find "mid" P = Some (JString localId) ->
  exists n' r' sp' P', answered (next_section 0 (d_sections d)).1 (next_section 0 (d_sections d)).2 kind localId t encs options
      (st l n r true mp sp rp) = (Ok (mkSendData localId t P'), st l n' r' true (<[localId := t]> mp) sp' rp) /\
    sent_state d localId kind mime cname encs es n P' n' r' sp'.
Proof.
  intros Hr [_ _ (text & local & ms & El & Ep & Hm & Hi) Hrem] [So Sm St Sc [Se Sne]] Hfree Hsp HP Hrp Hans Hsd Hmid.
  assert (exists e0 es0, es = e0 :: es0) as (e0 & es0 & ->) by (destruct es; [done|by eexists _, _]).
  destruct (complete_ok P answer options mime media cname encs e0 es0 Hsd Se (encodings_objects _ _ Se))
    as (P1 & P2 & P3 & E1 & E2 & E3 & Ho3 & C3 & M3 & N3 & (rtcp & Hrt & Hcn)).
  destruct (remote_Send_ok r d media P3 answer options localId Hr) as (r2 & P4 & ESend & Hr2 & Hsame); [|done|].
  { destruct Hsd as [Hob Hrc (c & cs & Hc & Hco & Hmi) Ha (pts & [(o & lc & -> & Hlc & Hcs)] & Hfit)]. split; [done..|].
    exists pts. split; [|done]. destruct P3 as [| | | | | | |o3]; try done. split. exists o3, lc.
    split; [done|]. split; [|done]. rewrite <- Hlc. exact C3. }
  destruct (GetSdp_ok r2 _ Hr2) as (j & ans & Eg & Hans' & Hok). destruct (Hrem ans) as (n' & Er).
  destruct (parse_ok text) as (lo & media' & Ep' & Hlo & _). rewrite Ep in Ep'. injection Ep' as <-.
  exists n', (with_sdp j r2), (jset kind P4 (jset kind P4 (jset kind P3 (jset kind P2 (jset kind P1 sp))))), P4. split.
  - unfold answered. rewrite (bind_ok _ _ _ _ _ (st_native _ _ _ _ _ _ _ _ _ _ El)), Ep, lift_bind.
    rewrite (at_key_find _ _ _ _ _ _ Hlo Hm (at_idx_in _ get _ _ (Ok media) media Hi eq_refl)). cbn [fst].
    rewrite lift_bind, Sc, lift_bind.
    erewrite bind_ok by (by eapply st_params). erewrite bind_ok by (eapply st_params; [by auto with media|by auto with media|done]).
    erewrite bind_ok by (eapply st_params; [by auto with media|by auto with media|done]).
    erewrite bind_ok by (by eapply st_answer). erewrite bind_ok by (eapply st_remote_params; [by auto with media|done]).
    erewrite bind_ok by (by eapply st_remote). erewrite bind_ok by (by eapply st_native).
    erewrite bind_ok by (by apply st_handler).
    erewrite bind_ok; [done|]. eapply st_params; [by auto 10 with media|by auto 10 with media|done].
  - split; [exact Hok|by auto 10 with media|by rewrite Hsame, M3|by rewrite Hsame| |by exists ans].
    exists rtcp. by rewrite Hsame.
Qed.

(** A track that is sent, with encodings that libwebrtc accepts, and the
    sending parameters that are kept for its kind. *)
Record addable (p : nat) (kind : string) (encs encs' : list RtpEncodingParameters) (n : native E) (sp P : json) : Prop := {
  ad_track : exists tr, tracks n !! p = Some tr /\ t_kind tr = kind;
  ad_kind : kind = "audio" \/ kind = "video";
  ad_encodings : checkSendEncodings encs = inr encs';
  ad_params : is_object sp = true /\ find kind sp = Some P;
}.
Record producible (p : nat) (kind : string) (encs encs' : list RtpEncodingParameters) (options : option json)
    (mime : string) (n : native E) (sp rp P answer : json) : Prop := {
  pr_addable : addable p kind encs encs' n sp P;
  pr_answer : is_object rp = true /\ find kind rp = Some answer;
  pr_sending : sending P answer options mime;
}.

(** [Send] adds a transceiver, and the rest are the two negotiations. *)
Lemma Send_steps p kind encs encs' options l n r b mp sp rp P d : remote_ok r d ->
  addable p kind (default [] (numbered encs)) encs' n sp P ->
  Send (Some p) encs options (st l n r b mp sp rp) =
    (localId <- try_catch (send_offer (length (transceivers n)) kind) (fun _ => true)
       (fun e => on_native (SetDirection (length (transceivers n)) kInactive) ;;;
                 _ <- on_native (SetTrack (length (transceivers n)) None) ;; throw e) ;;
     answered (next_section 0 (d_sections d)).1 (next_section 0 (d_sections d)).2 kind localId (length (transceivers n))
       (numbered encs) options) (st l (added p kind encs' n) r b mp (jset kind P sp) rp).
Proof.
  intros Hr [(tr & Htr & Hk) Hkind Henc [Hsp HP]].
  destruct (add_ok p tr (default [] (numbered encs)) encs' n) as (n1 & Ea & Ed); [done|by rewrite Hk|done|]. rewrite Hk in Ed.
  unfold Send. fold (numbered encs). rewrite (bind_ok get _ _ _ _ eq_refl). cbn [st snd handler remoteSdp].
  unfold GetNextMediaSectionIdx. rewrite (next_index_ok _ _ (ro_sections _ _ Hr)), lift_bind.
  erewrite bind_ok by (by apply st_native). cbv beta iota. erewrite bind_ok by (by apply st_native).
  erewrite bind_ok; [|apply st_native; unfold track_at; by rewrite (added_track _ _ _ _ _ _ Htr)].
  cbv zeta. rewrite Hk. erewrite bind_ok by (by eapply st_params). done.
Qed.

Lemma Send_ok p kind encs encs' options mime offer media localId cname es l l' n n' r b mp sp rp P answer d :
  remote_ok r d -> producible p kind (default [] (numbered encs)) encs' options mime n sp rp P answer ->
  engine_sends (length (transceivers n)) (next_section 0 (d_sections d)).1 offer media localId (added p kind encs' n) n' ->
  connects b "server" offer l l' -> sent_media media localId cname es -> mid_free localId (d_sections d) ->
  exists n'' r' sp' P', Send (Some p) encs options (st l n r b mp sp rp) =
      (Ok (mkSendData localId (length (transceivers n)) P'),
       st l' n'' r' true (<[localId := length (transceivers n)]> mp) sp' rp) /\
    sent_state d localId kind mime cname (numbered encs) es n' P' n'' r' sp'.
Proof.
  intros Hr [Hp [Hrp Hans] Hsd] He Hc Hm Hfree. rewrite (Send_steps _ _ _ _ _ _ _ _ _ _ _ _ _ _ Hr Hp).
  destruct Hp as [_ _ _ [Hsp HP]]. pose proof (sd_object _ _ _ _ Hsd) as HPo.
  destruct (send_offer_ok _ _ kind offer media localId l l' _ _ r d b mp (jset kind P sp) rp P Hr He Hc) as (r1 & Eo & Hr1);
    [auto with media..|].
  pose (P1 := jset "mid" (JString localId) P).
  destruct (answered_ok _ offer media localId cname es kind (numbered encs) options mime l' _ n' r1 d mp
    (jset kind P1 (jset kind P sp)) rp P1 answer Hr1 He) as (n2 & r2 & sp2 & P2 & Ef & Hs);
    [done|done|auto with media..| |by apply find_jset_same|].
  { eapply sending_same; [exact Hsd|unfold P1; auto with media|unfold P1; by media_find..]. }
  exists n2, r2, sp2, P2. split; [|exact Hs]. erewrite bind_ok by (by apply try_ok). exact Ef.
Qed.

(** C10: sending a track implements the abstract description.  For a live
    negotiation (libwebrtc, with a send-only transceiver for the track added,
    offers, takes its offer and gives the transceiver a mid that no other
    section has; the listener accepts the DTLS parameters if it was not asked
    before; every answer is accepted), [SendHandler::Send] returns: a section
    of that mid is open, in the place of the first closed section or at the
    end; the version is raised by one, and the answer that libwebrtc is given
    is the text of the new description; the handler is ready and maps the mid
    to the new transceiver; and the parameters that it returns and keeps have
    the mid, the cname of the local section and the encodings given, each with
    a scalability mode in the case of simulcast. *)
Theorem send_refines p kind encs encs' options mime offer media localId cname es l l' n n' r b mp sp rp P answer d :
  remote_ok r d -> producible p kind (default [] (numbered encs)) encs' options mime n sp rp P answer ->
  engine_sends (length (transceivers n)) (next_section 0 (d_sections d)).1 offer media localId (added p kind encs' n) n' ->
  connects b "server" offer l l' -> sent_media media localId cname es -> mid_free localId (d_sections d) ->
  exists n'' r' sp' P', Send (Some p) encs options (st l n r b mp sp rp) =
      (Ok (mkSendData localId (length (transceivers n)) P'),
       st l' n'' r' true (<[localId := length (transceivers n)]> mp) sp' rp) /\
    sent_state d localId kind mime cname (numbered encs) es n' P' n'' r' sp'.
Proof. apply Send_ok. Qed.

(** When the negotiation of a new track fails, whatever fails (creating
    the offer, the listener that refuses the DTLS parameters, the local
    description) and with whatever exception, [Send] throws that exception, and
    the transceiver that was added is inactive and has no track any more; the
    rest of the state is as the failing step left it. *)
Theorem failed_send_deactivates p kind encs encs' options l n r b mp sp rp P d e l1 h1 n1 x :
  remote_ok r d -> addable p kind (default [] (numbered encs)) encs' n sp P ->
  send_offer (length (transceivers n)) kind (st l (added p kind encs' n) r b mp (jset kind P sp) rp) = (Throw e, (l1, h1)) ->
  pc (handler h1) = Some n1 -> transceivers n1 !! length (transceivers n) = Some x ->
  stopped x = false -> sender_stopped x = false ->
  Send (Some p) encs options (st l n r b mp sp rp) =
    (Throw e, (l1, with_handler (with_pc (Some (with_transceivers
       (<[length (transceivers n) := with_sender_track None (with_direction kInactive x)]> (transceivers n1)) n1)) (handler h1)) h1)).
Proof.
  intros Hr Hp Ho Hn1 Hx Hst Hss. rewrite (Send_steps _ _ _ _ _ _ _ _ _ _ _ _ _ _ Hr Hp).
  unfold bind at 1, try_catch. rewrite Ho. destruct h1 as [[p1 r1 b1 mp1] sp1 rp1]. cbn [handler pc] in *. subst p1.
  change (l1, mkSendHandler (mkHandler (Some n1) r1 b1 mp1) sp1 rp1) with (st l1 n1 r1 b1 mp1 sp1 rp1).
  pose (n2 := with_transceivers (<[length (transceivers n) := with_direction kInactive x]> (transceivers n1)) n1).
  assert (SetDirection (length (transceivers n)) kInactive n1 = (Ok tt, n2)) as E1.
  { unfold SetDirection, bind, transceiver_at, set_transceiver. rewrite Hx, Hst. case_decide as Hd; [|done].
    unfold ret, n2. f_equal. rewrite list_insert_id; [by destruct n1|]. rewrite Hx. f_equal. destruct x. cbn in Hd. by subst. }
  rewrite (bind_ok _ _ _ _ _ (st_native _ _ _ _ _ _ _ _ _ _ E1)).
  erewrite bind_ok; [reflexivity|]. apply st_native. unfold SetTrack, bind, transceiver_at. cbn.
  rewrite list_lookup_insert_eq by (by eapply lookup_lt_Some). cbn. rewrite Hss. unfold set_transceiver. cbn.
  unfold n2, with_transceivers. cbn. by rewrite list_insert_insert_eq.
Qed.

(** Without a codec for the kind, the negotiation is done before it shows. *)
Lemma scalability_without_codecs P : is_object P = true -> find "codecs" P = Some (JArray []) ->
  exists P', send_scalability P = (Throw (JsonTypeError 302), P').
Proof.
  intros Ho Hc. eexists. unfold send_scalability.
  rewrite (bind_ok _ _ _ _ _ (at_key_find "codecs" (at_idx 0 (get_key "mimeType")) P _ _ _ Ho Hc eq_refl)). reflexivity.
Qed.

Lemma send_without_codecs p kind encs encs' options offer media localId cname es l l' n n' r b mp sp rp P rtcp d :
  remote_ok r d -> addable p kind (default [] (numbered encs)) encs' n sp P ->
  is_object P = true -> find "rtcp" P = Some rtcp -> is_object rtcp = true -> find "codecs" P = Some (JArray []) ->
  engine_sends (length (transceivers n)) (next_section 0 (d_sections d)).1 offer media localId (added p kind encs' n) n' ->
  connects b "server" offer l l' -> sent_media media localId cname es ->
  exists r' sp', Send (Some p) encs options (st l n r b mp sp rp) = (Throw (JsonTypeError 302), st l' n' r' true mp sp' rp) /\
    remote_ok r' d.
Proof.
  intros Hr Hp HPo Hrt Hrto Hcs He Hc [So Sm St Sc [Se Sne]]. rewrite (Send_steps _ _ _ _ _ _ _ _ _ _ _ _ _ _ Hr Hp).
  destruct Hp as [_ _ _ [Hsp HP]].
  destruct (send_offer_ok _ _ kind offer media localId l l' _ _ r d b mp (jset kind P sp) rp P Hr He Hc) as (r1 & Eo & Hr1);
    [auto with media..|].
  destruct He as [_ _ (text & local & ms & El & Ep & Hm & Hi) _].
  destruct (parse_ok text) as (lo & media' & Ep' & Hlo & _). rewrite Ep in Ep'. injection Ep' as <-.
  set (P1 := jset "mid" (JString localId) P) in *.
  assert (is_object P1 = true) as Ho1 by (unfold P1; auto with media).
  pose (P2 := jset "rtcp" (jset "cname" (JString cname) rtcp) P1).
  assert (is_object P2 = true) as Ho2 by (unfold P2; auto with media).
  destruct (send_encodings_ok P2 media (numbered encs) es Ho2 Se Sne (encodings_objects _ _ Se)) as (P3 & E3 & (Ho3 & _ & K3) & _).
  destruct (scalability_without_codecs P3 Ho3) as (P4 & E4).
  { rewrite K3 by done. unfold P2, P1. by media_find. }
  eexists r1, _. split; [|exact Hr1]. erewrite bind_ok by (by apply try_ok). unfold answered.
  rewrite (bind_ok _ _ _ _ _ (st_native _ _ _ _ _ _ _ _ _ _ El)), Ep, lift_bind.
  rewrite (at_key_find _ _ _ _ _ _ Hlo Hm (at_idx_in _ get _ _ (Ok media) media Hi eq_refl)). cbn [fst].
  rewrite lift_bind, Sc, lift_bind.
  erewrite bind_ok by (eapply st_params; [by auto with media|by auto with media|eapply at_key_find;
    [exact Ho1|unfold P1; by media_find|by apply set_key_jset]]).
  erewrite bind_ok by (eapply st_params; [by auto with media|by auto with media|exact E3]).
  unfold bind at 1. erewrite st_params by first [exact E4|by auto 10 with media]. reflexivity.
Qed.

(** *** Stopping and restarting *)

(** The connection with the sender of [t] muted: its direction is kept. *)
Definition muted (t : nat) (x : Transceiver) (n : native E) : native E :=
  with_transceivers (<[t := with_sender_track None x]> (transceivers n)) n.

Lemma mute_ok t x n : transceivers n !! t = Some x -> sender_stopped x = false -> signaling_closed n = false ->
  SetTrack t None n = (Ok true, muted t x n) /\ RemoveTrack t (muted t x n) = (Ok true, muted t x n) /\
  transceivers (muted t x n) !! t = Some (with_sender_track None x).
Proof.
  intros Hx Hs Hc. assert (transceivers (muted t x n) !! t = Some (with_sender_track None x)) as Hm.
  { cbn. by rewrite list_lookup_insert_eq by (by eapply lookup_lt_Some). }
  split_and!; [..|done].
  - unfold SetTrack, bind, transceiver_at. rewrite Hx, Hs. done.
  - unfold RemoveTrack, RemoveTrackNew, bind, get, transceiver_at. cbn [signaling_closed muted with_transceivers]. rewrite Hc.
    by rewrite Hm.
Qed.

(** The order of the two calls that stop a sender matters.  On a send-only
    transceiver of an open connection with a track, [RemoveTrack] alone clears
    the track and makes the transceiver inactive; after [SetTrack(nullptr)], as
    [StopSending] calls it, [RemoveTrack] finds no track and does nothing, so
    the transceiver is still send-only. *)
Theorem stopped_sender_stays_send_only t x (n : native E) : transceivers n !! t = Some x -> sender_stopped x = false ->
  signaling_closed n = false -> is_Some (sender_track x) -> direction x = kSendOnly ->
  (exists n', (_ <- SetTrack t None ;; RemoveTrack t) n = (Ok true, n') /\
     transceivers n' !! t = Some (with_sender_track None x)) /\
  (exists n', RemoveTrack t n = (Ok true, n') /\
     transceivers n' !! t = Some (with_direction kInactive (with_sender_track None x))).
Proof.
  intros Hx Hs Hc [p Hp] Hd. destruct (mute_ok t x n Hx Hs Hc) as (E1 & E2 & Hm). split.
  - exists (muted t x n). by rewrite (bind_ok _ _ _ _ _ E1).
  - unfold RemoveTrack, RemoveTrackNew, bind, get. rewrite Hc. unfold transceiver_at at 1. rewrite Hx, Hp, E1.
    unfold transceiver_at. rewrite Hm. cbn [direction with_sender_track]. rewrite Hd. eexists. split; [done|].
    cbn. rewrite list_insert_insert_eq, list_lookup_insert_eq by (by eapply lookup_lt_Some). done.
Qed.

(** A further negotiation: libwebrtc offers, and accepts every answer. *)
Definition renegotiates (ice_restart : bool) (n : native E) : Prop :=
  exists text n1 n2 text', CreateOffer ice_restart n = (Ok text, n1) /\ SetLocalDescription OFFER text n1 = (Ok tt, n2) /\
    GetLocalDescription n2 = (Ok text', n2) /\ forall answer, exists n3, SetRemoteDescription ANSWER answer n2 = (Ok tt, n3).

Lemma renegotiate_ok ice l n r b mp sp rp d : remote_ok r d -> renegotiates ice n ->
  exists n' r', renegotiate ice (st l n r b mp sp rp) = (Ok tt, st l n' r' b mp sp rp) /\
    mediaSections r' = mediaSections r /\ remote_ok r' (mkDescription (d_sections d) (wrap_u 32 (d_version d + 1))).
Proof.
  intros Hr (text & n1 & n2 & text' & Eo & El & Eg & Hrem).
  destruct (GetSdp_ok r d Hr) as (j & ans & Es & _ & Hok). destruct (Hrem ans) as (n3 & Er).
  destruct (parse_ok text') as (session & media & Ep & _).
  exists n3, (with_sdp j r). split_and!; [|done..]. unfold renegotiate.
  erewrite bind_ok by (by apply st_native). erewrite bind_ok by (by apply st_native). erewrite bind_ok by (by apply st_native).
  rewrite Ep, lift_bind. erewrite bind_ok by (by apply st_remote). by apply st_native.
Qed.

Lemma StopSending_ok localId t x m i c l n r b mp sp rp d : remote_ok r d ->
  mp !! localId = Some t -> transceivers n !! t = Some x -> mid x = Some m -> sender_stopped x = false ->
  signaling_closed n = false -> d_sections d !! i = Some (m, c) -> renegotiates false (muted t x n) ->
  exists n' r', StopSending localId (st l n r b mp sp rp) = (Ok tt, st l n' r' b mp sp rp) /\
    remote_ok r' (mkDescription (close_at i m (d_sections d)) (wrap_u 32 (d_version d + 1))).
Proof.
  intros Hr Hmap Hx Hm Hs Hc Hi Hre. destruct (mute_ok t x n Hx Hs Hc) as (E1 & E2 & Hx').
  destruct (CloseMediaSection_ok r d i m c Hr Hi) as (r1 & s & Ec & _ & Hr1 & _).
  destruct (renegotiate_ok false l _ r1 b mp sp rp _ Hr1 Hre) as (n' & r' & En & _ & Hok).
  exists n', r'. split; [|exact Hok]. unfold StopSending.
  erewrite bind_ok by (apply st_handler; unfold find_transceiver, bind, get; cbn; by rewrite Hmap).
  erewrite bind_ok by (by apply st_native). erewrite bind_ok by (by apply st_native).
  erewrite bind_ok by (apply st_native; unfold mid_value, bind, transceiver_at; by rewrite Hx'; cbn; rewrite Hm).
  erewrite bind_ok by (by apply st_remote). exact En.
Qed.

(** Stopping to send implements the closing of a section.  For a mid that
    the handler maps to a transceiver of an open connection, when the further
    negotiation succeeds, [StopSending] returns; the section of the
    transceiver's mid is closed, unless it is the first, which stays open; the
    version is raised by one, and nothing else of the handler changes. *)
Theorem stop_sending_refines localId t x m i c l n r b mp sp rp d : remote_ok r d ->
  mp !! localId = Some t -> transceivers n !! t = Some x -> mid x = Some m -> sender_stopped x = false ->
  signaling_closed n = false -> d_sections d !! i = Some (m, c) -> renegotiates false (muted t x n) ->
  exists n' r', StopSending localId (st l n r b mp sp rp) = (Ok tt, st l n' r' b mp sp rp) /\
    remote_ok r' (mkDescription (close_at i m (d_sections d)) (wrap_u 32 (d_version d + 1))).
Proof. apply StopSending_ok. Qed.

(** Restarting ICE on the sending side.  When the handler is ready and the
    negotiation succeeds, [RestartIce] returns, all sections announce the new
    ufrag and password and the version is raised by one; when the handler is
    not ready yet the new parameters are kept, and nothing is negotiated. *)
Theorem restart_ice_refines ice l n r b mp sp rp d : remote_ok r d -> normalIceParameters ice = true ->
  (b = true -> renegotiates true n) ->
  exists n' r', RestartIce ice (st l n r b mp sp rp) = (Ok tt, st l n' r' b mp sp rp) /\ (b = false -> n' = n) /\
    remote_ok r' (mkDescription (d_sections d) (if b then wrap_u 32 (d_version d + 1) else d_version d)) /\
    Forall (fun s => find "iceUfrag" (mediaObject s) = find "usernameFragment" ice /\
                     find "icePwd" (mediaObject s) = find "password" ice) (mediaSections r').
Proof.
  intros Hr Hi Hn. destruct (UpdateIceParameters_ok r d ice Hr Hi) as (r1 & E1 & Hr1 & _ & Hall).
  unfold RestartIce. erewrite bind_ok by (by apply st_remote). rewrite (bind_ok get _ _ _ _ eq_refl).
  cbn [st snd handler transportReady]. destruct b; cbn [negb].
  - destruct (renegotiate_ok true l n r1 true mp sp rp d Hr1 (Hn eq_refl)) as (n' & r' & En & Hms & Hok).
    exists n', r'. by rewrite Hms.
  - exists n, r1. by destruct d.
Qed.
End sending.
End Sending.

(** ** Receiving *)

Module Receiving.
Import RecvHandler.

Lemma pretty_nat_nonempty (k : nat) : pretty k <> "".
Proof.
  destruct (no_blank (Z.of_nat k)) as [_ Hn]; [lia|]. unfold pretty, pretty_nat, pretty, pretty_N in *.
  by destruct k.
Qed.

Section receiving.
Context {E L : Type} `{!Engine E, !HandlerListener L, !JsonDump}.

Definition st (l : L) (n : native E) (r : RemoteSdp) (b : bool) (mp : gmap string nat) : L * Handler E :=
  (l, mkHandler (Some n) r b mp).

Lemma recv_native {A} (m : M (native E) A) l n r b mp o n' : m n = (o, n') -> on_pc m (st l n r b mp) = (o, st l n' r b mp).
Proof. intros Em. unfold on_pc, zoom. cbn. by rewrite Em. Qed.
Lemma recv_remote {A} (m : M RemoteSdp A) l n r b mp o r' : m r = (o, r') ->
  on_remoteSdp m (st l n r b mp) = (o, st l n r' b mp).
Proof. intros Em. unfold on_remoteSdp, zoom. cbn. by rewrite Em. Qed.

Lemma local_id_nonempty params (h : Handler E) : local_id params h <> "".
Proof.
  unfold local_id. destruct (find "mid" params) as [[| | | | |m| |]|]; try apply pretty_nat_nonempty.
  destruct (String.eqb_spec m ""); cbn [negb]; [apply pretty_nat_nonempty|done].
Qed.

(** The local description that is built from the answer of libwebrtc. *)
Definition edited (params session : json) (ms : list json) (i : nat) (media : json) : json :=
  (write (jset "media" (JArray (<[i := (applyCodecParameters params media).2]> ms)) session)).2.

(** libwebrtc takes every offer and answers it with a section of that mid; the
    listener accepts the DTLS parameters if it was not asked before; the local
    description is taken, and the transceiver [t] then has the mid. *)
Definition engine_receives (localId : string) (params : json) (b : bool) (l l' : L) (t track : nat) (n : native E) : Prop :=
  forall offer, exists n1 text n2 session ms i media,
    SetRemoteDescription OFFER offer n = (Ok tt, n1) /\ CreateAnswer n1 = (Ok text, n2) /\ parse text = Ok session /\
    find "media" session = Some (JArray ms) /\ ofind_idx (isMedia localId) ms 0 = Ok (Some i) /\ ms !! i = Some media /\
    answer_lines media /\ connects b "client" (edited params session ms i media) l l' /\
    forall local, exists n3 x, SetLocalDescription ANSWER local n2 = (Ok tt, n3) /\
      find_by_mid localId 0 (transceivers n3) = Some t /\ transceivers n3 !! t = Some x /\ receiver_track x = track.

Lemma edit_answer_ok params text session ms i media localId : normalRtpParameters params = true -> parse text = Ok session ->
  find "media" session = Some (JArray ms) -> ofind_idx (isMedia localId) ms 0 = Ok (Some i) -> ms !! i = Some media ->
  answer_lines media ->
  exists s' local, (media <- get_key "media" ;;
      i <- lift (ofind_idx (isMedia localId) (elems media) 0) ;;
      match i with Some i => at_key "media" (at_elem i (applyCodecParameters params)) | None => undef end) session = (Ok tt, s') /\
    write s' = (Ok local, edited params session ms i media) /\ json_empty (edited params session ms i media) = false.
Proof.
  intros Hp Hs Hm Hf Hi Hl. destruct (applyCodecParameters_ok params media Hp Hl) as (media' & Ea & [Hl' _ _] & _).
  destruct (parse_ok text) as (session' & ms' & Hs' & Ho & Hm' & Hall). rewrite Hs in Hs'. injection Hs' as <-.
  rewrite Hm in Hm'. injection Hm' as <-. unfold edited. rewrite Ea. cbn [snd].
  set (s' := jset "media" (JArray (<[i := media']> ms)) session).
  destruct (write_completes s') as (local & j' & Ew & _ & Hw).
  { unfold s'. auto with media. }
  { unfold key_opt, s'. media_find. cbn. rewrite negb_involutive. by apply Forall_forallb, Forall_insert. }
  exists s', local. rewrite Ew. cbn [snd]. split_and!; [|done|].
  - rewrite (bind_ok _ _ _ _ _ (get_key_same _ _ _ Ho Hm)). cbn [elems]. rewrite Hf, lift_bind.
    eapply at_key_find; [done..|]. cbn [at_elem]. by rewrite Hi, Ea.
  - unfold writable in Hw. by destruct j' as [| | | | | | |[|kv o]].
Qed.

Lemma recv_Receive_ok id kind params cname rtcp l l' n r b mp t track d : remote_ok r d -> receivable kind params ->
  find "rtcp" params = Some rtcp -> find "cname" rtcp = Some (JString cname) ->
  local_id params (st l n r b mp).2 ∉ mids (d_sections d) ->
  engine_receives (local_id params (st l n r b mp).2) params b l l' t track n ->
  exists n' r', Receive id kind params (st l n r b mp) =
      (Ok (mkRecvData (local_id params (st l n r b mp).2) t track),
       st l' n' r' true (<[local_id params (st l n r b mp).2 := t]> mp)) /\
    remote_ok r' (mkDescription (d_sections d ++ [(local_id params (st l n r b mp).2, false)]) (wrap_u 32 (d_version d + 1))).
Proof.
  intros Hr Hrec Hrt Hcn Hfree He. pose proof (local_id_nonempty params (st l n r b mp).2) as Hne.
  unfold Receive. rewrite (bind_ok get _ _ _ _ eq_refl). cbv zeta.
  set (localId := local_id params (st l n r b mp).2) in *. clearbody localId.
  rewrite (idx_find _ _ _ Hrt), lift_bind, (idx_find _ _ _ Hcn), lift_bind. cbn [get_string]. rewrite lift_bind.
  destruct (Receive_ok r d localId kind params cname id Hr Hrec Hne Hfree) as (r1 & E1 & Hr1).
  destruct (GetSdp_ok r1 _ Hr1) as (j & offer & E2 & _ & Hr2). set (r2 := with_sdp j r1) in *. cbn [d_sections set_sections d_version] in Hr2.
  destruct (He offer) as (n1 & text & n2 & session & ms & i & media & E3 & E4 & Ep & Hm & Hf & Hi & Hl & Hc & Hloc).
  destruct (edit_answer_ok params text session ms i media localId) as (s' & local & E5 & E6 & Hj); [apply Hrec|done..|].
  destruct (when_setup_ok "client" _ l n2 r2 _ b mp l' Hr2 eq_refl Hj Hc) as (r3 & E7 & Hr3).
  destruct (Hloc local) as (n3 & x & E8 & Ht & Hx & Hxt). exists n3, r3. split; [|exact Hr3].
  erewrite bind_ok by (by apply recv_remote). erewrite bind_ok by (by apply recv_remote).
  erewrite bind_ok by (by apply recv_native). erewrite bind_ok by (by apply recv_native).
  rewrite Ep, lift_bind, E5. cbn [obind]. rewrite lift_bind, E6. cbn [obind]. rewrite lift_bind. cbn [fst snd].
  rewrite (bind_ok get _ _ _ _ eq_refl). erewrite bind_ok by exact E7.
  erewrite bind_ok by (by apply recv_native). erewrite (bind_ok (on_pc get)) by (by apply recv_native).
  rewrite Ht. erewrite bind_ok by reflexivity.
  erewrite bind_ok by (apply recv_native; unfold transceiver_at; by rewrite Hx). by rewrite Hxt.
Qed.

(** C11: receiving implements the abstract description.  For validated
    parameters with a mid that no section has (or none, and then the number of
    transceivers is not yet a mid), and a live negotiation as above,
    [RecvHandler::Receive] returns: a section of the mid is open at the end,
    the version is raised by one, the handler is ready, and it maps the mid to
    the transceiver of that mid, whose track is returned. *)
Theorem receive_refines id kind params cname rtcp l l' n r b mp t track d : remote_ok r d -> receivable kind params ->
  find "rtcp" params = Some rtcp -> find "cname" rtcp = Some (JString cname) ->
  local_id params (st l n r b mp).2 ∉ mids (d_sections d) ->
  engine_receives (local_id params (st l n r b mp).2) params b l l' t track n ->
  exists n' r', Receive id kind params (st l n r b mp) =
      (Ok (mkRecvData (local_id params (st l n r b mp).2) t track),
       st l' n' r' true (<[local_id params (st l n r b mp).2 := t]> mp)) /\
    remote_ok r' (mkDescription (d_sections d ++ [(local_id params (st l n r b mp).2, false)]) (wrap_u 32 (d_version d + 1))).
Proof. apply recv_Receive_ok. Qed.

(** Stopping to receive implements the closing of a section.  For a mid
    that the handler maps to a transceiver whose mid has a section, when
    libwebrtc takes the new offer and its own answer, [StopReceiving] returns,
    the section is closed, unless it is the first, the version is raised by
    one, and the rest of the handler is as before. *)
Theorem stop_receiving_refines localId t x m i c l n r b mp d : remote_ok r d -> mp !! localId = Some t ->
  transceivers n !! t = Some x -> mid x = Some m -> d_sections d !! i = Some (m, c) ->
  (forall offer, exists n1 answer n2 n3, SetRemoteDescription OFFER offer n = (Ok tt, n1) /\
     CreateAnswer n1 = (Ok answer, n2) /\ SetLocalDescription ANSWER answer n2 = (Ok tt, n3)) ->
  exists n' r', StopReceiving localId (st l n r b mp) = (Ok tt, st l n' r' b mp) /\
    remote_ok r' (mkDescription (close_at i m (d_sections d)) (wrap_u 32 (d_version d + 1))).
Proof.
  intros Hr Hmap Hx Hm Hi He. destruct (CloseMediaSection_ok r d i m c Hr Hi) as (r1 & s & Ec & _ & Hr1 & _).
  destruct (GetSdp_ok r1 _ Hr1) as (j & offer & E2 & _ & Hr2). destruct (He offer) as (n1 & answer & n2 & n3 & E3 & E4 & E5).
  exists n3, (with_sdp j r1). split; [|exact Hr2]. unfold StopReceiving.
  erewrite bind_ok by (unfold find_transceiver, bind, get; cbn; by rewrite Hmap).
  erewrite bind_ok by (apply recv_native; unfold mid_value, bind, transceiver_at; by rewrite Hx; cbn; rewrite Hm).
  erewrite bind_ok by (by apply recv_remote). unfold renegotiate. erewrite bind_ok by (by apply recv_remote).
  erewrite bind_ok by (by apply recv_native). erewrite bind_ok by (by apply recv_native). by apply recv_native.
Qed.

(** A failed [Receive] leaves its section behind.  When libwebrtc refuses
    the offer, [Receive] throws, but the section of the consumer stays open in
    the description.  The transceiver map is as before, so the next attempt
    uses the same mid, which then is taken: the mid that the parameters name
    (as the probator's do), or for parameters without one the number of
    transceivers. *)
Theorem failed_receive_keeps_section id kind params cname rtcp l n r b mp d e : remote_ok r d -> receivable kind params ->
  find "rtcp" params = Some rtcp -> find "cname" rtcp = Some (JString cname) ->
  (local_id params (st l n r b mp).2 ∉ mids (d_sections d)) ->
  (forall offer, exists n1, SetRemoteDescription OFFER offer n = (Throw e, n1)) ->
  exists n' r' d', Receive id kind params (st l n r b mp) = (Throw e, st l n' r' b mp) /\ remote_ok r' d' /\
    d' = mkDescription (d_sections d ++ [(local_id params (st l n r b mp).2, false)]) (wrap_u 32 (d_version d + 1)) /\
    local_id params (st l n' r' b mp).2 ∈ mids (d_sections d').
Proof.
  intros Hr Hrec Hrt Hcn Hfree He. unfold Receive. rewrite (bind_ok get _ _ _ _ eq_refl). cbv zeta.
  rewrite (idx_find _ _ _ Hrt), lift_bind, (idx_find _ _ _ Hcn), lift_bind. cbn [get_string]. rewrite lift_bind.
  destruct (Receive_ok r d (local_id params (st l n r b mp).2) kind params cname id Hr Hrec (local_id_nonempty _ _) Hfree) as (r1 & E1 & Hr1).
  destruct (GetSdp_ok r1 _ Hr1) as (j & offer & E2 & _ & Hr2). destruct (He offer) as (n1 & E3).
  eexists n1, (with_sdp j r1), _. split_and!; [|exact Hr2|done|].
  - erewrite bind_ok by (by apply recv_remote). erewrite bind_ok by (by apply recv_remote).
    unfold bind at 1. by rewrite (recv_native _ _ _ _ _ _ _ _ E3).
  - cbn [d_sections set_sections]. unfold mids. rewrite map_app. apply elem_of_app. right. by apply list_elem_of_singleton.
Qed.
End receiving.
End Receiving.

(** ** Samples *)

Definition sample_transceiver (kind : string) (mid : option string) : Transceiver :=
  mkTransceiver kind mid kSendOnly false (Some 0) false ["0"] [] None [] None 7.
Definition sample_native (l : list Transceiver) : native (option string) :=
  mkNative sample_tracks l false [] 0 (Some (sample_sdp l)).
Definition sample_listener : Transport := newTransport "id" JNull.
Definition sample_params : json := mk_obj [("audio", sample_sending)].
Definition parsed (sdp : string) : json := match parse sdp with Ok j => j | _ => JNull end.
Definition section_of (i : nat) (j : json) : json := default JNull (elems (member "media" j) !! i).

Lemma sample_sending_ok : Sending.sending sample_sending sample_sending None "audio/opus".
Proof.
  destruct (sample_sendable "1") as [_ _ _ Ha Ho]. split; [done| | |done|done].
  - eexists. split; [vm_compute; reflexivity|done].
  - eexists _, _. split; [vm_compute; reflexivity|]. split; vm_compute; reflexivity.
Qed.

(** One audio transceiver with mid 0, and a second one to be sent. *)
Definition sample_one : native (option string) := sample_native [sample_transceiver "audio" (Some "0")].
Definition sample_added : native (option string) := Sending.added 0 "audio" [] sample_one.
Definition sample_offered : json := parsed (sample_sdp (transceivers sample_added)).

Lemma sample_engine_sends : Sending.engine_sends 1 1 sample_offered (section_of 1 sample_offered) "1" sample_added
  (with_mids sample_added (sample_sdp (transceivers sample_added))).
Proof.
  split.
  - exists (sample_sdp (transceivers sample_added)), sample_added. split_and!; vm_compute; reflexivity.
  - vm_compute. reflexivity.
  - exists (sample_sdp (transceivers sample_added)), sample_offered, (elems (member "media" sample_offered)).
    split_and!; vm_compute; reflexivity.
  - intros text. by eexists.
Qed.
Lemma sample_sent_media : Sending.sent_media (section_of 1 sample_offered) "1" "" [encodingOf (1000, 0)%Z].
Proof.
  split; [by vm_compute|by vm_compute| |by vm_compute|split; [by vm_compute|done]].
  exists "audio". split; [by vm_compute|by left].
Qed.

Lemma sample_producible : Sending.producible 0 "audio" [] [] None "audio/opus" sample_one sample_params sample_params
  sample_sending sample_sending.
Proof.
  split; [|split; by vm_compute|apply sample_sending_ok].
  split; [eexists; split; vm_compute; reflexivity|by left|by vm_compute|split; by vm_compute].
Qed.

Definition sample_listener' : Transport :=
  match extractDtlsParameters sample_offered with
  | Ok dtls => (OnConnect (jset "role" (JString "server") dtls) sample_listener).2
  | _ => sample_listener
  end.
Lemma sample_connects : connects false "server" sample_offered sample_listener sample_listener'.
Proof.
  exists (match extractDtlsParameters sample_offered with Ok dtls => dtls | _ => JNull end). split; vm_compute; reflexivity.
Qed.

Lemma send_refines_witness :
  exists n' r' sp' P', SendHandler.Send (Some 0) None None
      (Sending.st sample_listener sample_one sample_remote false ∅ sample_params sample_params) =
    (Ok (SendHandler.mkSendData "1" 1 P'), Sending.st sample_listener' n' r' true (<["1" := 1]> ∅) sp' sample_params) /\
    remote_ok r' (mkDescription [("0", false); ("1", false)] 1).
Proof.
  destruct (Sending.send_refines 0 "audio" None [] None "audio/opus" sample_offered (section_of 1 sample_offered) "1" ""
    [encodingOf (1000, 0)%Z] sample_listener sample_listener' sample_one (with_mids sample_added (sample_sdp (transceivers sample_added)))
    sample_remote false ∅ sample_params sample_params sample_sending sample_sending sample_description) as (n' & r' & sp' & P' & E & Hs).
  - exact sample_remote_ok.
  - exact sample_producible.
  - exact sample_engine_sends.
  - exact sample_connects.
  - exact sample_sent_media.
  - split; [done|]. intros [|[|j]]; cbn; done.
  - exists n', r', sp', P'. split; [exact E|]. exact (Sending.ss_remote _ _ _ _ _ _ _ _ _ _ _ _ Hs).
Defined.

Lemma stop_sending_refines_witness :
  exists n' r', SendHandler.StopSending "1" (Sending.st sample_listener
      (sample_native [sample_transceiver "audio" (Some "0"); sample_transceiver "audio" (Some "1")])
      sample_remote true (<["1" := 1]> ∅) sample_params sample_params) =
    (Ok tt, Sending.st sample_listener n' r' true (<["1" := 1]> ∅) sample_params sample_params) /\
    remote_ok r' (mkDescription [("0", false); ("1", true)] 1).
Proof.
  apply (Sending.stop_sending_refines "1" 1 (sample_transceiver "audio" (Some "1")) "1" 1 true _ _ _ _ _ _ _ sample_description).
  - exact sample_remote_ok.
  - reflexivity.
  - reflexivity.
  - reflexivity.
  - reflexivity.
  - reflexivity.
  - reflexivity.
  - eexists _, _, _, _. split; [reflexivity|]. split; [reflexivity|]. split; [reflexivity|]. intros answer. by eexists.
Defined.

Lemma restart_ice_refines_witness :
  exists n' r', SendHandler.RestartIce sample_restart (Sending.st sample_listener sample_one sample_remote true ∅ sample_params sample_params) =
    (Ok tt, Sending.st sample_listener n' r' true ∅ sample_params sample_params).
Proof.
  destruct (Sending.restart_ice_refines sample_restart sample_listener sample_one sample_remote true ∅ sample_params sample_params
    sample_description) as (n' & r' & E & _).
  - exact sample_remote_ok.
  - vm_compute. reflexivity.
  - intros _. eexists _, _, _, _. split; [reflexivity|]. split; [reflexivity|]. split; [reflexivity|]. intros answer. by eexists.
  - exists n', r'. exact E.
Defined.

(** An application that refuses to connect. *)
Definition refusing_application : Application := {|
  app_connect _ _ := Throw (MediaSoupClientError "refused");
  app_state_change _ _ := Ok tt;
  app_produce _ _ _ _ := Ok "";
  app_producer_closed _ _ := Ok tt;
  app_consumer_closed _ _ := Ok tt;
|}.
Definition refused_offer : outcome string * (Transport * SendHandler.SendHandler (option string)) :=
  @SendHandler.send_offer _ _ _ (@transport_listener refusing_application) 1 "audio"
    (Sending.st sample_listener sample_added sample_remote false ∅ (jset "audio" sample_sending sample_params) sample_params).

Lemma failed_send_deactivates_witness :
  (@SendHandler.Send _ _ _ (@transport_listener refusing_application) _ (Some 0) None None
     (Sending.st sample_listener sample_one sample_remote false ∅ sample_params sample_params)).1 =
    Throw (MediaSoupClientError "refused").
Proof.
  rewrite (@Sending.failed_send_deactivates _ _ _ (@transport_listener refusing_application) _ 0 "audio" None [] None
    sample_listener sample_one sample_remote false ∅ sample_params sample_params sample_sending sample_description
    (MediaSoupClientError "refused") refused_offer.2.1 refused_offer.2.2 sample_added
    (mkTransceiver "audio" None kSendOnly false (Some 0) false ["0"] [] None [] None (receiver_track (default (sample_transceiver "" None)
       (transceivers sample_added !! 1))))).
  - reflexivity.
  - exact sample_remote_ok.
  - exact (Sending.pr_addable _ _ _ _ _ _ _ _ _ _ _ sample_producible).
  - vm_compute. reflexivity.
  - vm_compute. reflexivity.
  - vm_compute. reflexivity.
  - vm_compute. reflexivity.
  - vm_compute. reflexivity.
Defined.

(** Three video transceivers, the last one for a new consumer. *)
Definition sample_three : native (option string) :=
  sample_native [sample_transceiver "video" (Some "0"); sample_transceiver "video" (Some "1"); sample_transceiver "video" None].
Definition sample_incoming : json := jset "mid" (JString "2") sample_consumer_parameters.
Definition sample_answered : json := parsed (sample_sdp (transceivers sample_three)).
Definition sample_edited : json :=
  Receiving.edited sample_incoming sample_answered (elems (member "media" sample_answered)) 2 (section_of 2 sample_answered).
Definition sample_listener2 : Transport :=
  match extractDtlsParameters sample_edited with
  | Ok dtls => (OnConnect (jset "role" (JString "client") dtls) sample_listener).2
  | _ => sample_listener
  end.

Lemma sample_incoming_receivable : receivable "video" sample_incoming.
Proof.
  destruct sample_receivable as [Hk _ (ssrc & rtx & cname & [He Hr])]. split; [done|by vm_compute|].
  exists ssrc, rtx, cname. split; unfold sample_incoming; by media_find.
Qed.
Lemma sample_engine_receives :
  Receiving.engine_receives "2" sample_incoming false sample_listener sample_listener2 2 7 sample_three.
Proof.
  intros offer. exists sample_three, (sample_sdp (transceivers sample_three)), sample_three, sample_answered,
    (elems (member "media" sample_answered)), 2, (section_of 2 sample_answered).
  split_and!; [reflexivity|vm_compute; reflexivity..| | |].
  - split; [vm_compute; reflexivity|..]; (eexists; split; [vm_compute; reflexivity|]); repeat constructor.
  - exists (match extractDtlsParameters sample_edited with Ok dtls => dtls | _ => JNull end). split; vm_compute; reflexivity.
  - intros local. eexists _, _. split; [reflexivity|]. split; [vm_compute; reflexivity|]. split; reflexivity.
Qed.

Lemma receive_refines_witness :
  exists n' r', RecvHandler.Receive "c" "video" sample_incoming (Receiving.st sample_listener sample_three sample_remote false ∅) =
      (Ok (RecvHandler.mkRecvData "2" 2 7), Receiving.st sample_listener2 n' r' true (<["2" := 2]> ∅)) /\
    remote_ok r' (mkDescription [("0", false); ("1", true); ("2", false)] 1).
Proof.
  apply (Receiving.receive_refines "c" "video" sample_incoming "c" sample_rtcp sample_listener sample_listener2 sample_three sample_remote
    false ∅ 2 7 sample_description).
  - exact sample_remote_ok.
  - exact sample_incoming_receivable.
  - vm_compute. reflexivity.
  - vm_compute. reflexivity.
  - change (RecvHandler.local_id _ _) with "2". compute_done.
  - exact sample_engine_receives.
Defined.

Lemma stop_receiving_refines_witness :
  exists n' r', RecvHandler.StopReceiving "1" (Receiving.st sample_listener sample_three sample_remote true (<["1" := 1]> ∅)) =
      (Ok tt, Receiving.st sample_listener n' r' true (<["1" := 1]> ∅)) /\
    remote_ok r' (mkDescription [("0", false); ("1", true)] 1).
Proof.
  apply (Receiving.stop_receiving_refines "1" 1 (sample_transceiver "video" (Some "1")) "1" 1 true _ _ _ _ _ sample_description).
  - exact sample_remote_ok.
  - reflexivity.
  - reflexivity.
  - reflexivity.
  - reflexivity.
  - intros offer. eexists _, _, _, _. split; [reflexivity|]. split; reflexivity.
Defined.

(** An engine that refuses every remote description. *)
Definition refusing_engine : Engine (option string) := {|
  session_description := string;
  create_description _ sdp := inr sdp;
  native_create_offer _ n := (inr "", n);
  native_create_answer n := (inr "", n);
  native_set_local sdp n := (None, n);
  native_set_remote _ n := (Some "refused", n);
  native_local_description n := engine n;
  native_remote_description _ := None;
  native_set_configuration _ n := (None, n);
  native_set_send_parameters _ _ n := (None, n);
  native_stats _ _ := "";
  native_close n := (tracks n, engine n);
|}.
Definition sample_without_mid : json := jerase "mid" sample_consumer_parameters.

Lemma failed_receive_keeps_section_witness :
  exists n' r', @RecvHandler.Receive _ _ refusing_engine _ _ "c" "video" sample_without_mid
      (Receiving.st sample_listener sample_three sample_remote true (<["0" := 0]> (<["1" := 1]> ∅))) =
    (Throw (MediaSoupClientError "refused"), Receiving.st sample_listener n' r' true (<["0" := 0]> (<["1" := 1]> ∅))) /\
    remote_ok r' (mkDescription [("0", false); ("1", true); ("2", false)] 1).
Proof.
  destruct (@Receiving.failed_receive_keeps_section _ _ refusing_engine _ _ "c" "video" sample_without_mid "c" sample_rtcp
    sample_listener sample_three sample_remote true (<["0" := 0]> (<["1" := 1]> ∅)) sample_description
    (MediaSoupClientError "refused")) as (n' & r' & d' & E & Hr & -> & _).
  - exact sample_remote_ok.
  - destruct sample_receivable as [Hk _ (ssrc & rtx & cname & [He Hr])]. split; [done|by vm_compute|].
    exists ssrc, rtx, cname. split; unfold sample_without_mid; by media_find.
  - vm_compute. reflexivity.
  - vm_compute. reflexivity.
  - apply (bool_decide_unpack _). vm_compute. exact I.
  - intros offer. eexists. vm_compute. reflexivity.
  - exists n', r'. split; [exact E|exact Hr].
Defined.

Lemma stopped_sender_stays_send_only_witness :
  exists n', (_ <- SetTrack 0 None ;; RemoveTrack 0) sample_one = (Ok true, n') /\
    (direction <$> transceivers n' !! 0) = Some kSendOnly.
Proof.
  destruct (Sending.stopped_sender_stays_send_only 0 (sample_transceiver "audio" (Some "0")) sample_one) as [(n' & E & H) _].
  - reflexivity.
  - reflexivity.
  - reflexivity.
  - by eexists.
  - reflexivity.
  - exists n'. split; [exact E|]. rewrite H. reflexivity.
Defined.
