(* ===== verification/TransportSpec.v ===== *)
(** * Properties of the transports

    Sessions: sequences of calls of the application on a send transport and on
    its producers, each of which may return or throw.  The invariant
    of a session, the effect of closing, and that nothing happens afterwards. *)

From stdpp Require Import base list gmap strings pretty.
From Stdlib Require Import ZArith Lia.
From S2P Require Import Prelude Json OrtcValidate OrtcCaps OrtcDerive MediaSectionSpec SdpWrite RemoteSdp RemoteSdpSpec WebRtc PeerConnection Producer Consumer Handler.
From S2P Require Import OrtcMatch Transport Sample Keeps Preserve.

Lemma NoDup_map_filter {A B} (f : A -> B) (P : A -> Prop) `{!forall x, Decision (P x)} l :
  NoDup (map f l) -> NoDup (map f (filter P l)).
Proof.
  induction l as [|x l IH]; [done|]. cbn [map]. intros [Hx Hl]%NoDup_cons. rewrite filter_cons.
  case_decide; [|by apply IH]. apply NoDup_cons. split; [|by apply IH]. intros Hin. apply Hx.
  apply list_elem_of_fmap in Hin as (y & -> & [_ Hy]%list_elem_of_filter). by apply list_elem_of_fmap_2.
Qed.

(** ** What the application was told *)

Section answers.
Context `{!Application}.

(** How many connections the application accepted. *)
Fixpoint accepted (before l : list call) : nat :=
  match l with
  | [] => 0
  | c :: r =>
    match c with
    | CallConnect d => if bool_decide (app_connect before d = Ok tt) then 1 else 0
    | _ => 0
    end + accepted (before ++ [c]) r
  end.

(** The producer ids that the server gave, oldest first. *)
Fixpoint produced (before l : list call) : list string :=
  match l with
  | [] => []
  | c :: r =>
    match c with
    | CallProduce kind params appData =>
      match app_produce before kind params appData with Ok id => [id] | _ => [] end
    | _ => []
    end ++ produced (before ++ [c]) r
  end.

Lemma accepted_app before l1 l2 : accepted before (l1 ++ l2) = accepted before l1 + accepted (before ++ l1) l2.
Proof.
  revert before. induction l1 as [|c l1 IH]; intros before; cbn; [by rewrite app_nil_r|].
  rewrite IH, <- app_assoc. cbn. lia.
Qed.
Lemma produced_app before l1 l2 : produced before (l1 ++ l2) = produced before l1 ++ produced (before ++ l1) l2.
Proof.
  revert before. induction l1 as [|c l1 IH]; intros before; cbn; [by rewrite app_nil_r|].
  rewrite IH, <- !app_assoc. done.
Qed.
End answers.

(** The ids of producers and consumers whose listener was told that the
    transport is closed. *)
Definition told_of (c : call) : list string :=
  match c with CallProducerTransportClose id | CallConsumerTransportClose id => [id] | _ => [] end.
Definition told (l : list call) : list string := concat (map told_of l).

Lemma told_app l1 l2 : told (l1 ++ l2) = told l1 ++ told l2.
Proof. unfold told. by rewrite map_app, concat_app. Qed.

(** ** Handlers seen from the transport *)

Section frames.
Context {E : Type} `{!Engine E, !Application, !JsonDump}.

(** The transport is not closed, nobody is told so, and no calls are made once
    it is closed. *)
Record quiet (t t' : Transport) : Prop := {
  q_closed : transportClosed t' = transportClosed t;
  q_probator : probatorConsumerCreated t' = probatorConsumerCreated t;
  q_calls : exists l, calls t' = calls t ++ l /\ told l = [] /\ (transportClosed t = true -> l = []);
}.
#[export] Instance quiet_preorder : PreOrder quiet.
Proof.
  split.
  - intros t. split; [done..|]. exists []. by rewrite app_nil_r.
  - intros t u v [Hc1 Hp1 (d1 & E1 & T1 & N1)] [Hc2 Hp2 (d2 & E2 & T2 & N2)]. split; [by rewrite Hc2|by rewrite Hp2|].
    exists (d1 ++ d2). rewrite E2, E1, told_app, T1, T2, app_assoc. split_and!; [done..|].
    intros Hc. rewrite N1, N2 by (by rewrite ?Hc1). done.
Qed.
Lemma quiet_call t c : told_of c = [] -> transportClosed t = false -> quiet t (add_call c t).
Proof. intros Hc Ho. split; [done..|]. exists [c]. unfold told. cbn. by rewrite Hc, Ho. Qed.

(** The application accepted a connection exactly if the handler is ready. *)
Definition connected (s : Transport * Handler E) : Prop :=
  accepted [] (calls s.1) = if transportReady s.2 then 1 else 0.

Record handled (s s' : Transport * Handler E) : Prop := {
  h_quiet : quiet s.1 s'.1;
  h_connected : connected s -> connected s';
  h_pc : is_Some (pc s.2) -> is_Some (pc s'.2);
}.
#[export] Instance handled_preorder : PreOrder handled.
Proof.
  split; [by intros s; split|]. intros s t u [Q1 C1 P1] [Q2 C2 P2]. split; [by etrans|auto..].
Qed.

(** Before the application is asked, nothing it could see changes. *)
Definition unseen (s s' : Transport * Handler E) : Prop :=
  s'.1 = s.1 /\ transportReady s'.2 = transportReady s.2 /\ (is_Some (pc s.2) -> is_Some (pc s'.2)).
#[export] Instance unseen_preorder : PreOrder unseen.
Proof.
  split; [by intros s|]. intros s t u (H1 & R1 & P1) (H2 & R2 & P2). unfold unseen. rewrite H2, R2. split_and!; auto.
Qed.
Lemma unseen_handled s s' : unseen s s' -> handled s s'.
Proof. destruct s as [t h], s' as [t' h']. intros (Ht & Hr & Hp). cbn in *. subst. split; [done| |done]. unfold connected. cbn. by rewrite Hr. Qed.

Lemma on_pc_unseen {A} (m : M (native E) A) : keeps unseen (on_pc m).
Proof. apply keeps_zoom_any; [apply _|]. intros [t h] n. by repeat split. Qed.
Lemma on_remoteSdp_unseen {A} (m : M RemoteSdp A) : keeps unseen (on_remoteSdp m).
Proof. apply keeps_zoom_any; [apply _|]. intros [t h] n. by repeat split. Qed.
Hint Resolve on_pc_unseen on_remoteSdp_unseen : keeps.

(** The end of [SetupTransport]. *)
Lemma connect_handled d (s : Transport * Handler E) : transportReady s.2 = false ->
  handled s ((on_listener (OnConnect d) ;;; on_self (with_ready true)) s).2.
Proof.
  destruct s as [t h]. cbn. intros Hr. unfold bind, on_listener, zoom, get, throw, tell. cbn.
  destruct (transportClosed t) eqn:Hc; cbn; [done|].
  destruct (app_connect (calls t) d) as [[]|e|] eqn:Ea; cbn.
  - split; [|unfold connected; cbn|done].
    + by apply quiet_call.
    + rewrite Hr, accepted_app. cbn. intros ->. by rewrite bool_decide_eq_true_2.
  - split; [|unfold connected; cbn|done].
    + by apply quiet_call.
    + rewrite Hr, accepted_app. cbn. intros ->. by rewrite bool_decide_eq_false_2 by (by rewrite Ea).
  - split; [|unfold connected; cbn|done].
    + by apply quiet_call.
    + rewrite Hr, accepted_app. cbn. intros ->. by rewrite bool_decide_eq_false_2 by (by rewrite Ea).
Qed.

(** A prefix that the application does not see. *)
Lemma unseen_bind {A B} (m : M (Transport * Handler E) A) (k : A -> M (Transport * Handler E) B) s :
  keeps unseen m -> transportReady s.2 = false ->
  (forall a s', transportReady s'.2 = false -> handled s' (k a s').2) -> handled s (bind m k s).2.
Proof.
  intros Hm Hr Hk. specialize (Hm s). unfold bind. destruct (m s) as [[a|e|] s']; cbn in *.
  - etrans; [by apply unseen_handled|]. apply Hk. destruct Hm as (_ & -> & _). done.
  - by apply unseen_handled.
  - by apply unseen_handled.
Qed.

Lemma SetupTransport_handled role j s : transportReady s.2 = false -> handled s (SetupTransport role j s).2.
Proof.
  intros Hr. unfold SetupTransport.
  apply unseen_bind; [keep|done|]. intros a s1 H1. apply unseen_bind; [keep|done|]. intros b s2 H2.
  apply unseen_bind; [keep|done|]. intros c s3 H3. cbv zeta. apply unseen_bind; [keep|done|]. intros [] s4 H4.
  by apply connect_handled.
Qed.

Lemma handled_frame : handler_frame handled.
Proof.
  split; [apply _|..].
  - intros l h n. apply unseen_handled. by repeat split.
  - intros l h r. apply unseen_handled. by repeat split.
  - intros l h m. apply unseen_handled. by repeat split.
  - intros role j s. apply SetupTransport_handled.
Qed.
End frames.

(** ** Sessions of a send transport *)

Module SendSession.
Import SendTransport.

Section session.
Context {E : Type} `{!Engine E, !Application, !JsonDump}.

Definition same_producer (p p' : Producer.Producer) : Prop :=
  Producer.id p' = Producer.id p /\ Producer.localId p' = Producer.localId p /\ Producer.closed p' = Producer.closed p.
#[export] Instance same_producer_preorder : PreOrder same_producer.
Proof. split; [by intros p|]. intros p q r (H1 & H2 & H3) (K1 & K2 & K3). unfold same_producer. by rewrite K1, K2, K3. Qed.

Definition view (t : SendTransport E) : Transport * Handler E := (transport t, SendHandler.handler (sendHandler t)).

(** No new producer and none closed. *)
Record steady (t t' : SendTransport E) : Prop := {
  st_heap : Forall2 same_producer (heap t) (heap t');
  st_producers : producers t' = producers t;
  st_caps : extendedRtpCapabilities t' = extendedRtpCapabilities t /\ canProduceByKind t' = canProduceByKind t;
  st_handled : handled (view t) (view t');
}.
#[export] Instance steady_preorder : PreOrder steady.
Proof.
  split; [by intros t; split|]. intros t u v [H1 P1 [C1 D1] Q1] [H2 P2 [C2 D2] Q2].
  split; [by etrans|by rewrite P2|by rewrite C2, D2|by etrans].
Qed.

Lemma on_sendHandler_steady {A} (m : M (Transport * SendHandler.SendHandler E) A) :
  keeps (of_handler handled) m -> keeps steady (on_sendHandler m).
Proof. intros Hm. eapply keeps_zoom; [apply _|exact Hm|]. by intros t u v [= <-] Huv; split. Qed.

Let F := handled_frame (E := E).
Hint Resolve on_sendHandler_steady : keeps.
Hint Extern 1 (keeps (of_handler _) (SendHandler.StopSending _)) => apply StopSending_keeps, F : keeps.
Hint Extern 1 (keeps (of_handler _) (SendHandler.Send _ _ _)) => apply Send_keeps, F : keeps.
Hint Extern 1 (keeps (of_handler _) (SendHandler.ReplaceTrack _ _)) => apply ReplaceTrack_keeps, F : keeps.
Hint Extern 1 (keeps (of_handler _) (SendHandler.SetMaxSpatialLayer _ _)) => apply SetMaxSpatialLayer_keeps, F : keeps.
Hint Extern 1 (keeps (of_handler _) (SendHandler.GetSenderStats _)) => apply GetSenderStats_keeps, F : keeps.
Hint Extern 1 (keeps (of_handler _) (SendHandler.RestartIce _)) => apply send_RestartIce_keeps, F : keeps.
Hint Extern 1 (keeps (of_handler _) (SendHandler.on_native _)) => apply on_native_keeps, F : keeps.
Hint Extern 1 (keeps (of_handler _) (SendHandler.on_handler _)) => apply on_handler_keeps; [apply F|] : keeps.
Hint Extern 1 (keeps handled Handler.Close) => apply handler_Close_keeps, F : keeps.
Hint Extern 1 (keeps handled GetTransportStats) => apply GetTransportStats_keeps, F : keeps.
Hint Extern 1 (keeps handled (Handler.UpdateIceServers _)) => apply UpdateIceServers_keeps, F : keeps.

(** *** Operations that keep the producers *)

Lemma GetStats_steady : keeps steady GetStats.
Proof. unfold GetStats, if_open. keep. Qed.
Lemma RestartIce_steady ice : keeps steady (RestartIce ice).
Proof. unfold RestartIce, if_open. keep. Qed.
Lemma UpdateIceServers_steady j : keeps steady (UpdateIceServers j).
Proof. unfold UpdateIceServers, if_open. keep. Qed.

(** With the producer that is running beside. *)
Definition psteady (s s' : SendTransport E * Producer.Producer) : Prop := steady s.1 s'.1 /\ same_producer s.2 s'.2.
#[export] Instance psteady_preorder : PreOrder psteady.
Proof. split; [by intros s|]. intros s t u [H1 P1] [H2 P2]. split; by etrans. Qed.

Lemma on_owner_psteady {A} (m : M (SendTransport E) A) : keeps steady m -> keeps psteady (Producer.on_owner m).
Proof. intros Hm. eapply keeps_zoom; [apply _|exact Hm|]. by intros s t t' [= <-] Hs; split. Qed.
Lemma this_psteady : keeps psteady Producer.this.
Proof. unfold Producer.this. keep. Qed.
Lemma track_op_psteady {A} (m : M (native E) A) : keeps psteady (Producer.track_op m).
Proof. apply on_owner_psteady. cbn. auto with keeps. Qed.
Hint Resolve on_owner_psteady this_psteady track_op_psteady : keeps.

Lemma Pause_psteady : keeps psteady Producer.Pause.
Proof. unfold Producer.Pause. keep. Qed.
Lemma Resume_psteady : keeps psteady Producer.Resume.
Proof. unfold Producer.Resume. keep. Qed.
Lemma producer_GetStats_psteady : keeps psteady Producer.GetStats.
Proof. unfold Producer.GetStats. cbn. unfold OnGetStats. keep. apply on_owner_psteady. keep. Qed.
Lemma producer_ReplaceTrack_psteady t : keeps psteady (Producer.ReplaceTrack t).
Proof.
  unfold Producer.ReplaceTrack, Producer.IsPaused. cbn. unfold OnReplaceTrack. keep.
Qed.
Lemma producer_SetMaxSpatialLayer_psteady z : keeps psteady (Producer.SetMaxSpatialLayer z).
Proof.
  unfold Producer.SetMaxSpatialLayer, Producer.GetKind. cbn. unfold OnSetMaxSpatialLayer. keep.
Qed.

Lemma on_producer_steady {A} n (m : M (SendTransport E * Producer.Producer) A) : keeps psteady m -> keeps steady (on_producer n m).
Proof.
  intros Hm t. unfold on_producer. destruct (heap t !! n) as [p|] eqn:Hn; [|done].
  specialize (Hm (t, p)). destruct (m (t, p)) as [o [t' p']]. destruct Hm as [[Hh Hp Hc Hq] Hs]; cbn in *.
  split; [|done..]. cbn. destruct (Forall2_lookup_l _ _ _ _ _ Hh Hn) as (q & Hq' & _).
  rewrite <- (list_insert_id (heap t) n p) by done. by apply Forall2_insert.
Qed.
(** *** The invariant *)

(** Ids of producers are unique, as the server makes them, and the listeners of
    producers return. *)
Class OrderlyApplication : Prop := {
  fresh_ids : forall before kind params appData id,
    app_produce before kind params appData = Ok id -> id ∉ produced [] before;
  listeners_return : forall before id, app_producer_closed before id = Ok tt;
}.

Record send_inv (t : SendTransport E) : Prop := {
  si_nodup : NoDup (map Producer.id (heap t));
  si_ids : forall p, p ∈ heap t -> Producer.id p ∈ produced [] (calls (transport t));
  si_open : transportClosed (transport t) = false -> forall k n, producers t !! k = Some n <->
    exists p, heap t !! n = Some p /\ Producer.id p = k /\ Producer.closed p = false;
  si_closed : transportClosed (transport t) = true -> Forall (fun p => Producer.closed p = true) (heap t);
  si_told : NoDup (told (calls (transport t))) /\
    (transportClosed (transport t) = false -> told (calls (transport t)) = []);
  si_connected : connected (view t);
  si_pc : is_Some (pc (view t).2);
}.

Lemma same_ids (l l' : list Producer.Producer) : Forall2 same_producer l l' -> map Producer.id l' = map Producer.id l.
Proof. induction 1 as [|p p' l l' (H1 & _) _ IH]; cbn; congruence. Qed.

Lemma same_lookup (l l' : list Producer.Producer) n p k b : Forall2 same_producer l l' ->
  l !! n = Some p -> Producer.id p = k -> Producer.closed p = b ->
  exists p', l' !! n = Some p' /\ Producer.id p' = k /\ Producer.closed p' = b.
Proof.
  intros Hl Hn Hk Hb. destruct (Forall2_lookup_l _ _ _ _ _ Hl Hn) as (p' & Hn' & Hi & _ & Hc).
  exists p'. by rewrite Hi, Hc.
Qed.

Lemma same_lookup_inv (l l' : list Producer.Producer) n p k b : Forall2 same_producer l l' ->
  l' !! n = Some p -> Producer.id p = k -> Producer.closed p = b ->
  exists p', l !! n = Some p' /\ Producer.id p' = k /\ Producer.closed p' = b.
Proof.
  intros Hl Hn Hk Hb. destruct (Forall2_lookup_r _ _ _ _ _ Hl Hn) as (p' & Hn' & Hi & _ & Hc).
  exists p'. by rewrite <- Hi, <- Hc.
Qed.

Lemma in_ids (l : list Producer.Producer) p : p ∈ l -> Producer.id p ∈ map Producer.id l.
Proof. intros Hp. by apply list_elem_of_fmap_2. Qed.

Lemma steady_inv t t' : steady t t' -> send_inv t -> send_inv t'.
Proof.
  intros [Hh Hp _ [[Hc _ (l & El & Tl & Nl)] HC Hpc]] [I1 I2 I3 I4 I5 I6 I7]. cbn in *. split; [..|by apply HC|by apply Hpc].
  - by rewrite (same_ids _ _ Hh).
  - intros p Hin. rewrite El, produced_app. apply elem_of_app. left.
    apply list_elem_of_lookup in Hin as [n Hn].
    destruct (same_lookup_inv _ _ _ _ _ _ Hh Hn eq_refl eq_refl) as (p' & Hn' & <- & _).
    apply I2. by eapply list_elem_of_lookup_2.
  - rewrite Hc, Hp. intros Ho k n. rewrite (I3 Ho k n).
    split; intros (p & Hn & Hk & Hcl); [by eapply same_lookup|by eapply same_lookup_inv].
  - rewrite Hc. intros Hcl. specialize (I4 Hcl). rewrite Forall_lookup in I4. apply Forall_lookup. intros n p Hn.
    destruct (same_lookup_inv _ _ _ _ _ _ Hh Hn eq_refl eq_refl) as (p' & Hn' & _ & <-). by eapply I4.
  - by rewrite Hc, El, told_app, Tl, app_nil_r.
Qed.

Definition open_inv (t : SendTransport E) : Prop := transportClosed (transport t) = false /\ send_inv t.
Lemma steady_open t t' : steady t t' -> open_inv t -> open_inv t'.
Proof. intros Hs [Ho Hi]. split; [|by eapply steady_inv]. destruct Hs as [_ _ _ [[Hc _ _] _ _]]. cbn in Hc. by rewrite Hc. Qed.

Lemma keeps_steady_open {A} (m : M (SendTransport E) A) : keeps steady m -> keeps (maintains open_inv) m.
Proof. intros Hm t. unfold maintains. apply steady_open, Hm. Qed.

(** *** Creating a producer *)

Lemma tell_steady {A} c (answer : list call -> outcome A) t : told_of c = [] -> (forall d, c <> CallConnect d) ->
  transportClosed (transport t) = false -> steady t (on_transport (tell c answer) t).2.
Proof.
  intros Hc Hd Ho. split; [done..|]. cbn. split; [by apply quiet_call| |done].
  unfold connected. cbn. rewrite accepted_app. intros ->. destruct c; try done; [by destruct (Hd dtlsParameters)|cbn; lia..].
Qed.

Lemma announce_steady kind d appData t : transportClosed (transport t) = false -> steady t (announce kind d appData t).2.
Proof.
  intros Ho. unfold announce. destruct (validateRtpParameters _) as [[u|e|] params]; cbn; [|done..].
  pose proof (tell_steady (CallProduce kind params appData) (fun before => app_produce before kind params appData) t eq_refl ltac:(done) Ho) as Hs.
  unfold bind. cbn. cbn in Hs. by destruct (app_produce _ _ _ _) as [id|e|].
Qed.

(** The id that the server gave is new. *)
Lemma announce_id `{!OrderlyApplication} kind d appData (t : SendTransport E) r t' : announce kind d appData t = (Ok r, t') ->
  (fst r ∉ produced [] (calls (transport t))) /\ fst r ∈ produced [] (calls (transport t')) /\ heap t' = heap t.
Proof.
  unfold announce. destruct (validateRtpParameters _) as [[u|e|] params]; cbn; [|done..].
  unfold bind, on_transport, zoom, tell. cbn.
  destruct (app_produce (calls (transport t)) kind params appData) as [id|e|] eqn:Ep; cbn; [|done..].
  intros [= <- <-]. cbn. split_and!; [by eapply fresh_ids| |done].
  rewrite produced_app. cbn. rewrite Ep. set_solver.
Qed.

Definition push (p : Producer.Producer) (t : SendTransport E) : SendTransport E :=
  with_producers (<[Producer.id p := length (heap t)]> (producers t)) (with_heap (heap t ++ [p]) t).

Lemma push_inv p t : open_inv t -> Producer.closed p = false -> Producer.id p ∉ map Producer.id (heap t) ->
  Producer.id p ∈ produced [] (calls (transport t)) -> open_inv (push p t).
Proof.
  intros [Ho [I1 I2 I3 I4 I5 I6 I7]] Hp Hid Hpr. split; [done|]. split; cbn; [| | | |done..].
  - rewrite map_app. apply NoDup_app. split_and!; [done| |apply NoDup_singleton].
    intros k Hk. cbn. by intros ->%list_elem_of_singleton.
  - intros q [Hq| ->%list_elem_of_singleton]%elem_of_app; auto.
  - intros _ k n. rewrite lookup_insert_Some. split.
    + intros [[<- <-]|[Hne Hn]].
      * exists p. by rewrite list_lookup_middle.
      * apply (I3 Ho) in Hn as (q & Hn & Hk & Hc). exists q. split; [by apply lookup_app_l_Some|done].
    + intros (q & Hn & Hk & Hc). apply lookup_app_Some in Hn as [Hn|[Hl Hn]].
      * right. split; [|apply (I3 Ho); by exists q]. intros Heq. apply Hid. rewrite Heq, <- Hk.
        eapply in_ids, list_elem_of_lookup_2, Hn.
      * apply list_lookup_singleton_Some in Hn as [Hn ->]. left. split; [done|lia].
  - by rewrite Ho.
Qed.

Lemma announce_push `{!OrderlyApplication} kind d appData (new : string * json -> Producer.Producer) (stop : M (SendTransport E) unit) :
  (forall r, Producer.closed (new r) = false /\ Producer.id (new r) = fst r) -> keeps steady stop ->
  keeps (maintains open_inv)
    (r <- try_catch (announce kind d appData) is_msc_error (fun e => stop ;;; throw e) ;;
     fun t => (Ok (length (heap t)), push (new r) t)).
Proof.
  intros Hnew Hstop t [Ho Hi]. unfold bind, try_catch.
  pose proof (announce_steady kind d appData t Ho) as Hs.
  destruct (announce kind d appData t) as [[r|e|] t'] eqn:Ea; cbn in Hs; [|destruct (is_msc_error e)|];
    [|specialize (Hstop t')|by eapply steady_open..].
  - destruct (announce_id _ _ _ _ _ _ Ea) as (Hfresh & Hin & Hheap). destruct (Hnew r) as [Hc Hid].
    apply push_inv; [by eapply steady_open|done| |by rewrite Hid].
    rewrite Hid, Hheap. intros Hk. apply list_elem_of_fmap in Hk as (p & Hp & Hk). apply Hfresh. rewrite Hp. by apply Hi.
  - assert (steady t (stop t').2) as Hs' by (by etrans).
    destruct (stop t') as [[[]|e'|] t'']; cbn in *; by eapply steady_open.
Qed.

Lemma Produce_open `{!OrderlyApplication} track encs options appData :
  keeps (maintains open_inv) (Produce track encs options appData).
Proof.
  unfold Produce. apply keeps_get_bind. intros t0. destruct (transportClosed (transport t0)); [by intros ?|].
  destruct track as [p|]; [|by intros ?]. generalize (canProduceByKind t0) as caps. intros caps. revert t0.
  match goal with |- forall t, maintains _ t (?m t).2 => change (keeps (maintains open_inv) m) end.
  apply keeps_bind; [apply _|apply keeps_steady_open; auto with keeps|]. intros tr.
  destruct (ended tr); [keep|]. destruct (negb _); [keep|].
  apply keeps_bind; [apply _|keep|]. intros o.
  apply keeps_bind; [apply _|apply keeps_steady_open; auto with keeps|]. intros d.
  apply (announce_push _ _ _ (fun r => newProducer r.1 (SendHandler.localId d) (SendHandler.rtpSender d) p r.2 appData));
    [done|auto with keeps].
Qed.

Lemma Produce_inv `{!OrderlyApplication} track encs options appData t : send_inv t ->
  send_inv (Produce track encs options appData t).2.
Proof.
  intros Hi. destruct (transportClosed (transport t)) eqn:Ho.
  - unfold Produce, bind, get. by rewrite Ho.
  - by apply (Produce_open track encs options appData t).
Qed.

(** *** Closing a producer *)

Lemma mark_closed_lookup (l : list Producer.Producer) n p : l !! n = Some p ->
  map Producer.id (<[n := Producer.mark_closed p]> l) = map Producer.id l.
Proof.
  intros Hn. change (map Producer.id ?x) with (Producer.id <$> x). rewrite list_fmap_insert. cbn.
  apply list_insert_id. by rewrite list_lookup_fmap, Hn.
Qed.

(** The producer at [n] closed and no longer listed. *)
Definition dropped (n : nat) (p : Producer.Producer) (t : SendTransport E) : SendTransport E :=
  with_producers (delete (Producer.id p) (producers t)) (with_heap (<[n := Producer.mark_closed p]> (heap t)) t).

Lemma dropped_inv n p t : open_inv t -> heap t !! n = Some p -> open_inv (dropped n p t).
Proof.
  intros [Ho [I1 I2 I3 I4 I5 I6 I7]] Hn. split; [done|]. split; cbn; [| | | |done..].
  - by rewrite (mark_closed_lookup _ _ _ Hn).
  - intros q Hq. apply list_elem_of_lookup in Hq as [m Hm]. apply list_lookup_insert_Some in Hm as [(_ & <- & _)|[_ Hm]];
      cbn; apply I2; by eapply list_elem_of_lookup_2.
  - intros _ k m. rewrite lookup_delete_Some, (I3 Ho k m). split.
    + intros [Hne (q & Hm & Hk & Hc)]. exists q. split; [|done]. rewrite list_lookup_insert_ne; [done|].
      intros <-. rewrite Hn in Hm. injection Hm as <-. done.
    + intros (q & Hm & Hk & Hc). apply list_lookup_insert_Some in Hm as [(_ & <- & _)|[Hne Hm]]; [done|].
      split; [|by exists q]. intros Heq. apply Hne. rewrite NoDup_alt in I1.
      apply (I1 n m k); [by rewrite list_lookup_fmap, Hn; cbn; rewrite Heq|by rewrite list_lookup_fmap, Hm; cbn; rewrite Hk].
  - by rewrite Ho.
Qed.

(** Where the producer is stored does not matter to the transport. *)
Lemma stop_steady n p t : heap t !! n = Some p -> transportClosed (transport t) = false ->
  steady (dropped n p t) (on_producer n Producer.Close t).2 \/ (on_producer n Producer.Close t).2 = t.
Proof.
  intros Hn Ho. unfold on_producer. rewrite Hn. unfold Producer.Close, Producer.this, bind, get, ret. cbn.
  destruct (Producer.closed p) eqn:Hc.
  - right. cbn. rewrite list_insert_id by done. by destruct t.
  - left. unfold Producer.on_owner, zoom. cbn. unfold OnClose, bind, get, modify. cbn. rewrite Ho.
    set (t1 := with_producers _ t).
    assert (keeps steady (on_sendHandler (SendHandler.StopSending (Producer.localId p)))) as Hk by auto with keeps.
    specialize (Hk t1). cbn [fst snd Producer.set_this Producer.mark_closed Producer.localId].
    destruct (on_sendHandler _ t1) as [o t2]. destruct Hk as [Hh Hp Hcaps Hv]. cbn in *.
    split; [|done..]. cbn. by apply Forall2_insert.
Qed.

Lemma producer_Close_inv n t : send_inv t -> send_inv (on_producer n Producer.Close t).2.
Proof.
  intros Hi. destruct (heap t !! n) as [p|] eqn:Hn; [|by unfold on_producer; rewrite Hn].
  destruct (transportClosed (transport t)) eqn:Ho.
  - pose proof (si_closed _ Hi Ho) as Hall. rewrite Forall_lookup in Hall. specialize (Hall _ _ Hn). cbn in Hall.
    unfold on_producer. rewrite Hn. unfold Producer.Close, Producer.this, bind, get, ret. cbn. rewrite Hall. cbn.
    rewrite list_insert_id by done. by destruct t.
  - destruct (stop_steady n p t Hn Ho) as [Hs| ->]; [|done].
    eapply steady_inv; [exact Hs|]. by apply dropped_inv.
Qed.

(** *** Closing the transport *)

(** The state after the producers at the pointers [l] were told. *)
Definition close_at (k : string) (n : nat) (t : SendTransport E) : SendTransport E :=
  match heap t !! n with
  | Some p => with_heap (<[n := Producer.mark_closed p]> (heap t))
                (with_transport (add_call (CallProducerTransportClose k) (transport t)) t)
  | None => t
  end.

Lemma TransportClosed_ok `{!OrderlyApplication} k n p t : heap t !! n = Some p -> Producer.id p = k ->
  Producer.closed p = false -> on_producer n Producer.TransportClosed t = (Ok tt, close_at k n t).
Proof.
  intros Hn Hk Hc. unfold on_producer, close_at. rewrite Hn. unfold Producer.TransportClosed, Producer.this, bind, get, ret.
  cbn. rewrite Hc. cbn. unfold Producer.on_owner, zoom, on_transport, tell. cbn. unfold zoom. cbn.
  by rewrite listeners_return, Hk.
Qed.

Lemma close_loop `{!OrderlyApplication} (l : list (string * nat)) : NoDup (map snd l) -> forall t,
  (forall k n, (k, n) ∈ l -> exists p, heap t !! n = Some p /\ Producer.id p = k /\ Producer.closed p = false) ->
  exists t', for_list l (fun kv => on_producer kv.2 Producer.TransportClosed) t = (Ok tt, t') /\
    transport t' = mkTransport (transportId (transport t)) (transportClosed (transport t)) (connectionState (transport t))
      (maxSctpMessageSize (transport t)) (probatorConsumerCreated (transport t)) (transportAppData (transport t))
      (calls (transport t) ++ map CallProducerTransportClose (map fst l)) /\
    sendHandler t' = sendHandler t /\ map Producer.id (heap t') = map Producer.id (heap t) /\
    (forall n p, heap t !! n = Some p -> exists p', heap t' !! n = Some p' /\
       Producer.closed p' = (Producer.closed p || bool_decide (n ∈ map snd l))).
Proof.
  induction l as [|[k n] l IH]; intros Hnd t Hl; cbn [for_list map].
  - exists t. rewrite app_nil_r. split_and!; try done; [by destruct (transport t)|].
    intros n p Hn. exists p. by rewrite bool_decide_eq_false_2, orb_false_r by apply not_elem_of_nil.
  - apply NoDup_cons in Hnd as [Hni Hnd]. destruct (Hl k n) as (p & Hn & Hk & Hc); [by left|].
    rewrite (bind_ok _ _ _ _ _ (TransportClosed_ok k n p t Hn Hk Hc)).
    destruct (IH Hnd (close_at k n t)) as (t' & -> & Ht & Hs & Hids & Hcl).
    { intros k' n' Hin. destruct (Hl k' n') as (q & Hq & ?); [by right|]. exists q. split; [|done].
      unfold close_at. rewrite Hn. cbn. rewrite list_lookup_insert_ne; [done|]. intros <-. apply Hni.
      by apply (list_elem_of_fmap_2 snd _ (k', n)). }
    unfold close_at in Ht, Hs, Hids, Hcl. rewrite Hn in Ht, Hs, Hids, Hcl. cbn in Ht, Hs, Hids, Hcl.
    exists t'. split_and!; [done| |done|by rewrite Hids, (mark_closed_lookup _ _ _ Hn)|].
    + rewrite Ht. cbn. by rewrite <- app_assoc.
    + intros m q Hm. destruct (decide (m = n)) as [->|Hne].
      * rewrite Hn in Hm. injection Hm as <-.
        destruct (Hcl n (Producer.mark_closed p)) as (p' & Hp' & Hcp'); [by rewrite list_lookup_insert_eq by (by eapply lookup_lt_Some)|].
        exists p'. split; [done|]. rewrite Hcp'. cbn. by rewrite bool_decide_eq_true_2, orb_true_r by left.
      * destruct (Hcl m q) as (p' & Hp' & Hcp'); [by rewrite list_lookup_insert_ne|].
        exists p'. split; [done|]. rewrite Hcp'. f_equal. apply bool_decide_ext. rewrite elem_of_cons. split; [by right|by intros [->|?]].
Qed.

Lemma told_closes ks : told (map CallProducerTransportClose ks) = ks.
Proof. unfold told. induction ks as [|k ks IH]; cbn; [done|]. by rewrite IH. Qed.
Lemma accepted_closes before ks : accepted before (map CallProducerTransportClose ks) = 0.
Proof. revert before. induction ks as [|k ks IH]; intros before; cbn; [done|]. apply IH. Qed.

(** What is listed in an open transport are its open producers. *)
Lemma listed_elem t k n : open_inv t -> (k, n) ∈ map_to_list (producers t) ->
  exists p, heap t !! n = Some p /\ Producer.id p = k /\ Producer.closed p = false.
Proof. intros [Ho Hi] Hin%elem_of_map_to_list. by apply (si_open _ Hi Ho). Qed.
Lemma open_listed t n p : open_inv t -> heap t !! n = Some p -> Producer.closed p = false ->
  (Producer.id p, n) ∈ map_to_list (producers t).
Proof. intros [Ho Hi] Hn Hc. apply elem_of_map_to_list, (si_open _ Hi Ho). by exists p. Qed.
Lemma listed_nodup t : open_inv t -> NoDup (map snd (map_to_list (producers t))).
Proof.
  intros Hi. apply NoDup_fmap_2_strong; [|apply NoDup_map_to_list]. intros [k n] [k' n'] H1 H2. cbn. intros <-.
  destruct (listed_elem _ _ _ Hi H1) as (p & Hp & <- & _), (listed_elem _ _ _ Hi H2) as (q & Hq & <- & _).
  rewrite Hp in Hq. by injection Hq as <-.
Qed.

(** The handler closes the connection and changes nothing else. *)
Lemma close_handler t : is_Some (pc (view t).2) -> exists h,
  on_sendHandler (SendHandler.on_handler Handler.Close) t = (Ok tt, with_sendHandler h t) /\
  transportReady (SendHandler.handler h) = transportReady (view t).2 /\ is_Some (pc (SendHandler.handler h)).
Proof.
  destruct t as [tr sh ps hp ex ca]. intros [n Hn]. cbn in *.
  unfold on_sendHandler, SendHandler.on_handler, Handler.Close, on_pc, zoom. cbn. rewrite Hn.
  unfold PeerConnection.Close, native_Close. cbn. destruct (native_close _) as [ts e]. by eexists.
Qed.

(** The ids that were told are those of the open producers. *)
Lemma closed_told t : open_inv t ->
  map fst (map_to_list (producers t)) ≡ₚ map Producer.id (filter (fun p => Producer.closed p = false) (heap t)).
Proof.
  intros Hi. apply NoDup_Permutation.
  - apply NoDup_fst_map_to_list.
  - apply NoDup_map_filter, Hi.
  - intros k. rewrite !list_elem_of_fmap. split.
    + intros ([k' n] & -> & Hin). destruct (listed_elem _ _ _ Hi Hin) as (p & Hp & <- & Hc). exists p. split; [done|].
      apply list_elem_of_filter. split; [done|]. by eapply list_elem_of_lookup_2.
    + intros (p & -> & [Hc Hin]%list_elem_of_filter). apply list_elem_of_lookup in Hin as [n Hn].
      exists (Producer.id p, n). split; [done|]. by eapply open_listed.
Qed.

(** Closing an open transport. *)
Lemma Close_ok `{!OrderlyApplication} t : open_inv t ->
  exists t', Close t = (Ok tt, t') /\ send_inv t' /\ transportClosed (transport t') = true /\
    Forall (fun p => Producer.closed p = true) (heap t') /\
    map Producer.id (heap t') = map Producer.id (heap t) /\
    told (calls (transport t')) ≡ₚ map Producer.id (filter (fun p => Producer.closed p = false) (heap t)).
Proof.
  intros Hoi. pose proof Hoi as [Ho [I1 I2 I3 I4 [I5 I5'] I6 I7]]. unfold Close.
  rewrite (bind_ok get _ _ _ _ eq_refl), Ho. set (t1 := with_transport (set_closed (transport t)) t).
  rewrite (bind_ok (on_transport (modify set_closed)) _ t t1 tt eq_refl). destruct (close_handler t1 I7) as (h & Eh & Hr & Hpc).
  rewrite (bind_ok _ _ _ _ _ Eh), (bind_ok get _ _ _ _ eq_refl).
  destruct (close_loop _ (listed_nodup _ Hoi) (with_sendHandler h t1)) as (t' & Erun & Ht & Hs & Hids & Hcl).
  { intros k n. exact (listed_elem t k n Hoi). }
  cbn [heap with_sendHandler with_transport t1] in Hids, Hcl, Hs.
  assert (calls (transport t') = calls (transport t) ++ map CallProducerTransportClose (map fst (map_to_list (producers t))))
    as Hcalls by (by rewrite Ht).
  assert (transportClosed (transport t') = true) as Hclosed by (by rewrite Ht). clear Ht.
  assert (Forall (fun p => Producer.closed p = true) (heap t')) as Hall.
  { apply Forall_lookup. intros n p' Hn. destruct (lookup_lt_is_Some_2 (heap t) n) as [p Hp].
    { apply lookup_lt_Some in Hn. by rewrite <- (length_map Producer.id), <- Hids, length_map. }
    destruct (Hcl n p Hp) as (p'' & Hn' & Hc). rewrite Hn in Hn'. injection Hn' as <-. rewrite Hc.
    destruct (Producer.closed p) eqn:Hcp; [done|]. apply bool_decide_eq_true_2.
    apply (list_elem_of_fmap_2 snd _ (Producer.id p, n)). by apply open_listed. }
  assert (told (calls (transport t')) = map fst (map_to_list (producers t))) as Htold.
  { by rewrite Hcalls, told_app, told_closes, (I5' Ho). }
  exists t'. split; [exact Erun|]. split_and!; [|done..|by rewrite Htold; apply closed_told]. split.
  - by rewrite Hids.
  - intros p Hp%in_ids. rewrite Hids in Hp. rewrite Hcalls, produced_app. apply elem_of_app. left.
    apply list_elem_of_fmap in Hp as (q & -> & Hq). by apply I2.
  - by rewrite Hclosed.
  - done.
  - rewrite Htold, Hclosed. split; [apply NoDup_fst_map_to_list|done].
  - unfold connected, view in *. cbn [fst snd] in *. rewrite Hcalls, Hs, accepted_app, accepted_closes, Nat.add_0_r.
    cbn [sendHandler with_sendHandler]. by rewrite Hr.
  - unfold view. by rewrite Hs.
Qed.

(** *** What never goes back *)

(** Producers stay where they are and keep their ids, what is closed stays
    closed, and the calls are only added to. *)
Definition aged (p p' : Producer.Producer) : Prop :=
  Producer.id p' = Producer.id p /\ Producer.localId p' = Producer.localId p /\
  (Producer.closed p = true -> Producer.closed p' = true).
Record later (t t' : SendTransport E) : Prop := {
  lt_heap : forall n p, heap t !! n = Some p -> exists p', heap t' !! n = Some p' /\ aged p p';
  lt_closed : transportClosed (transport t) = true -> transportClosed (transport t') = true;
  lt_calls : exists l, calls (transport t') = calls (transport t) ++ l;
}.
#[export] Instance aged_preorder : PreOrder aged.
Proof. split; [by intros p|]. intros p q r (H1 & H2 & H3) (K1 & K2 & K3). unfold aged. rewrite K1, K2. by split_and!; auto. Qed.
#[export] Instance later_preorder : PreOrder later.
Proof.
  split.
  - intros t. split; [|done|exists []; by rewrite app_nil_r]. intros n p Hn. by exists p.
  - intros t u v [H1 C1 (l1 & L1)] [H2 C2 (l2 & L2)]. split; [|auto|exists (l1 ++ l2); by rewrite L2, L1, app_assoc].
    intros n p Hn. destruct (H1 n p Hn) as (q & Hq & A1), (H2 n q Hq) as (r & Hr & A2). exists r. split; [done|by etrans].
Qed.

Lemma steady_later t t' : steady t t' -> later t t'.
Proof.
  intros [Hh _ _ [[Hc _ (l & El & _)] _ _]]. cbn in *. split; [|by rewrite Hc|by exists l].
  intros n p Hn. destruct (Forall2_lookup_l _ _ _ _ _ Hh Hn) as (p' & Hn' & Hi & Hl & Hcl).
  exists p'. split; [done|]. unfold aged. by rewrite Hi, Hl, Hcl.
Qed.
Lemma keeps_steady_later {A} (m : M (SendTransport E) A) : keeps steady m -> keeps later m.
Proof. intros Hm t. apply steady_later, Hm. Qed.
Lemma on_sendHandler_later {A} (m : M (Transport * SendHandler.SendHandler E) A) :
  keeps (of_handler handled) m -> keeps later (on_sendHandler m).
Proof. intros Hm. by apply keeps_steady_later, on_sendHandler_steady. Qed.
Lemma tell_later {A} c (answer : list call -> outcome A) : keeps later (on_transport (tell c answer)).
Proof. intros t. split; [|done|by exists [c]]. intros n p Hn. by exists p. Qed.
Lemma with_producers_later f : keeps later (modify (fun t => with_producers (f t) t)).
Proof. intros t. split; [|done|exists []; by rewrite app_nil_r]. intros n p Hn. by exists p. Qed.
Lemma set_closed_later : keeps later (on_transport (modify set_closed)).
Proof. intros t. split; [|done|exists []; by rewrite app_nil_r]. intros n p Hn. by exists p. Qed.
Lemma push_later p t : later t (push p t).
Proof.
  split; [|done|exists []; by rewrite app_nil_r]. intros n q Hn. exists q. split; [|done]. cbn. by apply lookup_app_l_Some.
Qed.
Hint Resolve on_sendHandler_later tell_later with_producers_later set_closed_later : keeps.

(** With the producer that is running beside. *)
Definition plater (s s' : SendTransport E * Producer.Producer) : Prop := later s.1 s'.1 /\ aged s.2 s'.2.
#[export] Instance plater_preorder : PreOrder plater.
Proof. split; [by intros s|]. intros s t u [H1 P1] [H2 P2]. split; by etrans. Qed.
Lemma psteady_plater {A} (m : M (SendTransport E * Producer.Producer) A) : keeps psteady m -> keeps plater m.
Proof. intros Hm s. destruct (Hm s) as [H1 (H2 & H3 & H4)]. split; [by apply steady_later|]. unfold aged. by rewrite H2, H3, H4. Qed.
Lemma on_owner_plater {A} (m : M (SendTransport E) A) : keeps later m -> keeps plater (Producer.on_owner m).
Proof. intros Hm. eapply keeps_zoom; [apply _|exact Hm|]. by intros s t t' [= <-] Hs; split. Qed.
Lemma mark_closed_plater : keeps plater (Producer.set_this Producer.mark_closed).
Proof. intros s. by split. Qed.
Lemma this_plater : keeps plater Producer.this.
Proof. unfold Producer.this. keep. Qed.
Hint Resolve on_owner_plater mark_closed_plater this_plater : keeps.

Lemma on_producer_later {A} n (m : M (SendTransport E * Producer.Producer) A) : keeps plater m -> keeps later (on_producer n m).
Proof.
  intros Hm t. unfold on_producer. destruct (heap t !! n) as [p|] eqn:Hn; [|done].
  specialize (Hm (t, p)). destruct (m (t, p)) as [o [t' p']]. destruct Hm as [[Hh Hc Hl] Ha]. cbn in *.
  split; [|done..]. intros k q Hk. cbn. destruct (decide (n = k)) as [<-|Hne].
  - rewrite Hn in Hk. injection Hk as <-. destruct (Hh n p Hn) as (r & Hr & _). exists p'.
    split; [|done]. apply list_lookup_insert_eq. by eapply lookup_lt_Some.
  - rewrite list_lookup_insert_ne by done. by apply Hh.
Qed.

Lemma Producer_Close_later n : keeps later (on_producer n Producer.Close).
Proof. apply on_producer_later. unfold Producer.Close. cbn. unfold OnClose. keep. apply on_owner_plater. keep. Qed.
Lemma TransportClosed_later n : keeps later (on_producer n Producer.TransportClosed).
Proof. apply on_producer_later. unfold Producer.TransportClosed. cbn. keep. Qed.
Hint Resolve Producer_Close_later TransportClosed_later : keeps.
Lemma Close_later : keeps later Close.
Proof. unfold Close. keep. Qed.
Lemma Produce_later track encs options appData : keeps later (Produce track encs options appData).
Proof.
  unfold Produce, announce. keep. unfold keeps. intros t. apply push_later.
Qed.
Lemma OnIceConnectionChange_later s : keeps later (OnIceConnectionChange s).
Proof.
  intros t. unfold OnIceConnectionChange, Handler.OnIceConnectionChange, on_sendHandler, SendHandler.on_handler, on_listener, zoom.
  cbn. unfold bind, modify, tell. cbn. split; [|done|by eexists]. intros n p Hn. by exists p.
Qed.

(** *** Sessions *)

Inductive op :=
| OpProduce (track : option nat) (encs : option (list RtpEncodingParameters)) (codecOptions : option json) (appData : json)
| OpClose
| OpGetStats
| OpRestartIce (iceParameters : json)
| OpUpdateIceServers (iceServers : json)
| OpIceState (newState : IceConnectionState)
| OpProducerClose (n : nat)
| OpProducerGetStats (n : nat)
| OpPause (n : nat)
| OpResume (n : nat)
| OpReplaceTrack (n : nat) (track : option nat)
| OpSetMaxSpatialLayer (n : nat) (spatialLayer : Z).

Definition drop {S A} (m : M S A) : M S unit := _ <- m ;; ret tt.
Definition run (o : op) : M (SendTransport E) unit :=
  match o with
  | OpProduce track encs codecOptions appData => drop (Produce track encs codecOptions appData)
  | OpClose => Close
  | OpGetStats => drop GetStats
  | OpRestartIce ice => RestartIce ice
  | OpUpdateIceServers servers => UpdateIceServers servers
  | OpIceState s => OnIceConnectionChange s
  | OpProducerClose n => on_producer n Producer.Close
  | OpProducerGetStats n => drop (on_producer n Producer.GetStats)
  | OpPause n => on_producer n Producer.Pause
  | OpResume n => on_producer n Producer.Resume
  | OpReplaceTrack n track => on_producer n (Producer.ReplaceTrack track)
  | OpSetMaxSpatialLayer n z => on_producer n (Producer.SetMaxSpatialLayer z)
  end.

(** The application goes on after an exception, not after undefined behaviour. *)
Inductive session : SendTransport E -> list op -> SendTransport E -> Prop :=
| session_nil t : session t [] t
| session_cons t o r t1 ops t2 : run o t = (r, t1) -> r <> Undef -> session t1 ops t2 -> session t (o :: ops) t2.

(** The state that a sequence of calls leads to, and whether it is defined. *)
Fixpoint play (ops : list op) (t : SendTransport E) : SendTransport E :=
  match ops with [] => t | o :: ops => play ops (run o t).2 end.
Fixpoint playable (ops : list op) (t : SendTransport E) : bool :=
  match ops with
  | [] => true
  | o :: ops => match run o t with (Undef, _) => false | (_, t1) => playable ops t1 end
  end.
Lemma play_session ops t : playable ops t = true -> session t ops (play ops t).
Proof.
  revert t. induction ops as [|o ops IH]; intros t; cbn; [constructor|].
  destruct (run o t) as [[[]|e|] t1] eqn:Er; intros Hp; [| |done]; econstructor; [exact Er|done|by apply IH|exact Er|done|by apply IH].
Qed.

Lemma keeps_drop {S A} (R : S -> S -> Prop) (m : M S A) : keeps R m -> keeps R (drop m).
Proof. intros Hm s. specialize (Hm s). unfold drop, bind. by destruct (m s) as [[a|e|] s']. Qed.

Lemma OnIceConnectionChange_inv s t : send_inv t -> send_inv (OnIceConnectionChange s t).2.
Proof.
  intros [I1 I2 I3 I4 I5 I6 I7].
  unfold OnIceConnectionChange, Handler.OnIceConnectionChange, on_sendHandler, SendHandler.on_handler, on_listener, zoom.
  cbn. unfold bind, modify, tell. cbn [fst snd]. split; try done.
  - intros p Hp. cbn. rewrite produced_app. apply elem_of_app. left. by apply I2.
  - cbn [transport with_sendHandler with_transport calls add_call set_state]. rewrite told_app. cbn. by rewrite app_nil_r.
  - unfold connected in *. cbn [view fst snd transport with_sendHandler with_transport calls add_call set_state].
    rewrite accepted_app. cbn. by rewrite !Nat.add_0_r.
Qed.

(** The operations that leave the set of open producers alone. *)
Definition run_steady (o : op) : bool :=
  match o with OpProduce _ _ _ _ | OpClose | OpProducerClose _ | OpIceState _ => false | _ => true end.
Lemma run_keeps_steady o : run_steady o = true -> keeps steady (run o).
Proof.
  destruct o; try done; intros _; cbn [run]; try apply keeps_drop.
  - apply GetStats_steady.
  - apply RestartIce_steady.
  - apply UpdateIceServers_steady.
  - apply on_producer_steady, producer_GetStats_psteady.
  - apply on_producer_steady, Pause_psteady.
  - apply on_producer_steady, Resume_psteady.
  - apply on_producer_steady, producer_ReplaceTrack_psteady.
  - apply on_producer_steady, producer_SetMaxSpatialLayer_psteady.
Qed.

Lemma run_inv `{!OrderlyApplication} o t : send_inv t -> send_inv (run o t).2.
Proof.
  intros Hi. destruct (run_steady o) eqn:Hs; [by eapply steady_inv, Hi; apply run_keeps_steady|].
  destruct o; try done; cbn [run].
  - apply (keeps_drop (maintains send_inv)); [|done]. intros u Hu. by apply Produce_inv.
  - destruct (transportClosed (transport t)) eqn:Ho; [by unfold Close, bind, get; rewrite Ho|].
    destruct (Close_ok t) as (t' & -> & Hi' & _); [done|]. done.
  - by apply OnIceConnectionChange_inv.
  - by apply producer_Close_inv.
Qed.

Lemma run_later o : keeps later (run o).
Proof.
  destruct (run_steady o) eqn:Hs; [by apply keeps_steady_later, run_keeps_steady|].
  destruct o; try done; cbn [run].
  - apply keeps_drop, Produce_later.
  - apply Close_later.
  - apply OnIceConnectionChange_later.
  - apply Producer_Close_later.
Qed.

Lemma session_inv `{!OrderlyApplication} t ops t' : session t ops t' -> send_inv t -> send_inv t'.
Proof.
  induction 1 as [|t o r t1 ops t2 Er _ _ IH]; [done|]. intros Hi. apply IH.
  change t1 with (r, t1).2. rewrite <- Er. by apply run_inv.
Qed.
Lemma session_later t ops t' : session t ops t' -> later t t'.
Proof.
  induction 1 as [|t o r t1 ops t2 Er _ _ IH]; [done|]. etrans; [|exact IH].
  change t1 with (r, t1).2. rewrite <- Er. apply run_later.
Qed.

(** *** A new transport *)

Lemma newSendTransport_inv `{!ConnectionFactory E} id ice cands dtls sctp options ts ext can appData t :
  (forall servers, is_Some (create_connection servers)) ->
  newSendTransport id ice cands dtls sctp options ts ext can appData = Ok t -> send_inv t.
Proof.
  intros Hf. unfold newSendTransport. destruct (maxMessageSize sctp) as [z|e|]; cbn [obind]; [|done..].
  destruct (getSendingRtpParameters "audio" ext); cbn [obind]; [|done..].
  destruct (getSendingRtpParameters "video" ext); cbn [obind]; [|done..].
  destruct (getSendingRemoteRtpParameters "audio" ext); cbn [obind]; [|done..].
  destruct (getSendingRemoteRtpParameters "video" ext); cbn [obind]; [|done..].
  unfold SendHandler.newSendHandler, newHandler, newPeerConnection.
  destruct (_ && _); cbn [obind]; [done|]. destruct (newRemoteSdp ice cands dtls sctp) as [r|e|]; cbn [obind]; [|done..].
  intros [= <-]. destruct (Hf (match options with Some (servers, _) => servers | None => [] end)) as [e He].
  assert (forall t0, calls (match z with Some z => set_max_message z t0 | None => t0 end) = calls t0) as Hcalls by (by destruct z).
  assert (forall t0, transportClosed (match z with Some z => set_max_message z t0 | None => t0 end) = transportClosed t0)
    as Hclosed by (by destruct z).
  split; cbn [heap transport producers view]; rewrite ?Hcalls, ?Hclosed.
  - constructor.
  - by intros p Hp%elem_of_nil.
  - intros _ k n. rewrite lookup_empty. split; [done|]. by intros (p & ? & _).
  - done.
  - split; [constructor|done].
  - unfold connected. cbn [fst snd view transport]. by rewrite Hcalls.
  - cbn. by rewrite He.
Qed.

End session.

(** *** The properties *)

Section properties.
Context {E : Type} `{!Engine E, !ConnectionFactory E, !Application, !JsonDump, !OrderlyApplication}.

(** A transport that the device made, with a connection. *)
Definition created (t : SendTransport E) : Prop :=
  (forall servers, is_Some (create_connection (E := E) servers)) /\
  exists id ice cands dtls sctp options ts ext can appData,
    newSendTransport id ice cands dtls sctp options ts ext can appData = Ok t.

Lemma created_inv t : created t -> send_inv t.
Proof. intros [Hf (id & ice & cands & dtls & sctp & options & ts & ext & can & appData & Ht)]. by eapply newSendTransport_inv. Qed.

(** C4: the producers of a send transport through any session, that is any
    sequence of calls of the application on the transport and its producers,
    returning or throwing, whatever libwebrtc and the application answer, but
    that the ids the server gives are new and the listeners of producers
    return ([OrderlyApplication]).  While the transport is open, its map lists
    exactly the producers that are open, each under its own id; once it is closed, all producers are closed; the listeners of
    producers are told so only then and at most once each; the application has
    accepted a connection exactly if the handler is ready, and then once; and
    what was closed, ids and earlier calls never change. *)
Theorem send_session_correct t0 ops1 t1 ops2 t2 : created t0 -> session t0 ops1 t1 -> session t1 ops2 t2 ->
  send_inv t1 /\ send_inv t2 /\ later t1 t2.
Proof.
  intros Hc Hs1 Hs2. pose proof (session_inv _ _ _ Hs1 (created_inv _ Hc)) as I1.
  split_and!; [done|by eapply session_inv|by eapply session_later].
Qed.


(** What a call on a closed transport or on one of its producers answers. *)
Definition invalid {A} (s : string) : outcome A := Throw (MediaSoupClientInvalidStateError s).
Definition closed_answer (o : op) : outcome unit :=
  match o with
  | OpProduce _ _ _ _ => invalid "SendTransport closed"
  | OpGetStats | OpRestartIce _ | OpUpdateIceServers _ => invalid "Transport closed"
  | OpProducerGetStats _ | OpReplaceTrack _ _ | OpSetMaxSpatialLayer _ _ => invalid "Producer closed"
  | OpClose | OpProducerClose _ | OpPause _ | OpResume _ | OpIceState _ => Ok tt
  end.
Definition on_known (t : SendTransport E) (o : op) : Prop :=
  match o with
  | OpProducerClose n | OpProducerGetStats n | OpPause n | OpResume n | OpReplaceTrack n _ | OpSetMaxSpatialLayer n _ =>
    n < length (heap t)
  | OpIceState _ => False
  | _ => True
  end.

Lemma on_closed_producer {A} n (m : M (SendTransport E * Producer.Producer) A) a t : send_inv t ->
  transportClosed (transport t) = true -> n < length (heap t) ->
  (forall p, Producer.closed p = true -> m (t, p) = (a, (t, p))) -> on_producer n m t = (a, t).
Proof.
  intros Hi Hc Hn Hm. apply lookup_lt_is_Some_2 in Hn as [p Hp].
  pose proof (si_closed _ Hi Hc) as Hall. rewrite Forall_lookup in Hall.
  unfold on_producer. rewrite Hp, (Hm p) by (by apply (Hall n)). rewrite list_insert_id by done. by destruct t.
Qed.

End properties.

(** *** A session of the sample environment *)

Lemma sample_produced before l id : id ∈ produced before l -> exists i, id = pretty i /\ length before <= i < length before + length l.
Proof.
  revert before. induction l as [|c l IH]; intros before; cbn [produced]; [by intros ?%elem_of_nil|].
  intros [Hc|[i [-> Hi]]%IH]%elem_of_app.
  - destruct c; try by apply elem_of_nil in Hc. cbn in Hc. apply list_elem_of_singleton in Hc as ->.
    exists (length before). cbn. split; [done|lia].
  - exists i. rewrite length_app in Hi. cbn in *. split; [done|lia].
Qed.
#[export] Instance sample_orderly : OrderlyApplication.
Proof.
  split; [|done]. intros before kind params appData id [= <-] Hin.
  apply sample_produced in Hin as (i & Hi & Hlt). apply pretty_nat_inj in Hi. cbn in Hlt. lia.
Qed.

Definition sample_t0 : SendTransport (option string) :=
  match sample_send_transport with Ok t => t | _ => mkSendTransport (newTransport "" JNull)
    (SendHandler.mkSendHandler (mkHandler None sample_remote false ∅) JNull JNull) ∅ [] JNull ∅ end.
Lemma sample_created : created sample_t0.
Proof.
  split; [by eexists|]. exists "id", sample_ice, sample_candidates, sample_dtls, JNull, None, sample_tracks, sample_extended,
    sample_can, (JObject []). unfold sample_t0. vm_compute. reflexivity.
Qed.
Definition sample_ops : list op :=
  [ OpProduce (Some 0) None None (JObject []); OpProduce (Some 1) (Some [defaultEncoding; defaultEncoding]) None (JObject []);
    OpProduce None None None (JObject []); OpPause 1; OpProducerClose 0 ].
Definition sample_t1 : SendTransport (option string) := play sample_ops sample_t0.
Lemma sample_session : session sample_t0 sample_ops sample_t1.
Proof. apply play_session. vm_compute. reflexivity. Qed.

Lemma send_session_correct_witness :
  send_inv sample_t1 /\ map Producer.closed (heap sample_t1) = [true; false] /\
  send_inv (play [OpClose] sample_t1) /\ later sample_t1 (play [OpClose] sample_t1).
Proof.
  destruct (send_session_correct sample_t0 sample_ops sample_t1 [OpClose] (play [OpClose] sample_t1)) as (H1 & H2 & H3).
  - exact sample_created.
  - exact sample_session.
  - apply play_session. vm_compute. reflexivity.
  - split; [exact H1|]. split; [vm_compute; reflexivity|]. split; [exact H2|exact H3].
Defined.


End SendSession.
