(* ===== verification/ProduceSpec.v ===== *)
(** * Properties of producing

    Producers together with the transport, the handler and the senders of
    libwebrtc below them: the layers of a sender, its encodings and its track,
    and what a call of [SendTransport::Produce] does as a whole. *)

From stdpp Require Import base list gmap strings pretty.
From Stdlib Require Import ZArith Lia Ascii Floats.SpecFloat.
From S2P Require Import Prelude Json Text OrtcValidate OrtcValidateSpec OrtcCaps OrtcMatch OrtcExtended OrtcDerive Utils.
From S2P Require Import MediaSection MediaSectionSpec Regex Grammar SdpWrite SdpParse SdpUtils RemoteSdp RemoteSdpSpec SdpSpec.
From S2P Require Import WebRtc PeerConnection Producer Handler Transport Device Sample Keeps Preserve HandlerSpec TransportSpec.
Import SendHandler.

(** ** Spatial layers *)

(** The reference: of the first three encodings, those below the limit are
    active; a value that is not 1, 2 or 3 changes nothing. *)
Definition layers (k : Z) (l : list RtpEncodingParameters) : list RtpEncodingParameters :=
  if (1 <=? k)%Z && (k <=? 3)%Z
  then imap (fun i e => if (i <? 3)%nat then with_active (Z.of_nat i <? k)%Z e else e) l else l.

Lemma limitLayers_layers k l : limitLayers k l = layers k l.
Proof.
  unfold limitLayers, layers.
  assert (forall a b c, edit_active a b c l =
    imap (fun i e => if (i <? 3)%nat then with_active (match i with 0 => a | 1 => b | _ => c end) e else e) l) as He.
  { intros a b c. destruct l as [|x [|y [|z r]]]; try done. unfold edit_active. cbn. do 3 f_equal.
    symmetry. etransitivity; [apply (imap_ext _ (fun _ e => e)); done|]. change (imap (const (fun e => e)) r = r). by rewrite imap_const, list_fmap_id. }
  destruct (Z.eqb_spec k 1) as [->|]; [|destruct (Z.eqb_spec k 2) as [->|]; [|destruct (Z.eqb_spec k 3) as [->|]]].
  1-3: rewrite He; cbn; apply imap_ext; intros [|[|[|i]]] x _; done.
  destruct (Z.leb_spec 1 k), (Z.leb_spec k 3); cbn; try done. lia.
Qed.

(** Encodings that differ in [active] only. *)
Definition same_layer (e e' : RtpEncodingParameters) : Prop := with_active true e = with_active true e'.
Lemma same_layer_active b e : same_layer e (with_active b e).
Proof. done. Qed.
Lemma layers_same k l : Forall2 same_layer l (layers k l).
Proof.
  unfold layers. destruct (_ && _); [|apply Forall_Forall2_diag, Forall_true; done].
  apply Forall2_same_length_lookup_2; [by rewrite length_imap|]. intros i e e' Hi. rewrite list_lookup_imap, Hi. cbn.
  intros [= <-]. unfold same_layer. by destruct (i <=? 2)%nat.
Qed.

Lemma same_layer_map {A} (f : RtpEncodingParameters -> A) l l' : (forall e, f e = f (with_active true e)) ->
  Forall2 same_layer l l' -> map f l = map f l'.
Proof. intros Hf. induction 1 as [|e e' l l' He _ IH]; [done|]. cbn. by rewrite IH, (Hf e), He, <- (Hf e'). Qed.

Lemma existsb_map {A} (f : A -> bool) l : existsb f l = existsb (fun b => b) (map f l).
Proof. induction l as [|x l IH]; [done|]. cbn. by rewrite IH. Qed.

Lemma same_layer_unimplemented m t t' l l' : Forall2 same_layer l l' ->
  UnimplementedRtpParameterHasValue (mkParameters t m l) = UnimplementedRtpParameterHasValue (mkParameters t' m l').
Proof.
  intros Hl. unfold UnimplementedRtpParameterHasValue. cbn [p_mid encodings]. rewrite !(existsb_map _ l), !(existsb_map _ l').
  rewrite (same_layer_map UnimplementedRtpEncodingParameterHasValue l l') by done. f_equal.
  rewrite (existsb_map _ (tail l)), (existsb_map _ (tail l')). f_equal. destruct Hl; [done|]. by apply same_layer_map.
Qed.

Lemma same_layer_values i p p' l l' : option_Forall2 same_layer p p' -> Forall2 same_layer l l' ->
  check_values i p l = check_values i p' l'.
Proof.
  intros Hp Hl. revert i p p' Hp. induction Hl as [|e e' l l' He _ IH]; intros i p p' Hp; [done|]. cbn [check_values].
  assert (forall A (f : RtpEncodingParameters -> A), (forall e, f e = f (with_active true e)) -> f e = f e') as Hf.
  { intros A f Hf. by rewrite Hf, He, <- Hf. }
  rewrite <- (Hf _ bitrate_priority), <- (Hf _ scale_resolution_down_by), <- (Hf _ min_bitrate_bps), <- (Hf _ max_bitrate_bps),
    <- (Hf _ num_temporal_layers) by done.
  assert (match p with Some q => negb (bool_decide (num_temporal_layers e = num_temporal_layers q)) | None => false end =
          match p' with Some q => negb (bool_decide (num_temporal_layers e = num_temporal_layers q)) | None => false end) as ->.
  { destruct Hp as [q q' Hq|]; [|done]. change (num_temporal_layers q) with (num_temporal_layers (with_active true q)). by rewrite Hq. }
  rewrite (IH (S i) (Some e) (Some e')) by (by constructor). done.
Qed.

(** Parameters that were accepted stay acceptable with other layers active. *)
Lemma accepted_modification t t' l l' : Forall2 same_layer l l' ->
  UnimplementedRtpParameterHasValue (mkParameters t "" l) = false -> CheckRtpParametersValues (mkParameters t "" l) = None ->
  UnimplementedRtpParameterHasValue (mkParameters t' "" l') = false /\
  CheckRtpParametersInvalidModificationAndValues l (mkParameters t' "" l') = None.
Proof.
  intros Hl Hu Hv. split; [by rewrite <- (same_layer_unimplemented _ t t' l l')|].
  unfold CheckRtpParametersInvalidModificationAndValues, CheckRtpParametersValues in *. cbn [encodings] in *.
  rewrite <- (Forall2_length _ _ _ Hl), Nat.eqb_refl, <- (same_layer_map rid l l'), <- (same_layer_map ssrc l l') by done.
  rewrite !bool_decide_eq_true_2 by done. cbn. rewrite <- (same_layer_values 0 None None l l'); [done|constructor|done].
Qed.

(** The encodings that a new transceiver gets were checked. *)
Lemma checked_encodings encs l : checkSendEncodings encs = inr l ->
  UnimplementedRtpParameterHasValue (mkParameters 0 "" l) = false /\ CheckRtpParametersValues (mkParameters 0 "" l) = None.
Proof.
  unfold checkSendEncodings. destruct (_ && _); [done|]. destruct (_ && _); [done|]. destruct (existsb _ _); [done|].
  match goal with |- context [mkParameters 0 "" ?x] => set (l0 := x) end. cbv zeta. clearbody l0.
  destruct (UnimplementedRtpParameterHasValue _) eqn:Hu; [done|]. destruct (CheckRtpParametersValues _) eqn:Hv; [done|].
  by intros [= <-].
Qed.

(** The disabled layers of a channel come back in their places. *)
Lemma restore_ok x given all : map rid given = map rid (filter (fun e => is_disabled x e = false) all) ->
  exists l, RestoreEncodingLayers x given all = Ok l /\ map rid l = map rid all /\
    filter (fun e => is_disabled x e = false) l = given /\
    filter (fun e => is_disabled x e = true) l = filter (fun e => is_disabled x e = true) all.
Proof.
  revert given. induction all as [|e all IH]; intros given Hg.
  - destruct given; [|done]. by exists [].
  - cbn [RestoreEncodingLayers]. rewrite filter_cons in Hg. destruct (is_disabled x e) eqn:Hd.
    + destruct (IH given) as (l & -> & Hr & Hf & Ht); [done|]. exists (e :: l). cbn [obind map].
      rewrite !filter_cons, Hd, Hr. cbn. by rewrite Hf, Ht.
    + case_decide as Hx; [|done]. destruct given as [|g given]; [done|]. injection Hg as Hg1 Hg2.
      destruct (IH given Hg2) as (l & -> & Hr & Hf & Ht). exists (g :: l). cbn [obind map].
      assert (is_disabled x g = false) as Hdg by (unfold is_disabled in *; by rewrite Hg1).
      rewrite !filter_cons, Hd, Hdg, Hr, Hg1. cbn. by rewrite Hf, Ht.
Qed.

Lemma restore_transaction v x given all : RestoreEncodingLayers (with_transaction v x) given all = RestoreEncodingLayers x given all.
Proof.
  revert given. induction all as [|e all IH]; intros given; [done|]. cbn [RestoreEncodingLayers].
  change (is_disabled (with_transaction v x) e) with (is_disabled x e). destruct (is_disabled x e); [by rewrite IH|].
  destruct given as [|g given]; [done|]. by rewrite IH.
Qed.

Lemma none_disabled x l : disabled_rids x = [] -> filter (fun e => is_disabled x e = false) l = l /\
  filter (fun e => is_disabled x e = true) l = [].
Proof.
  intros Hd. assert (forall e, is_disabled x e = false) as Ha.
  { intros e. apply bool_decide_eq_false_2. rewrite Hd. apply not_elem_of_nil. }
  induction l as [|e l [IH1 IH2]]; [done|]. rewrite !filter_cons, Ha. cbn. by rewrite IH1, IH2.
Qed.
Lemma given_ok x k all : exists given,
  (if bool_decide (disabled_rids x = []) then Ok (layers k (filter (fun e => is_disabled x e = false) all))
   else RestoreEncodingLayers x (layers k (filter (fun e => is_disabled x e = false) all)) all) = Ok given /\
  map rid given = map rid all /\
  filter (fun e => is_disabled x e = false) given = layers k (filter (fun e => is_disabled x e = false) all) /\
  filter (fun e => is_disabled x e = true) given = filter (fun e => is_disabled x e = true) all.
Proof.
  assert (forall l, map rid (layers k l) = map rid l) as Hr by (intros l; symmetry; by apply same_layer_map, layers_same).
  case_bool_decide as Hd; [|by apply restore_ok].
  eexists. split; [done|]. rewrite Hr. destruct (none_disabled x all Hd) as [-> ->].
  by destruct (none_disabled x (layers k all) Hd) as [-> ->].
Qed.

Section layers.
Context {E L : Type} `{!Engine E, !HandlerListener L, !JsonDump}.

(** The connection after [GetParameters] of the sender [t]. *)
Definition asked (t : nat) (x : Transceiver) (n : native E) : native E :=
  with_transceivers (<[t := with_transaction (Some (next_uuid n)) x]> (transceivers n)) (with_uuid (S (next_uuid n)) n).

Lemma asked_lookup t x n : transceivers n !! t = Some x ->
  transceivers (asked t x n) !! t = Some (with_transaction (Some (next_uuid n)) x).
Proof. intros Hx. cbn. by rewrite list_lookup_insert_eq by (by eapply lookup_lt_Some). Qed.

(** Both calls of the sender, in terms of what [SetParametersInternal] does. *)
Lemma SetMaxSpatialLayer_steps localId k t x (l : L) (n : native E) r b mp sp rp result n1 x1 : mp !! localId = Some t ->
  transceivers n !! t = Some x -> sender_stopped x = false ->
  SetParametersInternal t (mkParameters (next_uuid n) "" (layers k (GetParametersInternal x))) (asked t x n) = (Ok result, n1) ->
  transceivers n1 !! t = Some x1 ->
  SetMaxSpatialLayer localId k (Sending.st l n r b mp sp rp) =
    (match result with Some message => Throw (MediaSoupClientError (error_message message)) | None => Ok tt end,
     Sending.st l (with_transceivers (<[t := with_transaction None x1]> (transceivers n1)) n1) r b mp sp rp).
Proof.
  intros Hmap Hx Hs Hi Hx1. unfold SetMaxSpatialLayer.
  erewrite bind_ok by (apply Sending.st_handler; unfold find_transceiver, bind, get; cbn; by rewrite Hmap).
  assert (GetParameters t n = (Ok (mkParameters (next_uuid n) "" (GetParametersInternal x)), asked t x n)) as Eg.
  { unfold GetParameters, bind, transceiver_at. by rewrite Hx. }
  rewrite (bind_ok _ _ _ _ _ (Sending.st_native _ _ _ _ _ _ _ _ _ _ Eg)). cbn [transaction_id p_mid encodings].
  rewrite limitLayers_layers.
  assert (SetParameters t (mkParameters (next_uuid n) "" (layers k (GetParametersInternal x))) (asked t x n) =
    (Ok result, with_transceivers (<[t := with_transaction None x1]> (transceivers n1)) n1)) as Es.
  { unfold SetParameters. unfold bind at 1, transceiver_at at 1. rewrite (asked_lookup _ _ _ Hx).
    cbn [sender_stopped with_transaction last_transaction_id transaction_id]. rewrite Hs, Nat.eqb_refl. cbn [negb].
    rewrite (bind_ok _ _ _ _ _ Hi). unfold bind, transceiver_at. by rewrite Hx1. }
  rewrite (bind_ok _ _ _ _ _ (Sending.st_native _ _ _ _ _ _ _ _ _ _ Es)). by destruct result.
Qed.

(** C40: [SetMaxSpatialLayer] agrees with its meaning, the limit on the layers
    written as one rule instead of the cases of the code: of the first three
    encodings those below the limit are active, the others and any further
    ones keep their place, and a limit other than 1, 2 or 3 changes nothing.
    On a sender without a media channel, whose encodings were accepted when its
    transceiver was made, the call returns and these are its encodings; with a
    channel, they are what libwebrtc is given for the layers that are not
    disabled, together with the disabled ones in their places, and the call
    returns or throws as libwebrtc says. *)
Theorem max_spatial_layer_reference localId k t x encs (l : L) (n : native E) r b mp sp rp : mp !! localId = Some t ->
  transceivers n !! t = Some x -> sender_stopped x = false ->
  match channel x with
  | None => checkSendEncodings encs = inr (init_encodings x) ->
    exists n', SetMaxSpatialLayer localId k (Sending.st l n r b mp sp rp) = (Ok tt, Sending.st l n' r b mp sp rp) /\
      transceivers n' = <[t := with_transaction None (with_init (layers k (init_encodings x)) x)]> (transceivers n)
  | Some all => UnimplementedRtpParameterHasValue (mkParameters 0 "" (GetParametersInternal x)) = false ->
    exists given, map rid given = map rid all /\
      filter (fun e => is_disabled x e = false) given = layers k (filter (fun e => is_disabled x e = false) all) /\
      filter (fun e => is_disabled x e = true) given = filter (fun e => is_disabled x e = true) all /\
      forall result n1 x1, native_set_send_parameters t given (asked t x n) = (result, n1) ->
        transceivers n1 !! t = Some x1 ->
        (SetMaxSpatialLayer localId k (Sending.st l n r b mp sp rp)).1 =
          match result with Some message => Throw (MediaSoupClientError (error_message message)) | None => Ok tt end
  end.
Proof.
  intros Hmap Hx Hs. pose proof (layers_same k (GetParametersInternal x)) as Hl.
  assert (GetParametersInternal x = match channel x with None => init_encodings x
    | Some all => filter (fun e => is_disabled x e = false) all end) as Hg by (unfold GetParametersInternal; by rewrite Hs).
  destruct (channel x) as [all|] eqn:Hch.
  - intros Hu. destruct (given_ok x k all) as (given & Eg & Hr & Hf & Ht). exists given. split_and!; [done..|].
    intros result n1 x1 En Hx1.
    rewrite (SetMaxSpatialLayer_steps localId k t x l n r b mp sp rp result n1 x1 Hmap Hx Hs); [done| |done].
    unfold SetParametersInternal. unfold bind at 1, transceiver_at at 1. rewrite (asked_lookup _ _ _ Hx).
    rewrite <- (same_layer_unimplemented _ 0 _ _ _ Hl), Hu. cbn [channel with_transaction]. rewrite Hch, Hg.
    cbn [disabled_rids with_transaction encodings]. rewrite restore_transaction.
    rewrite Eg, lift_bind. unfold native_op. by rewrite En.
  - intros Hc. destruct (checked_encodings _ _ Hc) as [Hu Hv]. rewrite <- Hg in Hu, Hv.
    destruct (accepted_modification 0 (next_uuid n) _ _ Hl Hu Hv) as [Hu' Hv']. rewrite Hg in Hu', Hv'.
    eexists. split.
    + rewrite (SetMaxSpatialLayer_steps localId k t x l n r b mp sp rp None
        (with_transceivers (<[t := with_init (layers k (init_encodings x)) (with_transaction (Some (next_uuid n)) x)]>
           (transceivers (asked t x n))) (asked t x n)) (with_init (layers k (init_encodings x)) (with_transaction (Some (next_uuid n)) x))
        Hmap Hx Hs); [reflexivity| |].
      * unfold SetParametersInternal. unfold bind at 1, transceiver_at at 1. rewrite (asked_lookup _ _ _ Hx), Hg, Hu'.
        cbn [channel with_transaction init_encodings]. by rewrite Hch, Hv'.
      * cbn. rewrite list_insert_insert_eq, list_lookup_insert_eq by (by eapply lookup_lt_Some). done.
    + cbn. by rewrite !list_insert_insert_eq.
Qed.
End layers.

(** ** Encodings of a new sender *)

Lemma zip_rids {A} (f : RtpEncodingParameters -> A) i l : (forall r e, f (with_rid r e) = f e) ->
  map f (zip_with (fun i e => with_rid (pretty i) e) (seq i (length l)) l) = map f l.
Proof. intros Hf. revert i. induction l as [|e l IH]; intros i; [done|]. cbn. by rewrite Hf, IH. Qed.

(** The encodings keep everything but their RIDs, and there are three at most. *)
Lemma checked_same {A} (f : RtpEncodingParameters -> A) l l' : (forall r e, f (with_rid r e) = f e) ->
  checkSendEncodings l = inr l' -> map f l' = take 3 (map f l).
Proof.
  intros Hf. unfold checkSendEncodings. destruct (_ && _); [done|]. destruct (_ && _); [done|]. destruct (existsb _ _); [done|].
  set (l1 := match take kMaxSimulcastStreams l with [e] => [with_rid "" e] | _ => take kMaxSimulcastStreams l end).
  assert (map f l1 = take 3 (map f l)) as H1.
  { rewrite firstn_map. fold kMaxSimulcastStreams. unfold l1. destruct (take _ l) as [|e [|e' r]]; try done. cbn. by rewrite Hf. }
  cbv zeta. set (l2 := if _ && _ then zip_with _ _ l1 else l1).
  assert (map f l2 = map f l1) as H2.
  { unfold l2. destruct (_ && _); [by apply zip_rids|done]. }
  destruct (UnimplementedRtpParameterHasValue _); [done|]. destruct (CheckRtpParametersValues _); [done|].
  intros [= <-]. by rewrite H2, H1.
Qed.

Lemma number_rids_map {A} (f : RtpEncodingParameters -> A) l : (forall r e, f (with_rid r e) = f e) -> map f (number_rids l) = map f l.
Proof.
  intros Hf. unfold number_rids. change (map f ?x) with (f <$> x). rewrite fmap_imap. etransitivity.
  - apply (imap_ext _ (const f)). intros i x _. cbn. apply Hf.
  - apply imap_const.
Qed.
Lemma numbered_map {A} (f : RtpEncodingParameters -> A) l : (forall r e, f (with_rid r e) = f e) ->
  map f (default [] (Sending.numbered (Some l))) = map f l.
Proof. intros Hf. unfold Sending.numbered. cbn [default from_option]. destruct (1 <? length l)%nat; [by apply number_rids_map|done]. Qed.

(** Of more than three encodings libwebrtc's sender has only the first
    three, while the parameters that [Send] makes for the server announce all
    that were given. *)
Theorem simulcast_beyond_three encs sender es : 1 < length encs ->
  checkSendEncodings (default [] (Sending.numbered (Some encs))) = inr sender ->
  length sender = Nat.min 3 (length encs) /\ length (sent_encodings (Sending.numbered (Some encs)) es) = length encs.
Proof.
  intros Hl Hc. split.
  - rewrite <- (length_map active), (checked_same active _ _ ltac:(done) Hc), length_take, (numbered_map active) by done.
    by rewrite length_map.
  - cbn [Sending.numbered]. apply Nat.ltb_lt in Hl as Hl'. rewrite Hl'. unfold sent_encodings.
    assert (length (number_rids encs) = length encs) as Hn by apply length_imap.
    destruct (number_rids encs) as [|e [|e' r]]; cbn [length] in *; [lia..|]. by rewrite length_map.
Qed.

Lemma existsb_take_nil {A} (f : A -> bool) n l : existsb f (take n l) = existsb (fun b => b) (take n (map f l)).
Proof. rewrite (existsb_map f). f_equal. by rewrite firstn_map. Qed.

Lemma unimplemented_refused l : existsb UnimplementedRtpEncodingParameterHasValue (take 3 l) = true ->
  exists message, checkSendEncodings (default [] (Sending.numbered (Some l))) = inl message.
Proof.
  intros Hu. destruct (checkSendEncodings _) as [message|l'] eqn:Hc; [by exists message|].
  pose proof (checked_same UnimplementedRtpEncodingParameterHasValue _ _ ltac:(done) Hc) as Hm.
  rewrite (numbered_map UnimplementedRtpEncodingParameterHasValue) in Hm by done.
  destruct (checked_encodings _ _ Hc) as [Hn _]. exfalso. revert Hn. unfold UnimplementedRtpParameterHasValue. cbn [p_mid encodings].
  rewrite (existsb_map UnimplementedRtpEncodingParameterHasValue l'), Hm, <- existsb_take_nil, Hu. done.
Qed.

(** ** [SendTransport::Produce] as a whole *)

Module Producing.
Import SendTransport.

Section producing.
Context {E : Type} `{!Engine E, !Application, !JsonDump}.

Definition sst (T : Transport) (h : SendHandler.SendHandler E) (ps : gmap string nat) (hp : list Producer.Producer) (ext : json)
    (can : gmap string bool) : SendTransport E := mkSendTransport T h ps hp ext can.

Lemma on_handler_sst {A} (m : M (Transport * SendHandler.SendHandler E) A) T h ps hp ext can o T' h' :
  m (T, h) = (o, (T', h')) -> on_sendHandler m (sst T h ps hp ext can) = (o, sst T' h' ps hp ext can).
Proof. intros Em. unfold on_sendHandler, zoom. cbn. by rewrite Em. Qed.

(** The calls before [Send]: the checks of the transport, the track and the
    options. *)
Record checked (T : Transport) (n : native E) (p : nat) (kind : string) (can : gmap string bool)
    (codecOptions options : option json) : Prop := {
  ck_open : transportClosed T = false;
  ck_track : exists tr, tracks n !! p = Some tr /\ t_kind tr = kind /\ ended tr = false;
  ck_can : is_Some (can !! kind);
  ck_options : checked_options codecOptions = Ok options;
}.

Definition normalized (encs : option (list RtpEncodingParameters)) : option (list RtpEncodingParameters) :=
  Some (map normalizeEncoding (default [] encs)).

(** Announcing what was sent. *)
Definition finish (p : nat) (kind : string) (appData : json) (sendData : SendHandler.SendData) : M (SendTransport E) nat :=
  produced <- try_catch (announce kind sendData appData) is_msc_error
    (fun e => on_sendHandler (SendHandler.StopSending (SendHandler.localId sendData)) ;;; throw e) ;;
  fun t => (Ok (length (heap t)),
    SendSession.push (newProducer produced.1 (SendHandler.localId sendData) (SendHandler.rtpSender sendData) p produced.2 appData) t).

Lemma Produce_steps T n r b mp sp rp ps hp ext can p kind encs codecOptions options appData :
  checked T n p kind can codecOptions options ->
  Produce (Some p) encs codecOptions appData (sst T (Sending.st T n r b mp sp rp).2 ps hp ext can) =
    (sendData <- on_sendHandler (SendHandler.Send (Some p) (normalized encs) options) ;; finish p kind appData sendData)
      (sst T (Sending.st T n r b mp sp rp).2 ps hp ext can).
Proof.
  intros [Ho (tr & Htr & Hk & He) [v Hc] Hopt]. unfold Produce. rewrite (bind_ok get _ _ _ _ eq_refl). cbn [transport sst]. rewrite Ho.
  assert (SendHandler.on_native (track_at p) (Sending.st T n r b mp sp rp) = (Ok tr, Sending.st T n r b mp sp rp)) as Et.
  { apply Sending.st_native. unfold track_at. by rewrite Htr. }
  rewrite (bind_ok _ _ _ _ _ (on_handler_sst _ T _ ps hp ext can _ _ _ Et)), He. cbn [canProduceByKind].
  rewrite Hk, bool_decide_eq_true_2 by by eexists. cbn [negb]. by rewrite Hopt, lift_bind.
Qed.

(** Sending is stopped again for an error of the library, and for no other. *)
Definition given_up (localId : string) (e : exn) (s : SendTransport E) : outcome nat * SendTransport E :=
  if is_msc_error e then (on_sendHandler (SendHandler.StopSending localId) ;;; throw e) s else (Throw e, s).

(** The end of [Produce], by the validity of the parameters and the answer of
    the server. *)
Definition produced_state (p : nat) (kind localId : string) (t : nat) (P appData : json) (s : SendTransport E)
    : outcome nat * SendTransport E :=
  match validateRtpParameters P with
  | (Ok _, params) =>
    let s' := with_transport (add_call (CallProduce kind params appData) (transport s)) s in
    match app_produce (calls (transport s)) kind params appData with
    | Ok id => (Ok (length (heap s)), SendSession.push (newProducer id localId t p params appData) s')
    | Throw e => given_up localId e s'
    | Undef => (Undef, s')
    end
  | (Throw e, _) => given_up localId e s
  | (Undef, _) => (Undef, s)
  end.
Lemma give_up_ok localId e (k : string * json -> M (SendTransport E) nat) s :
  (let '(o, s') := (if is_msc_error e then (on_sendHandler (SendHandler.StopSending localId) ;;; throw e) s else (Throw e, s)) in
   match o with Ok a => k a s' | Throw e0 => (Throw e0, s') | Undef => (Undef, s') end) = given_up localId e s.
Proof.
  unfold given_up. destruct (is_msc_error e); [|done]. unfold bind. by destruct (on_sendHandler _ _) as [[[]|e'|] s'].
Qed.
Lemma finish_ok p kind appData localId t P s :
  finish p kind appData (SendHandler.mkSendData localId t P) s = produced_state p kind localId t P appData s.
Proof.
  unfold finish, announce, produced_state. cbn [SendHandler.rtpParameters SendHandler.localId SendHandler.rtpSender].
  unfold bind at 1, try_catch.
  destruct (validateRtpParameters P) as [[[]|e|] params]; [|apply (give_up_ok localId e (fun r t => (Ok (length (heap t)), _)))|done].
  rewrite lift_bind. unfold bind at 1, on_transport, zoom, tell. cbn [transport].
  destruct (app_produce _ _ _ _) as [id|e|]; [done|apply (give_up_ok localId e (fun r t => (Ok (length (heap t)), _)))|done].
Qed.

(** C12: [Produce] as a whole.  On an open transport, for a live track of a
    kind that is listed, options that validate and a negotiation that succeeds
    as for [Send], the section of the track is opened and answered with its
    text, the sending parameters are validated and handed to the server; with
    the id that the server returns there is one more producer, listed under
    that id, with the mid, the sender, the track and the validated parameters;
    if the parameters do not validate or the server refuses with an error of
    the library, sending is stopped before the error is thrown on, and any
    other exception is thrown on while the section stays open. *)
Theorem produce_composes p kind encs encs' codecOptions options appData mime offer media localId cname es T T' n n' r b mp sp rp
    P answer d ps hp ext can :
  checked T n p kind can codecOptions options ->
  remote_ok r d -> Sending.producible p kind (default [] (Sending.numbered (normalized encs))) encs' options mime n sp rp P answer ->
  Sending.engine_sends (length (transceivers n)) (next_section 0 (d_sections d)).1 offer media localId (Sending.added p kind encs' n) n' ->
  connects b "server" offer T T' -> Sending.sent_media media localId cname es -> mid_free localId (d_sections d) ->
  exists n'' r' sp' P',
    Sending.sent_state d localId kind mime cname (Sending.numbered (normalized encs)) es n' P' n'' r' sp' /\
    Produce (Some p) encs codecOptions appData (sst T (Sending.st T n r b mp sp rp).2 ps hp ext can) =
      produced_state p kind localId (length (transceivers n)) P' appData
        (sst T' (Sending.st T' n'' r' true (<[localId := length (transceivers n)]> mp) sp' rp).2 ps hp ext can).
Proof.
  intros Hck Hr Hp He Hc Hm Hfree.
  destruct (Sending.Send_ok p kind (normalized encs) encs' options mime offer media localId cname es T T' n n' r b mp sp rp P answer d)
    as (n'' & r' & sp' & P' & Es & Hs); [done..|].
  exists n'', r', sp', P'. split; [done|].
  rewrite (Produce_steps _ _ _ _ _ _ _ _ _ _ _ _ _ _ _ _ _ Hck).
  rewrite (bind_ok _ _ _ _ _ (on_handler_sst _ T _ ps hp ext can _ _ _ Es)). by apply finish_ok.
Qed.

(** The new section is where [GetNextMediaSectionIdx] said. *)
Lemma opened_lookup mid l : opened mid l !! (next_section 0 l).1 = Some (mid, false).
Proof.
  unfold opened, next_section. destruct (list_find _ l) as [[i x]|] eqn:Hf; cbn.
  - apply list_find_Some in Hf as (Hi & _). apply list_lookup_insert_eq. by eapply lookup_lt_Some.
  - by apply list_lookup_middle.
Qed.

(** The server refuses with an error of the library. *)
Lemma refused_state p kind localId t P appData e s : is_msc_error e = true ->
  (forall params, app_produce (calls (transport s)) kind params appData = Throw e) ->
  exists e' T, produced_state p kind localId t P appData s =
    (on_sendHandler (SendHandler.StopSending localId) ;;; throw e') (with_transport T s).
Proof.
  intros He Ha. unfold produced_state, given_up. pose proof (validator_wp _ _ validateRtpParameters_validator P) as Hw.
  unfold wp in Hw. destruct (validateRtpParameters P) as [[[]|e'|] params]; [| |done].
  - rewrite Ha, He. eexists e, _. reflexivity.
  - assert (is_msc_error e' = true) as -> by (by destruct e'). exists e', (transport s). by destruct s.
Qed.

(** A producer that the server refuses leaves nothing open.  In the
    situation of [produce_composes], when the server throws an error of the
    library and libwebrtc, which still knows the transceiver by its mid,
    negotiates once more, [Produce] throws; there is no new producer, and the
    section that was opened is closed again, unless it is the first one. *)
Theorem refused_produce_closes_section p kind encs encs' codecOptions options appData mime offer media localId cname es T T' n n' r b mp
    sp rp P answer d ps hp ext can e :
  checked T n p kind can codecOptions options ->
  remote_ok r d -> Sending.producible p kind (default [] (Sending.numbered (normalized encs))) encs' options mime n sp rp P answer ->
  Sending.engine_sends (length (transceivers n)) (next_section 0 (d_sections d)).1 offer media localId (Sending.added p kind encs' n) n' ->
  connects b "server" offer T T' -> Sending.sent_media media localId cname es -> mid_free localId (d_sections d) ->
  is_msc_error e = true -> (forall params, app_produce (calls T') kind params appData = Throw e) ->
  (forall text n'', SetRemoteDescription ANSWER text n' = (Ok tt, n'') -> exists x,
     transceivers n'' !! length (transceivers n) = Some x /\ mid x = Some localId /\ sender_stopped x = false /\
     signaling_closed n'' = false /\ Sending.renegotiates false (Sending.muted (length (transceivers n)) x n'')) ->
  exists e' T2 n2 r2 mp2 sp2,
    Produce (Some p) encs codecOptions appData (sst T (Sending.st T n r b mp sp rp).2 ps hp ext can) =
      (Throw e', sst T2 (Sending.st T2 n2 r2 true mp2 sp2 rp).2 ps hp ext can) /\
    remote_ok r2 (mkDescription (close_at (next_section 0 (d_sections d)).1 localId (opened localId (d_sections d)))
                    (wrap_u 32 (wrap_u 32 (d_version d + 1) + 1))).
Proof.
  intros Hck Hr Hp He Hc Hm Hfree Hmsc Happ Hstop.
  destruct (Sending.Send_ok p kind (normalized encs) encs' options mime offer media localId cname es T T' n n' r b mp sp rp P answer d)
    as (n'' & r' & sp' & P' & Es & [Hr' _ _ _ _ (text & _ & Ea)]); [done..|].
  destruct (Hstop text n'' Ea) as (x & Hx & Hmid & Hss & Hsc & Hre).
  rewrite (Produce_steps _ _ _ _ _ _ _ _ _ _ _ _ _ _ _ _ _ Hck).
  rewrite (bind_ok _ _ _ _ _ (on_handler_sst _ T _ ps hp ext can _ _ _ Es)), finish_ok.
  destruct (refused_state p kind localId (length (transceivers n)) P' appData e
    (sst T' (Sending.st T' n'' r' true (<[localId := length (transceivers n)]> mp) sp' rp).2 ps hp ext can) Hmsc Happ) as (e' & T2 & Ep).
  cbn [Sending.st snd] in Ep |- *. rewrite Ep.
  destruct (Sending.StopSending_ok localId (length (transceivers n)) x localId (next_section 0 (d_sections d)).1 false T2 n'' r' true
    (<[localId := length (transceivers n)]> mp) sp' rp _ Hr') as (n2 & r2 & E2 & Hr2);
    [apply lookup_insert_eq|done..|apply opened_lookup|done|].
  exists e', T2, n2, r2, (<[localId := length (transceivers n)]> mp), sp'. split; [|exact Hr2].
  erewrite bind_ok; [reflexivity|]. by apply on_handler_sst.
Qed.

(** An encoding with dtx or scaleFramerateDownBy, which the transport
    passes on and the handler would announce, cannot be produced: libwebrtc
    implements neither, so that [Produce] throws before anything is changed. *)
Theorem unimplemented_encoding_not_produced p kind encs codecOptions options appData T n r b mp sp rp d ps hp ext can :
  checked T n p kind can codecOptions options -> remote_ok r d -> kind = "audio" \/ kind = "video" ->
  existsb (fun e => bool_decide (is_Some (dtx e)) || bool_decide (is_Some (scale_framerate_down_by e)))
    (take 3 (default [] encs)) = true ->
  Produce (Some p) encs codecOptions appData (sst T (Sending.st T n r b mp sp rp).2 ps hp ext can) =
    (Throw (MediaSoupClientError "error creating transceiver"), sst T (Sending.st T n r b mp sp rp).2 ps hp ext can).
Proof.
  intros Hck Hr Hk Hu. rewrite (Produce_steps _ _ _ _ _ _ _ _ _ _ _ _ _ _ _ _ _ Hck).
  destruct (unimplemented_refused (map normalizeEncoding (default [] encs))) as [message Hm].
  { rewrite existsb_take_nil, map_map, <- existsb_take_nil.
    apply existsb_exists in Hu as (e & Hin & Hu). apply existsb_exists. exists e. split; [done|].
    unfold UnimplementedRtpEncodingParameterHasValue. cbn. apply orb_prop in Hu as [-> | ->]; by rewrite ?orb_true_r. }
  assert (SendHandler.Send (Some p) (normalized encs) options (Sending.st T n r b mp sp rp) =
    (Throw (MediaSoupClientError "error creating transceiver"), Sending.st T n r b mp sp rp)) as Es.
  { unfold SendHandler.Send. rewrite (bind_ok get _ _ _ _ eq_refl). cbn [Sending.st snd SendHandler.handler remoteSdp].
    unfold GetNextMediaSectionIdx. rewrite (next_index_ok _ _ (ro_sections _ _ Hr)), lift_bind.
    destruct Hck as [_ (tr & Htr & Hkt & _) _ _].
    erewrite bind_ok; [|apply Sending.st_native with (n' := n) (o := Ok None)]; [done|].
    unfold AddTransceiver, native_AddTransceiver_track, addTransceiver, bind, track_at. cbn [send_encodings]. rewrite Htr.
    unfold Sending.numbered, normalized in *. rewrite Hm, Hkt. by destruct Hk as [-> | ->]. }
  unfold bind. by erewrite on_handler_sst by exact Es.
Qed.

(** A kind that the device cannot produce is not refused.  [Produce] asks
    whether the kind is listed, not what is listed for it, and the device lists
    both kinds (with false when it cannot send one).  With no codec for the
    kind, the transceiver is added, the local description is set and the
    application connects before reading the first codec throws a JSON type
    error, which is not an error of the library. *)
Theorem unsupported_kind_fails_late p kind encs encs' codecOptions options appData offer media localId cname es T T' n n' r b mp sp rp
    P rtcp d ps hp ext can :
  checked T n p kind can codecOptions options -> can !! kind = Some false ->
  remote_ok r d -> Sending.addable p kind (default [] (Sending.numbered (normalized encs))) encs' n sp P ->
  is_object P = true -> find "rtcp" P = Some rtcp -> is_object rtcp = true -> find "codecs" P = Some (JArray []) ->
  Sending.engine_sends (length (transceivers n)) (next_section 0 (d_sections d)).1 offer media localId (Sending.added p kind encs' n) n' ->
  connects b "server" offer T T' -> Sending.sent_media media localId cname es ->
  exists r' sp', Produce (Some p) encs codecOptions appData (sst T (Sending.st T n r b mp sp rp).2 ps hp ext can) =
      (Throw (JsonTypeError 302), sst T' (Sending.st T' n' r' true mp sp' rp).2 ps hp ext can) /\ remote_ok r' d.
Proof.
  intros Hck _ Hr Hp HPo Hrt Hrto Hcs He Hc Hm.
  destruct (Sending.send_without_codecs p kind (normalized encs) encs' options offer media localId cname es T T' n n' r b mp sp rp P rtcp d)
    as (r' & sp' & Es & Hr'); [done..|].
  exists r', sp'. split; [|done]. rewrite (Produce_steps _ _ _ _ _ _ _ _ _ _ _ _ _ _ _ _ _ Hck).
  unfold bind. by erewrite on_handler_sst by exact Es.
Qed.

(** ** Replacing a track *)

(** The transport with the connection [n]. *)
Definition tst (T : Transport) (n : native E) r b mp sp rp ps hp ext can : SendTransport E :=
  sst T (Sending.st T n r b mp sp rp).2 ps hp ext can.

Lemma track_op_run {A} (m : M (native E) A) T n r b mp sp rp ps hp ext can pr o n' : m n = (o, n') ->
  Producer.track_op m (tst T n r b mp sp rp ps hp ext can, pr) = (o, (tst T n' r b mp sp rp ps hp ext can, pr)).
Proof.
  intros Em. unfold Producer.track_op, Producer.on_owner, zoom. cbn [fst on_tracks send_listener]. unfold tst.
  by erewrite on_handler_sst by (apply Sending.st_native, Em).
Qed.

(** The sender takes a track of its own kind, and ignores another. *)
Definition retracked (t q : nat) (kind : string) (x : Transceiver) (n : native E) : native E :=
  if String.eqb kind (media_type x) then with_transceivers (<[t := with_sender_track (Some q) x]> (transceivers n)) n else n.
Lemma SetTrack_some t q tr x n : transceivers n !! t = Some x -> sender_stopped x = false -> tracks n !! q = Some tr ->
  exists ok, SetTrack t (Some q) n = (Ok ok, retracked t q (t_kind tr) x n).
Proof.
  intros Hx Hs Hq. unfold SetTrack, bind, transceiver_at, track_at, retracked. rewrite Hx, Hs, Hq. cbn [ret].
  destruct (String.eqb _ _); by eexists.
Qed.
Lemma retracked_tracks t q kind x n : tracks (retracked t q kind x n) = tracks n.
Proof. unfold retracked. by destruct (String.eqb _ _). Qed.

Lemma on_replace_run pr q t ok T n r b mp sp rp ps hp ext can pr' n' : mp !! Producer.localId pr = Some t ->
  SetTrack t (Some q) n = (Ok ok, n') ->
  Producer.on_owner (Producer.OnReplaceTrack pr (Some q)) (tst T n r b mp sp rp ps hp ext can, pr') =
    (Ok tt, (tst T n' r b mp sp rp ps hp ext can, pr')).
Proof.
  intros Hmap Et. assert (SendHandler.ReplaceTrack (Producer.localId pr) (Some q) (Sending.st T n r b mp sp rp) =
    (Ok tt, Sending.st T n' r b mp sp rp)) as Er.
  { unfold SendHandler.ReplaceTrack.
    erewrite bind_ok by (apply Sending.st_handler; unfold find_transceiver, bind, get; cbn; by rewrite Hmap).
    by erewrite bind_ok by (apply Sending.st_native, Et). }
  unfold Producer.on_owner. erewrite zoom_ok; [reflexivity|reflexivity|]. exact (on_handler_sst _ T _ ps hp ext can _ _ _ Er).
Qed.

(** Replacing the track of an open producer by another live track.  The
    call returns, the producer holds the new track, and the new track is
    enabled exactly if the old one was, so a paused producer stays paused.  The
    sender takes the new track if it is of the sender's kind; if it is not, the
    refusal of libwebrtc is ignored: the call returns all the same, and the
    sender goes on with the old track. *)
Theorem replace_track_keeps_paused k pr q tr tr0 t x T n r b mp sp rp ps hp ext can :
  hp !! k = Some pr -> Producer.closed pr = false -> mp !! Producer.localId pr = Some t -> transceivers n !! t = Some x ->
  sender_stopped x = false -> tracks n !! q = Some tr -> ended tr = false -> tracks n !! Producer.track pr = Some tr0 ->
  q <> Producer.track pr ->
  on_producer k (Producer.ReplaceTrack (Some q)) (tst T n r b mp sp rp ps hp ext can) =
    (Ok tt, tst T (with_tracks (<[q := mkTrack (t_kind tr) (t_id tr) (enabled tr0) false]> (tracks n)) (retracked t q (t_kind tr) x n))
              r b mp sp rp ps (<[k := Producer.with_track q pr]> hp) ext can).
Proof.
  intros Hk Hc Hmap Hx Hs Hq He Htr0 Hne. unfold on_producer. cbn [heap tst sst]. rewrite Hk.
  destruct (SetTrack_some t q tr x n Hx Hs Hq) as [ok Et]. set (n1 := retracked t q (t_kind tr) x n) in *.
  assert (tracks n1 = tracks n) as Ht1 by apply retracked_tracks.
  assert (Producer.ReplaceTrack (Some q) (tst T n r b mp sp rp ps hp ext can, pr) =
    (Ok tt, (tst T (with_tracks (<[q := mkTrack (t_kind tr) (t_id tr) (enabled tr0) false]> (tracks n)) n1) r b mp sp rp ps hp ext can,
             Producer.with_track q pr))) as ->; [|done].
  unfold Producer.ReplaceTrack. erewrite (bind_ok Producer.this) by reflexivity. cbn [snd]. rewrite Hc.
  erewrite bind_ok by (apply track_op_run; unfold track_at; by rewrite Hq). rewrite He, bool_decide_eq_false_2 by done.
  erewrite bind_ok by (by eapply on_replace_run). erewrite bind_ok.
  2: { unfold Producer.IsPaused. erewrite (bind_ok Producer.this) by reflexivity. cbn [snd].
       erewrite bind_ok by (apply track_op_run; unfold track_at; by rewrite Ht1, Htr0). reflexivity. }
  erewrite (bind_ok (Producer.set_this _)) by reflexivity. cbn [fst snd].
  erewrite bind_ok; [reflexivity|]. apply track_op_run. unfold set_enabled, bind, track_at. rewrite Ht1, Hq.
  by rewrite He, negb_involutive.
Qed.
End producing.
End Producing.

(** ** Samples *)

Lemma max_spatial_layer_reference_witness : exists n',
  SetMaxSpatialLayer "0" 2 (Sending.st sample_listener
    (sample_native [mkTransceiver "video" (Some "0") kSendOnly false (Some 1) false ["0"]
       (map (fun r => with_rid r defaultEncoding) ["r0"; "r1"; "r2"]) None [] None 7]) sample_remote true (<["0" := 0]> ∅) JNull JNull) =
  (Ok tt, Sending.st sample_listener n' sample_remote true (<["0" := 0]> ∅) JNull JNull) /\
  map (fun x => map active (init_encodings x)) (transceivers n') = [[true; true; false]].
Proof.
  destruct (max_spatial_layer_reference "0" 2 0 (mkTransceiver "video" (Some "0") kSendOnly false (Some 1) false ["0"]
      (map (fun r => with_rid r defaultEncoding) ["r0"; "r1"; "r2"]) None [] None 7) (number_rids [defaultEncoding; defaultEncoding; defaultEncoding])
    sample_listener (sample_native [mkTransceiver "video" (Some "0") kSendOnly false (Some 1) false ["0"]
       (map (fun r => with_rid r defaultEncoding) ["r0"; "r1"; "r2"]) None [] None 7]) sample_remote true (<["0" := 0]> ∅) JNull JNull)
    as (n' & En & Ht).
  - reflexivity.
  - reflexivity.
  - reflexivity.
  - vm_compute. reflexivity.
  - exists n'. split; [exact En|]. rewrite Ht. vm_compute. reflexivity.
Defined.

Lemma simulcast_beyond_three_witness : exists sender,
  checkSendEncodings (default [] (Sending.numbered (Some (repeat defaultEncoding 5)))) = inr sender /\ length sender = 3 /\
  length (sent_encodings (Sending.numbered (Some (repeat defaultEncoding 5))) []) = 5.
Proof.
  exists (take 3 (number_rids (repeat defaultEncoding 5))). split; [vm_compute; reflexivity|].
  apply (simulcast_beyond_three (repeat defaultEncoding 5)).
  - cbn. lia.
  - vm_compute. reflexivity.
Defined.

Lemma sample_checked can : is_Some (can !! "audio") -> Producing.checked sample_listener sample_one 0 "audio" can None None.
Proof.
  intros Hc. split; [reflexivity| |done|reflexivity]. eexists. split; [vm_compute; reflexivity|]. split; reflexivity.
Qed.

Definition sample_before (sp : json) (can : gmap string bool) : SendTransport.SendTransport (option string) :=
  Producing.sst sample_listener (Sending.st sample_listener sample_one sample_remote false ∅ sp sample_params).2 ∅ [] JNull can.

Lemma produce_composes_witness : exists n'' r' sp' P',
  remote_ok r' (mkDescription [("0", false); ("1", false)] 1) /\
  SendTransport.Produce (Some 0) None None (JObject []) (sample_before sample_params sample_can) =
    Producing.produced_state 0 "audio" "1" 1 P' (JObject [])
      (Producing.sst sample_listener' (Sending.st sample_listener' n'' r' true (<["1" := 1]> ∅) sp' sample_params).2 ∅ [] JNull sample_can).
Proof.
  destruct (Producing.produce_composes 0 "audio" None [] None None (JObject []) "audio/opus" sample_offered (section_of 1 sample_offered)
    "1" "" [encodingOf (1000, 0)%Z] sample_listener sample_listener' sample_one
    (with_mids sample_added (sample_sdp (transceivers sample_added))) sample_remote false ∅ sample_params sample_params sample_sending
    sample_sending sample_description ∅ [] JNull sample_can) as (n'' & r' & sp' & P' & Hs & E).
  - apply sample_checked. by eexists.
  - exact sample_remote_ok.
  - exact sample_producible.
  - exact sample_engine_sends.
  - exact sample_connects.
  - exact sample_sent_media.
  - split; [done|]. intros [|[|j]]; cbn; done.
  - exists n'', r', sp', P'. split; [exact (Sending.ss_remote _ _ _ _ _ _ _ _ _ _ _ _ Hs)|exact E].
Defined.

(** An application whose server refuses every producer. *)
Definition refusing_server : Application := {|
  app_connect _ _ := Ok tt;
  app_state_change _ _ := Ok tt;
  app_produce _ _ _ _ := Throw (MediaSoupClientError "no");
  app_producer_closed _ _ := Ok tt;
  app_consumer_closed _ _ := Ok tt;
|}.

Lemma refused_produce_closes_section_witness : exists e' T2 n2 r2 mp2 sp2,
  @SendTransport.Produce _ _ refusing_server _ (Some 0) None None (JObject []) (sample_before sample_params sample_can) =
    (Throw e', Producing.sst T2 (Sending.st T2 n2 r2 true mp2 sp2 sample_params).2 ∅ [] JNull sample_can) /\
  remote_ok r2 (mkDescription [("0", false); ("1", true)] 2).
Proof.
  apply (@Producing.refused_produce_closes_section _ _ refusing_server _ 0 "audio" None [] None None (JObject []) "audio/opus" sample_offered
    (section_of 1 sample_offered) "1" "" [encodingOf (1000, 0)%Z] sample_listener sample_listener' sample_one
    (with_mids sample_added (sample_sdp (transceivers sample_added))) sample_remote false ∅ sample_params sample_params sample_sending
    sample_sending sample_description ∅ [] JNull sample_can (MediaSoupClientError "no")).
  - apply sample_checked. by eexists.
  - exact sample_remote_ok.
  - exact sample_producible.
  - exact sample_engine_sends.
  - exists (match extractDtlsParameters sample_offered with Ok dtls => dtls | _ => JNull end). split; vm_compute; reflexivity.
  - exact sample_sent_media.
  - split; [done|]. intros [|[|j]]; cbn; done.
  - reflexivity.
  - reflexivity.
  - intros text n'' [= <-]. eexists. split; [vm_compute; reflexivity|]. split_and!; [reflexivity..|].
    eexists _, _, _, _. split; [reflexivity|]. split; [reflexivity|]. split; [reflexivity|]. intros answer. by eexists.
Defined.

Lemma unimplemented_encoding_not_produced_witness :
  SendTransport.Produce (Some 0) (Some [mkEncoding None None None None (Some ENABLED) kDefaultBitratePriority kDefaultBitratePriority None None
      None None None None None true "" []]) None (JObject []) (sample_before sample_params sample_can) =
    (Throw (MediaSoupClientError "error creating transceiver"), sample_before sample_params sample_can).
Proof.
  apply (Producing.unimplemented_encoding_not_produced 0 "audio" _ None None (JObject []) sample_listener sample_one sample_remote false ∅
    sample_params sample_params sample_description).
  - apply sample_checked. by eexists.
  - exact sample_remote_ok.
  - by left.
  - reflexivity.
Defined.

Definition sample_no_codecs : json := jset "codecs" (JArray []) sample_sending.
Lemma unsupported_kind_fails_late_witness : exists r' sp',
  SendTransport.Produce (Some 0) None None (JObject [])
    (sample_before (mk_obj [("audio", sample_no_codecs)]) (<["audio" := false]> (<["video" := false]> ∅))) =
  (Throw (JsonTypeError 302), Producing.sst sample_listener' (Sending.st sample_listener'
     (with_mids sample_added (sample_sdp (transceivers sample_added))) r' true ∅ sp' sample_params).2 ∅ [] JNull
     (<["audio" := false]> (<["video" := false]> ∅))) /\ remote_ok r' sample_description.
Proof.
  apply (Producing.unsupported_kind_fails_late 0 "audio" None [] None None (JObject []) sample_offered (section_of 1 sample_offered) "1" ""
    [encodingOf (1000, 0)%Z] sample_listener sample_listener' sample_one (with_mids sample_added (sample_sdp (transceivers sample_added)))
    sample_remote false ∅ (mk_obj [("audio", sample_no_codecs)]) sample_params sample_no_codecs (JObject []) sample_description ∅ [] JNull).
  - apply sample_checked. by eexists.
  - reflexivity.
  - exact sample_remote_ok.
  - split; [eexists; split; vm_compute; reflexivity|by left|vm_compute; reflexivity|split; vm_compute; reflexivity].
  - reflexivity.
  - vm_compute. reflexivity.
  - reflexivity.
  - vm_compute. reflexivity.
  - exact sample_engine_sends.
  - exact sample_connects.
  - exact sample_sent_media.
Defined.

(** A producer on the track 1, whose sender is for video, gets an audio track. *)
Import SendTransport.
Definition sample_producer : Producer.Producer := newProducer "id" "0" 0 1 JNull (JObject []).
Lemma replace_track_keeps_paused_witness :
  SendTransport.on_producer 0 (Producer.ReplaceTrack (Some 0)) (Producing.tst sample_listener
      (sample_native [sample_transceiver "video" (Some "0")]) sample_remote true (<["0" := 0]> ∅) JNull JNull ∅ [sample_producer] JNull ∅) =
    (Ok tt, Producing.tst sample_listener
      (with_tracks (<[0 := mkTrack "audio" "t0" true false]> sample_tracks) (sample_native [sample_transceiver "video" (Some "0")]))
      sample_remote true (<["0" := 0]> ∅) JNull JNull ∅ [Producer.with_track 0 sample_producer] JNull ∅).
Proof.
  apply (Producing.replace_track_keeps_paused 0 sample_producer 0 (mkTrack "audio" "t0" true false) (mkTrack "video" "t1" true false) 0
    (sample_transceiver "video" (Some "0"))).
  - reflexivity.
  - reflexivity.
  - reflexivity.
  - reflexivity.
  - reflexivity.
  - vm_compute. reflexivity.
  - reflexivity.
  - vm_compute. reflexivity.
  - done.
Defined.
