(* ===== verification/DeviceSpec.v ===== *)
(** * Properties of the device

    Loading computes what device and router have in common, once; afterwards
    the device creates transports whose remote description is empty and whose
    sending parameters are those of the common capabilities. *)

From stdpp Require Import base list gmap strings pretty.
From Stdlib Require Import ZArith Lia Ascii.
From S2P Require Import Prelude Json OrtcValidate OrtcValidateSpec OrtcCaps OrtcMatch OrtcExtended OrtcDerive MediaSectionSpec.
From S2P Require Import SdpWrite RemoteSdp RemoteSdpSpec WebRtc PeerConnection Handler Transport Device Sample Keeps Preserve HandlerSpec.

Section device.
Context {E : Type} `{!Engine E, !ConnectionFactory E}.

(** ** Loading *)

Lemma validated_ok validate j j' : validate j = (Ok tt, j') -> validated validate j = Ok j'.
Proof. unfold validated. by intros ->. Qed.

(** The members that loading sets. *)
Definition loaded_device (ext recv : json) (audio video : bool) (d : Device) : Device :=
  mkDevice true ext recv (<["video" := video]> (<["audio" := audio]> (canProduceByKind d))) GetNativeSctpCapabilities.

Lemma Load_ok router0 router native0 native options d ext s' recv0 recv audio video :
  Device.loaded d = false -> validateRtpCapabilities router0 = (Ok tt, router) ->
  GetNativeRtpCapabilities (E := E) options = Ok native0 -> validateRtpCapabilities native0 = (Ok tt, native) ->
  getExtendedRtpCapabilities (native, router) = (Ok ext, s') -> canSend "audio" ext = Ok audio -> canSend "video" ext = Ok video ->
  getRecvRtpCapabilities ext = Ok recv0 -> validateRtpCapabilities recv0 = (Ok tt, recv) ->
  Load (E := E) router0 options d = (Ok tt, loaded_device ext recv audio video d).
Proof.
  intros Hd Hr Hn0 Hn He Ha Hv Hrc Hrv. unfold Load. rewrite (bind_ok get _ _ _ _ eq_refl), Hd.
  rewrite (validated_ok _ _ _ Hr), lift_bind, Hn0, lift_bind, (validated_ok _ _ _ Hn), lift_bind, He. cbn [fst]. rewrite lift_bind.
  rewrite (bind_ok (modify _) _ _ _ _ eq_refl), Ha, lift_bind, (bind_ok (modify _) _ _ _ _ eq_refl), Hv, lift_bind.
  rewrite (bind_ok (modify _) _ _ _ _ eq_refl), Hrc, lift_bind, (bind_ok (modify _) _ _ _ _ eq_refl).
  erewrite bind_ok by (eapply zoom_ok; [reflexivity|exact Hrv]). rewrite (bind_ok (modify _) _ _ _ _ eq_refl).
  erewrite bind_ok by (eapply zoom_ok; [reflexivity|]; vm_compute; reflexivity). reflexivity.
Qed.

(** C29: loading a device.  For router and native capabilities that pass
    validation and are complete in the sense of [loadable], [Load] on a device
    that is not loaded returns; the device is loaded, it keeps exactly the
    common capabilities of both sides, its receiving capabilities are valid,
    and for both kinds it can produce what the common capabilities have a
    codec for. *)
Theorem device_load_correct router0 router native0 native options d : Device.loaded d = false ->
  validateRtpCapabilities router0 = (Ok tt, router) -> GetNativeRtpCapabilities (E := E) options = Ok native0 ->
  validateRtpCapabilities native0 = (Ok tt, native) -> loadable native router = true ->
  exists ext recv audio video, Load (E := E) router0 options d = (Ok tt, loaded_device ext recv audio video d) /\
    extends native router ext /\ normalRtpCapabilities recv = true /\
    canSend "audio" ext = Ok audio /\ canSend "video" ext = Ok video /\
    forall kind, CanProduce kind (loaded_device ext recv audio video d) =
      if String.eqb kind "audio" then Ok audio else if String.eqb kind "video" then Ok video else Throw (type_error "invalid kind").
Proof.
  intros Hd Hr Hn0 Hn Hload.
  pose proof (validator_wp _ _ validateRtpCapabilities_validator native0) as Nl.
  pose proof (validator_wp _ _ validateRtpCapabilities_validator router0) as Nr.
  unfold wp in Nl, Nr. rewrite Hn in Nl. rewrite Hr in Nr.
  pose proof (validator_fixed _ _ validateRtpCapabilities_validator _ Nl) as Fl.
  pose proof (validator_fixed _ _ validateRtpCapabilities_validator _ Nr) as Fr.
  destruct (loadable_parts _ _ Hload) as (Rl & Rr & _).
  destruct (getExtended_run _ _ _ _ Fl Fr Rl Rr) as (ext & s' & He & Hext).
  destruct (getRecv_ok _ _ _ Nl Nr Hload Hext) as (recv0 & Hrc & [recv Hrv]%accepts_result).
  destruct (getExtended_loaded _ _ _ _ Fl Fr Hload) as (ext' & s'' & cs & es & He' & Hl). rewrite He in He'. injection He' as <- <-.
  destruct (sending_parameters_ok ext cs es "audio" Hl) as (ca & _ & _ & Ha & _).
  destruct (sending_parameters_ok ext cs es "video" Hl) as (cv & _ & _ & Hv & _).
  pose proof (validator_wp _ _ validateRtpCapabilities_validator recv0) as Nv. unfold wp in Nv. rewrite Hrv in Nv.
  eexists ext, recv, _, _. split_and!; [by eapply Load_ok|done|done|exact Ha|exact Hv|].
  intros kind. unfold CanProduce, if_loaded. cbn [Device.loaded loaded_device negb canProduceByKind].
  destruct (String.eqb_spec kind "audio") as [->|Hka]; cbn [negb andb].
  - by rewrite lookup_insert_ne, lookup_insert_eq by done.
  - destruct (String.eqb_spec kind "video") as [->|Hkv]; cbn [negb]; [by rewrite lookup_insert_eq|done].
Qed.

(** What keeps the flag. *)
Definition same_flag (d d' : Device) : Prop := Device.loaded d' = Device.loaded d.
#[export] Instance same_flag_preorder : PreOrder same_flag.
Proof. split; red; unfold same_flag; congruence. Qed.

(** Loading ends by setting it. *)
Definition ends {A} (m : M Device A) : Prop := forall d,
  match m d with (Ok _, d') => Device.loaded d' = true | (_, d') => Device.loaded d' = Device.loaded d end.
Lemma ends_bind {A B} (m : M Device A) (k : A -> M Device B) : keeps same_flag m -> (forall a, ends (k a)) -> ends (bind m k).
Proof.
  intros Hm Hk d. specialize (Hm d). unfold bind. destruct (m d) as [[a|e|] d1]; cbn in Hm; [|done..].
  specialize (Hk a d1). destruct (k a d1) as [[b|e|] d2]; [done|by rewrite Hk..].
Qed.

(** The flag of the device.  Whatever the arguments, [Load] returns only
    on a device that was not loaded, which is loaded afterwards; if it throws
    or is undefined, the device is as loaded as it was, and on a loaded device
    nothing changes.  Before, no capabilities are given out and no transport
    is created. *)
Theorem device_guards routerCaps options d :
  match Load (E := E) routerCaps options d with
  | (Ok _, d') => Device.loaded d = false /\ Device.loaded d' = true
  | (_, d') => Device.loaded d' = Device.loaded d
  end /\
  (Device.loaded d = true -> Load (E := E) routerCaps options d = (Throw (MediaSoupClientInvalidStateError "already loaded"), d)) /\
  (Device.loaded d = false ->
    let no {A} : outcome A := Throw (MediaSoupClientInvalidStateError "not loaded") in
    GetRtpCapabilities d = no /\ GetSctpCapabilities d = no /\ (forall kind, CanProduce kind d = no) /\
    (forall id ice cands dtls sctp ts appData, CreateSendTransport (E := E) id ice cands dtls sctp options ts appData d = no) /\
    (forall id ice cands dtls sctp ts appData, CreateRecvTransport (E := E) id ice cands dtls sctp options ts appData d = no)).
Proof.
  split_and!.
  - unfold Load. unfold bind at 1, get. destruct (Device.loaded d) eqn:Hd; [done|].
    match goal with |- match ?m d with _ => _ end => assert (ends m) as He end.
    { repeat (apply ends_bind;
        [first [apply keeps_lift; apply _|by apply keeps_modify|by apply keeps_zoom_any; [apply _|]]|intros ?]).
      by intros d1. }
    specialize (He d). rewrite Hd in He. match type of He with match ?x with _ => _ end => by destruct x as [[a|e|] d1] end.
  - intros Hd. unfold Load, bind, get. by rewrite Hd.
  - intros Hd. unfold GetRtpCapabilities, GetSctpCapabilities, CanProduce, CreateSendTransport, CreateRecvTransport, transport_parameters,
      if_loaded. rewrite Hd. by split_and!.
Qed.

(** ** Creating transports *)

(** The parameters that the application got from the server for a transport. *)
Record transport_valid (ice cands dtls sctp ice' cands' dtls' sctp' : json) : Prop := {
  tv_ice : validateIceParameters ice = (Ok tt, ice');
  tv_cands : validateIceCandidates cands = (Ok tt, cands');
  tv_dtls : validateDtlsParameters dtls = (Ok tt, dtls');
  tv_sctp : if is_null sctp then sctp' = sctp else validateSctpParameters sctp = (Ok tt, sctp');
}.

Lemma transport_parameters_ok ice cands dtls sctp ice' cands' dtls' sctp' appData d : Device.loaded d = true ->
  is_object appData = true -> transport_valid ice cands dtls sctp ice' cands' dtls' sctp' ->
  transport_parameters appData ice cands dtls sctp d = Ok (ice', cands', dtls', sctp').
Proof.
  intros Hd Ha [Hi Hc Hdt Hs]. unfold transport_parameters, if_loaded. rewrite Hd, Ha. cbn [negb].
  rewrite (validated_ok _ _ _ Hi), (validated_ok _ _ _ Hc), (validated_ok _ _ _ Hdt). cbn [obind].
  destruct (is_null sctp); cbn [negb]; [by subst|]. by rewrite (validated_ok _ _ _ Hs).
Qed.

Lemma validator_result m normal j j' : validator m normal -> m j = (Ok tt, j') -> normal j' = true.
Proof. intros Hv Hm. pose proof (validator_wp _ _ Hv j) as Hw. unfold wp in Hw. by rewrite Hm in Hw. Qed.

(** The handler of a new transport, with a connection of its own. *)
Lemma newHandler_ok ice cands dtls sctp ice' cands' dtls' sctp' options ts :
  transport_valid ice cands dtls sctp ice' cands' dtls' sctp' ->
  threads_start (E := E) = true -> (forall servers, is_Some (create_connection (E := E) servers)) ->
  exists n r, newHandler (E := E) ice' cands' dtls' sctp' options ts = Ok (mkHandler (Some n) r false ∅) /\
    tracks n = ts /\ transceivers n = [] /\ signaling_closed n = false /\ remote_ok r initial.
Proof.
  intros [Hi Hc Hdt _] Hth Hf.
  destruct (newRemoteSdp_ok ice' cands' dtls' sctp') as (r & Er & Hr & _).
  { by eapply validator_result; [apply validateIceParameters_validator|]. }
  { by eapply validator_result; [apply validateIceCandidates_validator|]. }
  { by eapply validator_result; [apply validateDtlsParameters_validator|]. }
  unfold newHandler, newPeerConnection. rewrite Hth, andb_false_r. cbn [obind]. rewrite Er. cbn [obind].
  destruct (Hf (match options with Some (servers, _) => servers | None => [] end)) as [e ->].
  eexists _, r. by split_and!.
Qed.

Lemma maxMessageSize_ok sctp sctp' : (if is_null sctp then sctp' = sctp else validateSctpParameters sctp = (Ok tt, sctp')) ->
  exists size, SendTransport.maxMessageSize sctp' = Ok size.
Proof.
  intros Hs. unfold SendTransport.maxMessageSize. destruct (negb (is_null sctp') && is_object sctp') eqn:Hn; [|by eexists].
  destruct (is_null sctp) eqn:Hnull; [subst; by rewrite Hnull in Hn|].
  pose proof (validator_result _ _ _ _ validateSctpParameters_validator Hs) as Hv. unfold normalSctpParameters in Hv. split_keys.
  match goal with K : key_ok "maxMessageSize" _ _ = true |- _ => destruct (key_ok_find _ _ _ K) as [Hf Hi] end. rewrite Hf, Hi.
  destruct (member "maxMessageSize" sctp'); try done; by eexists.
Qed.

(** A loaded device creates send transports.  For a device whose common
    capabilities come from complete capabilities as [device_load_correct] has
    them, transport parameters that pass validation and an environment that
    can make connections, [CreateSendTransport] returns a transport that is
    open, with no producers and an empty remote description; for both kinds it
    keeps sending parameters, with a codec exactly if the device can produce
    the kind, and parameters for the remote side. *)
Theorem device_creates_send_transport native router s' id ice cands dtls sctp ice' cands' dtls' sctp' options ts appData d :
  normalRtpCapabilities native = true -> normalRtpCapabilities router = true -> loadable native router = true ->
  getExtendedRtpCapabilities (native, router) = (Ok (extendedRtpCapabilities d), s') -> Device.loaded d = true ->
  is_object appData = true -> transport_valid ice cands dtls sctp ice' cands' dtls' sctp' ->
  threads_start (E := E) = true -> (forall servers, is_Some (create_connection (E := E) servers)) ->
  exists t n r sp rp, CreateSendTransport (E := E) id ice cands dtls sctp options ts appData d =
      Ok (SendTransport.mkSendTransport t (SendHandler.mkSendHandler (mkHandler (Some n) r false ∅) sp rp) ∅ []
            (extendedRtpCapabilities d) (canProduceByKind d)) /\
    transportClosed t = false /\ calls t = [] /\ tracks n = ts /\ transceivers n = [] /\ remote_ok r initial /\
    forall kind, kind = "audio" \/ kind = "video" ->
      exists codecs exts remote, find kind sp = Some (OrtcCaps.rtpParameters JNull codecs exts [] (JObject [])) /\
        canSend kind (extendedRtpCapabilities d) = Ok (negb (json_empty (JArray codecs))) /\ find kind rp = Some remote.
Proof.
  intros Nl Nr Hload He Hd Ha Htv Hth Hf.
  pose proof (validator_fixed _ _ validateRtpCapabilities_validator _ Nl) as Fl.
  pose proof (validator_fixed _ _ validateRtpCapabilities_validator _ Nr) as Fr.
  destruct (getExtended_loaded _ _ _ _ Fl Fr Hload) as (ext & s'' & cs & es & He' & Hl). rewrite He in He'. injection He' as <- <-.
  unfold CreateSendTransport. rewrite (transport_parameters_ok _ _ _ _ _ _ _ _ _ _ Hd Ha Htv). cbn [obind].
  destruct (sending_parameters_ok _ _ _ "audio" Hl) as (ca & ea & Ea & Sa & _), (sending_parameters_ok _ _ _ "video" Hl) as (cv & ev & Ev & Sv & _).
  destruct (remote_parameters_ok _ _ _ "audio" Hl) as (_ & ra & xa & _ & Ra & _), (remote_parameters_ok _ _ _ "video" Hl) as (_ & rv & xv & _ & Rv & _).
  destruct (newHandler_ok _ _ _ _ _ _ _ _ options ts Htv Hth Hf) as (n & r & En & Hn1 & Hn2 & _ & Hr).
  destruct (maxMessageSize_ok _ _ (tv_sctp _ _ _ _ _ _ _ _ Htv)) as [size Es].
  unfold SendTransport.newSendTransport. rewrite Es, Ea, Ev, Ra, Rv. cbn [obind]. unfold SendHandler.newSendHandler. rewrite En. cbn [obind].
  eexists _, n, r, _, _. split; [reflexivity|]. split_and!; [by destruct size|by destruct size|done..|].
  intros kind [-> | ->]; (eexists _, _, _; split_and!; [reflexivity|done|reflexivity]).
Qed.
End device.

(** ** Samples *)

(** An engine that offers opus and VP8. *)
Definition capable_sdp : string := lines (sample_header ++
  [ "m=audio 9 UDP/TLS/RTP/SAVPF 111"; "c=IN IP4 0.0.0.0"; "a=mid:0"; "a=extmap:1 urn:ietf:params:rtp-hdrext:ssrc-audio-level";
    "a=sendrecv"; "a=rtpmap:111 opus/48000/2"; "a=rtcp-fb:111 transport-cc"; "a=fmtp:111 minptime=10";
    "m=video 9 UDP/TLS/RTP/SAVPF 96"; "c=IN IP4 0.0.0.0"; "a=mid:1"; "a=extmap:2 urn:ietf:params:rtp-hdrext:toffset";
    "a=sendrecv"; "a=rtpmap:96 VP8/90000"; "a=rtcp-fb:96 nack pli" ]).
Definition capable_engine : Engine (option string) := {|
  session_description := string;
  create_description _ sdp := inr sdp;
  native_create_offer _ n := (inr capable_sdp, n);
  native_create_answer n := (inr capable_sdp, n);
  native_set_local sdp n := (None, n);
  native_set_remote _ n := (None, n);
  native_local_description n := engine n;
  native_remote_description _ := None;
  native_set_configuration _ n := (None, n);
  native_set_send_parameters _ _ n := (None, n);
  native_stats _ _ := "";
  native_close n := (tracks n, engine n);
|}.
Definition outcome_json (o : outcome json) : json := match o with Ok j => j | _ => JNull end.
Definition capable_native : json := outcome_json (@GetNativeRtpCapabilities _ capable_engine sample_factory None).
Definition capable_valid : json := (validateRtpCapabilities capable_native).2.

Lemma device_load_correct_witness : exists ext recv audio video,
  @Load _ capable_engine sample_factory capable_native None newDevice = (Ok tt, loaded_device ext recv audio video newDevice) /\
  normalRtpCapabilities recv = true.
Proof.
  destruct (@device_load_correct _ capable_engine sample_factory capable_native capable_valid capable_native capable_valid None newDevice)
    as (ext & recv & audio & video & E & _ & Hr & _).
  - reflexivity.
  - vm_compute. reflexivity.
  - vm_compute. reflexivity.
  - vm_compute. reflexivity.
  - vm_compute. reflexivity.
  - exists ext, recv, audio, video. split; [exact E|exact Hr].
Defined.

Definition capable_device : Device := (@Load _ capable_engine sample_factory capable_native None newDevice).2.

Lemma device_creates_send_transport_witness : exists t,
  @CreateSendTransport _ sample_factory "id" sample_ice sample_candidates sample_dtls JNull None sample_tracks (JObject []) capable_device = Ok t /\
  transportClosed (SendTransport.transport t) = false.
Proof.
  destruct (@device_creates_send_transport _ sample_factory capable_valid capable_valid
    (getExtendedRtpCapabilities (capable_valid, capable_valid)).2 "id" sample_ice sample_candidates sample_dtls JNull
    sample_ice sample_candidates sample_dtls JNull None sample_tracks (JObject []) capable_device)
    as (t & n & r & sp & rp & E & Hc & _).
  - vm_compute. reflexivity.
  - vm_compute. reflexivity.
  - vm_compute. reflexivity.
  - vm_compute. reflexivity.
  - vm_compute. reflexivity.
  - reflexivity.
  - split; vm_compute; reflexivity.
  - reflexivity.
  - intros servers. by eexists.
  - eexists. split; [exact E|exact Hc].
Defined.
