(* ===== verification/ConsumeSpec.v ===== *)
(** * Properties of consuming

    Consumers together with the receiving transport and its handler: what a
    call of [RecvTransport::Consume] does as a whole, and the probator that
    the first video consumer brings. *)

From stdpp Require Import base list gmap strings pretty.
From Stdlib Require Import ZArith Lia Ascii.
From S2P Require Import Prelude Json Text OrtcValidate OrtcValidateSpec OrtcCaps OrtcMatch OrtcExtended OrtcDerive Utils.
From S2P Require Import MediaSection MediaSectionSpec Regex Grammar SdpWrite SdpParse SdpUtils RemoteSdp RemoteSdpSpec SdpSpec.
From S2P Require Import WebRtc PeerConnection Consumer Handler Transport Sample Keeps Preserve HandlerSpec.

Module Consuming.
Import RecvTransport.

Section consuming.
Context {E : Type} `{!Engine E, !Application, !JsonDump}.

Definition rst (T : Transport) (n : native E) (r : RemoteSdp) (b : bool) (mp : gmap string nat) (cs : gmap string nat)
    (hp : list Consumer.Consumer) (ext : json) : RecvTransport E :=
  mkRecvTransport T (mkHandler (Some n) r b mp) cs hp ext.

Lemma on_handler_rst {A} (m : M (Transport * Handler E) A) T n r b mp cs hp ext o T' n' r' b' mp' :
  m (Receiving.st T n r b mp) = (o, Receiving.st T' n' r' b' mp') ->
  on_recvHandler m (rst T n r b mp cs hp ext) = (o, rst T' n' r' b' mp' cs hp ext).
Proof. intros Em. unfold on_recvHandler, zoom. cbn. unfold Receiving.st in Em. by rewrite Em. Qed.

(** The arguments of [Consume] that pass its checks. *)
Record consumable (T : Transport) (id producerId kind : string) (params0 params appData ext : json) : Prop := {
  co_open : transportClosed T = false;
  co_ids : id <> "" /\ producerId <> "";
  co_appData : is_object appData = true;
  co_receivable : canReceive ext params0 = (Ok true, params);
  co_receives : receivable kind params;
}.

(** The transport with one more consumer. *)
Definition with_consumer (c : Consumer.Consumer) (t : RecvTransport E) : RecvTransport E :=
  with_consumers (<[Consumer.id c := length (heap t)]> (consumers t)) (with_heap (heap t ++ [c]) t).

End consuming.
End Consuming.

(** ** A sample *)

Definition sample_ext_codecs : json := mk_obj [("codecs", JArray [mk_obj [("remotePayloadType", JInt 101)]])].
