(* ===== verification/Java.v ===== *)
(** * Java: integers, doubles and streams

    What the Java code of src/library uses of the language and of java.io.
    Integers are Z, narrowed where Java narrows them.  A double is its bit
    pattern, since it is only read, written and converted to and from int.  An
    input stream is the bytes until its end, in the segments in which they
    become available: a read of an array returns at most the rest of a segment.
    What a stream writes is a list of bytes. *)

From stdpp Require Import base list strings.
From Stdlib Require Import ZArith Lia.
From S2P Require Import Prelude.
Open Scope Z_scope.

(** ** Integers *)

Definition int (z : Z) : Z := wrap_s 32 z.
Definition long (z : Z) : Z := wrap_s 64 z.
(** [x << k] and [x >>> k] on int. *)
Definition shl (x k : Z) : Z := int (Z.shiftl x k).
Definition ushr (x k : Z) : Z := Z.shiftr (wrap_u 32 x) k.
(** [OutputStream.write(int)] writes the low byte. *)
Definition low_byte (z : Z) : Z := wrap_u 8 z.

Definition is_int (z : Z) : Prop := -2 ^ 31 <= z < 2 ^ 31.
Definition is_byte (z : Z) : Prop := 0 <= z < 256.

(** ** Doubles *)

(** [(double) n] for an int, which is exact: sign, exponent and the bits below
    the leading one. *)
Definition double_of_int (n : Z) : Z :=
  if n =? 0 then 0 else
  let a := Z.abs n in let e := Z.log2 a in
  (if n <? 0 then 2 ^ 63 else 0) + (e + 1023) * 2 ^ 52 + (a - 2 ^ e) * 2 ^ (52 - e).

(** [(int) d]: towards zero, NaN to 0, and values out of range to the nearest
    int. *)
Definition int_of_double (d : Z) : Z :=
  let e := (d / 2 ^ 52) mod 2 ^ 11 in let m := d mod 2 ^ 52 in
  if (e =? 2047) && negb (m =? 0) then 0 else
  let a := if 1075 <=? e then (2 ^ 52 + m) * 2 ^ (e - 1075) else (2 ^ 52 + m) / 2 ^ (1075 - e) in
  let a := if e =? 0 then 0 else a in
  if Z.testbit d 63 then Z.max (- 2 ^ 31) (- a) else Z.min (2 ^ 31 - 1) a.

(** ** Input streams *)

Inductive stream_kind := Buffered | InMemory.
#[global] Instance stream_kind_eq_dec : EqDecision stream_kind.
Proof. solve_decision. Defined.
Record stream := mkStream { s_kind : stream_kind; s_segments : list (list Z) }.

Definition content (s : stream) : list Z := concat (s_segments s).
Definition with_segments l (s : stream) : stream := mkStream (s_kind s) l.

(** The segments from the first that is not empty. *)
Fixpoint available (l : list (list Z)) : list (list Z) :=
  match l with [] :: r => available r | _ => l end.

(** [read()]: -1 at the end. *)
Definition read : M stream Z := fun s =>
  match available (s_segments s) with
  | (b :: seg) :: r => (Ok b, with_segments (seg :: r) s)
  | _ => (Ok (-1), s)
  end.

(** [read(buffer, off, n)]: the bytes read, none at the end.  Of no bytes a
    BufferedInputStream reads none; a ByteArrayInputStream looks for the end
    first. *)
Definition read_array (n : nat) : M stream (option (list Z)) := fun s =>
  match s_kind s, n with
  | Buffered, O => (Ok (Some []), s)
  | _, _ =>
    match available (s_segments s) with
    | seg :: r => (Ok (Some (take n seg)), with_segments (drop n seg :: r) s)
    | [] => (Ok None, s)
    end
  end.

(** [new byte[n]]. *)
Definition new_array (n : Z) : M stream nat :=
  if n <? 0 then throw (Java NegativeArraySizeException) else ret (Z.to_nat n).

(** ** Exceptions *)

Definition is_io_exception (e : exn) : bool :=
  match e with Java (IOException _ | EOFException _ | SocketException _) => true | _ => false end.
Definition is_socket_exception (e : exn) : bool :=
  match e with Java (SocketException _) => true | _ => false end.
Definition is_eof_exception (e : exn) : bool :=
  match e with Java (EOFException _) => true | _ => false end.

(** ** Reading what was written

    [reads W E m bs a]: on every stream that goes on with [bs], [m] takes
    exactly these bytes and returns [a].  If [W], the stream must be one
    segment; if [E], a stream in memory must go on after [bs]. *)

Definition whole (s : stream) : Prop := exists l, s_segments s = [l].

Definition reads (W E : Prop) {A} (m : M stream A) (bs : list Z) (a : A) : Prop := forall s rest,
  content s = bs ++ rest -> (W -> whole s) -> (E -> s_kind s = Buffered \/ rest <> []) ->
  exists s', m s = (Ok a, s') /\ content s' = rest /\ s_kind s' = s_kind s /\ (whole s -> whole s').

Create HintDb reads discriminated.

Lemma reads_weaken (W E W' E' : Prop) {A} (m : M stream A) bs a :
  (W -> W') -> (E -> E') -> reads W E m bs a -> reads W' E' m bs a.
Proof. intros HW HE Hm s rest Hs Hw He. apply (Hm s rest Hs); auto. Qed.

Lemma reads_ret W E {A} (a : A) : reads W E (ret a) [] a.
Proof. intros s rest Hs _ _. by exists s. Qed.

(** Where more bytes follow, the end does not matter for the first part. *)
Lemma reads_bind (W E E1 : Prop) {A B} (m : M stream A) (k : A -> M stream B) bs bs' a b :
  reads W E1 m bs a -> (bs' = [] -> E1 -> E) -> reads W E (k a) bs' b -> reads W E (bind m k) (bs ++ bs') b.
Proof.
  intros Hm HE Hk s rest Hs Hw He. rewrite <- app_assoc in Hs.
  destruct (Hm _ _ Hs Hw) as (s1 & E1' & Hs1 & Hk1 & Hw1).
  { intros H1. destruct bs' as [|x bs']; [|by right]. by apply He, HE. }
  destruct (Hk _ _ Hs1) as (s2 & E2 & Hs2 & Hk2 & Hw2); [auto|by rewrite Hk1|].
  exists s2. rewrite (bind_ok _ _ _ _ _ E1'). split_and!; [done|done|by etrans|auto].
Qed.

Lemma reads_then_ret W E {A B} (m : M stream A) (f : A -> B) bs a :
  reads W E m bs a -> reads W E (x <- m ;; ret (f x)) bs (f a).
Proof.
  intros Hm. rewrite <- (app_nil_r bs). eapply reads_bind; [exact Hm|done|apply reads_ret].
Qed.

Lemma available_content l : concat (available l) = concat l.
Proof. induction l as [|[|b s] l IH]; [done|exact IH|done]. Qed.

Lemma available_cases l : available l = [] \/ exists b seg r, available l = (b :: seg) :: r.
Proof. induction l as [|[|b s] l IH]; [by left|exact IH|right; by eexists _, _, _]. Qed.

Lemma available_whole seg : seg <> [] -> available [seg] = [seg].
Proof. by destruct seg. Qed.

Lemma reads_read W E b : reads W E read [b] b.
Proof.
  intros s rest Hs _ _. unfold read, content in *. rewrite <- available_content in Hs.
  destruct (available_cases (s_segments s)) as [Ea|(b' & seg & r & Ea)]; rewrite Ea in *; [done|].
  cbn in Hs. injection Hs as -> Hs. eexists. split_and!; [done|done|done|].
  intros [l Hl]. rewrite Hl in Ea. destruct l; [done|]. cbn in Ea. injection Ea as -> -> <-. by eexists.
Qed.

(** At the end, [read] returns -1 and changes nothing. *)
Lemma read_end s : content s = [] -> read s = (Ok (-1), s).
Proof.
  intros Hs. unfold read, content in *. rewrite <- available_content in Hs.
  destruct (available_cases (s_segments s)) as [E|(b' & seg & r & E)]; rewrite E in *; done.
Qed.

(** A read of an array on one segment is not short. *)
Lemma reads_read_array (W E : Prop) bs : W -> bs <> [] -> reads W E (read_array (length bs)) bs (Some bs).
Proof.
  intros HW Hne s rest Hs Hw _. destruct (Hw HW) as [l Hl].
  unfold read_array, content in *. rewrite Hl in *. cbn in Hs. rewrite app_nil_r in Hs. subst l.
  assert (available [bs ++ rest] = [bs ++ rest]) as -> by (apply available_whole; by destruct bs).
  rewrite take_app_length, drop_app_length.
  assert (exists n, length bs = S n) as [n ->] by (destruct bs; [done|by eexists]).
  destruct (s_kind s) eqn:Ek; (eexists; split_and!; [done|cbn; by rewrite app_nil_r|cbn; congruence|by eexists]).
Qed.

(** ** Bits of bytes *)

Lemma int_id z : is_int z -> int z = z.
Proof. intros H. apply wrap_s_small; [lia|exact H]. Qed.

(** The signed value of a byte in the highest place. *)
Lemma shl_byte b k : is_byte b -> 0 <= k < 24 -> shl b k = Z.shiftl b k.
Proof.
  intros Hb Hk. apply int_id. unfold is_byte, is_int in *. rewrite Z.shiftl_mul_pow2 by lia.
  assert (2 ^ k <= 2 ^ 23) by (apply Z.pow_le_mono_r; lia). nia.
Qed.
Lemma shl_byte_24 b : is_byte b -> shl b 24 = Z.shiftl (wrap_s 8 b) 24.
Proof.
  unfold is_byte. intros Hb. unfold shl, int, wrap_s. rewrite !Z.shiftl_mul_pow2 by lia.
  rewrite (Z.mod_small b) by (cbn; lia). rewrite (Z.mod_small (b * _)) by (cbn; lia).
  destruct (Z.ltb_spec b (2 ^ (8 - 1))), (Z.ltb_spec (b * 2 ^ 24) (2 ^ (32 - 1))); cbn in *; lia.
Qed.
