(* ===== verification/RtmpUtil.v ===== *)
(** * simplertmp: Util.java

    Integers and doubles as bytes, and back.  The methods are those of
    src/library/src/main/java/com/github/faucamp/simplertmp/Util.java. *)

From stdpp Require Import base list sets strings.
From Stdlib Require Import ZArith Lia.
From S2P Require Import Prelude Java.
Open Scope Z_scope.

(** ** Writing *)

Definition writeUnsignedInt32 (value : Z) : list Z :=
  [low_byte (ushr value 24); low_byte (ushr value 16); low_byte (ushr value 8); low_byte value].
Definition writeUnsignedInt24 (value : Z) : list Z :=
  [low_byte (ushr value 16); low_byte (ushr value 8); low_byte value].
Definition writeUnsignedInt16 (value : Z) : list Z :=
  [low_byte (ushr value 8); low_byte value].
Definition writeUnsignedInt32LittleEndian (value : Z) : list Z :=
  [low_byte value; low_byte (ushr value 8); low_byte (ushr value 16); low_byte (ushr value 24)].
Definition unsignedInt32ToByteArray (value : Z) : list Z :=
  [low_byte (ushr value 24); low_byte (ushr value 16); low_byte (ushr value 8); low_byte value].

(** The bits of a double as a long; [l >> k] keeps the sign. *)
Definition toByteArray (d : Z) : list Z :=
  let l := long d in
  map (fun k => low_byte (Z.land (Z.shiftr l k) 255)) [56; 48; 40; 32; 24; 16; 8; 0].
Definition writeDouble (d : Z) : list Z :=
  let l := long d in
  map (fun k => low_byte (Z.land (Z.shiftr l k) 255)) [56; 48; 40; 32; 24; 16; 8; 0].

(** ** Reading *)

(** [in.read() & 0xff]: 255 at the end of the stream. *)
Definition read_masked : M stream Z := b <- read ;; ret (Z.land b 255).

Definition readUnsignedInt32 : M stream Z :=
  b3 <- read_masked ;; b2 <- read_masked ;; b1 <- read_masked ;; b0 <- read_masked ;;
  ret (Z.lor (Z.lor (Z.lor (shl b3 24) (shl b2 16)) (shl b1 8)) b0).
Definition readUnsignedInt24 : M stream Z :=
  b2 <- read_masked ;; b1 <- read_masked ;; b0 <- read_masked ;;
  ret (Z.lor (Z.lor (shl b2 16) (shl b1 8)) b0).
Definition readUnsignedInt16 : M stream Z :=
  b1 <- read_masked ;; b0 <- read_masked ;; ret (Z.lor (shl b1 8) b0).

(** The upper four bytes are shifted as longs, the lower four as ints. *)
Definition readDouble : M stream Z :=
  b7 <- read_masked ;; b6 <- read_masked ;; b5 <- read_masked ;; b4 <- read_masked ;;
  b3 <- read_masked ;; b2 <- read_masked ;; b1 <- read_masked ;; b0 <- read_masked ;;
  let bits :=
    Z.lor (Z.lor (Z.lor (Z.lor (Z.lor (Z.lor (Z.lor
      (long (Z.shiftl b7 56)) (long (Z.shiftl b6 48))) (long (Z.shiftl b5 40))) (long (Z.shiftl b4 32)))
      (shl b3 24)) (shl b2 16)) (shl b1 8)) b0 in
  ret (wrap_u 64 bits).

(** The elements of an array, by position. *)
Definition element (bytes : list Z) (i : nat) : outcome Z :=
  match bytes !! i with Some b => Ok (Z.land b 255) | None => Throw (Java IndexOutOfBoundsException) end.
Definition toUnsignedInt32 (bytes : list Z) : outcome Z :=
  let! b0 := element bytes 0 in let! b1 := element bytes 1 in let! b2 := element bytes 2 in let! b3 := element bytes 3 in
  Ok (Z.lor (Z.lor (Z.lor (shl b0 24) (shl b1 16)) (shl b2 8)) b3).
Definition toUnsignedInt32LittleEndian (bytes : list Z) : outcome Z :=
  let! b3 := element bytes 3 in let! b2 := element bytes 2 in let! b1 := element bytes 1 in let! b0 := element bytes 0 in
  Ok (Z.lor (Z.lor (Z.lor (shl b3 24) (shl b2 16)) (shl b1 8)) b0).
Definition toUnsignedInt24 (bytes : list Z) : outcome Z :=
  let! b1 := element bytes 1 in let! b2 := element bytes 2 in let! b3 := element bytes 3 in
  Ok (Z.lor (Z.lor (shl b1 16) (shl b2 8)) b3).
Definition toUnsignedInt16 (bytes : list Z) : outcome Z :=
  let! b2 := element bytes 2 in let! b3 := element bytes 3 in Ok (Z.lor (shl b2 8) b3).

Definition HEXES : string := "0123456789ABCDEF".
Definition hex_digit (b : Z) : string := String.substring (Z.to_nat b) 1 HEXES.
Definition toHexString (b : Z) : string :=
  hex_digit (Z.shiftr (Z.land b 240) 4) +:+ hex_digit (Z.land b 15).
Definition toHexString_array (raw : list Z) : string := String.concat "" (map toHexString raw).

(** The loop of [readBytesUntilFull]: a read may be short, but never takes
    nothing when something is missing, so that as many rounds as there are
    bytes are enough. *)
Fixpoint fill (fuel need : nat) : M stream (list Z) :=
  r <- read_array need ;;
  match r with
  | None => throw (Java (IOException "Unexpected EOF reached before read buffer was filled"))
  | Some l =>
    if (length l <? need)%nat then
      match fuel with
      | O => undef
      | S fuel => r <- fill fuel (need - length l) ;; ret (l ++ r)
      end
    else ret l
  end.
Definition readBytesUntilFull (n : nat) : M stream (list Z) := fill n n.

(** ** Properties *)

Lemma land_byte b : is_byte b -> Z.land b 255 = b.
Proof. unfold is_byte. intros Hb. change 255 with (Z.ones 8). rewrite Z.land_ones by lia. apply Z.mod_small. exact Hb. Qed.
Lemma low_byte_is_byte z : is_byte (low_byte z).
Proof. apply Z.mod_pos_bound. done. Qed.
Hint Resolve low_byte_is_byte : reads.

Lemma reads_masked W E b : is_byte b -> reads W E read_masked [b] b.
Proof.
  intros Hb. pose proof (reads_then_ret W E read (fun b => Z.land b 255) [b] b (reads_read W E b)) as Hr.
  cbn beta in Hr. by rewrite land_byte in Hr.
Qed.

Lemma be16 b1 b0 : is_byte b1 -> is_byte b0 -> Z.lor (shl b1 8) b0 = b1 * 2 ^ 8 + b0.
Proof. intros H1 H0. rewrite shl_byte by (done || lia). by apply lor_shiftl. Qed.
Lemma be24 b2 b1 b0 : is_byte b2 -> is_byte b1 -> is_byte b0 ->
  Z.lor (Z.lor (shl b2 16) (shl b1 8)) b0 = b2 * 2 ^ 16 + b1 * 2 ^ 8 + b0.
Proof.
  intros H2 H1 H0. rewrite <- Z.lor_assoc, be16 by done. rewrite shl_byte by (done || lia).
  unfold is_byte in *. rewrite lor_shiftl by lia. lia.
Qed.
Lemma be32 b3 b2 b1 b0 : is_byte b3 -> is_byte b2 -> is_byte b1 -> is_byte b0 ->
  Z.lor (Z.lor (Z.lor (shl b3 24) (shl b2 16)) (shl b1 8)) b0 = wrap_s 8 b3 * 2 ^ 24 + b2 * 2 ^ 16 + b1 * 2 ^ 8 + b0.
Proof.
  intros H3 H2 H1 H0. rewrite <- !Z.lor_assoc, (Z.lor_assoc (shl b2 16)), be24 by done. rewrite shl_byte_24 by done.
  unfold is_byte in *. rewrite lor_shiftl by lia. lia.
Qed.

Lemma byte_16 v : low_byte (ushr v 16) = (v / 2 ^ 16) mod 2 ^ 8.
Proof. unfold low_byte, ushr, wrap_u. rewrite Z.shiftr_div_pow2 by lia. Z.to_euclidean_division_equations. lia. Qed.
Lemma byte_24 v : low_byte (ushr v 24) = (v / 2 ^ 24) mod 2 ^ 8.
Proof. unfold low_byte, ushr, wrap_u. rewrite Z.shiftr_div_pow2 by lia. Z.to_euclidean_division_equations. lia. Qed.
Lemma byte_8 v : low_byte (ushr v 8) = (v / 2 ^ 8) mod 2 ^ 8.
Proof. unfold low_byte, ushr, wrap_u. rewrite Z.shiftr_div_pow2 by lia. Z.to_euclidean_division_equations. lia. Qed.

(** Reading is one byte after the other. *)
Ltac read_bytes :=
  repeat match goal with
  | |- reads _ _ (bind read_masked _) (?b :: ?l) _ =>
    apply (reads_bind _ _ False _ _ [b] l b); [apply reads_masked; auto with reads | done | cbv beta]
  end; try apply reads_ret.

Lemma reads_int16 W E v : reads W E readUnsignedInt16 (writeUnsignedInt16 v) (wrap_u 16 v).
Proof.
  replace (wrap_u 16 v) with (Z.lor (shl (low_byte (ushr v 8)) 8) (low_byte v)).
  - unfold readUnsignedInt16, writeUnsignedInt16. read_bytes.
  - rewrite be16, byte_8 by auto with reads. unfold low_byte, wrap_u. Z.to_euclidean_division_equations. lia.
Qed.
Lemma reads_int24 W E v : reads W E readUnsignedInt24 (writeUnsignedInt24 v) (wrap_u 24 v).
Proof.
  replace (wrap_u 24 v) with (Z.lor (Z.lor (shl (low_byte (ushr v 16)) 16) (shl (low_byte (ushr v 8)) 8)) (low_byte v)).
  - unfold readUnsignedInt24, writeUnsignedInt24. read_bytes.
  - rewrite be24, byte_8, byte_16 by auto with reads. unfold low_byte, wrap_u. Z.to_euclidean_division_equations. lia.
Qed.

Lemma be32_bytes v :
  Z.lor (Z.lor (Z.lor (shl (low_byte (ushr v 24)) 24) (shl (low_byte (ushr v 16)) 16)) (shl (low_byte (ushr v 8)) 8)) (low_byte v)
    = int v.
Proof.
  rewrite be32, byte_8, byte_16, byte_24 by auto with reads. unfold low_byte, wrap_u, int, wrap_s.
  rewrite Z.mod_mod by lia.
  destruct (Z.ltb_spec ((v / 2 ^ 24) mod 2 ^ 8) (2 ^ (8 - 1))), (Z.ltb_spec (v mod 2 ^ 32) (2 ^ (32 - 1)));
    Z.to_euclidean_division_equations; lia.
Qed.
Lemma reads_int32 W E v : reads W E readUnsignedInt32 (writeUnsignedInt32 v) (int v).
Proof. rewrite <- be32_bytes. unfold readUnsignedInt32, writeUnsignedInt32. read_bytes. Qed.

Lemma land_low_byte z : Z.land (low_byte z) 255 = low_byte z.
Proof. apply land_byte, low_byte_is_byte. Qed.
Lemma little_endian_id v : toUnsignedInt32LittleEndian (writeUnsignedInt32LittleEndian v) = Ok (int v).
Proof. unfold toUnsignedInt32LittleEndian, element. cbn. by rewrite !land_low_byte, be32_bytes. Qed.
Hint Resolve reads_int16 reads_int24 reads_int32 : reads.

(** *** Doubles *)

Lemma long_byte d k : k ∈ [56; 48; 40; 32; 24; 16; 8; 0] -> low_byte (Z.land (Z.shiftr (long d) k) 255) = (d / 2 ^ k) mod 2 ^ 8.
Proof.
  intros Hk. unfold low_byte, wrap_u. change 255 with (Z.ones 8). rewrite Z.land_ones, Z.mod_mod by lia.
  assert (0 <= k <= 56) as Hr by (repeat (apply elem_of_cons in Hk as [->|Hk]; [lia|]); by apply elem_of_nil in Hk).
  rewrite Z.shiftr_div_pow2 by lia. unfold long, wrap_s.
  repeat (apply elem_of_cons in Hk as [->|Hk];
    [destruct (Z.ltb_spec (d mod 2 ^ 64) (2 ^ (64 - 1))); Z.to_euclidean_division_equations; lia|]).
  by apply elem_of_nil in Hk.
Qed.

(** The bytes of the two halves of a double. *)
Lemma writeDouble_halves d : writeDouble d = writeUnsignedInt32 (d / 2 ^ 32) ++ writeUnsignedInt32 d.
Proof.
  unfold writeDouble, writeUnsignedInt32. cbn [map app]. rewrite !long_byte by set_solver.
  rewrite !byte_24, !byte_16, !byte_8. unfold low_byte, wrap_u. rewrite !Z.div_div by lia. by rewrite Z.div_1_r.
Qed.

Lemma long_shift b k : is_byte b -> 32 <= k < 56 -> long (Z.shiftl b k) = Z.shiftl (shl b (k - 32)) 32.
Proof.
  intros Hb Hk. rewrite shl_byte, Z.shiftl_shiftl by (done || lia). replace (k - 32 + 32) with k by lia.
  unfold is_byte in Hb. unfold long. apply wrap_s_small; [lia|]. rewrite Z.shiftl_mul_pow2 by lia.
  assert (2 ^ k <= 2 ^ 55) by (apply Z.pow_le_mono_r; lia). nia.
Qed.
Lemma long_shift_56 b : is_byte b -> long (Z.shiftl b 56) = Z.shiftl (shl b 24) 32.
Proof.
  intros Hb. rewrite shl_byte_24, Z.shiftl_shiftl by (done || lia). unfold long, wrap_s, is_byte in *.
  rewrite !Z.shiftl_mul_pow2 by lia. rewrite (Z.mod_small b), (Z.mod_small (b * _)) by (cbn; lia).
  destruct (Z.ltb_spec b (2 ^ (8 - 1))), (Z.ltb_spec (b * 2 ^ 56) (2 ^ (64 - 1))); cbn in *; lia.
Qed.

(** What is read is the lower half, as an int, over the shifted upper half. *)
Lemma reads_double_halves W E d :
  reads W E readDouble (writeDouble d) (wrap_u 64 (Z.lor (Z.shiftl (int (d / 2 ^ 32)) 32) (int d))).
Proof.
  rewrite writeDouble_halves, <- (be32_bytes d), <- (be32_bytes (d / 2 ^ 32)), !Z.shiftl_lor.
  rewrite <- long_shift_56, <- (long_shift _ 48), <- (long_shift _ 40) by (auto with reads || lia).
  replace (Z.shiftl (low_byte (d / 2 ^ 32)) 32) with (long (Z.shiftl (low_byte (d / 2 ^ 32)) 32)).
  - rewrite !Z.lor_assoc. unfold readDouble, writeUnsignedInt32. cbn [app]. read_bytes.
  - rewrite long_shift by (auto with reads || lia). rewrite shl_byte by (auto with reads || lia). by rewrite Z.shiftl_0_r.
Qed.

(** A lower half with its highest bit set is negative, and fills the upper half
    with ones. *)
Lemma lor_negative a b : - 2 ^ 32 <= b < 0 -> Z.lor (Z.shiftl a 32) b = b.
Proof.
  intros Hb. apply Z.bits_inj'. intros i Hi. rewrite Z.lor_spec. destruct (Z.lt_ge_cases i 32).
  - by rewrite Z.shiftl_spec_low.
  - replace (Z.testbit b i) with true; [apply orb_true_r|]. symmetry.
    replace b with (- (Z.lnot b) - 1) by (unfold Z.lnot; lia).
    assert (0 <= Z.lnot b < 2 ^ 32) as Hl by (unfold Z.lnot; lia).
    replace (- Z.lnot b - 1) with (Z.lnot (Z.lnot b)) by (unfold Z.lnot; lia). rewrite Z.lnot_spec by lia.
    rewrite <- (Z.mod_small (Z.lnot b) (2 ^ 32)) by done. by rewrite Z.mod_pow2_bits_high by lia.
Qed.

Definition double_read (d : Z) : Z := if Z.testbit d 31 then 2 ^ 64 - 2 ^ 32 + d mod 2 ^ 32 else d.

Lemma testbit_31 d : Z.testbit d 31 = negb (d mod 2 ^ 32 <? 2 ^ 31).
Proof.
  rewrite <- (Z.mod_pow2_bits_low d 32) by lia. pose proof (Z.mod_pos_bound d (2 ^ 32) ltac:(lia)) as Hb.
  rewrite Z.testbit_odd, Z.shiftr_div_pow2 by lia. destruct (Z.ltb_spec (d mod 2 ^ 32) (2 ^ 31)).
  - by rewrite Z.div_small by lia.
  - replace (d mod 2 ^ 32 / 2 ^ 31) with 1; [done|]. Z.to_euclidean_division_equations. lia.
Qed.

Lemma reads_double W E d : 0 <= d < 2 ^ 64 -> reads W E readDouble (writeDouble d) (double_read d).
Proof.
  intros Hd. replace (double_read d) with (wrap_u 64 (Z.lor (Z.shiftl (int (d / 2 ^ 32)) 32) (int d))); [apply reads_double_halves|].
  unfold double_read. rewrite testbit_31. unfold int at 2, wrap_s. change (32 - 1) with 31.
  pose proof (Z.mod_pos_bound d (2 ^ 32) ltac:(lia)) as Hb. destruct (Z.ltb_spec (d mod 2 ^ 32) (2 ^ 31)); cbn [negb].
  - rewrite lor_shiftl by lia. unfold int, wrap_s, wrap_u. change (32 - 1) with 31.
    destruct (Z.ltb_spec ((d / 2 ^ 32) mod 2 ^ 32) (2 ^ 31)); Z.to_euclidean_division_equations; lia.
  - rewrite lor_negative by lia. unfold wrap_u. Z.to_euclidean_division_equations. lia.
Qed.

(** An int survives the way through a double that is read correctly. *)
Lemma double_of_int_parts n : is_int n -> n <> 0 ->
  let a := Z.abs n in let e := Z.log2 a in let m := (a - 2 ^ e) * 2 ^ (52 - e) in
  0 <= e <= 31 /\ 2 ^ e <= a < 2 * 2 ^ e /\ 0 <= m < 2 ^ 52 /\
  double_of_int n = (if n <? 0 then 2 ^ 63 else 0) + (e + 1023) * 2 ^ 52 + m.
Proof.
  unfold is_int. intros Hi Hn. cbv zeta. set (a := Z.abs n). assert (0 < a <= 2 ^ 31) as Ha by lia.
  assert (0 <= Z.log2 a <= 31) as He.
  { split; [apply Z.log2_nonneg|]. change 31 with (Z.log2 (2 ^ 31)). apply Z.log2_le_mono. lia. }
  pose proof (Z.log2_spec a ltac:(lia)) as Hs. rewrite Z.pow_succ_r in Hs by lia.
  assert (2 ^ Z.log2 a * 2 ^ (52 - Z.log2 a) = 2 ^ 52) as Hp by (rewrite <- Z.pow_add_r by lia; f_equal; lia).
  split_and!; [lia|lia|lia|lia|nia|nia|]. unfold double_of_int. fold a. destruct (Z.eqb_spec n 0); [done|]. done.
Qed.

Lemma double_of_int_range n : is_int n -> 0 <= double_of_int n < 2 ^ 64.
Proof.
  intros Hi. destruct (Z.eq_dec n 0) as [->|Hn]; [done|].
  destruct (double_of_int_parts n Hi Hn) as (He & _ & Hm & ->). destruct (n <? 0); lia.
Qed.

Lemma int_of_double_of_int n : is_int n -> int_of_double (double_of_int n) = n.
Proof.
  intros Hi. destruct (Z.eq_dec n 0) as [->|Hn]; [done|].
  destruct (double_of_int_parts n Hi Hn) as (He & Ha & Hm & Hd).
  set (a := Z.abs n) in *. set (e := Z.log2 a) in *. set (m := (a - 2 ^ e) * 2 ^ (52 - e)) in *.
  set (d := double_of_int n) in *. unfold int_of_double. unfold is_int in Hi.
  assert (d mod 2 ^ 52 = m) as ->.
  { rewrite Hd. replace (_ + (e + 1023) * 2 ^ 52 + m) with (m + ((if n <? 0 then 2 ^ 11 else 0) + e + 1023) * 2 ^ 52)
      by (destruct (n <? 0); lia). rewrite Z.mod_add by lia. by apply Z.mod_small. }
  assert (d / 2 ^ 52 = (if n <? 0 then 2 ^ 11 else 0) + e + 1023) as ->.
  { rewrite Hd. symmetry. apply Z.div_unique with m; [lia|]. destruct (n <? 0); lia. }
  assert (((if n <? 0 then 2 ^ 11 else 0) + e + 1023) mod 2 ^ 11 = e + 1023) as ->.
  { symmetry. apply Z.mod_unique with (if n <? 0 then 1 else 0); [lia|]. destruct (n <? 0); lia. }
  assert (Z.testbit d 63 = (n <? 0)) as ->.
  { rewrite Z.testbit_odd, Z.shiftr_div_pow2 by lia. rewrite Hd.
    replace (_ / 2 ^ 63) with (if n <? 0 then 1 else 0); [by destruct (n <? 0)|].
    apply Z.div_unique with ((e + 1023) * 2 ^ 52 + m); [lia|]. destruct (n <? 0); lia. }
  destruct (Z.eqb_spec (e + 1023) 2047); [lia|]. destruct (Z.leb_spec 1075 (e + 1023)); [lia|].
  destruct (Z.eqb_spec (e + 1023) 0); [lia|]. cbn [andb]. cbv zeta. replace (1075 - (e + 1023)) with (52 - e) by lia.
  assert ((2 ^ 52 + m) / 2 ^ (52 - e) = a) as ->.
  { assert (2 ^ e * 2 ^ (52 - e) = 2 ^ 52) as Hp by (rewrite <- Z.pow_add_r by lia; f_equal; lia).
    replace (2 ^ 52 + m) with (a * 2 ^ (52 - e)) by (unfold m; lia). apply Z.div_mul. lia. }
  destruct (Z.ltb_spec n 0); lia.
Qed.

(** *** Arrays *)

(** A read may be short, but takes something if something is missing. *)
Lemma read_array_short bs s rest : content s = bs ++ rest -> (bs = [] -> s_kind s = Buffered \/ rest <> []) ->
  exists l bs' s', read_array (length bs) s = (Ok (Some l), s') /\ bs = l ++ bs' /\ content s' = bs' ++ rest /\
    s_kind s' = s_kind s /\ (whole s -> whole s') /\ (bs <> [] -> l <> []).
Proof.
  intros Hs He. unfold read_array. destruct (decide (bs = [] /\ s_kind s = Buffered)) as [[-> Hk]|Hn].
  { rewrite Hk. cbn. by exists [], [], s. }
  assert (match s_kind s, length bs with
          | Buffered, O => (Ok (Some []), s)
          | _, _ => match available (s_segments s) with
                    | seg :: r => (Ok (Some (take (length bs) seg)), with_segments (drop (length bs) seg :: r) s)
                    | [] => (Ok None, s)
                    end
          end = match available (s_segments s) with
                | seg :: r => (Ok (Some (take (length bs) seg)), with_segments (drop (length bs) seg :: r) s)
                | [] => (Ok None, s)
                end) as ->.
  { destruct (s_kind s), bs; try done. by destruct Hn. }
  pose proof Hs as Hc. unfold content in Hc. rewrite <- available_content in Hc.
  destruct (available_cases (s_segments s)) as [Ea|(b & seg & r & Ea)]; rewrite Ea in *.
  { exfalso. symmetry in Hc. apply app_eq_nil in Hc as [-> ->]. destruct (He eq_refl) as [Hk|]; [by destruct Hn|done]. }
  cbn [concat] in Hc. apply app_eq_app in Hc as [j [[Hj Hr]|[Hj Hr]]].
  - exists bs, []. eexists. rewrite Hj, take_app_length, drop_app_length. split_and!; [done|by rewrite app_nil_r|by cbn; rewrite Hr|done| |done].
    intros [l Hl]. rewrite Hl in Ea. destruct l; [done|]. cbn in Ea. injection Ea as <- <- <-. by eexists.
  - exists (b :: seg), j. eexists. rewrite take_ge, drop_ge by (rewrite Hj, length_app; lia). split_and!; [done|done|done|done| |done].
    intros [l Hl]. rewrite Hl in Ea. destruct l; [done|]. cbn in Ea. injection Ea as <- <- <-. by eexists.
Qed.

Lemma reads_fill W fuel bs : (length bs <= fuel)%nat -> reads W (bs = []) (fill fuel (length bs)) bs bs.
Proof.
  revert bs. induction fuel as [|fuel IH]; intros bs Hf s rest Hs Hw He;
    destruct (read_array_short bs s rest Hs He) as (l & bs' & s1 & E1 & Hb & Hs1 & Hk1 & Hw1 & Hl);
    cbn [fill]; rewrite (bind_ok _ _ _ _ _ E1); cbv beta iota.
  - destruct bs; [|cbn in Hf; lia]. symmetry in Hb. apply app_eq_nil in Hb as [-> ->]. by exists s1.
  - destruct (Nat.ltb_spec (length l) (length bs)) as [Hlt|Hge].
    + assert (bs' <> []) as Hne by (intros ->; rewrite Hb, app_nil_r in Hlt; lia).
      assert (l <> []) as Hl' by (apply Hl; intros ->; cbn in Hlt; lia).
      assert (0 < length l)%nat by (destruct l; [done|cbn; lia]).
      replace (length bs - length l)%nat with (length bs') by (rewrite Hb, length_app; lia).
      destruct (IH bs' ltac:(rewrite Hb, length_app in Hf; lia) s1 rest Hs1) as (s2 & E2 & Hs2 & Hk2 & Hw2); [auto|done|].
      exists s2. rewrite (bind_ok _ _ _ _ _ E2). rewrite <- Hb. split_and!; [done|done|by etrans|auto].
    + assert (bs' = []) as -> by (apply length_zero_iff_nil; rewrite Hb, length_app in Hge; lia).
      rewrite app_nil_r in Hb. subst bs. exists s1. done.
Qed.
Lemma reads_full W bs : reads W (bs = []) (readBytesUntilFull (length bs)) bs bs.
Proof. by apply reads_fill. Qed.

(** Too few bytes: an exception, never an endless loop. *)
Lemma read_array_cases n s : (0 < n)%nat -> (content s = [] /\ read_array n s = (Ok None, s)) \/
  exists l s', read_array n s = (Ok (Some l), s') /\ content s = l ++ content s' /\ (0 < length l <= n)%nat.
Proof.
  intros Hn. unfold read_array, content. destruct n as [|n]; [lia|]. rewrite <- (available_content (s_segments s)).
  destruct (available_cases (s_segments s)) as [->|(b & seg & r & ->)]; [left|right]; destruct (s_kind s); try done.
  all: eexists _, _; split; [done|]; cbn [with_segments s_segments concat]; split; [|cbn; rewrite length_take; lia].
  all: by rewrite app_assoc, take_drop.
Qed.
Lemma fill_short fuel n s : (length (content s) < n <= fuel)%nat ->
  exists s', fill fuel n s = (Throw (Java (IOException "Unexpected EOF reached before read buffer was filled")), s').
Proof.
  revert n s. induction fuel as [|fuel IH]; intros n s Hn; [lia|]. cbn [fill].
  destruct (read_array_cases n s ltac:(lia)) as [[_ E1]|(l & s1 & E1 & Hc & Hl)]; rewrite (bind_ok _ _ _ _ _ E1); cbv beta iota.
  - by exists s.
  - rewrite Hc, length_app in Hn. destruct (Nat.ltb_spec (length l) n); [|lia].
    destruct (IH (n - length l)%nat s1 ltac:(lia)) as [s2 E2]. exists s2. by rewrite (bind_throw _ _ _ _ _ E2).
Qed.
