(* ===== verification/Amf.v ===== *)
(** * simplertmp: the AMF0 encoding

    The classes of src/library/src/main/java/com/github/faucamp/simplertmp/amf.
    A Java string is the list of its characters as code points.  The field
    [size] is -1 until the size is known; reading sets it.  Writing goes to an
    array in memory and returns the bytes. *)

From stdpp Require Import base list sets strings pretty.
From Stdlib Require Import ZArith Lia Ascii.
From S2P Require Import Prelude Java RtmpUtil.
Open Scope Z_scope.

Definition jstring : Type := list Z.
Definition str (s : string) : jstring := map (fun c => Z.of_N (N_of_ascii c)) (String.list_ascii_of_string s).

(** [getBytes("ASCII")] puts a question mark for other characters, and
    [new String(bytes, "ASCII")] the replacement character for other bytes. *)
Definition getBytes (s : jstring) : list Z := map (fun c => if c <? 128 then c else 63) s.
Definition newString (bytes : list Z) : jstring := map (fun b => if b <? 128 then b else 65533) bytes.

(** ** AmfType *)

Inductive AmfType := NUMBER | BOOLEAN | STRING | OBJECT | NULL | UNDEFINED | MAP | ARRAY.

Definition amf_values : list AmfType := [NUMBER; BOOLEAN; STRING; OBJECT; NULL; UNDEFINED; MAP; ARRAY].
Definition amf_value (t : AmfType) : Z :=
  match t with
  | NUMBER => 0 | BOOLEAN => 1 | STRING => 2 | OBJECT => 3 | NULL => 5 | UNDEFINED => 6 | MAP => 8 | ARRAY => 10
  end.
(** A lookup in the map that the static initialiser fills; null if missing. *)
Definition amf_valueOf (b : Z) : option AmfType :=
  snd <$> list_find (fun t => amf_value t = b) amf_values.

(** ** Data *)

Inductive AmfData :=
| AmfNumber (value : Z)
| AmfBoolean (value : bool)
| AmfString (value : jstring) (key : bool) (size : Z)
| AmfObject (properties : list (jstring * AmfData)) (size : Z)
| AmfMap (properties : list (jstring * AmfData)) (size : Z)
| AmfNull
| AmfUndefined
| AmfArray (items : list AmfData) (size : Z).

(** [LinkedHashMap.put]: a known key keeps its place. *)
Fixpoint put_property {A} (k : jstring) (v : A) (l : list (jstring * A)) : list (jstring * A) :=
  match l with
  | [] => [(k, v)]
  | (k', v') :: r => if decide (k' = k) then (k, v) :: r else (k', v') :: put_property k v r
  end.
Fixpoint get_property {A} (k : jstring) (l : list (jstring * A)) : option A :=
  match l with
  | [] => None
  | (k', v) :: r => if decide (k' = k) then Some v else get_property k r
  end.

Definition newAmfObject : AmfData := AmfObject [] (-1).
Definition newAmfMap : AmfData := AmfMap [] (-1).
Definition newAmfString (value : jstring) : AmfData := AmfString value false (-1).
(** On anything but an object the call does not compile. *)
Definition setProperty (key : jstring) (value : AmfData) (d : AmfData) : AmfData :=
  match d with
  | AmfObject ps size => AmfObject (put_property key value ps) size
  | AmfMap ps size => AmfMap (put_property key value ps) size
  | _ => d
  end.

(** ** Writing *)

Definition OBJECT_END_MARKER : list Z := [0; 0; 9].

Definition writeStringTo (s : jstring) (isKey : bool) : list Z :=
  let byteValue := getBytes s in
  (if negb isKey then [amf_value STRING] else []) ++
  writeUnsignedInt16 (Z.of_nat (length byteValue)) ++ byteValue.
Definition writeNumberTo (d : Z) : list Z := amf_value NUMBER :: writeDouble d.

Definition write_properties (write : AmfData -> outcome (list Z)) : list (jstring * AmfData) -> outcome (list Z) :=
  fix go l := match l with
  | [] => Ok OBJECT_END_MARKER
  | (k, v) :: r => let! b := write v in let! bs := go r in Ok (writeStringTo k true ++ b ++ bs)
  end.
Fixpoint writeTo (d : AmfData) : outcome (list Z) :=
  match d with
  | AmfNumber value => Ok (writeNumberTo value)
  | AmfBoolean value => Ok [amf_value BOOLEAN; if value then 1 else 0]
  | AmfString value key _ => Ok (writeStringTo value key)
  | AmfObject ps _ => let! bs := write_properties writeTo ps in Ok (amf_value OBJECT :: bs)
  | AmfMap ps _ =>
    let! bs := write_properties writeTo ps in
    Ok (amf_value MAP :: writeUnsignedInt32 (Z.of_nat (length ps)) ++ bs)
  | AmfNull => Ok [amf_value NULL]
  | AmfUndefined => Ok [amf_value UNDEFINED]
  | AmfArray _ _ => Throw (Java (UnsupportedOperationException "Not supported yet."))
  end.

(** ** Sizes *)

Definition sizeOf (s : jstring) (isKey : bool) : Z :=
  (if isKey then 0 else 1) + 2 + Z.of_nat (length (getBytes s)).
Definition properties_size (size : AmfData -> Z) (l : list (jstring * AmfData)) : Z :=
  foldr (fun p n => sizeOf p.1 true + size p.2 + n) 0 l.
Fixpoint getSize (d : AmfData) : Z :=
  match d with
  | AmfNumber _ => 9
  | AmfBoolean _ => 2
  | AmfString value key size => if size =? -1 then sizeOf value key else size
  | AmfObject ps size => if size =? -1 then 1 + properties_size getSize ps + 3 else size
  | AmfMap ps size => if size =? -1 then (1 + properties_size getSize ps + 3) + 4 else size
  | AmfNull | AmfUndefined => 1
  | AmfArray items size => if size =? -1 then foldr (fun d n => getSize d + n) 5 items else size
  end.

(** ** Reading *)

Definition readStringFrom (isKey : bool) : M stream jstring :=
  (if negb isKey then _ <- read ;; ret tt else ret tt) ;;;
  length <- readUnsignedInt16 ;;
  byteValue <- readBytesUntilFull (Z.to_nat length) ;;
  ret (newString byteValue).
Definition readNumberFrom : M stream Z := _ <- read ;; readDouble.

(** [in.read(endMarker)] into an array of zeros. *)
Definition read_marker : M stream (list Z) :=
  r <- read_array 3 ;;
  let l := default [] r in ret (l ++ replicate (3 - length l) 0).

(** The loops of the composite types over the decoder of their values.  [fuel]
    bounds the properties read; each takes a byte. *)
Fixpoint read_properties (decode : M stream AmfData) (fuel : nat) (properties : list (jstring * AmfData)) (size : Z)
    : M stream (list (jstring * AmfData) * Z) :=
  match fuel with
  | O => undef
  | S fuel =>
    mark <- get ;;
    endMarker <- read_marker ;;
    if bool_decide (endMarker = OBJECT_END_MARKER) then ret (properties, size + 3)
    else
      put mark ;;;
      key <- readStringFrom true ;;
      value <- decode ;;
      read_properties decode fuel (put_property key value properties) (size + sizeOf key true + getSize value)
  end.
Fixpoint read_items (decode : M stream AmfData) (n : nat) (items : list AmfData) (size : Z) : M stream (list AmfData * Z) :=
  match n with
  | O => ret (items, size)
  | S n => item <- decode ;; read_items decode n (items ++ [item]) (size + getSize item)
  end.

(** [fuel] bounds the depth of the value. *)
Fixpoint decode (fuel : nat) : M stream AmfData :=
  match fuel with
  | O => undef
  | S fuel =>
    b <- read ;;
    match amf_valueOf (low_byte b) with
    | None => throw (Java NullPointerException)
    | Some NUMBER => v <- readDouble ;; ret (AmfNumber v)
    | Some BOOLEAN => v <- read ;; ret (AmfBoolean (v =? 1))
    | Some STRING =>
      length <- readUnsignedInt16 ;;
      byteValue <- readBytesUntilFull (Z.to_nat length) ;;
      ret (AmfString (newString byteValue) false (3 + length))
    | Some OBJECT => r <- read_properties (decode fuel) fuel [] 1 ;; ret (AmfObject r.1 r.2)
    | Some NULL => ret AmfNull
    | Some UNDEFINED => ret AmfUndefined
    | Some MAP =>
      _ <- readUnsignedInt32 ;; r <- read_properties (decode fuel) fuel [] 1 ;; ret (AmfMap r.1 (r.2 + 4))
    | Some ARRAY =>
      length <- readUnsignedInt32 ;;
      throw_if (length <? 0) (Java (IllegalArgumentException ("Illegal Capacity: " +:+ pretty length))) ;;;
      r <- read_items (decode fuel) (Z.to_nat length) [] 5 ;; ret (AmfArray r.1 r.2)
    end
  end.

(** [AmfDecoder.readFrom]. *)
Definition readFrom : M stream AmfData := fun s => decode (S (length (content s))) s.
