(* ===== verification/AmfSpec.v ===== *)
(** * Properties of the AMF0 encoding

    Reading inverts writing, the sizes that are computed are those of the
    encoding, and the decoder returns or throws on every stream. *)

From stdpp Require Import base list sets strings.
From Stdlib Require Import ZArith Lia Ascii.
From S2P Require Import Prelude Java RtmpUtil Amf.
Open Scope Z_scope.

Section induction.
Context (P : AmfData -> Prop).
Context (Hnumber : forall v, P (AmfNumber v)) (Hboolean : forall v, P (AmfBoolean v)).
Context (Hstring : forall v k n, P (AmfString v k n)).
Context (Hobject : forall ps n, Forall (fun p => P p.2) ps -> P (AmfObject ps n)).
Context (Hmap : forall ps n, Forall (fun p => P p.2) ps -> P (AmfMap ps n)).
Context (Hnull : P AmfNull) (Hundefined : P AmfUndefined).
Context (Harray : forall l n, Forall P l -> P (AmfArray l n)).

Lemma AmfData_induction d : P d.
Proof.
  revert d. fix IH 1. intros [v|v|v k n|ps n|ps n| | |l n];
    [apply Hnumber|apply Hboolean|apply Hstring| | |exact Hnull|exact Hundefined|].
  - apply Hobject. induction ps as [|[k v] ps IHps]; constructor; [apply IH|exact IHps].
  - apply Hmap. induction ps as [|[k v] ps IHps]; constructor; [apply IH|exact IHps].
  - apply Harray. induction l as [|d l IHl]; constructor; [apply IH|exact IHl].
Qed.
End induction.

(** ** What can be written *)

Definition ascii_string (s : jstring) : Prop := Forall (fun c => 0 <= c < 128) s /\ Z.of_nat (length s) < 2 ^ 16.

Inductive writable : AmfData -> Prop :=
| writable_number v : 0 <= v < 2 ^ 64 -> writable (AmfNumber v)
| writable_boolean v : writable (AmfBoolean v)
| writable_string v n : ascii_string v -> writable (AmfString v false n)
| writable_object ps n : NoDup (map fst ps) -> Forall (fun p => ascii_string p.1 /\ writable p.2) ps -> writable (AmfObject ps n)
| writable_map ps n : NoDup (map fst ps) -> Forall (fun p => ascii_string p.1 /\ writable p.2) ps -> writable (AmfMap ps n)
| writable_null : writable AmfNull
| writable_undefined : writable AmfUndefined.

(** What comes back: numbers as they are read, and the sizes filled in. *)
Fixpoint received (d : AmfData) : AmfData :=
  match d with
  | AmfNumber v => AmfNumber (double_read v)
  | AmfString v k _ => AmfString v false (sizeOf v false)
  | AmfObject ps _ =>
    let ps' := map (fun p => (p.1, received p.2)) ps in AmfObject ps' (1 + properties_size getSize ps' + 3)
  | AmfMap ps _ =>
    let ps' := map (fun p => (p.1, received p.2)) ps in AmfMap ps' (1 + properties_size getSize ps' + 3 + 4)
  | AmfArray l n => AmfArray (map received l) n
  | _ => d
  end.

Definition composite (d : AmfData) : Prop := match d with AmfObject _ _ | AmfMap _ _ => True | _ => False end.
Definition empty_string (d : AmfData) : Prop := match d with AmfString [] _ _ => True | _ => False end.

(** ** Strings *)

Lemma getBytes_ascii s : ascii_string s -> getBytes s = s.
Proof.
  intros [Hs _]. unfold getBytes. induction Hs as [|c s Hc _ IH]; [done|]. cbn. rewrite IH.
  by destruct (Z.ltb_spec c 128); [|lia].
Qed.
Lemma newString_ascii s : ascii_string s -> newString s = s.
Proof.
  intros [Hs _]. unfold newString. induction Hs as [|c s Hc _ IH]; [done|]. cbn. rewrite IH.
  by destruct (Z.ltb_spec c 128); [|lia].
Qed.

(** The length and the bytes, without the type. *)
Definition string_bytes (s : jstring) : list Z := writeUnsignedInt16 (Z.of_nat (length s)) ++ s.

Lemma reads_string_bytes W {A} (s : jstring) (f : Z -> list Z -> A) : ascii_string s ->
  reads W (s = []) (length <- readUnsignedInt16 ;; byteValue <- readBytesUntilFull (Z.to_nat length) ;; ret (f length byteValue))
    (string_bytes s) (f (Z.of_nat (length s)) s).
Proof.
  intros Hs. unfold string_bytes. eapply (reads_bind _ _ False); [apply reads_int16|done|]. cbv beta.
  destruct Hs as [_ Hl]. rewrite wrap_u_small by lia. rewrite Nat2Z.id. apply reads_then_ret, reads_full.
Qed.
Lemma reads_key W s : ascii_string s -> reads W (s = []) (readStringFrom true) (string_bytes s) s.
Proof.
  intros Hs. unfold readStringFrom. cbn [negb]. pose proof (reads_string_bytes W s (fun _ b => newString b) Hs) as H.
  cbv beta in H. by rewrite newString_ascii in H.
Qed.
Lemma writeString_key s : ascii_string s -> writeStringTo s true = string_bytes s.
Proof. intros Hs. unfold writeStringTo. by rewrite getBytes_ascii. Qed.
Lemma writeString_value s : ascii_string s -> writeStringTo s false = 2 :: string_bytes s.
Proof. intros Hs. unfold writeStringTo. by rewrite getBytes_ascii. Qed.
Lemma reads_string_from W s : ascii_string s -> reads W (s = []) (readStringFrom false) (writeStringTo s false) s.
Proof.
  intros Hs. rewrite writeString_value by done. unfold readStringFrom. cbn [negb].
  apply (reads_bind _ _ False _ _ [2] (string_bytes s) tt); [|done|].
  - apply (reads_then_ret _ _ read (fun _ => tt) [2] 2), reads_read.
  - cbv beta. pose proof (reads_string_bytes W s (fun _ b => newString b) Hs) as H. cbv beta in H. by rewrite newString_ascii in H.
Qed.

Lemma length_string_bytes s : ascii_string s -> Z.of_nat (length (string_bytes s)) = sizeOf s true.
Proof. intros Hs. unfold string_bytes, sizeOf. rewrite getBytes_ascii by done. rewrite length_app. cbn. lia. Qed.

(** ** The round trip *)

Lemma marker_run s x y z r : whole s -> content s = x :: y :: z :: r ->
  exists s', read_marker s = (Ok [x; y; z], s') /\ content s' = r /\ s_kind s' = s_kind s /\ (whole s -> whole s').
Proof.
  intros Hw Hc. unfold read_marker.
  destruct (reads_read_array True False [x; y; z] I ltac:(done) s r Hc ltac:(done) ltac:(done)) as (s' & E1 & ? & ? & ?).
  exists s'. by rewrite (bind_ok _ _ _ _ _ E1).
Qed.

Lemma put_property_new {A} k (v : A) l : k ∉ map fst l -> put_property k v l = l ++ [(k, v)].
Proof.
  induction l as [|[k' v'] l IH]; [done|]. cbn. intros [Hk Hl]%not_elem_of_cons.
  rewrite decide_False by done. by rewrite IH.
Qed.

(** What is needed of the value of a property. *)
Definition decodes (d : AmfData) : Prop := exists bs t, writeTo d = Ok (t :: bs) /\ t <> 9 /\
  getSize (received d) = Z.of_nat (length (t :: bs)) /\
  forall W fuel, (composite d -> W) -> (length (t :: bs) <= fuel)%nat -> reads W (empty_string d) (decode fuel) (t :: bs) (received d).

Lemma not_marker k t b : ascii_string k -> t <> 9 -> exists x y z r, string_bytes k ++ (t :: b) = x :: y :: z :: r /\
  [x; y; z] <> OBJECT_END_MARKER.
Proof.
  intros [_ Hk] Ht. unfold string_bytes, writeUnsignedInt16. cbn [app]. destruct k as [|c k]; cbn [app].
  - eexists _, _, _, _. split; [done|]. by intros [= ?].
  - eexists _, _, _, _. split; [done|]. intros [= Hx Hy _]. rewrite byte_8 in Hx. unfold low_byte, wrap_u in Hy.
    cbn [length] in Hk. assert (0 < Z.of_nat (S (length k)) < 2 ^ 16) as Hl by lia. revert Hx Hy Hl.
    generalize (Z.of_nat (S (length k))). intros n Hx Hy Hl. Z.to_euclidean_division_equations. lia.
Qed.

Lemma received_properties ps : Forall (fun p => ascii_string p.1 /\ writable p.2) ps -> Forall (fun p => decodes p.2) ps ->
  let ps' := map (fun p => (p.1, received p.2)) ps in
  exists bs, write_properties writeTo ps = Ok bs /\ (3 <= length bs)%nat /\
    properties_size getSize ps' + 3 = Z.of_nat (length bs) /\
    forall (W : Prop) acc size n fuel, W -> NoDup (map fst acc ++ map fst ps) -> (length bs <= n)%nat -> (length bs <= fuel)%nat ->
      reads W False (read_properties (decode n) fuel acc size) bs (acc ++ ps', size + properties_size getSize ps' + 3).
Proof.
  induction ps as [|[k v] ps IH]; intros Hw Hd; cbn [map write_properties].
  - exists OBJECT_END_MARKER. split_and!; [done|cbn; lia|done|]. intros W acc size n fuel HW _ _ Hf. destruct fuel as [|fuel]; [cbn in Hf; lia|].
    intros s rest Hs Hwh _. destruct (marker_run s 0 0 9 rest) as (s' & E1 & Hs'); [auto|done|]. exists s'.
    cbn [read_properties]. rewrite (bind_ok get _ _ _ _ eq_refl), (bind_ok _ _ _ _ _ E1), bool_decide_true by done.
    cbn. rewrite app_nil_r, Z.add_0_r. done.
  - apply Forall_cons in Hw as [[Hk Hv] Hw], Hd as [(b & t & Eb & Ht & Hsz & Hr) Hd]. cbn [fst snd] in *.
    destruct (IH Hw Hd) as (bs & Ebs & Hl & Hps & Hrs). clear IH. cbn zeta in *. rewrite Eb. cbn [obind]. rewrite Ebs. cbn [obind].
    eexists. split; [done|]. rewrite writeString_key by done. pose proof (length_string_bytes k Hk) as Hlk.
    assert (2 <= length (string_bytes k))%nat by (unfold string_bytes; cbn; lia).
    split_and!; [rewrite !length_app; lia|cbn [properties_size foldr fst snd]; rewrite !length_app; unfold properties_size in Hps; lia|].
    intros W acc size n fuel HW Hnd Hn Hf. destruct fuel as [|fuel]; [cbn in Hf; lia|]. rewrite !length_app in Hn, Hf.
    intros s rest Hs Hwh _. destruct (not_marker k t b Hk Ht) as (x & y & z & r & Hxyz & Hm).
    destruct (marker_run s x y z (r ++ bs ++ rest)) as (s1 & E1 & _); [auto|..].
    { rewrite Hs, <- !app_assoc. change ((t :: b) ++ bs ++ rest) with ((t :: b) ++ (bs ++ rest)). rewrite (app_assoc (string_bytes k)).
      by rewrite Hxyz. }
    cbn [read_properties]. rewrite (bind_ok get _ _ _ _ eq_refl), (bind_ok _ _ _ _ _ E1), bool_decide_false by done.
    rewrite (bind_ok (put s) _ s1 s tt eq_refl). assert (k ∉ map fst acc) as Hka.
    { apply NoDup_app in Hnd as (_ & Hx & _). intros Hin. apply (Hx k Hin). left. }
    cut (reads W False (key <- readStringFrom true ;; value <- decode n ;;
           read_properties (decode n) fuel (put_property key value acc) (size + sizeOf key true + getSize value))
         (string_bytes k ++ (t :: b) ++ bs)
         (acc ++ (k, received v) :: map (fun p => (p.1, received p.2)) ps,
          size + properties_size getSize ((k, received v) :: map (fun p => (p.1, received p.2)) ps) + 3)).
    { intros Hall. apply Hall; [exact Hs|auto|done]. }
    eapply reads_bind; [by apply reads_key|done|]. cbv beta. eapply reads_bind; [apply Hr; [done|cbn in *; lia]|by destruct bs; [cbn in Hl; lia|]|].
    cbv beta. rewrite put_property_new by done.
    replace (acc ++ (k, received v) :: map (fun p => (p.1, received p.2)) ps)
      with ((acc ++ [(k, received v)]) ++ map (fun p => (p.1, received p.2)) ps) by by rewrite <- app_assoc.
    replace (size + properties_size getSize ((k, received v) :: map (fun p => (p.1, received p.2)) ps) + 3)
      with (size + sizeOf k true + getSize (received v) + properties_size getSize (map (fun p => (p.1, received p.2)) ps) + 3)
      by (cbn [properties_size foldr fst snd]; unfold properties_size; lia).
    apply Hrs; [done| |cbn in *; lia|cbn in *; lia]. rewrite map_app, <- app_assoc. exact Hnd.
Qed.

Lemma reads_type W E {A} t bs (a : A) (k : Z -> M stream A) : reads W E (k t) bs a ->
  reads W E (b <- read ;; k b) (t :: bs) a.
Proof. intros Hk. apply (reads_bind _ _ False _ _ [t] bs t); [apply reads_read|done|exact Hk]. Qed.

(** The first byte decides the case of the decoder. *)
Ltac decode_type :=
  cbn [decode]; apply reads_type;
  match goal with |- context [amf_valueOf ?x] => let v := eval vm_compute in (amf_valueOf x) in change (amf_valueOf x) with v end;
  cbv beta iota.

Lemma writable_decodes d : writable d -> decodes d.
Proof.
  induction d as [v|v|v k n|ps n IH|ps n IH| | |l n IH] using AmfData_induction; intros Hw; inversion Hw; subst; unfold decodes.
  - exists (writeDouble v), 0. split_and!; [done|done|done|]. intros W [|fuel] _ Hf; [cbn in Hf; lia|].
    decode_type. by apply reads_then_ret, reads_double.
  - exists [if v then 1 else 0], 1. split_and!; [done|done|done|]. intros W [|fuel] _ Hf; [cbn in Hf; lia|].
    decode_type.
    pose proof (reads_then_ret W False read (fun v => AmfBoolean (v =? 1)) [if v then 1 else 0] _ (reads_read _ _ _)) as H.
    by destruct v.
  - exists (string_bytes v), 2. rewrite <- writeString_value by done. split_and!; [done|done|..].
    + rewrite writeString_value by done. cbn [length received getSize]. unfold sizeOf at 1.
      pose proof (length_string_bytes v ltac:(done)) as Hl. unfold sizeOf in *. destruct (Z.eqb_spec (1 + 2 + Z.of_nat (length (getBytes v))) (-1)); lia.
    + intros W [|fuel] _ Hf; [cbn in Hf; lia|]. rewrite writeString_value by done. decode_type. cbn [received].
      pose proof (reads_string_bytes W v (fun n b => AmfString (newString b) false (3 + n)) ltac:(done)) as H. cbv beta in H.
      rewrite newString_ascii in H by done. unfold sizeOf. rewrite getBytes_ascii by done. cbn in *.
      eapply reads_weaken; [| |exact H]; [done|]. by intros ->.
  - assert (Forall (fun p => decodes p.2) ps) as Hd.
    { rewrite Forall_forall in *. intros p Hp. apply IH; [done|]. match goal with H : forall x, _ -> ascii_string _ /\ _ |- _ => by apply H end. }
    destruct (received_properties ps ltac:(done) Hd) as (bs & Ebs & Hl & Hps & Hr). exists bs, 3.
    cbn [writeTo]. rewrite Ebs. split_and!; [done|done|..].
    + cbn [received getSize length]. destruct (Z.eqb_spec (1 + properties_size getSize (map (fun p => (p.1, received p.2)) ps) + 3) (-1)); lia.
    + intros W [|fuel] HW Hf; [cbn in Hf; lia|]. decode_type. cbn in Hf.
      apply (reads_then_ret _ _ _ (fun r => AmfObject r.1 r.2) _ (_, _) (Hr W [] 1 fuel fuel ltac:(by apply HW) ltac:(done) ltac:(lia) ltac:(lia))).
  - assert (Forall (fun p => decodes p.2) ps) as Hd.
    { rewrite Forall_forall in *. intros p Hp. apply IH; [done|]. match goal with H : forall x, _ -> ascii_string _ /\ _ |- _ => by apply H end. }
    destruct (received_properties ps ltac:(done) Hd) as (bs & Ebs & Hl & Hps & Hr).
    exists (writeUnsignedInt32 (Z.of_nat (length ps)) ++ bs), 8. cbn [writeTo]. rewrite Ebs. split_and!; [done|done|..].
    + cbn [received getSize length]. destruct (Z.eqb_spec (1 + properties_size getSize (map (fun p => (p.1, received p.2)) ps) + 3 + 4) (-1)); [lia|].
      rewrite length_app. cbn. lia.
    + intros W [|fuel] HW Hf; [cbn in Hf; lia|]. decode_type. cbn in Hf.
      eapply (reads_bind _ _ False); [apply reads_int32|done|]. cbv beta.
      apply (reads_then_ret _ _ _ (fun r => AmfMap r.1 (r.2 + 4)) _ (_, _) (Hr W [] 1 fuel fuel ltac:(by apply HW) ltac:(done) ltac:(lia) ltac:(lia))).
  - exists [], 5. split_and!; [done|done|done|]. intros W [|fuel] _ Hf; [cbn in Hf; lia|].
    decode_type. apply reads_ret.
  - exists [], 6. split_and!; [done|done|done|]. intros W [|fuel] _ Hf; [cbn in Hf; lia|].
    decode_type. apply reads_ret.
Qed.

Lemma reads_readFrom d : writable d -> exists bs, writeTo d = Ok bs /\ bs <> [] /\
  getSize (received d) = Z.of_nat (length bs) /\ reads (composite d) (empty_string d) readFrom bs (received d).
Proof.
  intros Hw. destruct (writable_decodes d Hw) as (bs & t & Ew & _ & Hs & Hr). exists (t :: bs). split_and!; [done|done|done|].
  intros s rest Hc Hwh He. apply (Hr (composite d) (S (length (content s)))); [done| |done|done|done].
  rewrite Hc, length_app. lia.
Qed.

(** Data up to the sizes that are only cached. *)
Fixpoint erase (d : AmfData) : AmfData :=
  match d with
  | AmfString v k _ => AmfString v k (-1)
  | AmfObject ps _ => AmfObject (map (fun p => (p.1, erase p.2)) ps) (-1)
  | AmfMap ps _ => AmfMap (map (fun p => (p.1, erase p.2)) ps) (-1)
  | AmfArray l _ => AmfArray (map erase l) (-1)
  | _ => d
  end.

(** No number has bit 31 of its double set. *)
Fixpoint exact (d : AmfData) : bool :=
  match d with
  | AmfNumber v => negb (Z.testbit v 31)
  | AmfObject ps _ | AmfMap ps _ => forallb (fun p => exact p.2) ps
  | _ => true
  end.

Lemma map_values_eq (f g : AmfData -> AmfData) (ps : list (jstring * AmfData)) : Forall (fun p => f p.2 = g p.2) ps ->
  map (fun p => (p.1, f p.2)) ps = map (fun p => (p.1, g p.2)) ps.
Proof. induction 1 as [|[k v] ps Hv _ IH]; [done|]. cbn in *. by rewrite Hv, IH. Qed.

Lemma erase_received d : writable d -> exact d = true -> erase (received d) = erase d.
Proof.
  induction d as [v|v|v k n|ps n IH|ps n IH| | |l n IH] using AmfData_induction; intros Hw He; inversion Hw; subst; try done.
  - cbn [exact] in He. apply negb_true_iff in He. cbn [received erase]. unfold double_read. by rewrite He.
  - cbn in *. rewrite map_map. cbn. f_equal. apply (map_values_eq (fun v => erase (received v)) erase).
    rewrite forallb_forall in He. rewrite Forall_forall in *. intros p Hp. apply IH; [done| |by apply He, list_elem_of_In].
    match goal with H : forall x, _ -> ascii_string _ /\ _ |- _ => by apply H end.
  - cbn in *. rewrite map_map. cbn. f_equal. apply (map_values_eq (fun v => erase (received v)) erase).
    rewrite forallb_forall in He. rewrite Forall_forall in *. intros p Hp. apply IH; [done| |by apply He, list_elem_of_In].
    match goal with H : forall x, _ -> ascii_string _ /\ _ |- _ => by apply H end.
Qed.

(** ** Totality

    [shrinks m]: [m] returns or throws, and does not put anything back. *)

Definition shrinks {A} (m : M stream A) : Prop := forall s,
  (m s).1 <> Undef /\ (length (content (m s).2) <= length (content s))%nat.

Lemma shrinks_ret {A} (a : A) : shrinks (ret a).
Proof. intros s. by split. Qed.
Lemma shrinks_throw {A} e : shrinks (@throw stream A e).
Proof. intros s. by split. Qed.
Lemma shrinks_bind {A B} (m : M stream A) (k : A -> M stream B) : shrinks m -> (forall a, shrinks (k a)) -> shrinks (bind m k).
Proof.
  intros Hm Hk s. destruct (Hm s) as [Hu Hl]. unfold bind. destruct (m s) as [[a|e|] s']; cbn in *; [|done..].
  destruct (Hk a s'). split; [done|lia].
Qed.
Lemma read_shrinks_by s : content s <> [] -> exists b s', read s = (Ok b, s') /\ (length (content s') < length (content s))%nat.
Proof.
  intros Hs. destruct (content s) as [|b r] eqn:E; [done|]. destruct (reads_read False False b s r E) as (s' & ? & Hc & _); [done..|].
  exists b, s'. split; [done|]. rewrite Hc. cbn. lia.
Qed.
Lemma shrinks_read : shrinks read.
Proof.
  intros s. destruct (content s) as [|b r] eqn:E; [rewrite (read_end s E); cbn; by rewrite E|].
  destruct (read_shrinks_by s) as (b' & s' & -> & Hl); [by rewrite E|]. rewrite E in Hl. split; [done|cbn in *; lia].
Qed.
Lemma shrinks_read_array n : shrinks (read_array n).
Proof.
  intros s. destruct n as [|n].
  - unfold read_array. destruct (s_kind s); [by split|]. pose proof (available_content (s_segments s)) as Ha.
    destruct (available (s_segments s)) as [|seg r]; [by split|]. split; [done|]. unfold content. cbn [snd with_segments s_segments]. rewrite drop_0. by rewrite Ha.
  - destruct (read_array_cases (S n) s ltac:(lia)) as [[_ ->]|(l & s' & -> & -> & _)]; [by split|]. split; [done|]. cbn. rewrite length_app. lia.
Qed.
Lemma shrinks_fill fuel n : (n <= fuel)%nat -> shrinks (fill fuel n).
Proof.
  revert n. induction fuel as [|fuel IH]; intros n Hn s.
  - destruct n; [|lia]. cbn [fill]. revert s. apply shrinks_bind; [apply shrinks_read_array|].
    intros [l|]; [apply shrinks_ret|apply shrinks_throw].
  - cbn [fill]. destruct (decide (n = 0%nat)) as [->|Hn0].
    { revert s. apply shrinks_bind; [apply shrinks_read_array|]. intros [l|]; [apply shrinks_ret|apply shrinks_throw]. }
    destruct (read_array_cases n s ltac:(lia)) as [[_ E1]|(l & s1 & E1 & Hc & Hl)]; rewrite (bind_ok _ _ _ _ _ E1); cbv beta iota; [by split|].
    rewrite Hc, length_app. destruct (Nat.ltb_spec (length l) n); [|split; [done|cbn; lia]].
    destruct (shrinks_bind (fill fuel (n - length l)) (fun r => ret (l ++ r)) (IH (n - length l)%nat ltac:(lia)) (fun r => shrinks_ret _) s1).
    split; [done|lia].
Qed.
Create HintDb shrinks discriminated.
Hint Resolve shrinks_ret shrinks_throw shrinks_read shrinks_read_array : shrinks.
Ltac shrink :=
  repeat match goal with
  | |- forall _, _ => intro
  | |- shrinks (bind _ _) => apply shrinks_bind
  | _ => solve [auto with shrinks]
  end.
Lemma shrinks_full n : shrinks (readBytesUntilFull n).
Proof. by apply shrinks_fill. Qed.
Lemma shrinks_int16 : shrinks readUnsignedInt16.
Proof. unfold readUnsignedInt16, read_masked. shrink. Qed.
Lemma shrinks_int32 : shrinks readUnsignedInt32.
Proof. unfold readUnsignedInt32, read_masked. shrink. Qed.
Lemma shrinks_double : shrinks readDouble.
Proof. unfold readDouble, read_masked. shrink. Qed.
Hint Resolve shrinks_full shrinks_int16 shrinks_int32 shrinks_double : shrinks.
Lemma shrinks_key : shrinks (readStringFrom true).
Proof. unfold readStringFrom. cbn [negb]. shrink. Qed.
Lemma shrinks_marker : shrinks read_marker.
Proof. unfold read_marker. shrink. Qed.

(** A byte is there, or the string is longer than what follows. *)
Lemma key_shrinks s k s' : readStringFrom true s = (Ok k, s') -> (length (content s') < length (content s))%nat.
Proof.
  unfold readStringFrom. cbn [negb]. destruct (content s) as [|b r] eqn:Ec.
  - intros H. exfalso. revert H. rewrite (bind_ok (ret tt) _ _ _ _ eq_refl).
    assert (readUnsignedInt16 s = (Ok 65535, s)) as E1.
    { unfold readUnsignedInt16, read_masked, bind. rewrite (read_end s Ec). cbn. by rewrite (read_end s Ec). }
    rewrite (bind_ok _ _ _ _ _ E1). destruct (fill_short (Z.to_nat 65535) (Z.to_nat 65535) s) as [s1 E2]; [rewrite Ec; cbn [length]; lia|].
    unfold readBytesUntilFull. by rewrite (bind_throw _ _ _ _ _ E2).
  - intros H. destruct (read_shrinks_by s) as (b' & s1 & E1 & Hl); [by rewrite Ec|]. rewrite Ec in Hl.
    assert (shrinks (length <- (b0 <- read_masked ;; ret (Z.lor (shl (Z.land b' 255) 8) b0)) ;;
              byteValue <- readBytesUntilFull (Z.to_nat length) ;; ret (newString byteValue))) as Hs.
    { unfold read_masked. shrink. }
    assert (readUnsignedInt16 s = (b0 <- read_masked ;; ret (Z.lor (shl (Z.land b' 255) 8) b0)) s1) as E2.
    { unfold readUnsignedInt16, bind at 1, read_masked at 1, bind at 1. by rewrite E1. }
    destruct (Hs s1) as [_ Hle]. enough (length (content s') <= length (content s1))%nat by lia.
    replace s' with ((length <- (b0 <- read_masked ;; ret (Z.lor (shl (Z.land b' 255) 8) b0)) ;;
              byteValue <- readBytesUntilFull (Z.to_nat length) ;; ret (newString byteValue)) s1).2; [exact Hle|].
    rewrite (bind_ok (ret tt) _ _ _ _ eq_refl) in H. unfold bind at 1 in H. rewrite E2 in H. unfold bind at 1. by rewrite H.
Qed.

(** A decoder for what is left of a stream: it takes at least the type byte. *)
Definition decodes_below (n : nat) (m : M stream AmfData) : Prop := forall s, (length (content s) < n)%nat ->
  match m s with
  | (Ok _, s') => (length (content s') < length (content s))%nat
  | (Throw _, s') => (length (content s') <= length (content s))%nat
  | (Undef, _) => False
  end.
(** A computation that may use it. *)
Definition shrinks_below (n : nat) {A} (m : M stream A) : Prop := forall s, (length (content s) < n)%nat ->
  (m s).1 <> Undef /\ (length (content (m s).2) <= length (content s))%nat.

Lemma below_bind n {A B} (m : M stream A) (k : A -> M stream B) : shrinks_below n m -> (forall a, shrinks_below n (k a)) ->
  shrinks_below n (bind m k).
Proof.
  intros Hm Hk s Hs. destruct (Hm s Hs) as [Hu Hl]. unfold bind. destruct (m s) as [[a|e|] s']; cbn in *; [|done..].
  destruct (Hk a s' ltac:(lia)). split; [done|lia].
Qed.
Lemma shrinks_is_below n {A} (m : M stream A) : shrinks m -> shrinks_below n m.
Proof. intros Hm s _. apply Hm. Qed.
Lemma decodes_is_below n m : decodes_below n m -> shrinks_below n m.
Proof. intros Hm s Hs. specialize (Hm s Hs). destruct (m s) as [[v|e|] s']; [|by split|done]. split; [done|cbn; lia]. Qed.

Lemma items_below n m k items size : decodes_below n m -> shrinks_below n (read_items m k items size).
Proof.
  intros Hm. revert items size. induction k as [|k IH]; intros items size; [apply shrinks_is_below, shrinks_ret|].
  cbn [read_items]. apply below_bind; [by apply decodes_is_below|auto].
Qed.

Lemma properties_below n m fuel ps size : decodes_below n m -> (n <= fuel)%nat -> shrinks_below n (read_properties m fuel ps size).
Proof.
  intros Hm Hf s Hs. assert (length (content s) < fuel)%nat as Hsf by lia. clear Hf. revert ps size s Hs Hsf.
  induction fuel as [|fuel IH]; intros ps size s Hs Hsf; [lia|]. cbn [read_properties]. rewrite (bind_ok get _ _ _ _ eq_refl).
  destruct (shrinks_marker s) as [Hu Hle]. destruct (read_marker s) as [[mk|e|] s1] eqn:Em; cbn in Hu, Hle; [| |done].
  2: rewrite (bind_throw _ _ _ _ _ Em); by split.
  rewrite (bind_ok _ _ _ _ _ Em). destruct (bool_decide _); [by split|]. rewrite (bind_ok (put s) _ s1 s tt eq_refl).
  destruct (shrinks_key s) as [Hu2 Hl2]. destruct (readStringFrom true s) as [[key|e|] s2] eqn:Ek; cbn in Hu2, Hl2; [| |done].
  2: rewrite (bind_throw _ _ _ _ _ Ek); by split.
  pose proof (key_shrinks s key s2 Ek). rewrite (bind_ok _ _ _ _ _ Ek). specialize (Hm s2 ltac:(lia)).
  destruct (m s2) as [[v|e|] s3] eqn:Ev; [| |done].
  2: rewrite (bind_throw _ _ _ _ _ Ev); split; [done|cbn; lia].
  rewrite (bind_ok _ _ _ _ _ Ev).
  destruct (IH (put_property key v ps) (size + sizeOf key true + getSize v) s3); [lia..|]. split; [done|lia].
Qed.

Lemma decode_below n : decodes_below n (decode n).
Proof.
  induction n as [|n IH]; intros s Hs; [lia|]. destruct (content s) as [|b0 r] eqn:Ec.
  { cbn [decode]. rewrite (bind_ok _ _ _ _ _ (read_end s Ec)).
    assert (amf_valueOf (low_byte (-1)) = None) as -> by done. cbn. by rewrite Ec. }
  destruct (read_shrinks_by s) as (b & s1 & E1 & Hl); [by rewrite Ec|]. rewrite Ec in Hl.
  cut (forall A (m : M stream A), shrinks_below n m -> match m s1 with
       | (Ok _, s') => (length (content s') < length (b0 :: r))%nat
       | (Throw _, s') => (length (content s') <= length (b0 :: r))%nat
       | (Undef, _) => False end).
  - intros Hcut. cbn [decode]. rewrite (bind_ok _ _ _ _ _ E1).
    assert (forall ps size, shrinks_below n (read_properties (decode n) n ps size)) as Hp by (intros; by apply properties_below).
    destruct (amf_valueOf (low_byte b)) as [[]|]; apply Hcut;
      repeat match goal with
      | |- forall _, _ => intro
      | |- shrinks_below _ (throw_if ?c _) => destruct c; cbn [throw_if]
      | |- shrinks_below _ (read_items _ _ _ _) => by apply items_below
      | |- shrinks_below _ (read_properties _ _ _ _) => apply Hp
      | |- shrinks_below _ (bind _ _) => apply below_bind
      | |- shrinks_below _ _ => apply shrinks_is_below; solve [auto with shrinks]
      end.
  - intros A m Hm. destruct (Hm s1) as [Hu Hle]; [cbn in *; lia|]. destruct (m s1) as [[a|e|] s2]; cbn in *; [lia|lia|done].
Qed.

Lemma readFrom_returns s : (readFrom s).1 <> Undef.
Proof.
  unfold readFrom. pose proof (decode_below (S (length (content s))) s ltac:(lia)) as H.
  by destruct (decode _ s) as [[v|e|] s'].
Qed.

(** ** Numbers *)

Lemma double_read_nan d : Z.testbit d 31 = true -> int_of_double (double_read d) = 0.
Proof.
  intros Hd. unfold double_read. rewrite Hd. pose proof (Z.mod_pos_bound d (2 ^ 32) ltac:(lia)) as Hb.
  unfold int_of_double. set (x := 2 ^ 64 - 2 ^ 32 + d mod 2 ^ 32).
  assert ((x / 2 ^ 52) mod 2 ^ 11 = 2047) as -> by (subst x; Z.to_euclidean_division_equations; lia).
  destruct (Z.eqb_spec (x mod 2 ^ 52) 0) as [Hm|]; [|done]. exfalso. subst x. Z.to_euclidean_division_equations. lia.
Qed.

Lemma double_of_int_small n : - 2 ^ 21 < n < 2 ^ 21 -> Z.testbit (double_of_int n) 31 = false.
Proof.
  intros Hn. destruct (Z.eq_dec n 0) as [->|Hn0]; [done|].
  destruct (double_of_int_parts n ltac:(unfold is_int; lia) Hn0) as (He & Ha & _ & ->). rewrite testbit_31.
  set (e := Z.log2 (Z.abs n)) in *. assert (e <= 20) as He20.
  { destruct (Z.le_gt_cases e 20); [done|]. pose proof (Z.pow_le_mono_r 2 21 e ltac:(lia) ltac:(lia)). lia. }
  assert (2 ^ (52 - e) = 2 ^ (20 - e) * 2 ^ 32) as Hp by (rewrite <- Z.pow_add_r by lia; f_equal; lia).
  replace (_ mod 2 ^ 32) with 0; [done|]. symmetry. apply Z.mod_divide; [lia|]. rewrite Hp.
  exists ((if n <? 0 then 2 ^ 31 else 0) + (e + 1023) * 2 ^ 20 + (Z.abs n - 2 ^ e) * 2 ^ (20 - e)). destruct (n <? 0); lia.
Qed.

Lemma double_of_int_odd n : 2 ^ 21 <= n < 2 ^ 22 -> Z.odd n = true -> Z.testbit (double_of_int n) 31 = true.
Proof.
  intros Hn Ho. destruct (double_of_int_parts n ltac:(unfold is_int; lia) ltac:(lia)) as (_ & _ & _ & ->). rewrite testbit_31.
  rewrite Z.abs_eq by lia. assert (Z.log2 n = 21) as -> by (apply Z.log2_unique; lia).
  destruct (Z.ltb_spec n 0); [lia|]. rewrite Zodd_mod in Ho. apply Z.eqb_eq in Ho.
  destruct (Z.ltb_spec ((0 + (21 + 1023) * 2 ^ 52 + (n - 2 ^ 21) * 2 ^ (52 - 21)) mod 2 ^ 32) (2 ^ 31)) as [Hlt|]; [|done].
  exfalso. change (52 - 21) with 31 in Hlt. Z.to_euclidean_division_equations. lia.
Qed.

(** ** The properties *)


(** The decoder returns or throws on every stream, whatever bytes the
    server sends; it never loops. *)
Theorem amf_reading_returns s : (readFrom s).1 <> Undef.
Proof. apply readFrom_returns. Qed.

(** A double is misread if bit 31 is set: the fifth byte is shifted as an
    int and its sign fills the upper half with ones, so that a NaN is read,
    which as an int is 0.  Every int up to 2^21 survives; between 2^21 and
    2^22, where process numbers of servers lie, every odd one becomes 0. *)
Theorem numbers_with_bit_31_lost :
  (forall d, 0 <= d < 2 ^ 64 -> reads False False readDouble (writeDouble d) (double_read d)) /\
  (forall d, Z.testbit d 31 = true -> int_of_double (double_read d) = 0) /\
  (forall n, - 2 ^ 21 < n < 2 ^ 21 -> int_of_double (double_read (double_of_int n)) = n) /\
  (forall n, 2 ^ 21 <= n < 2 ^ 22 -> Z.odd n = true -> int_of_double (double_read (double_of_int n)) = 0).
Proof.
  split_and!.
  - intros d Hd. by apply reads_double.
  - apply double_read_nan.
  - intros n Hn. unfold double_read. rewrite double_of_int_small by done. apply int_of_double_of_int. unfold is_int. lia.
  - intros n Hn Ho. by apply double_read_nan, double_of_int_odd.
Qed.

(** The end marker of an object is looked for with a single read, which a
    socket may cut short.  If only the first byte of the marker is there yet,
    it is taken for a key, and the decoder throws a NullPointerException; in
    one segment the same bytes are read. *)
Theorem split_marker_misread rest :
  (readFrom (mkStream Buffered [[3; 0]; 0 :: 9 :: rest])).1 = Throw (Java NullPointerException) /\
  (readFrom (mkStream Buffered [[3; 0; 0; 9] ++ rest])).1 = Ok (AmfObject [] 4).
Proof. by split. Qed.

Definition sample_object : AmfData :=
  setProperty (str "app") (newAmfString (str "live")) (setProperty (str "capabilities") (AmfNumber (double_of_int 239)) newAmfObject).
Lemma sample_object_writable : writable sample_object.
Proof.
  constructor; [apply (bool_decide_unpack _); vm_compute; exact I|].
  repeat constructor; try (vm_compute; congruence).
Qed.
