(* ===== verification/RtmpPacket.v ===== *)
(** * simplertmp: headers, packets and the decoder

    The classes of packets/, with ChunkStreamInfo, RtmpSessionInfo and
    RtmpDecoder of io/, in
    src/library/src/main/java/com/github/faucamp/simplertmp.  [now] is what
    System.nanoTime gives, in milliseconds.  Writing keeps the calls of
    [OutputStream.write]; the assertion in UserControl.readBody is not enabled
    on Android. *)

From stdpp Require Import base list gmap strings pretty.
From Stdlib Require Import ZArith Lia.
From S2P Require Import Prelude Java RtmpUtil Amf.
Open Scope Z_scope.

(** ** Message and chunk types *)

Inductive MessageType :=
| SET_CHUNK_SIZE | ABORT | ACKNOWLEDGEMENT | USER_CONTROL_MESSAGE | WINDOW_ACKNOWLEDGEMENT_SIZE | SET_PEER_BANDWIDTH
| AUDIO | VIDEO | DATA_AMF3 | SHARED_OBJECT_AMF3 | COMMAND_AMF3 | DATA_AMF0 | SHARED_OBJECT_AMF0 | COMMAND_AMF0
| AGGREGATE_MESSAGE.
#[global] Instance MessageType_eq_dec : EqDecision MessageType.
Proof. solve_decision. Defined.

Definition message_types : list MessageType :=
  [SET_CHUNK_SIZE; ABORT; ACKNOWLEDGEMENT; USER_CONTROL_MESSAGE; WINDOW_ACKNOWLEDGEMENT_SIZE; SET_PEER_BANDWIDTH;
   AUDIO; VIDEO; DATA_AMF3; SHARED_OBJECT_AMF3; COMMAND_AMF3; DATA_AMF0; SHARED_OBJECT_AMF0; COMMAND_AMF0; AGGREGATE_MESSAGE].
Definition message_value (t : MessageType) : Z :=
  match t with
  | SET_CHUNK_SIZE => 1 | ABORT => 2 | ACKNOWLEDGEMENT => 3 | USER_CONTROL_MESSAGE => 4
  | WINDOW_ACKNOWLEDGEMENT_SIZE => 5 | SET_PEER_BANDWIDTH => 6 | AUDIO => 8 | VIDEO => 9
  | DATA_AMF3 => 15 | SHARED_OBJECT_AMF3 => 16 | COMMAND_AMF3 => 17
  | DATA_AMF0 => 18 | SHARED_OBJECT_AMF0 => 19 | COMMAND_AMF0 => 20 | AGGREGATE_MESSAGE => 22
  end.
Definition message_valueOf (b : Z) : outcome MessageType :=
  match list_find (fun t => message_value t = b) message_types with
  | Some (_, t) => Ok t
  | None => Throw (Java (IllegalArgumentException ("Unknown message type byte: " +:+ toHexString b)))
  end.

Inductive ChunkType := TYPE_0_FULL | TYPE_1_RELATIVE_LARGE | TYPE_2_RELATIVE_TIMESTAMP_ONLY | TYPE_3_RELATIVE_SINGLE_BYTE.
#[global] Instance ChunkType_eq_dec : EqDecision ChunkType.
Proof. solve_decision. Defined.

Definition chunk_types : list ChunkType :=
  [TYPE_0_FULL; TYPE_1_RELATIVE_LARGE; TYPE_2_RELATIVE_TIMESTAMP_ONLY; TYPE_3_RELATIVE_SINGLE_BYTE].
Definition chunk_value (t : ChunkType) : Z :=
  match t with
  | TYPE_0_FULL => 0 | TYPE_1_RELATIVE_LARGE => 1 | TYPE_2_RELATIVE_TIMESTAMP_ONLY => 2 | TYPE_3_RELATIVE_SINGLE_BYTE => 3
  end.
Definition chunk_valueOf (b : Z) : outcome ChunkType :=
  match list_find (fun t => chunk_value t = b) chunk_types with
  | Some (_, t) => Ok t
  | None => Throw (Java (IllegalArgumentException ("Unknown chunk header type byte: " +:+ toHexString b)))
  end.

(** ** RtmpHeader *)

Record RtmpHeader := mkHeader {
  chunkType : ChunkType;
  chunkStreamId : Z;
  absoluteTimestamp : Z;
  timestampDelta : Z;
  packetLength : Z;
  messageType : MessageType;
  messageStreamId : Z;
  extendedTimestamp : Z }.

Definition newHeader (type : ChunkType) (id : Z) (message : MessageType) : RtmpHeader :=
  mkHeader type id 0 (-1) 0 message 0 0.
Definition setChunkStreamId v (h : RtmpHeader) : RtmpHeader :=
  mkHeader (chunkType h) v (absoluteTimestamp h) (timestampDelta h) (packetLength h) (messageType h) (messageStreamId h) (extendedTimestamp h).
Definition setAbsoluteTimestamp v (h : RtmpHeader) : RtmpHeader :=
  mkHeader (chunkType h) (chunkStreamId h) v (timestampDelta h) (packetLength h) (messageType h) (messageStreamId h) (extendedTimestamp h).
Definition setTimestampDelta v (h : RtmpHeader) : RtmpHeader :=
  mkHeader (chunkType h) (chunkStreamId h) (absoluteTimestamp h) v (packetLength h) (messageType h) (messageStreamId h) (extendedTimestamp h).
Definition setPacketLength v (h : RtmpHeader) : RtmpHeader :=
  mkHeader (chunkType h) (chunkStreamId h) (absoluteTimestamp h) (timestampDelta h) v (messageType h) (messageStreamId h) (extendedTimestamp h).
Definition setMessageStreamId v (h : RtmpHeader) : RtmpHeader :=
  mkHeader (chunkType h) (chunkStreamId h) (absoluteTimestamp h) (timestampDelta h) (packetLength h) (messageType h) v (extendedTimestamp h).
Definition with_extendedTimestamp v (h : RtmpHeader) : RtmpHeader :=
  mkHeader (chunkType h) (chunkStreamId h) (absoluteTimestamp h) (timestampDelta h) (packetLength h) (messageType h) (messageStreamId h) v.

(** ** ChunkStreamInfo *)

Definition RTMP_CID_PROTOCOL_CONTROL : Z := 2.
Definition RTMP_CID_OVER_CONNECTION : Z := 3.
Definition RTMP_CID_OVER_CONNECTION2 : Z := 4.
Definition RTMP_CID_OVER_STREAM : Z := 5.
Definition RTMP_CID_VIDEO : Z := 6.
Definition RTMP_CID_AUDIO : Z := 7.

Record ChunkStreamInfo := mkChunkStreamInfo {
  prevHeaderRx : option RtmpHeader;
  prevHeaderTx : option RtmpHeader;
  realLastTimestamp : Z;
  baos : list Z }.

Definition newChunkStreamInfo (now : Z) : ChunkStreamInfo := mkChunkStreamInfo None None now [].
Definition setPrevHeaderRx h (i : ChunkStreamInfo) : ChunkStreamInfo :=
  mkChunkStreamInfo (Some h) (prevHeaderTx i) (realLastTimestamp i) (baos i).
Definition setPrevHeaderTx h (i : ChunkStreamInfo) : ChunkStreamInfo :=
  mkChunkStreamInfo (prevHeaderRx i) (Some h) (realLastTimestamp i) (baos i).
Definition canReusePrevHeaderTx (i : ChunkStreamInfo) (forMessageType : MessageType) : bool :=
  match prevHeaderTx i with Some h => bool_decide (messageType h = forMessageType) | None => false end.
Definition markAbsoluteTimestampTx (now sessionBeginTimestamp : Z) : Z := long (now - sessionBeginTimestamp).
Definition markDeltaTimestampTx (now : Z) (i : ChunkStreamInfo) : Z * ChunkStreamInfo :=
  (long (now - realLastTimestamp i), mkChunkStreamInfo (prevHeaderRx i) (prevHeaderTx i) now (baos i)).

Definition baos_size (i : ChunkStreamInfo) : Z := Z.of_nat (length (baos i)).
Definition with_baos l (i : ChunkStreamInfo) : ChunkStreamInfo :=
  mkChunkStreamInfo (prevHeaderRx i) (prevHeaderTx i) (realLastTimestamp i) l.
Definition clearStoredChunks (i : ChunkStreamInfo) : ChunkStreamInfo := with_baos [] i.
(** The stored bytes; the caller reads them as a stream in memory. *)
Definition getStoredPacketInputStream (i : ChunkStreamInfo) : list Z * ChunkStreamInfo := (baos i, clearStoredChunks i).
Definition storePacketChunk (i : ChunkStreamInfo) (chunkSize : Z) : M stream (ChunkStreamInfo * bool) :=
  match prevHeaderRx i with
  | None => throw (Java NullPointerException)
  | Some h =>
    let remainingBytes := int (packetLength h - baos_size i) in
    n <- new_array (Z.min remainingBytes chunkSize) ;;
    chunk <- readBytesUntilFull n ;;
    let i := with_baos (baos i ++ chunk) i in
    ret (i, baos_size i =? packetLength h)
  end.

(** ** RtmpSessionInfo *)

Record RtmpSessionInfo := mkSessionInfo {
  windowBytesRead : Z;
  acknowledgementWindowSize : Z;
  totalBytesRead : Z;
  rxChunkSize : Z;
  txChunkSize : Z;
  chunkChannels : gmap Z ChunkStreamInfo;
  invokedMethods : gmap Z jstring }.

Definition newSessionInfo : RtmpSessionInfo := mkSessionInfo 0 (2 ^ 31 - 1) 0 128 128 ∅ ∅.
Definition with_channels c (s : RtmpSessionInfo) : RtmpSessionInfo :=
  mkSessionInfo (windowBytesRead s) (acknowledgementWindowSize s) (totalBytesRead s) (rxChunkSize s) (txChunkSize s) c (invokedMethods s).
Definition with_invokedMethods m (s : RtmpSessionInfo) : RtmpSessionInfo :=
  mkSessionInfo (windowBytesRead s) (acknowledgementWindowSize s) (totalBytesRead s) (rxChunkSize s) (txChunkSize s) (chunkChannels s) m.
Definition setRxChunkSize n (s : RtmpSessionInfo) : RtmpSessionInfo :=
  mkSessionInfo (windowBytesRead s) (acknowledgementWindowSize s) (totalBytesRead s) n (txChunkSize s) (chunkChannels s) (invokedMethods s).
Definition setAcknowledgmentWindowSize n (s : RtmpSessionInfo) : RtmpSessionInfo :=
  mkSessionInfo (windowBytesRead s) n (totalBytesRead s) (rxChunkSize s) (txChunkSize s) (chunkChannels s) (invokedMethods s).

(** The object is shared through the map: callers that change it store it. *)
Definition getChunkStreamInfo (now id : Z) : M RtmpSessionInfo ChunkStreamInfo :=
  s <- get ;;
  match chunkChannels s !! id with
  | Some i => ret i
  | None =>
    let i := newChunkStreamInfo now in
    put (with_channels (<[id := i]> (chunkChannels s)) s) ;;; ret i
  end.
Definition store_channel (id : Z) (i : ChunkStreamInfo) : M RtmpSessionInfo unit :=
  modify (fun s => with_channels (<[id := i]> (chunkChannels s)) s).
Definition takeInvokedCommand (transactionId : Z) : M RtmpSessionInfo (option jstring) :=
  s <- get ;;
  put (with_invokedMethods (delete transactionId (invokedMethods s)) s) ;;;
  ret (invokedMethods s !! transactionId).
Definition addInvokedCommand (transactionId : Z) (commandName : jstring) : M RtmpSessionInfo unit :=
  modify (fun s => with_invokedMethods (<[transactionId := commandName]> (invokedMethods s)) s).
(** Whether WindowAckRequired is thrown, with the total of bytes read. *)
Definition addToWindowBytesRead (numBytes : Z) (s : RtmpSessionInfo) : option Z * RtmpSessionInfo :=
  let w := int (windowBytesRead s + numBytes) in
  let t := int (totalBytesRead s + numBytes) in
  let ack := acknowledgementWindowSize s <=? w in
  let w := if ack then int (w - acknowledgementWindowSize s) else w in
  (if ack then Some t else None,
   mkSessionInfo w (acknowledgementWindowSize s) t (rxChunkSize s) (txChunkSize s) (chunkChannels s) (invokedMethods s)).

(** ** Reading headers *)

Record rx := mkRx { rx_in : stream; rx_info : RtmpSessionInfo }.
Definition on_in {A} : M stream A -> M rx A := zoom (fun s => Some (rx_in s)) (fun i s => mkRx i (rx_info s)).
Definition on_info {A} : M RtmpSessionInfo A -> M rx A := zoom (fun s => Some (rx_info s)) (fun i s => mkRx (rx_in s) i).

Definition parseBasicHeader (basicHeaderByte : Z) : outcome (ChunkType * Z) :=
  let! type := chunk_valueOf (ushr (Z.land 255 basicHeaderByte) 6) in
  Ok (type, Z.land basicHeaderByte 63).

Definition readMessageType : M stream MessageType := b <- read ;; lift (message_valueOf (low_byte b)).
Definition readExtendedTimestamp (value : Z) : M stream Z :=
  if 16777215 <=? value then readUnsignedInt32 else ret 0.
(** [rtmpSessionInfo.getChunkStreamInfo(chunkStreamId).prevHeaderRx()]. *)
Definition previous (now id : Z) : M rx (option RtmpHeader) :=
  i <- on_info (getChunkStreamInfo now id) ;; ret (prevHeaderRx i).
(** Access to a field of what may be null. *)
Definition deref {S A} (o : option A) : M S A :=
  match o with Some a => ret a | None => throw (Java NullPointerException) end.

Definition readHeader (now : Z) : M rx RtmpHeader :=
  basicHeaderByte <- on_in read ;;
  throw_if (basicHeaderByte =? -1) (Java (EOFException "Unexpected EOF while reading RTMP packet basic header")) ;;;
  basic <- lift (parseBasicHeader basicHeaderByte) ;;
  let type := basic.1 in
  let id := basic.2 in
  match type with
  | TYPE_0_FULL =>
    timestamp <- on_in readUnsignedInt24 ;;
    length <- on_in readUnsignedInt24 ;;
    message <- on_in readMessageType ;;
    messageStreamIdBytes <- on_in (readBytesUntilFull 4) ;;
    stream <- lift (toUnsignedInt32LittleEndian messageStreamIdBytes) ;;
    extended <- on_in (readExtendedTimestamp timestamp) ;;
    ret (mkHeader type id (if extended =? 0 then timestamp else extended) 0 length message stream extended)
  | TYPE_1_RELATIVE_LARGE =>
    delta <- on_in readUnsignedInt24 ;;
    length <- on_in readUnsignedInt24 ;;
    message <- on_in readMessageType ;;
    extended <- on_in (readExtendedTimestamp delta) ;;
    prevHeader <- previous now id ;;
    let absolute := match prevHeader with Some p => int (absoluteTimestamp p + delta) | None => delta end in
    let stream := match prevHeader with Some p => messageStreamId p | None => 0 end in
    ret (mkHeader type id (if extended =? 0 then absolute else extended) delta length message stream extended)
  | TYPE_2_RELATIVE_TIMESTAMP_ONLY =>
    delta <- on_in readUnsignedInt24 ;;
    extended <- on_in (readExtendedTimestamp delta) ;;
    prevHeader <- previous now id ;;
    p <- deref prevHeader ;;
    ret (mkHeader type id (if extended =? 0 then int (absoluteTimestamp p + delta) else extended) delta
           (packetLength p) (messageType p) (messageStreamId p) extended)
  | TYPE_3_RELATIVE_SINGLE_BYTE =>
    prevHeader <- previous now id ;;
    p <- deref prevHeader ;;
    extended <- on_in (readExtendedTimestamp (timestampDelta p)) ;;
    let delta := if extended =? 0 then timestampDelta p else 16777215 in
    ret (mkHeader type id (if extended =? 0 then int (absoluteTimestamp p + delta) else extended) delta
           (packetLength p) (messageType p) (messageStreamId p) extended)
  end.

(** ** Writing headers

    The stream, as the calls of [write] in order, the header that is written
    and the chunk stream it goes to. *)

Record tx := mkTx { tx_out : list (list Z); tx_header : RtmpHeader; tx_info : ChunkStreamInfo }.
Definition written (t : tx) : list Z := concat (tx_out t).
Definition write (bs : list Z) : M tx unit := modify (fun t => mkTx (tx_out t ++ [bs]) (tx_header t) (tx_info t)).
Definition change_header (f : RtmpHeader -> RtmpHeader) : M tx unit := modify (fun t => mkTx (tx_out t) (f (tx_header t)) (tx_info t)).
Definition mark_delta (now : Z) : M tx Z :=
  t <- get ;;
  let '(d, i) := markDeltaTimestampTx now (tx_info t) in
  put (mkTx (tx_out t) (tx_header t) i) ;;; ret (int d).

Definition write_extended (value : Z) : M tx unit :=
  when (16777215 <=? value) (change_header (with_extendedTimestamp value) ;;; write (writeUnsignedInt32 value)).
(** The new delta and timestamp of types 1 and 2. *)
Definition write_delta (now : Z) : M tx unit :=
  delta <- mark_delta now ;;
  change_header (setTimestampDelta delta) ;;;
  t <- get ;;
  p <- deref (prevHeaderTx (tx_info t)) ;;
  let absolute := int (absoluteTimestamp p + delta) in
  change_header (setAbsoluteTimestamp absolute) ;;;
  write (writeUnsignedInt24 (if 16777215 <=? absolute then 16777215 else delta)).

Definition header_writeTo (now : Z) (type : ChunkType) : M tx unit :=
  t <- get ;;
  let h := tx_header t in
  write [low_byte (Z.lor (wrap_s 8 (Z.shiftl (chunk_value type) 6)) (chunkStreamId h))] ;;;
  match type with
  | TYPE_0_FULL =>
    mark_delta now ;;;
    write (writeUnsignedInt24 (if 16777215 <=? absoluteTimestamp h then 16777215 else absoluteTimestamp h)) ;;;
    write (writeUnsignedInt24 (packetLength h)) ;;;
    write [message_value (messageType h)] ;;;
    write (writeUnsignedInt32LittleEndian (messageStreamId h)) ;;;
    write_extended (absoluteTimestamp h)
  | TYPE_1_RELATIVE_LARGE =>
    write_delta now ;;;
    write (writeUnsignedInt24 (packetLength h)) ;;;
    write [message_value (messageType h)] ;;;
    t <- get ;; write_extended (absoluteTimestamp (tx_header t))
  | TYPE_2_RELATIVE_TIMESTAMP_ONLY =>
    write_delta now ;;;
    t <- get ;; write_extended (absoluteTimestamp (tx_header t))
  | TYPE_3_RELATIVE_SINGLE_BYTE =>
    when (0 <? extendedTimestamp h) (write (writeUnsignedInt32 (extendedTimestamp h)))
  end.

(** ** Packets *)

Inductive ControlType :=
| STREAM_BEGIN | STREAM_EOF | STREAM_DRY | SET_BUFFER_LENGTH | STREAM_IS_RECORDED | PING_REQUEST | PONG_REPLY
| BUFFER_EMPTY | BUFFER_READY.
#[global] Instance ControlType_eq_dec : EqDecision ControlType.
Proof. solve_decision. Defined.
Definition control_types : list ControlType :=
  [STREAM_BEGIN; STREAM_EOF; STREAM_DRY; SET_BUFFER_LENGTH; STREAM_IS_RECORDED; PING_REQUEST; PONG_REPLY; BUFFER_EMPTY; BUFFER_READY].
Definition control_value (t : ControlType) : Z :=
  match t with
  | STREAM_BEGIN => 0 | STREAM_EOF => 1 | STREAM_DRY => 2 | SET_BUFFER_LENGTH => 3 | STREAM_IS_RECORDED => 4
  | PING_REQUEST => 6 | PONG_REPLY => 7 | BUFFER_EMPTY => 31 | BUFFER_READY => 32
  end.
Definition control_valueOf (n : Z) : option ControlType := snd <$> list_find (fun t => control_value t = n) control_types.

Inductive LimitType := HARD | SOFT | DYNAMIC.
Definition limit_value (t : LimitType) : Z := match t with HARD => 0 | SOFT => 1 | DYNAMIC => 2 end.
Definition limit_valueOf (n : Z) : option LimitType := snd <$> list_find (fun t => limit_value t = n) [HARD; SOFT; DYNAMIC].

(** References that the code may leave null are options. *)
Inductive packet_body :=
| SetChunkSize (chunkSize : Z)
| Abort (streamId : Z)
| Acknowledgement (sequenceNumber : Z)
| UserControl (type : option ControlType) (eventData : option (list Z))
| WindowAckSize (windowSize : Z)
| SetPeerBandwidth (windowSize : Z) (limitType : option LimitType)
| Audio (data : option (list Z)) (size : Z)
| Video (data : option (list Z)) (size : Z)
| Command (commandName : jstring) (transactionId : Z) (data : option (list AmfData))
| Data (type : jstring) (data : option (list AmfData)).

Record RtmpPacket := mkPacket { packet_header : RtmpHeader; body : packet_body }.

(** [addData], of packets with variable data. *)
Definition add_item (dataItem : option AmfData) (data : option (list AmfData)) : option (list AmfData) :=
  Some (default [] data ++ [default AmfNull dataItem]).
Definition addData (dataItem : option AmfData) (p : RtmpPacket) : RtmpPacket :=
  match body p with
  | Command name id data => mkPacket (packet_header p) (Command name id (add_item dataItem data))
  | Data type data => mkPacket (packet_header p) (Data type (add_item dataItem data))
  | _ => p
  end.

(** *** Constructors of packets to send *)

Definition reuse (i : ChunkStreamInfo) (message : MessageType) (type : ChunkType) : ChunkType :=
  if canReusePrevHeaderTx i message then type else TYPE_0_FULL.

Definition newSetChunkSize (chunkSize : Z) : RtmpPacket :=
  mkPacket (newHeader TYPE_1_RELATIVE_LARGE RTMP_CID_PROTOCOL_CONTROL SET_CHUNK_SIZE) (SetChunkSize chunkSize).
(** With the message type of SetChunkSize, as the code has it. *)
Definition newAbort (streamId : Z) : RtmpPacket :=
  mkPacket (newHeader TYPE_1_RELATIVE_LARGE RTMP_CID_PROTOCOL_CONTROL SET_CHUNK_SIZE) (Abort streamId).
Definition newAcknowledgement (numBytesReadThusFar : Z) : RtmpPacket :=
  mkPacket (newHeader TYPE_0_FULL RTMP_CID_PROTOCOL_CONTROL ACKNOWLEDGEMENT) (Acknowledgement numBytesReadThusFar).
Definition newWindowAckSize (size : Z) (i : ChunkStreamInfo) : RtmpPacket :=
  mkPacket (newHeader (reuse i WINDOW_ACKNOWLEDGEMENT_SIZE TYPE_2_RELATIVE_TIMESTAMP_ONLY) RTMP_CID_PROTOCOL_CONTROL
              WINDOW_ACKNOWLEDGEMENT_SIZE) (WindowAckSize size).
(** With the message type of WindowAckSize, as the code has it. *)
Definition newSetPeerBandwidth (size : Z) (limitType : LimitType) (i : ChunkStreamInfo) : RtmpPacket :=
  mkPacket (newHeader (reuse i SET_PEER_BANDWIDTH TYPE_2_RELATIVE_TIMESTAMP_ONLY) RTMP_CID_PROTOCOL_CONTROL
              WINDOW_ACKNOWLEDGEMENT_SIZE) (SetPeerBandwidth size (Some limitType)).
Definition newUserControl (type : ControlType) (i : ChunkStreamInfo) : RtmpPacket :=
  mkPacket (newHeader (reuse i USER_CONTROL_MESSAGE TYPE_2_RELATIVE_TIMESTAMP_ONLY) RTMP_CID_PROTOCOL_CONTROL
              USER_CONTROL_MESSAGE) (UserControl (Some type) None).
(** The reply to a ping, with its event data. *)
Definition newPong (eventData : option (list Z)) (i : ChunkStreamInfo) : RtmpPacket :=
  mkPacket (packet_header (newUserControl PONG_REPLY i)) (UserControl (Some PONG_REPLY) eventData).
Definition newCommand (commandName : jstring) (transactionId : Z) : RtmpPacket :=
  mkPacket (newHeader TYPE_0_FULL RTMP_CID_OVER_CONNECTION COMMAND_AMF0) (Command commandName transactionId None).
Definition newCommandOn (commandName : jstring) (transactionId : Z) (i : ChunkStreamInfo) : RtmpPacket :=
  mkPacket (newHeader (reuse i COMMAND_AMF0 TYPE_1_RELATIVE_LARGE) RTMP_CID_OVER_CONNECTION COMMAND_AMF0)
    (Command commandName transactionId None).
Definition newData (type : jstring) : RtmpPacket :=
  mkPacket (newHeader TYPE_0_FULL RTMP_CID_OVER_CONNECTION DATA_AMF0) (Data type None).
Definition newAudio : RtmpPacket := mkPacket (newHeader TYPE_0_FULL RTMP_CID_AUDIO AUDIO) (Audio None 0).
Definition newVideo : RtmpPacket := mkPacket (newHeader TYPE_0_FULL RTMP_CID_VIDEO VIDEO) (Video None 0).

(** *** Bodies *)

Definition writeVariableData (data : option (list AmfData)) : outcome (list Z) :=
  match data with
  | None => Ok [amf_value NULL]
  | Some l => foldr (fun d r => let! b := writeTo d in let! bs := r in Ok (b ++ bs)) (Ok []) l
  end.
Definition UserControl_writeBody (type : option ControlType) (eventData : option (list Z)) : outcome (list Z) :=
  match type, eventData with
  | Some t, Some l =>
    match l !! 0%nat with
    | None => Throw (Java IndexOutOfBoundsException)
    | Some v =>
      let bytes := writeUnsignedInt16 (control_value t) ++ writeUnsignedInt32 v in
      if bool_decide (t = SET_BUFFER_LENGTH) then
        match l !! 1%nat with
        | Some w => Ok (bytes ++ writeUnsignedInt32 w)
        | None => Throw (Java IndexOutOfBoundsException)
        end
      else Ok bytes
    end
  | _, _ => Throw (Java NullPointerException)
  end.
Definition SetPeerBandwidth_writeBody (acknowledgementWindowSize : Z) (limitType : option LimitType) : outcome (list Z) :=
  match limitType with
  | Some t => Ok (writeUnsignedInt32 acknowledgementWindowSize ++ [limit_value t])
  | None => Throw (Java NullPointerException)
  end.
Definition Command_writeBody (commandName : jstring) (transactionId : Z) (data : option (list AmfData)) : outcome (list Z) :=
  let! bs := writeVariableData data in
  Ok (writeStringTo commandName false ++ writeNumberTo (double_of_int transactionId) ++ bs).
Definition Data_writeBody (type : jstring) (data : option (list AmfData)) : outcome (list Z) :=
  let! bs := writeVariableData data in Ok (writeStringTo type false ++ bs).
Definition writeBody (b : packet_body) : outcome (list Z) :=
  match b with
  | SetChunkSize n | Abort n | Acknowledgement n | WindowAckSize n => Ok (writeUnsignedInt32 n)
  | UserControl type eventData => UserControl_writeBody type eventData
  | SetPeerBandwidth n limitType => SetPeerBandwidth_writeBody n limitType
  | Audio _ _ | Video _ _ => Ok []
  | Command name id data => Command_writeBody name id data
  | Data type data => Data_writeBody type data
  end.

(** [array()] and [size()] of content, and else the body as it is written. *)
Definition packet_bytes (b : packet_body) : outcome (option (list Z) * Z) :=
  let! bytes := writeBody b in
  Ok match b with
     | Audio data size | Video data size => (data, size)
     | _ => (Some bytes, Z.of_nat (length bytes))
     end.

(** [out.write(body, pos, len)] on a BufferedOutputStream. *)
Definition write_slice (body : option (list Z)) (pos len : Z) : M tx unit :=
  match body with
  | None => throw (Java NullPointerException)
  | Some l =>
    if (pos <? 0) || (len <? 0) || (Z.of_nat (length l) <? pos + len) then throw (Java IndexOutOfBoundsException)
    else write (take (Z.to_nat len) (drop (Z.to_nat pos) l))
  end.

(** The loop over the chunks.  It ends only if the chunk size is positive;
    [fuel] is then enough if it is more than the length. *)
Fixpoint write_chunks (now : Z) (fuel : nat) (body : option (list Z)) (chunkSize pos length : Z) : M tx unit :=
  if chunkSize <? length then
    match fuel with
    | O => undef
    | S fuel =>
      write_slice body pos chunkSize ;;;
      header_writeTo now TYPE_3_RELATIVE_SINGLE_BYTE ;;;
      write_chunks now fuel body chunkSize (pos + chunkSize) (length - chunkSize)
    end
  else write_slice body pos length.

Definition packet_writeTo (now chunkSize : Z) (b : packet_body) : M tx unit :=
  bytes <- lift (packet_bytes b) ;;
  change_header (setPacketLength bytes.2) ;;;
  header_writeTo now TYPE_0_FULL ;;;
  write_chunks now (S (Z.to_nat bytes.2)) bytes.1 chunkSize 0 bytes.2.

(** *** Reading bodies *)

Fixpoint read_variable (fuel : nat) (packetLength bytesAlreadyRead : Z) (data : list AmfData) : M stream (list AmfData) :=
  match fuel with
  | O => undef
  | S fuel =>
    dataItem <- readFrom ;;
    let bytesAlreadyRead := int (bytesAlreadyRead + getSize dataItem) in
    if bytesAlreadyRead <? packetLength then read_variable fuel packetLength bytesAlreadyRead (data ++ [dataItem])
    else ret (data ++ [dataItem])
  end.
(** Each item takes a byte or the decoder throws. *)
Definition readVariableData (packetLength bytesAlreadyRead : Z) : M stream (list AmfData) :=
  fun s => read_variable (S (length (content s))) packetLength bytesAlreadyRead [] s.

Definition UserControl_readBody : M stream packet_body :=
  n <- readUnsignedInt16 ;;
  let type := control_valueOf n in
  if bool_decide (type = Some SET_BUFFER_LENGTH) then
    streamId <- readUnsignedInt32 ;; bufferLength <- readUnsignedInt32 ;;
    ret (UserControl type (Some [streamId; bufferLength]))
  else eventData <- readUnsignedInt32 ;; ret (UserControl type (Some [eventData])).
Definition Command_readBody (packetLength : Z) : M stream packet_body :=
  commandName <- readStringFrom false ;;
  transactionId <- readNumberFrom ;;
  let bytesRead := sizeOf commandName false + 9 in
  data <- readVariableData packetLength bytesRead ;;
  ret (Command commandName (int_of_double transactionId) (Some data)).
Definition Data_readBody (packetLength : Z) : M stream packet_body :=
  type <- readStringFrom false ;;
  data <- readVariableData packetLength (sizeOf type false) ;;
  ret (Data type (Some data)).
Definition ContentData_readBody (packetLength : Z) : M stream (list Z) :=
  n <- new_array packetLength ;; readBytesUntilFull n.
Definition SetPeerBandwidth_readBody : M stream packet_body :=
  n <- readUnsignedInt32 ;; t <- read ;; ret (SetPeerBandwidth n (limit_valueOf t)).

Definition message_name (t : MessageType) : string :=
  match t with
  | SET_CHUNK_SIZE => "SET_CHUNK_SIZE" | ABORT => "ABORT" | ACKNOWLEDGEMENT => "ACKNOWLEDGEMENT"
  | USER_CONTROL_MESSAGE => "USER_CONTROL_MESSAGE" | WINDOW_ACKNOWLEDGEMENT_SIZE => "WINDOW_ACKNOWLEDGEMENT_SIZE"
  | SET_PEER_BANDWIDTH => "SET_PEER_BANDWIDTH" | AUDIO => "AUDIO" | VIDEO => "VIDEO" | DATA_AMF3 => "DATA_AMF3"
  | SHARED_OBJECT_AMF3 => "SHARED_OBJECT_AMF3" | COMMAND_AMF3 => "COMMAND_AMF3" | DATA_AMF0 => "DATA_AMF0"
  | SHARED_OBJECT_AMF0 => "SHARED_OBJECT_AMF0" | COMMAND_AMF0 => "COMMAND_AMF0" | AGGREGATE_MESSAGE => "AGGREGATE_MESSAGE"
  end.

(** The body by the message type, as the switch of [readPacket] has it. *)
Definition readBody (h : RtmpHeader) : M stream packet_body :=
  match messageType h with
  | SET_CHUNK_SIZE => n <- readUnsignedInt32 ;; ret (SetChunkSize n)
  | ABORT => n <- readUnsignedInt32 ;; ret (Abort n)
  | USER_CONTROL_MESSAGE => UserControl_readBody
  | WINDOW_ACKNOWLEDGEMENT_SIZE => n <- readUnsignedInt32 ;; ret (WindowAckSize n)
  | SET_PEER_BANDWIDTH => SetPeerBandwidth_readBody
  | AUDIO => data <- ContentData_readBody (packetLength h) ;; ret (Audio (Some data) 0)
  | VIDEO => data <- ContentData_readBody (packetLength h) ;; ret (Video (Some data) 0)
  | COMMAND_AMF0 => Command_readBody (packetLength h)
  | DATA_AMF0 => Data_readBody (packetLength h)
  | ACKNOWLEDGEMENT => n <- readUnsignedInt32 ;; ret (Acknowledgement n)
  | t => throw (Java (IOException ("No packet body implementation for message type: " +:+ message_name t)))
  end.

(** ** RtmpDecoder *)

(** What is read next: the stream itself, or the stored chunks if they are
    complete. *)
Inductive source := FromStream | FromChunks (bytes : list Z) | Incomplete.

Definition readChunk (now : Z) (header : RtmpHeader) : M rx source :=
  i <- on_info (getChunkStreamInfo now (chunkStreamId header)) ;;
  let i := setPrevHeaderRx header i in
  on_info (store_channel (chunkStreamId header) i) ;;;
  info <- on_info get ;;
  if rxChunkSize info <? packetLength header then
    r <- on_in (storePacketChunk i (rxChunkSize info)) ;;
    if r.2 then
      let '(bytes, i) := getStoredPacketInputStream r.1 in
      on_info (store_channel (chunkStreamId header) i) ;;; ret (FromChunks bytes)
    else on_info (store_channel (chunkStreamId header) r.1) ;;; ret Incomplete
  else ret FromStream.

Definition read_from {A} (src : source) (m : M stream A) : M rx A :=
  match src with
  | FromChunks bytes => lift (m (mkStream InMemory [bytes])).1
  | _ => on_in m
  end.

(** None where the code returns null: for an incomplete message, and for
    SetChunkSize, which it handles itself. *)
Definition readPacket (now : Z) : M rx (option RtmpPacket) :=
  header <- readHeader now ;;
  src <- readChunk now header ;;
  match src with
  | Incomplete => ret None
  | _ =>
    b <- read_from src (readBody header) ;;
    match b with
    | SetChunkSize n => on_info (modify (setRxChunkSize n)) ;;; ret None
    | _ => ret (Some (mkPacket header b))
    end
  end.
