(* ===== verification/RtmpPacketSpec.v ===== *)
(** * Properties of RTMP packets and of the decoder

    Bodies are read as they were written.  The chunks of messages, in any
    order between chunk streams, are put together by the decoder, and a packet
    is written as such chunks.  The decoder returns or throws on every
    stream. *)

From stdpp Require Import base list gmap sets strings.
From Stdlib Require Import ZArith Lia.
From S2P Require Import Prelude Java RtmpUtil Amf AmfSpec RtmpPacket.
Open Scope Z_scope.

(** ** Bodies *)

Definition body_type (b : packet_body) : MessageType :=
  match b with
  | SetChunkSize _ => SET_CHUNK_SIZE | Abort _ => ABORT | Acknowledgement _ => ACKNOWLEDGEMENT
  | UserControl _ _ => USER_CONTROL_MESSAGE | WindowAckSize _ => WINDOW_ACKNOWLEDGEMENT_SIZE
  | SetPeerBandwidth _ _ => SET_PEER_BANDWIDTH | Audio _ _ => AUDIO | Video _ _ => VIDEO
  | Command _ _ _ => COMMAND_AMF0 | Data _ _ => DATA_AMF0
  end.

(** The items that are written; null is written if there are none yet. *)
Definition items (data : option (list AmfData)) : list AmfData := default [AmfNull] data.

Definition writable_body (b : packet_body) : Prop :=
  match b with
  | SetChunkSize n | Abort n | Acknowledgement n | WindowAckSize n => is_int n
  | UserControl (Some t) (Some [v]) => t <> SET_BUFFER_LENGTH /\ is_int v
  | UserControl (Some t) (Some [v; w]) => t = SET_BUFFER_LENGTH /\ is_int v /\ is_int w
  | UserControl _ _ => False
  | SetPeerBandwidth n t => is_int n /\ is_Some t
  | Audio (Some l) n | Video (Some l) n => 0 <= n <= Z.of_nat (length l)
  | Audio None _ | Video None _ => False
  | Command name id data =>
    ascii_string name /\ - 2 ^ 21 < id < 2 ^ 21 /\ items data <> [] /\ Forall writable (items data)
  | Data type data => ascii_string type /\ items data <> [] /\ Forall writable (items data)
  end.

(** The size of content is not set when it is read. *)
Definition received_body (b : packet_body) : packet_body :=
  match b with
  | Audio (Some l) n => Audio (Some (take (Z.to_nat n) l)) 0
  | Video (Some l) n => Video (Some (take (Z.to_nat n) l)) 0
  | Command name id data => Command name id (Some (map received (items data)))
  | Data type data => Data type (Some (map received (items data)))
  | _ => b
  end.

(** Objects need a stream in one segment, and what ends in an empty string or
    is empty must not be at the end of stored chunks. *)
Definition body_whole (b : packet_body) : Prop :=
  match b with Command _ _ data | Data _ data => Exists composite (items data) | _ => False end.
Definition body_end (b : packet_body) : Prop :=
  match b with
  | Command _ _ data | Data _ data => from_option empty_string False (last (items data))
  | Audio (Some l) n | Video (Some l) n => n = 0
  | _ => False
  end.

(** *** Variable data *)

Definition write_items (l : list AmfData) : outcome (list Z) :=
  foldr (fun d r => let! b := writeTo d in let! bs := r in Ok (b ++ bs)) (Ok []) l.
Lemma writeVariableData_items data : writeVariableData data = write_items (items data).
Proof. by destruct data. Qed.

Lemma reads_items l : Forall writable l -> l <> [] ->
  exists bs, write_items l = Ok bs /\ bs <> [] /\ (length l <= length bs)%nat /\ forall (W : Prop) fuel start acc n,
    (Exists composite l -> W) -> 0 <= start -> start + Z.of_nat (length bs) = n -> n < 2 ^ 31 -> (length l <= fuel)%nat ->
    reads W (from_option empty_string False (last l)) (read_variable fuel n start acc) bs (acc ++ map received l).
Proof.
  induction l as [|d l IH]; [done|]. intros Hw _. apply Forall_cons in Hw as [Hd Hl].
  destruct (reads_readFrom d Hd) as (b & Eb & Hne & Hsz & Hr). cbn [write_items foldr]. rewrite Eb. cbn [obind].
  assert (1 <= length b)%nat by (destruct b; [done|cbn; lia]).
  destruct l as [|d' l].
  - exists b. cbn [foldr obind]. rewrite app_nil_r. split_and!; [done|done|cbn; lia|]. intros W [|fuel] start acc n HW Hs Hn Hb Hf; [cbn in Hf; lia|].
    cbn [read_variable last from_option]. rewrite <- (app_nil_r b). eapply reads_bind; [|done|].
    { eapply reads_weaken; [| |exact Hr]; [intros; apply HW; by left|done]. }
    cbv beta zeta. rewrite Hsz, int_id by (unfold is_int; lia). rewrite (proj2 (Z.ltb_ge _ _)) by lia. apply reads_ret.
  - destruct (IH Hl ltac:(done)) as (bs & Ebs & Hnb & Hlen & Hrs). unfold write_items in Ebs. rewrite Ebs. cbn [obind]. exists (b ++ bs).
    split_and!; [done|by destruct b|rewrite length_app; cbn in *; lia|].
    intros W [|fuel] start acc n HW Hs Hn Hb Hf; [cbn in Hf; lia|]. rewrite length_app in Hn. cbn [read_variable].
    rewrite last_cons_cons. eapply (reads_bind _ _ (empty_string d)); [|done|].
    { eapply reads_weaken; [| |exact Hr]; [intros; apply HW; by left|done]. }
    assert (1 <= length bs)%nat by (destruct bs; [done|cbn; lia]).
    cbv beta zeta. rewrite Hsz, int_id by (unfold is_int; lia). rewrite (proj2 (Z.ltb_lt _ _)) by lia.
    replace (acc ++ map received (d :: d' :: l)) with ((acc ++ [received d]) ++ map received (d' :: l)) by by rewrite <- app_assoc.
    apply Hrs; [intros; apply HW; by right|lia|lia|done|cbn in *; lia].
Qed.

Lemma reads_variable data : Forall writable (items data) -> items data <> [] ->
  exists bs, writeVariableData data = Ok bs /\ bs <> [] /\ forall start n,
    0 <= start -> start + Z.of_nat (length bs) = n -> n < 2 ^ 31 ->
    reads (Exists composite (items data)) (from_option empty_string False (last (items data))) (readVariableData n start) bs
      (map received (items data)).
Proof.
  intros Hw Hne. destruct (reads_items _ Hw Hne) as (bs & Ebs & Hnb & Hlen & Hr). exists bs. rewrite writeVariableData_items.
  split_and!; [done|done|]. intros start n Hs Hn Hb s rest Hc Hwh He. unfold readVariableData.
  assert (length (items data) <= S (length (content s)))%nat as Hf by (rewrite Hc, length_app; lia).
  exact (Hr (Exists composite (items data)) _ start [] n ltac:(done) Hs Hn Hb Hf s rest Hc Hwh He).
Qed.

(** *** All bodies *)

Lemma double_read_small n : - 2 ^ 21 < n < 2 ^ 21 -> int_of_double (double_read (double_of_int n)) = n.
Proof. intros Hn. unfold double_read. rewrite double_of_int_small by done. apply int_of_double_of_int. unfold is_int. lia. Qed.

Lemma length_writeString s : ascii_string s -> Z.of_nat (length (writeStringTo s false)) = sizeOf s false.
Proof.
  intros Hs. rewrite writeString_value by done. pose proof (length_string_bytes s Hs). unfold sizeOf in *. cbn [length]. lia.
Qed.

Lemma reads_int_body {A} W E (f : Z -> A) n : is_int n ->
  reads W E (n <- readUnsignedInt32 ;; ret (f n)) (writeUnsignedInt32 n) (f n).
Proof. intros Hn. rewrite <- (int_id n Hn) at 2. apply reads_then_ret, reads_int32. Qed.

Lemma control_value_inv t : control_valueOf (wrap_u 16 (control_value t)) = Some t.
Proof. by destruct t. Qed.

Lemma reads_command W name id data : writable_body (Command name id data) -> exists bs, writeBody (Command name id data) = Ok bs /\
  forall h, messageType h = COMMAND_AMF0 -> packetLength h = Z.of_nat (length bs) -> packetLength h < 2 ^ 31 ->
    (Exists composite (items data) -> W) ->
    reads W (from_option empty_string False (last (items data))) (readBody h) bs (received_body (Command name id data)).
Proof.
  intros (Hname & Hid & Hne & Hw). destruct (reads_variable data Hw Hne) as (bs & Ebs & Hnb & Hr).
  cbn [writeBody]. unfold Command_writeBody. rewrite Ebs. eexists. split; [done|]. intros h Ht Hn Hlt HW. unfold readBody. rewrite Ht. unfold Command_readBody.
  eapply reads_bind; [by apply reads_string_from|done|]. cbv beta.
  eapply (reads_bind _ _ False _ _ _ _ (double_read (double_of_int id))); [|done|].
  { unfold readNumberFrom, writeNumberTo. apply reads_type. apply reads_double, double_of_int_range. unfold is_int. lia. }
  cbv beta zeta. cbn [received_body]. rewrite <- (double_read_small id Hid) at 1. rewrite <- (app_nil_r bs). eapply reads_bind; [|done|apply reads_ret].
  eapply reads_weaken; [exact HW|intros E; exact E|].
  rewrite !length_app in Hn. assert (length (writeNumberTo (double_of_int id)) = 9%nat) as Hl9 by done.
  pose proof (length_writeString name Hname) as Hls. apply Hr; [|lia|done]. unfold sizeOf. lia.
Qed.

Lemma reads_data W type data : writable_body (Data type data) -> exists bs, writeBody (Data type data) = Ok bs /\
  forall h, messageType h = DATA_AMF0 -> packetLength h = Z.of_nat (length bs) -> packetLength h < 2 ^ 31 ->
    (Exists composite (items data) -> W) ->
    reads W (from_option empty_string False (last (items data))) (readBody h) bs (received_body (Data type data)).
Proof.
  intros (Hname & Hne & Hw). destruct (reads_variable data Hw Hne) as (bs & Ebs & Hnb & Hr).
  cbn [writeBody]. unfold Data_writeBody. rewrite Ebs. eexists. split; [done|]. intros h Ht Hn Hlt HW. unfold readBody. rewrite Ht. unfold Data_readBody.
  eapply reads_bind; [by apply reads_string_from|done|]. cbv beta.
  rewrite <- (app_nil_r bs). eapply reads_bind; [|done|apply reads_ret].
  eapply reads_weaken; [exact HW|intros E; exact E|].
  rewrite !length_app in Hn. pose proof (length_writeString type Hname) as Hls. apply Hr; [|lia|done]. unfold sizeOf. lia.
Qed.

(** The bytes that go into the chunks. *)
Definition payload (b : packet_body) : list Z :=
  match packet_bytes b with Ok (Some l, n) => take (Z.to_nat n) l | _ => [] end.

Lemma payload_bytes b bs : packet_bytes b = Ok (Some bs, Z.of_nat (length bs)) -> payload b = bs.
Proof. intros E. unfold payload. by rewrite E, Nat2Z.id, take_ge. Qed.

Lemma packet_bytes_payload b : writable_body b -> exists l, packet_bytes b = Ok (Some l, Z.of_nat (length (payload b))) /\
  payload b = take (length (payload b)) l.
Proof.
  assert (forall bs, packet_bytes b = Ok (Some bs, Z.of_nat (length bs)) ->
    exists l, packet_bytes b = Ok (Some l, Z.of_nat (length (payload b))) /\ payload b = take (length (payload b)) l) as Hwhole.
  { intros bs E. rewrite (payload_bytes _ _ E). exists bs. by rewrite take_ge. }
  assert (forall l n, 0 <= n <= Z.of_nat (length l) -> packet_bytes b = Ok (Some l, n) ->
    exists l, packet_bytes b = Ok (Some l, Z.of_nat (length (payload b))) /\ payload b = take (length (payload b)) l) as Hpart.
  { intros l n Hn E. exists l. unfold payload. rewrite E, length_take. rewrite Nat.min_l by lia. by rewrite Z2Nat.id by lia. }
  destruct b as [n|n|n|[t|] [[|v [|w [|]]]|]|n|n t|[l|] n|[l|] n|name id data|type data]; intros Hw; try done;
    try by eapply Hwhole.
  - destruct Hw as [Ht _]. eapply Hwhole. unfold packet_bytes. cbn. by rewrite bool_decide_false.
  - destruct Hw as [-> _]. by eapply Hwhole.
  - destruct Hw as [_ [t' ->]]. by eapply Hwhole.
  - by eapply Hpart.
  - by eapply Hpart.
  - destruct (reads_command True name id data Hw) as (bs & E & _). eapply Hwhole. unfold packet_bytes. by rewrite E.
  - destruct (reads_data True type data Hw) as (bs & E & _). eapply Hwhole. unfold packet_bytes. by rewrite E.
Qed.

Lemma reads_content W E {A} (f : list Z -> A) bs : (bs = [] -> E) ->
  reads W E (data <- ContentData_readBody (Z.of_nat (length bs)) ;; ret (f data)) bs (f bs).
Proof.
  intros HE. apply reads_then_ret. unfold ContentData_readBody, new_array. rewrite (proj2 (Z.ltb_ge _ _)) by lia.
  rewrite Nat2Z.id. eapply reads_weaken; [| |apply (reads_full W bs)]; auto.
Qed.
Lemma reads_content_body W (mk : option (list Z) -> Z -> packet_body) l n : 0 <= n <= Z.of_nat (length l) ->
  payload (mk (Some l) n) = take (Z.to_nat n) l ->
  reads W (n = 0) (data <- ContentData_readBody (Z.of_nat (length (payload (mk (Some l) n)))) ;; ret (mk (Some data) 0))
    (payload (mk (Some l) n)) (mk (Some (take (Z.to_nat n) l)) 0).
Proof.
  intros Hn ->. apply (reads_content _ _ (fun data => mk (Some data) 0)). intros E.
  apply (f_equal length) in E. rewrite length_take in E. cbn in E. lia.
Qed.

Lemma reads_body (W : Prop) h b : writable_body b -> messageType h = body_type b -> packetLength h = Z.of_nat (length (payload b)) ->
  packetLength h < 2 ^ 31 -> (body_whole b -> W) -> reads W (body_end b) (readBody h) (payload b) (received_body b).
Proof.
  intros Hw Ht Hn Hlt HW.
  destruct b as [n|n|n|[t|] [[|v [|w [|]]]|]|n|n t|[l|] n|[l|] n|name id data|type data]; try done; unfold readBody; rewrite Ht; cbn [body_type];
    cbn [received_body]; try (erewrite payload_bytes by done; by apply reads_int_body).
  - destruct Hw as [Hne Hv]. 
    assert (payload (UserControl (Some t) (Some [v])) = writeUnsignedInt16 (control_value t) ++ writeUnsignedInt32 v) as ->.
    { apply payload_bytes. unfold packet_bytes. cbn [writeBody]. unfold UserControl_writeBody. cbn [lookup list_lookup].
      by rewrite bool_decide_false. }
    unfold UserControl_readBody. eapply (reads_bind _ _ False); [apply reads_int16|done|]. cbv beta zeta.
    rewrite control_value_inv, bool_decide_false by congruence. by apply (reads_int_body _ _ (fun n => UserControl (Some t) (Some [n]))).
  - destruct Hw as (-> & Hv & Hw). erewrite payload_bytes by done. change (writeUnsignedInt16 _ ++ writeUnsignedInt32 v)
      with (writeUnsignedInt16 3 ++ writeUnsignedInt32 v). rewrite <- app_assoc.
    unfold UserControl_readBody. eapply (reads_bind _ _ False); [apply reads_int16|done|]. cbv beta zeta. cbn [bool_decide].
    eapply (reads_bind _ _ False); [apply reads_int32|done|]. cbv beta. rewrite int_id by done.
    by apply (reads_int_body _ _ (fun w => UserControl (Some SET_BUFFER_LENGTH) (Some [v; w]))).
  - destruct Hw as [Hv [t' ->]]. erewrite payload_bytes by done. unfold SetPeerBandwidth_readBody.
    eapply (reads_bind _ _ False); [apply reads_int32|done|]. cbv beta. rewrite int_id by done.
    replace (SetPeerBandwidth n (Some t')) with (SetPeerBandwidth n (limit_valueOf (limit_value t'))) by by destruct t'.
    apply (reads_then_ret _ _ read (fun t => SetPeerBandwidth n (limit_valueOf t))), reads_read.
  - rewrite Hn. by apply (reads_content_body W Audio).
  - rewrite Hn. by apply (reads_content_body W Video).
  - destruct (reads_command W name id data Hw) as (bs & E & Hr).
    assert (payload (Command name id data) = bs) as Hp by (apply payload_bytes; unfold packet_bytes; by rewrite E).
    rewrite Hp in *. specialize (Hr h Ht Hn Hlt HW). unfold readBody in Hr. by rewrite Ht in Hr.
  - destruct (reads_data W type data Hw) as (bs & E & Hr).
    assert (payload (Data type data) = bs) as Hp by (apply payload_bytes; unfold packet_bytes; by rewrite E).
    rewrite Hp in *. specialize (Hr h Ht Hn Hlt HW). unfold readBody in Hr. by rewrite Ht in Hr.
Qed.

(** ** Reading with the session

    [rx_reads W m bs i a i']: from the session [i], on every socket that goes
    on with [bs], [m] takes these bytes, returns [a] and leaves the session
    [i'].  If [W], the stream must be one segment. *)

Definition rx_reads (W : Prop) {A} (m : M rx A) (bs : list Z) (i : RtmpSessionInfo) (a : A) (i' : RtmpSessionInfo) : Prop :=
  forall s rest, content s = bs ++ rest -> s_kind s = Buffered -> (W -> whole s) ->
  exists s', m (mkRx s i) = (Ok a, mkRx s' i') /\ content s' = rest /\ s_kind s' = Buffered /\ (whole s -> whole s').

Lemma rx_ret W {A} (a : A) i : rx_reads W (ret a) [] i a i.
Proof. intros s rest Hs Hk _. by exists s. Qed.
Lemma rx_bind W {A B} (m : M rx A) (k : A -> M rx B) bs bs' i1 i2 i3 a b :
  rx_reads W m bs i1 a i2 -> rx_reads W (k a) bs' i2 b i3 -> rx_reads W (bind m k) (bs ++ bs') i1 b i3.
Proof.
  intros Hm Hk s rest Hs Hb Hw. rewrite <- app_assoc in Hs. destruct (Hm _ _ Hs Hb Hw) as (s1 & E1 & Hs1 & Hb1 & Hw1).
  destruct (Hk _ _ Hs1 Hb1) as (s2 & E2 & Hs2 & Hb2 & Hw2); [auto|]. exists s2. rewrite (bind_ok _ _ _ _ _ E1). split_and!; [exact E2|done|done|auto].
Qed.
Lemma rx_on_in (W E : Prop) {A} (m : M stream A) bs i a : reads W E m bs a -> rx_reads W (on_in m) bs i a i.
Proof.
  intros Hm s rest Hs Hk Hw. destruct (Hm s rest Hs Hw) as (s' & E1 & Hs' & Hk' & Hw'); [by left|]. exists s'.
  unfold on_in, zoom. cbn. rewrite E1. split_and!; [done|done|congruence|done].
Qed.
Lemma rx_on_info W {A} (m : M RtmpSessionInfo A) i a i' : m i = (Ok a, i') -> rx_reads W (on_info m) [] i a i'.
Proof. intros Hm s rest Hs Hk _. exists s. unfold on_info, zoom. cbn. by rewrite Hm. Qed.

(** A step that reads nothing comes before the bytes of the others. *)
Lemma rx_bind_info W {A B} (m : M RtmpSessionInfo A) (k : A -> M rx B) bs i1 i2 i3 a b :
  m i1 = (Ok a, i2) -> rx_reads W (k a) bs i2 b i3 -> rx_reads W (bind (on_info m) k) bs i1 b i3.
Proof. intros Hm Hk. change bs with ([] ++ bs). eapply rx_bind; [by apply rx_on_info|done]. Qed.
Lemma rx_bind_in (W E : Prop) {A B} (m : M stream A) (k : A -> M rx B) bs bs' i1 i2 a b :
  reads W E m bs a -> rx_reads W (k a) bs' i1 b i2 -> rx_reads W (bind (on_in m) k) (bs ++ bs') i1 b i2.
Proof. intros Hm Hk. eapply rx_bind; [by eapply rx_on_in|done]. Qed.
Lemma rx_bind_pure W {A B} (m : M rx A) (k : A -> M rx B) bs i i' a b :
  (forall s, m s = (Ok a, s)) -> rx_reads W (k a) bs i b i' -> rx_reads W (bind m k) bs i b i'.
Proof. intros Hm Hk s rest Hs Hb Hw. rewrite (bind_ok _ _ _ _ _ (Hm _)). by apply Hk. Qed.

(** *** Headers *)

Lemma basic_header t id : 0 <= id < 64 -> parseBasicHeader (chunk_value t * 64 + id) = Ok (t, id).
Proof.
  intros Hid. assert (0 <= chunk_value t * 64 + id < 2 ^ 8) as Hb by (destruct t; cbn; lia). unfold parseBasicHeader.
  rewrite Z.land_comm, land_byte by done. unfold ushr, wrap_u. rewrite Z.mod_small, Z.shiftr_div_pow2 by lia.
  change 63 with (Z.ones 6). rewrite Z.land_ones by lia.
  replace ((chunk_value t * 64 + id) / 2 ^ 6) with (chunk_value t) by (Z.to_euclidean_division_equations; lia).
  replace ((chunk_value t * 64 + id) mod 2 ^ 6) with id by (Z.to_euclidean_division_equations; lia).
  by destruct t.
Qed.
Lemma written_basic_header t id : 0 <= id < 64 ->
  low_byte (Z.lor (wrap_s 8 (Z.shiftl (chunk_value t) 6)) id) = chunk_value t * 64 + id.
Proof.
  intros Hid. assert (exists k, wrap_s 8 (Z.shiftl (chunk_value t) 6) = Z.shiftl k 6 /\ -2 <= k < 2 /\ (k * 64) mod 256 = chunk_value t * 64)
    as (k & -> & Hk & Hm) by (destruct t; [by exists 0|by exists 1|by exists (-2)|by exists (-1)]).
  rewrite lor_shiftl by lia. unfold low_byte, wrap_u. Z.to_euclidean_division_equations. lia.
Qed.

Definition clamp (timestamp : Z) : Z := if 16777215 <=? timestamp then 16777215 else timestamp.
Definition full_header (h : RtmpHeader) : list Z :=
  [chunkStreamId h] ++ writeUnsignedInt24 (clamp (absoluteTimestamp h)) ++ writeUnsignedInt24 (packetLength h) ++
  [message_value (messageType h)] ++ writeUnsignedInt32LittleEndian (messageStreamId h) ++
  (if 16777215 <=? absoluteTimestamp h then writeUnsignedInt32 (absoluteTimestamp h) else []).
Definition next_header (id : Z) : list Z := [192 + id].

Record sendable_header (h : RtmpHeader) : Prop := {
  sendable_id : 0 <= chunkStreamId h < 64;
  sendable_timestamp : 0 <= absoluteTimestamp h < 2 ^ 31;
  sendable_length : 0 <= packetLength h < 2 ^ 24;
  sendable_stream : is_int (messageStreamId h) }.

(** The header as it is read, of the first chunk and of the others. *)
Definition first_header (h : RtmpHeader) : RtmpHeader :=
  mkHeader TYPE_0_FULL (chunkStreamId h) (absoluteTimestamp h) 0 (packetLength h) (messageType h) (messageStreamId h)
    (if 16777215 <=? absoluteTimestamp h then absoluteTimestamp h else 0).
Definition later_header (h : RtmpHeader) : RtmpHeader :=
  mkHeader TYPE_3_RELATIVE_SINGLE_BYTE (chunkStreamId h) (absoluteTimestamp h) 0 (packetLength h) (messageType h) (messageStreamId h) 0.

Lemma reads_message_type W E t : reads W E readMessageType [message_value t] t.
Proof.
  intros s rest Hs Hw He. destruct (reads_read W E (message_value t) s rest Hs Hw He) as (s' & E1 & Hs'). exists s'.
  unfold readMessageType. rewrite (bind_ok _ _ _ _ _ E1). split; [by destruct t|done].
Qed.
Lemma reads_extended W E v : 0 <= v < 2 ^ 31 -> reads W E (readExtendedTimestamp (clamp v))
  (if 16777215 <=? v then writeUnsignedInt32 v else []) (if 16777215 <=? v then v else 0).
Proof.
  intros Hv. unfold readExtendedTimestamp, clamp. destruct (Z.leb_spec 16777215 v).
  - rewrite Z.leb_refl. rewrite <- (int_id v) at 2 by (unfold is_int; lia). apply reads_int32.
  - rewrite (proj2 (Z.leb_gt _ _)) by done. apply reads_ret.
Qed.
Lemma wrap_clamp v : 0 <= v -> wrap_u 24 (clamp v) = clamp v.
Proof. intros Hv. apply wrap_u_small. unfold clamp. destruct (Z.leb_spec 16777215 v); lia. Qed.

Lemma rx_full_header W now h i : sendable_header h -> rx_reads W (readHeader now) (full_header h) i (first_header h) i.
Proof.
  intros [Hid Hts Hlen Hst]. unfold readHeader, full_header.
  eapply rx_bind_in; [apply (reads_read _ False)|].
  eapply rx_bind_pure; [intros s; unfold throw_if; by rewrite (proj2 (Z.eqb_neq _ _)) by lia|].
  eapply (rx_bind_pure _ _ _ _ _ _ (TYPE_0_FULL, chunkStreamId h)).
  { intros s. unfold lift. by rewrite <- (basic_header TYPE_0_FULL) by done. }
  cbv zeta beta. cbn [fst snd].
  eapply rx_bind_in; [apply (reads_int24 _ False)|]. rewrite wrap_clamp by lia.
  eapply rx_bind_in; [apply (reads_int24 _ False)|]. rewrite (wrap_u_small 24) by lia.
  eapply rx_bind_in; [apply (reads_message_type _ False)|].
  eapply rx_bind_in; [apply (reads_full W (writeUnsignedInt32LittleEndian (messageStreamId h)))|].
  eapply rx_bind_pure; [intros s; unfold lift; by rewrite little_endian_id, int_id by done|].
  rewrite <- (app_nil_r (if _ <=? _ then _ else _)). eapply rx_bind_in; [by apply (reads_extended _ False)|].
  cbv beta. replace (if (if 16777215 <=? absoluteTimestamp h then absoluteTimestamp h else 0) =? 0 then clamp (absoluteTimestamp h)
    else if 16777215 <=? absoluteTimestamp h then absoluteTimestamp h else 0) with (absoluteTimestamp h); [apply rx_ret|].
  unfold clamp. destruct (Z.leb_spec 16777215 (absoluteTimestamp h)); [|done]. by rewrite (proj2 (Z.eqb_neq _ _)) by lia.
Qed.

Lemma getChunkStreamInfo_some now id c i : chunkChannels i !! id = Some c -> getChunkStreamInfo now id i = (Ok c, i).
Proof. intros Hc. unfold getChunkStreamInfo. rewrite (bind_ok get _ _ _ _ eq_refl). by rewrite Hc. Qed.

Lemma rx_next_header W now i c p : let id := chunkStreamId p in
  chunkChannels i !! id = Some c -> prevHeaderRx c = Some p -> timestampDelta p = 0 -> is_int (absoluteTimestamp p) -> 0 <= id < 64 ->
  rx_reads W (readHeader now) (next_header id) i (later_header p) i.
Proof.
  intros id Hc Hp Hd Hts Hid. unfold readHeader, next_header. change [192 + id] with ([192 + id] ++ []).
  eapply rx_bind_in; [apply (reads_read _ False)|].
  eapply rx_bind_pure; [intros s; unfold throw_if; by rewrite (proj2 (Z.eqb_neq _ _)) by lia|].
  eapply (rx_bind_pure _ _ _ _ _ _ (TYPE_3_RELATIVE_SINGLE_BYTE, id)).
  { intros s. unfold lift. by rewrite <- (basic_header TYPE_3_RELATIVE_SINGLE_BYTE) by done. }
  cbv zeta beta. cbn [fst snd]. change (@nil Z) with (@nil Z ++ []). eapply rx_bind.
  { unfold previous. eapply rx_bind_info; [by apply getChunkStreamInfo_some|]. apply rx_ret. }
  rewrite Hp. eapply rx_bind_pure; [intros s; reflexivity|]. cbv beta. rewrite Hd.
  eapply rx_bind_pure; [intros [s0 i0]; reflexivity|]. cbv beta. cbn. rewrite Z.add_0_r, int_id by done. apply rx_ret.
Qed.

(** ** Chunks

    What a peer may send: the chunks of each message in order, those of
    different chunk streams in any order.  The state is the chunk size and,
    for each chunk stream, the message of which chunks are missing and how much
    of it was sent. *)

Record sender := mkSender { chunk_size : Z; pending : gmap Z (RtmpPacket * nat) }.

Definition body_length (p : RtmpPacket) : Z := Z.of_nat (length (payload (body p))).
Definition stream_of (p : RtmpPacket) : Z := chunkStreamId (packet_header p).

Record sendable (p : RtmpPacket) : Prop := {
  sendable_body : writable_body (body p);
  sendable_type : messageType (packet_header p) = body_type (body p);
  sendable_head : sendable_header (packet_header p);
  sendable_bytes : packetLength (packet_header p) = body_length p }.

(** What may be sent in more than one chunk. *)
Record divisible (p : RtmpPacket) : Prop := {
  divisible_timestamp : absoluteTimestamp (packet_header p) < 16777215;
  divisible_end : ~ body_end (body p) }.

(** A new chunk size must not turn a message that was begun into one of a
    single chunk. *)
Definition size_allowed (b : packet_body) (pend : gmap Z (RtmpPacket * nat)) : Prop :=
  match b with
  | SetChunkSize n => 0 < n /\ map_Forall (fun _ q => n < body_length q.1) pend
  | _ => True
  end.
Definition next_size (b : packet_body) (n : Z) : Z := match b with SetChunkSize n' => n' | _ => n end.
Definition delivered (h : RtmpHeader) (b : packet_body) : option RtmpPacket :=
  match b with SetChunkSize _ => None | _ => Some (mkPacket h (received_body b)) end.

Inductive chunk_sent (W : Prop) : sender -> list Z -> sender -> option RtmpPacket -> Prop :=
| sent_single n pend p :
    sendable p -> pend !! stream_of p = None -> body_length p <= n -> (body_whole (body p) -> W) -> size_allowed (body p) pend ->
    chunk_sent W (mkSender n pend) (full_header (packet_header p) ++ payload (body p)) (mkSender (next_size (body p) n) pend)
      (delivered (first_header (packet_header p)) (body p))
| sent_first n pend p :
    sendable p -> divisible p -> pend !! stream_of p = None -> n < body_length p ->
    chunk_sent W (mkSender n pend) (full_header (packet_header p) ++ take (Z.to_nat n) (payload (body p)))
      (mkSender n (<[stream_of p := (p, Z.to_nat n)]> pend)) None
| sent_next n pend p k id :
    pend !! id = Some (p, k) -> Z.of_nat k + n < body_length p ->
    chunk_sent W (mkSender n pend) (next_header id ++ take (Z.to_nat n) (drop k (payload (body p))))
      (mkSender n (<[id := (p, (k + Z.to_nat n)%nat)]> pend)) None
| sent_last n pend p k id :
    pend !! id = Some (p, k) -> body_length p <= Z.of_nat k + n -> size_allowed (body p) (delete id pend) ->
    chunk_sent W (mkSender n pend) (next_header id ++ drop k (payload (body p)))
      (mkSender (next_size (body p) n) (delete id pend)) (delivered (later_header (packet_header p)) (body p)).

Inductive chunks_sent (W : Prop) : sender -> list (list Z) -> sender -> list (option RtmpPacket) -> Prop :=
| chunks_none a : chunks_sent W a [] a []
| chunks_more a bs a1 o l a2 r : chunk_sent W a bs a1 o -> chunks_sent W a1 l a2 r -> chunks_sent W a (bs :: l) a2 (o :: r).

Lemma chunks_sent_length W a l a' r : chunks_sent W a l a' r -> length r = length l.
Proof. induction 1; cbn; congruence. Qed.

(** The channel of a message that is not complete, and the session of the
    receiver. *)
Record partial (p : RtmpPacket) (k : nat) (c : ChunkStreamInfo) : Prop := {
  partial_header : exists h, prevHeaderRx c = Some h /\ later_header h = later_header (packet_header p) /\ timestampDelta h = 0;
  partial_stored : baos c = take k (payload (body p)) }.
Record receiving (a : sender) (i : RtmpSessionInfo) : Prop := {
  receiving_size : rxChunkSize i = chunk_size a;
  receiving_positive : 0 < chunk_size a;
  receiving_partial : forall id p k, pending a !! id = Some (p, k) ->
    sendable p /\ divisible p /\ id = stream_of p /\ 0 < Z.of_nat k < body_length p /\ chunk_size a < body_length p /\
    exists c, chunkChannels i !! id = Some c /\ partial p k c;
  receiving_empty : forall id c, pending a !! id = None -> chunkChannels i !! id = Some c -> baos c = [] }.

(** *** The decoder on a chunk *)

Definition channel (now : Z) (i : RtmpSessionInfo) (id : Z) : ChunkStreamInfo := default (newChunkStreamInfo now) (chunkChannels i !! id).
Definition stored (id : Z) (c : ChunkStreamInfo) (i : RtmpSessionInfo) : RtmpSessionInfo := with_channels (<[id := c]> (chunkChannels i)) i.

Lemma stored_stored id c c' i : stored id c (stored id c' i) = stored id c i.
Proof. unfold stored, with_channels. cbn. by rewrite insert_insert_eq. Qed.
Lemma store_run id c i : store_channel id c i = (Ok tt, stored id c i).
Proof. done. Qed.
Lemma getChunkStreamInfo_stored now id i : exists i', getChunkStreamInfo now id i = (Ok (channel now i id), i') /\
  forall c, stored id c i' = stored id c i.
Proof.
  unfold channel, getChunkStreamInfo. rewrite (bind_ok get _ _ _ _ eq_refl). destruct (chunkChannels i !! id) as [c|] eqn:E; cbn.
  - by exists i.
  - eexists. split; [done|]. intros c. apply stored_stored.
Qed.

Definition chunk_channel (now : Z) (h : RtmpHeader) (i : RtmpSessionInfo) : ChunkStreamInfo :=
  setPrevHeaderRx h (channel now i (chunkStreamId h)).

Lemma rx_chunk_stream W now h i : packetLength h <= rxChunkSize i ->
  rx_reads W (readChunk now h) [] i FromStream (stored (chunkStreamId h) (chunk_channel now h i) i).
Proof.
  intros Hn. destruct (getChunkStreamInfo_stored now (chunkStreamId h) i) as (i' & E & Hi'). unfold readChunk.
  eapply rx_bind_info; [exact E|]. cbv zeta. eapply rx_bind_info; [apply store_run|]. rewrite Hi'.
  eapply rx_bind_info; [done|]. change (rxChunkSize (stored _ _ _)) with (rxChunkSize i). rewrite (proj2 (Z.ltb_ge _ _)) by lia. apply rx_ret.
Qed.

Lemma reads_store W h c n bs : prevHeaderRx c = Some h -> baos_size c < packetLength h < 2 ^ 31 -> 0 < n ->
  Z.of_nat (length bs) = Z.min (packetLength h - baos_size c) n ->
  reads W False (storePacketChunk c n) bs (with_baos (baos c ++ bs) c, baos_size c + Z.of_nat (length bs) =? packetLength h).
Proof.
  intros Hh Hlt Hn Hbs. unfold storePacketChunk. rewrite Hh. cbv zeta. rewrite int_id by (unfold is_int, baos_size in *; lia).
  rewrite <- Hbs. unfold new_array. rewrite (proj2 (Z.ltb_ge _ _)) by lia. change bs with ([] ++ bs) at 2.
  eapply (reads_bind _ _ False); [apply reads_ret|done|]. cbv beta. rewrite Nat2Z.id. rewrite <- (app_nil_r bs) at 2.
  eapply reads_bind; [apply reads_full|intros _ ->; cbn in Hbs; lia|]. cbv beta.
  replace (baos_size c + Z.of_nat (length bs)) with (baos_size (with_baos (baos c ++ bs) c)); [apply reads_ret|].
  unfold baos_size. cbn. rewrite length_app. lia.
Qed.

(** A chunk of a longer message is stored; the last one gives them all. *)
Lemma rx_chunk_stored W now h i bs : let c := chunk_channel now h i in
  rxChunkSize i < packetLength h < 2 ^ 31 -> baos_size c < packetLength h -> 0 < rxChunkSize i ->
  Z.of_nat (length bs) = Z.min (packetLength h - baos_size c) (rxChunkSize i) ->
  if baos_size c + Z.of_nat (length bs) =? packetLength h
  then rx_reads W (readChunk now h) bs i (FromChunks (baos c ++ bs)) (stored (chunkStreamId h) (with_baos [] c) i)
  else rx_reads W (readChunk now h) bs i Incomplete (stored (chunkStreamId h) (with_baos (baos c ++ bs) c) i).
Proof.
  intros c Hlt Hc Hn Hbs. destruct (getChunkStreamInfo_stored now (chunkStreamId h) i) as (i' & E & Hi').
  pose proof (reads_store W h c (rxChunkSize i) bs eq_refl ltac:(lia) Hn Hbs) as Hr.
  destruct (baos_size c + Z.of_nat (length bs) =? packetLength h); unfold readChunk;
    (eapply rx_bind_info; [exact E|]; cbv zeta; eapply rx_bind_info; [apply store_run|]; rewrite Hi';
     eapply rx_bind_info; [done|];
     change (rxChunkSize (stored _ _ _)) with (rxChunkSize i); rewrite (proj2 (Z.ltb_lt _ _)) by lia;
     rewrite <- (app_nil_r bs); eapply rx_bind_in; [exact Hr|]; rewrite app_nil_r; cbn [fst snd];
     eapply rx_bind_info; [apply store_run|];
     rewrite stored_stored; apply rx_ret).
Qed.

(** *** The simulation *)

Definition sized (b : packet_body) (i : RtmpSessionInfo) : RtmpSessionInfo :=
  match b with SetChunkSize n => setRxChunkSize n i | _ => i end.

Lemma rx_packet W now h hb cb mb b i i' src :
  rx_reads W (readHeader now) hb i h i -> rx_reads W (readChunk now h) cb i src i' -> src <> Incomplete ->
  rx_reads W (read_from src (readBody h)) mb i' (received_body b) i' ->
  rx_reads W (readPacket now) (hb ++ cb ++ mb) i (delivered h b) (sized b i').
Proof.
  intros Hh Hc Hsrc Hm. unfold readPacket. eapply rx_bind; [exact Hh|]. eapply rx_bind; [exact Hc|].
  assert (rx_reads W (b <- read_from src (readBody h) ;; match b with
    | SetChunkSize n => on_info (modify (setRxChunkSize n)) ;;; ret None | _ => ret (Some (mkPacket h b)) end) mb i' (delivered h b) (sized b i')) as Hk;
    [|by destruct src].
  rewrite <- (app_nil_r mb). eapply rx_bind; [exact Hm|].
  destruct b as [n|n|n|t l|n|n t|[l|] n|[l|] n|name id data|type data]; cbn [received_body delivered sized]; try apply rx_ret.
  eapply rx_bind_info; [done|apply rx_ret].
Qed.
Lemma rx_packet_incomplete W now h hb cb i i' :
  rx_reads W (readHeader now) hb i h i -> rx_reads W (readChunk now h) cb i Incomplete i' ->
  rx_reads W (readPacket now) (hb ++ cb) i None i'.
Proof.
  intros Hh Hc. unfold readPacket. eapply rx_bind; [exact Hh|]. rewrite <- (app_nil_r cb). eapply rx_bind; [exact Hc|apply rx_ret].
Qed.

Lemma receiving_sized n pend b i : receiving (mkSender n pend) i -> size_allowed b pend ->
  receiving (mkSender (next_size b n) pend) (sized b i).
Proof.
  intros [Hn Hpos Hp He] Ha. destruct b; try by split. destruct Ha as [Hpos' Hlt]. cbn in *. split; [done|done| |done].
  intros id p k Hid. destruct (Hp id p k Hid) as (? & ? & ? & ? & _ & ?). split_and!; try done; try lia. apply (Hlt id (p, k) Hid).
Qed.

Lemma receiving_stored n pend pend' i id c : receiving (mkSender n pend) i ->
  (forall id', id' <> id -> pend' !! id' = pend !! id') ->
  (forall p k, pend' !! id = Some (p, k) -> sendable p /\ divisible p /\ id = stream_of p /\ 0 < Z.of_nat k < body_length p /\
    n < body_length p /\ partial p k c) ->
  (pend' !! id = None -> baos c = []) ->
  receiving (mkSender n pend') (stored id c i).
Proof.
  intros [Hn Hpos Hp He] Heq Hs Hnone. split; [done|done|..].
  - cbn. intros id' p k Hid. destruct (decide (id' = id)) as [->|Hne].
    + destruct (Hs p k Hid) as (? & ? & ? & ? & ? & ?). split_and!; try done; try lia. exists c. by rewrite lookup_insert_eq.
    + rewrite Heq in Hid by done. rewrite lookup_insert_ne by done. by apply Hp.
  - cbn. intros id' c' Hid Hc. destruct (decide (id' = id)) as [->|Hne].
    + rewrite lookup_insert_eq in Hc. injection Hc as <-. by apply Hnone.
    + rewrite Heq in Hid by done. rewrite lookup_insert_ne in Hc by done. by eapply He.
Qed.

(** The channel of a chunk stream without a message is empty. *)
Lemma channel_empty now n pend i h : receiving (mkSender n pend) i -> pend !! chunkStreamId h = None ->
  baos (chunk_channel now h i) = [].
Proof.
  intros [_ _ _ He] Hid. unfold chunk_channel, channel. cbn. destruct (chunkChannels i !! chunkStreamId h) as [c|] eqn:E; [|done].
  by apply (He _ _ Hid E).
Qed.

Lemma simulates_single W now n pend p i : receiving (mkSender n pend) i ->
  sendable p -> pend !! stream_of p = None -> body_length p <= n -> (body_whole (body p) -> W) -> size_allowed (body p) pend ->
  exists i', rx_reads W (readPacket now) (full_header (packet_header p) ++ payload (body p)) i
      (delivered (first_header (packet_header p)) (body p)) i' /\ receiving (mkSender (next_size (body p) n) pend) i'.
Proof.
  intros Hr [Hb Ht Hh Hl] Hid Hn HW Ha. set (h := first_header (packet_header p)).
  exists (sized (body p) (stored (chunkStreamId h) (chunk_channel now h i) i)). split.
  - rewrite <- (app_nil_l (payload _)). eapply (rx_packet _ _ h _ _ _ _ _ _ FromStream); [by apply rx_full_header| |done|].
    + apply rx_chunk_stream. cbn. destruct Hr as [-> _ _ _]. cbn. lia.
    + eapply rx_on_in. apply reads_body; [done|done|done| |done]. destruct Hh as [_ _ Hlen _]. cbn. lia.
  - apply receiving_sized; [|done]. eapply receiving_stored; [done|done| |].
    + intros q k Hq. change (chunkStreamId h) with (stream_of p) in Hq. congruence.
    + intros _. by eapply channel_empty.
Qed.

Lemma simulates_first W now n pend p i : receiving (mkSender n pend) i ->
  sendable p -> divisible p -> pend !! stream_of p = None -> n < body_length p ->
  exists i', rx_reads W (readPacket now) (full_header (packet_header p) ++ take (Z.to_nat n) (payload (body p))) i None i' /\
    receiving (mkSender n (<[stream_of p := (p, Z.to_nat n)]> pend)) i'.
Proof.
  intros Hr Hs Hd Hid Hn. destruct Hs as [Hb Ht Hh Hl]. set (h := first_header (packet_header p)).
  pose proof (receiving_size _ _ Hr) as Hsz. pose proof (receiving_positive _ _ Hr) as Hpos. cbn in Hsz, Hpos.
  assert (baos (chunk_channel now h i) = []) as He by by eapply channel_empty.
  pose proof (sendable_length _ Hh) as Hlen. change (packetLength (packet_header p)) with (packetLength h) in Hl, Hlen.
  assert (length (take (Z.to_nat n) (payload (body p))) = Z.to_nat n) as Htake by (rewrite length_take; unfold body_length in *; lia).
  eexists. split.
  - eapply rx_packet_incomplete; [by apply rx_full_header|].
    pose proof (rx_chunk_stored W now h i (take (Z.to_nat n) (payload (body p)))) as Hc. cbn zeta in Hc.
    rewrite Htake, Hsz in Hc. unfold baos_size in Hc. rewrite He in Hc. cbn [length app Z.of_nat] in Hc.
    rewrite (proj2 (Z.eqb_neq _ _)) in Hc by lia. apply Hc; lia.
  - eapply receiving_stored; [done|..].
    + intros id' Hne. by rewrite lookup_insert_ne.
    + intros q k. change (chunkStreamId h) with (stream_of p). rewrite lookup_insert_eq. intros [= <- <-].
      split_and!; try done; try lia. split; [by exists h|done].
    + change (chunkStreamId h) with (stream_of p). by rewrite lookup_insert_eq.
Qed.

Lemma partial_next W now n pend i p k id : receiving (mkSender n pend) i -> pend !! id = Some (p, k) ->
  let h := later_header (packet_header p) in
  rx_reads W (readHeader now) (next_header id) i h i /\ baos (chunk_channel now h i) = take k (payload (body p)).
Proof.
  intros Hr Hid. destruct (receiving_partial _ _ Hr id p k Hid) as (Hs & _ & -> & _ & _ & c & Hc & [(h0 & Hh & Heq & Hd) Hst]).
  cbn zeta. rewrite <- Heq. assert (chunkStreamId h0 = stream_of p) as Hi by exact (f_equal chunkStreamId Heq). split.
  - rewrite <- Hi in *. destruct (sendable_head _ Hs) as [Hid' Hts _ _].
    assert (absoluteTimestamp h0 = absoluteTimestamp (packet_header p)) as Hab by exact (f_equal absoluteTimestamp Heq).
    apply (rx_next_header W now i c h0); try done; [rewrite Hab; unfold is_int; lia|rewrite Hi; exact Hid'].
  - unfold chunk_channel, channel. cbn. rewrite Hi, Hc. exact Hst.
Qed.

Lemma simulates_next W now n pend p k id i : receiving (mkSender n pend) i ->
  pend !! id = Some (p, k) -> Z.of_nat k + n < body_length p ->
  exists i', rx_reads W (readPacket now) (next_header id ++ take (Z.to_nat n) (drop k (payload (body p)))) i None i' /\
    receiving (mkSender n (<[id := (p, (k + Z.to_nat n)%nat)]> pend)) i'.
Proof.
  intros Hr Hid Hn. destruct (partial_next W now n pend i p k id Hr Hid) as [Hh Hst]. set (h := later_header (packet_header p)) in *.
  pose proof (receiving_size _ _ Hr) as Hsz. pose proof (receiving_positive _ _ Hr) as Hpos. cbn in Hsz, Hpos.
  destruct (receiving_partial _ _ Hr id p k Hid) as (Hs & Hd & -> & Hk & Hlt & _). cbn in Hlt.
  pose proof (sendable_length _ (sendable_head _ Hs)) as Hlen. pose proof (sendable_bytes _ Hs) as Hl.
  change (packetLength (packet_header p)) with (packetLength h) in Hl, Hlen.
  assert (length (take (Z.to_nat n) (drop k (payload (body p)))) = Z.to_nat n) as Htake
    by (rewrite length_take, length_drop; unfold body_length in *; lia).
  assert (length (take k (payload (body p))) = k) as Hkl by (rewrite length_take; unfold body_length in *; lia).
  eexists. split.
  - eapply rx_packet_incomplete; [exact Hh|].
    pose proof (rx_chunk_stored W now h i (take (Z.to_nat n) (drop k (payload (body p))))) as Hc. cbn zeta in Hc.
    rewrite Htake, Hsz in Hc. unfold baos_size in Hc. rewrite Hst, Hkl in Hc.
    rewrite (proj2 (Z.eqb_neq _ _)) in Hc by lia. apply Hc; lia.
  - eapply receiving_stored; [done|..].
    + intros id' Hne. by rewrite lookup_insert_ne.
    + intros q k'. change (chunkStreamId h) with (stream_of p). rewrite lookup_insert_eq. intros [= <- <-].
      split_and!; try done; try lia. split; [by exists h|]. cbn [with_baos baos].
      apply take_take_drop.
    + change (chunkStreamId h) with (stream_of p). by rewrite lookup_insert_eq.
Qed.

Lemma simulates_last W now n pend p k id i : receiving (mkSender n pend) i ->
  pend !! id = Some (p, k) -> body_length p <= Z.of_nat k + n -> size_allowed (body p) (delete id pend) ->
  exists i', rx_reads W (readPacket now) (next_header id ++ drop k (payload (body p))) i
      (delivered (later_header (packet_header p)) (body p)) i' /\
    receiving (mkSender (next_size (body p) n) (delete id pend)) i'.
Proof.
  intros Hr Hid Hn Ha. destruct (partial_next W now n pend i p k id Hr Hid) as [Hh Hst]. set (h := later_header (packet_header p)) in *.
  pose proof (receiving_size _ _ Hr) as Hsz. pose proof (receiving_positive _ _ Hr) as Hpos. cbn in Hsz, Hpos.
  destruct (receiving_partial _ _ Hr id p k Hid) as (Hs & Hd & -> & Hk & Hlt & _). cbn in Hlt.
  pose proof (sendable_length _ (sendable_head _ Hs)) as Hlen. pose proof (sendable_bytes _ Hs) as Hl.
  change (packetLength (packet_header p)) with (packetLength h) in Hl, Hlen.
  assert (length (take k (payload (body p))) = k) as Hkl by (rewrite length_take; unfold body_length in *; lia).
  exists (sized (body p) (stored (chunkStreamId h) (with_baos [] (chunk_channel now h i)) i)). split.
  - rewrite <- (app_nil_r (drop k _)). eapply (rx_packet _ _ h _ _ _ _ _ _ (FromChunks (payload (body p)))); [exact Hh| |done|].
    + pose proof (rx_chunk_stored W now h i (drop k (payload (body p)))) as Hc. cbn zeta in Hc.
      rewrite Hsz, length_drop in Hc. unfold baos_size in Hc. rewrite Hst, Hkl, take_drop in Hc.
      rewrite (proj2 (Z.eqb_eq _ _)) in Hc by (unfold body_length in *; lia). apply Hc; unfold body_length in *; lia.
    + destruct (reads_body True h (body p) (sendable_body _ Hs) (sendable_type _ Hs) Hl ltac:(lia) ltac:(done)
        (mkStream InMemory [payload (body p)]) []) as (s' & E & _).
      { cbn. by rewrite !app_nil_r. } { intros _. by eexists. } { by intros He%(divisible_end _ Hd). }
      intros s rest Hsr Hb _. exists s. cbn [read_from]. unfold lift. by rewrite E.
  - apply receiving_sized; [|done]. eapply receiving_stored; [done|..].
    + intros id' Hne. by rewrite lookup_delete_ne.
    + intros q k'. change (chunkStreamId h) with (stream_of p). by rewrite lookup_delete_eq.
    + done.
Qed.

Lemma simulates_chunk W now a bs a' o i : chunk_sent W a bs a' o -> receiving a i ->
  exists i', rx_reads W (readPacket now) bs i o i' /\ receiving a' i'.
Proof.
  destruct 1; intros Hr; [by apply simulates_single|by apply simulates_first|by apply simulates_next|by apply simulates_last].
Qed.

(** Calls of [readPacket], at the given times. *)
Definition readPackets (times : list Z) : M rx (list (option RtmpPacket)) :=
  foldr (fun now r => p <- readPacket now ;; l <- r ;; ret (p :: l)) (ret []) times.

Lemma simulates_chunks W a l a' r : chunks_sent W a l a' r -> forall i times, receiving a i -> length times = length l ->
  exists i', rx_reads W (readPackets times) (concat l) i r i' /\ receiving a' i'.
Proof.
  induction 1 as [a|a bs a1 o l a2 r Hc _ IH]; intros i [|now times] Hr Ht; try done.
  - exists i. split; [apply rx_ret|done].
  - destruct (simulates_chunk W now _ _ _ _ i Hc Hr) as (i1 & H1 & Hr1).
    destruct (IH i1 times Hr1 ltac:(by injection Ht)) as (i2 & H2 & Hr2). exists i2. split; [|done].
    cbn [readPackets foldr concat]. eapply rx_bind; [exact H1|]. rewrite <- (app_nil_r (concat l)). eapply rx_bind; [exact H2|apply rx_ret].
Qed.

Lemma receiving_new : receiving (mkSender 128 ∅) newSessionInfo.
Proof. split; [done|done| |]; cbn; intros ? ?; try intros ?; by rewrite lookup_empty. Qed.

(** ** Packets are written as chunks *)

Lemma written_write bs t : written (mkTx (tx_out t ++ [bs]) (tx_header t) (tx_info t)) = written t ++ bs.
Proof. unfold written. cbn. rewrite concat_app. cbn. by rewrite app_nil_r. Qed.

Lemma header_full now t : 0 <= chunkStreamId (tx_header t) < 64 ->
  exists t', header_writeTo now TYPE_0_FULL t = (Ok tt, t') /\ written t' = written t ++ full_header (tx_header t) /\
    chunkStreamId (tx_header t') = chunkStreamId (tx_header t) /\
    extendedTimestamp (tx_header t') =
      if 16777215 <=? absoluteTimestamp (tx_header t) then absoluteTimestamp (tx_header t) else extendedTimestamp (tx_header t).
Proof.
  intros Hid. destruct t as [out h i]. cbn [tx_header] in *. pose proof (written_basic_header TYPE_0_FULL _ Hid) as Hb. cbn [chunk_value] in Hb.
  unfold header_writeTo, full_header, clamp, write_extended, write, change_header, mark_delta, bind, get, put, modify, ret, when, written.
  cbn [tx_header tx_out tx_info chunk_value markDeltaTimestampTx]. rewrite Hb.
  destruct (16777215 <=? absoluteTimestamp h); (eexists; split_and!; [reflexivity|cbn [tx_out]; rewrite !concat_app; cbn; by rewrite <- ?app_assoc|done|done]).
Qed.

Lemma header_next now t : 0 <= chunkStreamId (tx_header t) < 64 -> extendedTimestamp (tx_header t) <= 0 ->
  exists t', header_writeTo now TYPE_3_RELATIVE_SINGLE_BYTE t = (Ok tt, t') /\
    written t' = written t ++ next_header (chunkStreamId (tx_header t)) /\ tx_header t' = tx_header t.
Proof.
  intros Hid Hx. destruct t as [out h i]. cbn [tx_header] in *. pose proof (written_basic_header TYPE_3_RELATIVE_SINGLE_BYTE _ Hid) as Hb.
  unfold header_writeTo, write, bind, get, modify, ret, when, next_header. cbn [tx_header tx_out tx_info]. rewrite Hb, (proj2 (Z.ltb_ge _ _)) by lia.
  eexists. split_and!; [reflexivity| |done]. apply (written_write _ (mkTx out h i)).
Qed.

Lemma write_slice_run l pos len t : 0 <= pos -> 0 <= len -> pos + len <= Z.of_nat (length l) ->
  exists t', write_slice (Some l) pos len t = (Ok tt, t') /\ written t' = written t ++ take (Z.to_nat len) (drop (Z.to_nat pos) l) /\
    tx_header t' = tx_header t.
Proof.
  intros Hp Hl Hb. unfold write_slice. rewrite !(proj2 (Z.ltb_ge _ _)) by lia. cbn. eexists. split_and!; [reflexivity| |done].
  apply written_write.
Qed.

Lemma take_drop_prefix {A} (l l' : list A) n pos m : l' = take n l -> (pos + m <= n)%nat -> take m (drop pos l) = take m (drop pos l').
Proof. intros -> Hn. rewrite skipn_firstn_comm, take_take. f_equal. lia. Qed.

Section chunks.
Context (W : Prop) (now n : Z) (pend : gmap Z (RtmpPacket * nat)) (p : RtmpPacket) (l : list Z).
Context (Hn : 0 < n) (Hs : sendable p) (Hd : divisible p) (Hid : pend !! stream_of p = None).
Context (Ha : size_allowed (body p) pend) (Hl : payload (body p) = take (length (payload (body p))) l).

(** From a place in the message at which a chunk was begun that is not the
    last one. *)
Lemma writes_chunks fuel pos t : (Z.to_nat (body_length p - pos) < fuel)%nat -> 0 <= pos -> n < body_length p - pos ->
  chunkStreamId (tx_header t) = stream_of p -> extendedTimestamp (tx_header t) <= 0 ->
  exists t' cs k, write_chunks now fuel (Some l) n pos (body_length p - pos) t = (Ok tt, t') /\
    written t' = written t ++ take (Z.to_nat n) (drop (Z.to_nat pos) (payload (body p))) ++ concat cs /\
    chunks_sent W (mkSender n (<[stream_of p := (p, Z.to_nat (pos + n))]> pend)) cs (mkSender (next_size (body p) n) pend)
      (replicate k None ++ [delivered (later_header (packet_header p)) (body p)]).
Proof.
  assert (length (payload (body p)) <= length l)%nat as Hlen by (rewrite Hl, length_take; lia).
  assert (0 <= stream_of p < 64) as Hid64 by apply (sendable_id _ (sendable_head _ Hs)).
  revert pos t. induction fuel as [|fuel IH]; intros pos t Hf Hpos Hlt Hti Hx; [lia|]. cbn [write_chunks].
  rewrite (proj2 (Z.ltb_lt _ _)) by lia. unfold body_length in *.
  destruct (write_slice_run l pos n t) as (t1 & E1 & W1 & H1); [lia..|]. rewrite (bind_ok _ _ _ _ _ E1).
  destruct (header_next now t1) as (t2 & E2 & W2 & H2); [by rewrite H1, Hti|by rewrite H1|]. rewrite (bind_ok _ _ _ _ _ E2).
  rewrite H1, Hti in W2. rewrite (take_drop_prefix l (payload (body p)) _ _ _ Hl) in W1 by lia.
  replace (Z.of_nat (length (payload (body p))) - pos - n) with (Z.of_nat (length (payload (body p))) - (pos + n)) by lia.
  assert (Z.to_nat (pos + n) = Z.to_nat pos + Z.to_nat n)%nat as Hk by lia.
  destruct (Z.lt_ge_cases n (Z.of_nat (length (payload (body p))) - (pos + n))) as [Hmore|Hlast].
  - destruct (IH (pos + n) t2) as (t3 & cs & k & E3 & W3 & Hc); [lia..|by rewrite H2, H1|by rewrite H2, H1|].
    exists t3, ((next_header (stream_of p) ++ take (Z.to_nat n) (drop (Z.to_nat (pos + n)) (payload (body p)))) :: cs), (S k).
    split_and!; [exact E3|by rewrite W3, W2, W1; cbn; rewrite <- !app_assoc|]. cbn [replicate app]. econstructor; [|exact Hc].
    replace (Z.to_nat (pos + n + n)) with (Z.to_nat (pos + n) + Z.to_nat n)%nat by lia.
    rewrite <- (insert_insert_eq pend (stream_of p) (p, (Z.to_nat (pos + n) + Z.to_nat n)%nat) (p, Z.to_nat (pos + n))).
    apply sent_next; [apply lookup_insert_eq|unfold body_length; lia].
  - destruct fuel as [|fuel]; [lia|]. cbn [write_chunks]. rewrite (proj2 (Z.ltb_ge _ _)) by lia.
    destruct (write_slice_run l (pos + n) (Z.of_nat (length (payload (body p))) - (pos + n)) t2) as (t3 & E3 & W3 & H3); [lia..|].
    rewrite (take_drop_prefix l (payload (body p)) _ _ _ Hl), take_ge in W3 by (rewrite ?length_drop; lia).
    exists t3, [next_header (stream_of p) ++ drop (Z.to_nat (pos + n)) (payload (body p))], 0%nat. split_and!; [exact E3| |].
    + rewrite W3, W2, W1. cbn. by rewrite app_nil_r, <- !app_assoc.
    + cbn [replicate app]. econstructor; [|constructor]. rewrite <- (delete_insert_id pend (stream_of p) (p, Z.to_nat (pos + n))) at 2 by done.
      apply sent_last; [apply lookup_insert_eq|unfold body_length; lia|by rewrite delete_insert_id].
Qed.
End chunks.

Lemma packet_chunks W now n pend h b t : let p := mkPacket (setPacketLength (Z.of_nat (length (payload b))) h) b in
  sendable p -> pend !! stream_of p = None -> size_allowed b pend -> 0 < n -> tx_header t = h -> extendedTimestamp h = 0 ->
  (body_length p <= n -> body_whole b -> W) -> (n < body_length p -> divisible p) ->
  exists t' cs k hr, packet_writeTo now n b t = (Ok tt, t') /\ written t' = written t ++ concat cs /\
    chunks_sent W (mkSender n pend) cs (mkSender (next_size b n) pend) (replicate k None ++ [delivered hr b]) /\
    later_header hr = later_header (packet_header p).
Proof.
  intros p Hs Hid Ha Hn Ht Hx HW Hd. destruct t as [out h0 i]. cbn in Ht. subst h0.
  destruct (packet_bytes_payload b (sendable_body _ Hs)) as (l & El & Hl).
  unfold packet_writeTo. rewrite El, lift_bind. cbn [fst snd].
  rewrite (bind_ok (change_header _) _ _ _ _ eq_refl). cbn [tx_out tx_header tx_info].
  destruct (header_full now (mkTx out (packet_header p) i)) as (t1 & E1 & W1 & Hi1 & Hx1); [apply (sendable_id _ (sendable_head _ Hs))|].
  change (setPacketLength _ h) with (packet_header p). rewrite (bind_ok _ _ _ _ _ E1). cbn [tx_header] in *.
  change (Z.of_nat (length (payload b))) with (body_length p).
  destruct (Z.lt_ge_cases n (body_length p)) as [Hlt|Hge].
  - specialize (Hd Hlt). rewrite (proj2 (Z.leb_gt _ _)) in Hx1 by apply (divisible_timestamp _ Hd).
    destruct (writes_chunks W now n pend p l Hn Hs Hid Ha Hl (S (Z.to_nat (body_length p))) 0 t1) as (t2 & cs & k & E2 & W2 & Hc);
      [lia|lia|lia|done|by rewrite Hx1; change (extendedTimestamp h <= 0); rewrite Hx|].
    rewrite Z.sub_0_r in E2. exists t2, ((full_header (packet_header p) ++ take (Z.to_nat n) (payload b)) :: cs), (S k), (later_header (packet_header p)).
    split_and!; [exact E2|by rewrite W2, W1; cbn; rewrite <- !app_assoc| |done].
    cbn [replicate app]. econstructor; [|exact Hc]. rewrite Z.add_0_l. by apply (sent_first W n pend p).
  - destruct (write_slice_run l 0 (body_length p) t1) as (t2 & E2 & W2 & _); [lia|unfold body_length; lia| |].
    { apply (f_equal length) in Hl. rewrite length_take in Hl. unfold body_length. cbn [body p]. lia. }
    exists t2, [full_header (packet_header p) ++ payload b], 0%nat, (first_header (packet_header p)).
    split_and!; [|rewrite W2, W1; cbn [concat]|cbn [replicate app]|done].
    + cbn [write_chunks]. by rewrite (proj2 (Z.ltb_ge _ _)) by lia.
    + unfold body_length. cbn [body p]. rewrite Nat2Z.id, drop_0, <- Hl, app_nil_r. by rewrite <- app_assoc.
    + econstructor; [|constructor]. apply (sent_single W n pend p); auto.
Qed.

(** ** The decoder returns *)

Lemma shrinks_lift {A} (o : outcome A) : o <> Undef -> shrinks (lift o).
Proof. intros Ho s. by split. Qed.
Lemma shrinks_int24 : shrinks readUnsignedInt24.
Proof. unfold readUnsignedInt24, read_masked. shrink. Qed.
Lemma shrinks_string b : shrinks (readStringFrom b).
Proof. unfold readStringFrom. destruct b; cbn [negb]; shrink. Qed.
Lemma shrinks_new_array n : shrinks (new_array n).
Proof. unfold new_array. destruct (n <? 0); auto with shrinks. Qed.
Lemma readFrom_shrinks s : (readFrom s).1 <> Undef /\ (length (content (readFrom s).2) <= length (content s))%nat /\
  forall d s', readFrom s = (Ok d, s') -> (length (content s') < length (content s))%nat.
Proof.
  unfold readFrom. pose proof (decode_below (S (length (content s))) s ltac:(lia)) as H.
  destruct (decode _ s) as [[v|e|] s']; [| |done]; (split_and!; [done|cbn; lia|]); [|done]. intros d s2 [= <- <-]. done.
Qed.
Hint Resolve shrinks_lift shrinks_int24 shrinks_string shrinks_new_array : shrinks.

Lemma shrinks_variable fuel n k acc s : (length (content s) < fuel)%nat ->
  (read_variable fuel n k acc s).1 <> Undef /\ (length (content (read_variable fuel n k acc s).2) <= length (content s))%nat.
Proof.
  revert k acc s. induction fuel as [|fuel IH]; intros k acc s Hf; [lia|]. cbn [read_variable].
  destruct (readFrom_shrinks s) as (Hu & Hle & Hlt). destruct (readFrom s) as [[d|e|] s1] eqn:E; [| |done].
  - rewrite (bind_ok _ _ _ _ _ E). cbv zeta. specialize (Hlt d s1 eq_refl). destruct (_ <? n); [|split; [done|cbn in *; lia]].
    destruct (IH (int (k + getSize d)) (acc ++ [d]) s1 ltac:(lia)). split; [done|lia].
  - rewrite (bind_throw _ _ _ _ _ E). by split.
Qed.
Lemma shrinks_readVariableData n k : shrinks (readVariableData n k).
Proof. intros s. apply shrinks_variable. lia. Qed.
Hint Resolve shrinks_readVariableData : shrinks.

Lemma shrinks_readBody h : shrinks (readBody h).
Proof.
  unfold readBody, UserControl_readBody, SetPeerBandwidth_readBody, Command_readBody, Data_readBody, ContentData_readBody, readNumberFrom.
  destruct (messageType h); shrink. case_bool_decide; shrink.
Qed.
Lemma shrinks_store c n : shrinks (storePacketChunk c n).
Proof. unfold storePacketChunk. destruct (prevHeaderRx c); shrink. Qed.
Lemma shrinks_message_type : shrinks readMessageType.
Proof. unfold readMessageType. shrink. apply shrinks_lift. unfold message_valueOf. by destruct (list_find _ _) as [[]|]. Qed.
Lemma shrinks_extended v : shrinks (readExtendedTimestamp v).
Proof. unfold readExtendedTimestamp. destruct (_ <=? _); auto with shrinks. Qed.
Hint Resolve shrinks_readBody shrinks_store shrinks_message_type shrinks_extended : shrinks.

(** The same with the session. *)
Definition rx_shrinks {A} (m : M rx A) : Prop := forall r,
  (m r).1 <> Undef /\ (length (content (rx_in (m r).2)) <= length (content (rx_in r)))%nat.
Lemma rx_shrinks_ret {A} (a : A) : rx_shrinks (ret a).
Proof. intros r. by split. Qed.
Lemma rx_shrinks_throw {A} e : rx_shrinks (@throw rx A e).
Proof. intros r. by split. Qed.
Lemma rx_shrinks_lift {A} (o : outcome A) : o <> Undef -> rx_shrinks (lift o).
Proof. intros Ho r. by split. Qed.
Lemma rx_shrinks_bind {A B} (m : M rx A) (k : A -> M rx B) : rx_shrinks m -> (forall a, rx_shrinks (k a)) -> rx_shrinks (bind m k).
Proof.
  intros Hm Hk r. destruct (Hm r) as [Hu Hl]. unfold bind. destruct (m r) as [[a|e|] r']; cbn in *; [|done..].
  destruct (Hk a r'). split; [done|lia].
Qed.
Lemma rx_shrinks_in {A} (m : M stream A) : shrinks m -> rx_shrinks (on_in m).
Proof.
  intros Hm [s i]. destruct (Hm s) as [Hu Hl]. unfold on_in, zoom. cbn. destruct (m s) as [o s']. by split.
Qed.
Lemma rx_shrinks_get now id : rx_shrinks (on_info (getChunkStreamInfo now id)).
Proof.
  intros [s i]. unfold on_info, zoom, getChunkStreamInfo, bind, get, put, ret. cbn. by destruct (chunkChannels i !! id).
Qed.
Lemma rx_shrinks_info f : rx_shrinks (on_info (modify f)).
Proof. intros [s i]. by split. Qed.
Lemma rx_shrinks_session : rx_shrinks (on_info get).
Proof. intros [s i]. by split. Qed.
Lemma rx_shrinks_deref {A} (o : option A) : rx_shrinks (deref o).
Proof. intros r. by destruct o. Qed.
Lemma rx_shrinks_from {A} src (m : M stream A) : shrinks m -> rx_shrinks (read_from src m).
Proof.
  intros Hm. destruct src; cbn [read_from]; [by apply rx_shrinks_in| |by apply rx_shrinks_in]. apply rx_shrinks_lift.
  apply (Hm (mkStream InMemory [bytes])).
Qed.
Hint Resolve rx_shrinks_ret rx_shrinks_throw rx_shrinks_lift rx_shrinks_in rx_shrinks_get rx_shrinks_info rx_shrinks_session rx_shrinks_deref rx_shrinks_from : shrinks.
Ltac rx_shrink :=
  repeat match goal with
  | |- forall _, _ => intro
  | |- rx_shrinks (bind _ _) => apply rx_shrinks_bind
  | |- rx_shrinks (if ?b then _ else _) => destruct b
  | |- rx_shrinks (match ?x with _ => _ end) => destruct x
  | |- rx_shrinks (let '(_, _) := ?x in _) => destruct x
  | _ => solve [auto with shrinks]
  end.

Lemma parseBasicHeader_returns b : parseBasicHeader b <> Undef.
Proof. unfold parseBasicHeader, chunk_valueOf. by destruct (list_find _ _) as [[]|]. Qed.
Lemma little_endian_returns bs : toUnsignedInt32LittleEndian bs <> Undef.
Proof. unfold toUnsignedInt32LittleEndian, element. repeat (destruct (bs !! _); [cbn [obind]|done]). done. Qed.
Hint Resolve parseBasicHeader_returns little_endian_returns : shrinks.

(** Of what is not at the end, at least a byte is taken. *)
Definition rx_takes {A} (m : M rx A) : Prop := forall r, content (rx_in r) <> [] ->
  (m r).1 <> Undef /\ (length (content (rx_in (m r).2)) < length (content (rx_in r)))%nat.
Lemma rx_takes_bind {A B} (m : M rx A) (k : A -> M rx B) : rx_takes m -> (forall a, rx_shrinks (k a)) -> rx_takes (bind m k).
Proof.
  intros Hm Hk r Hr. destruct (Hm r Hr) as [Hu Hl]. unfold bind. destruct (m r) as [[a|e|] r']; cbn in *; [|done..].
  destruct (Hk a r'). split; [done|lia].
Qed.
Lemma rx_takes_read : rx_takes (on_in read).
Proof. intros [s i] Hs. destruct (read_shrinks_by s Hs) as (b & s' & E & Hl). unfold on_in, zoom. cbn. by rewrite E. Qed.

Lemma readHeader_takes now : rx_takes (readHeader now).
Proof.
  unfold readHeader. apply rx_takes_bind; [apply rx_takes_read|]. intros b. unfold throw_if, previous. rx_shrink.
Qed.
Lemma rx_shrinks_chunk now h : rx_shrinks (readChunk now h).
Proof. unfold readChunk, store_channel. rx_shrink. Qed.
Hint Resolve rx_shrinks_chunk : shrinks.
Lemma readPacket_takes now : rx_takes (readPacket now).
Proof. unfold readPacket. apply rx_takes_bind; [apply readHeader_takes|]. rx_shrink. Qed.
Lemma readPacket_end now r : content (rx_in r) = [] ->
  readPacket now r = (Throw (Java (EOFException "Unexpected EOF while reading RTMP packet basic header")), r).
Proof.
  destruct r as [s i]. intros Hs. cbn in Hs. unfold readPacket, readHeader, bind, on_in, zoom. cbn. by rewrite (read_end s Hs).
Qed.

(** ** The properties *)



(** On every stream and in every session [readPacket] returns or throws;
    it takes at least a byte, and at the end throws the EOFException that ends
    the receiving thread. *)
Theorem decoder_returns now r :
  (content (rx_in r) <> [] -> (readPacket now r).1 <> Undef /\
     (length (content (rx_in (readPacket now r).2)) < length (content (rx_in r)))%nat) /\
  (content (rx_in r) = [] ->
     readPacket now r = (Throw (Java (EOFException "Unexpected EOF while reading RTMP packet basic header")), r)).
Proof. split; [apply readPacket_takes|apply readPacket_end]. Qed.

Definition bodies (o : outcome (list (option RtmpPacket))) : list (option packet_body) :=
  match o with Ok l => map (option_map body) l | _ => [] end.

(** The timestamp of a continuation chunk is not skipped.  A packet with
    the timestamp 0xffffff, that is after four and a half hours, has it in the
    chunks after the first too, but the decoder looks for it only after chunks
    with a delta.  The message it returns ends in two bytes of the timestamp,
    and the next call takes the other two for a header and throws a
    NullPointerException, which ends the receiving thread. *)
Theorem extended_timestamp_misread x y z :
  let h := setAbsoluteTimestamp 16777215 (packet_header newAudio) in
  let t := (packet_writeTo 0 128 (Audio (Some (replicate 128 x ++ [y; z])) 130) (mkTx [] h (newChunkStreamInfo 0))).2 in
  let r := readPackets [0; 0] (mkRx (mkStream Buffered [written t]) newSessionInfo) in
  bodies r.1 = [None; Some (Audio (Some (replicate 128 x ++ [0; 255])) 0)] /\
  (readPacket 0 r.2).1 = Throw (Java NullPointerException).
Proof. by split; vm_compute. Qed.

(** A chunk size that grows past a message that was begun loses it.  The
    rest of the message is not added to what was stored, but read from the
    stream as if it were the whole message, so that it swallows what follows. *)
Theorem grown_chunk_size_loses_message x y :
  let audio := mkPacket (setPacketLength 200 (packet_header newAudio)) (Audio (Some (replicate 200 x)) 200) in
  let size := setPacketLength 4 (packet_header (newSetChunkSize 4096)) in
  let bs := full_header (packet_header audio) ++ replicate 128 x ++ full_header size ++ writeUnsignedInt32 4096 ++
    next_header RTMP_CID_AUDIO ++ replicate 72 x ++ replicate 128 y in
  let r := readPackets [0; 0; 0] (mkRx (mkStream Buffered [bs]) newSessionInfo) in
  bodies r.1 = [None; None; Some (Audio (Some (replicate 72 x ++ replicate 128 y)) 0)] /\
  content (rx_in r.2) = [].
Proof. by split; vm_compute. Qed.

(** ** Witnesses *)

Definition sample_audio : RtmpPacket :=
  mkPacket (setPacketLength 200 (setMessageStreamId 1 (packet_header newAudio))) (Audio (Some (replicate 200 7)) 200).
Definition sample_ping : RtmpPacket :=
  mkPacket (setPacketLength 6 (packet_header (newUserControl PING_REQUEST (newChunkStreamInfo 0)))) (UserControl (Some PING_REQUEST) (Some [1234])).
Lemma sample_audio_sendable : sendable sample_audio.
Proof. split; [split; vm_compute; discriminate|done|split; split; by vm_compute|done]. Qed.
Lemma sample_ping_sendable : sendable sample_ping.
Proof. split; [cbn; unfold is_int; split; [done|lia]|done|split; split; by vm_compute|done]. Qed.
Lemma sample_audio_divisible : divisible sample_audio.
Proof. split; [cbn; lia|cbn; lia]. Qed.

(** A ping between the two chunks of an audio message. *)
Definition sample_chunks : list (list Z) :=
  [full_header (packet_header sample_audio) ++ take 128 (payload (body sample_audio));
   full_header (packet_header sample_ping) ++ payload (body sample_ping);
   next_header 7 ++ drop 128 (payload (body sample_audio))].
Lemma sample_chunks_sent : chunks_sent False (mkSender 128 ∅) sample_chunks (mkSender 128 (delete 7 {[7 := (sample_audio, 128%nat)]}))
  [None; delivered (first_header (packet_header sample_ping)) (body sample_ping);
   delivered (later_header (packet_header sample_audio)) (body sample_audio)].
Proof.
  econstructor; [apply (sent_first False 128 ∅ sample_audio); [apply sample_audio_sendable|apply sample_audio_divisible|done|done]|].
  econstructor; [apply (sent_single False 128 _ sample_ping); [apply sample_ping_sendable|done|done|by cbn|done]|].
  econstructor; [|constructor]. apply (sent_last False 128 _ sample_audio 128%nat 7); [done|done|done].
Qed.


