(* ===== verification/RtmpHandshake.v ===== *)
(** * simplertmp: the handshake

    Handshake.java and Crypto.java of
    src/library/src/main/java/com/github/faucamp/simplertmp.  The HMAC-SHA256
    of javax.crypto is a parameter, and so are what java.util.Random gives and
    the clock. *)

From stdpp Require Import base list strings pretty.
From Stdlib Require Import ZArith Lia.
From S2P Require Import Prelude Java RtmpUtil AmfSpec.
Open Scope Z_scope.

Definition PROTOCOL_VERSION : Z := 3.
Definition HANDSHAKE_SIZE : nat := 1536.
Definition SHA256_DIGEST_SIZE : nat := 32.
Definition DIGEST_OFFSET_INDICATOR_POS : nat := 772.

(** [GENUINE_FP_KEY], of which the first 30 bytes are used. *)
Definition GENUINE_FP_KEY : list Z :=
  [71; 101; 110; 117; 105; 110; 101; 32; 65; 100; 111; 98; 101; 32; 70; 108; 97; 115; 104; 32; 80; 108; 97; 121;
   101; 114; 32; 48; 48; 49; 240; 238; 194; 74; 128; 104; 190; 232; 46; 0; 208; 209; 2; 158; 126; 87;
   110; 236; 93; 45; 41; 128; 111; 171; 147; 184; 230; 54; 207; 235; 49; 174].

(** [System.arraycopy(src, 0, dst, pos, src.length)]. *)
Definition arraycopy (src dst : list Z) (pos : nat) : outcome (list Z) :=
  if (length dst <? pos + length src)%nat then Throw (Java IndexOutOfBoundsException)
  else Ok (take pos dst ++ src ++ drop (pos + length src) dst).

(** The loop from the last of four bytes to the first: at most 255 in each. *)
Fixpoint offset_bytes (n : nat) (remaining : Z) (bytes : list Z) : list Z :=
  match n with
  | O => bytes
  | S n =>
    if 255 <? remaining then offset_bytes n (remaining - 255) (255 :: bytes)
    else offset_bytes n (remaining - remaining) (remaining :: bytes)
  end.
Definition digestOffsetBytes (digestOffset : Z) : list Z := offset_bytes 4 digestOffset [].
Definition absoluteDigestOffset (digestOffset : Z) : nat := (Z.to_nat (digestOffset mod 728) + DIGEST_OFFSET_INDICATOR_POS + 4)%nat.

Section crypto.
(** The code of the message under the key. *)
Context (hmacSHA256 : list Z -> list Z -> list Z).

Definition calculateHmacSHA256 (input key : list Z) (length : nat) : list Z := hmacSHA256 (take length key) input.

(** [offset] is [random.nextInt(...)], [before] and [after] what the two calls
    of [nextBytes] put into arrays of a length, [millis] the clock. *)
Definition writeC1 (offset : Z) (before after : nat -> list Z) (millis : Z) : outcome (list Z) :=
  let absolute := absoluteDigestOffset offset in
  let partBeforeDigest := before absolute in
  let timeStamp := unsignedInt32ToByteArray (int (millis / 1000)) in
  let! partBeforeDigest := arraycopy timeStamp partBeforeDigest 0 in
  let! partBeforeDigest := arraycopy [128; 0; 7; 2] partBeforeDigest 4 in
  let partAfterDigest := after (HANDSHAKE_SIZE - absolute - SHA256_DIGEST_SIZE)%nat in
  let! partBeforeDigest := arraycopy (digestOffsetBytes offset) partBeforeDigest 772 in
  let tempBuffer := replicate (HANDSHAKE_SIZE - SHA256_DIGEST_SIZE) 0 in
  let! tempBuffer := arraycopy partBeforeDigest tempBuffer 0 in
  let! tempBuffer := arraycopy partAfterDigest tempBuffer (length partBeforeDigest) in
  let digest := calculateHmacSHA256 tempBuffer GENUINE_FP_KEY 30 in
  Ok (partBeforeDigest ++ digest ++ partAfterDigest).
End crypto.

Definition readS0 : M stream unit :=
  b <- read ;;
  let s0 := wrap_s 8 b in
  if s0 =? PROTOCOL_VERSION then ret tt
  else if s0 =? -1 then throw (Java (IOException "InputStream closed"))
  else throw (Java (IOException ("Invalid RTMP protocol version; expected " +:+ pretty PROTOCOL_VERSION +:+ ", got " +:+ pretty s0))).

(** The loop of [readS1] goes on at the end of the stream, without end.  A
    round that is not the last takes a byte, so that [fuel] is enough. *)
Fixpoint fill_s1 (fuel need : nat) : M stream (list Z) :=
  r <- read_array need ;;
  match r with
  | None => undef
  | Some l =>
    if (length l <? need)%nat then
      match fuel with
      | O => undef
      | S fuel => r <- fill_s1 fuel (need - length l) ;; ret (l ++ r)
      end
    else ret l
  end.
Definition readS1 : M stream (list Z) := fill_s1 HANDSHAKE_SIZE HANDSHAKE_SIZE.

(** The loops of [readS2] end there with an exception. *)
Fixpoint fill_or (message : nat -> string) (fuel need total : nat) : M stream unit :=
  r <- read_array need ;;
  match r with
  | None => throw (Java (IOException (message total)))
  | Some l =>
    if (length l <? need)%nat then
      match fuel with
      | O => undef
      | S fuel => fill_or message fuel (need - length l) (total + length l)
      end
    else ret tt
  end.
Definition readS2 : M stream unit :=
  fill_or (fun _ => "Unexpected EOF while reading S2 bytes 0-3") 4 4 0 ;;;
  fill_or (fun _ => "Unexpected EOF while reading S2 bytes 4-7") 4 4 0 ;;;
  let remainingBytes := (HANDSHAKE_SIZE - 8)%nat in
  fill_or (fun total => "Unexpected EOF while reading remainder of S2, expected " +:+ pretty remainingBytes +:+
    " bytes, but only read " +:+ pretty total +:+ " bytes") remainingBytes remainingBytes 0.

(** The stream that is read and the bytes written so far. *)
Record handshaking := mkHandshaking { hs_in : stream; hs_out : list Z }.
Definition hs_read {A} : M stream A -> M handshaking A := zoom (fun s => Some (hs_in s)) (fun i s => mkHandshaking i (hs_out s)).
Definition hs_write (bs : list Z) : M handshaking unit := modify (fun s => mkHandshaking (hs_in s) (hs_out s ++ bs)).

(** [handshake] of RtmpConnection; [writeC2] echoes what [readS1] stored. *)
Definition handshake (c1 : outcome (list Z)) : M handshaking unit :=
  hs_write [PROTOCOL_VERSION] ;;;
  c1 <- lift c1 ;; hs_write c1 ;;;
  hs_read readS0 ;;;
  s1 <- hs_read readS1 ;;
  hs_write s1 ;;;
  hs_read readS2.

(** ** Properties *)

(** *** The digest *)

Lemma arraycopy_run src dst pos : (pos + length src <= length dst)%nat ->
  exists r, arraycopy src dst pos = Ok r /\ length r = length dst /\ r = take pos dst ++ src ++ drop (pos + length src) dst.
Proof.
  intros Hl. unfold arraycopy. rewrite (proj2 (Nat.ltb_ge _ _)) by done. eexists. split_and!; [done| |done].
  rewrite !length_app, length_take, length_drop. lia.
Qed.

Lemma offset_bytes_sum d : 0 <= d < 1020 -> exists b0 b1 b2 b3, digestOffsetBytes d = [b0; b1; b2; b3] /\
  b0 + b1 + b2 + b3 = d /\ is_byte b0 /\ is_byte b1 /\ is_byte b2 /\ is_byte b3.
Proof.
  intros Hd. unfold digestOffsetBytes, offset_bytes, is_byte.
  repeat match goal with |- context [255 <? ?x] => destruct (Z.ltb_spec 255 x) end; eexists _, _, _, _; (split; [reflexivity|lia]).
Qed.

(** What a server does with C1: it adds the bytes at 772, looks for the digest
    there, and compares it with the code of the other bytes. *)
Definition c1_offset (c1 : list Z) : nat :=
  let sum := foldr Z.add 0 (take 4 (drop DIGEST_OFFSET_INDICATOR_POS c1)) in
  (Z.to_nat (sum mod 728) + DIGEST_OFFSET_INDICATOR_POS + 4)%nat.
Definition c1_digest (c1 : list Z) : list Z := take SHA256_DIGEST_SIZE (drop (c1_offset c1) c1).
Definition c1_message (c1 : list Z) : list Z := take (c1_offset c1) c1 ++ drop (c1_offset c1 + SHA256_DIGEST_SIZE) c1.

Section c1.
Context (hmac : list Z -> list Z -> list Z).
Context (Hhmac : forall key m, length (hmac key m) = SHA256_DIGEST_SIZE).

(** The parts of C1: the time, the version, the offset, the digest. *)
Lemma writeC1_parts offset before after millis : 0 <= offset < 720 ->
  (forall n, length (before n) = n) -> (forall n, length (after n) = n) ->
  exists mid mid' tail, let head := unsignedInt32ToByteArray (int (millis / 1000)) ++ [128; 0; 7; 2] ++ mid ++ digestOffsetBytes offset ++ mid' in
    length mid = 764%nat /\ length mid' = Z.to_nat offset /\ length tail = (728 - Z.to_nat offset)%nat /\
    writeC1 hmac offset before after millis = Ok (head ++ hmac (take 30 GENUINE_FP_KEY) (head ++ tail) ++ tail).
Proof.
  intros Ho Hb Ha. destruct (offset_bytes_sum offset ltac:(lia)) as (b0 & b1 & b2 & b3 & Eo & _).
  set (n := absoluteDigestOffset offset). assert (n = Z.to_nat offset + 776)%nat as Hn.
  { unfold n, absoluteDigestOffset, DIGEST_OFFSET_INDICATOR_POS. rewrite Z.mod_small by lia. lia. }
  set (time := unsignedInt32ToByteArray (int (millis / 1000))).
  exists (drop 8 (take 772 (before n))), (drop 776 (before n)), (after (1536 - n - 32)%nat). cbn zeta.
  split; [rewrite length_drop, length_take, Hb; lia|]. split; [rewrite length_drop, Hb; lia|]. split; [rewrite Ha; lia|].
  unfold writeC1. fold n. fold time. cbn zeta.
  destruct (arraycopy_run time (before n) 0) as (p1 & -> & L1 & H1); [rewrite Hb; cbn; lia|]. cbn [obind].
  destruct (arraycopy_run [128; 0; 7; 2] p1 4) as (p2 & -> & L2 & H2); [rewrite L1, Hb; cbn; lia|]. cbn [obind].
  destruct (arraycopy_run (digestOffsetBytes offset) p2 772) as (p3 & E3 & L3 & H3); [rewrite L2, L1, Hb, Eo; cbn; lia|].
  rewrite E3. cbn [obind]. unfold HANDSHAKE_SIZE, SHA256_DIGEST_SIZE. change (1536 - 32)%nat with 1504%nat.
  assert (length p3 = n) as Lp3 by (rewrite L3, L2, L1; apply Hb). set (tail := after (1536 - n - 32)%nat).
  assert (length tail = 1504 - n)%nat as Lt by (unfold tail; rewrite Ha; lia).
  destruct (arraycopy_run p3 (replicate 1504 0) 0) as (q1 & E4 & L4 & H4); [rewrite length_replicate; lia|]. rewrite E4. cbn [obind].
  rewrite length_replicate in L4.
  destruct (arraycopy_run tail q1 (length p3)) as (q2 & E5 & _ & H5); [lia|]. rewrite E5. cbn [obind].
  assert (q2 = p3 ++ tail) as ->.
  { rewrite H5, H4, take_0, app_nil_l, Nat.add_0_l, take_app_length, drop_ge; [by rewrite app_nil_r|].
    rewrite length_app, length_drop, length_replicate. lia. }
  assert (p3 = time ++ [128; 0; 7; 2] ++ drop 8 (take 772 (before n)) ++ digestOffsetBytes offset ++ drop 776 (before n)) as ->; [|done].
  assert (length time = 4)%nat as L4' by done.
  assert (p2 = time ++ [128; 0; 7; 2] ++ drop 8 (before n)) as Hp2.
  { rewrite H2, H1, take_0, app_nil_l, L4'. rewrite (take_app_le _ _ 4), take_ge by lia.
    rewrite drop_app_ge, drop_drop by (cbn; lia). by rewrite L4'. }
  assert (length (time ++ [128; 0; 7; 2]) = 8%nat) as L8 by done.
  rewrite H3, Hp2, Eo, !(app_assoc time). rewrite take_app_ge, drop_app_ge, drop_drop, L8 by (rewrite L8; cbn; lia).
  rewrite skipn_firstn_comm. by rewrite <- !app_assoc.
Qed.

(** C35: C1 passes the check of a server that knows the digest scheme.  For
    every offset that the random generator may give, C1 is 1536 bytes with the
    time and the version in front, and the place that the four bytes at 772 add
    up to holds the digest of all the other bytes, under the first 30 bytes of
    the key. *)
Theorem c1_digest_verifies offset before after millis : 0 <= offset < 720 ->
  (forall n, length (before n) = n) -> (forall n, length (after n) = n) ->
  exists c1, writeC1 hmac offset before after millis = Ok c1 /\ length c1 = HANDSHAKE_SIZE /\
    take 8 c1 = unsignedInt32ToByteArray (int (millis / 1000)) ++ [128; 0; 7; 2] /\
    c1_digest c1 = hmac (take 30 GENUINE_FP_KEY) (c1_message c1).
Proof.
  intros Ho Hb Ha. destruct (writeC1_parts offset before after millis Ho Hb Ha) as (mid & mid' & tail & Hm & Hm' & Ht & ->).
  destruct (offset_bytes_sum offset ltac:(lia)) as (b0 & b1 & b2 & b3 & Eo & Hsum & _).
  set (front := unsignedInt32ToByteArray (int (millis / 1000)) ++ [128; 0; 7; 2]). rewrite !(app_assoc _ [128; 0; 7; 2]). fold front.
  set (head := front ++ mid ++ digestOffsetBytes offset ++ mid'). set (d := hmac _ (head ++ tail)).
  assert (length front = 8%nat) as Hf by done. assert (length head = Z.to_nat offset + 776)%nat as Hh
    by (unfold head; rewrite !length_app, Hf, Hm, Hm', Eo; cbn; lia).
  assert (length d = 32%nat) as Hd by apply Hhmac.
  assert (c1_offset (head ++ d ++ tail) = length head) as Hoff.
  { rewrite Hh. unfold c1_offset, DIGEST_OFFSET_INDICATOR_POS. unfold head. rewrite <- !app_assoc, (app_assoc front), drop_app_length', Eo;
      [|rewrite length_app, Hf, Hm; done]. cbn [app take foldr]. rewrite take_0. cbn [foldr].
    replace (b0 + (b1 + (b2 + (b3 + 0)))) with offset by lia. rewrite Z.mod_small by lia. lia. }
  eexists. split_and!; [done|unfold HANDSHAKE_SIZE; rewrite !length_app, Hh, Hd, Ht; lia| |].
  - unfold head. by rewrite <- !app_assoc, take_app_length'.
  - unfold c1_digest, c1_message, SHA256_DIGEST_SIZE. rewrite Hoff, drop_app_length, take_app_length, take_app_length'  by done.
    rewrite app_assoc, drop_app_length' by (rewrite length_app; lia). done.
Qed.
End c1.

(** *** The exchange *)

Lemma fill_s1_ok fuel n s l s' : fill fuel n s = (Ok l, s') -> fill_s1 fuel n s = (Ok l, s').
Proof.
  revert n s l s'. induction fuel as [|fuel IH]; intros n s l s'; cbn [fill fill_s1]; unfold bind, ret, throw;
    destruct (read_array n s) as [[[b|]|e|] s1]; try done; destruct (length b <? n)%nat; try done.
  destruct (fill fuel (n - length b) s1) as [[r|e|] s2] eqn:E; try done. by rewrite (IH _ _ _ _ E).
Qed.
Lemma fill_s1_throw fuel n s e s' : fill fuel n s = (Throw e, s') -> fill_s1 fuel n s = (Undef, s').
Proof.
  revert n s e s'. induction fuel as [|fuel IH]; intros n s e s'; cbn [fill fill_s1]; unfold bind, ret, throw, undef;
    destruct (read_array n s) as [[[b|]|e1|] s1] eqn:E1; try done; try (by intros [= _ <-]); try (destruct (length b <? n)%nat; try done).
  - exfalso. destruct n; unfold read_array in E1; destruct (s_kind s); try done; by destruct (available _).
  - destruct (fill fuel (n - length b) s1) as [[r|e1|] s2] eqn:E; try done. intros [= _ <-]. by rewrite (IH _ _ _ _ E).
  - exfalso. destruct n; unfold read_array in E1; destruct (s_kind s); try done; by destruct (available _).
Qed.
Lemma fill_or_ok m fuel n t s l s' : fill fuel n s = (Ok l, s') -> fill_or m fuel n t s = (Ok tt, s').
Proof.
  revert n t s l s'. induction fuel as [|fuel IH]; intros n t s l s'; cbn [fill fill_or]; unfold bind, ret, throw;
    destruct (read_array n s) as [[[b|]|e|] s1]; try done; destruct (length b <? n)%nat; try done; try (by intros [= _ <-]).
  destruct (fill fuel (n - length b) s1) as [[r|e|] s2] eqn:E; try done. intros [= _ <-]. by apply (IH _ _ _ _ _ E).
Qed.

Lemma reads_s0 W E : reads W E readS0 [3] tt.
Proof. unfold readS0. change [3] with ([3] ++ []). eapply (reads_bind _ _ False); [apply reads_read|done|apply reads_ret]. Qed.
Lemma reads_s1 W s1 : length s1 = HANDSHAKE_SIZE -> reads W False readS1 s1 s1.
Proof.
  intros Hl s rest Hs Hw _. unfold readS1. rewrite <- Hl.
  destruct (reads_full W s1 s rest Hs Hw) as (s' & E & Hs'); [intros ->; done|]. exists s'. split; [by apply fill_s1_ok|done].
Qed.
Lemma reads_or W m bs : bs <> [] -> reads W False (fill_or m (length bs) (length bs) 0) bs tt.
Proof.
  intros Hne s rest Hs Hw _. destruct (reads_full W bs s rest Hs Hw) as (s' & E & Hs'); [done|]. exists s'. split; [by eapply fill_or_ok|done].
Qed.
Lemma reads_s2 W s2 : length s2 = HANDSHAKE_SIZE -> reads W False readS2 s2 tt.
Proof.
  unfold HANDSHAKE_SIZE. intros Hl. unfold readS2, HANDSHAKE_SIZE. cbn zeta.
  rewrite <- (take_drop 4 s2), <- (take_drop 4 (drop 4 s2)), drop_drop. change (4 + 4)%nat with 8%nat.
  assert (forall n (l : list Z), length l = n -> n <> 0%nat -> l <> []) as Hne by (intros n [|] <-; done).
  assert (length (take 4 s2) = 4%nat) as L1 by (rewrite length_take; lia).
  assert (length (take 4 (drop 4 s2)) = 4%nat) as L2 by (rewrite length_take, length_drop; lia).
  assert (length (drop 8 s2) = 1528%nat) as L3 by (rewrite length_drop; lia).
  eapply reads_bind; [rewrite <- L1 at 1 2; apply reads_or; by eapply Hne|done|].
  eapply reads_bind; [rewrite <- L2 at 1 2; apply reads_or; by eapply Hne|done|].
  change (1536 - 8)%nat with 1528%nat. rewrite <- L3. apply reads_or. by eapply Hne.
Qed.

Lemma hs_read_run {A} (m : M stream A) s out o s' : m s = (o, s') -> hs_read m (mkHandshaking s out) = (o, mkHandshaking s' out).
Proof. intros E. unfold hs_read, zoom. cbn. by rewrite E. Qed.

(** The handshake.  However the bytes of the server arrive, the client
    sends C0, C1 and an echo of S1, takes S0, S1 and S2 and nothing after
    them. *)
Theorem handshake_exchange c1 s1 s2 rest s : length s1 = HANDSHAKE_SIZE -> length s2 = HANDSHAKE_SIZE ->
  content s = [PROTOCOL_VERSION] ++ s1 ++ s2 ++ rest ->
  exists s', handshake (Ok c1) (mkHandshaking s []) = (Ok tt, mkHandshaking s' ([PROTOCOL_VERSION] ++ c1 ++ s1)) /\ content s' = rest.
Proof.
  intros H1 H2 Hc. destruct (reads_s0 False False s _ Hc) as (t0 & E0 & C0 & _); [done..|].
  destruct (reads_s1 False s1 H1 t0 _ C0) as (t1 & E1 & C1 & _); [done..|].
  destruct (reads_s2 False s2 H2 t1 _ C1) as (t2 & E2 & C2 & _); [done..|].
  exists t2. split; [|done]. unfold handshake. rewrite (bind_ok (hs_write _) _ _ _ _ eq_refl), lift_bind, (bind_ok (hs_write _) _ _ _ _ eq_refl).
  cbn [hs_in hs_out app]. rewrite (bind_ok _ _ _ _ _ (hs_read_run _ _ _ _ _ E0)), (bind_ok _ _ _ _ _ (hs_read_run _ _ _ _ _ E1)).
  rewrite (bind_ok (hs_write _) _ _ _ _ eq_refl). cbn [hs_in hs_out app]. apply (hs_read_run _ _ _ _ _ E2).
Qed.

(** If the server closes the connection before all of S1, the client never
    returns from the handshake: the loop of [readS1] goes on at the end of the
    stream. *)
Theorem handshake_hangs c1 s1 s : (length s1 < HANDSHAKE_SIZE)%nat -> content s = [PROTOCOL_VERSION] ++ s1 ->
  (handshake (Ok c1) (mkHandshaking s [])).1 = Undef.
Proof.
  intros H1 Hc. destruct (reads_s0 False False s _ Hc) as (t0 & E0 & C0 & _); [done..|].
  destruct (fill_short HANDSHAKE_SIZE HANDSHAKE_SIZE t0) as (t1 & E1); [rewrite C0; lia|]. apply fill_s1_throw in E1.
  unfold handshake. rewrite (bind_ok (hs_write _) _ _ _ _ eq_refl), lift_bind, (bind_ok (hs_write _) _ _ _ _ eq_refl).
  cbn [hs_in hs_out app]. rewrite (bind_ok _ _ _ _ _ (hs_read_run _ _ _ _ _ E0)).
  unfold bind at 1. by rewrite (hs_read_run readS1 _ _ _ _ E1).
Qed.

(** ** Witnesses *)

(** A code of the right length. *)
Definition sample_hmac (key m : list Z) : list Z := replicate SHA256_DIGEST_SIZE (Z.of_nat (length m) mod 256).
Lemma c1_digest_verifies_witness : exists c1, writeC1 sample_hmac 719 (fun n => replicate n 1) (fun n => replicate n 2) 1000000 = Ok c1 /\
  length c1 = HANDSHAKE_SIZE /\ take 8 c1 = unsignedInt32ToByteArray (int (1000000 / 1000)) ++ [128; 0; 7; 2] /\
  c1_digest c1 = sample_hmac (take 30 GENUINE_FP_KEY) (c1_message c1).
Proof.
  apply (c1_digest_verifies sample_hmac).
  - intros key m. apply length_replicate.
  - lia.
  - intros n. apply length_replicate.
  - intros n. apply length_replicate.
Defined.

Definition sample_server (n : nat) : stream := mkStream Buffered [[3]; replicate 1000 5; replicate n 5; replicate 1536 6; [2]].
Lemma handshake_exchange_witness : exists s', handshake (Ok [1; 2]) (mkHandshaking (sample_server 536) []) =
    (Ok tt, mkHandshaking s' ([PROTOCOL_VERSION] ++ [1; 2] ++ replicate 1536 5)) /\ content s' = [2].
Proof.
  apply (handshake_exchange [1; 2] (replicate 1536 5) (replicate 1536 6) [2] (sample_server 536)); vm_compute; reflexivity.
Defined.
Lemma handshake_hangs_witness :
  (handshake (Ok [1; 2]) (mkHandshaking (mkStream Buffered [[3]; replicate 1000 5]) [])).1 = Undef.
Proof.
  apply (handshake_hangs [1; 2] (replicate 1000 5)); [|reflexivity].
  apply Nat.ltb_lt. vm_compute. reflexivity.
Defined.
