(* ===== verification/RtmpConnection.v ===== *)
(** * simplertmp: the connection

    RtmpConnection.java, with the notifications of RtmpHandler.java, in
    src/library/src/main/java/com/github/faucamp/simplertmp.  A URL is a text
    of single bytes.  The operations that wait, [connect] and [publish], are
    each two steps, before and after waiting; a step or the handling of a
    received packet is not interrupted by another thread.  What the socket does
    is an argument: the outcome of connecting, the bytes that arrive and
    whether writing fails; of what was written when writing fails nothing is
    known, and none of it is kept. *)

From stdpp Require Import base list gmap strings pretty.
From Stdlib Require Import ZArith Lia Ascii.
From S2P Require Import Prelude Regex Java RtmpUtil Amf RtmpPacket RtmpHandshake.
Open Scope Z_scope.

(** ** State *)

(** The messages to the listener.  A rate is a quotient of integers. *)
Inductive event :=
| RtmpConnecting (msg : string)
| RtmpConnected (msg : jstring)
| RtmpVideoStreaming
| RtmpAudioStreaming
| RtmpStopped
| RtmpDisconnected
| RtmpVideoFpsChanged (num den : Z)
| RtmpVideoBitrateChanged (num den : Z)
| RtmpAudioBitrateChanged (num den : Z)
| RtmpSocketException (msg : string)
| RtmpIOException (msg : string)
| RtmpIllegalArgumentException (msg : string)
| RtmpIllegalStateException (msg : string).

(** What [connect] takes from the URL; null after [reset], but for the host and
    the port. *)
Record address := mkAddress {
  host : string;
  port : Z;
  appName : option string;
  streamName : option string;
  swfUrl : option string;
  tcUrl : option string;
  pageUrl : option string }.

(** Frames and bytes since the last rate, and when they began. *)
Record meter := mkMeter { frameCount : Z; dataLength : Z; lastTimeMillis : Z }.

Record connection := mkConnection {
  config : address;
  publishType : option string;
  socket : bool;
  srsServerInfo : jstring;
  servers : option AmfData * option AmfData * option AmfData;
  socketExceptionCause : string;
  session : option RtmpSessionInfo;
  inputStream : stream;
  outputStream : list Z;
  rxPacketHandler : bool;
  connected : bool;
  publishPermitted : bool;
  videoFrameCacheNumber : Z;
  currentStreamId : Z;
  transactionIdCounter : Z;
  videoSize : Z * Z;
  videoMeter : meter;
  audioMeter : meter;
  sessionBeginTimestamp : Z;
  events : list event }.

Definition with_config v (c : connection) : connection :=
  mkConnection v (publishType c) (socket c) (srsServerInfo c) (servers c) (socketExceptionCause c) (session c) (inputStream c)
    (outputStream c) (rxPacketHandler c) (connected c) (publishPermitted c) (videoFrameCacheNumber c) (currentStreamId c)
    (transactionIdCounter c) (videoSize c) (videoMeter c) (audioMeter c) (sessionBeginTimestamp c) (events c).
Definition with_publishType v (c : connection) : connection :=
  mkConnection (config c) v (socket c) (srsServerInfo c) (servers c) (socketExceptionCause c) (session c) (inputStream c)
    (outputStream c) (rxPacketHandler c) (connected c) (publishPermitted c) (videoFrameCacheNumber c) (currentStreamId c)
    (transactionIdCounter c) (videoSize c) (videoMeter c) (audioMeter c) (sessionBeginTimestamp c) (events c).
Definition with_socket v (c : connection) : connection :=
  mkConnection (config c) (publishType c) v (srsServerInfo c) (servers c) (socketExceptionCause c) (session c) (inputStream c)
    (outputStream c) (rxPacketHandler c) (connected c) (publishPermitted c) (videoFrameCacheNumber c) (currentStreamId c)
    (transactionIdCounter c) (videoSize c) (videoMeter c) (audioMeter c) (sessionBeginTimestamp c) (events c).
Definition with_srsServerInfo v (c : connection) : connection :=
  mkConnection (config c) (publishType c) (socket c) v (servers c) (socketExceptionCause c) (session c) (inputStream c)
    (outputStream c) (rxPacketHandler c) (connected c) (publishPermitted c) (videoFrameCacheNumber c) (currentStreamId c)
    (transactionIdCounter c) (videoSize c) (videoMeter c) (audioMeter c) (sessionBeginTimestamp c) (events c).
Definition with_servers v (c : connection) : connection :=
  mkConnection (config c) (publishType c) (socket c) (srsServerInfo c) v (socketExceptionCause c) (session c) (inputStream c)
    (outputStream c) (rxPacketHandler c) (connected c) (publishPermitted c) (videoFrameCacheNumber c) (currentStreamId c)
    (transactionIdCounter c) (videoSize c) (videoMeter c) (audioMeter c) (sessionBeginTimestamp c) (events c).
Definition with_socketExceptionCause v (c : connection) : connection :=
  mkConnection (config c) (publishType c) (socket c) (srsServerInfo c) (servers c) v (session c) (inputStream c) (outputStream c)
    (rxPacketHandler c) (connected c) (publishPermitted c) (videoFrameCacheNumber c) (currentStreamId c) (transactionIdCounter c)
    (videoSize c) (videoMeter c) (audioMeter c) (sessionBeginTimestamp c) (events c).
Definition with_session v (c : connection) : connection :=
  mkConnection (config c) (publishType c) (socket c) (srsServerInfo c) (servers c) (socketExceptionCause c) v (inputStream c)
    (outputStream c) (rxPacketHandler c) (connected c) (publishPermitted c) (videoFrameCacheNumber c) (currentStreamId c)
    (transactionIdCounter c) (videoSize c) (videoMeter c) (audioMeter c) (sessionBeginTimestamp c) (events c).
Definition with_inputStream v (c : connection) : connection :=
  mkConnection (config c) (publishType c) (socket c) (srsServerInfo c) (servers c) (socketExceptionCause c) (session c) v
    (outputStream c) (rxPacketHandler c) (connected c) (publishPermitted c) (videoFrameCacheNumber c) (currentStreamId c)
    (transactionIdCounter c) (videoSize c) (videoMeter c) (audioMeter c) (sessionBeginTimestamp c) (events c).
Definition with_outputStream v (c : connection) : connection :=
  mkConnection (config c) (publishType c) (socket c) (srsServerInfo c) (servers c) (socketExceptionCause c) (session c)
    (inputStream c) v (rxPacketHandler c) (connected c) (publishPermitted c) (videoFrameCacheNumber c) (currentStreamId c)
    (transactionIdCounter c) (videoSize c) (videoMeter c) (audioMeter c) (sessionBeginTimestamp c) (events c).
Definition with_rxPacketHandler v (c : connection) : connection :=
  mkConnection (config c) (publishType c) (socket c) (srsServerInfo c) (servers c) (socketExceptionCause c) (session c)
    (inputStream c) (outputStream c) v (connected c) (publishPermitted c) (videoFrameCacheNumber c) (currentStreamId c)
    (transactionIdCounter c) (videoSize c) (videoMeter c) (audioMeter c) (sessionBeginTimestamp c) (events c).
Definition with_connected v (c : connection) : connection :=
  mkConnection (config c) (publishType c) (socket c) (srsServerInfo c) (servers c) (socketExceptionCause c) (session c)
    (inputStream c) (outputStream c) (rxPacketHandler c) v (publishPermitted c) (videoFrameCacheNumber c) (currentStreamId c)
    (transactionIdCounter c) (videoSize c) (videoMeter c) (audioMeter c) (sessionBeginTimestamp c) (events c).
Definition with_publishPermitted v (c : connection) : connection :=
  mkConnection (config c) (publishType c) (socket c) (srsServerInfo c) (servers c) (socketExceptionCause c) (session c)
    (inputStream c) (outputStream c) (rxPacketHandler c) (connected c) v (videoFrameCacheNumber c) (currentStreamId c)
    (transactionIdCounter c) (videoSize c) (videoMeter c) (audioMeter c) (sessionBeginTimestamp c) (events c).
Definition with_videoFrameCacheNumber v (c : connection) : connection :=
  mkConnection (config c) (publishType c) (socket c) (srsServerInfo c) (servers c) (socketExceptionCause c) (session c)
    (inputStream c) (outputStream c) (rxPacketHandler c) (connected c) (publishPermitted c) v (currentStreamId c)
    (transactionIdCounter c) (videoSize c) (videoMeter c) (audioMeter c) (sessionBeginTimestamp c) (events c).
Definition with_currentStreamId v (c : connection) : connection :=
  mkConnection (config c) (publishType c) (socket c) (srsServerInfo c) (servers c) (socketExceptionCause c) (session c)
    (inputStream c) (outputStream c) (rxPacketHandler c) (connected c) (publishPermitted c) (videoFrameCacheNumber c) v
    (transactionIdCounter c) (videoSize c) (videoMeter c) (audioMeter c) (sessionBeginTimestamp c) (events c).
Definition with_transactionIdCounter v (c : connection) : connection :=
  mkConnection (config c) (publishType c) (socket c) (srsServerInfo c) (servers c) (socketExceptionCause c) (session c)
    (inputStream c) (outputStream c) (rxPacketHandler c) (connected c) (publishPermitted c) (videoFrameCacheNumber c)
    (currentStreamId c) v (videoSize c) (videoMeter c) (audioMeter c) (sessionBeginTimestamp c) (events c).
Definition with_videoSize v (c : connection) : connection :=
  mkConnection (config c) (publishType c) (socket c) (srsServerInfo c) (servers c) (socketExceptionCause c) (session c)
    (inputStream c) (outputStream c) (rxPacketHandler c) (connected c) (publishPermitted c) (videoFrameCacheNumber c)
    (currentStreamId c) (transactionIdCounter c) v (videoMeter c) (audioMeter c) (sessionBeginTimestamp c) (events c).
Definition with_videoMeter v (c : connection) : connection :=
  mkConnection (config c) (publishType c) (socket c) (srsServerInfo c) (servers c) (socketExceptionCause c) (session c)
    (inputStream c) (outputStream c) (rxPacketHandler c) (connected c) (publishPermitted c) (videoFrameCacheNumber c)
    (currentStreamId c) (transactionIdCounter c) (videoSize c) v (audioMeter c) (sessionBeginTimestamp c) (events c).
Definition with_audioMeter v (c : connection) : connection :=
  mkConnection (config c) (publishType c) (socket c) (srsServerInfo c) (servers c) (socketExceptionCause c) (session c)
    (inputStream c) (outputStream c) (rxPacketHandler c) (connected c) (publishPermitted c) (videoFrameCacheNumber c)
    (currentStreamId c) (transactionIdCounter c) (videoSize c) (videoMeter c) v (sessionBeginTimestamp c) (events c).
Definition with_sessionBeginTimestamp v (c : connection) : connection :=
  mkConnection (config c) (publishType c) (socket c) (srsServerInfo c) (servers c) (socketExceptionCause c) (session c)
    (inputStream c) (outputStream c) (rxPacketHandler c) (connected c) (publishPermitted c) (videoFrameCacheNumber c)
    (currentStreamId c) (transactionIdCounter c) (videoSize c) (videoMeter c) (audioMeter c) v (events c).
Definition with_events v (c : connection) : connection :=
  mkConnection (config c) (publishType c) (socket c) (srsServerInfo c) (servers c) (socketExceptionCause c) (session c)
    (inputStream c) (outputStream c) (rxPacketHandler c) (connected c) (publishPermitted c) (videoFrameCacheNumber c)
    (currentStreamId c) (transactionIdCounter c) (videoSize c) (videoMeter c) (audioMeter c) (sessionBeginTimestamp c) v.

Definition new_connection : connection :=
  mkConnection (mkAddress "" 0 None None None None None) None false [] (None, None, None) "" None (mkStream Buffered []) [] false
    false false 0 0 0 (0, 0) (mkMeter 0 0 0) (mkMeter 0 0 0) 0 [].

Definition notify (e : event) : M connection unit := modify (fun c => with_events (events c ++ [e]) c).
Definition on_session {A} (m : M RtmpSessionInfo A) : M connection A := fun c =>
  match session c with
  | None => (Throw (Java NullPointerException), c)
  | Some i => let '(o, i') := m i in (o, with_session (Some i') c)
  end.

(** ** Sending *)

Inductive io_result := Written | WriteFails (e : exn) | FlushFails (e : exn).

Definition exception_message (e : exn) : string :=
  match e with Java (IOException m | EOFException m | SocketException m) => m | _ => "" end.

(** The handlers of [sendRtmpPacket] for what writing throws. *)
Definition write_failed (e : exn) : M connection unit :=
  c <- get ;;
  if is_socket_exception e then
    when (negb (String.eqb (socketExceptionCause c) (exception_message e)))
      (modify (with_socketExceptionCause (exception_message e)) ;;; notify (RtmpSocketException (exception_message e)))
  else if is_io_exception e then notify (RtmpIOException (exception_message e))
  else throw e.

Definition is_content (b : packet_body) : bool := match b with Audio _ _ | Video _ _ => true | _ => false end.

(** The header is shared with [prevHeaderTx], so that this has it as it is
    after writing. *)
Definition sendRtmpPacket (now : Z) (io : io_result) (p : RtmpPacket) : M connection unit :=
  let h := packet_header p in
  let id := chunkStreamId h in
  channel <- on_session (getChunkStreamInfo now id) ;;
  c <- get ;;
  let h := if is_content (body p) then h
           else setAbsoluteTimestamp (int (markAbsoluteTimestampTx now (sessionBeginTimestamp c))) h in
  i <- on_session get ;;
  let '(o, t) := packet_writeTo now (txChunkSize i) (body p) (mkTx [] h (setPrevHeaderTx h channel)) in
  on_session (store_channel id (setPrevHeaderTx (tx_header t) (tx_info t))) ;;;
  lift o ;;;
  match io with
  | WriteFails e => write_failed e
  | _ =>
    modify (fun c => with_outputStream (outputStream c ++ written t) c) ;;;
    match body p with Command name transaction _ => on_session (addInvokedCommand transaction name) | _ => ret tt end ;;;
    match io with FlushFails e => write_failed e | _ => ret tt end
  end.

(** ** Connecting *)

(** [.] of java.util.regex. *)
Definition JavaDot : regex := One (fun c => negb (one_of ["010"%char; "013"%char; "133"%char] c)).
(** [^rtmp://([^/:]+)(:(\d+))*/([^/]+)(/(.STAR))*$]. *)
Definition rtmpUrlPattern : regex :=
  Seqs [Bol; Lit "rtmp://"; Group 1 (Plus (One (fun c => negb (one_of ["/"%char; ":"%char] c))));
        Star (Group 2 (Seq (Lit ":") (Group 3 (Plus Digit)))); Lit "/";
        Group 4 (Plus (One (fun c => negb (Ascii.eqb c "/"%char))));
        Star (Group 5 (Seq (Lit "/") (Group 6 (Star JavaDot)))); Eol].
(** [matcher.group(n)], null if it took no part. *)
Definition group_of (n : nat) (caps : captures) : option string :=
  match List.find (fun x => Nat.eqb x.1 n) caps with Some (_, s) => Some s | None => None end.

(** [Integer.parseInt] of digits. *)
Definition decimal (s : string) : Z :=
  foldl (fun n c => 10 * n + (Z.of_N (N_of_ascii c) - 48)) 0 (String.list_ascii_of_string s).
Definition parseInt (s : string) : outcome Z :=
  if decimal s <? 2 ^ 31 then Ok (decimal s) else Throw (Java NumberFormatException).

(** [url.substring(0, url.lastIndexOf('/'))]. *)
Fixpoint before_last_slash (s : string) : option string :=
  match s with
  | EmptyString => None
  | String c r =>
    match before_last_slash r with
    | Some p => Some (String c p)
    | None => if Ascii.eqb c "/"%char then Some EmptyString else None
    end
  end.

Definition invalid_url : string := "Invalid RTMP URL. Must be in format: rtmp://host[:port]/application/streamName".

(** The connecting part of [shutdown] and [reset]. *)
Definition reset : M connection unit :=
  modify (fun c =>
    with_connected false (with_publishPermitted false
      (with_config (mkAddress (host (config c)) (port (config c)) None None None None None)
        (with_publishType None (with_currentStreamId 0 (with_transactionIdCounter 0 (with_videoFrameCacheNumber 0
          (with_socketExceptionCause "" (with_servers (None, None, None) (with_socket false (with_session None c))))))))))).
(** The receiving thread has ended when [join] returns. *)
Definition shutdown : M connection unit :=
  c <- get ;;
  when (socket c) (modify (with_rxPacketHandler false) ;;; notify RtmpDisconnected) ;;;
  reset.

Definition nextTransaction : M connection Z :=
  c <- get ;;
  let n := int (transactionIdCounter c + 1) in
  put (with_transactionIdCounter n c) ;;; ret n.

(** A text that may be null.  A null one fails when it is written; here it does
    before. *)
Definition text (s : option string) : M connection AmfData :=
  s <- deref s ;; ret (newAmfString (str s)).
Definition set (key : string) (value : AmfData) (d : AmfData) : AmfData := setProperty (str key) value d.
Definition number (n : Z) : AmfData := AmfNumber (double_of_int n).

(** The argument of the connect command. *)
Definition connect_args (app swf tc page : AmfData) : AmfData :=
  set "objectEncoding" (number 0) (set "pageUrl" page (set "videoFunction" (number 1) (set "videoCodecs" (number 252)
    (set "audioCodecs" (number 3575) (set "capabilities" (number 239) (set "fpad" (AmfBoolean false) (set "tcUrl" tc
      (set "swfUrl" swf (set "flashVer" (newAmfString (str "LNX 11,2,202,233")) (set "app" app newAmfObject)))))))))).

(** [rtmpConnect] until it waits; true if it does. *)
Definition rtmpConnect_begin (now : Z) (io : io_result) : M connection bool :=
  c <- get ;;
  if connected c then notify (RtmpIllegalStateException "Already connected to RTMP server") ;;; ret false
  else
    modify (with_sessionBeginTimestamp now) ;;;
    channel <- on_session (getChunkStreamInfo now RTMP_CID_OVER_CONNECTION) ;;
    transaction <- nextTransaction ;;
    let invoke := newCommandOn (str "connect") transaction channel in
    let invoke := mkPacket (setMessageStreamId 0 (packet_header invoke)) (body invoke) in
    app <- text (appName (config c)) ;; swf <- text (swfUrl (config c)) ;;
    tc <- text (tcUrl (config c)) ;; page <- text (pageUrl (config c)) ;;
    sendRtmpPacket now io (addData (Some (connect_args app swf tc page)) invoke) ;;;
    notify (RtmpConnecting "Connecting") ;;;
    ret true.
(** What [connect] does once it was notified, or after five seconds. *)
Definition rtmpConnect_end : M connection bool :=
  c <- get ;;
  when (negb (connected c)) shutdown ;;;
  c <- get ;; ret (connected c).

(** [connect] until it waits.  [net] is the stream from the server, none if it
    cannot be reached, and [c1] the packet of the handshake. *)
Definition connect_begin (now : Z) (io : io_result) (url : string) (net : string + stream) (c1 : outcome (list Z)) : M connection bool :=
  match regex_match url rtmpUrlPattern with
  | None => notify (RtmpIllegalArgumentException invalid_url) ;;; ret false
  | Some caps =>
    c <- get ;;
    let host := default EmptyString (group_of 1 caps) in
    let a port app stream := mkAddress host port app stream (Some EmptyString) (before_last_slash url) (Some EmptyString) in
    modify (with_config (a (port (config c)) (appName (config c)) (streamName (config c)))) ;;;
    port <- match group_of 3 caps with Some s => lift (parseInt s) | None => ret 1935 end ;;
    let a := a port (group_of 4 caps) (group_of 6 caps) in
    modify (with_config a) ;;;
    match streamName a, appName a with
    | Some _, Some _ =>
      modify (with_session (Some newSessionInfo)) ;;;
      modify (with_socket true) ;;;
      throw_if (65535 <? port) (Java (IllegalArgumentException ("port out of range:" +:+ pretty port))) ;;;
      match net with
      | inl message => notify (RtmpIOException message) ;;; ret false
      | inr s =>
        match handshake c1 (mkHandshaking s []) with
        | (Ok _, hs) =>
          modify (with_inputStream (hs_in hs)) ;;; modify (with_outputStream (hs_out hs)) ;;;
          modify (with_rxPacketHandler true) ;;;
          rtmpConnect_begin now io
        | (Throw e, _) => if is_io_exception e then notify (RtmpIOException (exception_message e)) ;;; ret false else throw e
        | (Undef, _) => undef
        end
      end
    | _, _ => notify (RtmpIllegalArgumentException invalid_url) ;;; ret false
    end
  end.

(** ** Publishing *)

Definition not_connected : event := RtmpIllegalStateException "Not connected to RTMP server".
Definition no_stream : event := RtmpIllegalStateException "No current stream object exists".
Definition not_permitted : event := RtmpIllegalStateException "Not get _result(Netstream.Publish.Start)".

(** A command on the stream's chunk stream. *)
Definition stream_command (name : string) (transaction : Z) (data : list AmfData) : RtmpPacket :=
  let p := newCommand (str name) transaction in
  foldl (fun p d => addData (Some d) p) (mkPacket (setChunkStreamId RTMP_CID_OVER_STREAM (packet_header p)) (body p)) data.
Definition on_stream (id : Z) (p : RtmpPacket) : RtmpPacket := mkPacket (setMessageStreamId id (packet_header p)) (body p).

(** [createStream] until it waits, with an outcome for each packet. *)
Definition createStream_begin (now : Z) (io1 io2 io3 : io_result) : M connection bool :=
  c <- get ;;
  if negb (connected c) then notify not_connected ;;; ret false
  else if negb (currentStreamId c =? 0) then
    notify (RtmpIllegalStateException "Current stream object has existed") ;;; ret false
  else
    t1 <- nextTransaction ;;
    name <- text (streamName (config c)) ;;
    sendRtmpPacket now io1 (stream_command "releaseStream" t1 [AmfNull; name]) ;;;
    t2 <- nextTransaction ;;
    sendRtmpPacket now io2 (stream_command "FCPublish" t2 [AmfNull; name]) ;;;
    channel <- on_session (getChunkStreamInfo now RTMP_CID_OVER_CONNECTION) ;;
    t3 <- nextTransaction ;;
    sendRtmpPacket now io3 (addData (Some AmfNull) (newCommandOn (str "createStream") t3 channel)) ;;;
    ret true.
Definition createStream_end : M connection bool :=
  c <- get ;;
  (if publishPermitted c then notify (RtmpConnected (str "Connected" ++ srsServerInfo c)) else shutdown) ;;;
  c <- get ;; ret (publishPermitted c).

Definition publish_begin (now : Z) (io1 io2 io3 : io_result) (type : option string) : M connection bool :=
  match type with
  | None => notify (RtmpIllegalArgumentException "No publish type specified") ;;; ret false
  | Some t => modify (with_publishType (Some t)) ;;; createStream_begin now io1 io2 io3
  end.

Definition fmlePublish (now : Z) (io : io_result) : M connection unit :=
  c <- get ;;
  if negb (connected c) then notify not_connected
  else if currentStreamId c =? 0 then notify no_stream
  else
    name <- text (streamName (config c)) ;; type <- text (publishType c) ;;
    sendRtmpPacket now io (on_stream (currentStreamId c) (stream_command "publish" 0 [AmfNull; name; type])).

Definition metadata (width height : Z) : AmfData :=
  set "filesize" (number 0) (set "stereo" (AmfBoolean true) (set "audiosamplesize" (number 16) (set "audiosamplerate" (number 44100)
    (set "audiodatarate" (number 0) (set "framerate" (number 0) (set "videodatarate" (number 0) (set "height" (number height)
      (set "width" (number width) (set "duration" (number 0) newAmfMap))))))))).
Definition onMetaData (now : Z) (io : io_result) : M connection unit :=
  c <- get ;;
  if negb (connected c) then notify not_connected
  else if currentStreamId c =? 0 then notify no_stream
  else
    sendRtmpPacket now io (addData (Some (metadata (videoSize c).1 (videoSize c).2))
      (addData (Some (newAmfString (str "onMetaData"))) (on_stream (currentStreamId c) (newData (str "@setDataFrame"))))).

Definition closeStream (now : Z) (io : io_result) : M connection unit :=
  c <- get ;;
  if negb (connected c) then notify not_connected
  else if currentStreamId c =? 0 then notify no_stream
  else if negb (publishPermitted c) then notify not_permitted
  else
    sendRtmpPacket now io (on_stream (currentStreamId c) (stream_command "closeStream" 0 [AmfNull])) ;;;
    notify RtmpStopped.
Definition close (now : Z) (io : io_result) : M connection unit :=
  c <- get ;; when (socket c) (closeStream now io) ;;; shutdown.

(** ** Audio and video *)

(** The rates that are told to the listener every 48 frames. *)
Definition count_frame (now : Z) (size : Z) (m : meter) : meter * option (Z * Z * Z) :=
  let m := mkMeter (frameCount m) (int (dataLength m + size)) (lastTimeMillis m) in
  if frameCount m =? 0 then (mkMeter (frameCount m + 1) (dataLength m) now, None)
  else
    let n := frameCount m + 1 in
    if 48 <=? n then (mkMeter 0 0 (lastTimeMillis m), Some (n, dataLength m, now - lastTimeMillis m))
    else (mkMeter n (dataLength m) (lastTimeMillis m), None).
Definition calcVideoFpsAndBitrate (now length : Z) : M connection unit :=
  c <- get ;;
  let '(m, r) := count_frame now length (videoMeter c) in
  match r with
  | Some (n, bytes, diff) =>
    notify (RtmpVideoFpsChanged (n * 1000) diff) ;;; notify (RtmpVideoBitrateChanged (bytes * 8 * 1000) diff)
  | None => ret tt
  end ;;;
  modify (with_videoMeter m).
Definition calcAudioBitrate (now length : Z) : M connection unit :=
  c <- get ;;
  let '(m, r) := count_frame now length (audioMeter c) in
  match r with Some (_, bytes, diff) => notify (RtmpAudioBitrateChanged (bytes * 8 * 1000) diff) | None => ret tt end ;;;
  modify (with_audioMeter m).

(** The guards that the two methods share. *)
Definition refusal (data : option (list Z)) (dts : Z) (invalid : string) (c : connection) : option event :=
  if (match data with None | Some [] => true | _ => false end) || (dts <? 0) then Some (RtmpIllegalArgumentException invalid)
  else if negb (connected c) then Some not_connected
  else if currentStreamId c =? 0 then Some no_stream
  else if negb (publishPermitted c) then Some not_permitted
  else None.
Definition content_packet (p : RtmpPacket) (b : packet_body) (dts id : Z) : RtmpPacket :=
  mkPacket (setMessageStreamId id (setAbsoluteTimestamp dts (packet_header p))) b.

Definition publishAudioData (now : Z) (io : io_result) (data : option (list Z)) (size dts : Z) : M connection unit :=
  c <- get ;;
  match refusal data dts "Invalid Audio Data" c with
  | Some e => notify e
  | None =>
    sendRtmpPacket now io (content_packet newAudio (Audio data size) dts (currentStreamId c)) ;;;
    calcAudioBitrate now size ;;;
    notify RtmpAudioStreaming
  end.
Definition publishVideoData (now : Z) (io : io_result) (data : option (list Z)) (size dts : Z) : M connection unit :=
  c <- get ;;
  match refusal data dts "Invalid Video Data" c with
  | Some e => notify e
  | None =>
    sendRtmpPacket now io (content_packet newVideo (Video data size) dts (currentStreamId c)) ;;;
    modify (fun c => with_videoFrameCacheNumber (int (videoFrameCacheNumber c - 1)) c) ;;;
    calcVideoFpsAndBitrate now size ;;;
    notify RtmpVideoStreaming
  end.

(** ** Receiving *)

(** [s.contains(sub)]. *)
Fixpoint contains (s sub : jstring) : bool :=
  bool_decide (take (length sub) s = sub) || match s with [] => false | _ :: r => contains r sub end.

(** The item at a position of a command's data, and casts of it. *)
Definition item (n : nat) (data : option (list AmfData)) : outcome AmfData :=
  match data with
  | None => Throw (Java NullPointerException)
  | Some l => match l !! n with Some d => Ok d | None => Throw (Java IndexOutOfBoundsException) end
  end.
Definition to_object (d : AmfData) : outcome (list (jstring * AmfData)) :=
  match d with AmfObject ps _ | AmfMap ps _ => Ok ps | _ => Throw (Java ClassCastException) end.
Definition to_number (d : AmfData) : outcome Z :=
  match d with AmfNumber v => Ok v | _ => Throw (Java ClassCastException) end.
(** Casts of what may be null. *)
Definition cast_number (d : option AmfData) : outcome (option AmfData) :=
  match d with Some (AmfNumber _) | None => Ok d | _ => Throw (Java ClassCastException) end.
Definition cast_string (d : option AmfData) : outcome (option AmfData) :=
  match d with Some (AmfString _ _ _) | None => Ok d | _ => Throw (Java ClassCastException) end.

Definition server_text (label : string) (d : option AmfData) : jstring :=
  match d with
  | Some (AmfString v _ _) => str label ++ v
  | Some (AmfNumber v) => str label ++ str (pretty (int_of_double v))
  | _ => []
  end.
Definition onSrsServerInfo (data : option (list AmfData)) : M connection jstring :=
  d <- lift (item 1 data) ;;
  ps <- lift (to_object d) ;;
  match get_property (str "data") ps with
  | Some (AmfObject ps _ | AmfMap ps _) =>
    ip <- lift (cast_string (get_property (str "srs_server_ip") ps)) ;;
    modify (fun c => with_servers (ip, (servers c).1.2, (servers c).2) c) ;;;
    pid <- lift (cast_number (get_property (str "srs_pid") ps)) ;;
    modify (fun c => with_servers ((servers c).1.1, pid, (servers c).2) c) ;;;
    id <- lift (cast_number (get_property (str "srs_id") ps)) ;;
    modify (fun c => with_servers ((servers c).1.1, (servers c).1.2, id) c)
  | _ => ret tt
  end ;;;
  c <- get ;;
  ret (server_text " ip: " (servers c).1.1 ++ server_text " pid: " (servers c).1.2 ++ server_text " id: " (servers c).2).

Definition handleResult (now : Z) (io : io_result) (transaction : Z) (data : option (list AmfData)) : M connection unit :=
  method <- on_session (takeInvokedCommand transaction) ;;
  if bool_decide (method = Some (str "connect")) then
    info <- onSrsServerInfo data ;;
    modify (with_srsServerInfo info) ;;;
    modify (with_connected true)
  else
    m <- deref method ;;
    if contains (str "createStream") m then
      d <- lift (item 1 data) ;; v <- lift (to_number d) ;;
      modify (with_currentStreamId (int_of_double v)) ;;;
      c <- get ;;
      match streamName (config c), publishType c with Some _, Some _ => fmlePublish now io | _, _ => ret tt end
    else ret tt.
Definition handleStatus (now : Z) (io : io_result) (data : option (list AmfData)) : M connection unit :=
  d <- lift (item 1 data) ;;
  ps <- lift (to_object d) ;;
  code <- lift (cast_string (get_property (str "code") ps)) ;;
  code <- deref code ;;
  match code with
  | AmfString v _ _ =>
    when (bool_decide (v = str "NetStream.Publish.Start")) (onMetaData now io ;;; modify (with_publishPermitted true))
  | _ => ret tt
  end.
Definition handleRxInvoke (now : Z) (io : io_result) (commandName : jstring) (transaction : Z) (data : option (list AmfData))
    : M connection unit :=
  if bool_decide (commandName = str "_result") then handleResult now io transaction data
  else if bool_decide (commandName = str "onStatus") then handleStatus now io data
  else ret tt.

(** A packet in the loop of the receiving thread. *)
Definition handle_packet (now : Z) (io : io_result) (p : RtmpPacket) : M connection unit :=
  match body p with
  | Abort id =>
    channel <- on_session (getChunkStreamInfo now id) ;; on_session (store_channel id (clearStoredChunks channel))
  | UserControl type eventData =>
    t <- deref type ;;
    match t with
    | PING_REQUEST =>
      channel <- on_session (getChunkStreamInfo now RTMP_CID_PROTOCOL_CONTROL) ;;
      sendRtmpPacket now io (newPong eventData channel)
    | _ => ret tt
    end
  | WindowAckSize size => on_session (modify (setAcknowledgmentWindowSize size))
  | SetPeerBandwidth size _ =>
    on_session (modify (setAcknowledgmentWindowSize size)) ;;;
    channel <- on_session (getChunkStreamInfo now RTMP_CID_PROTOCOL_CONTROL) ;;
    sendRtmpPacket now io (newWindowAckSize size channel) ;;;
    throw_if (size <=? 0) (Java (IllegalArgumentException "negative send size"))
  | Command name transaction data => handleRxInvoke now io name transaction data
  | _ => ret tt
  end.

(** [rtmpDecoder.readPacket(inputStream)]. *)
Definition read_packet (now : Z) : M connection (option RtmpPacket) := fun c =>
  match session c with
  | None => (Throw (Java NullPointerException), c)
  | Some i =>
    let '(o, r) := readPacket now (mkRx (inputStream c) i) in
    (o, with_inputStream (rx_in r) (with_session (Some (rx_info r)) c))
  end.

(** A round of the loop; true if the thread interrupts itself. *)
Definition receive (now : Z) (io : io_result) : M connection bool :=
  try_catch
    (p <- read_packet now ;; match p with Some p => handle_packet now io p | None => ret tt end ;;; ret false)
    is_io_exception
    (fun e =>
       if is_eof_exception e then ret true
       else if is_socket_exception e then notify (RtmpSocketException (exception_message e)) ;;; ret false
       else notify (RtmpIOException (exception_message e)) ;;; ret false).

(** The loop, with the time and the outcome of writing for each round.  It ends
    at the end of the stream or by an exception that is not an IOException. *)
Fixpoint rx_loop (env : nat -> Z * io_result) (fuel n : nat) : M connection unit :=
  match fuel with
  | O => undef
  | S fuel => stop <- receive (env n).1 (env n).2 ;; if stop : bool then ret tt else rx_loop env fuel (S n)
  end.
Definition handleRxPacketLoop (env : nat -> Z * io_result) : M connection unit :=
  fun c => rx_loop env (S (length (content (inputStream c)))) 0 c.

(** ** The other methods *)

Definition setVideoResolution (width height : Z) : M connection unit := modify (with_videoSize (width, height)).
Definition getServerIpAddr (c : connection) : option jstring :=
  match (servers c).1.1 with Some (AmfString v _ _) => Some v | _ => None end.
Definition getServerPid (c : connection) : Z := match (servers c).1.2 with Some (AmfNumber v) => int_of_double v | _ => 0 end.
Definition getServerId (c : connection) : Z := match (servers c).2 with Some (AmfNumber v) => int_of_double v | _ => 0 end.
