(* ===== verification/RtmpConnectionSpec.v ===== *)
(** * Properties of the RTMP connection

    What may happen to a connection in any order of calls and received
    packets; the exchange that sets up a stream; the receiving thread. *)

From stdpp Require Import base list gmap strings.
From Stdlib Require Import ZArith Lia.
From S2P Require Import Prelude Keeps Regex Java RtmpUtil Amf AmfSpec RtmpPacket RtmpPacketSpec RtmpHandshake RtmpConnection.
Open Scope Z_scope.

(** ** Steps *)

Inductive action :=
| Connect (now : Z) (io : io_result) (url : string) (net : string + stream) (c1 : outcome (list Z))
| ConnectEnd
| Publish (now : Z) (io1 io2 io3 : io_result) (type : option string)
| PublishEnd
| Received (now : Z) (io : io_result) (p : RtmpPacket)
| PublishAudio (now : Z) (io : io_result) (data : option (list Z)) (size dts : Z)
| PublishVideo (now : Z) (io : io_result) (data : option (list Z)) (size dts : Z)
| Close (now : Z) (io : io_result)
| Resolution (width height : Z).

Definition act (a : action) : M connection unit :=
  match a with
  | Connect now io url net c1 => connect_begin now io url net c1 ;;; ret tt
  | ConnectEnd => rtmpConnect_end ;;; ret tt
  | Publish now io1 io2 io3 type => publish_begin now io1 io2 io3 type ;;; ret tt
  | PublishEnd => createStream_end ;;; ret tt
  | Received now io p => handle_packet now io p
  | PublishAudio now io data size dts => publishAudioData now io data size dts
  | PublishVideo now io data size dts => publishVideoData now io data size dts
  | Close now io => close now io
  | Resolution w h => setVideoResolution w h
  end.

(** Packets are received while there is a receiving thread. *)
Definition enabled (a : action) (c : connection) : Prop :=
  match a with Received _ _ _ => rxPacketHandler c = true | _ => True end.

(** A state that is reached, with the steps since there was last no socket. *)
Inductive reach : list action -> connection -> Prop :=
| reach_new : reach [] new_connection
| reach_step l c a : reach l c -> enabled a c ->
    reach (if socket (act a c).2 then l ++ [a] else []) (act a c).2.

(** ** What steps keep *)

(** Whether and on what the connection is set up; calling [connect] adds a
    socket and the thread. *)
Definition with_session_socket (c : connection) : Prop := socket c = true <-> session c <> None.
Record grows (c c' : connection) : Prop := {
  grows_connected : connected c' = connected c;
  grows_permitted : publishPermitted c' = publishPermitted c;
  grows_stream : currentStreamId c' = currentStreamId c;
  grows_socket : socket c = true -> socket c' = true;
  grows_thread : rxPacketHandler c' = true -> rxPacketHandler c = true \/ socket c' = true;
  grows_session : with_session_socket c -> with_session_socket c' }.
#[export] Instance grows_preorder : PreOrder grows.
Proof.
  split.
  - intros c. split; auto.
  - intros c1 c2 c3 [] []. split; try congruence; auto. intros Hr. destruct (grows_thread1 Hr) as [Hr2|]; [|auto].
    destruct (grows_thread0 Hr2); auto.
Qed.

Ltac grow := by intros; split; cbn; auto.

Lemma keeps_notify e : keeps grows (notify e).
Proof. apply keeps_modify. grow. Qed.
Lemma keeps_on_session {A} (m : M RtmpSessionInfo A) : keeps grows (on_session m).
Proof.
  intros c. unfold on_session. destruct (session c) as [i|] eqn:E; [|reflexivity]. destruct (m i) as [o i'].
  split; cbn; auto. unfold with_session_socket. cbn. rewrite E. intros [_ H2]. split; [done|]. intros _. by apply H2.
Qed.
Lemma keeps_deref {A} (o : option A) : keeps grows (deref o).
Proof. intros c. destruct o; reflexivity. Qed.
#[export] Hint Resolve keeps_notify keeps_on_session keeps_deref : keeps.
(** Changes of other fields, and the two of [connect] together. *)
Ltac keep_special ::=
  match goal with
  | |- keeps grows (bind (modify ?f) (fun _ => bind (modify (with_socket true)) ?k)) =>
    change (bind (modify f) (fun _ => bind (modify (with_socket true)) k)) with
      (bind (modify (fun c => with_socket true (f c))) k); apply keeps_bind; [apply _|..]
  | |- keeps grows (modify _) => apply keeps_modify; [grow]
  | |- keeps grows (put _) => fail
  end.

Lemma keeps_next : keeps grows nextTransaction.
Proof. unfold nextTransaction. apply keeps_get_bind. grow. Qed.
Lemma keeps_text o : keeps grows (text o).
Proof. unfold text. keep. Qed.
Lemma keeps_write_failed e : keeps grows (write_failed e).
Proof. unfold write_failed. keep. Qed.
#[export] Hint Resolve keeps_next keeps_text keeps_write_failed : keeps.
Lemma keeps_send now io p : keeps grows (sendRtmpPacket now io p).
Proof. unfold sendRtmpPacket. keep. Qed.
#[export] Hint Resolve keeps_send : keeps.
Lemma keeps_fmlePublish now io : keeps grows (fmlePublish now io).
Proof. unfold fmlePublish. keep. Qed.
Lemma keeps_onMetaData now io : keeps grows (onMetaData now io).
Proof. unfold onMetaData. keep. Qed.
Lemma keeps_closeStream now io : keeps grows (closeStream now io).
Proof. unfold closeStream. keep. Qed.
Lemma keeps_rtmpConnect now io : keeps grows (rtmpConnect_begin now io).
Proof. unfold rtmpConnect_begin. keep. Qed.
#[export] Hint Resolve keeps_fmlePublish keeps_onMetaData keeps_closeStream keeps_rtmpConnect : keeps.
Lemma keeps_createStream now io1 io2 io3 : keeps grows (createStream_begin now io1 io2 io3).
Proof. unfold createStream_begin. keep. Qed.
Lemma keeps_publishAudio now io data size dts : keeps grows (publishAudioData now io data size dts).
Proof. unfold publishAudioData, calcAudioBitrate. keep. Qed.
Lemma keeps_publishVideo now io data size dts : keeps grows (publishVideoData now io data size dts).
Proof. unfold publishVideoData, calcVideoFpsAndBitrate. keep. Qed.
Lemma keeps_publish now io1 io2 io3 type : keeps grows (publish_begin now io1 io2 io3 type).
Proof. unfold publish_begin. keep. apply keeps_createStream. Qed.

(** With a socket the thread may be started. *)
Definition grows_open (c c' : connection) : Prop := socket c = true -> grows c c'.
#[export] Instance grows_open_preorder : PreOrder grows_open.
Proof.
  split; [intros c _; reflexivity|]. intros c1 c2 c3 H1 H2 Hs. specialize (H1 Hs). etrans; [exact H1|]. apply H2, H1, Hs.
Qed.
Lemma keeps_open {A} (m : M connection A) : keeps grows m -> keeps grows_open m.
Proof. intros Hm c _. apply Hm. Qed.
Lemma keeps_opening {A} f (k : unit -> M connection A) : (forall c, grows c (f c)) -> (forall c, socket (f c) = true) ->
  keeps grows_open (k tt) -> keeps grows (bind (modify f) k).
Proof. intros Hf Hs Hk c. cbn. etrans; [apply (Hf c)|]. apply (Hk (f c)), Hs. Qed.

Lemma keeps_connect now io url net c1 : keeps grows (connect_begin now io url net c1).
Proof.
  unfold connect_begin. destruct (regex_match url rtmpUrlPattern) as [caps|]; [|keep].
  apply keeps_bind; [apply _|keep|]. intros c. cbn zeta. apply keeps_bind; [apply _|keep|]. intros _. apply keeps_bind; [apply _|keep|].
  intros p. apply keeps_bind; [apply _|keep|]. intros _. cbn [streamName appName]. destruct (group_of 6 caps); [|keep]. destruct (group_of 4 caps); [|keep].
  match goal with |- keeps grows (bind (modify ?f) (fun _ => bind (modify (with_socket true)) ?k)) =>
    change (keeps grows (bind (modify (fun c => with_socket true (f c))) k)) end.
  apply keeps_opening; [grow|done|]. apply keeps_bind; [apply _|keep|]. intros _.
  destruct net as [m|s']; [apply keeps_open; keep|]. destruct (handshake c1 _) as [[[]|e|] hs]; [|apply keeps_open; keep..].
  apply keeps_bind; [apply _|apply keeps_open; keep|]. intros _. apply keeps_bind; [apply _|apply keeps_open; keep|]. intros _.
  apply keeps_bind; [apply _| |intros _; apply keeps_open; auto with keeps]. intros c0 Hs. split; cbn; auto.
Qed.

(** ** Received packets *)

(** The answer to connect, the answer with a stream id, and the status that
    permits publishing. *)
Definition is_result (p : RtmpPacket) : Prop := exists t data, body p = Command (str "_result") t data.
Definition is_stream (id : Z) (p : RtmpPacket) : Prop := exists t data d,
  body p = Command (str "_result") t data /\ item 1 data = Ok (AmfNumber d) /\ id = int_of_double d.
Definition is_start (p : RtmpPacket) : Prop := exists t data d ps k n,
  body p = Command (str "onStatus") t data /\ item 1 data = Ok d /\ to_object d = Ok ps /\
  get_property (str "code") ps = Some (AmfString (str "NetStream.Publish.Start") k n).

Record advances (p : RtmpPacket) (c c' : connection) : Prop := {
  advances_connected : connected c' = true -> connected c = true \/ is_result p;
  advances_stream : currentStreamId c' <> 0 -> currentStreamId c' = currentStreamId c \/ is_stream (currentStreamId c') p;
  advances_permitted : publishPermitted c' = true -> publishPermitted c = true \/ is_start p;
  advances_socket : socket c = true -> socket c' = true;
  advances_thread : rxPacketHandler c' = true -> rxPacketHandler c = true \/ socket c' = true;
  advances_session : with_session_socket c -> with_session_socket c' }.
#[export] Instance advances_preorder p : PreOrder (advances p).
Proof.
  split.
  - intros c. split; auto.
  - intros c1 c2 c3 [] []. split; auto.
    + intros H. destruct (advances_connected1 H); auto.
    + intros H. destruct (advances_stream1 H) as [E|]; [|auto]. rewrite E in *. auto.
    + intros H. destruct (advances_permitted1 H); auto.
    + intros H. destruct (advances_thread1 H) as [H2|]; [|auto]. destruct (advances_thread0 H2); auto.
Qed.
Lemma keeps_advances p {A} (m : M connection A) : keeps grows m -> keeps (advances p) m.
Proof. intros Hm c. destruct (Hm c) as [E1 E2 E3 ? ? ?]. split; try done; rewrite ?E1, ?E2, ?E3; auto. Qed.

Lemma keeps_server_info p data : keeps (advances p) (onSrsServerInfo data).
Proof. apply keeps_advances. unfold onSrsServerInfo. keep. Qed.

Lemma keeps_result p now io t data : body p = Command (str "_result") t data -> keeps (advances p) (handleResult now io t data).
Proof.
  intros Hp. unfold handleResult. apply keeps_bind; [apply _|apply keeps_advances; auto with keeps|]. intros method. case_bool_decide.
  - apply keeps_bind; [apply _|apply keeps_server_info|]. intros info. apply keeps_bind; [apply _|apply keeps_advances; keep|]. intros _.
    apply keeps_modify. intros c. split; cbn; auto. intros _. right. by eexists _, _.
  - apply keeps_bind; [apply _|apply keeps_advances; auto with keeps|]. intros m. destruct (contains _ m); [|apply keeps_advances; keep].
    apply keeps_lift_bind; [apply _|]. intros d Ed. apply keeps_lift_bind; [apply _|]. intros v Ev.
    destruct d as [v'| | | | | | |]; try done. injection Ev as ->. apply keeps_bind; [apply _| |intros _; apply keeps_advances; keep].
    apply keeps_modify. intros c. split; cbn; auto. intros _. right. by eexists _, _, _.
Qed.

Lemma keeps_deref_bind {S A B} (R : S -> S -> Prop) `{!PreOrder R} (o : option A) (k : A -> M S B) :
  (forall a, o = Some a -> keeps R (k a)) -> keeps R (bind (deref o) k).
Proof. intros Hk s. destruct o as [a|]; [by apply Hk|reflexivity]. Qed.

Lemma keeps_status p now io t data : body p = Command (str "onStatus") t data -> keeps (advances p) (handleStatus now io data).
Proof.
  intros Hp. unfold handleStatus. apply keeps_lift_bind; [apply _|]. intros d Ed. apply keeps_lift_bind; [apply _|]. intros ps Eps.
  apply keeps_lift_bind; [apply _|]. intros code Ec. apply keeps_deref_bind; [apply _|]. intros code' ->.
  destruct (get_property (str "code") ps) as [[]|] eqn:Eg; cbn in Ec; try done. injection Ec as <-.
  case_bool_decide as Hv; cbn [when]; [|apply keeps_advances; keep]. apply keeps_bind; [apply _|apply keeps_advances; auto with keeps|]. intros _.
  apply keeps_modify. intros c. split; cbn; auto. intros _. right. subst value. by eexists _, _, _, _, _, _.
Qed.

Lemma keeps_handle now io p : keeps (advances p) (handle_packet now io p).
Proof.
  unfold handle_packet. destruct (body p) eqn:Ep; try (apply keeps_advances; keep; fail).
  unfold handleRxInvoke. case_bool_decide; [subst; by eapply keeps_result|].
  case_bool_decide; [subst; by eapply keeps_status|]. apply keeps_advances. keep.
Qed.

(** ** The invariant *)

Definition received_some (P : RtmpPacket -> Prop) (l : list action) : Prop :=
  Exists (fun a => match a with Received _ _ p => P p | _ => False end) l.

Record wf (l : list action) (c : connection) : Prop := {
  wf_connected : connected c = true -> received_some is_result l;
  wf_stream : currentStreamId c <> 0 -> received_some (is_stream (currentStreamId c)) l;
  wf_permitted : publishPermitted c = true -> received_some is_start l;
  wf_socket : with_session_socket c;
  wf_thread : rxPacketHandler c = true -> socket c = true;
  wf_closed : socket c = false -> connected c = false /\ currentStreamId c = 0 /\ publishPermitted c = false }.

Lemma wf_advances l c c' now io p : wf l c -> enabled (Received now io p) c -> advances p c c' -> wf (l ++ [Received now io p]) c'.
Proof.
  intros [] He []. assert (forall P, received_some P l -> received_some P (l ++ [Received now io p])) as Hl by (intros P H; apply Exists_app; by left).
  assert (forall P : RtmpPacket -> Prop, P p -> received_some P (l ++ [Received now io p])) as Hp
    by (intros P H; apply Exists_app; right; by constructor).
  split; auto.
  - intros H. destruct (advances_connected0 H); auto.
  - intros H. destruct (advances_stream0 H) as [E|]; [|auto]. rewrite E in *. auto.
  - intros H. destruct (advances_permitted0 H); auto.
  - intros H. exfalso. rewrite (advances_socket0 (wf_thread0 He)) in H. done.
Qed.
Lemma wf_grows l c c' a : wf l c -> grows c c' -> wf (l ++ [a]) c'.
Proof.
  intros [] []. assert (forall P, received_some P l -> received_some P (l ++ [a])) as Hl by (intros P H; apply Exists_app; by left).
  split; rewrite ?grows_connected0, ?grows_stream0, ?grows_permitted0; auto.
  - intros H. destruct (grows_thread0 H); auto.
  - intros H. apply wf_closed0. destruct (socket c) eqn:E; [|done]. rewrite (grows_socket0 eq_refl) in H. done.
Qed.
Lemma wf_shutdown l c : wf l c -> wf [] (shutdown c).2.
Proof.
  intros []. unfold shutdown, reset. rewrite (bind_ok get _ _ _ _ eq_refl). destruct (socket c) eqn:E; cbn.
  - split; cbn; try done.
  - split; cbn; try done.
Qed.
Lemma shutdown_run c : (shutdown c).1 = Ok tt /\ socket (shutdown c).2 = false /\ connected (shutdown c).2 = false /\ publishPermitted (shutdown c).2 = false.
Proof. unfold shutdown. rewrite (bind_ok get _ _ _ _ eq_refl). by destruct (socket c). Qed.
Lemma act_connect_end c : ((rtmpConnect_end ;;; ret tt) c).2 = if connected c then c else (shutdown c).2.
Proof.
  unfold rtmpConnect_end. unfold bind, get, when, ret. destruct (connected c) eqn:E; cbn [negb]; [done|].
  destruct (shutdown_run c) as [E1 _]. destruct (shutdown c) as [o c']. cbn in E1. by subst o.
Qed.
Lemma act_publish_end c : ((createStream_end ;;; ret tt) c).2 =
  if publishPermitted c then (notify (RtmpConnected (str "Connected" ++ srsServerInfo c)) c).2 else (shutdown c).2.
Proof.
  unfold createStream_end. unfold bind, get, ret. destruct (publishPermitted c) eqn:E; [done|].
  destruct (shutdown_run c) as [E1 _]. destruct (shutdown c) as [o c']. cbn in E1. by subst o.
Qed.
Lemma wf_weaken l c l' : wf l c -> (forall P, received_some P l -> received_some P l') -> wf l' c.
Proof. intros [] Hl. split; auto. Qed.
Lemma wf_no_socket l c : wf l c -> socket c = false -> wf [] c.
Proof. intros [] H. destruct (wf_closed0 H) as (E1 & E2 & E3). split; rewrite ?E1, ?E2, ?E3; try done. Qed.

Lemma reach_wf l c : reach l c -> wf l c.
Proof.
  induction 1 as [|l c a _ Hw He]; [by split|]. set (c' := (act a c).2).
  assert (wf (l ++ [a]) c' \/ wf [] c') as Hc'.
  { destruct a; unfold c'; cbn [act].
    - left. eapply wf_grows; [done|]. apply (keeps_bind grows); [apply keeps_connect|keep].
    - rewrite act_connect_end. destruct (connected c); [left; by eapply wf_grows|right; by eapply wf_shutdown].
    - left. eapply wf_grows; [done|]. apply (keeps_bind grows); [apply keeps_publish|keep].
    - rewrite act_publish_end. destruct (publishPermitted c); [left|right; by eapply wf_shutdown].
      eapply wf_grows; [done|]. apply keeps_notify.
    - left. eapply wf_advances; [done|done|]. apply keeps_handle.
    - left. eapply wf_grows; [done|]. apply keeps_publishAudio.
    - left. eapply wf_grows; [done|]. apply keeps_publishVideo.
    - unfold close. rewrite (bind_ok get _ _ _ _ eq_refl). destruct (socket c) eqn:Es; cbn [when]; [|right; by eapply wf_shutdown].
      pose proof (wf_grows l c _ (Close now io) Hw (keeps_closeStream now io c)) as Hw'. unfold bind.
      destruct (closeStream now io c) as [[[]|e|] c1]; [right; by eapply wf_shutdown|by left..].
    - left. eapply wf_grows; [done|]. split; cbn; auto. }
  destruct (socket c') eqn:Es; destruct Hc' as [Hc'|Hc']; [done| |by eapply wf_no_socket|done].
  apply (wf_weaken [] _ (l ++ [a])); [done|]. intros P H. by apply Exists_nil in H.
Qed.

(** ** Writing returns *)

Definition returns {S A} (m : M S A) : Prop := forall s, (m s).1 <> Undef.
Lemma returns_bind {S A B} (m : M S A) (k : A -> M S B) : returns m -> (forall a, returns (k a)) -> returns (bind m k).
Proof. intros Hm Hk s. specialize (Hm s). unfold bind. destruct (m s) as [[a|e|] s']; [apply Hk|done..]. Qed.

Lemma writeTo_returns d : writeTo d <> Undef.
Proof.
  assert (forall ps, Forall (fun p => writeTo p.2 <> Undef) ps -> write_properties writeTo ps <> Undef) as Hps.
  { induction 1 as [|[k v] ps Hv _ IH]; [done|]. cbn [write_properties]. cbn in Hv. destruct (writeTo v); [cbn [obind]|done..].
    by destruct (write_properties writeTo ps). }
  induction d as [v|v|v k n|ps n IH|ps n IH| | |l n IH] using AmfData_induction; try done; cbn [writeTo];
    specialize (Hps ps IH); by destruct (write_properties writeTo ps).
Qed.
Lemma packet_bytes_returns b : packet_bytes b <> Undef.
Proof.
  assert (forall data, writeVariableData data <> Undef) as Hv.
  { intros [l|]; [|done]. cbn [writeVariableData]. induction l as [|d l IH]; [done|]. cbn [foldr]. pose proof (writeTo_returns d).
    destruct (writeTo d); [cbn [obind]|done..]. by destruct (foldr _ _ l). }
  unfold packet_bytes. destruct b as [n|n|n|[t|] [[|v l]|]|n|n [t|]|d n|d n|name id data|type data]; cbn [writeBody obind]; try done.
  - unfold UserControl_writeBody. cbn [lookup list_lookup]. case_bool_decide; [|done]. by destruct l.
  - unfold Command_writeBody. specialize (Hv data). by destruct (writeVariableData data).
  - unfold Data_writeBody. specialize (Hv data). by destruct (writeVariableData data).
Qed.

Lemma header_returns now type : returns (header_writeTo now type).
Proof.
  intros t. unfold header_writeTo, write_delta, write_extended, mark_delta, markDeltaTimestampTx, write, change_header, bind, get, put, modify, ret, when, deref, throw.
  destruct type; cbn; repeat case_match; done.
Qed.
Lemma slice_returns l pos len : returns (write_slice l pos len).
Proof. intros t. unfold write_slice. destruct l; [|done]. by destruct (_ || _). Qed.
Lemma chunks_return now fuel l n pos len : 0 < n -> (Z.to_nat len < fuel)%nat -> returns (write_chunks now fuel l n pos len).
Proof.
  intros Hn. revert pos len. induction fuel as [|fuel IH]; intros pos len Hf; [lia|]. cbn [write_chunks].
  destruct (Z.ltb_spec n len); [|apply slice_returns]. apply returns_bind; [apply slice_returns|]. intros _.
  apply returns_bind; [apply header_returns|]. intros _. apply IH. lia.
Qed.
Lemma packet_returns now n b : 0 < n -> returns (packet_writeTo now n b).
Proof.
  intros Hn. unfold packet_writeTo. apply returns_bind; [intros t; apply packet_bytes_returns|]. intros bytes.
  apply returns_bind; [done|]. intros _. apply returns_bind; [apply header_returns|]. intros _. apply chunks_return; [done|lia].
Qed.

(** ** The receiving thread ends

    [handled m]: with a positive chunk size for sending, [m] returns or
    throws, keeps that size and does not read. *)

Definition tx_ok (c : connection) : Prop := match session c with Some i => 0 < txChunkSize i | None => True end.
Definition handled {A} (m : M connection A) : Prop := forall c, tx_ok c ->
  (m c).1 <> Undef /\ tx_ok (m c).2 /\ inputStream (m c).2 = inputStream c.

Lemma handled_bind {A B} (m : M connection A) (k : A -> M connection B) : handled m -> (forall a, handled (k a)) -> handled (bind m k).
Proof.
  intros Hm Hk c Hc. destruct (Hm c Hc) as (Hu & Ht & Hi). unfold bind. destruct (m c) as [[a|e|] c']; cbn in *; [|done..].
  destruct (Hk a c' Ht) as (? & ? & ?). split_and!; [done|done|congruence].
Qed.
Lemma handled_ret {A} (a : A) : handled (ret a).
Proof. intros c Hc. by split. Qed.
Lemma handled_throw {A} e : handled (@throw connection A e).
Proof. intros c Hc. by split. Qed.
Lemma handled_get : handled get.
Proof. intros c Hc. by split. Qed.
Lemma handled_lift {A} (o : outcome A) : o <> Undef -> handled (lift o).
Proof. intros Ho c Hc. by split. Qed.
Lemma handled_deref {A} (o : option A) : handled (deref o).
Proof. intros c Hc. by destruct o. Qed.
Lemma handled_modify f : (forall c, session (f c) = session c) -> (forall c, inputStream (f c) = inputStream c) -> handled (modify f).
Proof. intros Hs Hi c Hc. split_and!; [done| |apply Hi]. unfold tx_ok. cbn. by rewrite Hs. Qed.
Lemma handled_session {A} (m : M RtmpSessionInfo A) : (forall i, (m i).1 <> Undef /\ txChunkSize (m i).2 = txChunkSize i) ->
  handled (on_session m).
Proof.
  intros Hm c Hc. unfold on_session, tx_ok in *. destruct (session c) as [i|] eqn:E; [|cbn; by rewrite E]. destruct (Hm i) as [Hu Ht].
  destruct (m i) as [o i']. cbn in *. by rewrite Ht.
Qed.
Lemma handled_channel now id : handled (on_session (getChunkStreamInfo now id)).
Proof.
  apply handled_session. intros i. unfold getChunkStreamInfo, bind, get, put, ret. by destruct (chunkChannels i !! id).
Qed.
Lemma handled_take t : handled (on_session (takeInvokedCommand t)).
Proof. by apply handled_session. Qed.
Lemma handled_add t n : handled (on_session (addInvokedCommand t n)).
Proof. by apply handled_session. Qed.
Lemma handled_store id i : handled (on_session (store_channel id i)).
Proof. by apply handled_session. Qed.
Lemma handled_window n : handled (on_session (modify (setAcknowledgmentWindowSize n))).
Proof. by apply handled_session. Qed.
Lemma handled_notify e : handled (notify e).
Proof. by apply handled_modify. Qed.
Create HintDb handled discriminated.
#[export] Hint Resolve handled_ret handled_throw handled_get handled_deref handled_channel handled_take handled_add handled_store
  handled_window handled_notify : handled.
Ltac handle :=
  repeat match goal with
  | |- forall _, _ => intro
  | |- handled (bind _ _) => apply handled_bind
  | |- handled (when ?b _) => destruct b; cbn [when]
  | |- handled (throw_if ?b _) => destruct b; cbn [throw_if]
  | |- handled (if ?b then _ else _) => destruct b
  | |- handled (match ?x with _ => _ end) => destruct x
  | |- handled (modify _) => apply handled_modify; [done|done]
  | _ => solve [auto with handled]
  end.
Lemma handled_session_get {A} (k : RtmpSessionInfo -> M connection A) : (forall i, 0 < txChunkSize i -> handled (k i)) ->
  handled (bind (on_session get) k).
Proof.
  intros Hk c Hc. unfold bind, on_session. destruct (session c) as [i|] eqn:E; [|by split]. cbn.
  assert (tx_ok (with_session (Some i) c)) as Hc' by (unfold tx_ok in *; cbn; by rewrite E in Hc).
  exact (Hk i Hc' (with_session (Some i) c) Hc').
Qed.
Lemma handled_write_failed e : handled (write_failed e).
Proof. unfold write_failed. handle. Qed.
#[export] Hint Resolve handled_write_failed : handled.
Lemma handled_send now io p : handled (sendRtmpPacket now io p).
Proof.
  unfold sendRtmpPacket. apply handled_bind; [auto with handled|]. intros channel. apply handled_bind; [auto with handled|]. intros c.
  apply handled_session_get. intros i Hi. set (h := if is_content (body p) then _ else _).
  pose proof (packet_returns now (txChunkSize i) (body p) Hi (mkTx [] h (setPrevHeaderTx h channel))) as Hu.
  destruct (packet_writeTo _ _ _ _) as [o t]. apply handled_bind; [auto with handled|]. intros _.
  apply handled_bind; [by apply handled_lift|]. handle.
Qed.
Lemma handled_text o : handled (text o).
Proof. unfold text. handle. Qed.
#[export] Hint Resolve handled_send handled_text : handled.
Lemma handled_fmlePublish now io : handled (fmlePublish now io).
Proof. unfold fmlePublish. handle. Qed.
Lemma handled_onMetaData now io : handled (onMetaData now io).
Proof. unfold onMetaData. handle. Qed.
#[export] Hint Resolve handled_fmlePublish handled_onMetaData : handled.

Lemma item_returns n data : item n data <> Undef.
Proof. unfold item. destruct data as [l|]; [|done]. by destruct (l !! n). Qed.
Lemma to_object_returns d : to_object d <> Undef.
Proof. by destruct d. Qed.
Lemma to_number_returns d : to_number d <> Undef.
Proof. by destruct d. Qed.
Lemma cast_number_returns d : cast_number d <> Undef.
Proof. by destruct d as [[]|]. Qed.
Lemma cast_string_returns d : cast_string d <> Undef.
Proof. by destruct d as [[]|]. Qed.
#[export] Hint Resolve handled_lift item_returns to_object_returns to_number_returns cast_number_returns cast_string_returns : handled.

Lemma handled_packet now io p : handled (handle_packet now io p).
Proof.
  unfold handle_packet, handleRxInvoke, handleResult, handleStatus, onSrsServerInfo. handle.
Qed.

(** Reading keeps the chunk size for sending. *)
Definition same_tx (r r' : rx) : Prop := txChunkSize (rx_info r') = txChunkSize (rx_info r).
#[export] Instance same_tx_preorder : PreOrder same_tx.
Proof. split; [done|]. intros ? ? ? H1 H2. unfold same_tx in *. congruence. Qed.
Lemma same_tx_in {A} (m : M stream A) : keeps same_tx (on_in m).
Proof. by apply keeps_zoom_any; [apply _|]. Qed.
Lemma same_tx_channel now id : keeps same_tx (on_info (getChunkStreamInfo now id)).
Proof. intros [s i]. unfold same_tx, on_info, zoom, getChunkStreamInfo, bind, get, put, ret. cbn. by destruct (chunkChannels i !! id). Qed.
Lemma same_tx_store id i : keeps same_tx (on_info (store_channel id i)).
Proof. by intros [s i']. Qed.
Lemma same_tx_get : keeps same_tx (on_info get).
Proof. by intros [s i']. Qed.
Lemma same_tx_size n : keeps same_tx (on_info (modify (setRxChunkSize n))).
Proof. by intros [s i']. Qed.
Lemma same_tx_deref {A} (o : option A) : keeps same_tx (deref o).
Proof. intros r. by destruct o. Qed.
Lemma same_tx_from {A} src (m : M stream A) : keeps same_tx (read_from src m).
Proof. destruct src; cbn [read_from]; [apply same_tx_in|apply keeps_lift; apply _|apply same_tx_in]. Qed.
#[export] Hint Resolve same_tx_in same_tx_channel same_tx_store same_tx_get same_tx_size same_tx_deref same_tx_from : keeps.
Lemma same_tx_packet now : keeps same_tx (readPacket now).
Proof. unfold readPacket, readHeader, previous, readChunk, getStoredPacketInputStream. keep. Qed.

Lemma read_packet_cases now c : tx_ok c ->
  tx_ok (read_packet now c).2 /\ (read_packet now c).1 <> Undef /\
  ((length (content (inputStream (read_packet now c).2)) < length (content (inputStream c)))%nat \/
   exists e, (read_packet now c).1 = Throw e /\ (is_io_exception e = true -> is_eof_exception e = true)).
Proof.
  intros Hc. unfold read_packet, tx_ok in *. destruct (session c) as [i|] eqn:E; cbn; rewrite ?E; [|split_and!; [done|done|right; by eexists]].
  pose proof (same_tx_packet now (mkRx (inputStream c) i)) as Htx. unfold same_tx in Htx.
  destruct (decide (content (inputStream c) = [])) as [He|Hne].
  - rewrite (readPacket_end now (mkRx (inputStream c) i) He). cbn. split_and!; [done|done|right; by eexists].
  - destruct (readPacket_takes now (mkRx (inputStream c) i) Hne) as [Hu Hl]. destruct (readPacket now _) as [o r]. cbn in *.
    rewrite Htx. split_and!; [done|done|by left].
Qed.

Lemma receive_cases now io c : tx_ok c ->
  match receive now io c with
  | (Ok stop, c') => tx_ok c' /\ (stop = false -> (length (content (inputStream c')) < length (content (inputStream c)))%nat)
  | (Throw e, _) => is_io_exception e = false
  | (Undef, _) => False
  end.
Proof.
  intros Hc. destruct (read_packet_cases now c Hc) as (Ht & Hu & Hl). unfold receive, try_catch.
  assert (forall e c', tx_ok c' -> (length (content (inputStream c')) < length (content (inputStream c)))%nat \/ is_eof_exception e = true ->
    match (if is_eof_exception e then ret true else if is_socket_exception e then notify (RtmpSocketException (exception_message e)) ;;; ret false
       else notify (RtmpIOException (exception_message e)) ;;; ret false) c' with
    | (Ok stop, c') => tx_ok c' /\ (stop = false -> (length (content (inputStream c')) < length (content (inputStream c)))%nat)
    | (Throw e, _) => is_io_exception e = false
    | (Undef, _) => False end) as Hcatch.
  { intros e c' Hc' Hl'. destruct (is_eof_exception e) eqn:Ee; [by split|]. destruct Hl' as [Hl'|]; [|done].
    destruct (is_socket_exception e); (split; [exact Hc'|intros _; exact Hl']). }
  destruct (read_packet now c) as [[p|e|] c1] eqn:E; cbn in Ht, Hu, Hl; [| |done].
  - rewrite (bind_ok _ _ _ _ _ E). destruct Hl as [Hl|(e & ? & _)]; [|done].
    assert (handled (match p with Some p => handle_packet now io p | None => ret tt end ;;; ret false)) as Hh
      by (apply handled_bind; [destruct p; [apply handled_packet|apply handled_ret]|intros _; apply handled_ret]).
    destruct (Hh c1 Ht) as (Hu' & Ht' & Hi). destruct (bind _ _ c1) as [[stop|e|] c2]; cbn in *; [|destruct (is_io_exception e) eqn:Ei|done].
    + split; [done|]. intros _. by rewrite Hi.
    + apply Hcatch; [done|]. left. by rewrite Hi.
    + done.
  - rewrite (bind_throw _ _ _ _ _ E). destruct (is_io_exception e) eqn:Ei; [|done]. apply Hcatch; [done|].
    destruct Hl as [Hl|(e' & [= <-] & He)]; [by left|right; auto].
Qed.

Lemma rx_loop_ends env fuel n c : tx_ok c -> (length (content (inputStream c)) < fuel)%nat ->
  (rx_loop env fuel n c).1 = Ok tt \/ exists e, (rx_loop env fuel n c).1 = Throw e /\ is_io_exception e = false.
Proof.
  revert n c. induction fuel as [|fuel IH]; intros n c Hc Hf; [lia|]. cbn [rx_loop].
  pose proof (receive_cases (env n).1 (env n).2 c Hc) as Hr. destruct (receive _ _ c) as [[stop|e|] c'] eqn:E; [| |done].
  - rewrite (bind_ok _ _ _ _ _ E). destruct Hr as [Hc' Hl]. destruct stop; [by left|]. apply IH; [done|]. specialize (Hl eq_refl). lia.
  - rewrite (bind_throw _ _ _ _ _ E). right. by exists e.
Qed.

(** ** Sending succeeds *)

Lemma header_ok now type t : type = TYPE_0_FULL \/ type = TYPE_3_RELATIVE_SINGLE_BYTE -> exists t', header_writeTo now type t = (Ok tt, t').
Proof.
  intros Ht. unfold header_writeTo, write_extended, mark_delta, markDeltaTimestampTx, write, change_header, bind, get, put, modify, ret, when.
  destruct Ht as [->| ->]; cbn; case_match; by eexists.
Qed.
Lemma chunks_ok now fuel l n pos len t : 0 < n -> 0 <= pos -> 0 <= len -> pos + len <= Z.of_nat (length l) -> (Z.to_nat len < fuel)%nat ->
  exists t', write_chunks now fuel (Some l) n pos len t = (Ok tt, t').
Proof.
  intros Hn. revert pos len t. induction fuel as [|fuel IH]; intros pos len t Hp Hl Hb Hf; [lia|]. cbn [write_chunks].
  destruct (Z.ltb_spec n len).
  - destruct (write_slice_run l pos n t) as (t1 & E1 & _); [lia..|]. rewrite (bind_ok _ _ _ _ _ E1).
    destruct (header_ok now TYPE_3_RELATIVE_SINGLE_BYTE t1) as (t2 & E2); [by right|]. rewrite (bind_ok _ _ _ _ _ E2). apply IH; lia.
  - destruct (write_slice_run l pos len t) as (t1 & E1 & _); [lia..|]. by eexists.
Qed.

(** A body that can be written. *)
Definition encodes (b : packet_body) : Prop := exists l n, packet_bytes b = Ok (Some l, n) /\ 0 <= n <= Z.of_nat (length l).

Lemma packet_ok now n b t : 0 < n -> encodes b -> exists t', packet_writeTo now n b t = (Ok tt, t').
Proof.
  intros Hn (l & len & E & Hlen). unfold packet_writeTo. rewrite E, lift_bind, (bind_ok (change_header _) _ _ _ _ eq_refl). cbn [fst snd].
  match goal with |- context [bind (header_writeTo _ _) _ ?u] => destruct (header_ok now TYPE_0_FULL u) as (t1 & E1); [by left|] end.
  rewrite (bind_ok _ _ _ _ _ E1). apply chunks_ok; lia.
Qed.

Definition invoked (b : packet_body) (m : gmap Z jstring) : gmap Z jstring :=
  match b with Command name transaction _ => <[transaction := name]> m | _ => m end.

Lemma send_ok now p c i : session c = Some i -> 0 < txChunkSize i -> encodes (body p) ->
  exists i' out, sendRtmpPacket now Written p c = (Ok tt, with_session (Some i') (with_outputStream (outputStream c ++ out) c)) /\
    txChunkSize i' = txChunkSize i /\ invokedMethods i' = invoked (body p) (invokedMethods i).
Proof.
  intros Hi Hn Hp. unfold sendRtmpPacket. cbn zeta. set (id := chunkStreamId (packet_header p)).
  destruct (getChunkStreamInfo_stored now id i) as (i1 & E1 & _).
  assert (txChunkSize i1 = txChunkSize i /\ invokedMethods i1 = invokedMethods i) as [Htx Hinv].
  { revert E1. unfold getChunkStreamInfo, bind, get, put, ret. destruct (chunkChannels i !! id); by intros [= _ <-]. }
  rewrite (bind_ok (on_session _) _ c (with_session (Some i1) c) (channel now i id)) by (unfold on_session; by rewrite Hi, E1).
  rewrite (bind_ok get _ _ _ _ eq_refl). rewrite (bind_ok (on_session get) _ (with_session (Some i1) c) (with_session (Some i1) c) i1 eq_refl).
  set (h := if is_content (body p) then _ else _). rewrite Htx.
  destruct (packet_ok now (txChunkSize i) (body p) (mkTx [] h (setPrevHeaderTx h (channel now i id))) Hn Hp) as (t & ->).
  rewrite (bind_ok (on_session (store_channel _ _)) _ (with_session (Some i1) c) (with_session (Some (stored id (setPrevHeaderTx (tx_header t) (tx_info t)) i1)) c) tt eq_refl).
  rewrite lift_bind, (bind_ok (modify _) _ _ _ _ eq_refl).
  destruct (body p); cbn [invoked]; (eexists _, (written t); split_and!; [reflexivity|exact Htx|cbn; by rewrite Hinv]).
Qed.

(** What there is no array in can be written. *)
Fixpoint array_free (d : AmfData) : bool :=
  match d with
  | AmfObject ps _ | AmfMap ps _ => forallb (fun p => array_free p.2) ps
  | AmfArray _ _ => false
  | _ => true
  end.
Lemma array_free_writes d : array_free d = true -> exists bs, writeTo d = Ok bs.
Proof.
  assert (forall ps, Forall (fun p : jstring * AmfData => array_free p.2 = true -> exists bs, writeTo p.2 = Ok bs) ps ->
    forallb (fun p => array_free p.2) ps = true -> exists bs, write_properties writeTo ps = Ok bs) as Hps.
  { induction 1 as [|[k v] ps Hv _ IH]; [by eexists|]. cbn. intros [Ha Hr]%andb_true_iff. destruct (Hv Ha) as [b Eb], (IH Hr) as [r Er].
    cbn in Eb. rewrite Eb. cbn [obind]. rewrite Er. by eexists. }
  induction d as [v|v|v k n|ps n IH|ps n IH| | |l n IH] using AmfData_induction; intros Ha; [by eexists|by eexists|by eexists| | |by eexists|by eexists|done].
  - cbn in Ha. destruct (Hps ps IH Ha) as [bs E]. cbn [writeTo]. rewrite E. by eexists.
  - cbn in Ha. destruct (Hps ps IH Ha) as [bs E]. cbn [writeTo]. rewrite E. by eexists.
Qed.
Lemma variable_writes l : forallb array_free l = true -> exists bs, writeVariableData (Some l) = Ok bs.
Proof.
  induction l as [|d l IH]; [by eexists|]. cbn. intros [Hd Hl]%andb_true_iff. destruct (array_free_writes d Hd) as [b Eb], (IH Hl) as [bs Ebs].
  rewrite Eb. cbn [obind]. cbn in Ebs. rewrite Ebs. by eexists.
Qed.
Lemma encodes_bytes b bs : is_content b = false -> writeBody b = Ok bs -> encodes b.
Proof. intros Hb E. exists bs, (Z.of_nat (length bs)). split; [|lia]. unfold packet_bytes. rewrite E. by destruct b. Qed.
Lemma encodes_command name t l : forallb array_free l = true -> encodes (Command name t (Some l)).
Proof. intros Hl. destruct (variable_writes l Hl) as [bs E]. eapply encodes_bytes; [done|]. cbn [writeBody]. unfold Command_writeBody. by rewrite E. Qed.
Lemma encodes_data name l : forallb array_free l = true -> encodes (Data name (Some l)).
Proof. intros Hl. destruct (variable_writes l Hl) as [bs E]. eapply encodes_bytes; [done|]. cbn [writeBody]. unfold Data_writeBody. by rewrite E. Qed.

(** ** The exchange that sets up a stream *)

(** The fields that matter for it. *)
Record status (c : connection) (con perm : bool) (id count : Z) (name : string) (type : option string) (inv : gmap Z jstring) : Prop := {
  status_session : exists i, session c = Some i /\ 0 < txChunkSize i /\ invokedMethods i = inv;
  status_connected : connected c = con;
  status_permitted : publishPermitted c = perm;
  status_stream : currentStreamId c = id;
  status_count : transactionIdCounter c = count;
  status_name : streamName (config c) = Some name;
  status_type : publishType c = type }.

Lemma status_send now p c con perm id count name type inv : status c con perm id count name type inv -> encodes (body p) ->
  exists c', sendRtmpPacket now Written p c = (Ok tt, c') /\ status c' con perm id count name type (invoked (body p) inv) /\
    events c' = events c.
Proof.
  intros [(i & Hi & Hn & Hv) ? ? ? ? ? ?] Hp. destruct (send_ok now p c i Hi Hn Hp) as (i' & out & E & Hn' & Hv').
  eexists. split_and!; [exact E| |done]. split; cbn; try done. exists i'. split_and!; [done|lia|congruence].
Qed.
Lemma status_channel now cid c con perm id count name type inv : status c con perm id count name type inv ->
  exists ch c', on_session (getChunkStreamInfo now cid) c = (Ok ch, c') /\ status c' con perm id count name type inv /\ events c' = events c.
Proof.
  intros [(i & Hi & Hn & Hv) ? ? ? ? ? ?]. unfold on_session. rewrite Hi. destruct (getChunkStreamInfo_stored now cid i) as (i1 & E1 & _). rewrite E1.
  assert (txChunkSize i1 = txChunkSize i /\ invokedMethods i1 = invokedMethods i) as [Htx Hinv].
  { revert E1. unfold getChunkStreamInfo, bind, get, put, ret. destruct (chunkChannels i !! cid); by intros [= _ <-]. }
  eexists _, _. split_and!; [done| |done]. split; cbn; try done. exists i1. split_and!; [done|lia|congruence].
Qed.
Lemma status_next c con perm id count name type inv : status c con perm id count name type inv ->
  exists c', nextTransaction c = (Ok (int (count + 1)), c') /\ status c' con perm id (int (count + 1)) name type inv /\ events c' = events c.
Proof.
  intros [(i & Hi & Hn & Hv) ? ? ? Hc ? ?]. unfold nextTransaction. rewrite (bind_ok get _ _ _ _ eq_refl), Hc. cbn zeta.
  eexists. split_and!; [reflexivity| |done]. split; cbn; try done. by exists i.
Qed.

Lemma text_some x c : text (Some x) c = (Ok (newAmfString (str x)), c).
Proof. done. Qed.

(** Runs the next call of a computation by the lemma about it. *)
Ltac call H := let c := fresh "c" in let E := fresh "E" in let Hs := fresh "Hs" in let Hv := fresh "Hv" in
  destruct H as (c & E & Hs & Hv); [..|rewrite (bind_ok _ _ _ _ _ E); clear E].

Lemma createStream_begin_ok now c name type : status c true false 0 1 name type ∅ ->
  exists c', createStream_begin now Written Written Written c = (Ok true, c') /\ events c' = events c /\
    status c' true false 0 4 name type {[2 := str "releaseStream"; 3 := str "FCPublish"; 4 := str "createStream"]}.
Proof.
  intros Hs. unfold createStream_begin. rewrite (bind_ok get _ _ _ _ eq_refl), (status_connected _ _ _ _ _ _ _ _ Hs), (status_stream _ _ _ _ _ _ _ _ Hs), (status_name _ _ _ _ _ _ _ _ Hs).
  cbn [negb Z.eqb]. call (status_next _ _ _ _ _ _ _ _ Hs). change (int (1 + 1)) with 2 in *.
  rewrite (bind_ok _ _ _ _ _ (text_some _ _)).
  call (status_send now (stream_command "releaseStream" 2 [AmfNull; newAmfString (str name)]) _ _ _ _ _ _ _ _ Hs0); [by apply encodes_command|].
  call (status_next _ _ _ _ _ _ _ _ Hs1). change (int (2 + 1)) with 3 in *.
  call (status_send now (stream_command "FCPublish" 3 [AmfNull; newAmfString (str name)]) _ _ _ _ _ _ _ _ Hs2); [by apply encodes_command|].
  destruct (status_channel now RTMP_CID_OVER_CONNECTION _ _ _ _ _ _ _ _ Hs3) as (ch & c4 & E & Hs4 & Hv4). rewrite (bind_ok _ _ _ _ _ E). clear E.
  call (status_next _ _ _ _ _ _ _ _ Hs4). change (int (3 + 1)) with 4 in *.
  call (status_send now (addData (Some AmfNull) (newCommandOn (str "createStream") 4 ch)) _ _ _ _ _ _ _ _ Hs5); [by apply encodes_command|].
  eexists. split_and!; [reflexivity|congruence|]. exact Hs6.
Qed.

Section establish.
Context (now : Z) (url : string) (caps : captures) (app name : string) (s : stream) (hs : handshaking) (c1 : outcome (list Z)).
Context (Hurl : regex_match url rtmpUrlPattern = Some caps) (Hport : group_of 3 caps = None).
Context (Happ : group_of 4 caps = Some app) (Hname : group_of 6 caps = Some name) (Htc : is_Some (before_last_slash url)).
Context (Hhs : handshake c1 (mkHandshaking s []) = (Ok tt, hs)).

Lemma connect_ok : exists c, connect_begin now Written url (inr s) c1 new_connection = (Ok true, c) /\
  events c = [RtmpConnecting "Connecting"] /\ status c false false 0 1 name None {[1 := str "connect"]}.
Proof.
  destruct Htc as [tc Etc]. unfold connect_begin. rewrite Hurl, (bind_ok get _ _ _ _ eq_refl). cbn zeta. rewrite (bind_ok (modify _) _ _ _ _ eq_refl), Hport.
  rewrite (bind_ok (ret 1935) _ _ _ _ eq_refl), (bind_ok (modify _) _ _ _ _ eq_refl). cbn [streamName appName]. rewrite Hname, Happ.
  match goal with |- context [throw_if ?b ?e] => change (throw_if b e) with (@ret connection unit tt) end.
  rewrite !(bind_ok (modify _) _ _ _ _ eq_refl), (bind_ok (ret tt) _ _ _ _ eq_refl), Hhs, !(bind_ok (modify _) _ _ _ _ eq_refl), Etc.
  match goal with |- context [rtmpConnect_begin _ _ ?c] => set (c0 := c) end.
  assert (status (with_sessionBeginTimestamp now c0) false false 0 0 name None ∅) as Hs by (split; try done; by exists newSessionInfo).
  unfold rtmpConnect_begin. rewrite (bind_ok get _ _ _ _ eq_refl). change (connected c0) with false. cbv iota. rewrite (bind_ok (modify _) _ _ _ _ eq_refl).
  destruct (status_channel now RTMP_CID_OVER_CONNECTION _ _ _ _ _ _ _ _ Hs) as (ch & c2 & E2 & Hs2 & Hv2). rewrite (bind_ok _ _ _ _ _ E2). clear E2.
  call (status_next _ _ _ _ _ _ _ _ Hs2). change (int (0 + 1)) with 1 in *. change (appName (config c0)) with (Some app).
  change (swfUrl (config c0)) with (Some EmptyString). change (tcUrl (config c0)) with (Some tc). change (pageUrl (config c0)) with (Some EmptyString).
  rewrite !(bind_ok _ _ _ _ _ (text_some _ _)).
  match goal with |- context [sendRtmpPacket now Written ?p] => call (status_send now p _ _ _ _ _ _ _ _ Hs0); [by apply encodes_command|] end.
  eexists. split_and!; [reflexivity|cbn; rewrite Hv0, Hv, Hv2; done|]. destruct Hs1. by split.
Qed.
End establish.

(** The answer to connect: an object in the second place, with no information
    of the server that is of another type. *)
Definition good_info (ps : list (jstring * AmfData)) : Prop :=
  match get_property (str "data") ps with
  | Some (AmfObject qs _ | AmfMap qs _) =>
    (exists v, cast_string (get_property (str "srs_server_ip") qs) = Ok v) /\
    (exists v, cast_number (get_property (str "srs_pid") qs) = Ok v) /\
    (exists v, cast_number (get_property (str "srs_id") qs) = Ok v)
  | _ => True
  end.

Lemma server_info_ok data d ps c con perm id count name type inv : item 1 data = Ok d -> to_object d = Ok ps -> good_info ps ->
  status c con perm id count name type inv ->
  exists info c', onSrsServerInfo data c = (Ok info, c') /\ status c' con perm id count name type inv /\ events c' = events c.
Proof.
  intros Ed Eps Hg Hs. unfold onSrsServerInfo. rewrite Ed, lift_bind, Eps, lift_bind. unfold good_info in Hg. destruct Hs.
  destruct (get_property (str "data") ps) as [[]|]; try (eexists _, _; split_and!; [reflexivity|by split|done]);
    destruct Hg as ((ip & Eip) & (pid & Epid) & (sid & Esid)); rewrite Eip, Epid, Esid;
    (eexists _, _; split_and!; [reflexivity|by split|done]).
Qed.

Lemma result_connect_ok now p t data d ps c name : body p = Command (str "_result") t data -> item 1 data = Ok d -> to_object d = Ok ps -> good_info ps ->
  t = 1 -> status c false false 0 1 name None {[1 := str "connect"]} ->
  exists c', handle_packet now Written p c = (Ok tt, c') /\ events c' = events c /\ status c' true false 0 1 name None ∅.
Proof.
  intros Hp Ed Eps Hg -> Hs. unfold handle_packet. rewrite Hp. unfold handleRxInvoke. rewrite bool_decide_true by done. unfold handleResult.
  destruct Hs as [(i & Hi & Hn & Hv) ? ? ? ? ? ?].
  rewrite (bind_ok (on_session _) _ c (with_session (Some (with_invokedMethods (delete 1 (invokedMethods i)) i)) c) (Some (str "connect")))
    by (unfold on_session; rewrite Hi; cbn; rewrite Hv, lookup_singleton_eq; done).
  rewrite bool_decide_true by done.
  destruct (server_info_ok data d ps (with_session (Some (with_invokedMethods (delete 1 (invokedMethods i)) i)) c) false false 0 1 name None ∅) as (info & c2 & E & Hs2 & Hev);
    [done..| |].
  { split; try done. eexists. split_and!; [reflexivity|done|]. cbn. by rewrite Hv, delete_singleton_eq. }
  rewrite (bind_ok _ _ _ _ _ E). destruct Hs2. eexists. split_and!; [reflexivity|exact Hev|]. by split.
Qed.

Lemma result_stream_ok now p t data v c name type inv : body p = Command (str "_result") t data -> item 1 data = Ok (AmfNumber v) ->
  inv !! t = Some (str "createStream") -> int_of_double v <> 0 -> status c true false 0 4 name (Some type) inv ->
  exists c' inv', handle_packet now Written p c = (Ok tt, c') /\ events c' = events c /\ status c' true false (int_of_double v) 4 name (Some type) inv'.
Proof.
  intros Hp Ed Hinv Hv0 Hs. unfold handle_packet. rewrite Hp. unfold handleRxInvoke. rewrite bool_decide_true by done. unfold handleResult.
  destruct Hs as [(i & Hi & Hn & Hv) Hc Hpm ? ? Hnm Hty]. rewrite <- Hv in Hinv. set (i' := with_invokedMethods (delete t (invokedMethods i)) i).
  rewrite (bind_ok (on_session _) _ c (with_session (Some i') c) (Some (str "createStream"))) by (unfold on_session, takeInvokedCommand, bind, get, put, ret; rewrite Hi, Hinv; done).
  rewrite bool_decide_false by done. rewrite (bind_ok (deref (Some _)) _ _ _ _ eq_refl).
  assert (contains (str "createStream") (str "createStream") = true) as -> by done. rewrite Ed, lift_bind. cbn [to_number]. rewrite lift_bind.
  rewrite (bind_ok (modify _) _ _ _ _ eq_refl), (bind_ok get _ _ _ _ eq_refl). cbn [config publishType with_currentStreamId with_session]. rewrite Hnm, Hty.
  set (c2 := with_currentStreamId (int_of_double v) (with_session (Some i') c)).
  assert (status c2 true false (int_of_double v) 4 name (Some type) (delete t inv)) as Hs2.
  { split; try done. exists i'. split_and!; [done|done|]. cbn. by rewrite Hv. }
  unfold fmlePublish. rewrite (bind_ok get _ _ _ _ eq_refl), (status_connected _ _ _ _ _ _ _ _ Hs2), (status_stream _ _ _ _ _ _ _ _ Hs2), (status_name _ _ _ _ _ _ _ _ Hs2), (status_type _ _ _ _ _ _ _ _ Hs2).
  cbn [negb]. rewrite (proj2 (Z.eqb_neq _ _)) by done. rewrite !(bind_ok _ _ _ _ _ (text_some _ _)).
  match goal with |- context [sendRtmpPacket now Written ?q] => destruct (status_send now q _ _ _ _ _ _ _ _ Hs2) as (c3 & E & Hs3 & Hev);
    [by apply (encodes_command _ _ [AmfNull; newAmfString (str name); newAmfString (str type)])|] end.
  eexists _, _. split_and!; [exact E|exact Hev|exact Hs3].
Qed.

Lemma onMetaData_ok now c id count name type inv : id <> 0 -> status c true false id count name type inv ->
  exists c', onMetaData now Written c = (Ok tt, c') /\ status c' true false id count name type inv /\ events c' = events c.
Proof.
  intros Hid Hs. unfold onMetaData.
  rewrite (bind_ok get _ _ _ _ eq_refl), (status_connected _ _ _ _ _ _ _ _ Hs), (status_stream _ _ _ _ _ _ _ _ Hs). cbn [negb].
  rewrite (proj2 (Z.eqb_neq _ _)) by done.
  match goal with |- context [sendRtmpPacket now Written ?q] => destruct (status_send now q _ _ _ _ _ _ _ _ Hs) as (c3 & E & Hs3 & Hev);
    [by apply encodes_data|] end.
  by exists c3.
Qed.
Lemma start_ok now p t data d ps k n c id name type inv : body p = Command (str "onStatus") t data -> item 1 data = Ok d -> to_object d = Ok ps ->
  get_property (str "code") ps = Some (AmfString (str "NetStream.Publish.Start") k n) -> id <> 0 ->
  status c true false id 4 name (Some type) inv ->
  exists c', handle_packet now Written p c = (Ok tt, c') /\ events c' = events c /\ status c' true true id 4 name (Some type) inv.
Proof.
  intros Hp Ed Eps Ec Hid Hs. unfold handle_packet. rewrite Hp. unfold handleRxInvoke. rewrite bool_decide_false by done. rewrite bool_decide_true by done.
  unfold handleStatus. rewrite Ed, lift_bind, Eps, lift_bind, Ec. cbn [cast_string]. rewrite lift_bind, (bind_ok (deref (Some _)) _ _ _ _ eq_refl).
  rewrite bool_decide_true by done. cbn [when]. call (onMetaData_ok now c id 4 name (Some type) inv Hid Hs).
  eexists. split_and!; [reflexivity|exact Hv|]. destruct Hs0. by split.
Qed.

Lemma connect_end_ok c : connected c = true -> rtmpConnect_end c = (Ok true, c).
Proof. intros Hc. unfold rtmpConnect_end, bind, get, when, ret. rewrite Hc. cbn. by rewrite Hc. Qed.

(** The calls and packets of this exchange, with what the two calls return. *)
Definition establish (now : Z) (url : string) (s : stream) (c1 : outcome (list Z)) (r1 r2 r3 : RtmpPacket) (type : string)
    : M connection (bool * bool) :=
  connect_begin now Written url (inr s) c1 ;;; handle_packet now Written r1 ;;; b1 <- rtmpConnect_end ;;
  publish_begin now Written Written Written (Some type) ;;; handle_packet now Written r2 ;;; handle_packet now Written r3 ;;;
  b2 <- createStream_end ;; ret (b1, b2).

Definition good_url (url : string) : Prop := exists caps app name,
  regex_match url rtmpUrlPattern = Some caps /\ group_of 3 caps = None /\ group_of 4 caps = Some app /\ group_of 6 caps = Some name /\
  is_Some (before_last_slash url).
(** The answers to connect, to createStream and to publish. *)
Record good_answers (r1 r2 r3 : RtmpPacket) (id : Z) : Prop := {
  good_connect : exists data d ps, body r1 = Command (str "_result") 1 data /\ item 1 data = Ok d /\ to_object d = Ok ps /\ good_info ps;
  good_stream : exists data v, body r2 = Command (str "_result") 4 data /\ item 1 data = Ok (AmfNumber v) /\ id = int_of_double v /\
    int_of_double v <> 0;
  good_start : exists t data d ps k n, body r3 = Command (str "onStatus") t data /\ item 1 data = Ok d /\ to_object d = Ok ps /\
    get_property (str "code") ps = Some (AmfString (str "NetStream.Publish.Start") k n) }.

(** A packet that throws while it is handled ends the loop. *)
Lemma loop_throws env c p c1 c2 e : read_packet (env 0%nat).1 c = (Ok (Some p), c1) ->
  handle_packet (env 0%nat).1 (env 0%nat).2 p c1 = (Throw e, c2) -> is_io_exception e = false -> (handleRxPacketLoop env c).1 = Throw e.
Proof.
  intros E1 E2 He. unfold handleRxPacketLoop. cbn [rx_loop].
  assert (receive (env 0%nat).1 (env 0%nat).2 c = (Throw e, c2)) as E.
  { unfold receive, try_catch. rewrite (bind_ok _ _ _ _ _ E1), (bind_throw _ _ _ _ _ E2). by rewrite He. }
  by rewrite (bind_throw _ _ _ _ _ E).
Qed.

(** A user control message with an event type that is not known. *)
Definition control_header : RtmpHeader := mkHeader TYPE_0_FULL RTMP_CID_PROTOCOL_CONTROL 0 0 6 USER_CONTROL_MESSAGE 0 0.
Lemma rx_unknown_control now i n v : control_valueOf n = None -> 0 <= n < 2 ^ 16 -> 6 <= rxChunkSize i ->
  exists p i', rx_reads False (readPacket now) (full_header control_header ++ writeUnsignedInt16 n ++ writeUnsignedInt32 v) i (Some p) i' /\
    body p = UserControl None (Some [int v]).
Proof.
  intros Hn Hr Hsz. exists (mkPacket (first_header control_header) (UserControl None (Some [int v]))).
  eexists. split; [|done]. rewrite <- (app_nil_l (writeUnsignedInt16 n ++ _)).
  eapply (rx_packet False now (first_header control_header) _ _ _ (UserControl None (Some [int v]))
    i _ FromStream); [|by apply rx_chunk_stream|done|].
  - apply rx_full_header. split; split; by vm_compute.
  - eapply (rx_on_in False False). unfold readBody. cbn [messageType first_header control_header]. unfold UserControl_readBody.
    eapply (reads_bind _ _ False); [apply reads_int16|done|]. cbv beta zeta. rewrite wrap_u_small, Hn by done. rewrite bool_decide_false by done.
    apply (reads_then_ret _ _ readUnsignedInt32 (fun d => UserControl None (Some [d]))), reads_int32.
Qed.

(** Calls of two threads in an order that keeps the order of each. *)
Inductive interleaves {A} : list A -> list A -> list A -> Prop :=
| interleaves_nil : interleaves [] [] []
| interleaves_left x l1 l2 l : interleaves l1 l2 l -> interleaves (x :: l1) l2 (x :: l)
| interleaves_right x l1 l2 l : interleaves l1 l2 l -> interleaves l1 (x :: l2) (x :: l).

(** ** The properties *)



(** C17: a stream is set up.  For every URL with an application and a stream
    name and no port, and a server that completes the handshake and answers
    connect with an object, createStream with a stream number that is not 0 and
    publish with NetStream.Publish.Start, [connect] and [publish] return true;
    then the connection may publish on that stream, and the listener was told
    that it is connected and of no error. *)
Theorem stream_established now url s hs c1 r1 r2 r3 type id :
  good_url url -> handshake c1 (mkHandshaking s []) = (Ok tt, hs) -> good_answers r1 r2 r3 id ->
  exists c, establish now url s c1 r1 r2 r3 type new_connection = (Ok (true, true), c) /\
    connected c = true /\ publishPermitted c = true /\ currentStreamId c = id /\
    events c = [RtmpConnecting "Connecting"; RtmpConnected (str "Connected" ++ srsServerInfo c)].
Proof.
  intros (caps & app & name & Hurl & Hport & Happ & Hname & Htc) Hhs Ha. destruct Ha as [(d1 & e1 & ps1 & Hr1 & Ed1 & Eps1 & Hg) (d2 & v & Hr2 & Ed2 & -> & Hv)
    (t3 & d3 & e3 & ps3 & k & n & Hr3 & Ed3 & Eps3 & Hc3)]. unfold establish.
  destruct (connect_ok now url caps app name s hs c1 Hurl Hport Happ Hname Htc Hhs) as (a1 & E1 & V1 & S1). rewrite (bind_ok _ _ _ _ _ E1).
  destruct (result_connect_ok now r1 1 d1 e1 ps1 a1 name Hr1 Ed1 Eps1 Hg eq_refl S1) as (a2 & E2 & V2 & S2). rewrite (bind_ok _ _ _ _ _ E2).
  rewrite (bind_ok rtmpConnect_end _ a2 a2 true) by by apply connect_end_ok, (status_connected _ _ _ _ _ _ _ _ S2).
  assert (status (with_publishType (Some type) a2) true false 0 1 name (Some type) ∅) as S2' by (destruct S2; by split).
  destruct (createStream_begin_ok now (with_publishType (Some type) a2) name (Some type) S2') as (a3 & E3 & V3 & S3).
  rewrite (bind_ok (publish_begin _ _ _ _ _) _ a2 a3 true) by exact E3.
  match type of S3 with status _ _ _ _ _ _ _ ?m =>
    destruct (result_stream_ok now r2 4 d2 v a3 name type m Hr2 Ed2 eq_refl Hv S3) as (a4 & inv & E4 & V4 & S4) end. rewrite (bind_ok _ _ _ _ _ E4).
  destruct (start_ok now r3 t3 d3 e3 ps3 k n a4 _ name type inv Hr3 Ed3 Eps3 Hc3 Hv S4) as (a5 & E5 & V5 & S5). rewrite (bind_ok _ _ _ _ _ E5).
  destruct S5 as [_ Hcon Hperm Hid _ _ _]. eexists. split.
  { unfold createStream_end, bind, get, notify, modify, ret. rewrite Hperm. cbn. rewrite Hperm. reflexivity. }
  cbn. split_and!; [done|done|done|]. rewrite V5, V4, V3. cbn. by rewrite V2, V1.
Qed.

(** C32: the receiving thread ends when the stream does.  For every input it
    takes a round for each message and stops at the end, or at an exception
    that is not an IOException; it never goes on forever. *)
Theorem receiving_thread_ends env c : tx_ok c ->
  (handleRxPacketLoop env c).1 = Ok tt \/ exists e, (handleRxPacketLoop env c).1 = Throw e /\ is_io_exception e = false.
Proof. intros Hc. apply rx_loop_ends; [done|lia]. Qed.

(** Two kinds of message that a server may send end the receiving thread
    with a NullPointerException, which is not caught: a user control message
    with an event type that the enumeration does not have, and a result for a
    transaction that is not outstanding. *)
Theorem unknown_messages_end_receiving env c i : session c = Some i ->
  (forall n v seg, control_valueOf n = None -> 0 <= n < 2 ^ 16 -> 6 <= rxChunkSize i -> s_kind (inputStream c) = Buffered ->
     content (inputStream c) = (full_header control_header ++ writeUnsignedInt16 n ++ writeUnsignedInt32 v) ++ seg ->
     (handleRxPacketLoop env c).1 = Throw (Java NullPointerException)) /\
  (forall now io p t data, body p = Command (str "_result") t data -> invokedMethods i !! t = None ->
     (handle_packet now io p c).1 = Throw (Java NullPointerException)).
Proof.
  intros Hi. split.
  - intros n v seg Hn Hr Hsz Hk Hc. destruct (rx_unknown_control (env 0%nat).1 i n v Hn Hr Hsz) as (p & i' & Hrx & Hp).
    destruct (Hrx _ _ Hc Hk ltac:(done)) as (s' & E & _).
    eapply (loop_throws env c p); [unfold read_packet; rewrite Hi, E; reflexivity| |done]. unfold handle_packet. rewrite Hp. reflexivity.
  - intros now io p t data Hp Ht. unfold handle_packet. rewrite Hp. unfold handleRxInvoke. rewrite bool_decide_true by done. unfold handleResult.
    rewrite (bind_ok (on_session _) _ c (with_session (Some (with_invokedMethods (delete t (invokedMethods i)) i)) c) None)
      by (unfold on_session, takeInvokedCommand, bind, get, put, ret; by rewrite Hi, Ht).
    done.
Qed.

(** Packets are not written under a lock.  If the reply to a ping is
    written between the header and the body of an audio packet, the peer takes
    the reply for the beginning of the audio data. *)
Theorem unsynchronised_writes_corrupt : exists l,
  let audio := tx_out (packet_writeTo 0 128 (Audio (Some (replicate 100 7)) 100) (mkTx [] (packet_header newAudio) (newChunkStreamInfo 0))).2 in
  let pong := newPong (Some [1234]) (newChunkStreamInfo 0) in
  let reply := tx_out (packet_writeTo 0 128 (body pong) (mkTx [] (packet_header pong) (newChunkStreamInfo 0))).2 in
  interleaves audio reply l /\
  bodies (readPackets [0] (mkRx (mkStream Buffered [concat l]) newSessionInfo)).1 =
    [Some (Audio (Some (concat reply ++ replicate (100 - length (concat reply)) 7)) 0)].
Proof.
  eexists. cbn zeta. split.
  - vm_compute (packet_writeTo _ _ _ _). cbn [snd tx_out]. do 5 apply interleaves_left. do 6 apply interleaves_right. apply interleaves_left. constructor.
  - by vm_compute.
Qed.

(** ** Witnesses *)

Definition sample_url : string := "rtmp://example.com/live/show".
Definition sample_answer (name : string) (t : Z) (d : AmfData) : RtmpPacket := addData (Some d) (addData None (newCommand (str name) t)).
Definition sample_connected : RtmpPacket :=
  sample_answer "_result" 1 (set "data" (set "srs_pid" (number 1234) (set "srs_server_ip" (newAmfString (str "10.0.0.1")) newAmfObject)) newAmfObject).
Definition sample_created : RtmpPacket := sample_answer "_result" 4 (number 1).
Definition sample_started : RtmpPacket := sample_answer "onStatus" 0 (set "code" (newAmfString (str "NetStream.Publish.Start")) newAmfObject).

Lemma sample_good_url : good_url sample_url.
Proof. eexists _, "live", "show". split; [vm_compute; reflexivity|]. split_and!; [done..|by eexists]. Qed.
Lemma sample_good_answers : good_answers sample_connected sample_created sample_started 1.
Proof.
  split.
  - eexists _, _, _. split_and!; [reflexivity|reflexivity|reflexivity|]. vm_compute. split_and!; by eexists.
  - eexists _, _. split_and!; [reflexivity|reflexivity|vm_compute; reflexivity|by vm_compute].
  - eexists _, _, _, _, _, _. split_and!; [reflexivity|reflexivity|reflexivity|vm_compute; reflexivity].
Qed.
Lemma sample_handshake : exists hs, handshake (Ok [1; 2]) (mkHandshaking (sample_server 536) []) = (Ok tt, hs).
Proof. eexists. vm_compute. reflexivity. Qed.

Lemma stream_established_witness : exists c,
  establish 0 sample_url (sample_server 536) (Ok [1; 2]) sample_connected sample_created sample_started "live" new_connection = (Ok (true, true), c) /\
  connected c = true /\ publishPermitted c = true /\ currentStreamId c = 1 /\
  events c = [RtmpConnecting "Connecting"; RtmpConnected (str "Connected" ++ srsServerInfo c)].
Proof.
  destruct sample_handshake as [hs Hhs].
  exact (stream_established 0 sample_url (sample_server 536) hs (Ok [1; 2]) sample_connected sample_created sample_started "live" 1
    sample_good_url Hhs sample_good_answers).
Defined.

(** The same as steps. *)
Definition sample_actions : list action :=
  [Connect 0 Written sample_url (inr (sample_server 536)) (Ok [1; 2]); Received 1 Written sample_connected; ConnectEnd;
   Publish 2 Written Written Written (Some "live"); Received 3 Written sample_created; Received 4 Written sample_started; PublishEnd].
Definition sample_state : connection := foldl (fun c a => (act a c).2) new_connection sample_actions.
Fixpoint keeps_socket (l : list action) (c : connection) : bool :=
  match l with
  | [] => true
  | a :: r => match a with Received _ _ _ => rxPacketHandler c | _ => true end && (socket (act a c).2 && keeps_socket r (act a c).2)
  end.
Lemma reach_run l acc c : reach acc c -> keeps_socket l c = true -> reach (acc ++ l) (foldl (fun c a => (act a c).2) c l).
Proof.
  revert acc c. induction l as [|a l IH]; intros acc c Hr Hk; [by rewrite app_nil_r|]. cbn [keeps_socket] in Hk.
  apply andb_true_iff in Hk as [He [Hs Hk]%andb_true_iff]. assert (enabled a c) as Hen by by destruct a.
  pose proof (reach_step acc c a Hr Hen) as H. rewrite Hs in H. cbn [foldl].
  replace (acc ++ a :: l) with ((acc ++ [a]) ++ l) by by rewrite <- app_assoc. by apply IH.
Qed.
Lemma sample_reached : reach sample_actions sample_state.
Proof. apply (reach_run sample_actions [] new_connection reach_new). vm_compute. reflexivity. Qed.

Lemma receiving_thread_ends_witness :
  (handleRxPacketLoop (fun _ => (0, Written)) sample_state).1 = Ok tt \/
  exists e, (handleRxPacketLoop (fun _ => (0, Written)) sample_state).1 = Throw e /\ is_io_exception e = false.
Proof. apply (receiving_thread_ends (fun _ => (0, Written)) sample_state). vm_compute. reflexivity. Defined.
Lemma unknown_messages_end_receiving_witness :
  (handle_packet 0 Written sample_created (with_session (Some newSessionInfo) new_connection)).1 = Throw (Java NullPointerException).
Proof.
  destruct (unknown_messages_end_receiving (fun _ => (0, Written)) (with_session (Some newSessionInfo) new_connection) newSessionInfo eq_refl) as [_ H].
  apply (H 0 Written sample_created 4 (Some [AmfNull; number 1])); reflexivity.
Defined.
