(* ===== verification/Allocator.v ===== *)
(** * yasea: SrsAllocator

    The pool of byte arrays from which the FLV muxer takes its tags, of
    src/library/src/main/java/net/ossrs/yasea/SrsAllocator.java.  Allocations
    are objects that the pool, the queue and the sender share, so an allocator
    has the heap of those it made, and a reference is a position in it. *)

From stdpp Require Import base list.
From Stdlib Require Import ZArith Lia.
From S2P Require Import Prelude Keeps Java.
Open Scope Z_scope.

(** ** Allocations *)

Record Allocation := mkAllocation { a_data : list Z; a_size : Z }.

Definition newAllocation (size : Z) : outcome Allocation :=
  if size <? 0 then Throw (Java NegativeArraySizeException) else Ok (mkAllocation (replicate (Z.to_nat size) 0) 0).
Definition appendOffset (offset : Z) (a : Allocation) : Allocation := mkAllocation (a_data a) (int (a_size a + offset)).
Definition clear (a : Allocation) : Allocation := mkAllocation (a_data a) 0.

(** [data[i] = b]. *)
Definition store (i b : Z) (data : list Z) : outcome (list Z) :=
  if (0 <=? i) && (i <? Z.of_nat (length data)) then Ok (<[Z.to_nat i := b]> data) else Throw (Java IndexOutOfBoundsException).
Definition put_byte (b : Z) (a : Allocation) : outcome Allocation :=
  let! data := store (a_size a) b (a_data a) in Ok (mkAllocation data (int (a_size a + 1))).
Definition put_byte_at (b pos : Z) (a : Allocation) : outcome Allocation :=
  let! data := store pos b (a_data a) in
  let pos := int (pos + 1) in Ok (mkAllocation data (if a_size a <? pos then pos else a_size a)).
Definition put_short (s : Z) (a : Allocation) : outcome Allocation :=
  let! a := put_byte (low_byte s) a in put_byte (low_byte (ushr s 8)) a.
Definition put_int (i : Z) (a : Allocation) : outcome Allocation :=
  let! a := put_byte (low_byte i) a in let! a := put_byte (low_byte (ushr i 8)) a in
  let! a := put_byte (low_byte (ushr i 16)) a in put_byte (low_byte (ushr i 24)) a.

(** The elements from [i] on replaced by [bs]: what copying into an array
    does, after the check of the range. *)
Definition overwrite (i : nat) (bs data : list Z) : list Z := take i data ++ bs ++ drop (i + length bs) data.
Definition put_array (bs : list Z) (a : Allocation) : outcome Allocation :=
  let n := Z.of_nat (length bs) in
  if (0 <=? a_size a) && (a_size a + n <=? Z.of_nat (length (a_data a))) then
    Ok (mkAllocation (overwrite (Z.to_nat (a_size a)) bs (a_data a)) (int (a_size a + n)))
  else Throw (Java IndexOutOfBoundsException).

(** The bytes that [array()] and [size()] give to a reader. *)
Definition used (a : Allocation) : list Z := take (Z.to_nat (a_size a)) (a_data a).

(** ** The allocator *)

Record SrsAllocator := mkAllocator {
  individualAllocationSize : Z;
  availableSentinel : nat;
  availableAllocations : list (option nat);
  heap : list Allocation }.

Definition newSrsAllocator (individualAllocationSize : Z) (initialAllocationCount : nat) : outcome SrsAllocator :=
  let availableSentinel := (initialAllocationCount + 10)%nat in
  let! a := newAllocation individualAllocationSize in
  Ok (mkAllocator individualAllocationSize availableSentinel (Some <$> seq 0 availableSentinel) (replicate availableSentinel a)).

Definition with_available l (s : SrsAllocator) : SrsAllocator :=
  mkAllocator (individualAllocationSize s) (availableSentinel s) l (heap s).
Definition with_heap h (s : SrsAllocator) : SrsAllocator :=
  mkAllocator (individualAllocationSize s) (availableSentinel s) (availableAllocations s) h.

(** The first of [n] positions from [i] whose allocation passes the test. *)
Fixpoint search_available (test : Z -> bool) (s : SrsAllocator) (i n : nat) : outcome (option nat) :=
  match n with
  | O => Ok None
  | S n =>
    match availableAllocations s !! i with
    | None => Throw (Java IndexOutOfBoundsException)
    | Some None => Throw (Java NullPointerException)
    | Some (Some r) =>
      match heap s !! r with
      | None => Undef
      | Some a => if test (a_size a) then Ok (Some i) else search_available test s (S i) n
      end
    end
  end.

Definition allocate (size : Z) : M SrsAllocator nat :=
  s <- get ;;
  found <- lift (search_available (fun n => size <=? n) s 0 (availableSentinel s)) ;;
  match found with
  | Some i =>
    match availableAllocations s !! i with
    | Some (Some r) => put (with_available (<[i := None]> (availableAllocations s)) s) ;;; ret r
    | _ => undef
    end
  | None =>
    a <- lift (newAllocation (if individualAllocationSize s <? size then size else individualAllocationSize s)) ;;
    put (with_heap (heap s ++ [a]) s) ;;; ret (length (heap s))
  end.

Definition release (r : nat) : M SrsAllocator unit :=
  modify (fun s => with_heap (alter clear r (heap s)) s) ;;;
  s <- get ;;
  found <- lift (search_available (fun n => n =? 0) s 0 (availableSentinel s)) ;;
  match found with
  | Some i => put (with_available (<[i := Some r]> (availableAllocations s)) s)
  | None =>
    let l := availableAllocations s in
    let l := if (length l <? availableSentinel s + 1)%nat then l ++ replicate (length l) None else l in
    put (mkAllocator (individualAllocationSize s) (availableSentinel s + 1) (<[availableSentinel s := Some r]> l) (heap s))
  end.

(** ** Properties

    What is available has been cleared, so that it has size zero; a request is
    for more, and is never met from the pool. *)

Definition cleared (s : SrsAllocator) (r : option nat) : Prop :=
  exists i a, r = Some i /\ heap s !! i = Some a /\ a_size a = 0.
Record wf_allocator (s : SrsAllocator) : Prop := {
  wf_positive : (0 < availableSentinel s)%nat;
  wf_length : length (availableAllocations s) = availableSentinel s;
  wf_cleared : Forall (cleared s) (availableAllocations s);
  wf_individual : 0 <= individualAllocationSize s }.

Lemma new_allocator_wf size n : 0 <= size -> exists s,
  newSrsAllocator size n = Ok s /\ wf_allocator s /\ individualAllocationSize s = size.
Proof.
  intros Hs. unfold newSrsAllocator, newAllocation. destruct (Z.ltb_spec size 0); [lia|]. eexists. split_and!; [done| |done].
  split; cbn -[replicate seq].
  - lia.
  - by rewrite length_fmap, length_seq.
  - apply Forall_forall. intros r (i & -> & Hi)%list_elem_of_fmap. apply elem_of_seq in Hi.
    eexists _, _. split; [done|]. cbn -[replicate]. rewrite lookup_replicate_2 by lia. done.
  - done.
Qed.

Lemma search_none (test : Z -> bool) s : wf_allocator s -> test 0 = false ->
  forall n i, (i + n <= availableSentinel s)%nat -> search_available test s i n = Ok None.
Proof.
  intros [_ Hl Hc _] Ht. induction n as [|n IH]; intros i Hi; [done|]. cbn.
  destruct (lookup_lt_is_Some_2 (availableAllocations s) i) as [r Hr]; [lia|].
  rewrite Hr. destruct (proj1 (Forall_lookup _ _) Hc _ _ Hr) as (j & a & -> & -> & ->). rewrite Ht. apply IH. lia.
Qed.

(** The allocation a request of a positive size gets. *)
Definition fresh_size (size : Z) (s : SrsAllocator) : Z := Z.max size (individualAllocationSize s).
Definition fresh (size : Z) (s : SrsAllocator) : Allocation := mkAllocation (replicate (Z.to_nat (fresh_size size s)) 0) 0.

Lemma allocate_run size s : wf_allocator s -> 0 < size ->
  allocate size s = (Ok (length (heap s)), with_heap (heap s ++ [fresh size s]) s).
Proof.
  intros Hw Hs. unfold allocate, bind, get, lift. rewrite (search_none _ _ Hw) by (first [lia|destruct (Z.leb_spec size 0); [lia|done]]).
  unfold newAllocation, fresh, fresh_size. destruct Hw as [_ _ _ Hi].
  destruct (Z.ltb_spec (individualAllocationSize s) size).
  - rewrite Z.max_l by lia. destruct (Z.ltb_spec size 0); [lia|done].
  - rewrite Z.max_r by lia. destruct (Z.ltb_spec (individualAllocationSize s) 0); [lia|done].
Qed.

Lemma cleared_clear s r o : (r < length (heap s))%nat -> cleared s o -> cleared (with_heap (alter clear r (heap s)) s) o.
Proof.
  intros Hr (i & a & -> & Hi & Ha). destruct (decide (i = r)) as [->|Hn].
  - exists r, (clear a). cbn. by rewrite list_lookup_alter_eq, Hi.
  - exists i, a. cbn. by rewrite list_lookup_alter_ne.
Qed.

Lemma release_run r s : wf_allocator s -> (r < length (heap s))%nat ->
  release r s = (Ok tt, with_available (<[0%nat := Some r]> (availableAllocations s)) (with_heap (alter clear r (heap s)) s)).
Proof.
  intros [Hp Hl Hc _] Hr. unfold release, modify, bind, get, lift. cbn [availableSentinel with_heap].
  destruct (availableAllocations s) as [|o l] eqn:E; [cbn in Hl; lia|].
  destruct (cleared_clear s r o Hr) as (i & a & -> & Hi & Ha); [by inversion Hc|].
  destruct (availableSentinel s) as [|n] eqn:En; [lia|]. cbn [search_available availableAllocations with_heap]. rewrite E. cbn [lookup list_lookup].
  cbn [heap with_heap] in *. rewrite Hi, Ha. reflexivity.
Qed.

Lemma wf_allocate size s : wf_allocator s -> wf_allocator (with_heap (heap s ++ [fresh size s]) s).
Proof.
  intros [Hp Hl Hc Hi]. split; cbn; try done. eapply Forall_impl; [exact Hc|]. intros o (i & a & -> & Ha & H0).
  exists i, a. cbn. by rewrite lookup_app_l by (by eapply lookup_lt_Some).
Qed.
Lemma wf_release r s : wf_allocator s -> (r < length (heap s))%nat ->
  wf_allocator (with_available (<[0%nat := Some r]> (availableAllocations s)) (with_heap (alter clear r (heap s)) s)).
Proof.
  intros [Hp Hl Hc Hi] Hr. split; cbn; [done|by rewrite length_insert| |done].
  apply Forall_insert.
  - eapply Forall_impl; [exact Hc|]. intros o Ho. exact (cleared_clear s r o Hr Ho).
  - destruct (lookup_lt_is_Some_2 (heap s) r Hr) as [a Ha]. exists r, (clear a). cbn. by rewrite list_lookup_alter_eq, Ha.
Qed.
(** A change of an allocation that is not available. *)
Lemma wf_insert a r s : wf_allocator s -> Some r ∉ availableAllocations s -> wf_allocator (with_heap (<[r := a]> (heap s)) s).
Proof.
  intros [Hp Hl Hc Hi] Hr. split; cbn; try done. apply Forall_forall. intros o Ho.
  destruct (proj1 (Forall_forall _ _) Hc o Ho) as (i & b & -> & Hb & H0). exists i, b. cbn.
  rewrite list_lookup_insert_ne; [done|]. by intros ->.
Qed.
(** A reference that is not in the heap is not available. *)
Lemma available_bound s r : wf_allocator s -> Some r ∈ availableAllocations s -> (r < length (heap s))%nat.
Proof.
  intros [_ _ Hc _] Hr. destruct (proj1 (Forall_forall _ _) Hc _ Hr) as (i & b & [= ->] & Hb & _). by eapply lookup_lt_Some.
Qed.
