(* ===== verification/FlvMuxer.v ===== *)
(** * yasea: SrsFlvMuxer

    The muxer that turns encoded samples into FLV tags and sends them over an
    RTMP connection, of
    src/library/src/main/java/net/ossrs/yasea/SrsFlvMuxer.java.  Its publisher
    is the connection of RtmpConnection, which DefaultRtmpPublisher only wraps.
    Threads are explicit: a worker is a stage in its [run] method, and what a
    thread does between two points at which it waits or takes from the queue is
    one step. *)

From stdpp Require Import base list strings.
From Stdlib Require Import ZArith Lia.
From S2P Require Import Prelude Java RtmpUtil RtmpPacket RtmpConnection Allocator.
Open Scope Z_scope.

(** ** java.nio.ByteBuffer

    The bytes up to the limit, and the position. *)

Record ByteBuffer := mkBuffer { b_bytes : list Z; position : nat }.
Definition remaining (bb : ByteBuffer) : list Z := drop (position bb) (b_bytes bb).
Definition wrap (l : list Z) : ByteBuffer := mkBuffer l 0.
Definition slice (bb : ByteBuffer) : ByteBuffer := wrap (remaining bb).
(** [get(i)]. *)
Definition get_at (bb : ByteBuffer) (i : nat) : outcome Z :=
  match b_bytes bb !! i with Some b => Ok b | None => Throw (Java IndexOutOfBoundsException) end.
(** [n] bytes from the position. *)
Definition get_bytes (n : nat) (bb : ByteBuffer) : outcome (list Z * ByteBuffer) :=
  if (n <=? length (remaining bb))%nat then Ok (take n (remaining bb), mkBuffer (b_bytes bb) (position bb + n))
  else Throw (Java BufferUnderflowException).
(** [get(dst, offset, length)]. *)
Definition get_into (dst : list Z) (offset length : Z) (bb : ByteBuffer) : outcome (list Z * ByteBuffer) :=
  if (offset <? 0) || (length <? 0) || (Z.of_nat (List.length dst) <? offset + length) then Throw (Java IndexOutOfBoundsException)
  else let! r := get_bytes (Z.to_nat length) bb in Ok (overwrite (Z.to_nat offset) r.1 dst, r.2).
(** [equals] with a buffer, at its start, that may be null. *)
Definition buffer_equals (bb : ByteBuffer) (o : option (list Z)) : bool := bool_decide (Some (remaining bb) = o).
(** [byte[] a = new byte[n]; get(a)]. *)
Definition get_new (n : Z) (bb : ByteBuffer) : outcome (list Z * ByteBuffer) :=
  if n <? 0 then Throw (Java NegativeArraySizeException) else get_bytes (Z.to_nat n) bb.

(** ** Constants *)

Definition VIDEO_ALLOC_SIZE : Z := 128 * 1024.
Definition AUDIO_ALLOC_SIZE : Z := 4 * 1024.
Definition VIDEO_TRACK : Z := 100.
Definition AUDIO_TRACK : Z := 101.
Definition KeyFrame : Z := 1.
Definition InterFrame : Z := 2.
Definition SequenceHeader : Z := 0.
Definition NALU : Z := 1.
Definition TagAudio : Z := 8.
Definition TagVideo : Z := 9.
Definition AVC : Z := 7.
Definition AacLC : Z := 2.
Definition NonIDR : Z := 1.
Definition IDR : Z := 5.
Definition SEI : Z := 6.
Definition SPS : Z := 7.
Definition PPS : Z := 8.

(** ** Frames *)

Record SrsFlvFrameBytes := mkFrameBytes { fb_data : option ByteBuffer; fb_size : Z }.

(** [flvTag] is a reference into the allocator of the tag's type. *)
Record SrsFlvFrame := mkFrame { flvTag : nat; avc_aac_type : Z; frame_type : Z; tag_type : Z; dts : Z }.
Definition isVideo (f : SrsFlvFrame) : bool := tag_type f =? TagVideo.
Definition isAudio (f : SrsFlvFrame) : bool := tag_type f =? TagAudio.
Definition isKeyFrame (f : SrsFlvFrame) : bool := isVideo f && (frame_type f =? KeyFrame).
Definition isSequenceHeader (f : SrsFlvFrame) : bool := avc_aac_type f =? 0.

(** ** SrsRawH264Stream *)

Record SrsAnnexbSearch := mkSearch { nb_start_code : nat; match_ : bool }.

(** [bb.get(i) == p0 && bb.get(i + 1) == p1 && ...]. *)
Fixpoint bytes_at (bb : ByteBuffer) (i : nat) (pattern : list Z) : outcome bool :=
  match pattern with
  | [] => Ok true
  | p :: r => let! b := get_at bb i in if b =? p then bytes_at bb (S i) r else Ok false
  end.

Definition searchStartcode (bb : ByteBuffer) (size : Z) : outcome SrsAnnexbSearch :=
  if 0 <? size - 4 then
    let! four := bytes_at bb 0 [0; 0; 0; 1] in
    if four : bool then Ok (mkSearch 4 true)
    else let! three := bytes_at bb 0 [0; 0; 1] in if three : bool then Ok (mkSearch 3 true) else Ok (mkSearch 0 false)
  else Ok (mkSearch 0 false).

(** The loop, for [n] values of [i]. *)
Fixpoint search_from (bb : ByteBuffer) (i n : nat) : outcome SrsAnnexbSearch :=
  match n with
  | O => Ok (mkSearch 0 false)
  | S n =>
    let! zeros := bytes_at bb i [0; 0] in
    if negb zeros then search_from bb (S i) n
    else
      let! one := bytes_at bb (i + 2) [1] in
      if one : bool then Ok (mkSearch (i + 3 - position bb) true)
      else
        let! zero_one := bytes_at bb (i + 2) [0; 1] in
        if zero_one : bool then Ok (mkSearch (i + 4 - position bb) true) else search_from bb (S i) n
  end.
Definition searchAnnexb (bb : ByteBuffer) (size : Z) : outcome SrsAnnexbSearch :=
  search_from bb (position bb) (Z.to_nat (size - 4 - Z.of_nat (position bb))).

Definition demuxAnnexb (bb : ByteBuffer) (size : Z) (isOnlyChkHeader : bool) : outcome (SrsFlvFrameBytes * ByteBuffer) :=
  let none := (mkFrameBytes None 0, bb) in
  if Z.of_nat (position bb) <? size - 4 then
    let! tbbsc := if isOnlyChkHeader then searchStartcode bb size else searchAnnexb bb size in
    if negb (match_ tbbsc) || (nb_start_code tbbsc <? 3)%nat then Ok none
    else
      let! r := get_bytes (nb_start_code tbbsc) bb in
      Ok (mkFrameBytes (Some (slice r.2)) (size - Z.of_nat (position r.2)), r.2)
  else Ok none.

Definition muxNaluHeader (frame : SrsFlvFrameBytes) : SrsFlvFrameBytes :=
  mkFrameBytes (Some (wrap (writeUnsignedInt32 (fb_size frame)))) 4.

(** The frames that the method appends to its argument. *)
Definition muxSequenceHeader (sps pps : list Z) : outcome (list SrsFlvFrameBytes) :=
  let! profile_idc := get_at (wrap sps) 1 in
  let! level_idc := get_at (wrap sps) 3 in
  let frame l := mkFrameBytes (Some (wrap l)) (Z.of_nat (length l)) in
  Ok [frame [1; profile_idc; 0; level_idc; 3];
      frame (1 :: writeUnsignedInt16 (Z.of_nat (length sps))); frame sps;
      frame (1 :: writeUnsignedInt16 (Z.of_nat (length pps))); frame pps].

(** ** The state *)

(** What the muxer remembers of its tracks and of the stream. *)
Record SrsFlv := mkFlv {
  achannel : Z;
  asample_rate : Z;
  ipbs : list SrsFlvFrameBytes;
  h264_sps : option (list Z);
  h264_sps_changed : bool;
  h264_pps : option (list Z);
  h264_pps_changed : bool;
  h264_sps_pps_sent : bool;
  aac_specific_config_got : bool }.

(** Where the worker's [run] is: before [connect], waiting in it, before
    [publish], waiting in it, at the head of the loop, taking frames, waiting
    for the next one, or at the end. *)
Inductive stage := Connecting (url : string) | AwaitConnect | Publishing | AwaitPublish | Looping | Draining | Waiting | Ended.
Record thread := mkThread { stage_of : stage; interrupted : bool }.

(** What was done with tags, for the statements about it: a tag handed to the
    publisher, with its bytes, and the headers set to null. *)
Inductive entry := Sent (f : SrsFlvFrame) (bytes : list Z) | Forgotten.

Record muxer := mkMuxer {
  started : bool;
  worker : option nat;
  threads : list thread;
  flv : SrsFlv;
  needToFindKeyFrame : bool;
  mVideoSequenceHeader : option SrsFlvFrame;
  mAudioSequenceHeader : option SrsFlvFrame;
  mVideoAllocator : SrsAllocator;
  mAudioAllocator : SrsAllocator;
  mFlvTagCache : list SrsFlvFrame;
  publisher : connection;
  stopping : nat;
  disconnecting : nat;
  queued : list (SrsFlvFrame * list Z);
  log : list entry }.

Definition with_started v (m : muxer) : muxer :=
  mkMuxer v (worker m) (threads m) (flv m) (needToFindKeyFrame m) (mVideoSequenceHeader m) (mAudioSequenceHeader m)
    (mVideoAllocator m) (mAudioAllocator m) (mFlvTagCache m) (publisher m) (stopping m) (disconnecting m) (queued m) (log m).
Definition with_worker v (m : muxer) : muxer :=
  mkMuxer (started m) v (threads m) (flv m) (needToFindKeyFrame m) (mVideoSequenceHeader m) (mAudioSequenceHeader m)
    (mVideoAllocator m) (mAudioAllocator m) (mFlvTagCache m) (publisher m) (stopping m) (disconnecting m) (queued m) (log m).
Definition with_threads v (m : muxer) : muxer :=
  mkMuxer (started m) (worker m) v (flv m) (needToFindKeyFrame m) (mVideoSequenceHeader m) (mAudioSequenceHeader m)
    (mVideoAllocator m) (mAudioAllocator m) (mFlvTagCache m) (publisher m) (stopping m) (disconnecting m) (queued m) (log m).
Definition with_flv v (m : muxer) : muxer :=
  mkMuxer (started m) (worker m) (threads m) v (needToFindKeyFrame m) (mVideoSequenceHeader m) (mAudioSequenceHeader m)
    (mVideoAllocator m) (mAudioAllocator m) (mFlvTagCache m) (publisher m) (stopping m) (disconnecting m) (queued m) (log m).
Definition with_needToFindKeyFrame v (m : muxer) : muxer :=
  mkMuxer (started m) (worker m) (threads m) (flv m) v (mVideoSequenceHeader m) (mAudioSequenceHeader m)
    (mVideoAllocator m) (mAudioAllocator m) (mFlvTagCache m) (publisher m) (stopping m) (disconnecting m) (queued m) (log m).
Definition with_video_header v (m : muxer) : muxer :=
  mkMuxer (started m) (worker m) (threads m) (flv m) (needToFindKeyFrame m) v (mAudioSequenceHeader m)
    (mVideoAllocator m) (mAudioAllocator m) (mFlvTagCache m) (publisher m) (stopping m) (disconnecting m) (queued m) (log m).
Definition with_audio_header v (m : muxer) : muxer :=
  mkMuxer (started m) (worker m) (threads m) (flv m) (needToFindKeyFrame m) (mVideoSequenceHeader m) v
    (mVideoAllocator m) (mAudioAllocator m) (mFlvTagCache m) (publisher m) (stopping m) (disconnecting m) (queued m) (log m).
Definition with_video_allocator v (m : muxer) : muxer :=
  mkMuxer (started m) (worker m) (threads m) (flv m) (needToFindKeyFrame m) (mVideoSequenceHeader m) (mAudioSequenceHeader m)
    v (mAudioAllocator m) (mFlvTagCache m) (publisher m) (stopping m) (disconnecting m) (queued m) (log m).
Definition with_audio_allocator v (m : muxer) : muxer :=
  mkMuxer (started m) (worker m) (threads m) (flv m) (needToFindKeyFrame m) (mVideoSequenceHeader m) (mAudioSequenceHeader m)
    (mVideoAllocator m) v (mFlvTagCache m) (publisher m) (stopping m) (disconnecting m) (queued m) (log m).
Definition with_cache v (m : muxer) : muxer :=
  mkMuxer (started m) (worker m) (threads m) (flv m) (needToFindKeyFrame m) (mVideoSequenceHeader m) (mAudioSequenceHeader m)
    (mVideoAllocator m) (mAudioAllocator m) v (publisher m) (stopping m) (disconnecting m) (queued m) (log m).
Definition with_publisher v (m : muxer) : muxer :=
  mkMuxer (started m) (worker m) (threads m) (flv m) (needToFindKeyFrame m) (mVideoSequenceHeader m) (mAudioSequenceHeader m)
    (mVideoAllocator m) (mAudioAllocator m) (mFlvTagCache m) v (stopping m) (disconnecting m) (queued m) (log m).
Definition with_stopping v (m : muxer) : muxer :=
  mkMuxer (started m) (worker m) (threads m) (flv m) (needToFindKeyFrame m) (mVideoSequenceHeader m) (mAudioSequenceHeader m)
    (mVideoAllocator m) (mAudioAllocator m) (mFlvTagCache m) (publisher m) v (disconnecting m) (queued m) (log m).
Definition with_disconnecting v (m : muxer) : muxer :=
  mkMuxer (started m) (worker m) (threads m) (flv m) (needToFindKeyFrame m) (mVideoSequenceHeader m) (mAudioSequenceHeader m)
    (mVideoAllocator m) (mAudioAllocator m) (mFlvTagCache m) (publisher m) (stopping m) v (queued m) (log m).
Definition with_queued v (m : muxer) : muxer :=
  mkMuxer (started m) (worker m) (threads m) (flv m) (needToFindKeyFrame m) (mVideoSequenceHeader m) (mAudioSequenceHeader m)
    (mVideoAllocator m) (mAudioAllocator m) (mFlvTagCache m) (publisher m) (stopping m) (disconnecting m) v (log m).
Definition with_log v (m : muxer) : muxer :=
  mkMuxer (started m) (worker m) (threads m) (flv m) (needToFindKeyFrame m) (mVideoSequenceHeader m) (mAudioSequenceHeader m)
    (mVideoAllocator m) (mAudioAllocator m) (mFlvTagCache m) (publisher m) (stopping m) (disconnecting m) (queued m) v.

Definition with_ipbs v (f : SrsFlv) : SrsFlv :=
  mkFlv (achannel f) (asample_rate f) v (h264_sps f) (h264_sps_changed f) (h264_pps f) (h264_pps_changed f)
    (h264_sps_pps_sent f) (aac_specific_config_got f).
Definition with_track channel rate (f : SrsFlv) : SrsFlv :=
  mkFlv channel rate (ipbs f) (h264_sps f) (h264_sps_changed f) (h264_pps f) (h264_pps_changed f)
    (h264_sps_pps_sent f) (aac_specific_config_got f).
(** [h264_sps_changed = true; h264_sps = ByteBuffer.wrap(sps)], and of the PPS. *)
Definition with_sps v (f : SrsFlv) : SrsFlv :=
  mkFlv (achannel f) (asample_rate f) (ipbs f) (Some v) true (h264_pps f) (h264_pps_changed f)
    (h264_sps_pps_sent f) (aac_specific_config_got f).
Definition with_pps v (f : SrsFlv) : SrsFlv :=
  mkFlv (achannel f) (asample_rate f) (ipbs f) (h264_sps f) (h264_sps_changed f) (Some v) true
    (h264_sps_pps_sent f) (aac_specific_config_got f).
Definition with_sent (f : SrsFlv) : SrsFlv :=
  mkFlv (achannel f) (asample_rate f) (ipbs f) (h264_sps f) false (h264_pps f) false true (aac_specific_config_got f).
Definition with_config_got (f : SrsFlv) : SrsFlv :=
  mkFlv (achannel f) (asample_rate f) (ipbs f) (h264_sps f) (h264_sps_changed f) (h264_pps f) (h264_pps_changed f)
    (h264_sps_pps_sent f) true.

(** The buffers stay, filled with zeros. *)
Definition flv_reset (f : SrsFlv) : SrsFlv :=
  let zeros o := (fun l => replicate (length l) 0) <$> o in
  mkFlv (achannel f) (asample_rate f) (ipbs f) (zeros (h264_sps f)) false (zeros (h264_pps f)) false false false.

Definition on_flv (f : SrsFlv -> SrsFlv) : M muxer unit := modify (fun m => with_flv (f (flv m)) m).
Definition on_publisher {A} : M connection A -> M muxer A := zoom (fun m => Some (publisher m)) with_publisher.
Definition on_video {A} : M SrsAllocator A -> M muxer A := zoom (fun m => Some (mVideoAllocator m)) with_video_allocator.
Definition on_audio {A} : M SrsAllocator A -> M muxer A := zoom (fun m => Some (mAudioAllocator m)) with_audio_allocator.

Definition newFlv : SrsFlv := mkFlv 0 0 [] None false None false false false.
Definition newMuxer : outcome muxer :=
  let! v := newSrsAllocator VIDEO_ALLOC_SIZE 0 in
  let! a := newSrsAllocator AUDIO_ALLOC_SIZE 0 in
  Ok (mkMuxer false None [] newFlv true None None v a [] new_connection 0 0 [] []).

(** ** SrsFlv *)

(** The allocation of a frame's tag, in the allocator of its type. *)
Definition tag_of (m : muxer) (f : SrsFlvFrame) : option Allocation :=
  heap (if isVideo f then mVideoAllocator m else mAudioAllocator m) !! flvTag f.
Definition tag_bytes (m : muxer) (f : SrsFlvFrame) : list Z := from_option used [] (tag_of m f).

Definition flvTagCacheAdd (frame : SrsFlvFrame) : M muxer unit :=
  m <- get ;;
  when (started m) (
    modify (fun m => with_queued (queued m ++ [(frame, tag_bytes m frame)]) (with_cache (mFlvTagCache m ++ [frame]) m)) ;;;
    when (isVideo frame)
      (on_publisher (modify (fun c => with_videoFrameCacheNumber (int (videoFrameCacheNumber c + 1)) c)))).

Definition writeRtmpPacket (type dts frame_type avc_aac_type : Z) (tag : nat) : M muxer unit :=
  let frame := mkFrame tag avc_aac_type frame_type type dts in
  m <- get ;;
  if isVideo frame then
    if needToFindKeyFrame m then
      when (isKeyFrame frame) (modify (with_needToFindKeyFrame false) ;;; flvTagCacheAdd frame)
    else flvTagCacheAdd frame
  else when (isAudio frame) (flvTagCacheAdd frame).

(** Change the allocation at a reference that the caller has. *)
Definition fill_allocation (r : nat) (f : Allocation -> outcome Allocation) : M SrsAllocator unit :=
  s <- get ;;
  match heap s !! r with
  | Some a => a' <- lift (f a) ;; put (with_heap (<[r := a']> (heap s)) s)
  | None => undef
  end.

Definition tag_header (frame_type avc_packet_type cts : Z) (a : Allocation) : outcome Allocation :=
  let! a := put_byte (low_byte (Z.lor (shl frame_type 4) AVC)) a in
  let! a := put_byte (low_byte avc_packet_type) a in
  let! a := put_byte (low_byte (Z.shiftr cts 16)) a in
  let! a := put_byte (low_byte (Z.shiftr cts 8)) a in
  put_byte (low_byte cts) a.

(** The loop that copies the frames, with their buffers after it. *)
Fixpoint copy_frames (frames : list SrsFlvFrameBytes) (a : Allocation) : outcome Allocation * list SrsFlvFrameBytes :=
  match frames with
  | [] => (Ok a, [])
  | f :: r =>
    match fb_data f with
    | None => (Throw (Java NullPointerException), f :: r)
    | Some bb =>
      match get_into (a_data a) (a_size a) (fb_size f) bb with
      | Ok (data, bb) =>
        let '(o, r) := copy_frames r (appendOffset (fb_size f) (mkAllocation data (a_size a))) in
        (o, mkFrameBytes (Some bb) (fb_size f) :: r)
      | Throw e => (Throw e, f :: r)
      | Undef => (Undef, f :: r)
      end
    end
  end.

(** What the method does to the buffers of [frames] is seen by its caller even
    if it throws: it returns them with its outcome. *)
Definition muxFlvTag (frames : list SrsFlvFrameBytes) (frame_type avc_packet_type dts pts : Z)
    : M muxer (outcome nat * list SrsFlvFrameBytes) := fun m =>
  let size := foldl (fun n f => int (n + fb_size f)) 5 frames in
  match on_video (allocate size) m with
  | (Ok allocation, m) =>
    match heap (mVideoAllocator m) !! allocation with
    | None => (Undef, m)
    | Some a =>
      match tag_header frame_type avc_packet_type (int (pts - dts)) a with
      | Ok a =>
        let '(o, frames) := copy_frames frames a in
        match o with
        | Ok a => (Ok (Ok allocation, frames), (on_video (fill_allocation allocation (fun _ => Ok a)) m).2)
        | Throw e => (Ok (Throw e, frames), m)
        | Undef => (Undef, m)
        end
      | Throw e => (Ok (Throw e, frames), m)
      | Undef => (Undef, m)
      end
    end
  | (Throw e, m) => (Ok (Throw e, frames), m)
  | (Undef, m) => (Undef, m)
  end.

Definition writeH264SpsPps (dts pts : Z) : M muxer unit :=
  m <- get ;;
  let f := flv m in
  if h264_sps_pps_sent f && negb (h264_sps_changed f) && negb (h264_pps_changed f) then ret tt
  else
    match h264_sps f, h264_pps f with
    | Some sps, Some pps =>
      frames <- lift (muxSequenceHeader sps pps) ;;
      r <- muxFlvTag frames KeyFrame SequenceHeader dts pts ;;
      video_tag <- lift r.1 ;;
      writeRtmpPacket TagVideo dts KeyFrame SequenceHeader video_tag ;;;
      on_flv with_sent
    | _, _ => ret tt
    end.

(** Of the member [ipbs], which the caller fills. *)
Definition writeH264IpbFrame (type dts pts : Z) : M muxer unit :=
  m <- get ;;
  when (h264_sps_pps_sent (flv m)) (
    r <- muxFlvTag (ipbs (flv m)) type NALU dts pts ;;
    on_flv (with_ipbs r.2) ;;;
    video_tag <- lift r.1 ;;
    writeRtmpPacket TagVideo dts type NALU video_tag).

Definition non_null {S A} (o : option A) : M S A :=
  match o with Some a => ret a | None => throw (Java NullPointerException) end.

(** [(int) (bi.presentationTimeUs / 1000)]. *)
Definition milliseconds (presentationTimeUs : Z) : Z := int (Z.quot presentationTimeUs 1000).

(** A buffer that begins with a parameter set: the set and the one that
    follows. *)
Definition writeParameterSets (bb : ByteBuffer) (size pts : Z) (frame : SrsFlvFrameBytes) (data : ByteBuffer) : M muxer unit :=
  p <- lift (demuxAnnexb bb size false) ;;
  let frame_pps := p.1 in
  let frame_size := fb_size frame - fb_size frame_pps - 4 in
  m <- get ;;
  when (negb (buffer_equals data (h264_sps (flv m))))
    (sps <- lift (get_new frame_size data) ;; on_flv (with_sps sps.1)) ;;;
  s <- lift (demuxAnnexb p.2 size false) ;;
  let frame_sei := s.1 in
  pps_size <- (if 0 <? fb_size frame_sei then
                 d <- non_null (fb_data frame_sei) ;;
                 b <- lift (get_at d 0) ;;
                 ret (if Z.land b 31 =? SEI then fb_size frame_pps - fb_size frame_sei - 3 else fb_size frame_pps)
               else ret (fb_size frame_pps)) ;;
  pps_data <- non_null (fb_data frame_pps) ;;
  m <- get ;;
  when (negb (buffer_equals pps_data (h264_pps (flv m))))
    (pps <- lift (get_new pps_size pps_data) ;; on_flv (with_pps pps.1) ;;; writeH264SpsPps pts pts).

Definition writeIpb (frame : SrsFlvFrameBytes) (type pts : Z) : M muxer unit :=
  on_flv (fun f => with_ipbs (ipbs f ++ [muxNaluHeader frame; frame]) f) ;;;
  writeH264IpbFrame type pts pts ;;;
  on_flv (with_ipbs []).

Definition writeVideoSample (bb : ByteBuffer) (size presentationTimeUs : Z) : M muxer unit :=
  if size <? 4 then ret tt
  else
    let pts := milliseconds presentationTimeUs in
    r <- lift (demuxAnnexb bb size true) ;;
    let frame := r.1 in
    data <- non_null (fb_data frame) ;;
    b <- lift (get_at data 0) ;;
    let nal_unit_type := Z.land b 31 in
    if nal_unit_type =? IDR then writeIpb frame KeyFrame pts
    else if (nal_unit_type =? SPS) || (nal_unit_type =? PPS) then writeParameterSets r.2 size pts frame data
    else if negb (nal_unit_type =? NonIDR) then ret tt
    else writeIpb frame InterFrame pts.

(** *** Audio *)

Definition samplingFrequencyIndex (rate : Z) : Z :=
  if rate =? 22050 then 7 else if rate =? 11025 then 10 else if rate =? 32000 then 5 else if rate =? 16000 then 8 else 4.

Definition writeAdtsHeader (offset : Z) (frame : list Z) : outcome (list Z) :=
  let n := Z.of_nat (length frame) - 2 in
  let! frame := store offset 255 frame in
  let! frame := store (offset + 1) (Z.lor (Z.lor (Z.lor 240 (Z.shiftl 0 3)) (Z.shiftl 0 1)) 1) frame in
  let! frame := store (offset + 2)
    (Z.lor (Z.lor (Z.shiftl (AacLC - 1) 6) (Z.shiftl (Z.land 4 15) 2)) (Z.shiftr (Z.land 2 4) 2)) frame in
  let! frame := store (offset + 3) (Z.lor (Z.shiftl (Z.land 2 3) 6) (low_byte (Z.shiftr (Z.land n 6144) 11))) frame in
  let! frame := store (offset + 4) (low_byte (Z.shiftr (Z.land n 2040) 3)) frame in
  let! frame := store (offset + 5) (Z.lor (low_byte (Z.shiftl (Z.land n 7) 5)) 31) frame in
  store (offset + 6) 252 frame.

Definition audio_config (first : Z) (f : SrsFlv) (a : Allocation) : outcome Allocation :=
  let i := samplingFrequencyIndex (asample_rate f) in
  let! a := put_byte_at (Z.lor (Z.land first 248) (Z.land (Z.shiftr i 1) 7)) 2 a in
  let channelConfiguration := if achannel f =? 2 then 2 else 1 in
  put_byte_at (Z.lor (Z.land (Z.shiftl i 7) 128) (Z.land (Z.shiftl channelConfiguration 3) 120)) 3 a.
Definition append_adts (a : Allocation) : outcome Allocation :=
  let! data := writeAdtsHeader 4 (a_data a) in Ok (appendOffset 7 (mkAllocation data (a_size a))).

Definition audio_header (f : SrsFlv) : Z :=
  let sound_type := if achannel f =? 2 then 1 else 0 in
  let rate := asample_rate f in
  let sound_rate := if rate =? 22050 then 2 else if rate =? 11025 then 1 else if rate =? 5512 then 0 else 3 in
  Z.lor (Z.lor (Z.lor (Z.land sound_type 1) (Z.land (Z.shiftl 1 1) 2)) (Z.land (Z.shiftl sound_rate 2) 12))
    (Z.land (Z.shiftl 10 4) 240).

Definition writeAudioSample (bb : ByteBuffer) (size presentationTimeUs : Z) : M muxer unit :=
  let dts := milliseconds presentationTimeUs in
  audio_tag <- on_audio (allocate (int (size + 2))) ;;
  m <- get ;;
  let f := flv m in
  aac_packet_type <-
    (if aac_specific_config_got f then
       on_audio (fill_allocation audio_tag (fun a =>
         let! r := get_into (a_data a) 2 size bb in Ok (appendOffset (int (size + 2)) (mkAllocation r.1 (a_size a))))) ;;;
       ret 1
     else
       first <- lift (get_at bb 0) ;;
       on_audio (fill_allocation audio_tag (audio_config first f)) ;;;
       on_flv with_config_got ;;;
       on_audio (fill_allocation audio_tag append_adts) ;;;
       ret 0) ;;
  on_audio (fill_allocation audio_tag (fun a =>
    let! a := put_byte_at (audio_header f) 0 a in put_byte_at aac_packet_type 1 a)) ;;;
  writeRtmpPacket TagAudio dts 0 aac_packet_type audio_tag.

(** ** SrsFlvMuxer *)

(** [format] by what is read of it. *)
Definition addTrack (mime : string) (channel rate : Z) : M muxer Z :=
  if String.eqb mime "video/avc" then ret VIDEO_TRACK
  else on_flv (with_track channel rate) ;;; ret AUDIO_TRACK.

Definition writeSampleData (trackIndex : Z) (byteBuf : ByteBuffer) (size presentationTimeUs : Z) : M muxer unit :=
  if trackIndex =? VIDEO_TRACK then writeVideoSample byteBuf size presentationTimeUs
  else writeAudioSample byteBuf size presentationTimeUs.

Definition muxer_setVideoResolution (width height : Z) : M muxer unit := on_publisher (setVideoResolution width height).

(** The headers are set to null. *)
Definition forget_headers : M muxer unit :=
  modify (fun m => with_log (log m ++ [Forgotten]) (with_video_header None (with_audio_header None m))).

Definition is_illegal_state (e : exn) : bool := match e with Java (IllegalStateException _) => true | _ => false end.
Definition disconnect (now : Z) (io : io_result) : M muxer unit :=
  try_catch (on_publisher (close now io)) is_illegal_state (fun _ => ret tt) ;;; forget_headers.

Definition sendFlvTag (now : Z) (io : io_result) (frame : option SrsFlvFrame) : M muxer unit :=
  match frame with
  | None => ret tt
  | Some f =>
    m <- get ;;
    match tag_of m f with
    | None => undef
    | Some a =>
      modify (fun m => with_log (log m ++ [Sent f (used a)]) m) ;;;
      if isVideo f then
        on_publisher (publishVideoData now io (Some (a_data a)) (a_size a) (dts f)) ;;; on_video (release (flvTag f))
      else when (isAudio f)
        (on_publisher (publishAudioData now io (Some (a_data a)) (a_size a) (dts f)) ;;; on_audio (release (flvTag f)))
    end
  end.

(** What the worker does with the frame it took from the queue. *)
Definition handle_frame (now : Z) (io : io_result) (frame : SrsFlvFrame) : M muxer unit :=
  if isSequenceHeader frame then
    if isVideo frame then modify (with_video_header (Some frame)) ;;; sendFlvTag now io (Some frame)
    else when (isAudio frame) (modify (with_audio_header (Some frame)) ;;; sendFlvTag now io (Some frame))
  else
    m <- get ;;
    if isVideo frame && bool_decide (mVideoSequenceHeader m <> None) then sendFlvTag now io (Some frame)
    else when (isAudio frame && bool_decide (mAudioSequenceHeader m <> None)) (sendFlvTag now io (Some frame)).

(** *** Threads *)

Definition set_stage (i : nat) (s : stage) : M muxer unit :=
  modify (fun m => with_threads (alter (fun t => mkThread s (interrupted t)) i (threads m)) m).
Definition set_interrupted (b : bool) (i : nat) (m : muxer) : muxer :=
  with_threads (alter (fun t => mkThread (stage_of t) b) i (threads m)) m.
(** An interrupted thread that waits, or begins to, gets an exception, and is
    not interrupted any more. *)
Definition wait (i : nat) : M muxer unit := modify (set_interrupted false i).

(** The end of [connect], with what it returns. *)
Definition connect_done (i : nat) (connected : bool) : M muxer unit :=
  forget_headers ;;; set_stage i (if connected then Looping else Ended).

Definition take_frame (i : nat) (now : Z) (io : io_result) : M muxer unit :=
  m <- get ;;
  match mFlvTagCache m with
  | f :: r => modify (with_cache r) ;;; handle_frame now io f
  | [] => set_stage i Waiting
  end.
(** The handler of the exception interrupts the thread that [worker] is then. *)
Definition next_frame (i : nat) (t : thread) : M muxer unit :=
  m <- get ;;
  wait i ;;;
  (if interrupted t then j <- non_null (worker m) ;; modify (set_interrupted true j) else ret tt) ;;;
  set_stage i Looping.

(** What the environment gives: the time, the outcomes of writing, and for
    [connect] the stream from the server and the packet of the handshake. *)
Record inputs := mkInputs { now_of : Z; io_of : nat -> io_result; net_of : string + stream; c1_of : outcome (list Z) }.

(** A thread ends with an exception that it does not catch. *)
Definition worker_step (i : nat) (e : inputs) : M muxer unit :=
  m <- get ;;
  match threads m !! i with
  | None => ret tt
  | Some t =>
    try_catch
      match stage_of t with
      | Connecting url =>
        b <- on_publisher (connect_begin (now_of e) (io_of e 0%nat) url (net_of e) (c1_of e)) ;;
        if b : bool then set_stage i AwaitConnect else connect_done i false
      | AwaitConnect =>
        wait i ;;; b <- on_publisher rtmpConnect_end ;; if b : bool then set_stage i Publishing else connect_done i false
      | Publishing =>
        b <- on_publisher (publish_begin (now_of e) (io_of e 0%nat) (io_of e 1%nat) (io_of e 2%nat) (Some "live"%string)) ;;
        if b : bool then set_stage i AwaitPublish else connect_done i false
      | AwaitPublish => wait i ;;; b <- on_publisher createStream_end ;; connect_done i b
      | Looping => if interrupted t then modify (set_interrupted false i) ;;; set_stage i Ended else set_stage i Draining
      | Draining => take_frame i (now_of e) (io_of e 0%nat)
      | Waiting => next_frame i t
      | Ended => ret tt
      end
      (fun _ => true) (fun _ => set_stage i Ended)
  end.

Definition start (rtmpUrl : string) : M muxer unit :=
  modify (fun m => with_started true (with_worker (Some (length (threads m)))
    (with_threads (threads m ++ [mkThread (Connecting rtmpUrl) false]) m))).

(** [stop] until it waits for the worker, and after that; the rest is the new
    thread's. *)
Definition stop_begin : M muxer unit :=
  modify (fun m =>
    let m := with_started false (with_cache [] m) in
    let m := match worker m with Some i => set_interrupted true i m | None => m end in
    with_stopping (S (stopping m)) m).
Definition stop_end : M muxer unit :=
  modify (fun m =>
    with_stopping (pred (stopping m)) (with_disconnecting (S (disconnecting m))
      (with_worker None (with_needToFindKeyFrame true (with_flv (flv_reset (flv m)) m))))).
Definition run_disconnect (now : Z) (io : io_result) : M muxer unit :=
  modify (fun m => with_disconnecting (pred (disconnecting m)) m) ;;; disconnect now io.
