(* ===== verification/FlvMuxerSpec.v ===== *)
(** * Properties of the FLV muxer

    The tags it makes of samples; that with shared buffers and several threads
    it is a queue that keeps order and content, with headers first; what gets
    lost; and that a sample arrives at the server. *)

From stdpp Require Import base list strings gmap.
From Stdlib Require Import ZArith Lia.
From S2P Require Import Prelude Keeps Java RtmpUtil RtmpPacket RtmpPacketSpec RtmpConnection RtmpConnectionSpec Allocator FlvMuxer.
Open Scope Z_scope.

(** ** Filling an allocation

    An allocation in which the bytes [done] have been put, with room for [k]
    more. *)

Definition filled (done : list Z) (k : nat) : Allocation := mkAllocation (done ++ replicate k 0) (Z.of_nat (length done)).

Lemma fresh_filled size s : fresh size s = filled [] (Z.to_nat (fresh_size size s)).
Proof. done. Qed.
Lemma used_filled done k : used (filled done k) = done.
Proof. unfold used, filled. cbn. rewrite Nat2Z.id, take_app_length. done. Qed.

Lemma put_byte_filled b done k : Z.of_nat (length done) + 1 < 2 ^ 31 ->
  put_byte b (filled done (S k)) = Ok (filled (done ++ [b]) k).
Proof.
  intros Hn. unfold put_byte, filled, store. cbn [a_size a_data]. rewrite length_app, length_replicate.
  destruct (Z.leb_spec 0 (Z.of_nat (length done))); [|lia].
  destruct (Z.ltb_spec (Z.of_nat (length done)) (Z.of_nat (length done + S k))); [|lia]. cbn [andb obind].
  rewrite Nat2Z.id, insert_app_r_alt, Nat.sub_diag by lia. cbn [replicate list_insert insert].
  rewrite int_id by (unfold is_int; lia). do 2 f_equal; [by rewrite <- app_assoc|rewrite length_app; cbn; lia].
Qed.

Lemma overwrite_filled done bs k : (length bs <= k)%nat ->
  overwrite (length done) bs (done ++ replicate k 0) = (done ++ bs) ++ replicate (k - length bs) 0.
Proof.
  intros Hk. unfold overwrite. rewrite take_app_length, drop_app_ge by lia.
  replace (length done + length bs - length done)%nat with (length bs) by lia. by rewrite drop_replicate, <- app_assoc.
Qed.

(** *** Frames that can be copied *)

Definition frame_bytes (f : SrsFlvFrameBytes) : list Z :=
  match fb_data f with Some bb => take (Z.to_nat (fb_size f)) (remaining bb) | None => [] end.
Definition readable (f : SrsFlvFrameBytes) : Prop :=
  exists bb, fb_data f = Some bb /\ 0 <= fb_size f <= Z.of_nat (length (remaining bb)).

Lemma readable_length f : readable f -> Z.of_nat (length (frame_bytes f)) = fb_size f.
Proof. intros (bb & E & Hs). unfold frame_bytes. rewrite E, length_take. lia. Qed.

Lemma get_into_filled f bb done k : fb_data f = Some bb -> readable f -> (length (frame_bytes f) <= k)%nat ->
  exists bb', get_into (a_data (filled done k)) (a_size (filled done k)) (fb_size f) bb =
    Ok ((done ++ frame_bytes f) ++ replicate (k - length (frame_bytes f)) 0, bb').
Proof.
  intros E Hr Hk. pose proof (readable_length f Hr) as Hl. destruct Hr as (bb' & E' & Hs). rewrite E in E'. injection E' as <-.
  unfold get_into, filled. cbn [a_data a_size]. rewrite length_app, length_replicate.
  destruct (Z.ltb_spec (Z.of_nat (length done)) 0); [lia|]. destruct (Z.ltb_spec (fb_size f) 0); [lia|].
  destruct (Z.ltb_spec (Z.of_nat (length done + k)) (Z.of_nat (length done) + fb_size f)); [lia|]. cbn [orb].
  unfold get_bytes. destruct (Nat.leb_spec (Z.to_nat (fb_size f)) (length (remaining bb))); [|lia]. cbn [obind fst snd].
  unfold frame_bytes in *. rewrite E in *. rewrite Nat2Z.id, overwrite_filled by done. by eexists.
Qed.

Lemma copy_frames_filled frames : Forall readable frames -> forall done k,
  (length (frames ≫= frame_bytes) <= k)%nat -> Z.of_nat (length done + k) < 2 ^ 31 ->
  exists frames', copy_frames frames (filled done k) =
    (Ok (filled (done ++ (frames ≫= frame_bytes)) (k - length (frames ≫= frame_bytes))), frames').
Proof.
  induction 1 as [|f frames Hf _ IH]; intros done k Hk Hn.
  { exists []. cbn. by rewrite app_nil_r, Nat.sub_0_r. }
  cbn [mbind list_bind] in *. rewrite length_app in Hk. pose proof Hf as (bb & E & Hs). cbn [copy_frames]. rewrite E.
  destruct (get_into_filled f bb done k E Hf) as (bb' & ->); [lia|]. pose proof (readable_length f Hf) as Hl.
  assert (appendOffset (fb_size f) (mkAllocation ((done ++ frame_bytes f) ++ replicate (k - length (frame_bytes f)) 0) (a_size (filled done k))) =
    filled (done ++ frame_bytes f) (k - length (frame_bytes f))) as ->.
  { unfold appendOffset, filled. cbn [a_data a_size]. rewrite int_id by (unfold is_int; lia). f_equal. rewrite length_app. lia. }
  destruct (IH (done ++ frame_bytes f) (k - length (frame_bytes f))%nat) as (fs & ->); [lia|rewrite length_app; lia|].
  eexists. f_equal. rewrite length_app, <- app_assoc. do 2 f_equal. lia.
Qed.

(** ** Tags *)

(** The five bytes before the data, with no composition time. *)
Definition video_tag_header (frame_type avc_packet_type : Z) : list Z :=
  [low_byte (Z.lor (shl frame_type 4) AVC); low_byte avc_packet_type; 0; 0; 0].

Lemma tag_header_filled ft pt k : (5 <= k)%nat -> tag_header ft pt 0 (filled [] k) = Ok (filled (video_tag_header ft pt) (k - 5)).
Proof.
  intros Hk. do 5 (destruct k as [|k]; [lia|]). unfold tag_header.
  do 5 (rewrite put_byte_filled by (cbn; lia); cbn [obind app]). do 2 f_equal. lia.
Qed.

Definition allocated (a : Allocation) (m : muxer) : muxer :=
  with_video_allocator (with_heap (heap (mVideoAllocator m) ++ [a]) (mVideoAllocator m)) m.

Lemma sum_sizes frames n : Forall readable frames -> 0 <= n -> n + Z.of_nat (length (frames ≫= frame_bytes)) < 2 ^ 31 ->
  foldl (fun n f => int (n + fb_size f)) n frames = n + Z.of_nat (length (frames ≫= frame_bytes)).
Proof.
  intros Hf. revert n. induction Hf as [|f frames Hf _ IH]; intros n Hn Hs; [cbn; lia|]. cbn [foldl mbind list_bind] in *.
  rewrite length_app in *. pose proof (readable_length f Hf). rewrite int_id by (unfold is_int; lia). rewrite IH; lia.
Qed.

Lemma muxFlvTag_run frames ft pt ts m : wf_allocator (mVideoAllocator m) -> individualAllocationSize (mVideoAllocator m) = VIDEO_ALLOC_SIZE ->
  Forall readable frames -> Z.of_nat (length (frames ≫= frame_bytes)) < 2 ^ 31 - 5 ->
  exists frames' k, muxFlvTag frames ft pt ts ts m =
    (Ok (Ok (length (heap (mVideoAllocator m))), frames'),
     allocated (filled (video_tag_header ft pt ++ (frames ≫= frame_bytes)) k) m).
Proof.
  intros Hw Hi Hf Hn. unfold muxFlvTag. rewrite sum_sizes by (done || lia). set (n := length (frames ≫= frame_bytes)) in *.
  unfold on_video at 1. erewrite zoom_ok; [|reflexivity|apply allocate_run; [done|lia]]. cbn [heap with_heap mVideoAllocator with_video_allocator].
  rewrite lookup_app_r, Nat.sub_diag by lia. cbn [lookup list_lookup]. rewrite fresh_filled, Z.sub_diag.
  change (int 0) with 0. assert (Z.to_nat (fresh_size (5 + Z.of_nat n) (mVideoAllocator m)) >= n + 5)%nat as Hk by (unfold fresh_size; lia).
  assert (Z.of_nat (Z.to_nat (fresh_size (5 + Z.of_nat n) (mVideoAllocator m))) < 2 ^ 31) as Hk'
    by (unfold fresh_size; rewrite Hi; unfold VIDEO_ALLOC_SIZE; lia).
  rewrite tag_header_filled by lia.
  destruct (copy_frames_filled frames Hf (video_tag_header ft pt) (Z.to_nat (fresh_size (5 + Z.of_nat n) (mVideoAllocator m)) - 5)%nat) as (fs & ->);
    [subst n; lia|cbn [length video_tag_header]; lia|].
  eexists fs, _. f_equal. unfold on_video, zoom, fill_allocation, bind, get, lift, put. cbn [heap with_heap mVideoAllocator with_video_allocator].
  rewrite lookup_app_r, Nat.sub_diag by lia. cbn [lookup list_lookup snd]. rewrite insert_app_r_alt, Nat.sub_diag by lia. reflexivity.
Qed.

(** ** Start codes

    A reference for the search: the first position with a start code of three
    or four bytes. *)

Definition code3 (l : list Z) (i : nat) : Prop := l !! i = Some 0 /\ l !! S i = Some 0 /\ l !! S (S i) = Some 1.
Definition code4 (l : list Z) (i : nat) : Prop := l !! i = Some 0 /\ code3 l (S i).
#[global] Instance code3_dec l i : Decision (code3 l i).
Proof. unfold code3. apply _. Defined.
#[global] Instance code4_dec l i : Decision (code4 l i).
Proof. unfold code4. apply _. Defined.

Fixpoint first_code (l : list Z) (i n : nat) : option (nat * nat) :=
  match n with
  | O => None
  | S n => if decide (code3 l i) then Some (i, 3%nat) else if decide (code4 l i) then Some (i, 4%nat) else first_code l (S i) n
  end.

Lemma search_reference bb n i : (i + n + 3 <= length (b_bytes bb))%nat ->
  search_from bb i n = Ok match first_code (b_bytes bb) i n with
    | Some (j, k) => mkSearch (j + k - position bb) true
    | None => mkSearch 0 false
    end.
Proof.
  revert i. induction n as [|n IH]; intros i Hi; [done|]. specialize (IH (S i) ltac:(lia)). cbn [search_from first_code bytes_at].
  unfold get_at. rewrite !Nat.add_succ_r, Nat.add_0_r.
  destruct (lookup_lt_is_Some_2 (b_bytes bb) i) as [b0 E0]; [lia|]. destruct (lookup_lt_is_Some_2 (b_bytes bb) (S i)) as [b1 E1]; [lia|].
  destruct (lookup_lt_is_Some_2 (b_bytes bb) (S (S i))) as [b2 E2]; [lia|].
  destruct (lookup_lt_is_Some_2 (b_bytes bb) (S (S (S i)))) as [b3 E3]; [lia|]. rewrite E0, E1, E2, E3. cbn [obind].
  assert (code3 (b_bytes bb) i <-> b0 = 0 /\ b1 = 0 /\ b2 = 1) as H3 by (unfold code3; rewrite E0, E1, E2; intuition congruence).
  assert (code4 (b_bytes bb) i <-> b0 = 0 /\ b1 = 0 /\ b2 = 0 /\ b3 = 1) as H4
    by (unfold code4, code3; rewrite E0, E1, E2, E3; intuition congruence).
  destruct (Z.eqb_spec b0 0) as [->|]; cbn [obind negb];
    [|rewrite decide_False by tauto; rewrite decide_False by tauto; exact IH].
  destruct (Z.eqb_spec b1 0) as [->|]; cbn [obind negb];
    [|rewrite decide_False by tauto; rewrite decide_False by tauto; exact IH].
  destruct (Z.eqb_spec b2 1) as [->|]; cbn [obind].
  { rewrite decide_True by done. by replace (i + 3 - position bb)%nat with (S (S (S i)) - position bb)%nat by lia. }
  rewrite decide_False by tauto. destruct (Z.eqb_spec b2 0) as [->|]; cbn [obind];
    [|rewrite decide_False by tauto; exact IH].
  destruct (Z.eqb_spec b3 1) as [->|]; cbn [obind].
  { rewrite decide_True by done. by replace (i + 4 - position bb)%nat with (S (S (S (S i))) - position bb)%nat by lia. }
  rewrite decide_False by tauto. exact IH.
Qed.

(** What a NAL unit is: it has no start code in it, and does not end in zero. *)
Definition nal_unit (l : list Z) : Prop := l <> [] /\ last l <> Some 0 /\ forall i, ~ code3 l i.

Lemma nal_last l i : nal_unit l -> S i = length l -> l !! i <> Some 0.
Proof. intros (_ & Hl & _) Hi E. apply Hl. rewrite last_lookup, <- Hi. done. Qed.
Lemma nal_no_code3 l r i : nal_unit l -> (i < length l)%nat -> ~ code3 (l ++ r) i.
Proof.
  intros Hn Hi (H0 & H1 & H2). destruct (decide (S (S i) < length l)%nat).
  - destruct Hn as (_ & _ & Hc). apply (Hc i). rewrite !lookup_app_l in * by lia. done.
  - rewrite lookup_app_l in H0 by lia. destruct (decide (S i = length l)); [by apply (nal_last l i)|].
    rewrite lookup_app_l in H1 by lia. apply (nal_last l (S i)); [done|lia|done].
Qed.
Lemma nal_no_code4 l r i : nal_unit l -> (i < length l)%nat -> ~ code4 (l ++ r) i.
Proof.
  intros Hn Hi (H0 & H1). destruct (decide (S i = length l)) as [E|].
  - rewrite lookup_app_l in H0 by lia. by apply (nal_last l i).
  - apply (nal_no_code3 l r (S i)); [done|lia|done].
Qed.

Lemma code3_app l r i : code3 (l ++ r) (length l + i) <-> code3 r i.
Proof. unfold code3. rewrite <- !Nat.add_succ_r, !lookup_app_r, !Nat.add_sub' by lia. done. Qed.
Lemma code4_app l r i : code4 (l ++ r) (length l + i) <-> code4 r i.
Proof. unfold code4. rewrite <- Nat.add_succ_r, code3_app, lookup_app_r, Nat.add_sub' by lia. done. Qed.
Lemma first_code_app l r n i : first_code (l ++ r) (length l + i) n = (fun p => (length l + p.1, p.2)%nat) <$> first_code r i n.
Proof.
  revert i. induction n as [|n IH]; intros i; [done|]. cbn [first_code].
  destruct (decide (code3 r i)) as [H|H]; [by rewrite decide_True by (by apply code3_app)|].
  rewrite decide_False by (by rewrite code3_app).
  destruct (decide (code4 r i)) as [H4|H4]; [by rewrite decide_True by (by apply code4_app)|].
  rewrite decide_False by (by rewrite code4_app). rewrite <- Nat.add_succ_r. apply IH.
Qed.

Lemma first_code_bound l n i j k : first_code l i n = Some (j, k) -> (3 <= k)%nat /\ (j + k <= length l)%nat.
Proof.
  revert i. induction n as [|n IH]; intros i; [done|]. cbn [first_code].
  destruct (decide (code3 l i)) as [(_ & _ & H)|_]; [intros [= <- <-]; apply lookup_lt_Some in H; lia|].
  destruct (decide (code4 l i)) as [(_ & _ & _ & H)|_]; [intros [= <- <-]; apply lookup_lt_Some in H; lia|]. apply IH.
Qed.

(** The search passes over a NAL unit. *)
Lemma first_code_nal l r n : nal_unit l -> first_code (l ++ r) 0 n =
  if (n <=? length l)%nat then None else (fun p => (length l + p.1, p.2)%nat) <$> first_code r 0 (n - length l).
Proof.
  intros Hn. assert (forall k i, (i + k = length l)%nat -> forall n, first_code (l ++ r) i n =
    if (n <=? k)%nat then None else first_code (l ++ r) (length l) (n - k)) as H.
  { induction k as [|k IH]; intros i Hi n0.
    - rewrite Nat.add_0_r in Hi. subst i. destruct n0; [done|]. cbn [Nat.leb]. by rewrite Nat.sub_0_r.
    - destruct n0 as [|n0]; [done|]. cbn [first_code]. rewrite decide_False by (apply nal_no_code3; [done|lia]).
      rewrite decide_False by (apply nal_no_code4; [done|lia]). rewrite IH by lia. done. }
  rewrite (H (length l) 0%nat) by lia. destruct (n <=? length l)%nat; [done|].
  rewrite <- (first_code_app l r _ 0), Nat.add_0_r. done.
Qed.

Definition start_code4 : list Z := [0; 0; 0; 1].
Definition start_code3 : list Z := [0; 0; 1].

(** *** Taking a buffer apart *)

Definition at_ (l : list Z) (n : nat) : ByteBuffer := mkBuffer l n.
Lemma demux_next pre nal r size : size = Z.of_nat (length pre + length nal + length r) -> nal_unit nal ->
  demuxAnnexb (at_ (pre ++ nal ++ r) (length pre)) size false =
  match first_code r 0 (length r - 4) with
  | Some (j, k) =>
    Ok (mkFrameBytes (Some (wrap (drop (j + k) r))) (Z.of_nat (length (drop (j + k) r))),
        at_ (pre ++ nal ++ r) (length pre + length nal + (j + k)))
  | None => Ok (mkFrameBytes None 0, at_ (pre ++ nal ++ r) (length pre))
  end.
Proof.
  intros -> Hn. unfold demuxAnnexb, at_. cbn [position].
  destruct (Z.ltb_spec (Z.of_nat (length pre)) (Z.of_nat (length pre + length nal + length r) - 4)) as [H|H].
  2:{ replace (length r - 4)%nat with 0%nat by lia. done. }
  unfold searchAnnexb. cbn [position].
  replace (Z.to_nat (Z.of_nat (length pre + length nal + length r) - 4 - Z.of_nat (length pre))) with (length nal + length r - 4)%nat by lia.
  rewrite search_reference by (cbn; rewrite !length_app; lia). cbn [b_bytes position].
  rewrite <- (Nat.add_0_r (length pre)) at 1. rewrite first_code_app, first_code_nal by done.
  destruct (Nat.leb_spec (length nal + length r - 4) (length nal)).
  { replace (length r - 4)%nat with 0%nat by lia. done. }
  replace (length nal + length r - 4 - length nal)%nat with (length r - 4)%nat by lia.
  destruct (first_code r 0 (length r - 4)) as [[j k]|] eqn:E; [|done]. apply first_code_bound in E as (Hk & Hj).
  cbn [fmap option_fmap option_map fst snd obind match_ nb_start_code negb orb].
  destruct (Nat.ltb_spec (length pre + (length nal + j) + k - length pre) 3); [lia|].
  unfold get_bytes, remaining. cbn [b_bytes position]. rewrite drop_app_length, length_app.
  destruct (Nat.leb_spec (length pre + (length nal + j) + k - length pre) (length nal + length r)); [|lia]. cbn [obind snd position].
  replace (length pre + (length pre + (length nal + j) + k - length pre))%nat with (length pre + length nal + (j + k))%nat by lia.
  do 3 f_equal.
  - unfold slice, remaining. cbn [b_bytes position]. do 2 f_equal. rewrite app_assoc, drop_app_ge by (rewrite length_app; lia).
    f_equal. rewrite length_app. lia.
  - rewrite length_drop. lia.
Qed.

Lemma demux_first sc r size : sc = start_code4 \/ sc = start_code3 -> 4 < size ->
  (length sc <= Z.to_nat size <= length (sc ++ r))%nat -> (4 <= length (sc ++ r))%nat ->
  demuxAnnexb (at_ (sc ++ r) 0) size true =
  Ok (mkFrameBytes (Some (wrap r)) (size - Z.of_nat (length sc)), at_ (sc ++ r) (length sc)).
Proof.
  intros Hsc Hs Hl H4. unfold demuxAnnexb, at_. cbn [position]. destruct (Z.ltb_spec (Z.of_nat 0) (size - 4)); [|lia].
  unfold searchStartcode. destruct (Z.ltb_spec 0 (size - 4)); [|lia].
  destruct Hsc as [-> | ->]; (destruct r as [|b r]; [cbn in H4, Hl; lia|]); cbn -[Z.of_nat]; done.
Qed.

(** ** Queueing *)

Definition queue_frame (f : SrsFlvFrame) (m : muxer) : muxer :=
  let m' := with_queued (queued m ++ [(f, tag_bytes m f)]) (with_cache (mFlvTagCache m ++ [f]) m) in
  if isVideo f then
    with_publisher (with_videoFrameCacheNumber (int (videoFrameCacheNumber (publisher m) + 1)) (publisher m)) m'
  else m'.
Lemma cache_add_run f m : flvTagCacheAdd f m = (Ok tt, if started m then queue_frame f m else m).
Proof. unfold flvTagCacheAdd, queue_frame, bind, get, modify, when. destruct (started m); [|done]. by destruct (isVideo f). Qed.

Lemma keep_need m : with_needToFindKeyFrame (needToFindKeyFrame m) m = m.
Proof. by destruct m. Qed.
Lemma write_video_packet ts ft pt r m : writeRtmpPacket TagVideo ts ft pt r m =
  (Ok tt, if needToFindKeyFrame m && negb (ft =? KeyFrame) then m
          else let m' := with_needToFindKeyFrame false m in
               if started m then queue_frame (mkFrame r pt ft TagVideo ts) m' else m').
Proof.
  unfold writeRtmpPacket, bind, get, modify, when, isKeyFrame, isVideo. cbn [tag_type frame_type].
  change (TagVideo =? TagVideo) with true. destruct (needToFindKeyFrame m) eqn:E; cbn [andb].
  - destruct (ft =? KeyFrame); cbn [negb]; [|done]. rewrite cache_add_run. done.
  - rewrite cache_add_run, <- E, keep_need. done.
Qed.
Lemma write_audio_packet ts ft pt r m : writeRtmpPacket TagAudio ts ft pt r m =
  (Ok tt, if started m then queue_frame (mkFrame r pt ft TagAudio ts) m else m).
Proof. unfold writeRtmpPacket, bind, get, modify, when, isVideo, isAudio. cbn. apply cache_add_run. Qed.

(** *** A slice *)

Lemma keep_ipbs m l : ipbs (flv m) = l -> with_flv (with_ipbs l (flv m)) m = m.
Proof. intros <-. by destruct m as [? ? ? []]. Qed.

Definition slice_tag (type : Z) (nal : list Z) : list Z :=
  video_tag_header type NALU ++ writeUnsignedInt32 (Z.of_nat (length nal)) ++ nal.

(** What [writeIpb] leaves, with the allocation of the new tag. *)
Definition slice_state (type ts : Z) (nal : list Z) (k : nat) (m : muxer) : muxer :=
  let m := allocated (filled (slice_tag type nal) k) m in
  if needToFindKeyFrame m && negb (type =? KeyFrame) then m
  else
    let m' := with_needToFindKeyFrame false m in
    if started m then queue_frame (mkFrame (pred (length (heap (mVideoAllocator m)))) NALU type TagVideo ts) m' else m'.

Record ready (m : muxer) : Prop := {
  ready_video : wf_allocator (mVideoAllocator m);
  ready_size : individualAllocationSize (mVideoAllocator m) = VIDEO_ALLOC_SIZE;
  ready_ipbs : ipbs (flv m) = [] }.

Lemma write_slice_sample frame type ts m : ready m -> readable frame -> fb_size frame < 2 ^ 31 - 9 -> exists k,
  writeIpb frame type ts m =
  (Ok tt, if h264_sps_pps_sent (flv m) then slice_state type ts (frame_bytes frame) k m else m).
Proof.
  intros [Hw Hi Hb] Hf Hn. unfold writeIpb, writeH264IpbFrame, on_flv at 1. rewrite (bind_ok (modify _) _ _ _ _ eq_refl).
  set (m1 := with_flv _ m). assert (h264_sps_pps_sent (flv m1) = h264_sps_pps_sent (flv m)) as Es by done.
  assert (ipbs (flv m1) = [muxNaluHeader frame; frame]) as Eb by (cbn; by rewrite Hb).
  unfold bind at 1. unfold bind at 1. unfold get. rewrite Es, Eb. unfold when. destruct (h264_sps_pps_sent (flv m)).
  2:{ exists 0%nat. unfold ret, on_flv, modify. f_equal. exact (keep_ipbs m [] Hb). }
  pose proof (readable_length frame Hf) as Hl. assert (readable (muxNaluHeader frame)) as Hh by (eexists; split; [done|]; cbn; lia).
  destruct (muxFlvTag_run [muxNaluHeader frame; frame] type NALU ts m1 Hw Hi) as (fs & k & E).
  { by repeat constructor. }
  { cbn [mbind list_bind]. rewrite !length_app. assert (length (frame_bytes (muxNaluHeader frame)) = 4%nat) as -> by done. cbn. lia. }
  exists k. unfold bind at 1. rewrite E. unfold on_flv at 1. rewrite (bind_ok (modify _) _ _ _ _ eq_refl). cbn [fst snd]. rewrite lift_bind, write_video_packet.
  assert (([muxNaluHeader frame; frame] ≫= frame_bytes) = writeUnsignedInt32 (Z.of_nat (length (frame_bytes frame))) ++ frame_bytes frame) as Ef.
  { cbn [mbind list_bind]. rewrite app_nil_r, Hl. done. }
  rewrite Ef. unfold slice_state, slice_tag. unfold on_flv, modify. cbv beta iota. f_equal.
  assert (pred (length (heap (mVideoAllocator m) ++ [filled (video_tag_header type NALU ++ writeUnsignedInt32 (Z.of_nat (length (frame_bytes frame))) ++ frame_bytes frame) k]))
    = length (heap (mVideoAllocator m))) as Ep by (rewrite length_app; cbn; lia).
  subst m1. cbn [needToFindKeyFrame started allocated with_video_allocator with_flv flv mVideoAllocator heap with_heap]. rewrite Ep.
  destruct m as [st wo th [ch ra ip sp spc pp ppc se aa] ne vh ah va au ca pu so di qu lo]. cbn in Hb. subst ip.
  destruct ne, st, (type =? KeyFrame); reflexivity.
Qed.

(** *** Parameter sets *)

(** The record of the parameter sets, as the comment of [muxSequenceHeader]
    has it. *)
Definition avc_record (profile level : Z) (sps pps : list Z) : list Z :=
  [1; profile; 0; level; 3] ++ (1 :: writeUnsignedInt16 (Z.of_nat (length sps))) ++ sps ++
  (1 :: writeUnsignedInt16 (Z.of_nat (length pps))) ++ pps.
Definition header_tag (profile level : Z) (sps pps : list Z) : list Z :=
  video_tag_header KeyFrame SequenceHeader ++ avc_record profile level sps pps.

Definition header_state (ts : Z) (tag : list Z) (k : nat) (m : muxer) : muxer :=
  let m := with_needToFindKeyFrame false (allocated (filled tag k) m) in
  let m := if started m then queue_frame (mkFrame (pred (length (heap (mVideoAllocator m)))) SequenceHeader KeyFrame TagVideo ts) m else m in
  with_flv (with_sent (flv m)) m.

Lemma readable_whole l : readable (mkFrameBytes (Some (wrap l)) (Z.of_nat (length l))) /\
  frame_bytes (mkFrameBytes (Some (wrap l)) (Z.of_nat (length l))) = l.
Proof.
  assert (remaining (wrap l) = l) as E by done. split; [exists (wrap l); split; [done|]|unfold frame_bytes]; cbn [fb_data fb_size]; rewrite E.
  - lia.
  - by rewrite Nat2Z.id, take_ge.
Qed.

Lemma write_header_run ts m sps pps profile level : ready m -> h264_sps (flv m) = Some sps -> h264_pps (flv m) = Some pps ->
  h264_pps_changed (flv m) = true -> sps !! 1%nat = Some profile -> sps !! 3%nat = Some level ->
  Z.of_nat (length sps + length pps) < 2 ^ 30 ->
  exists k, writeH264SpsPps ts ts m = (Ok tt, header_state ts (header_tag profile level sps pps) k m).
Proof.
  intros [Hw Hi _] Es Ep Hc H1 H3 Hl. unfold writeH264SpsPps, bind at 1, get. rewrite Hc, andb_false_r, Es, Ep. cbn [negb].
  unfold muxSequenceHeader, get_at. cbn [b_bytes wrap]. rewrite H1, H3. cbn [obind]. rewrite lift_bind.
  match goal with |- context [muxFlvTag ?fs _ _ _ _] => set (frames := fs) end.
  assert (frames ≫= frame_bytes = avc_record profile level sps pps) as Ef.
  { unfold frames. cbn [mbind list_bind]. rewrite !(proj2 (readable_whole _)), app_nil_r. done. }
  destruct (muxFlvTag_run frames KeyFrame SequenceHeader ts m Hw Hi) as (fs & k & E).
  { unfold frames. repeat (constructor; [apply readable_whole|]). constructor. }
  { rewrite Ef. unfold avc_record. rewrite !length_app. cbn. lia. }
  exists k. unfold bind at 1. rewrite E. cbn [fst]. rewrite lift_bind. unfold bind at 1. rewrite write_video_packet, Ef.
  change (KeyFrame =? KeyFrame) with true. cbn [negb]. rewrite andb_false_r. unfold header_state, header_tag, on_flv, modify. f_equal.
  cbn [allocated with_video_allocator with_needToFindKeyFrame mVideoAllocator heap with_heap started]. rewrite length_app. cbn [length].
  rewrite Nat.add_1_r. cbn [pred]. by destruct (started m).
Qed.

(** A second parameter set and what may follow it. *)
Definition sei_or_end (tail : list Z) : Prop :=
  tail = [] \/ exists b l, tail = start_code3 ++ b :: l /\ Z.land b 31 = SEI /\ l <> [].

Lemma get_new_prefix l r : get_new (Z.of_nat (length l)) (wrap (l ++ r)) = Ok (l, at_ (l ++ r) (length l)).
Proof.
  unfold get_new, get_bytes. destruct (Z.ltb_spec (Z.of_nat (length l)) 0); [lia|]. rewrite Nat2Z.id.
  change (remaining (wrap (l ++ r))) with (l ++ r). rewrite length_app, take_app_length.
  destruct (Nat.leb_spec (length l) (length l + length r)); [done|lia].
Qed.

(** The size that is left for the second set. *)
Lemma sei_run pre pps tail size : nal_unit pps -> sei_or_end tail -> size = Z.of_nat (length (pre ++ pps ++ tail)) ->
  exists r, demuxAnnexb (at_ (pre ++ pps ++ tail) (length pre)) size false = Ok r /\
  forall m : muxer, (if 0 <? fb_size r.1 then
      d <- non_null (fb_data r.1) ;; b <- lift (get_at d 0) ;;
      ret (if Z.land b 31 =? SEI then Z.of_nat (length (pps ++ tail)) - fb_size r.1 - 3 else Z.of_nat (length (pps ++ tail)))
    else ret (Z.of_nat (length (pps ++ tail)))) m = (Ok (Z.of_nat (length pps)), m).
Proof.
  intros Hp Ht ->. rewrite demux_next by (done || (rewrite !length_app; lia)).
  destruct Ht as [->|(b & l & -> & Hb & Hl)].
  - eexists. split; [done|]. intros m. cbn. by rewrite app_nil_r.
  - destruct l as [|c l]; [done|]. change (length (start_code3 ++ b :: c :: l) - 4)%nat with (S (length l)).
    eexists. split; [reflexivity|]. intros m. change (drop (0 + 3) (start_code3 ++ b :: c :: l)) with (b :: c :: l).
    cbn [fst fb_size fb_data non_null]. destruct (Z.ltb_spec 0 (Z.of_nat (length (b :: c :: l)))); [|cbn in *; lia].
    rewrite (bind_ok (ret _) _ _ _ _ eq_refl). change (get_at (wrap (b :: c :: l)) 0) with (Ok b). rewrite lift_bind, Hb.
    change (SEI =? SEI) with true. unfold ret. do 2 f_equal. rewrite !length_app. cbn [length start_code3]. lia.
Qed.

Lemma parameter_sets_run sps pps tail us m b s : let l := start_code4 ++ sps ++ start_code4 ++ pps ++ tail in
  nal_unit sps -> nal_unit pps -> sei_or_end tail -> sps = b :: s -> Z.land b 31 = SPS ->
  let whole := sps ++ start_code4 ++ pps ++ tail in
  let m1 := if bool_decide (Some whole = h264_sps (flv m)) then m else with_flv (with_sps sps (flv m)) m in
  writeVideoSample (at_ l 0) (Z.of_nat (length l)) us m =
  if bool_decide (Some (pps ++ tail) = h264_pps (flv m)) then (Ok tt, m1)
  else writeH264SpsPps (milliseconds us) (milliseconds us) (with_flv (with_pps pps (flv m1)) m1).
Proof.
  intros l Hs Hp Ht Eb Hb whole m1. assert (0 < length pps)%nat as Hp0 by (destruct Hp as [H _]; destruct pps; [done|cbn; lia]).
  assert (length l = 8 + length sps + length pps + length tail)%nat as Hl
    by (unfold l; rewrite !length_app; cbn; lia).
  unfold writeVideoSample. destruct (Z.ltb_spec (Z.of_nat (length l)) 4); [lia|].
  unfold l at 1. rewrite demux_first; [|by left|lia|fold l; cbn [length start_code4]; lia|fold l; lia]. fold whole. rewrite lift_bind. cbn [fst snd fb_data non_null].
  rewrite (bind_ok (ret _) _ _ _ _ eq_refl). unfold get_at. cbn [b_bytes wrap]. assert (whole !! 0%nat = Some b) as -> by (unfold whole; by rewrite Eb).
  rewrite lift_bind, Hb. cbn [Z.eqb orb SPS IDR Pos.eqb]. unfold writeParameterSets.
  change (start_code4 ++ whole) with (start_code4 ++ sps ++ start_code4 ++ pps ++ tail).
  rewrite (demux_next start_code4 sps (start_code4 ++ pps ++ tail)); [|rewrite Hl, !length_app; cbn [length start_code4]; lia|done].
  replace (first_code (start_code4 ++ pps ++ tail) 0 (length (start_code4 ++ pps ++ tail) - 4)) with (Some (0%nat, 4%nat)).
  2:{ rewrite !length_app. replace (length start_code4 + (length pps + length tail) - 4)%nat with (S (pred (length pps + length tail))) by (cbn; lia). done. }
  rewrite lift_bind. change (drop (0 + 4) (start_code4 ++ pps ++ tail)) with (pps ++ tail). cbn [fst snd fb_size fb_data].
  match goal with |- context [get_new ?n _] => replace n with (Z.of_nat (length sps))
    by (rewrite Hl, length_app; cbn [length start_code4]; lia) end.
  pose proof (get_new_prefix sps (start_code4 ++ pps ++ tail)) as Eg. fold whole in Eg.
  rewrite (bind_ok get _ _ _ _ eq_refl), Eg. change (buffer_equals (wrap whole) (h264_sps (flv m))) with (bool_decide (Some whole = h264_sps (flv m))).
  assert (when (negb (bool_decide (Some whole = h264_sps (flv m))))
    (sps0 <- lift (Ok (sps, at_ whole (length sps))) ;; on_flv (with_sps sps0.1)) m = (Ok tt, m1)) as E1
    by (unfold m1; by destruct (bool_decide _)).
  rewrite (bind_ok _ _ _ _ _ E1).
  destruct (sei_run (start_code4 ++ sps ++ start_code4) pps tail (Z.of_nat (length l)) Hp Ht) as (r & Er & Hr).
  { unfold l. by rewrite <- !app_assoc. }
  replace (start_code4 ++ sps ++ start_code4 ++ pps ++ tail) with ((start_code4 ++ sps ++ start_code4) ++ pps ++ tail) by (by rewrite <- !app_assoc).
  replace (length start_code4 + length sps + (0 + 4))%nat with (length (start_code4 ++ sps ++ start_code4)) by (rewrite !length_app; cbn; lia).
  rewrite Er, lift_bind, (bind_ok _ _ _ _ _ (Hr m1)). cbn [non_null]. rewrite (bind_ok (ret _) _ _ _ _ eq_refl), (bind_ok get _ _ _ _ eq_refl).
  assert (h264_pps (flv m1) = h264_pps (flv m)) as -> by (unfold m1; by destruct (bool_decide _)).
  change (buffer_equals (wrap (pps ++ tail)) (h264_pps (flv m))) with (bool_decide (Some (pps ++ tail) = h264_pps (flv m))).
  destruct (bool_decide (Some (pps ++ tail) = h264_pps (flv m))); [done|]. cbn [negb when].
  rewrite get_new_prefix, lift_bind. reflexivity.
Qed.

(** ** Steps *)

Module Mux.
Inductive action :=
| WriteSample (track : Z) (bb : ByteBuffer) (size us : Z)
| AddTrack (mime : string) (channel rate : Z)
| SetResolution (width height : Z)
| Start (url : string)
| StopBegin
| StopEnd
| Disconnect (now : Z) (io : io_result)
| Worker (i : nat) (e : inputs)
| Receive (now : Z) (io : io_result) (p : RtmpPacket).

Definition act (a : action) : M muxer unit :=
  match a with
  | WriteSample track bb size us => writeSampleData track bb size us
  | AddTrack mime channel rate => addTrack mime channel rate ;;; ret tt
  | SetResolution w h => muxer_setVideoResolution w h
  | Start url => start url
  | StopBegin => stop_begin
  | StopEnd => stop_end
  | Disconnect now io => run_disconnect now io
  | Worker i e => worker_step i e
  | Receive now io p => on_publisher (handle_packet now io p)
  end.

(** The data of a sample are in its buffer, which starts with them. *)
Definition enabled (a : action) (m : muxer) : Prop :=
  match a with
  | WriteSample _ bb size _ => position bb = 0%nat /\ 0 <= size <= Z.of_nat (length (b_bytes bb)) /\ size < 2 ^ 29
  | StopEnd => (0 < stopping m)%nat
  | Disconnect _ _ => (0 < disconnecting m)%nat
  | Receive _ _ _ => rxPacketHandler (publisher m) = true
  | _ => True
  end.

Inductive reach : muxer -> Prop :=
| reach_new m : newMuxer = Ok m -> reach m
| reach_step m a : reach m -> enabled a m -> reach (act a m).2.
End Mux.

(** ** The invariant *)

Definition sent_of (l : list entry) : list (SrsFlvFrame * list Z) :=
  omap (fun e => match e with Sent f bs => Some (f, bs) | Forgotten => None end) l.
Definition tagged (m : muxer) (f : SrsFlvFrame) : SrsFlvFrame * list Z := (f, tag_bytes m f).
Definition ref (f : SrsFlvFrame) : bool * nat := (isVideo f, flvTag f).

(** A header of a type was sent, and not forgotten since. *)
Definition header_known (t : Z) (l : list entry) : Prop := exists l1 f bs l2,
  l = l1 ++ Sent f bs :: l2 /\ isSequenceHeader f = true /\ tag_type f = t /\ Forgotten ∉ l2.
Definition headers_first (l : list entry) : Prop := forall l1 f bs l2,
  l = l1 ++ Sent f bs :: l2 -> isSequenceHeader f = false -> header_known (tag_type f) l1.

Lemma header_known_sent t l f bs : header_known t l -> header_known t (l ++ [Sent f bs]).
Proof.
  intros (l1 & g & gb & l2 & -> & Hg & Ht & Hn). exists l1, g, gb, (l2 ++ [Sent f bs]).
  split_and!; [by rewrite <- app_assoc|done|done|]. rewrite elem_of_app, list_elem_of_singleton. by intros [?|?].
Qed.
Lemma header_known_new l f bs : isSequenceHeader f = true -> header_known (tag_type f) (l ++ [Sent f bs]).
Proof. intros Hf. exists l, f, bs, []. split_and!; [done|done|done|apply not_elem_of_nil]. Qed.
Lemma headers_first_snoc l e : headers_first l ->
  (forall f bs, e = Sent f bs -> isSequenceHeader f = false -> header_known (tag_type f) l) -> headers_first (l ++ [e]).
Proof.
  intros Hl He l1 f bs l2 E Hf. destruct l2 as [|e2 l2 _] using rev_ind.
  - apply app_inj_tail in E as [-> ->]. by apply (He f bs).
  - rewrite app_comm_cons, app_assoc in E. apply app_inj_tail in E as [-> _]. by apply (Hl l1 f bs l2).
Qed.

Definition short (o : option (list Z)) : Prop := from_option (fun l => Z.of_nat (length l) < 2 ^ 29) True o.

Record inv (m : muxer) : Prop := {
  inv_ready : ready m;
  inv_audio : wf_allocator (mAudioAllocator m);
  inv_audio_size : individualAllocationSize (mAudioAllocator m) = AUDIO_ALLOC_SIZE;
  inv_sps : short (h264_sps (flv m));
  inv_pps : short (h264_pps (flv m));
  inv_wait : h264_sps_pps_sent (flv m) = true -> needToFindKeyFrame m = false;
  inv_types : Forall (fun f => tag_type f = TagVideo \/ tag_type f = TagAudio) (mFlvTagCache m);
  inv_tags : Forall (fun f => is_Some (tag_of m f)) (mFlvTagCache m);
  inv_refs : NoDup (ref <$> mFlvTagCache m);
  inv_queue : sublist (sent_of (log m) ++ (tagged m <$> mFlvTagCache m)) (queued m);
  inv_video_header : mVideoSequenceHeader m <> None -> header_known TagVideo (log m);
  inv_audio_header : mAudioSequenceHeader m <> None -> header_known TagAudio (log m);
  inv_order : headers_first (log m) }.

(** *** Changes that keep it *)

Record same_but_tags (m m' : muxer) : Prop := {
  same_flv : flv m' = flv m;
  same_wait : needToFindKeyFrame m' = needToFindKeyFrame m;
  same_video_header : mVideoSequenceHeader m' = mVideoSequenceHeader m;
  same_audio_header : mAudioSequenceHeader m' = mAudioSequenceHeader m;
  same_cache : mFlvTagCache m' = mFlvTagCache m;
  same_queued : queued m' = queued m;
  same_log : log m' = log m }.
#[export] Instance same_but_tags_preorder : PreOrder same_but_tags.
Proof. split; [by split|]. intros m1 m2 m3 [] []. split; congruence. Qed.
Definition same (m m' : muxer) : Prop :=
  same_but_tags m m' /\ mVideoAllocator m' = mVideoAllocator m /\ mAudioAllocator m' = mAudioAllocator m.
#[export] Instance same_preorder : PreOrder same.
Proof.
  split; [split; [reflexivity|done]|]. intros m1 m2 m3 (H1 & E1 & E1') (H2 & E2 & E2'). split; [by etrans|split; congruence].
Qed.

Lemma inv_tags_kept m m' : inv m -> same_but_tags m m' ->
  wf_allocator (mVideoAllocator m') -> individualAllocationSize (mVideoAllocator m') = VIDEO_ALLOC_SIZE ->
  wf_allocator (mAudioAllocator m') -> individualAllocationSize (mAudioAllocator m') = AUDIO_ALLOC_SIZE ->
  (forall f, f ∈ mFlvTagCache m -> tag_of m' f = tag_of m f) -> inv m'.
Proof.
  intros [[_ _ Hb] _ _ Hs Hp Hw Ht Hg Hr Hq Hv Ha Ho] [Ef En Ev Ea Ec Eq El] V1 V2 A1 A2 Htag.
  split; rewrite ?Ef, ?En, ?Ev, ?Ea, ?Ec, ?Eq, ?El; try done.
  - split; [done|done|by rewrite Ef].
  - apply Forall_forall. intros f Hf. rewrite Htag by done. by apply (proj1 (Forall_forall _ _) Hg).
  - replace (tagged m' <$> mFlvTagCache m) with (tagged m <$> mFlvTagCache m); [done|].
    apply list_fmap_ext. intros i f Hf. unfold tagged, tag_bytes. by rewrite Htag by (by eapply list_elem_of_lookup_2).
Qed.
Lemma inv_same m m' : same m m' -> inv m -> inv m'.
Proof.
  intros (Hs & Ev & Ea) Hm. pose proof Hm as [[] ]. eapply inv_tags_kept; [done|done|rewrite ?Ev, ?Ea; done..|].
  intros f _. unfold tag_of. by rewrite Ev, Ea.
Qed.

Lemma inv_flv f m : inv m -> ipbs f = [] -> short (h264_sps f) -> short (h264_pps f) ->
  (h264_sps_pps_sent f = true -> needToFindKeyFrame m = false) -> inv (with_flv f m).
Proof. intros [[] ]. split; [split|..]; done. Qed.
Lemma inv_found m : inv m -> inv (with_needToFindKeyFrame false m).
Proof. intros [[] ]. split; [split|..]; done. Qed.

Lemma cached_bound m f : inv m -> f ∈ mFlvTagCache m ->
  (flvTag f < length (heap (if isVideo f then mVideoAllocator m else mAudioAllocator m)))%nat.
Proof. intros Hm Hf. destruct (proj1 (Forall_forall _ _) (inv_tags m Hm) f Hf) as [a Ha]. by eapply lookup_lt_Some. Qed.

(** A new allocation, which nothing refers to yet. *)
Definition private (v : bool) (r : nat) (m : muxer) : Prop :=
  let s := if v then mVideoAllocator m else mAudioAllocator m in
  (r < length (heap s))%nat /\ Some r ∉ availableAllocations s /\ (v, r) ∉ ref <$> mFlvTagCache m.

Lemma private_new (v : bool) m : let s := if v then mVideoAllocator m else mAudioAllocator m in
  inv m -> Some (length (heap s)) ∉ availableAllocations s /\ (v, length (heap s)) ∉ ref <$> mFlvTagCache m.
Proof.
  intros s Hm. assert (wf_allocator s) as Hs by (unfold s; destruct v; apply Hm). split.
  - intros H. apply (available_bound s) in H; [lia|done].
  - intros (f & E & Hf)%list_elem_of_fmap. injection E as Ev Er. pose proof (cached_bound m f Hm Hf) as Hb.
    rewrite <- Ev in Hb. fold s in Hb. lia.
Qed.

Lemma inv_allocated a m : inv m -> inv (allocated a m) /\ private true (length (heap (mVideoAllocator m))) (allocated a m).
Proof.
  intros Hm. destruct (private_new true m Hm) as [Hp Hr]. split.
  - pose proof Hm as [[Hw Hi _] Ha Hai]. eapply inv_tags_kept; [done|by split| |done..|].
    + destruct Hw as [H1 H2 H3 H4]. split; cbn; try done. eapply Forall_impl; [exact H3|]. intros o (i & b & -> & Hb & H0).
      exists i, b. cbn. by rewrite lookup_app_l by (by eapply lookup_lt_Some).
    + intros f Hf. unfold tag_of, allocated. cbn. pose proof (cached_bound m f Hm Hf). destruct (isVideo f); [|done].
      cbn. by rewrite lookup_app_l.
  - split_and!; [cbn; rewrite length_app; cbn; lia|done|done].
Qed.
Lemma inv_audio_allocated a m : let m' := with_audio_allocator (with_heap (heap (mAudioAllocator m) ++ [a]) (mAudioAllocator m)) m in
  inv m -> inv m' /\ private false (length (heap (mAudioAllocator m))) m'.
Proof.
  intros m' Hm. destruct (private_new false m Hm) as [Hp Hr]. split.
  - pose proof Hm as [[Hw Hi _] Ha Hai]. eapply inv_tags_kept; [done|by split|done|done| |done|].
    + destruct Ha as [H1 H2 H3 H4]. split; cbn; try done. eapply Forall_impl; [exact H3|]. intros o (i & b & -> & Hb & H0).
      exists i, b. cbn. by rewrite lookup_app_l by (by eapply lookup_lt_Some).
    + intros f Hf. unfold tag_of, m'. cbn. pose proof (cached_bound m f Hm Hf). destruct (isVideo f); [done|].
      cbn. by rewrite lookup_app_l.
  - split_and!; [cbn; rewrite length_app; cbn; lia|done|done].
Qed.

Lemma inv_queued f m : inv m -> tag_type f = TagVideo \/ tag_type f = TagAudio -> private (isVideo f) (flvTag f) m -> inv (queue_frame f m).
Proof.
  intros Hm Hf (Hb & _ & Hr).
  assert (inv (with_queued (queued m ++ [tagged m f]) (with_cache (mFlvTagCache m ++ [f]) m))) as H.
  { destruct Hm as [[] ? ? ? ? ? Ht Hg Hn Hq ? ? ?]. split; [by split|..]; cbn; try done.
    - apply Forall_app. split; [done|by apply Forall_singleton].
    - apply Forall_app. split; [done|]. apply Forall_singleton. by apply lookup_lt_is_Some_2.
    - rewrite fmap_app. apply NoDup_app. split_and!; [done| |apply NoDup_singleton].
      intros x Hx ->%list_elem_of_singleton. done.
    - rewrite fmap_app, app_assoc. by apply sublist_app. }
  unfold queue_frame. destruct (isVideo f); [|exact H]. eapply inv_same; [|exact H]. by split.
Qed.

(** *** Video samples *)

Lemma search_from_bound bb n : forall i r, search_from bb i n = Ok r -> match_ r = true -> (position bb <= i)%nat ->
  (position bb + nb_start_code r < i + n + 4)%nat.
Proof.
  induction n as [|n IH]; intros i r E Hm Hi; [cbn in E; by injection E as <-|]. cbn [search_from] in E.
  destruct (bytes_at bb i [0; 0]) as [[]| |]; cbn [obind negb] in E; try done.
  2:{ specialize (IH (S i) r E Hm). lia. }
  destruct (bytes_at bb (i + 2) [1]) as [[]| |]; cbn [obind] in E; try done; [injection E as <-; cbn; lia|].
  destruct (bytes_at bb (i + 2) [0; 1]) as [[]| |]; cbn [obind] in E; try done; [injection E as <-; cbn; lia|].
  specialize (IH (S i) r E Hm). lia.
Qed.
Lemma search_start_bound bb size r : searchStartcode bb size = Ok r -> match_ r = true -> Z.of_nat (nb_start_code r) <= 4 < size.
Proof.
  unfold searchStartcode. destruct (Z.ltb_spec 0 (size - 4)); [|by intros [= <-]].
  destruct (bytes_at bb 0 [0; 0; 0; 1]) as [[]| |]; cbn [obind]; try done; [intros [= <-] _; cbn; lia|].
  destruct (bytes_at bb 0 [0; 0; 1]) as [[]| |]; cbn [obind]; try done; intros [= <-] ?; cbn in *; [lia|done].
Qed.

(** A unit is inside the buffer's first [size] bytes. *)
Record inside (bb : ByteBuffer) (size : Z) (r : SrsFlvFrameBytes * ByteBuffer) : Prop := {
  inside_size : 0 <= fb_size r.1 <= size;
  inside_bytes : b_bytes r.2 = b_bytes bb;
  inside_data : forall d, fb_data r.1 = Some d -> readable r.1 }.
Lemma demux_inside bb size flag r : 0 <= size <= Z.of_nat (length (b_bytes bb)) -> (flag = true -> position bb = 0%nat) ->
  demuxAnnexb bb size flag = Ok r -> inside bb size r.
Proof.
  intros Hs Hf. unfold demuxAnnexb. destruct (Z.ltb_spec (Z.of_nat (position bb)) (size - 4)) as [Hp|].
  2:{ intros [= <-]. split; cbn; [lia|done|done]. }
  destruct (if flag then _ else _) as [c| |] eqn:Ec; cbn [obind]; try done.
  destruct (negb (match_ c) || (nb_start_code c <? 3)%nat) eqn:Em; [intros [= <-]; split; cbn; [lia|done|done]|].
  apply orb_false_iff in Em as [Em%negb_false_iff _].
  assert (Z.of_nat (position bb + nb_start_code c) < size) as Hb.
  { destruct flag; [apply search_start_bound in Ec; [rewrite Hf by done; lia|done]|].
    apply search_from_bound in Ec; [lia|done|done]. }
  unfold get_bytes. destruct (_ <=? _)%nat eqn:El; cbn [obind]; [|done]. intros [= <-]. split; cbn; [lia|done|].
  intros d [= <-]. eexists. split; [done|]. cbn [fb_size]. unfold slice, wrap, remaining. cbn [b_bytes position]. rewrite drop_0, length_drop. lia.
Qed.

Lemma queued_new_inv m a ft pt ts : inv m -> let m' := allocated a m in
  inv (if started m' then queue_frame (mkFrame (pred (length (heap (mVideoAllocator m')))) pt ft TagVideo ts) (with_needToFindKeyFrame false m')
       else with_needToFindKeyFrame false m').
Proof.
  intros Hm m'. destruct (inv_allocated a m Hm) as [Ha Hp]. destruct (started m'); [|by apply inv_found].
  apply inv_queued; [by apply inv_found|by left|]. cbn. rewrite length_app, Nat.add_1_r. exact Hp.
Qed.
Lemma slice_state_inv type ts tag k m : inv m -> inv (slice_state type ts tag k m).
Proof.
  intros Hm. unfold slice_state. destruct (_ && _); [by apply inv_allocated|]. by apply queued_new_inv.
Qed.
Lemma header_state_inv ts tag k m : inv m -> inv (header_state ts tag k m).
Proof.
  intros Hm. pose proof (queued_new_inv m (filled tag k) KeyFrame SequenceHeader ts Hm) as H. unfold header_state.
  cbn [started with_needToFindKeyFrame heap mVideoAllocator].
  match goal with |- inv (with_flv _ ?x) => set (m' := x) in * end.
  assert (inv m') as H' by exact H. assert (needToFindKeyFrame m' = false) as Hn by (unfold m', queue_frame; by destruct (started _)).
  apply inv_flv; [done|apply H'..|by intros _].
Qed.

Lemma muxSequenceHeader_ok sps pps l : muxSequenceHeader sps pps = Ok l -> exists profile level, sps !! 1%nat = Some profile /\ sps !! 3%nat = Some level.
Proof.
  unfold muxSequenceHeader, get_at. cbn [b_bytes wrap]. destruct (sps !! 1%nat) as [p|]; [|done]. destruct (sps !! 3%nat) as [v|]; [|done].
  eauto.
Qed.
Lemma write_header_inv ts m : inv m -> h264_pps_changed (flv m) = true -> inv (writeH264SpsPps ts ts m).2.
Proof.
  intros Hm Hc. pose proof (inv_sps m Hm) as Hs. pose proof (inv_pps m Hm) as Hp.
  destruct (h264_sps (flv m)) as [sps|] eqn:Es; [destruct (h264_pps (flv m)) as [pps|] eqn:Ep; [destruct (muxSequenceHeader sps pps) as [l|e|] eqn:El|]|].
  1:{ apply muxSequenceHeader_ok in El as (p & v & H1 & H3).
      destruct (write_header_run ts m sps pps p v (inv_ready m Hm) Es Ep Hc H1 H3) as (k & ->); [cbn in *; lia|]. by apply header_state_inv. }
  all: unfold writeH264SpsPps, bind at 1, get; rewrite Hc, andb_false_r, Es, ?Ep; cbn [negb]; rewrite ?El; done.
Qed.

Abbreviation kept_inv := (keeps (maintains inv)).
Lemma keeps_maintains {S A} (I : S -> Prop) (m : M S A) : (forall s, I s -> I (m s).2) -> keeps (maintains I) m.
Proof. intros H s. exact (H s). Qed.
Lemma keeps_weaken {S A} (R R' : S -> S -> Prop) (m : M S A) : (forall s s', R s s' -> R' s s') -> keeps R m -> keeps R' m.
Proof. intros H Hm s. apply H, Hm. Qed.
Lemma keeps_same {A} (m : M muxer A) : keeps same m -> kept_inv m.
Proof. apply keeps_weaken. intros s s' Hs Hi. by eapply inv_same. Qed.
Lemma keeps_bind_value {S A B} R `{!PreOrder R} (Q : A -> Prop) (m : M S A) (k : A -> M S B) : keeps R m ->
  (forall s a s', m s = (Ok a, s') -> Q a) -> (forall a, Q a -> keeps R (k a)) -> keeps R (bind m k).
Proof. intros Hm HQ Hk. apply keeps_bind_returns; [done|done|]. intros s a s' E. apply Hk. by eapply HQ. Qed.
Lemma keeps_read {S A} R `{!PreOrder R} (k : S -> M S A) : (forall s, keeps R (k s)) -> keeps R (bind get k).
Proof. intros H. apply keeps_bind; [done|by apply keeps_get|done]. Qed.
Lemma keeps_flv_non_null {A} R `{!PreOrder R} (o : option A) : keeps R (@non_null muxer A o).
Proof. destruct o; [by apply keeps_ret|by apply keeps_throw]. Qed.
#[export] Hint Extern 1 (keeps _ (non_null _)) => (apply keeps_flv_non_null; apply _) : keeps.

Lemma get_new_short n bb r : get_new n bb = Ok r -> n < 2 ^ 29 -> short (Some r.1).
Proof.
  unfold get_new, get_bytes. destruct (Z.ltb_spec n 0); [done|]. destruct (_ <=? _)%nat eqn:E; [|done]. intros [= <-] Hn.
  cbn [short from_option fst]. apply Nat.leb_le in E. rewrite length_take. lia.
Qed.
Lemma keeps_set_sps l : short (Some l) -> kept_inv (on_flv (with_sps l)).
Proof. intros Hl. apply keeps_maintains. intros m Hm. apply inv_flv; [done|apply Hm|done|apply Hm|apply Hm]. Qed.
Lemma write_pps_inv l ts m : short (Some l) -> inv m -> inv ((on_flv (with_pps l) ;;; writeH264SpsPps ts ts) m).2.
Proof.
  intros Hl Hm. unfold on_flv. rewrite (bind_ok (modify _) _ _ _ _ eq_refl). apply write_header_inv; [|done].
  apply inv_flv; [done|apply Hm|apply Hm|done|apply Hm].
Qed.

Lemma keeps_parameter_sets bb size ts frame data : 0 <= size <= Z.of_nat (length (b_bytes bb)) -> size < 2 ^ 29 -> fb_size frame <= size ->
  kept_inv (writeParameterSets bb size ts frame data).
Proof.
  intros Hs Hn Hf. unfold writeParameterSets. apply keeps_lift_bind; [apply _|]. intros p Hp.
  apply demux_inside in Hp as [Ps Pb _]; [|done|done]. apply keeps_read; [apply _|]. intros m.
  apply keeps_bind; [apply _| |intros _].
  { apply keeps_when; [apply _|]. apply keeps_lift_bind; [apply _|]. intros sps Hsps. apply keeps_set_sps.
    eapply get_new_short; [done|lia]. }
  apply keeps_lift_bind; [apply _|]. intros s Hs'. apply demux_inside in Hs' as [Ss _ _]; [|by rewrite Pb|done].
  apply (keeps_bind_value _ (fun n => n <= size)).
  { keep. }
  { intros m1 n m2 E. destruct (0 <? fb_size s.1); [|by injection E as <- _; lia].
    apply bind_returns in E as (d & m3 & _ & E). apply bind_returns in E as (b & m4 & _ & E). injection E as <- _.
    destruct (_ =? _); lia. }
  intros n Hle. apply keeps_bind; [apply _|keep|intros d]. apply keeps_read; [apply _|]. intros m1.
  apply keeps_when; [apply _|]. apply keeps_lift_bind; [apply _|]. intros pps Hpps. apply keeps_maintains. intros m2.
  apply write_pps_inv. eapply get_new_short; [done|lia].
Qed.

Lemma keeps_ipb frame type ts : readable frame -> fb_size frame < 2 ^ 29 -> kept_inv (writeIpb frame type ts).
Proof.
  intros Hr Hs. apply keeps_maintains. intros m Hm.
  destruct (write_slice_sample frame type ts m (inv_ready m Hm) Hr) as (k & ->); [lia|]. cbn [snd].
  destruct (h264_sps_pps_sent _); [by apply slice_state_inv|done].
Qed.

Lemma keeps_video_sample bb size us : position bb = 0%nat -> 0 <= size <= Z.of_nat (length (b_bytes bb)) -> size < 2 ^ 29 ->
  kept_inv (writeVideoSample bb size us).
Proof.
  intros Hb Hs Hn. unfold writeVideoSample. apply keeps_if; [keep|]. apply keeps_lift_bind; [apply _|]. intros r Hr.
  apply demux_inside in Hr as [Rs Rb Rd]; [|done|done]. destruct (fb_data r.1) as [data|] eqn:Ed; [|by intros m]. specialize (Rd _ eq_refl).
  apply keeps_bind; [apply _|keep|]. intros d. apply keeps_bind; [apply _|keep|]. intros b.
  pose proof (fun t p => keeps_ipb r.1 t p Rd) as Hipb.
  repeat apply keeps_if; [apply Hipb; lia|apply keeps_parameter_sets; [by rewrite Rb|lia|lia]|keep|apply Hipb; lia].
Qed.

(** *** Audio samples *)

Lemma fill_allocation_ok r f s : (exists a', (forall a, heap s !! r = Some a -> f a = Ok a') /\ (fill_allocation r f s).2 = with_heap (<[r := a']> (heap s)) s) \/
  (fill_allocation r f s).2 = s.
Proof.
  unfold fill_allocation, bind, get. destruct (heap s !! r) as [a|]; [|by right]. unfold lift, put.
  destruct (f a) as [a'|e|] eqn:E; [left|by right..]. exists a'. split; [|done]. by intros ? [= <-].
Qed.
Definition holds_audio (r : nat) (m : muxer) : Prop := inv m /\ private false r m.
Lemma keeps_fill_audio r f : keeps (maintains (holds_audio r)) (on_audio (fill_allocation r f)).
Proof.
  apply keeps_maintains. intros m [Hm Hp]. unfold on_audio, zoom. pose proof (fill_allocation_ok r f (mAudioAllocator m)) as Hf.
  destruct (fill_allocation r f (mAudioAllocator m)) as [o s]. cbn [snd] in *. destruct Hf as [(a & _ & ->)| ->]; [|by destruct m].
  destruct Hp as (Hl & Hav & Hr). pose proof Hm as [[] ]. split.
  - eapply inv_tags_kept; [done|by split|done|done|by apply wf_insert|done|]. intros g Hg. unfold tag_of. cbn.
    destruct (isVideo g) eqn:Eg; [done|]. cbn. rewrite list_lookup_insert_ne; [done|]. intros ->. apply Hr. apply list_elem_of_fmap.
    exists g. split; [|done]. unfold ref. by rewrite Eg.
  - split_and!; [cbn; by rewrite length_insert|done|done].
Qed.
Lemma keeps_config_got r : keeps (maintains (holds_audio r)) (on_flv with_config_got).
Proof. apply keeps_maintains. intros m [Hm Hp]. split; [|done]. apply inv_flv; [done|apply Hm..]. Qed.
#[export] Hint Resolve keeps_fill_audio keeps_config_got : keeps.

Lemma bind_inv {S A B} (P I : S -> Prop) (m : M S A) (k : A -> M S B) : keeps (maintains P) m -> (forall s, P s -> I s) ->
  (forall a s, P s -> I (k a s).2) -> forall s, P s -> I (bind m k s).2.
Proof.
  intros Hm HI Hk s Hs. specialize (Hm s Hs). unfold bind. destruct (m s) as [[a|e|] s']; cbn in *; auto.
Qed.
Lemma bind_inv_get {S B} (I : S -> Prop) (k : S -> M S B) s : I (k s s).2 -> I (bind get k s).2.
Proof. done. Qed.

Lemma keeps_audio_sample bb size us : 0 <= size < 2 ^ 29 -> kept_inv (writeAudioSample bb size us).
Proof.
  intros Hs. apply keeps_maintains. intros m Hm. unfold writeAudioSample.
  assert (on_audio (allocate (int (size + 2))) m = (Ok (length (heap (mAudioAllocator m))),
    with_audio_allocator (with_heap (heap (mAudioAllocator m) ++ [fresh (int (size + 2)) (mAudioAllocator m)]) (mAudioAllocator m)) m)) as E.
  { unfold on_audio, zoom. rewrite allocate_run; [done|apply Hm|rewrite int_id by (unfold is_int; lia); lia]. }
  rewrite (bind_ok _ _ _ _ _ E). destruct (inv_audio_allocated (fresh (int (size + 2)) (mAudioAllocator m)) m Hm) as [Hi Hp].
  set (r := length _) in *. match type of Hi with inv ?x => set (m1 := x) in * end. clearbody m1 r. clear E Hm m.
  apply bind_inv_get. assert (holds_audio r m1) as H1 by done. revert H1. generalize (flv m1). intros f.
  apply bind_inv; [keep|by intros s []|]. intros t. apply bind_inv; [keep|by intros s []|]. intros _ s [Hs1 Hs2].
  rewrite write_audio_packet. cbn [snd]. destruct (started s); [|done]. apply inv_queued; [done|by right|exact Hs2].
Qed.

(** *** The worker *)

(** The worker has taken [f] from the queue. *)
Record holds (f : SrsFlvFrame) (m : muxer) : Prop := {
  holds_inv : inv m;
  holds_type : tag_type f = TagVideo \/ tag_type f = TagAudio;
  holds_tag : is_Some (tag_of m f);
  holds_ref : ref f ∉ ref <$> mFlvTagCache m;
  holds_queue : sublist (sent_of (log m) ++ tagged m f :: (tagged m <$> mFlvTagCache m)) (queued m) }.
Lemma holds_taken f r m : inv m -> mFlvTagCache m = f :: r -> holds f (with_cache r m).
Proof.
  intros [[] ? ? ? ? ? Ht Hg Hn Hq ? ? ?] E. rewrite E in Ht, Hg, Hn, Hq. inversion Ht; subst. inversion Hg; subst.
  rewrite fmap_cons in Hn. apply NoDup_cons in Hn as [Hn1 Hn2]. split; try done. split; [by split|..]; try done.
  cbn. etrans; [|exact Hq]. apply sublist_app; [done|]. by apply sublist_cons.
Qed.

Definition log_sent (f : SrsFlvFrame) (m : muxer) : muxer := with_log (log m ++ [Sent f (tag_bytes m f)]) m.
Lemma inv_sent f m : holds f m -> (isSequenceHeader f = false -> header_known (tag_type f) (log m)) -> inv (log_sent f m).
Proof.
  intros [[[] ? ? ? ? ? Ht Hg Hn Hq Hv Ha Ho] Hty _ _ Hs] Hh. split; [by split|..]; cbn; try done.
  - unfold sent_of. rewrite omap_app, <- app_assoc. exact Hs.
  - intros H. by apply header_known_sent, Hv.
  - intros H. by apply header_known_sent, Ha.
  - apply headers_first_snoc; [done|]. by intros ? ? [= <- <-].
Qed.
Lemma inv_sent_header f m : holds f m -> isSequenceHeader f = true ->
  inv (log_sent f (if isVideo f then with_video_header (Some f) m else with_audio_header (Some f) m)).
Proof.
  intros Hf Hh. destruct (inv_sent f m Hf) as [[] ]; [by rewrite Hh|]. pose proof (header_known_new (log m) f (tag_bytes m f) Hh) as Hk.
  unfold isVideo. destruct (holds_type f m Hf) as [E|E]; rewrite E in *; cbn [Z.eqb TagVideo TagAudio Pos.eqb]; split; try (by split); done.
Qed.

Lemma keeps_on_publisher {A} (x : M connection A) : keeps same (on_publisher x).
Proof. apply keeps_zoom_any; [apply _|]. intros m t. by repeat split. Qed.
Lemma keeps_on_publisher_inv {A} (x : M connection A) : kept_inv (on_publisher x).
Proof. apply keeps_same, keeps_on_publisher. Qed.
#[export] Hint Resolve keeps_on_publisher keeps_on_publisher_inv : keeps.

(** A tag that was sent and is not in the queue is released. *)
Lemma keeps_tag_released f m : inv m -> (tag_type f = TagVideo \/ tag_type f = TagAudio) -> is_Some (tag_of m f) -> ref f ∉ ref <$> mFlvTagCache m ->
  inv (if isVideo f then on_video (release (flvTag f)) m else on_audio (release (flvTag f)) m).2.
Proof.
  intros Hm Hty Hf Hr. apply lookup_lt_is_Some in Hf. pose proof Hm as [[] ].
  assert (forall g, g ∈ mFlvTagCache m -> isVideo g = isVideo f -> flvTag f <> flvTag g) as Hne.
  { intros g Hg Ev E. apply Hr, list_elem_of_fmap. exists g. unfold ref. by rewrite Ev, E. }
  destruct (isVideo f) eqn:Ef; unfold on_video, on_audio, zoom; rewrite release_run by done.
  all: eapply inv_tags_kept; [done|by split|try done; by apply wf_release|done|try done; by apply wf_release|done|].
  all: intros g Hg; unfold tag_of; cbn; destruct (isVideo g) eqn:Eg; try done; cbn; rewrite list_lookup_alter_ne; auto.
Qed.
Lemma send_inv now io f m : tag_type f = TagVideo \/ tag_type f = TagAudio -> is_Some (tag_of m f) -> ref f ∉ ref <$> mFlvTagCache m ->
  inv (log_sent f m) -> inv (sendFlvTag now io (Some f) m).2.
Proof.
  intros Hty Ht Hr Hi. unfold sendFlvTag. apply bind_inv_get. destruct Ht as [a Ha]. rewrite Ha.
  assert (tag_bytes m f = used a) as Eb by (unfold tag_bytes; by rewrite Ha). unfold log_sent in Hi. rewrite Eb in Hi.
  rewrite (bind_ok (modify _) _ _ _ _ eq_refl). match type of Hi with inv ?x => set (m1 := x) in * end.
  assert (is_Some (tag_of m1 f)) as Ht1 by by exists a. assert (ref f ∉ ref <$> mFlvTagCache m1) as Hr1 by done. clearbody m1.
  assert (forall (x : M connection unit) o m2, on_publisher x m1 = (o, m2) ->
    inv m2 /\ inv (if isVideo f then on_video (release (flvTag f)) m2 else on_audio (release (flvTag f)) m2).2) as Hpub.
  { intros x o m2 E. pose proof (kept _ _ _ _ _ (keeps_on_publisher x) E) as Hs. assert (inv m2) as H2 by by eapply inv_same.
    destruct Hs as ([] & Ev & Ea). split; [done|]. apply keeps_tag_released; [done|done| |congruence]. unfold tag_of. rewrite Ev, Ea. done. }
  assert (isVideo f = false -> isAudio f = true) as Hau by (unfold isVideo, isAudio; destruct Hty as [-> | ->]; done).
  destruct (isVideo f); [|rewrite Hau by done; cbn [when]]; unfold bind;
    match goal with |- context [on_publisher ?x m1] => destruct (on_publisher x m1) as [o m2] eqn:E; apply Hpub in E as [] end;
    by destruct o.
Qed.
Lemma handle_frame_inv now io f m : holds f m -> inv (handle_frame now io f m).2.
Proof.
  intros Hf. pose proof Hf as [Hi Hty Ht Hr _]. unfold handle_frame.
  assert (isVideo f = false -> isAudio f = true) as Hau by (unfold isVideo, isAudio; destruct Hty as [-> | ->]; done).
  destruct (isSequenceHeader f) eqn:Eh.
  - pose proof (inv_sent_header f m Hf Eh) as Hs. destruct (isVideo f) eqn:Ev; [|rewrite Hau by done; cbn [when]];
      rewrite (bind_ok (modify _) _ _ _ _ eq_refl); apply send_inv; done.
  - apply bind_inv_get. assert (header_known (tag_type f) (log m) -> inv (sendFlvTag now io (Some f) m).2) as Hk.
    { intros Hk. apply send_inv; [done..|]. by apply inv_sent. }
    unfold isVideo, isAudio in *. destruct Hty as [E|E]; rewrite E in *; cbn [Z.eqb TagVideo TagAudio Pos.eqb andb].
    + case_bool_decide as Hd; [by apply Hk, (inv_video_header m Hi)|done].
    + case_bool_decide as Hd; [by apply Hk, (inv_audio_header m Hi)|done].
Qed.

(** *** The other steps *)

Lemma keeps_forget_headers : kept_inv forget_headers.
Proof.
  apply keeps_maintains. intros m [[] ? ? ? ? ? Ht Hg Hn Hq Hv Ha Ho]. split; [by split|..]; cbn; try done.
  - unfold sent_of. by rewrite omap_app, app_nil_r.
  - by apply headers_first_snoc.
Qed.
Lemma keeps_change (f : muxer -> muxer) : (forall m, same m (f m)) -> kept_inv (modify f).
Proof. intros H. apply keeps_same, keeps_modify, H. Qed.
Lemma keeps_set_stage i s : kept_inv (set_stage i s).
Proof. by apply keeps_change. Qed.
Lemma keeps_wait i : kept_inv (wait i).
Proof. by apply keeps_change. Qed.
Lemma keeps_interrupt b i : kept_inv (modify (set_interrupted b i)).
Proof. by apply keeps_change. Qed.
Lemma keeps_start url : kept_inv (start url).
Proof. by apply keeps_change. Qed.
Lemma keeps_stop_begin : kept_inv stop_begin.
Proof.
  apply keeps_maintains. intros m [[] ? ? ? ? ? Ht Hg Hn Hq Hv Ha Ho].
  assert (inv (with_started false (with_cache [] m))) as H.
  { split; [by split|..]; cbn; try done; [apply NoDup_nil_2|]. etrans; [|exact Hq]. rewrite app_nil_r. by apply sublist_inserts_r. }
  cbn [stop_begin modify snd]. eapply inv_same; [|exact H]. cbn. by destruct (worker m).
Qed.
Lemma short_zeros o : short o -> short ((fun l => replicate (length l) 0) <$> o).
Proof. destruct o as [l|]; cbn; [by rewrite length_replicate|done]. Qed.
Lemma keeps_stop_end : kept_inv stop_end.
Proof. apply keeps_maintains. intros m [[] ]. split; [by split|..]; cbn; try done; by apply short_zeros. Qed.
#[export] Hint Resolve keeps_forget_headers keeps_set_stage keeps_wait keeps_interrupt keeps_start keeps_stop_begin keeps_stop_end : keeps.

Lemma keeps_take_frame i now io : kept_inv (take_frame i now io).
Proof.
  apply keeps_maintains. intros m Hm. unfold take_frame. apply bind_inv_get. destruct (mFlvTagCache m) as [|f r] eqn:E.
  - by apply keeps_set_stage.
  - rewrite (bind_ok (modify _) _ _ _ _ eq_refl). by apply handle_frame_inv, holds_taken.
Qed.
Lemma keeps_add_track mime c r : kept_inv (addTrack mime c r).
Proof.
  unfold addTrack. keep. apply keeps_maintains. intros m Hm. apply inv_flv; [done|apply Hm..].
Qed.
#[export] Hint Resolve keeps_take_frame keeps_add_track : keeps.
Lemma keeps_worker_step i e : kept_inv (worker_step i e).
Proof. unfold worker_step, connect_done, next_frame. keep. Qed.

Lemma reach_inv m : Mux.reach m -> inv m.
Proof.
  induction 1 as [m E|m a _ IH Ha].
  - unfold newMuxer in E. destruct (new_allocator_wf VIDEO_ALLOC_SIZE 0) as (v & Ev & Hv & Vs); [done|].
    destruct (new_allocator_wf AUDIO_ALLOC_SIZE 0) as (u & Eu & Hu & Us); [done|]. rewrite Ev, Eu in E. cbn [obind] in E. injection E as <-.
    clear Ev Eu. split; [by split|..]; try done; [apply NoDup_nil_2|]. intros l1 f bs l2 El. by destruct l1.
  - destruct a; cbn [Mux.act] in *; revert IH;
      match goal with |- inv _ -> inv (?x _).2 => enough (kept_inv x) as H by apply H end.
    2-9: unfold muxer_setVideoResolution, run_disconnect, disconnect; keep; by apply keeps_worker_step || by apply keeps_change.
    cbn in Ha. unfold writeSampleData. apply keeps_if; [apply keeps_video_sample|apply keeps_audio_sample]; tauto || lia.
Qed.
