(* ===== verification/FlvStreamSpec.v ===== *)
(** * yasea: from samples to the server

    What the FLV muxer does with samples and tags, put together with the RTMP
    connection that its worker sends them on: the tags it makes of a sample, the
    order and contents of what is sent in every reachable state, and what the
    server's decoder gets.  The steps are those of FlvMuxerSpec.v. *)

From stdpp Require Import base list strings gmap.
From Stdlib Require Import ZArith Lia.
From S2P Require Import Prelude Keeps Java RtmpUtil Amf RtmpPacket RtmpPacketSpec RtmpHandshake RtmpConnection RtmpConnectionSpec.
From S2P Require Import Allocator FlvMuxer FlvMuxerSpec.
Open Scope Z_scope.

(** ** A content packet on the wire *)

(** The packet as it is sent. *)
Definition sized (p : RtmpPacket) : RtmpPacket :=
  mkPacket (setPacketLength (Z.of_nat (length (payload (body p)))) (packet_header p)) (body p).

Lemma send_content now p c i pend : session c = Some i -> 0 < txChunkSize i -> is_content (body p) = true ->
  sendable (sized p) -> pend !! stream_of p = None -> extendedTimestamp (packet_header p) = 0 -> divisible (sized p) ->
  exists i' cs k hr, sendRtmpPacket now Written p c = (Ok tt, with_session (Some i') (with_outputStream (outputStream c ++ concat cs) c)) /\
    chunks_sent False (mkSender (txChunkSize i) pend) cs (mkSender (txChunkSize i) pend) (replicate k None ++ [delivered hr (body p)]) /\
    later_header hr = later_header (packet_header (sized p)) /\ txChunkSize i' = txChunkSize i.
Proof.
  intros Hi Hn Hc Hs Hp Hx Hd. unfold sendRtmpPacket. cbn zeta. set (id := chunkStreamId (packet_header p)).
  destruct (getChunkStreamInfo_stored now id i) as (i1 & E1 & _).
  assert (txChunkSize i1 = txChunkSize i) as Htx.
  { revert E1. unfold getChunkStreamInfo, bind, get, put, ret. destruct (chunkChannels i !! id); by intros [= _ <-]. }
  rewrite (bind_ok (on_session _) _ c (with_session (Some i1) c) (channel now i id)) by (unfold on_session; by rewrite Hi, E1).
  rewrite (bind_ok get _ _ _ _ eq_refl). rewrite (bind_ok (on_session get) _ (with_session (Some i1) c) (with_session (Some i1) c) i1 eq_refl).
  rewrite Hc, Htx.
  destruct (packet_chunks False now (txChunkSize i) pend (packet_header p) (body p)
    (mkTx [] (packet_header p) (setPrevHeaderTx (packet_header p) (channel now i id)))) as (t & cs & k & hr & E & Hw & Hcs & Hh).
  1-8: try done; by destruct (body p).
  rewrite E, (bind_ok (on_session (store_channel _ _)) _ (with_session (Some i1) c)
    (with_session (Some (stored id (setPrevHeaderTx (tx_header t) (tx_info t)) i1)) c) tt eq_refl).
  rewrite lift_bind, (bind_ok (modify _) _ _ _ _ eq_refl), Hw. exists (stored id (setPrevHeaderTx (tx_header t) (tx_info t)) i1), cs, k, hr.
  split_and!; [by destruct (body p)| |done|done]. replace (next_size (body p) (txChunkSize i)) with (txChunkSize i) in Hcs by (by destruct (body p)).
  done.
Qed.

(** A connection that may publish. *)
Record publishing (c : connection) (i : RtmpSessionInfo) : Prop := {
  publishing_session : session c = Some i;
  publishing_size : 0 < txChunkSize i;
  publishing_connected : connected c = true;
  publishing_stream : currentStreamId c <> 0 /\ is_int (currentStreamId c);
  publishing_permitted : publishPermitted c = true }.

Definition media (video : bool) (data : list Z) (size : Z) : packet_body :=
  if video then Video (Some data) size else Audio (Some data) size.
Definition media_stream (video : bool) : Z := if video then RTMP_CID_VIDEO else RTMP_CID_AUDIO.
Definition publish_media (video : bool) (now : Z) (a : Allocation) (ts : Z) : M connection unit :=
  (if video then publishVideoData else publishAudioData) now Written (Some (a_data a)) (a_size a) ts.

(** What counts and reports leaves the connection as it is. *)
Record reported (c c' : connection) : Prop := {
  reported_out : outputStream c' = outputStream c;
  reported_session : session c' = session c;
  reported_connected : connected c' = connected c;
  reported_stream : currentStreamId c' = currentStreamId c;
  reported_permitted : publishPermitted c' = publishPermitted c }.
Lemma reported_run video now size c : exists c', ((if video : bool then
    modify (fun c => with_videoFrameCacheNumber (int (videoFrameCacheNumber c - 1)) c) ;;;
    calcVideoFpsAndBitrate now size ;;; notify RtmpVideoStreaming
  else calcAudioBitrate now size ;;; notify RtmpAudioStreaming) c) = (Ok tt, c') /\ reported c c'.
Proof.
  destruct video; unfold calcVideoFpsAndBitrate, calcAudioBitrate, bind, get, modify, notify.
  - cbn [videoMeter with_videoFrameCacheNumber]. destruct (count_frame now size (videoMeter c)) as [m [[[n b] d]|]]; eexists; (split; [reflexivity|by split]).
  - destruct (count_frame now size (audioMeter c)) as [m [[[n b] d]|]]; eexists; (split; [reflexivity|by split]).
Qed.

Lemma publish_received video now a ts c i pend : publishing c i -> 0 < a_size a <= Z.of_nat (length (a_data a)) -> a_size a < 2 ^ 24 ->
  0 <= ts < 16777215 -> pend !! media_stream video = None ->
  exists c' i' cs k h, publish_media video now a ts c = (Ok tt, c') /\ outputStream c' = outputStream c ++ concat cs /\
    chunks_sent False (mkSender (txChunkSize i) pend) cs (mkSender (txChunkSize i) pend) (replicate k None ++ [Some (mkPacket h (media video (used a) 0))]) /\
    absoluteTimestamp h = ts /\ messageStreamId h = currentStreamId c /\ publishing c' i' /\ txChunkSize i' = txChunkSize i.
Proof.
  intros [Hi Hn Hc [Hz Hint] Hp] Ha H24 Hts Hpend.
  set (p := content_packet (if video then newVideo else newAudio) (media video (a_data a) (a_size a)) ts (currentStreamId c)).
  assert (payload (body p) = used a) as Epay by (by destruct video).
  assert (Z.of_nat (length (used a)) = a_size a) as Elen by (unfold used; rewrite length_take; lia).
  assert (sendable (sized p)) as Hs.
  { split.
    - destruct video; cbn; lia.
    - by destruct video.
    - split; unfold sized; rewrite Epay, Elen; destruct video; cbn; try lia; done.
    - unfold sized, body_length. cbn [packet_header body]. rewrite Epay. by destruct video. }
  destruct (send_content now p c i pend Hi Hn) as (i' & cs & k & hr & E & Hcs & Hh & Htx); [by destruct video|done|by destruct video|by destruct video| |].
  { split; [destruct video; cbn; lia|destruct video; cbn; lia]. }
  destruct (reported_run video now (a_size a) (with_session (Some i') (with_outputStream (outputStream c ++ concat cs) c))) as (c' & Er & [R1 R2 R3 R4 R5]).
  exists c', i', cs, k, hr. split_and!.
  - unfold publish_media, publishVideoData, publishAudioData, refusal.
    assert (exists x l, a_data a = x :: l) as (x & l & El) by (destruct (a_data a); [cbn in Ha; lia|by eexists _, _]).
    destruct video; rewrite (bind_ok get _ _ _ _ eq_refl), El; destruct (Z.ltb_spec ts 0); try lia; cbn [orb];
      rewrite Hc, Hp; destruct (Z.eqb_spec (currentStreamId c) 0); try done; cbn [negb]; rewrite <- El;
      rewrite (bind_ok _ _ _ _ _ E); exact Er.
  - by rewrite R1.
  - unfold media, used. by destruct video.
  - injection Hh as _ ? _ _ _. by destruct video.
  - injection Hh as _ ? ? ? ?. by destruct video.
  - split; rewrite ?R2, ?R3, ?R4, ?R5; try done. cbn. lia.
  - done.
Qed.

(** ** The worker's step *)

Lemma worker_takes f r i e b m a : threads m !! i = Some (mkThread Draining b) -> mFlvTagCache m = f :: r ->
  (isSequenceHeader f = false -> (if isVideo f then mVideoSequenceHeader m else mAudioSequenceHeader m) <> None) ->
  tag_type f = TagVideo \/ tag_type f = TagAudio -> tag_of m f = Some a -> io_of e 0%nat = Written ->
  exists m1, worker_step i e m = try_catch (on_publisher (publish_media (isVideo f) (now_of e) a (dts f)) ;;;
      if isVideo f then on_video (release (flvTag f)) else on_audio (release (flvTag f))) (fun _ => true) (fun _ => set_stage i Ended) m1 /\
    publisher m1 = publisher m /\ mFlvTagCache m1 = r /\ log m1 = log m ++ [Sent f (used a)] /\
    mVideoAllocator m1 = mVideoAllocator m /\ mAudioAllocator m1 = mAudioAllocator m.
Proof.
  intros Ht Hc Hh Hty Ha Hio. unfold worker_step. rewrite (bind_ok get _ _ _ _ eq_refl), Ht. cbn [stage_of].
  unfold try_catch, take_frame. rewrite (bind_ok get _ _ _ _ eq_refl), Hc, (bind_ok (modify _) _ _ _ _ eq_refl), Hio.
  unfold handle_frame.
  assert (isVideo f = negb (isAudio f)) as Ev by (unfold isVideo, isAudio; destruct Hty as [-> | ->]; done).
  set (m0 := with_cache r m).
  enough (exists m2, (if isSequenceHeader f then
    if isVideo f then modify (with_video_header (Some f)) ;;; sendFlvTag (now_of e) Written (Some f)
    else when (isAudio f) (modify (with_audio_header (Some f)) ;;; sendFlvTag (now_of e) Written (Some f))
  else
    m <- get ;;
    if isVideo f && bool_decide (mVideoSequenceHeader m <> None) then sendFlvTag (now_of e) Written (Some f)
    else when (isAudio f && bool_decide (mAudioSequenceHeader m <> None)) (sendFlvTag (now_of e) Written (Some f))) m0 =
    sendFlvTag (now_of e) Written (Some f) m2 /\ publisher m2 = publisher m /\ mFlvTagCache m2 = r /\ log m2 = log m /\
    mVideoAllocator m2 = mVideoAllocator m /\ mAudioAllocator m2 = mAudioAllocator m) as (m2 & -> & P1 & P2 & P3 & P4 & P5).
  - unfold sendFlvTag. rewrite (bind_ok get _ _ _ _ eq_refl). assert (tag_of m2 f = Some a) as -> by (unfold tag_of in *; by rewrite P4, P5).
    rewrite (bind_ok (modify _) _ _ _ _ eq_refl). exists (with_log (log m2 ++ [Sent f (used a)]) m2). split; [|cbn; by rewrite P3].
    unfold publish_media. rewrite Ev. by destruct (isAudio f).
  - destruct (isSequenceHeader f); [destruct (isVideo f)|].
    + exists (with_video_header (Some f) m0). by rewrite (bind_ok (modify _) _ _ _ _ eq_refl).
    + exists (with_audio_header (Some f) m0). rewrite <- (negb_involutive (isAudio f)), <- Ev. cbn [negb when]. by rewrite (bind_ok (modify _) _ _ _ _ eq_refl).
    + exists m0. rewrite (bind_ok get _ _ _ _ eq_refl). split; [|done]. specialize (Hh eq_refl). rewrite Ev in *. destruct (isAudio f); cbn [negb andb] in *.
      * by rewrite bool_decide_eq_true_2 by done.
      * by rewrite bool_decide_eq_true_2 by done.
Qed.

Lemma released_run f m a : wf_allocator (mVideoAllocator m) -> wf_allocator (mAudioAllocator m) -> tag_of m f = Some a ->
  exists m', (if isVideo f then on_video (release (flvTag f)) else on_audio (release (flvTag f))) m = (Ok tt, m') /\
    publisher m' = publisher m /\ mFlvTagCache m' = mFlvTagCache m /\ log m' = log m.
Proof.
  intros Hv Hau Ha%lookup_lt_Some. destruct (isVideo f); unfold on_video, on_audio, zoom; rewrite release_run by done; by eexists.
Qed.
Lemma worker_sends f r i e b m a s pend : Mux.reach m -> threads m !! i = Some (mkThread Draining b) -> mFlvTagCache m = f :: r ->
  (isSequenceHeader f = false -> (if isVideo f then mVideoSequenceHeader m else mAudioSequenceHeader m) <> None) ->
  tag_of m f = Some a -> io_of e 0%nat = Written -> publishing (publisher m) s ->
  0 < a_size a <= Z.of_nat (length (a_data a)) -> a_size a < 2 ^ 24 -> 0 <= dts f < 16777215 -> pend !! media_stream (isVideo f) = None ->
  exists m' s' cs k h, worker_step i e m = (Ok tt, m') /\ mFlvTagCache m' = r /\ log m' = log m ++ [Sent f (used a)] /\
    outputStream (publisher m') = outputStream (publisher m) ++ concat cs /\
    chunks_sent False (mkSender (txChunkSize s) pend) cs (mkSender (txChunkSize s) pend) (replicate k None ++ [Some (mkPacket h (media (isVideo f) (used a) 0))]) /\
    absoluteTimestamp h = dts f /\ messageStreamId h = currentStreamId (publisher m) /\
    publishing (publisher m') s' /\ txChunkSize s' = txChunkSize s.
Proof.
  intros Hr Ht Hc Hh Ha Hio Hp Hs H24 Hts Hpend. pose proof (reach_inv m Hr) as Hm.
  assert (tag_type f = TagVideo \/ tag_type f = TagAudio) as Hty.
  { pose proof (inv_types m Hm) as H. rewrite Hc in H. by inversion H. }
  destruct (worker_takes f r i e b m a Ht Hc Hh Hty Ha Hio) as (m1 & -> & P1 & P2 & P3 & P4 & P5). rewrite <- P1 in Hp.
  destruct (publish_received (isVideo f) (now_of e) a (dts f) (publisher m1) s pend Hp Hs H24 Hts Hpend)
    as (c' & s' & cs & k & h & E & Ho & Hcs & H1 & H2 & H3 & H4).
  assert (on_publisher (publish_media (isVideo f) (now_of e) a (dts f)) m1 = (Ok tt, with_publisher c' m1)) as E2
    by (unfold on_publisher, zoom; by rewrite E).
  destruct (released_run f (with_publisher c' m1) a) as (m' & E3 & Q1 & Q2 & Q3).
  { cbn. rewrite P4. apply Hm. }
  { cbn. rewrite P5. apply Hm. }
  { unfold tag_of in *. cbn. by rewrite P4, P5. }
  exists m', s', cs, k, h. unfold try_catch. rewrite (bind_ok _ _ _ _ _ E2), E3, Q1, Q2, Q3. cbn. rewrite <- P1. done.
Qed.

(** ** Correctness *)

(** C8: what is sent is what was queued, in order.  Whatever the calls, the
    starts and stops and the order in which the encoders, the workers, the
    receiving thread and the threads that disconnect take their steps: the tags
    that were sent, with the bytes they had then, followed by those in the queue
    are a subsequence of the tags as they were when they were queued, so no tag
    changes while it waits although the allocations are shared; no two tags in
    the queue have the same allocation; and after a connection was opened or
    closed no data of a track is sent before its header. *)
Theorem flv_sent_in_order m : Mux.reach m ->
  sublist (sent_of (log m) ++ (tagged m <$> mFlvTagCache m)) (queued m) /\
  NoDup (ref <$> mFlvTagCache m) /\ headers_first (log m).
Proof. intros [ ]%reach_inv. done. Qed.


Lemma sample_state_queue ft pt ts tag k m : let m1 := allocated (filled tag k) m in
  let f := mkFrame (length (heap (mVideoAllocator m))) pt ft TagVideo ts in
  let m' := queue_frame (mkFrame (pred (length (heap (mVideoAllocator m1)))) pt ft TagVideo ts) (with_needToFindKeyFrame false m1) in
  queued m' = queued m ++ [(f, tag)] /\ mFlvTagCache m' = mFlvTagCache m ++ [f].
Proof.
  intros m1 f m'. assert (pred (length (heap (mVideoAllocator m1))) = length (heap (mVideoAllocator m))) as Ep
    by (unfold m1; cbn; rewrite length_app; cbn; lia). unfold m'. rewrite Ep. cbn. split; [|done]. do 3 f_equal.
  unfold tag_bytes, tag_of. cbn. rewrite lookup_app_r, Nat.sub_diag by lia. cbn. unfold used, filled. cbn.
  by rewrite Nat2Z.id, take_app_length.
Qed.

(** C27: a slice becomes a tag.  In every reachable state in which the muxer is
    started and the parameter sets were queued, a sample that is a start code of
    three or four bytes and a slice leads to a tag at the end of the queue: the
    header of the tag, the length of the slice in four bytes and the slice, as a
    key frame if it is of an instantaneous refresh, with the time of the sample
    in milliseconds. *)
Theorem slice_tagged m sc nal rest b us : let bb := mkBuffer (sc ++ nal ++ rest) 0 in let size := Z.of_nat (length (sc ++ nal)) in
  Mux.reach m -> started m = true -> h264_sps_pps_sent (flv m) = true -> sc = start_code4 \/ sc = start_code3 ->
  nal !! 0%nat = Some b -> Z.land b 31 = IDR \/ Z.land b 31 = NonIDR -> 4 < size < 2 ^ 30 ->
  let type := if Z.land b 31 =? IDR then KeyFrame else InterFrame in
  exists m' r, writeSampleData VIDEO_TRACK bb size us m = (Ok tt, m') /\
    let f := mkFrame r NALU type TagVideo (milliseconds us) in
    queued m' = queued m ++ [(f, slice_tag type nal)] /\ mFlvTagCache m' = mFlvTagCache m ++ [f].
Proof.
  intros bb size Hr Hst Hse Hsc Hb Hty Hs type. pose proof (reach_inv m Hr) as Hm.
  assert (size = Z.of_nat (length sc) + Z.of_nat (length nal)) as Esz by (unfold size; rewrite length_app; lia).
  change (writeSampleData VIDEO_TRACK bb size us) with (writeVideoSample bb size us). unfold writeVideoSample.
  destruct (Z.ltb_spec size 4); [lia|]. unfold bb. change (mkBuffer (sc ++ nal ++ rest) 0) with (at_ (sc ++ nal ++ rest) 0).
  rewrite demux_first; [|done|lia|rewrite !length_app; lia|rewrite !length_app; lia]. rewrite lift_bind. cbn [fst snd fb_data non_null].
  rewrite (bind_ok (ret _) _ _ _ _ eq_refl). unfold get_at. cbn [b_bytes wrap]. rewrite (lookup_app_l_Some nal rest 0 b Hb), lift_bind.
  set (frame := mkFrameBytes _ _). pose proof (write_slice_sample frame type (milliseconds us) m (inv_ready m Hm)) as Hw.
  assert (frame_bytes frame = nal) as Ef.
  { unfold frame_bytes, frame. cbn [fb_data fb_size]. change (remaining (wrap (nal ++ rest))) with (nal ++ rest).
    replace (Z.to_nat (size - Z.of_nat (length sc))) with (length nal) by lia. apply take_app_length. }
  destruct Hw as (k & E).
  { eexists. split; [done|]. change (remaining (wrap (nal ++ rest))) with (nal ++ rest). rewrite length_app. cbn [fb_size frame]. lia. }
  { cbn [fb_size frame]. lia. }
  rewrite Hse, Ef in E. exists (slice_state type (milliseconds us) nal k m), (length (heap (mVideoAllocator m))). split.
  - rewrite <- E. unfold type. by destruct Hty as [-> | ->].
  - unfold slice_state. cbn [needToFindKeyFrame allocated with_video_allocator started]. rewrite (inv_wait m Hm Hse), Hst. cbn [andb].
    apply sample_state_queue.
Qed.


(** A sequence parameter set that changes alone is not sent.  The comment
    of [writeH264SpsPps] says that the header is sent when one of the two
    changes, but it is called only if the picture parameter set does.  The
    server is left with the record of the old one, and gets slices of the
    new. *)
Theorem changed_sps_not_sent m sps pps b s us : let l := start_code4 ++ sps ++ start_code4 ++ pps in
  nal_unit sps -> nal_unit pps -> sps = b :: s -> Z.land b 31 = SPS -> h264_pps (flv m) = Some pps ->
  h264_sps (flv m) <> Some (sps ++ start_code4 ++ pps) ->
  exists m', writeSampleData VIDEO_TRACK (mkBuffer l 0) (Z.of_nat (length l)) us m = (Ok tt, m') /\
    h264_sps (flv m') = Some sps /\ h264_sps_changed (flv m') = true /\
    queued m' = queued m /\ mFlvTagCache m' = mFlvTagCache m.
Proof.
  intros l Hs Hp Eb Hb Hpp Hss. pose proof (parameter_sets_run sps pps [] us m b s Hs Hp (or_introl eq_refl) Eb Hb) as E.
  cbv zeta in E. rewrite !app_nil_r in E. fold l in E. rewrite Hpp, (bool_decide_eq_true_2 (Some pps = _)) in E by done.
  rewrite bool_decide_eq_false_2 in E by (by intros ?). eexists. split; [exact E|]. done.
Qed.

(** ** Witnesses *)

Definition stream_e (now : Z) : inputs := mkInputs now (fun _ => Written) (inr (sample_server 536)) (Ok [1; 2]).
Definition sps_bytes : list Z := [103; 66; 0; 30; 5].
Definition pps_bytes : list Z := [104; 206; 60; 128].
Definition idr_bytes : list Z := [101; 136; 132; 7; 9].
Definition header_bytes : list Z := start_code4 ++ sps_bytes ++ start_code4 ++ pps_bytes.

(** A stream is opened, ... *)
Definition opening : list Mux.action :=
  [Mux.Start sample_url; Mux.Worker 0 (stream_e 0); Mux.Receive 1 Written sample_connected; Mux.Worker 0 (stream_e 2); Mux.Worker 0 (stream_e 2);
   Mux.Receive 3 Written sample_created; Mux.Receive 4 Written sample_started; Mux.Worker 0 (stream_e 5)].
(** ... the encoder gives the parameter sets and a picture, and the worker
    sends the header. *)
Definition sending : list Mux.action :=
  [Mux.WriteSample VIDEO_TRACK (wrap header_bytes) 17 40000; Mux.WriteSample VIDEO_TRACK (wrap (start_code4 ++ idr_bytes)) 9 80000;
   Mux.Worker 0 (stream_e 6); Mux.Worker 0 (stream_e 7)].
Definition run (l : list Mux.action) (m : muxer) : muxer := foldl (fun m a => (Mux.act a m).2) m l.
Definition enabledb (a : Mux.action) (m : muxer) : bool :=
  match a with
  | Mux.WriteSample _ bb size _ => (position bb =? 0)%nat && (0 <=? size) && (size <=? Z.of_nat (length (b_bytes bb))) && (size <? 2 ^ 29)
  | Mux.StopEnd => (0 <? stopping m)%nat
  | Mux.Disconnect _ _ => (0 <? disconnecting m)%nat
  | Mux.Receive _ _ _ => rxPacketHandler (publisher m)
  | _ => true
  end.
Fixpoint all_enabled (l : list Mux.action) (m : muxer) : bool :=
  match l with [] => true | a :: r => enabledb a m && all_enabled r (Mux.act a m).2 end.
Lemma enabledb_sound a m : enabledb a m = true -> Mux.enabled a m.
Proof.
  destruct a; cbn -[Nat.ltb Nat.eqb Z.leb Z.ltb]; try done; [|by intros ?%Nat.ltb_lt..].
  rewrite !andb_true_iff, Nat.eqb_eq, !Z.leb_le, Z.ltb_lt. tauto.
Qed.
Lemma run_reach l m : Mux.reach m -> all_enabled l m = true -> Mux.reach (run l m).
Proof.
  revert m. induction l as [|a l IH]; intros m Hm Ha; [done|]. apply andb_true_iff in Ha as [H1 H2].
  apply IH; [|done]. constructor; [done|by apply enabledb_sound].
Qed.

Definition new_muxer : muxer := match newMuxer with Ok m => m | _ => mkMuxer false None [] newFlv true None None (mkAllocator 0 0 [] []) (mkAllocator 0 0 [] []) [] new_connection 0 0 [] [] end.
Lemma new_muxer_reach : Mux.reach new_muxer.
Proof. constructor. reflexivity. Qed.
Lemma opened_reach : Mux.reach (run opening new_muxer).
Proof. apply run_reach; [apply new_muxer_reach|]. vm_compute. reflexivity. Qed.
Lemma sending_reach : Mux.reach (run sending (run opening new_muxer)).
Proof. apply run_reach; [apply opened_reach|]. vm_compute. reflexivity. Qed.

Lemma flv_sent_in_order_witness : headers_first (log (run sending (run opening new_muxer))).
Proof. exact (proj2 (proj2 (flv_sent_in_order _ sending_reach))). Defined.

Abbreviation opened := (run opening new_muxer).
Abbreviation streaming := (run sending (run opening new_muxer)).
Definition picture : SrsFlvFrame := mkFrame 11 NALU KeyFrame TagVideo 80.
Definition stream_session : RtmpSessionInfo := default newSessionInfo (session (publisher streaming)).
Lemma streaming_publishes : publishing (publisher streaming) stream_session.
Proof. split; try (vm_compute; reflexivity). split; [|unfold is_int; split; [apply Z.leb_le|apply Z.ltb_lt]]; vm_compute; done. Qed.
Lemma streaming_chunk_size : txChunkSize stream_session = 128.
Proof. vm_compute. reflexivity. Qed.
Lemma default_some {A} (d : A) o : (match o with Some _ => true | None => false end) = true -> o = Some (default d o).
Proof. by destruct o. Qed.
Definition picture_tag : Allocation := default (mkAllocation [] 0) (tag_of streaming picture).


Lemma idr_sample : Z.of_nat (length (start_code3 ++ idr_bytes)) = 8.
Proof. reflexivity. Qed.
Lemma slice_tagged_witness : exists m' r, writeSampleData VIDEO_TRACK (wrap (start_code3 ++ idr_bytes)) 8 120000 streaming = (Ok tt, m') /\
  queued m' = queued streaming ++ [(mkFrame r NALU KeyFrame TagVideo 120, slice_tag KeyFrame idr_bytes)].
Proof.
  destruct (slice_tagged streaming start_code3 idr_bytes [] 101 120000) as (m' & r & E & Q & _).
  - exact sending_reach.
  - vm_compute. reflexivity.
  - vm_compute. reflexivity.
  - right. reflexivity.
  - reflexivity.
  - left. reflexivity.
  - rewrite idr_sample. lia.
  - exists m', r. split; [exact E|exact Q].
Defined.

Lemma nal_unit_check l : bool_decide (l <> []) = true -> bool_decide (last l <> Some 0) = true ->
  forallb (fun i => negb (bool_decide (code3 l i))) (seq 0 (length l)) = true -> nal_unit l.
Proof.
  intros H1%bool_decide_eq_true H2%bool_decide_eq_true H3. split_and!; [done|done|]. intros i Hc.
  assert (i < length l)%nat as Hi by (destruct Hc as (H & _); by eapply lookup_lt_Some).
  rewrite forallb_forall in H3. specialize (H3 i). rewrite negb_true_iff, bool_decide_eq_false in H3. apply H3; [|exact Hc].
  apply in_seq. lia.
Qed.
Lemma sps_unit : nal_unit sps_bytes.
Proof. apply nal_unit_check; reflexivity. Qed.
Lemma pps_unit : nal_unit pps_bytes.
Proof. apply nal_unit_check; reflexivity. Qed.
Lemma changed_sps_not_sent_witness : exists m',
  writeSampleData VIDEO_TRACK (wrap (start_code4 ++ [103; 77; 0; 31; 5] ++ start_code4 ++ pps_bytes)) 17 160000 streaming = (Ok tt, m') /\
  h264_sps_changed (flv m') = true /\ queued m' = queued streaming.
Proof.
  destruct (changed_sps_not_sent streaming [103; 77; 0; 31; 5] pps_bytes 103 [77; 0; 31; 5] 160000) as (m' & E & _ & H & Q & _).
  - apply nal_unit_check; reflexivity.
  - exact pps_unit.
  - reflexivity.
  - reflexivity.
  - vm_compute. reflexivity.
  - vm_compute. discriminate.
  - exists m'. split_and!; [exact E|exact H|exact Q].
Defined.
