(* ===== verification/Protoo.v ===== *)
(** * The signalling client: protoo messages, peer and WebSocket transport

    Models src/protoo-client (Message.java, Peer.java, Utils.java) and, of
    src/mediasoupdemo, socket/WebSocketTransport.java with its retry strategy.
    org.json is not part of the sources: reading a text, printing a value and
    the number in a string are the operations of the class [OrgJson].  okhttp is
    not either: a web socket is a number, what is handed to it is recorded and
    its callbacks are steps.  The transport's handler thread is a queue of tasks
    and the reconnections that wait for their delay. *)

From stdpp Require Import base list gmap strings.
From Stdlib Require Import ZArith Lia SpecFloat.
From S2P Require Import Prelude Json Text Java.
Open Scope Z_scope.

(** ** org.json *)

Definition object := list (string * json).

(** [new_JSONObject]: none is a JSONException; [toLong] of a string: none if it
    is no number. *)
Class OrgJson := {
  new_JSONObject : string -> option object;
  toString : json -> string;
  toLong : string -> option Z }.

(** [(long) d]: towards zero, NaN to 0, out of range to the nearest long. *)
Definition long_of_float (f : spec_float) : Z :=
  match f with
  | S754_infinity s => if s then - 2 ^ 63 else 2 ^ 63 - 1
  | _ => match trunc_float f with Some z => Z.max (- 2 ^ 63) (Z.min (2 ^ 63 - 1) z) | None => 0 end
  end.

Section opt.
Context `{OrgJson}.
Implicit Types o : object.

Definition optBoolean (name : string) o : bool :=
  match obj_lookup name o with
  | Some (JBool b) => b
  | Some (JString s) => String.eqb (lower s) "true"
  | _ => false
  end.
Definition optLong (name : string) o : Z :=
  match obj_lookup name o with
  | Some (JInt z | JUint z) => long z
  | Some (JFloat f) => long_of_float f
  | Some (JString s) => default 0 (toLong s)
  | _ => 0
  end.
Definition optString (name : string) o : string :=
  match obj_lookup name o with Some (JString s) => s | Some v => toString v | None => "" end.
Definition optJSONObject (name : string) o : option object :=
  match obj_lookup name o with Some (JObject d) => Some d | _ => None end.
End opt.

Definition json_put (name : string) (v : json) (o : object) : object := obj_insert name v o.
(** A null value removes the name. *)
Definition put_string (name : string) (s : option string) (o : object) : object :=
  match s with Some s => json_put name (JString s) o | None => obj_erase name o end.

(** ** Message *)

Record Request := mkRequest { rq_method : string; rq_id : Z; rq_data : option object }.
Record Response := mkResponse {
  rs_id : Z; rs_ok : bool; rs_data : option object; rs_errorCode : Z; rs_errorReason : option string }.
Record Notification := mkNotification { nt_method : string; nt_data : option object }.
Inductive Message := MRequest (r : Request) | MResponse (r : Response) | MNotification (n : Notification).

Definition newResponse (id : Z) (data : option object) : Response := mkResponse id true data 0 None.
Definition newErrorResponse (id errorCode : Z) (errorReason : option string) : Response :=
  mkResponse id false None errorCode errorReason.

Section message.
Context `{OrgJson}.

Definition parse_object (o : object) : option Message :=
  if optBoolean "request" o then
    if String.eqb (optString "method" o) "" then None else
    if optLong "id" o =? 0 then None else
    Some (MRequest (mkRequest (optString "method" o) (optLong "id" o) (optJSONObject "data" o)))
  else if optBoolean "response" o then
    if optLong "id" o =? 0 then None else
    if optBoolean "ok" o then Some (MResponse (newResponse (optLong "id" o) (optJSONObject "data" o)))
    else Some (MResponse (newErrorResponse (optLong "id" o) (optLong "errorCode" o)
                            (Some (optString "errorReason" o))))
  else if optBoolean "notification" o then
    if String.eqb (optString "method" o) "" then None else
    Some (MNotification (mkNotification (optString "method" o) (optJSONObject "data" o)))
  else None.

Definition parse (raw : string) : option Message :=
  match new_JSONObject raw with Some o => parse_object o | None => None end.
End message.

Definition or_empty (data : option object) : json := JObject (default [] data).

(** [Utils.generateRandomNumber()] is [nextInt(10000000)]. *)
Definition generateRandomNumber (r : Z) : bool := (0 <=? r) && (r <? 10000000).

Definition createRequest (method : string) (random : Z) (data : option object) : object :=
  json_put "data" (or_empty data) (json_put "id" (JInt random) (json_put "method" (JString method)
    (json_put "request" (JBool true) []))).
Definition createSuccessResponse (r : Request) (data : option object) : object :=
  json_put "data" (or_empty data) (json_put "ok" (JBool true) (json_put "id" (JInt (rq_id r))
    (json_put "response" (JBool true) []))).
Definition createErrorResponse (r : Request) (errorCode : Z) (errorReason : option string) : object :=
  put_string "errorReason" errorReason (json_put "errorCode" (JInt errorCode) (json_put "ok" (JBool false)
    (json_put "id" (JInt (rq_id r)) (json_put "response" (JBool true) [])))).
Definition createNotification (method : string) (data : option object) : object :=
  json_put "data" (or_empty data) (json_put "method" (JString method) (json_put "notification" (JBool true) [])).

(** ** Retry strategy *)

Record RetryStrategy := mkRetry {
  retries : Z; factor : Z; minTimeout : Z; maxTimeout : Z; retryCount : Z }.
Definition newRetryStrategy (retries factor minTimeout maxTimeout : Z) : RetryStrategy :=
  mkRetry retries factor minTimeout maxTimeout 1.
Definition with_retryCount n (r : RetryStrategy) : RetryStrategy :=
  mkRetry (retries r) (factor r) (minTimeout r) (maxTimeout r) n.

Definition retried (r : RetryStrategy) : RetryStrategy := with_retryCount (int (retryCount r + 1)) r.
(** [Math.pow] and the product are exact for the numbers used; the cast to int
    saturates. *)
Definition getReconnectInterval (r : RetryStrategy) : Z :=
  if retries r <? retryCount r then -1
  else Z.min (Z.min (2 ^ 31 - 1) (minTimeout r * factor r ^ retryCount r)) (maxTimeout r).
Definition reset_retries (r : RetryStrategy) : RetryStrategy := with_retryCount 0 r.

(** ** State

    A [ClientRequestHandlerProxy] is its place in [proxies]: two requests with
    one id are two proxies.  [timers] are the proxies posted to the timer
    handler.  [events] are the calls of the application's listener and handlers,
    the last one first. *)

Record proxy := mkProxy { mRequestId : Z; mMethod : string }.

Inductive answer := Resolved (data : string) | Rejected (code : Z) (reason : option string).
Inductive event :=
| OnOpen | OnFail | OnDisconnected | OnClose
| OnRequest (r : Request)
| OnNotification (n : Notification)
| Answered (n : nat) (a : answer).

Inductive task := NewWebSocket | Send (payload : string) | CloseSocket.

Record transport := mkTransport {
  t_closed : bool; t_connected : bool; mRetryStrategy : RetryStrategy;
  mWebSocket : option nat;
  sockets : nat;                          (* web sockets made *)
  queue : list task;                      (* posted to the handler *)
  delayed : list Z;                       (* reconnections and their delays *)
  handed : list (nat * string);           (* passed to [WebSocket.send] *)
  closing : list nat }.                   (* passed to [WebSocket.close] *)

Record client := mkClient {
  mTransport : transport;
  p_closed : bool; p_connected : bool;
  mSends : gmap Z nat; proxies : list proxy; timers : gset nat;
  events : list event }.

Definition with_t_closed b (t : transport) : transport :=
  mkTransport b (t_connected t) (mRetryStrategy t) (mWebSocket t) (sockets t) (queue t) (delayed t) (handed t) (closing t).
Definition with_t_connected b (t : transport) : transport :=
  mkTransport (t_closed t) b (mRetryStrategy t) (mWebSocket t) (sockets t) (queue t) (delayed t) (handed t) (closing t).
Definition with_retry r (t : transport) : transport :=
  mkTransport (t_closed t) (t_connected t) r (mWebSocket t) (sockets t) (queue t) (delayed t) (handed t) (closing t).
Definition with_webSocket w (t : transport) : transport :=
  mkTransport (t_closed t) (t_connected t) (mRetryStrategy t) w (sockets t) (queue t) (delayed t) (handed t) (closing t).
Definition with_sockets n (t : transport) : transport :=
  mkTransport (t_closed t) (t_connected t) (mRetryStrategy t) (mWebSocket t) n (queue t) (delayed t) (handed t) (closing t).
Definition with_queue q (t : transport) : transport :=
  mkTransport (t_closed t) (t_connected t) (mRetryStrategy t) (mWebSocket t) (sockets t) q (delayed t) (handed t) (closing t).
Definition with_delayed d (t : transport) : transport :=
  mkTransport (t_closed t) (t_connected t) (mRetryStrategy t) (mWebSocket t) (sockets t) (queue t) d (handed t) (closing t).
Definition with_handed h (t : transport) : transport :=
  mkTransport (t_closed t) (t_connected t) (mRetryStrategy t) (mWebSocket t) (sockets t) (queue t) (delayed t) h (closing t).
Definition with_closing l (t : transport) : transport :=
  mkTransport (t_closed t) (t_connected t) (mRetryStrategy t) (mWebSocket t) (sockets t) (queue t) (delayed t) (handed t) l.

Definition with_transport t (c : client) : client :=
  mkClient t (p_closed c) (p_connected c) (mSends c) (proxies c) (timers c) (events c).
Definition with_p_closed b (c : client) : client :=
  mkClient (mTransport c) b (p_connected c) (mSends c) (proxies c) (timers c) (events c).
Definition with_p_connected b (c : client) : client :=
  mkClient (mTransport c) (p_closed c) b (mSends c) (proxies c) (timers c) (events c).
Definition with_sends m (c : client) : client :=
  mkClient (mTransport c) (p_closed c) (p_connected c) m (proxies c) (timers c) (events c).
Definition with_proxies l (c : client) : client :=
  mkClient (mTransport c) (p_closed c) (p_connected c) (mSends c) l (timers c) (events c).
Definition with_timers s (c : client) : client :=
  mkClient (mTransport c) (p_closed c) (p_connected c) (mSends c) (proxies c) s (events c).
Definition with_events l (c : client) : client :=
  mkClient (mTransport c) (p_closed c) (p_connected c) (mSends c) (proxies c) (timers c) l.

Definition emit (e : event) : M client unit := modify (fun c => with_events (e :: events c) c).
Definition on_transport {A} (m : M transport A) : M client A := zoom (fun c => Some (mTransport c)) with_transport m.

(** ** The transport on its own threads *)

Definition newWebSocket : M transport unit :=
  modify (fun t => with_sockets (S (sockets t)) (with_webSocket None t)).

Definition run_task (k : task) : M transport unit :=
  t <- get;;
  match k with
  | NewWebSocket => newWebSocket
  | Send payload =>
    if t_closed t then ret tt else
    match mWebSocket t with
    | Some w => modify (fun t => with_handed (handed t ++ [(w, payload)]) t)
    | None => ret tt
    end
  | CloseSocket =>
    match mWebSocket t with
    | Some w => modify (fun t => with_webSocket None (with_closing (closing t ++ [w]) t))
    | None => ret tt
    end
  end.

Definition post (k : task) : M transport unit := modify (fun t => with_queue (queue t ++ [k]) t).
Definition connect : M transport unit := post NewWebSocket.

(** The handler runs the first task of its queue. *)
Definition run_next : M transport unit :=
  t <- get;;
  match queue t with
  | k :: q => put (with_queue q t);;; run_task k
  | [] => ret tt
  end.

Definition scheduleReconnect : M transport bool :=
  t <- get;;
  let reconnectInterval := getReconnectInterval (mRetryStrategy t) in
  if reconnectInterval =? -1 then ret false
  else modify (fun t => with_delayed (delayed t ++ [reconnectInterval]) t);;; ret true.

(** The job posted by [scheduleReconnect], at its place among those that wait. *)
Definition reconnect (i : nat) : M transport unit :=
  modify (fun t => with_delayed (delete i (delayed t)) t);;;
  t <- get;;
  if t_closed t then ret tt
  else newWebSocket;;; modify (fun t => with_retry (retried (mRetryStrategy t)) t).

Definition closed_error : exn := Java (IllegalStateException "transport closed").

(** The caller waits until the handler has run its queue and then closed the
    socket. *)
Definition transport_close : M transport unit :=
  t <- get;;
  if t_closed t then ret tt
  else put (with_queue [] (with_t_closed true t));;;
       for_list (queue t ++ [CloseSocket]) run_task.

(** ** Peer *)

Section peer.
Context `{OrgJson}.

Definition sendMessage (message : object) : M transport string :=
  t <- get;;
  if t_closed t then throw closed_error
  else post (Send (toString (JObject message)));;; ret (toString (JObject message)).

(** [ClientRequestHandlerProxy] posts itself to the timer handler. *)
Definition newProxy (requestId : Z) (method : string) : M client nat :=
  c <- get;;
  put (with_timers (timers c ∪ {[length (proxies c)]})
        (with_proxies (proxies c ++ [mkProxy requestId method]) c));;;
  ret (length (proxies c)).
Definition proxy_close (n : nat) : M client unit :=
  modify (fun c => with_timers (timers c ∖ {[n]}) c).
(** The timer runs a proxy. *)
Definition proxy_run (n : nat) : M client unit :=
  c <- get;;
  match proxies c !! n with
  | Some p =>
    put (with_sends (delete (mRequestId p) (mSends c)) (with_timers (timers c ∖ {[n]}) c));;;
    emit (Answered n (Rejected 408 (Some "request timeout")))
  | None => ret tt
  end.

(** [(long) (1500 * (15 + (0.1 * length)))] in doubles. *)
Definition request_timeout (length : Z) : Z :=
  let tenth := SFdiv 53 1024 (double_of_Z 1) (double_of_Z 10) in
  long_of_float (SFmul 53 1024 (double_of_Z 1500)
    (SFadd 53 1024 (double_of_Z 15) (SFmul 53 1024 tenth (double_of_Z length)))).

(** Returns the delay of the timer. *)
Definition request (method : string) (random : Z) (data : object) : M client Z :=
  let request := createRequest method random (Some data) in
  let requestId := optLong "id" request in
  payload <- on_transport (sendMessage request);;
  n <- newProxy requestId method;;
  modify (fun c => with_sends (<[requestId := n]> (mSends c)) c);;;
  ret (request_timeout (Z.of_nat (String.length payload))).

Definition notify (method : string) (data : option object) : M client unit :=
  on_transport (sendMessage (createNotification method data));;; ret tt.

(** The overloads that take a text only log a JSONException. *)
Definition request_text (method : string) (random : Z) (data : string) : M client unit :=
  match new_JSONObject data with Some o => request method random o;;; ret tt | None => ret tt end.
Definition notify_text (method : string) (data : string) : M client unit :=
  match new_JSONObject data with Some o => notify method (Some o) | None => ret tt end.

Definition any_exception (e : exn) : bool := match e with Java _ => true | _ => false end.
Definition quietly {A} (m : M client A) : M client unit :=
  try_catch (m;;; ret tt) any_exception (fun _ => ret tt).

(** The [ServerRequestHandler] of a request. *)
Definition accept (r : Request) (data : string) : M client unit :=
  if String.eqb data "" then quietly (on_transport (sendMessage (createSuccessResponse r (Some []))))
  else match new_JSONObject data with
       | Some o => quietly (on_transport (sendMessage (createSuccessResponse r (Some o))))
       | None => ret tt
       end.
Definition reject (r : Request) (code : Z) (errorReason : option string) : M client unit :=
  quietly (on_transport (sendMessage (createErrorResponse r code errorReason))).

Definition peer_close : M client unit :=
  c <- get;;
  if p_closed c then ret tt else
  put (with_p_connected false (with_p_closed true c));;;
  on_transport transport_close;;;
  for_list (map snd (map_to_list (mSends c))) proxy_close;;;
  modify (with_sends ∅);;;
  emit OnClose.

Definition handleResponse (response : Response) : M client unit :=
  c <- get;;
  match mSends c !! rs_id response with
  | None => ret tt
  | Some sent =>
    put (with_sends (delete (rs_id response) (mSends c)) c);;;
    proxy_close sent;;;
    if rs_ok response then
      match rs_data response with
      | Some d => emit (Answered sent (Resolved (toString (JObject d))))
      | None => throw (Java NullPointerException)
      end
    else emit (Answered sent (Rejected (rs_errorCode response) (rs_errorReason response)))
  end.

(** *** The transport's listener *)

Definition unless_closed (m : M client unit) : M client unit :=
  c <- get;; if p_closed c then ret tt else m.

Definition peer_onOpen : M client unit :=
  unless_closed (modify (with_p_connected true);;; emit OnOpen).
Definition peer_onFail : M client unit :=
  unless_closed (modify (with_p_connected false);;; emit OnFail).
Definition peer_onMessage (message : Message) : M client unit :=
  unless_closed
    match message with
    | MRequest r => emit (OnRequest r)
    | MResponse r => handleResponse r
    | MNotification n => emit (OnNotification n)
    end.
Definition peer_onDisconnected : M client unit :=
  unless_closed (modify (with_p_connected false);;; emit OnDisconnected).
Definition peer_onClose : M client unit :=
  unless_closed (modify (fun c => with_p_connected false (with_p_closed true c));;; emit OnClose).

(** *** The callbacks of a web socket *)

Definition unless_t_closed (m : M client unit) : M client unit :=
  c <- get;; if t_closed (mTransport c) then ret tt else m.

Definition onOpen (webSocket : nat) : M client unit :=
  unless_t_closed
    (on_transport (modify (fun t => with_t_connected true (with_webSocket (Some webSocket) t)));;;
     peer_onOpen;;;
     on_transport (modify (fun t => with_retry (reset_retries (mRetryStrategy t)) t))).

Definition onClosed : M client unit :=
  unless_t_closed
    (on_transport (modify (fun t => with_retry (reset_retries (mRetryStrategy t))
                                      (with_t_connected false (with_t_closed true t))));;;
     peer_onClose).

Definition onFailure : M client unit :=
  unless_t_closed
    (scheduled <- on_transport scheduleReconnect;;
     c <- get;;
     if (scheduled : bool) then
       if t_connected (mTransport c) then peer_onDisconnected else peer_onFail
     else
       on_transport (modify (with_t_closed true));;;
       peer_onClose;;;
       on_transport (modify (fun t => with_retry (reset_retries (mRetryStrategy t)) t))).

Definition onMessage (text : string) : M client unit :=
  unless_t_closed
    match parse text with Some message => peer_onMessage message | None => ret tt end.

End peer.

(** [new Protoo(new WebSocketTransport(url), listener)]: the transport is not
    closed and is told to connect. *)
Definition newTransport : transport :=
  mkTransport false false (newRetryStrategy 10 2 1000 (8 * 1000)) None 0 [] [] [] [].
Definition handleTransport : M client unit :=
  c <- get;;
  if t_closed (mTransport c) then
    if p_closed c then ret tt else modify (with_p_connected false);;; emit OnClose
  else on_transport connect.
Definition newPeer (t : transport) : outcome unit * client :=
  handleTransport (mkClient t false false ∅ [] ∅ []).
