(* ===== verification/ProtooSpec.v ===== *)
(** * Properties of the signalling client

    What may happen to the client in any order of calls, timers, tasks and web
    socket callbacks: what becomes of requests, and how often the transport
    connects again. *)

From stdpp Require Import base list gmap strings sets fin_sets.
From Stdlib Require Import ZArith Lia.
From S2P Require Import Prelude Keeps Json Java Protoo.
Open Scope Z_scope.

(** ** Messages *)

Section message_roundtrip.
Context `{OrgJson}.

Definition is_long (z : Z) : Prop := - 2 ^ 63 <= z < 2 ^ 63.

Lemma long_id z : is_long z -> long z = z.
Proof. intros Hz. apply wrap_s_small; [lia|]. exact Hz. Qed.

(** The fields of a created message are closed names: looking them up computes. *)
Ltac look_up :=
  unfold parse_object, optBoolean, optString, optLong, optJSONObject, or_empty;
  cbn [obj_lookup String.eqb Ascii.eqb Bool.eqb default id]; cbv [default].

Lemma parse_request method id data : method <> "" -> is_long id -> id <> 0 ->
  parse_object (createRequest method id data) = Some (MRequest (mkRequest method id (Some (default [] data)))).
Proof.
  intros Hm Hl Hi. change (createRequest method id data) with
    [("data", or_empty data); ("id", JInt id); ("method", JString method); ("request", JBool true)].
  destruct method; [done|]. look_up. by rewrite (long_id id Hl), (proj2 (Z.eqb_neq id 0) Hi).
Qed.

Lemma parse_success r data : is_long (rq_id r) -> rq_id r <> 0 ->
  parse_object (createSuccessResponse r data) = Some (MResponse (newResponse (rq_id r) (Some (default [] data)))).
Proof.
  intros Hl Hi. change (createSuccessResponse r data) with
    [("data", or_empty data); ("id", JInt (rq_id r)); ("ok", JBool true); ("response", JBool true)].
  look_up. by rewrite (long_id _ Hl), (proj2 (Z.eqb_neq _ 0) Hi).
Qed.

Lemma parse_error r code reason : is_long (rq_id r) -> rq_id r <> 0 -> is_long code ->
  parse_object (createErrorResponse r code reason) =
  Some (MResponse (newErrorResponse (rq_id r) code (Some (default ""%string reason)))).
Proof.
  intros Hl Hi Hc. assert (createErrorResponse r code reason =
    [("errorCode", JInt code)] ++ (match reason with Some s => [("errorReason", JString s)] | None => [] end) ++
    [("id", JInt (rq_id r)); ("ok", JBool false); ("response", JBool true)]) as -> by by destruct reason.
  destruct reason; cbn [app]; look_up; by rewrite (long_id _ Hl), (long_id _ Hc), (proj2 (Z.eqb_neq _ 0) Hi).
Qed.

Lemma parse_notification method data : method <> "" ->
  parse_object (createNotification method data) = Some (MNotification (mkNotification method (Some (default [] data)))).
Proof.
  intros Hm. change (createNotification method data) with
    [("data", or_empty data); ("method", JString method); ("notification", JBool true)].
  destruct method; [done|]. by look_up.
Qed.

(** An answer to a request with id 0 is no message. *)
Lemma parse_zero r data : rq_id r = 0 -> parse_object (createSuccessResponse r data) = None.
Proof.
  intros Hr. change (createSuccessResponse r data) with
    [("data", or_empty data); ("id", JInt (rq_id r)); ("ok", JBool true); ("response", JBool true)].
  rewrite Hr. by look_up.
Qed.
End message_roundtrip.

(** ** Steps *)

Section steps.
Context `{J : OrgJson}.

Inductive action :=
| ARequest (method : string) (random : Z) (data : object)
| ANotify (method : string) (data : option object)
| AAccept (r : Request) (data : string)
| AReject (r : Request) (code : Z) (reason : option string)
| AClose
| ATimer (n : nat)
| ATask
| AReconnect (i : nat)
| AOpen (w : nat)
| AClosed (w : nat)
| AFailure (w : nat)
| AMessage (w : nat) (text : string).

Definition act (a : action) : M client unit :=
  match a with
  | ARequest method random data => request method random data;;; ret tt
  | ANotify method data => notify method data
  | AAccept r data => accept r data
  | AReject r code reason => reject r code reason
  | AClose => peer_close
  | ATimer n => proxy_run n
  | ATask => on_transport run_next
  | AReconnect i => on_transport (reconnect i)
  | AOpen w => onOpen w
  | AClosed _ => onClosed
  | AFailure _ => onFailure
  | AMessage _ text => onMessage text
  end.

(** The client and the web sockets that have ended.  A web socket ends with one
    call of onClosed or onFailure and calls nothing afterwards. *)
Definition world := (client * gset nat)%type.
Definition ends (a : action) : gset nat := match a with AClosed w | AFailure w => {[w]} | _ => ∅ end.
Definition step (a : action) (s : world) : world := ((act a s.1).2, ends a ∪ s.2).
Definition alive (w : nat) (s : world) : Prop := (w < sockets (mTransport s.1))%nat /\ w ∉ s.2.
Definition enabled (a : action) (s : world) : Prop :=
  match a with
  | ARequest _ random _ => generateRandomNumber random = true
  | ATimer n => n ∈ timers s.1
  | AReconnect i => (i < length (delayed (mTransport s.1)))%nat
  | AOpen w | AClosed w | AFailure w | AMessage w _ => alive w s
  | _ => True
  end.

Inductive run : list action -> world -> world -> Prop :=
| run_nil s : run [] s s
| run_cons a l s s' : enabled a s -> run l (step a s) s' -> run (a :: l) s s'.

Definition start : world := ((newPeer newTransport).2, ∅).
Definition reach (s : world) : Prop := exists l, run l start s.

(** An invariant of the steps holds wherever a run leads. *)
Lemma run_invariant (I : world -> Prop) (P : action -> Prop) l s s' :
  (forall a s, P a -> enabled a s -> I s -> I (step a s)) -> run l s s' -> Forall P l -> I s -> I s'.
Proof. intros HI. induction 1; [done|]. intros [? ?]%Forall_cons ?. auto. Qed.
Lemma reach_invariant (I : world -> Prop) s :
  (forall a s, enabled a s -> I s -> I (step a s)) -> I start -> reach s -> I s.
Proof.
  intros HI Hs [l Hl]. apply (run_invariant I (fun _ => True) l start s); auto. by apply Forall_true.
Qed.

(** ** The requests

    What the client knows about its requests, and the changes of it. *)

Record book := mkBook {
  b_sends : gmap Z nat; b_proxies : list proxy; b_timers : gset nat; b_answered : list nat }.
Definition answered (c : client) : list nat :=
  omap (fun e => match e with Answered n _ => Some n | _ => None end) (events c).
Definition book_of (c : client) : book := mkBook (mSends c) (proxies c) (timers c) (answered c).

Inductive change := Same | Add (i : Z) (m : string) | Timeout (n : nat) | Answer (i : Z) | Drop (i : Z) | Clear.
Definition lossy (k : change) : bool := match k with Drop _ | Clear => true | _ => false end.

Definition book_step (k : change) (b b' : book) : Prop :=
  match k with
  | Same => b' = b
  | Add i m => b' = mkBook (<[i := length (b_proxies b)]> (b_sends b)) (b_proxies b ++ [mkProxy i m])
                      (b_timers b ∪ {[length (b_proxies b)]}) (b_answered b)
  | Timeout n => exists p, b_proxies b !! n = Some p /\ n ∈ b_timers b /\
      b' = mkBook (delete (mRequestId p) (b_sends b)) (b_proxies b) (b_timers b ∖ {[n]}) (n :: b_answered b)
  | Answer i => exists n, b_sends b !! i = Some n /\
      b' = mkBook (delete i (b_sends b)) (b_proxies b) (b_timers b ∖ {[n]}) (n :: b_answered b)
  | Drop i => exists n, b_sends b !! i = Some n /\
      b' = mkBook (delete i (b_sends b)) (b_proxies b) (b_timers b ∖ {[n]}) (b_answered b)
  | Clear => exists gone : gset nat, (forall n, n ∈ gone <-> exists i, b_sends b !! i = Some n) /\
      b' = mkBook ∅ (b_proxies b) (b_timers b ∖ gone) (b_answered b)
  end.

(** *** What leaves the book alone *)

Definition same_book (c c' : client) : Prop := book_of c' = book_of c.
#[local] Instance same_book_preorder : PreOrder same_book.
Proof. split; [done|]. unfold same_book. intros ??? H1 H2. by rewrite H2. Qed.

Lemma keeps_on_transport {A} (m : M transport A) : keeps same_book (on_transport m).
Proof. apply keeps_zoom_any; [apply _|done]. Qed.
#[local] Hint Resolve keeps_on_transport : keeps.
#[local] Ltac keep_special ::=
  match goal with
  | |- keeps same_book (modify _) => apply keeps_modify; done
  | |- keeps same_book (emit _) => apply keeps_modify; done
  end.
Ltac book_kept := unfold notify, accept, reject, quietly, onOpen, onClosed, onFailure, peer_onOpen, peer_onFail,
  peer_onDisconnected, peer_onClose, unless_closed, unless_t_closed; keep.

Lemma keeps_accept r data : keeps same_book (accept r data).
Proof. book_kept. Qed.
Lemma keeps_reject r code reason : keeps same_book (reject r code reason).
Proof. book_kept. Qed.
Lemma keeps_protoo_notify method data : keeps same_book (notify method data).
Proof. book_kept. Qed.
Lemma keeps_onOpen w : keeps same_book (onOpen w).
Proof. book_kept. Qed.
Lemma keeps_onClosed : keeps same_book onClosed.
Proof. book_kept. Qed.
Lemma keeps_onFailure : keeps same_book onFailure.
Proof. book_kept. Qed.

(** *** The other changes *)

Lemma random_long r : generateRandomNumber r = true -> is_long r.
Proof. unfold generateRandomNumber, is_long. rewrite andb_true_iff, Z.leb_le, Z.ltb_lt. lia. Qed.

Lemma request_id method random data : generateRandomNumber random = true ->
  optLong "id" (createRequest method random data) = random.
Proof. intros Hr. change (long random = random). by apply long_id, random_long. Qed.

Lemma request_books method random data c : generateRandomNumber random = true ->
  exists k, lossy k = false /\ book_step k (book_of c) (book_of ((request method random data;;; ret tt) c).2).
Proof.
  intros Hr. unfold request. rewrite (request_id _ _ _ Hr). unfold on_transport, sendMessage, zoom, bind at 1 2 3 4. cbn [get].
  destruct (t_closed (mTransport c)).
  - exists Same. done.
  - exists (Add random method). split; [done|]. done.
Qed.

Lemma timer_books n c : n ∈ timers c ->
  exists k, lossy k = false /\ book_step k (book_of c) (book_of (proxy_run n c).2).
Proof.
  intros Hn. unfold proxy_run, bind. cbn [get]. destruct (proxies c !! n) as [p|] eqn:Hp.
  - exists (Timeout n). split; [done|]. exists p. done.
  - by exists Same.
Qed.

Lemma proxies_closed l c : (for_list l proxy_close c).2 = with_timers (timers c ∖ list_to_set l) c.
Proof.
  revert c. induction l as [|n l IH]; intros c; cbn.
  - destruct c. unfold with_timers. cbn. by rewrite difference_empty_L.
  - rewrite IH. destruct c. unfold with_timers. cbn. by rewrite difference_difference_l_L.
Qed.
Lemma proxies_closed_ok l c : (for_list l proxy_close c).1 = Ok tt.
Proof. revert c. induction l; intros c; [done|]. cbn. auto. Qed.

Lemma tasks_ok l t : (for_list l run_task t).1 = Ok tt.
Proof.
  revert t. induction l as [|k l IH]; intros t; [done|]. cbn [for_list]. unfold bind at 1.
  destruct k; cbn; [apply IH| |destruct (mWebSocket t); apply IH].
  destruct (t_closed t); [apply IH|]. destruct (mWebSocket t); apply IH.
Qed.
Lemma transport_close_ok t : (transport_close t).1 = Ok tt.
Proof. unfold transport_close, bind. cbn [get]. destruct (t_closed t); [done|]. apply tasks_ok. Qed.

(** The state in which [close] ends. *)
Definition after_close (c : client) : client :=
  with_events (OnClose :: events c)
    (mkClient (transport_close (mTransport c)).2 true false ∅ (proxies c)
       (timers c ∖ list_to_set (map snd (map_to_list (mSends c)))) (events c)).
Lemma peer_close_run c : peer_close c = (Ok tt, if p_closed c then c else after_close c).
Proof.
  unfold peer_close, bind at 1. cbn [get]. destruct (p_closed c); [done|]. cbn [bind put].
  unfold bind at 1, on_transport, zoom. cbn [mTransport with_p_connected with_p_closed].
  pose proof (transport_close_ok (mTransport c)) as Ht. unfold after_close. destruct (transport_close (mTransport c)) as [o t]. cbn [fst snd] in *. subst o.
  unfold bind at 1. match goal with |- context [for_list ?l proxy_close ?c] =>
    pose proof (proxies_closed l c) as Hc; pose proof (proxies_closed_ok l c) as Hok; destruct (for_list l proxy_close c) as [o c'] end.
  cbn [fst snd] in *. by subst.
Qed.

Lemma close_books c : exists k, book_step k (book_of c) (book_of (peer_close c).2).
Proof.
  rewrite peer_close_run. cbn [snd]. destruct (p_closed c); [by exists Same|]. exists Clear.
  exists (list_to_set (map snd (map_to_list (mSends c)))). split; [|done]. intros n.
  rewrite elem_of_list_to_set, list_elem_of_fmap. split.
  - intros ([i m] & -> & Hi%elem_of_map_to_list). by exists i.
  - intros [i Hi]. exists (i, n). split; [done|]. by apply elem_of_map_to_list.
Qed.

(** A response that has [ok] but no object of data. *)
Definition without_data (m : Message) : bool :=
  match m with
  | MResponse r => rs_ok r && match rs_data r with None => true | Some _ => false end
  | _ => false
  end.
Definition malformed (text : string) : bool :=
  match parse text with Some m => without_data m | None => false end.

Lemma response_books r c : exists k, (lossy k = true -> without_data (MResponse r) = true) /\
  book_step k (book_of c) (book_of (handleResponse r c).2).
Proof.
  unfold handleResponse, bind. cbn [get]. destruct (mSends c !! rs_id r) as [n|] eqn:Hn; [|by exists Same].
  cbn [put proxy_close modify]. unfold without_data. destruct (rs_ok r); [destruct (rs_data r)|].
  1, 3: exists (Answer (rs_id r)); split; [done|]; by exists n.
  exists (Drop (rs_id r)). split; [done|]. by exists n.
Qed.

Lemma message_books text c : exists k, (lossy k = true -> malformed text = true) /\
  book_step k (book_of c) (book_of (onMessage text c).2).
Proof.
  unfold onMessage, malformed, unless_t_closed, bind. cbn [get]. destruct (t_closed (mTransport c)); [by exists Same|].
  destruct (parse text) as [m|]; [|by exists Same]. unfold peer_onMessage, unless_closed, bind. cbn [get].
  destruct (p_closed c); [by exists Same|]. destruct m; [by exists Same|apply response_books|by exists Same].
Qed.

(** Only closing, and a response without data, lose a request. *)
Definition loses (a : action) : bool :=
  match a with AClose => true | AMessage _ text => malformed text | _ => false end.

Lemma act_books a s : enabled a s ->
  exists k, (lossy k = true -> loses a = true) /\ book_step k (book_of s.1) (book_of (step a s).1).
Proof.
  intros He. cbn [step fst]. destruct a as [| | | | | | | | | | |]; cbn [act loses enabled] in *.
  - destruct (request_books method random data s.1 He) as (k & Hk & H). exists k. by rewrite Hk.
  - exists Same. split; [done|]. apply keeps_protoo_notify.
  - exists Same. split; [done|]. apply keeps_accept.
  - exists Same. split; [done|]. apply keeps_reject.
  - destruct (close_books s.1) as [k H]. by exists k.
  - destruct (timer_books n s.1 He) as (k & Hk & H). exists k. by rewrite Hk.
  - exists Same. split; [done|]. apply keeps_on_transport.
  - exists Same. split; [done|]. apply keeps_on_transport.
  - exists Same. split; [done|]. apply keeps_onOpen.
  - exists Same. split; [done|]. apply keeps_onClosed.
  - exists Same. split; [done|]. apply keeps_onFailure.
  - apply message_books.
Qed.

(** *** The invariant of the book *)

Record wf_book (b : book) : Prop := {
  wf_sends : forall i n, b_sends b !! i = Some n -> n ∈ b_timers b /\ (mRequestId <$> b_proxies b !! n) = Some i;
  wf_timers : forall n, n ∈ b_timers b -> (n < length (b_proxies b))%nat /\ n ∉ b_answered b;
  wf_answered : forall n, n ∈ b_answered b -> (n < length (b_proxies b))%nat;
  wf_once : NoDup (b_answered b) }.

(** A waiting request, no more, is settled or stays lost. *)
Definition settled (b : book) : Prop := forall n, (n < length (b_proxies b))%nat -> n ∈ b_timers b \/ n ∈ b_answered b.
Definition lost (n : nat) (b : book) : Prop := (n < length (b_proxies b))%nat /\ (n ∉ b_timers b) /\ n ∉ b_answered b.

Lemma wf_add b i m : wf_book b -> wf_book
  (mkBook (<[i := length (b_proxies b)]> (b_sends b)) (b_proxies b ++ [mkProxy i m])
     (b_timers b ∪ {[length (b_proxies b)]}) (b_answered b)).
Proof.
  intros Hb. split; cbn.
  - intros j n. rewrite lookup_insert_Some. intros [[-> <-]|[Hj Hn]].
    + split; [set_solver|]. by rewrite list_lookup_middle.
    + apply (wf_sends _ Hb) in Hn as [Ht Hp]. split; [set_solver|]. rewrite lookup_app_l; [done|]. by apply (wf_timers _ Hb).
  - intros n Hn. rewrite length_app. cbn. apply elem_of_union in Hn as [Hn|Hn%elem_of_singleton].
    + apply (wf_timers _ Hb) in Hn as [? ?]. split; [lia|done].
    + subst n. split; [lia|]. intros Ha%(wf_answered _ Hb). lia.
  - intros n Hn%(wf_answered _ Hb). rewrite length_app. cbn. lia.
  - apply Hb.
Qed.

(** A proxy leaves the timers and, if it is there, the map. *)
Lemma wf_leave b i n l : wf_book b -> n ∈ b_timers b -> (mRequestId <$> b_proxies b !! n) = Some i ->
  l = b_answered b \/ l = n :: b_answered b ->
  wf_book (mkBook (delete i (b_sends b)) (b_proxies b) (b_timers b ∖ {[n]}) l).
Proof.
  intros Hb Hn Hp Hl. assert (Hin : forall m, m ∈ l -> m = n \/ m ∈ b_answered b) by (destruct Hl as [->| ->]; set_solver).
  pose proof (wf_timers _ Hb n Hn) as [Hlt Hna]. split; cbn.
  - intros j m. rewrite lookup_delete_Some. intros [Hj Hm]. apply (wf_sends _ Hb) in Hm as [Ht Hq].
    split; [|done]. assert (m <> n) by congruence. set_solver.
  - intros m [Hm Hmn]%elem_of_difference. apply (wf_timers _ Hb) in Hm as [? ?]. split; [done|]. intros [->|]%Hin; [set_solver|done].
  - intros m [->|Hm]%Hin; [done|by apply (wf_answered _ Hb)].
  - destruct Hl as [->| ->]; [|constructor; [done|]]; apply Hb.
Qed.

Lemma wf_clear b gone : wf_book b -> wf_book (mkBook ∅ (b_proxies b) (b_timers b ∖ gone) (b_answered b)).
Proof.
  intros Hb. split; cbn; [|intros n [Hn _]%elem_of_difference; by apply Hb|apply Hb..].
  intros i n. by rewrite lookup_empty.
Qed.

Lemma book_step_wf k b b' : book_step k b b' -> wf_book b -> wf_book b'.
Proof.
  intros Hk Hb. destruct k as [|i m|n|i|i|]; cbn in Hk.
  - by subst.
  - subst. by apply wf_add.
  - destruct Hk as (p & Hp & Hn & ->). apply wf_leave; [done..|by rewrite Hp|by right].
  - destruct Hk as (n & Hn & ->). destruct (wf_sends _ Hb _ _ Hn). apply wf_leave; auto.
  - destruct Hk as (n & Hn & ->). destruct (wf_sends _ Hb _ _ Hn). apply wf_leave; auto.
  - destruct Hk as (gone & _ & ->). by apply wf_clear.
Qed.

Lemma book_step_settled k b b' : lossy k = false -> book_step k b b' -> settled b -> settled b'.
Proof.
  intros Hl Hk Hb. destruct k as [|i m|n|i|i|]; cbn in Hk; [by subst| | | |done..].
  - subst b'. intros n. cbn. rewrite length_app. cbn. intros Hn. destruct (decide (n = length (b_proxies b))) as [->|Hne]; [set_solver|].
    destruct (Hb n ltac:(lia)); set_solver.
  - destruct Hk as (p & Hp & Hn & ->). intros m Hm. cbn. destruct (decide (m = n)) as [->|]; [set_solver|]. destruct (Hb m Hm); set_solver.
  - destruct Hk as (n & Hn & ->). intros m Hm. cbn. destruct (decide (m = n)) as [->|]; [set_solver|]. destruct (Hb m Hm); set_solver.
Qed.

Lemma book_step_lost k b b' n : book_step k b b' -> wf_book b -> lost n b -> lost n b'.
Proof.
  intros Hk Hb (Hn & Ht & Ha). destruct k as [|i m|p|i|i|]; cbn in Hk.
  - by subst.
  - subst b'. repeat split; cbn; [rewrite length_app; cbn; lia| |done]. intros [?|?%elem_of_singleton]%elem_of_union; [done|lia].
  - destruct Hk as (q & Hq & Hp & ->). repeat split; cbn; [done|set_solver|set_solver].
  - destruct Hk as (p & Hp & ->). apply (wf_sends _ Hb) in Hp as [? _]. repeat split; cbn; [done|set_solver|set_solver].
  - destruct Hk as (p & Hp & ->). repeat split; cbn; [done|set_solver|done].
  - destruct Hk as (gone & _ & ->). repeat split; cbn; [done|set_solver|done].
Qed.

Definition wf (s : world) : Prop := wf_book (book_of s.1).
Lemma step_wf a s : enabled a s -> wf s -> wf (step a s).
Proof. intros He Hw. destruct (act_books a s He) as (k & _ & Hk). by eapply book_step_wf. Qed.
Lemma start_wf : wf start.
Proof. split; cbn; [done|set_solver|set_solver|constructor]. Qed.
Lemma reach_wf_client s : reach s -> wf s.
Proof. apply reach_invariant; [apply step_wf|apply start_wf]. Qed.

Lemma run_wf l s s' : run l s s' -> wf s -> wf s'.
Proof. intros Hr. apply (run_invariant wf (fun _ => True) l s s'); [|done|by apply Forall_true]. auto using step_wf. Qed.

Lemma run_settled l s s' : run l s s' -> Forall (fun a => loses a = false) l -> settled (book_of s.1) -> settled (book_of s'.1).
Proof.
  apply (run_invariant (fun s => settled (book_of s.1))). clear. intros a s Ha He Hs. destruct (act_books a s He) as (k & Hl & Hk).
  eapply book_step_settled; [|done..]. destruct (lossy k); [|done]. by rewrite Hl in Ha.
Qed.
Lemma run_lost n l s s' : run l s s' -> wf s -> lost n (book_of s.1) -> lost n (book_of s'.1).
Proof.
  intros Hr Hw Hl. apply (run_invariant (fun s => wf s /\ lost n (book_of s.1)) (fun _ => True) l s s'); [|done|by apply Forall_true|done].
  clear. intros a s _ He [Hw Hl]. split; [by apply step_wf|]. destruct (act_books a s He) as (k & _ & Hk). by eapply book_step_lost.
Qed.

(** ** Connecting again *)

Definition is_new (k : task) : bool := match k with NewWebSocket => true | _ => false end.
Definition count_new (q : list task) : nat := length (List.filter is_new q).
#[local] Arguments count_new _ : simpl never.
Definition rc (t : transport) : Z := retryCount (mRetryStrategy t).

(** At most one web socket is alive or about to be made; the attempts left. *)
Record wf_transport (e : gset nat) (t : transport) : Prop := {
  wt_ended : forall w, w ∈ e -> (w < sockets t)%nat;
  wt_one : (sockets t + length (delayed t) + count_new (queue t) <= S (size e))%nat;
  wt_strategy : mRetryStrategy t = mkRetry 10 2 1000 8000 (rc t);
  wt_count : 0 <= rc t <= 11 /\ (delayed t <> [] -> rc t <= 10);
  wt_delays : Forall (fun d => 1000 <= d <= 8000) (delayed t) }.

Definition attempts_left (t : transport) : nat := if t_closed t then 0%nat else Z.to_nat (11 - rc t).
Definition attempts (t : transport) : nat := (sockets t + count_new (queue t) + attempts_left t)%nat.

(** What a step of the transport may do: keep the invariant, and make no attempt
    beyond those left. *)
Definition fine (e : gset nat) (t t' : transport) : Prop :=
  wf_transport e t -> wf_transport e t' /\ (attempts t' <= attempts t)%nat.
#[local] Instance fine_preorder e : PreOrder (fine e).
Proof.
  split; [by intros t Ht|]. intros t1 t2 t3 H12 H23 H1. destruct (H12 H1) as [H2 ?], (H23 (proj1 (H12 H1))). split; [done|lia].
Qed.

Lemma count_new_app q q' : count_new (q ++ q') = (count_new q + count_new q')%nat.
Proof. unfold count_new. by rewrite List.filter_app, length_app. Qed.

Lemma ended_size e t : wf_transport e t -> (size e <= sockets t)%nat.
Proof.
  intros Ht. rewrite <- (size_set_seq (C := gset nat) 0 (sockets t)). apply subseteq_size. intros w Hw%(wt_ended _ _ Ht).
  apply elem_of_set_seq. lia.
Qed.
Lemma one_delayed e t : wf_transport e t -> (length (delayed t) <= 1)%nat.
Proof. intros Ht. pose proof (ended_size e t Ht). pose proof (wt_one _ _ Ht). lia. Qed.

(** Changes that do not concern the invariant. *)
Lemma fine_post e t k : is_new k = false -> fine e t (with_queue (queue t ++ [k]) t).
Proof.
  intros Hk Ht. assert (Hq : count_new (queue t ++ [k]) = count_new (queue t)).
  { rewrite count_new_app. unfold count_new at 2. cbn. rewrite Hk. cbn. lia. }
  split; [split; cbn; [apply Ht|rewrite Hq; apply Ht|apply Ht..]|]. unfold attempts. cbn. by rewrite Hq.
Qed.
Lemma fine_handed e t h : fine e t (with_handed h t).
Proof. intros Ht. split; [split; apply Ht|done]. Qed.
Lemma fine_close_socket e t l : fine e t (with_webSocket None (with_closing l t)).
Proof. intros Ht. split; [split; apply Ht|done]. Qed.

(** A task that leaves the queue. *)
Lemma fine_task e t k q : queue t = k :: q -> fine e t (run_task k (with_queue q t)).2.
Proof.
  intros Hq Ht. pose proof (wt_one _ _ Ht) as H1. destruct k as [|p|]; unfold run_task, bind; cbn [get].
  - rewrite Hq in H1. unfold count_new in H1. cbn in H1. fold (count_new q) in H1. split.
    + split; cbn; [intros w Hw%(wt_ended _ _ Ht); lia|lia|apply Ht..].
    + unfold attempts. cbn. rewrite Hq. unfold count_new. cbn. unfold attempts_left, rc. cbn. lia.
  - assert (fine e t (with_queue q t)) as Hf.
    { intros _. split; [split; cbn; [apply Ht|rewrite Hq in H1; exact H1|apply Ht..]|]. unfold attempts. by rewrite Hq. }
    cbn. destruct (t_closed t); [by apply Hf|]. destruct (mWebSocket t); [|by apply Hf]. by apply (transitivity Hf), Ht; apply fine_handed.
  - assert (fine e t (with_queue q t)) as Hf.
    { intros _. split; [split; cbn; [apply Ht|rewrite Hq in H1; exact H1|apply Ht..]|]. unfold attempts. by rewrite Hq. }
    cbn. destruct (mWebSocket t); [|by apply Hf]. by apply (transitivity Hf), Ht; apply fine_close_socket.
Qed.

Lemma run_task_queue k q t : exists t', run_task k t = (Ok tt, t') /\ queue t' = queue t /\
  run_task k (with_queue q t) = (Ok tt, with_queue q t').
Proof.
  destruct k as [|p|]; unfold run_task, bind; cbn [get].
  - by eexists.
  - cbn. destruct (t_closed t); [by eexists|]. destruct (mWebSocket t); by eexists.
  - cbn. destruct (mWebSocket t); by eexists.
Qed.
Lemma fine_tasks e q t : queue t = [] -> fine e (with_queue q t) (for_list q run_task t).2.
Proof.
  revert t. induction q as [|k q IH]; intros t Hq.
  - cbn. destruct t. cbn in *. by subst.
  - destruct (run_task_queue k q t) as (t' & Ht & Hq' & Hk). cbn [for_list]. unfold bind. rewrite Ht.
    etrans; [apply (fine_task e (with_queue (k :: q) t) k q eq_refl)|].
    change (with_queue q (with_queue (k :: q) t)) with (with_queue q t). rewrite Hk. apply IH. congruence.
Qed.

Lemma fine_closed e t : fine e t (with_t_closed true t).
Proof. intros Ht. split; [split; apply Ht|]. unfold attempts, attempts_left. cbn. lia. Qed.
Lemma fine_transport_close e t : fine e t (transport_close t).2.
Proof.
  unfold transport_close, bind. cbn [get]. destruct (t_closed t); [reflexivity|]. cbn [put].
  etrans; [apply fine_closed|]. etrans; [by apply (fine_post e _ CloseSocket)|].
  by apply (fine_tasks e (queue t ++ [CloseSocket]) (with_queue [] (with_t_closed true t))).
Qed.

Lemma fine_run_next e t : fine e t (run_next t).2.
Proof.
  unfold run_next, bind. cbn [get]. destruct (queue t) as [|k q] eqn:Hq; [reflexivity|]. cbn [put]. by apply fine_task.
Qed.

Lemma fine_sendMessage e m t : fine e t (sendMessage m t).2.
Proof. unfold sendMessage, bind. cbn [get]. destruct (t_closed t); [reflexivity|]. by apply fine_post. Qed.

Lemma retried_rc t : 0 <= rc t <= 11 -> retryCount (retried (mRetryStrategy t)) = rc t + 1.
Proof. unfold retried, rc. cbn. intros H. apply wrap_s_small; lia. Qed.

Lemma fine_reconnect e i t : (i < length (delayed t))%nat -> fine e t (reconnect i t).2.
Proof.
  intros Hi Ht. pose proof (one_delayed e t Ht) as H1. assert (i = 0%nat) as -> by lia.
  destruct (delayed t) as [|d [|]] eqn:Hd; cbn in Hi, H1; [lia| |lia].
  destruct (wt_count _ _ Ht) as [Hc Hc']. rewrite Hd in Hc'. specialize (Hc' ltac:(done)).
  pose proof (wt_one _ _ Ht) as H2. rewrite Hd in H2. cbn in H2.
  unfold reconnect, bind. cbn [modify get]. cbn [t_closed with_delayed]. rewrite Hd. cbn [delete list_delete].
  destruct (t_closed t) eqn:Hcl.
  - split; [split; cbn; [apply Ht|lia|apply Ht|split; [apply Ht|done]|done]|]. unfold attempts, attempts_left. cbn. rewrite Hcl. done.
  - cbn [newWebSocket modify snd]. split.
    + split; cbn; [intros w Hw%(wt_ended _ _ Ht); lia|lia| | |done].
      * rewrite (wt_strategy _ _ Ht). done.
      * unfold rc. cbn. change (int (retryCount (mRetryStrategy t) + 1)) with (retryCount (retried (mRetryStrategy t))).
        rewrite retried_rc by done. split; [lia|done].
    + unfold attempts, attempts_left. cbn. rewrite Hcl. unfold rc. cbn.
      change (int (retryCount (mRetryStrategy t) + 1)) with (retryCount (retried (mRetryStrategy t))). rewrite retried_rc by done.
      unfold rc in *. lia.
Qed.

(** *** The callbacks *)

Definition opened w (t : transport) : transport :=
  with_retry (reset_retries (mRetryStrategy t)) (with_t_connected true (with_webSocket (Some w) t)).
Lemma onOpen_transport w c : mTransport (onOpen w c).2 = if t_closed (mTransport c) then mTransport c else opened w (mTransport c).
Proof.
  unfold onOpen, unless_t_closed, peer_onOpen, unless_closed, bind. cbn. destruct (t_closed (mTransport c)); [done|]. cbn.
  by destruct (p_closed c).
Qed.
Lemma wf_opened e w t : wf_transport e t -> wf_transport e (opened w t).
Proof.
  intros Ht. split; cbn; [apply Ht|apply Ht| |unfold rc; cbn; lia|apply Ht]. by rewrite (wt_strategy _ _ Ht).
Qed.

Definition ended_transport (t : transport) : transport :=
  with_retry (reset_retries (mRetryStrategy t)) (with_t_connected false (with_t_closed true t)).
Lemma onClosed_transport c : mTransport (onClosed c).2 = if t_closed (mTransport c) then mTransport c else ended_transport (mTransport c).
Proof.
  unfold onClosed, unless_t_closed, peer_onClose, unless_closed, bind. cbn. destruct (t_closed (mTransport c)); [done|]. cbn.
  by destruct (p_closed c).
Qed.

Definition failed_transport (t : transport) : transport :=
  let d := getReconnectInterval (mRetryStrategy t) in
  if d =? -1 then with_retry (reset_retries (mRetryStrategy t)) (with_t_closed true t)
  else with_delayed (delayed t ++ [d]) t.
Lemma onFailure_transport c : mTransport (onFailure c).2 = if t_closed (mTransport c) then mTransport c else failed_transport (mTransport c).
Proof.
  unfold onFailure, failed_transport, unless_t_closed, scheduleReconnect, peer_onClose, peer_onDisconnected, peer_onFail, unless_closed, bind. cbn.
  destruct (t_closed (mTransport c)); [done|]. cbn -[getReconnectInterval]. destruct (getReconnectInterval _ =? -1); cbn; [by destruct (p_closed c)|].
  destruct (t_connected (mTransport c)); cbn; by destruct (p_closed c).
Qed.

Lemma pow2_bounds n : 0 <= n -> 1 <= 2 ^ n.
Proof. intros. apply (Z.pow_le_mono_r 2 0 n); lia. Qed.

(** The intervals are between one and eight seconds, until the retries are used up. *)
Lemma interval_cases n : 0 <= n ->
  getReconnectInterval (mkRetry 10 2 1000 8000 n) = if 10 <? n then -1 else Z.min (1000 * 2 ^ n) 8000.
Proof.
  intros Hn. unfold getReconnectInterval. cbn [retries retryCount minTimeout maxTimeout factor].
  pose proof (pow2_bounds n Hn). destruct (Z.ltb_spec 10 n); [done|]. lia.
Qed.

Lemma wf_ended e w t : wf_transport e t -> (w < sockets t)%nat -> w ∉ e -> wf_transport ({[w]} ∪ e) t.
Proof.
  intros Ht Hw He. split; [|rewrite size_union, size_singleton by set_solver; pose proof (wt_one _ _ Ht); lia|apply Ht..].
  intros v [->%elem_of_singleton|Hv]%elem_of_union; [done|by apply (wt_ended _ _ Ht)].
Qed.

Lemma fine_ended e t : fine e t (ended_transport t).
Proof.
  intros Ht. split; [|unfold attempts, attempts_left; cbn; lia].
  split; cbn; [apply Ht|apply Ht| |unfold rc; cbn; lia|apply Ht]. by rewrite (wt_strategy _ _ Ht).
Qed.

(** The failed web socket makes room for the next. *)
Lemma wf_failed e w t : wf_transport e t -> (w < sockets t)%nat -> w ∉ e -> 
  wf_transport ({[w]} ∪ e) (failed_transport t) /\ (attempts (failed_transport t) <= attempts t)%nat.
Proof.
  intros Ht Hw He. pose proof (wf_ended e w t Ht Hw He) as Ht'. unfold failed_transport.
  rewrite (wt_strategy _ _ Ht), interval_cases by (destruct (wt_count _ _ Ht); lia).
  destruct (wt_count _ _ Ht) as [Hc _]. destruct (Z.ltb_spec 10 (rc t)) as [Hr|Hr].
  - cbn [Z.eqb Pos.eqb]. split; [|unfold attempts, attempts_left; cbn; lia].
    split; cbn; [apply Ht'|apply Ht'|done|unfold rc; cbn; lia|apply Ht'].
  - pose proof (pow2_bounds (rc t)). assert (Hd : 1000 <= Z.min (1000 * 2 ^ rc t) 8000 <= 8000) by lia.
    destruct (Z.eqb_spec (Z.min (1000 * 2 ^ rc t) 8000) (-1)); [lia|]. split; [|done]. split; cbn.
    + apply Ht'.
    + rewrite length_app, size_union, size_singleton by set_solver. cbn. pose proof (wt_one _ _ Ht). lia.
    + apply Ht.
    + split; [done|]. intros _. exact Hr.
    + apply Forall_app. split; [apply Ht|]. by constructor.
Qed.

Definition opens (a : action) : bool := match a with AOpen _ => true | _ => false end.
Definition wt (s : world) : Prop := wf_transport s.2 (mTransport s.1).

(** What else leaves the transport alone, or changes it as one of its steps. *)
Definition fine_client e (c c' : client) : Prop := fine e (mTransport c) (mTransport c').
#[local] Instance fine_client_preorder e : PreOrder (fine_client e).
Proof. split; [intros c; unfold fine_client; reflexivity|]. unfold fine_client. intros ??? H1 H2. by etrans. Qed.
Lemma fine_on_transport e {A} (m : M transport A) : keeps (fine e) m -> keeps (fine_client e) (on_transport m).
Proof. intros Hm. apply (keeps_zoom (fine_client e) (fine e)); [done|]. intros c t t' [= <-] Ht. done. Qed.
Lemma fine_send e m : keeps (fine_client e) (on_transport (sendMessage m)).
Proof. apply fine_on_transport. intros t. apply fine_sendMessage. Qed.
Lemma fine_transport_kept e {A} (m : M client A) : (forall c, mTransport (m c).2 = mTransport c) -> keeps (fine_client e) m.
Proof. intros Hm c. unfold fine_client. rewrite Hm. reflexivity. Qed.
#[local] Hint Resolve fine_send : keeps.
#[local] Ltac keep_special ::= solve [apply fine_transport_kept; done].

Lemma fine_request e method random data : keeps (fine_client e) (request method random data;;; ret tt).
Proof. unfold request. keep. Qed.
Lemma fine_notify e method data : keeps (fine_client e) (notify method data).
Proof. unfold notify. keep. Qed.
Lemma fine_accept e r data : keeps (fine_client e) (accept r data).
Proof. unfold accept, quietly. keep. Qed.
Lemma fine_reject e r code reason : keeps (fine_client e) (reject r code reason).
Proof. unfold reject, quietly. keep. Qed.
Lemma fine_proxy_run e n : keeps (fine_client e) (proxy_run n).
Proof. apply fine_transport_kept. intros c. unfold proxy_run, bind. cbn. by destruct (proxies c !! n). Qed.
Lemma fine_onMessage e text : keeps (fine_client e) (onMessage text).
Proof.
  apply fine_transport_kept. intros c. unfold onMessage, unless_t_closed, peer_onMessage, unless_closed, handleResponse, bind. cbn.
  destruct (t_closed _), (parse text) as [[]|]; try done; cbn; destruct (p_closed c); try done; cbn.
  destruct (mSends c !! rs_id r); [|done]. destruct (rs_ok r); [|done]. cbn. by destruct (rs_data r).
Qed.
Lemma fine_peer_close e : keeps (fine_client e) peer_close.
Proof. intros c. rewrite peer_close_run. cbn [snd]. destruct (p_closed c); [reflexivity|]. apply fine_transport_close. Qed.

Lemma step_wt a s : enabled a s -> wt s ->
  wt (step a s) /\ (opens a = false -> (attempts (mTransport (step a s).1) <= attempts (mTransport s.1))%nat).
Proof.
  intros He Ht. destruct s as [c e]. unfold wt, step in *. cbn [fst snd] in *.
  assert (Hfine : forall m : M client unit, keeps (fine_client e) m ->
    wf_transport (∅ ∪ e) (mTransport (m c).2) /\ (attempts (mTransport (m c).2) <= attempts (mTransport c))%nat).
  { intros m Hm. rewrite union_empty_l_L. by apply (Hm c). }
  destruct a; cbn [act ends opens enabled] in *.
  - destruct (Hfine _ (fine_request e method random data)); auto.
  - destruct (Hfine _ (fine_notify e method data)); auto.
  - destruct (Hfine _ (fine_accept e r data)); auto.
  - destruct (Hfine _ (fine_reject e r code reason)); auto.
  - destruct (Hfine _ (fine_peer_close e)); auto.
  - destruct (Hfine _ (fine_proxy_run e n)); auto.
  - destruct (Hfine _ (fine_on_transport e _ (fine_run_next e))); auto.
  - destruct (fine_reconnect e i (mTransport c) He Ht). rewrite union_empty_l_L. unfold on_transport, zoom. destruct (reconnect i (mTransport c)). auto.
  - rewrite onOpen_transport, union_empty_l_L. destruct (t_closed (mTransport c)); [done|]. split; [by apply wf_opened|done].
  - rewrite onClosed_transport. destruct He as [Hw Hn], (t_closed (mTransport c)); [by auto using wf_ended|].
    destruct (fine_ended _ _ (wf_ended _ _ _ Ht Hw Hn)). auto.
  - rewrite onFailure_transport. destruct He as [Hw Hn], (t_closed (mTransport c)); [by auto using wf_ended|].
    destruct (wf_failed _ _ _ Ht Hw Hn). auto.
  - destruct (Hfine _ (fine_onMessage e text)); auto.
Qed.

Lemma start_wt : wt start.
Proof. split; cbn; [set_solver|done|done|unfold rc; cbn; lia|constructor]. Qed.
Lemma reach_wt s : reach s -> wt s.
Proof. apply reach_invariant; [|apply start_wt]. intros a w He Hw. by apply step_wt. Qed.

Lemma run_attempts l s s' : run l s s' -> Forall (fun a => opens a = false) l -> wt s ->
  (attempts (mTransport s'.1) <= attempts (mTransport s.1))%nat.
Proof.
  induction 1 as [|a l s s' He Hr IH]; [done|]. intros [Ha Hl]%Forall_cons Hs. destruct (step_wt a s He Hs) as [Hs' Hle].
  specialize (IH Hl Hs'). specialize (Hle Ha). lia.
Qed.

(** ** Closed *)

(** The transport is closed when the peer is. *)
Definition synced (c : client) : Prop := t_closed (mTransport c) = p_closed c.
Definition same_flags (c c' : client) : Prop :=
  t_closed (mTransport c') = t_closed (mTransport c) /\ p_closed c' = p_closed c.
#[local] Instance same_flags_preorder : PreOrder same_flags.
Proof. split; [done|]. unfold same_flags. intros ??? [] []. split; congruence. Qed.
Definition same_t_closed (t t' : transport) : Prop := t_closed t' = t_closed t.
#[local] Instance same_t_closed_preorder : PreOrder same_t_closed.
Proof. split; [done|]. unfold same_t_closed. congruence. Qed.
#[local] Ltac keep_special ::=
  match goal with
  | |- keeps same_t_closed (modify _) => apply keeps_modify; done
  | |- keeps same_flags (modify _) => apply keeps_modify; done
  | |- keeps same_flags (emit _) => apply keeps_modify; done
  | |- keeps same_flags (newProxy _ _) => done
  | |- keeps same_flags (on_transport _) =>
    apply (keeps_zoom same_flags same_t_closed); [|intros ? ? ? [= <-] ?; by split]
  end.
Lemma flags_run_task k : keeps same_t_closed (run_task k).
Proof. unfold run_task, newWebSocket. destruct k; keep. Qed.
Lemma flags_run_next : keeps same_t_closed run_next.
Proof.
  intros t. unfold run_next, bind. cbn. destruct (queue t) as [|k q]; [done|].
  exact (flags_run_task k (with_queue q t)).
Qed.
#[local] Hint Resolve flags_run_task flags_run_next : keeps.
Lemma flags_act a : match a with AClose | AClosed _ | AFailure _ => True | _ => keeps same_flags (act a) end.
Proof.
  destruct a; cbn [act]; try done; unfold request, notify, accept, reject, quietly, sendMessage, reconnect, post, newWebSocket,
    onOpen, onMessage, unless_t_closed, peer_onOpen, peer_onMessage, unless_closed; keep.
  - intros c. unfold proxy_run, bind. cbn. by destruct (proxies c !! n).
  - intros c. unfold handleResponse, bind. cbn. destruct (mSends c !! rs_id r); [|done]. cbn.
    destruct (rs_ok r); [|done]. by destruct (rs_data r).
Qed.

Lemma flags_tasks l : keeps same_t_closed (for_list l run_task).
Proof. keep. Qed.
Lemma transport_closed t : t_closed (transport_close t).2 = true.
Proof.
  unfold transport_close, bind. cbn. destruct (t_closed t) eqn:E; [done|].
  exact (flags_tasks (queue t ++ [CloseSocket]) (with_queue [] (with_t_closed true t))).
Qed.

Lemma onClosed_flags c : synced c -> synced (onClosed c).2.
Proof.
  unfold synced, onClosed, unless_t_closed, peer_onClose, unless_closed, bind. cbn. intros H. rewrite H.
  destruct (p_closed c) eqn:E; cbn; [congruence|by rewrite E].
Qed.
(** A failure is followed by a reconnection, or the listener is told that the
    connection is closed. *)
Lemma onFailure_run c : synced c -> p_closed c = false ->
  let d := getReconnectInterval (mRetryStrategy (mTransport c)) in let c' := (onFailure c).2 in
  synced c' /\
  (if d =? -1 then p_closed c' = true /\ events c' = OnClose :: events c
   else p_closed c' = false /\ delayed (mTransport c') = delayed (mTransport c) ++ [d] /\
        events c' = (if t_connected (mTransport c) then OnDisconnected else OnFail) :: events c).
Proof.
  unfold synced, onFailure, unless_t_closed, scheduleReconnect, peer_onClose, peer_onDisconnected, peer_onFail, unless_closed, bind.
  cbn -[getReconnectInterval]. intros H Hc. rewrite H, Hc. cbn -[getReconnectInterval]. destruct (getReconnectInterval _ =? -1); cbn.
  - by rewrite Hc.
  - destruct (t_connected (mTransport c)); cbn; rewrite Hc; cbn; by rewrite H, Hc.
Qed.

Lemma step_synced a s : synced s.1 -> synced (step a s).1.
Proof.
  intros Hs. pose proof (flags_act a) as Ha. cbn [step fst].
  assert (Hk : keeps same_flags (act a) -> synced (act a s.1).2) by (intros Hk; destruct (Hk s.1); unfold synced in *; congruence).
  destruct a; auto; cbn [act].
  - rewrite peer_close_run. cbn [snd]. destruct (p_closed s.1); [done|]. apply transport_closed.
  - by apply onClosed_flags.
  - destruct (p_closed s.1) eqn:E; [|by apply onFailure_run]. unfold onFailure, unless_t_closed, bind. cbn. by rewrite Hs, E.
Qed.
Lemma reach_synced s : reach s -> synced s.1.
Proof. apply (reach_invariant (fun s => synced s.1)); [|done]. intros a w _. apply step_synced. Qed.

(** ** The claims *)


Lemma alive_not_delayed e w t : wf_transport e t -> (w < sockets t)%nat -> w ∉ e -> delayed t = [].
Proof.
  intros Ht Hw He. pose proof (ended_size _ _ (wf_ended e w t Ht Hw He)) as Hs. rewrite size_union, size_singleton in Hs by set_solver.
  pose proof (wt_one _ _ Ht). destruct (delayed t); [done|]. cbn in *. lia.
Qed.

(** C34: While no connection succeeds, the transport makes at most eleven further
    attempts, waits between one and eight seconds before each, and never has more
    than one web socket that is alive or scheduled.  When a web socket fails,
    either one reconnection is scheduled, or client and transport are closed and
    the listener is told so. *)
Theorem reconnection_bounded s l s' : reach s -> run l s s' -> Forall (fun a => opens a = false) l ->
  (sockets (mTransport s'.1) <= sockets (mTransport s.1) + count_new (queue (mTransport s.1)) + 11)%nat /\
  (sockets (mTransport s'.1) + length (delayed (mTransport s'.1)) + count_new (queue (mTransport s'.1)) <= 1 + size s'.2)%nat /\
  Forall (fun d => 1000 <= d <= 8000) (delayed (mTransport s'.1)) /\
  (forall w, alive w s' -> p_closed s'.1 = false ->
     let c := (step (AFailure w) s').1 in
     (p_closed c = true /\ t_closed (mTransport c) = true /\ events c = OnClose :: events s'.1) \/
     (p_closed c = false /\ exists d, delayed (mTransport c) = [d])).
Proof.
  intros Hs Hr Hl. pose proof (reach_wt s Hs) as Ht. pose proof (run_attempts l s s' Hr Hl Ht) as Ha.
  assert (wt s' /\ synced s'.1) as [Ht' Hy].
  { apply (run_invariant (fun s => wt s /\ synced s.1) (fun _ => True) l s s');
      [|done|by apply Forall_true|split; [done|by apply reach_synced]].
    intros a w _ He [Hw Hy]. split; [by apply step_wt|by apply step_synced]. }
  split; [|split; [apply Ht'|split; [apply Ht'|]]].
  - destruct (wt_count _ _ Ht) as [Hc _].
    assert (attempts_left (mTransport s.1) <= 11)%nat by (unfold attempts_left; destruct (t_closed _); lia). unfold attempts in Ha. lia.
  - intros w [Hw Hn] Hc. cbn zeta. cbn [step fst act]. pose proof (onFailure_run s'.1 Hy Hc) as [Hy' Hf].
    destruct (_ =? -1); [left|right].
    + destruct Hf as [Hf ?]. unfold synced in Hy'. rewrite Hy'. done.
    + destruct Hf as (? & Hd & _). split; [done|]. rewrite (alive_not_delayed _ _ _ Ht' Hw Hn) in Hd. by eexists.
Qed.

(** *** Requests that are never answered *)

Lemma run_step a l s s' : enabled a s -> run l (step a s) s' -> run (a :: l) s s'.
Proof. intros. by constructor. Qed.

Lemma lost_by_close s i n : reach s -> mSends s.1 !! i = Some n -> p_closed s.1 = false -> lost n (book_of (step AClose s).1).
Proof.
  intros Hs Hn Hc. pose proof (reach_wf_client s Hs) as Hw. destruct (wf_sends _ Hw _ _ Hn) as [Ht Hp].
  destruct (wf_timers _ Hw n Ht) as [Hl Ha]. cbn [step fst act]. rewrite peer_close_run, Hc. split; [done|]. split; [|done].
  cbn. intros [_ Hd]%elem_of_difference. apply Hd. rewrite elem_of_list_to_set, list_elem_of_fmap. exists (i, n).
  split; [done|]. by apply elem_of_map_to_list.
Qed.

Lemma onMessage_run text m c : synced c -> p_closed c = false -> parse text = Some m ->
  onMessage text c = match m with
                     | MRequest r => emit (OnRequest r) c
                     | MResponse r => handleResponse r c
                     | MNotification n => emit (OnNotification n) c
                     end.
Proof.
  unfold synced, onMessage, unless_t_closed, peer_onMessage, unless_closed, bind. cbn. intros -> Hc ->. rewrite Hc. cbn. rewrite Hc. by destruct m.
Qed.

Lemma lost_by_no_data s i n text : reach s -> mSends s.1 !! i = Some n -> p_closed s.1 = false ->
  parse text = Some (MResponse (newResponse i None)) ->
  (onMessage text s.1).1 = Throw (Java NullPointerException) /\ lost n (book_of (onMessage text s.1).2).
Proof.
  intros Hs Hn Hc Hp. pose proof (reach_wf_client s Hs) as Hw. destruct (wf_sends _ Hw _ _ Hn) as [Ht _].
  destruct (wf_timers _ Hw n Ht) as [Hl Ha]. rewrite (onMessage_run _ _ _ (reach_synced s Hs) Hc Hp).
  unfold handleResponse, bind. cbn. rewrite Hn. cbn. split; [done|]. split; [done|]. split; [|done]. cbn. set_solver.
Qed.

(** A request that waits is never answered, not even by its timer, if the
    client is closed, or if its successful response carries no object of data:
    that response ends in a NullPointerException after the timer was stopped.  A
    request that drew the id 0 does not receive its response. *)
Theorem requests_lost s i n : reach s -> mSends s.1 !! i = Some n -> p_closed s.1 = false ->
  (forall l s', run l (step AClose s) s' -> n ∉ answered s'.1) /\
  (forall w text, parse text = Some (MResponse (newResponse i None)) ->
     (act (AMessage w text) s.1).1 = Throw (Java NullPointerException) /\
     (alive w s -> forall l s', run l (step (AMessage w text) s) s' -> n ∉ answered s'.1)) /\
  (i = 0 -> forall w text r data, rq_id r = i -> new_JSONObject text = Some (createSuccessResponse r data) ->
     act (AMessage w text) s.1 = (Ok tt, s.1)).
Proof.
  intros Hs Hn Hc. pose proof (reach_wf_client s Hs) as Hw. split; [|split].
  - intros l s' Hr. apply (run_lost n _ _ _ Hr); [by apply step_wf|]. by eapply lost_by_close.
  - intros w text Hp. destruct (lost_by_no_data s i n text Hs Hn Hc Hp) as [Ht Hl]. split; [done|].
    intros Ha l s' Hr. apply (run_lost n _ _ _ Hr); [by apply step_wf|done].
  - intros -> w text r data Hr Ht. cbn [act]. unfold onMessage, unless_t_closed, bind, parse. cbn.
    rewrite Ht, (parse_zero r data Hr). by destruct (t_closed _).
Qed.

(** *** A request and its response *)

Lemma request_run method random data c : synced c -> p_closed c = false -> generateRandomNumber random = true ->
  let n := length (proxies c) in let p := toString (JObject (createRequest method random (Some data))) in
  (request method random data c).2 =
  with_sends (<[random := n]> (mSends c)) (with_timers (timers c ∪ {[n]})
    (with_proxies (proxies c ++ [mkProxy random method]) (with_transport
      (with_queue (queue (mTransport c) ++ [Send p]) (mTransport c)) c))).
Proof.
  intros Hy Hc Hr. cbn zeta. unfold request. rewrite (request_id _ _ _ Hr). unfold on_transport, sendMessage, zoom, bind. cbn.
  rewrite Hy, Hc. done.
Qed.

Lemma response_run r n c : mSends c !! rs_id r = Some n -> (rs_ok r = true -> rs_data r <> None) ->
  let c' := (handleResponse r c).2 in
  events c' = Answered n (if rs_ok r then Resolved (toString (JObject (default [] (rs_data r))))
                          else Rejected (rs_errorCode r) (rs_errorReason r)) :: events c /\ n ∉ timers c'.
Proof.
  intros Hn Hd. unfold handleResponse, bind. cbn. rewrite Hn. cbn.
  destruct (rs_ok r); [destruct (rs_data r) as [d|]; [|by destruct (Hd eq_refl)]|]; split; [done|set_solver|done|set_solver].
Qed.

Lemma sent_run method random data s w : synced s.1 -> p_closed s.1 = false -> generateRandomNumber random = true ->
  mWebSocket (mTransport s.1) = Some w -> queue (mTransport s.1) = [] ->
  let p := toString (JObject (createRequest method random (Some data))) in
  let c := (step ATask (step (ARequest method random data) s)).1 in
  handed (mTransport c) = handed (mTransport s.1) ++ [(w, p)] /\
  mSends c !! random = Some (length (proxies s.1)) /\ p_closed c = false /\ events c = events s.1.
Proof.
  intros Hy Hc Hr Hw Hq. cbn zeta. cbn [step fst].
  assert ((act (ARequest method random data) s.1).2 = (request method random data s.1).2) as ->
    by (cbn [act]; unfold bind; by destruct (request method random data s.1) as [[]]).
  rewrite (request_run method random data s.1 Hy Hc Hr). cbn [act].
  unfold on_transport, zoom, run_next, bind. cbn. rewrite Hq. cbn. rewrite Hy, Hc, Hw. cbn.
  split; [done|]. split; [apply lookup_insert_eq|done].
Qed.

End steps.

(** ** Witnesses *)

(** A reader and printer for the messages below. *)
Definition sample_request : object := createRequest "join" 7 (Some [("deviceName", JString "phone")]).
Definition sample_response : object :=
  createSuccessResponse (mkRequest "join" 7 None) (Some [("peers", JArray [])]).
Definition sample_no_data : object := [("id", JInt 7); ("ok", JBool true); ("response", JBool true)].
Definition sample_json : OrgJson := {|
  new_JSONObject s := if String.eqb s "request" then Some sample_request
                      else if String.eqb s "response" then Some sample_response
                      else if String.eqb s "no data" then Some sample_no_data else None;
  toString v := match v with
                | JObject o => if bool_decide (length o = 4)%nat then "request" else "other"
                | _ => ""
                end;
  toLong _ := None |}.

(** The web socket has been made and has opened. *)
Definition sample_open : list action := [ATask; AOpen 0].
Definition sample_pending : list action :=
  sample_open ++ [ARequest "join" 7 [("deviceName", JString "phone")]; ATask].
Definition sample_state (l : list action) : world := fold_left (fun s a => step (J := sample_json) a s) l start.

Lemma run_app `{J : OrgJson} l l' s s1 s2 : run l s s1 -> run l' s1 s2 -> run (l ++ l') s s2.
Proof. induction 1; [done|]. intros Hr. cbn. constructor; auto. Qed.
Lemma sample_open_run : run (J := sample_json) sample_open start (sample_state sample_open).
Proof. repeat constructor; cbn; try lia; set_solver. Qed.
Lemma sample_pending_run : run (J := sample_json) sample_pending start (sample_state sample_pending).
Proof.
  apply (run_app (J := sample_json) sample_open _ _ (sample_state sample_open)); [apply sample_open_run|].
  repeat constructor.
Qed.


(** The connection is lost, and the next web socket fails too. *)
Definition sample_failures : list action := [AFailure 0; AReconnect 0; AFailure 1].
Lemma sample_failures_run : run (J := sample_json) sample_failures (sample_state sample_open) (sample_state (sample_open ++ sample_failures)).
Proof. repeat constructor; cbn; try lia; set_solver. Qed.
Lemma sample_open_reach : reach (J := sample_json) (sample_state sample_open).
Proof. exists sample_open. apply sample_open_run. Qed.

Lemma reconnection_bounded_witness : let s := sample_state (sample_open ++ sample_failures) in
  (sockets (mTransport s.1) <= 1 + 0 + 11)%nat /\ delayed (mTransport s.1) = [2000] /\
  Forall (fun d => 1000 <= d <= 8000) (delayed (mTransport s.1)).
Proof.
  destruct (reconnection_bounded (J := sample_json) _ _ _ sample_open_reach sample_failures_run) as (Hs & _ & Hd & _).
  - repeat constructor.
  - split; [exact Hs|]. split; [reflexivity|exact Hd].
Defined.

(** From a new client ten reconnections fail before it is closed. *)
Definition sample_giving_up : list action :=
  ATask :: concat (map (fun n => [AFailure n; AReconnect 0]) (seq 0 10)) ++ [AFailure 10].
Example gives_up : let c := (sample_state sample_giving_up).1 in
  p_closed c = true /\ events c = OnClose :: repeat OnFail 10 /\ sockets (mTransport c) = 11%nat.
Proof. vm_compute. auto. Qed.

Lemma requests_lost_witness : let s := sample_state sample_pending in
  reach (J := sample_json) s /\ mSends s.1 !! 7 = Some 0%nat /\
  (act (J := sample_json) (AMessage 0 "no data") s.1).1 = Throw (Java NullPointerException) /\
  (forall l s', run (J := sample_json) l (step (J := sample_json) AClose s) s' -> 0%nat ∉ answered s'.1).
Proof.
  assert (Hr : reach (J := sample_json) (sample_state sample_pending)) by (exists sample_pending; exact sample_pending_run).
  assert (Hm : mSends (sample_state sample_pending).1 !! 7 = Some 0%nat) by reflexivity.
  destruct (requests_lost (J := sample_json) (sample_state sample_pending) 7 0%nat Hr Hm eq_refl) as (Hc & Hd & _).
  split; [exact Hr|]. split; [exact Hm|]. split; [|exact Hc]. by apply (Hd 0%nat "no data"%string).
Defined.

