(* ===== verification/RoomStore.v ===== *)
(** * The store of a room

    Models, of src/mediasoupdemo/src/main/java/org/mediasoup/droid/lib, the
    classes of model/ and lv/RoomStore.java.  [postValue] of
    lv/SupplierMutableLiveData.java applies its action to the value at once; the
    observers it tells later are not modelled, nor are the random identifiers of
    peers and notifications.  A LinkedHashMap is an association list in the order
    of insertion; the other maps are finite maps. *)

From stdpp Require Import base list gmap strings.
From Stdlib Require Import ZArith Lia.
From S2P Require Import Prelude Json Java Protoo.
Open Scope Z_scope.

(** ** model/ *)

Record DeviceInfo := mkDeviceInfo { mFlag : string; mName : string; mVersion : string }.
Definition unknownDevice : DeviceInfo := mkDeviceInfo "unknown" "unknown" "unknown".
Definition DeviceInfo_toJSONObject (d : DeviceInfo) : object :=
  json_put "version" (JString (mVersion d)) (json_put "name" (JString (mName d))
    (json_put "flag" (JString (mFlag d)) [])).

Inductive ConnectionState := NEW | CONNECTING | CONNECTED | DISCONNECTED | CLOSED.
#[global] Instance ConnectionState_eq_dec : EqDecision ConnectionState.
Proof. solve_decision. Defined.

Record RoomInfo := mkRoomInfo {
  mUrl : option string; mRoomId : option string; mConnectionState : ConnectionState;
  mActiveSpeakerId : option string; mStatsPeerId : option string; mFaceDetection : bool }.
Definition newRoomInfo : RoomInfo := mkRoomInfo None None NEW None None false.

Record Me := mkMe {
  me_id : option string; me_displayName : option string; me_device : option DeviceInfo;
  mCanSendMic : bool; mCanSendCam : bool; mCanChangeCam : bool;
  mCamInProgress : bool; mShareInProgress : bool;
  mAudioOnly : bool; mAudioOnlyInProgress : bool; mAudioMuted : bool; mRestartIceInProgress : bool;
  mSpeakerMute : bool; mFrontCamera : bool }.
Definition newMe : Me :=
  mkMe None None None false false false false false false false false false false true.
Definition Me_clear (m : Me) : Me :=
  mkMe (me_id m) (me_displayName m) (me_device m) (mCanSendMic m) (mCanSendCam m) (mCanChangeCam m)
    false false false false false false false true.

Definition Me_setCanSendMic (b : bool) (m : Me) : Me :=
  mkMe (me_id m) (me_displayName m) (me_device m) b (mCanSendCam m) (mCanChangeCam m) (mCamInProgress m) (mShareInProgress m) (mAudioOnly m) (mAudioOnlyInProgress m) (mAudioMuted m) (mRestartIceInProgress m) (mSpeakerMute m) (mFrontCamera m).
Definition Me_setCanSendCam (b : bool) (m : Me) : Me :=
  mkMe (me_id m) (me_displayName m) (me_device m) (mCanSendMic m) b (mCanChangeCam m) (mCamInProgress m) (mShareInProgress m) (mAudioOnly m) (mAudioOnlyInProgress m) (mAudioMuted m) (mRestartIceInProgress m) (mSpeakerMute m) (mFrontCamera m).
Definition Me_setCamInProgress (b : bool) (m : Me) : Me :=
  mkMe (me_id m) (me_displayName m) (me_device m) (mCanSendMic m) (mCanSendCam m) (mCanChangeCam m) b (mShareInProgress m) (mAudioOnly m) (mAudioOnlyInProgress m) (mAudioMuted m) (mRestartIceInProgress m) (mSpeakerMute m) (mFrontCamera m).
Definition Me_setShareInProgress (b : bool) (m : Me) : Me :=
  mkMe (me_id m) (me_displayName m) (me_device m) (mCanSendMic m) (mCanSendCam m) (mCanChangeCam m) (mCamInProgress m) b (mAudioOnly m) (mAudioOnlyInProgress m) (mAudioMuted m) (mRestartIceInProgress m) (mSpeakerMute m) (mFrontCamera m).
Definition Me_setAudioOnly (b : bool) (m : Me) : Me :=
  mkMe (me_id m) (me_displayName m) (me_device m) (mCanSendMic m) (mCanSendCam m) (mCanChangeCam m) (mCamInProgress m) (mShareInProgress m) b (mAudioOnlyInProgress m) (mAudioMuted m) (mRestartIceInProgress m) (mSpeakerMute m) (mFrontCamera m).
Definition Me_setAudioOnlyInProgress (b : bool) (m : Me) : Me :=
  mkMe (me_id m) (me_displayName m) (me_device m) (mCanSendMic m) (mCanSendCam m) (mCanChangeCam m) (mCamInProgress m) (mShareInProgress m) (mAudioOnly m) b (mAudioMuted m) (mRestartIceInProgress m) (mSpeakerMute m) (mFrontCamera m).
Definition Me_setAudioMuted (b : bool) (m : Me) : Me :=
  mkMe (me_id m) (me_displayName m) (me_device m) (mCanSendMic m) (mCanSendCam m) (mCanChangeCam m) (mCamInProgress m) (mShareInProgress m) (mAudioOnly m) (mAudioOnlyInProgress m) b (mRestartIceInProgress m) (mSpeakerMute m) (mFrontCamera m).
Definition Me_setRestartIceInProgress (b : bool) (m : Me) : Me :=
  mkMe (me_id m) (me_displayName m) (me_device m) (mCanSendMic m) (mCanSendCam m) (mCanChangeCam m) (mCamInProgress m) (mShareInProgress m) (mAudioOnly m) (mAudioOnlyInProgress m) (mAudioMuted m) b (mSpeakerMute m) (mFrontCamera m).
Definition Me_setSpeakerMute (b : bool) (m : Me) : Me :=
  mkMe (me_id m) (me_displayName m) (me_device m) (mCanSendMic m) (mCanSendCam m) (mCanChangeCam m) (mCamInProgress m) (mShareInProgress m) (mAudioOnly m) (mAudioOnlyInProgress m) (mAudioMuted m) (mRestartIceInProgress m) b (mFrontCamera m).
Definition Me_setFrontCamera (b : bool) (m : Me) : Me :=
  mkMe (me_id m) (me_displayName m) (me_device m) (mCanSendMic m) (mCanSendCam m) (mCanChangeCam m) (mCamInProgress m) (mShareInProgress m) (mAudioOnly m) (mAudioOnlyInProgress m) (mAudioMuted m) (mRestartIceInProgress m) (mSpeakerMute m) b.
Definition Me_setDisplayName (displayName : string) (m : Me) : Me :=
  mkMe (me_id m) (Some displayName) (me_device m) (mCanSendMic m) (mCanSendCam m) (mCanChangeCam m) (mCamInProgress m) (mShareInProgress m) (mAudioOnly m) (mAudioOnlyInProgress m) (mAudioMuted m) (mRestartIceInProgress m) (mSpeakerMute m) (mFrontCamera m).

(** A Producer or Consumer is an object of the client: a place in its heap. *)
Record ProducersWrapper := mkProducersWrapper {
  mProducer : nat; pw_score : option (list json); pw_type : option string }.
Record ConsumerWrapper := mkConsumerWrapper {
  cw_type : string; mLocallyPaused : bool; mRemotelyPaused : bool;
  mSpatialLayer : Z; mTemporalLayer : Z; mConsumer : nat; cw_score : option (list json);
  mPreferredSpatialLayer : Z; mPreferredTemporalLayer : Z }.
Definition newConsumerWrapper (type : string) (remotelyPaused : bool) (consumer : nat) : ConsumerWrapper :=
  mkConsumerWrapper type false remotelyPaused (-1) (-1) consumer None (-1) (-1).

Record Peer := mkPeer {
  mId : string; mDisplayName : string; mDevice : DeviceInfo;
  mVideoVisible : bool; mAudioEnabled : bool; peer_consumers : gset string }.
Definition newPeer `{OrgJson} (info : object) : Peer :=
  mkPeer (optString "id" info) (optString "displayName" info)
    (match optJSONObject "device" info with
     | Some d => mkDeviceInfo (optString "flag" d) (optString "name" d) (optString "version" d)
     | None => unknownDevice
     end) false false ∅.

Record Notify := mkNotify { mType : string; mText : string; mTimeout : Z }.
Definition newNotify (type text : string) (timeout : Z) : Notify :=
  mkNotify type text
    (if timeout =? 0 then
       if String.eqb type "info" then 3000 else if String.eqb type "error" then 5000 else timeout
     else timeout).

(** *** Peers *)

Abbreviation peers_map := (list (string * Peer)).
(** [LinkedHashMap.put]: a key keeps its place. *)
Definition linked_put (k : string) (p : Peer) (m : peers_map) : peers_map :=
  match obj_lookup k m with Some _ => obj_replace k p m | None => m ++ [(k, p)] end.
Definition isContainsCurPeer (peerId : string) (m : peers_map) : bool :=
  negb (String.eqb peerId "") && match obj_lookup peerId m with Some _ => true | None => false end.
Definition getPeer (peerId : string) (m : peers_map) : option Peer :=
  if isContainsCurPeer peerId m then obj_lookup peerId m else None.
Definition getAllPeers (m : peers_map) : list Peer := map snd m.
(** The object is changed in its place. *)
Definition update_peer (peerId : string) (f : Peer -> Peer) (m : peers_map) : peers_map :=
  match getPeer peerId m with Some p => obj_replace peerId (f p) m | None => m end.

Definition Peers_addPeer `{OrgJson} (peerId : string) (info : object) (m : peers_map) : peers_map :=
  linked_put peerId (newPeer info) m.
Definition Peers_removePeer (peerId : string) (m : peers_map) : peers_map :=
  if isContainsCurPeer peerId m then obj_erase peerId m else m.
Definition Peers_setPeerDisplayName (peerId displayName : string) : peers_map -> peers_map :=
  update_peer peerId (fun p =>
    mkPeer (mId p) displayName (mDevice p) (mVideoVisible p) (mAudioEnabled p) (peer_consumers p)).
Definition Peers_updatePeerVideoAudioState (peerId : string) (isVideoVisible isAudioEnabled : bool) :
    peers_map -> peers_map :=
  update_peer peerId (fun p =>
    mkPeer (mId p) (mDisplayName p) (mDevice p) isVideoVisible isAudioEnabled (peer_consumers p)).
Definition with_consumers (s : gset string) (p : Peer) : Peer :=
  mkPeer (mId p) (mDisplayName p) (mDevice p) (mVideoVisible p) (mAudioEnabled p) s.
Definition Peers_addConsumer (peerId consumerId : string) : peers_map -> peers_map :=
  update_peer peerId (fun p => with_consumers (peer_consumers p ∪ {[consumerId]}) p).
Definition Peers_removeConsumer (peerId consumerId : string) : peers_map -> peers_map :=
  update_peer peerId (fun p => with_consumers (peer_consumers p ∖ {[consumerId]}) p).

(** *** Consumers *)

Abbreviation consumers_map := (gmap string ConsumerWrapper).
Definition Consumers_addConsumer (type id : string) (consumer : nat) (remotelyPaused : bool) (m : consumers_map) : consumers_map :=
  <[id := newConsumerWrapper type remotelyPaused consumer]> m.
Definition Consumers_removeConsumer (id : string) (m : consumers_map) : consumers_map := delete id m.
Definition set_paused (originator : string) (b : bool) (w : ConsumerWrapper) : ConsumerWrapper :=
  let here := String.eqb originator "local" in
  mkConsumerWrapper (cw_type w) (if here then b else mLocallyPaused w) (if here then mRemotelyPaused w else b)
    (mSpatialLayer w) (mTemporalLayer w) (mConsumer w) (cw_score w) (mPreferredSpatialLayer w) (mPreferredTemporalLayer w).
Definition Consumers_setConsumerPaused (id originator : string) (m : consumers_map) : consumers_map :=
  alter (set_paused originator true) id m.
Definition Consumers_setConsumerResumed (id originator : string) (m : consumers_map) : consumers_map :=
  alter (set_paused originator false) id m.
Definition Consumers_setConsumerCurrentLayers (id : string) (spatialLayer temporalLayer : Z) (m : consumers_map) : consumers_map :=
  alter (fun w => mkConsumerWrapper (cw_type w) (mLocallyPaused w) (mRemotelyPaused w) spatialLayer temporalLayer
                    (mConsumer w) (cw_score w) (mPreferredSpatialLayer w) (mPreferredTemporalLayer w)) id m.
Definition Consumers_setConsumerType (id type : string) (m : consumers_map) : consumers_map :=
  alter (fun w => mkConsumerWrapper type (mLocallyPaused w) (mRemotelyPaused w) (mSpatialLayer w) (mTemporalLayer w)
                    (mConsumer w) (cw_score w) (mPreferredSpatialLayer w) (mPreferredTemporalLayer w)) id m.
Definition Consumers_setConsumerScore (id : string) (score : option (list json)) (m : consumers_map) : consumers_map :=
  alter (fun w => mkConsumerWrapper (cw_type w) (mLocallyPaused w) (mRemotelyPaused w) (mSpatialLayer w) (mTemporalLayer w)
                    (mConsumer w) score (mPreferredSpatialLayer w) (mPreferredTemporalLayer w)) id m.

(** *** Producers *)

Abbreviation producers_map := (gmap string ProducersWrapper).
Definition Producers_addProducer (id : string) (producer : nat) (m : producers_map) : producers_map :=
  <[id := mkProducersWrapper producer None None]> m.
Definition Producers_removeProducer (id : string) (m : producers_map) : producers_map := delete id m.
(** The producer that [setProducerPaused] pauses and [setProducerResumed] resumes. *)
Definition Producers_get (id : string) (m : producers_map) : option nat := mProducer <$> m !! id.
Definition Producers_setProducerType (id type : string) (m : producers_map) : producers_map :=
  alter (fun w => mkProducersWrapper (mProducer w) (pw_score w) (Some type)) id m.
Definition Producers_setProducerScore (id : string) (score : option (list json)) (m : producers_map) : producers_map :=
  alter (fun w => mkProducersWrapper (mProducer w) score (pw_type w)) id m.

(** ** RoomStore *)

Record RoomStore := mkRoomStore {
  roomInfo : RoomInfo; me : Me; producers : producers_map; peers : peers_map; consumers : consumers_map;
  notify : option Notify }.
Definition newRoomStore : RoomStore := mkRoomStore newRoomInfo newMe ∅ [] ∅ None.

Definition on_roomInfo (f : RoomInfo -> RoomInfo) (s : RoomStore) : RoomStore :=
  mkRoomStore (f (roomInfo s)) (me s) (producers s) (peers s) (consumers s) (notify s).
Definition on_me (f : Me -> Me) (s : RoomStore) : RoomStore :=
  mkRoomStore (roomInfo s) (f (me s)) (producers s) (peers s) (consumers s) (notify s).
Definition on_producers (f : producers_map -> producers_map) (s : RoomStore) : RoomStore :=
  mkRoomStore (roomInfo s) (me s) (f (producers s)) (peers s) (consumers s) (notify s).
Definition on_peers (f : peers_map -> peers_map) (s : RoomStore) : RoomStore :=
  mkRoomStore (roomInfo s) (me s) (producers s) (f (peers s)) (consumers s) (notify s).
Definition on_consumers (f : consumers_map -> consumers_map) (s : RoomStore) : RoomStore :=
  mkRoomStore (roomInfo s) (me s) (producers s) (peers s) (f (consumers s)) (notify s).

Definition setRoomUrl (roomId url : string) : RoomStore -> RoomStore :=
  on_roomInfo (fun r => mkRoomInfo (Some url) (Some roomId) (mConnectionState r) (mActiveSpeakerId r) (mStatsPeerId r) (mFaceDetection r)).
Definition setConnectionState (state : ConnectionState) (r : RoomInfo) : RoomInfo :=
  mkRoomInfo (mUrl r) (mRoomId r) state (mActiveSpeakerId r) (mStatsPeerId r) (mFaceDetection r).
Definition setRoomState (state : ConnectionState) (s : RoomStore) : RoomStore :=
  let s := on_roomInfo (setConnectionState state) s in
  if decide (state = CLOSED) then
    on_consumers (fun _ => ∅) (on_producers (fun _ => ∅) (on_me Me_clear (on_peers (fun _ => []) s)))
  else s.
Definition setRoomActiveSpeaker (peerId : option string) : RoomStore -> RoomStore :=
  on_roomInfo (fun r => mkRoomInfo (mUrl r) (mRoomId r) (mConnectionState r) peerId (mStatsPeerId r) (mFaceDetection r)).
Definition setRoomStatsPeerId (peerId : option string) : RoomStore -> RoomStore :=
  on_roomInfo (fun r => mkRoomInfo (mUrl r) (mRoomId r) (mConnectionState r) (mActiveSpeakerId r) peerId (mFaceDetection r)).
Definition setRoomFaceDetection (enable : bool) : RoomStore -> RoomStore :=
  on_roomInfo (fun r => mkRoomInfo (mUrl r) (mRoomId r) (mConnectionState r) (mActiveSpeakerId r) (mStatsPeerId r) enable).


Definition setMe (peerId displayName : string) (device : DeviceInfo) : RoomStore -> RoomStore :=
  on_me (fun m => mkMe (Some peerId) (Some displayName) (Some device) (mCanSendMic m) (mCanSendCam m) (mCanChangeCam m)
    (mCamInProgress m) (mShareInProgress m) (mAudioOnly m) (mAudioOnlyInProgress m) (mAudioMuted m)
    (mRestartIceInProgress m) (mSpeakerMute m) (mFrontCamera m)).
Definition setMediaCapabilities (canSendMic canSendCam : bool) : RoomStore -> RoomStore :=
  on_me (fun m => Me_setCanSendCam canSendCam (Me_setCanSendMic canSendMic m)).
(** As in the source, the flag of sending. *)
Definition setCanChangeCam (canChangeCam : bool) : RoomStore -> RoomStore := on_me (Me_setCanSendCam canChangeCam).
Definition setDisplayName (displayName : string) : RoomStore -> RoomStore := on_me (Me_setDisplayName displayName).
Definition setAudioOnlyState (enabled : bool) : RoomStore -> RoomStore := on_me (Me_setAudioOnly enabled).
Definition setAudioOnlyInProgress (enabled : bool) : RoomStore -> RoomStore := on_me (Me_setAudioOnlyInProgress enabled).
Definition setAudioMutedState (enabled : bool) : RoomStore -> RoomStore := on_me (Me_setAudioMuted enabled).
Definition setRestartIceInProgress (b : bool) : RoomStore -> RoomStore := on_me (Me_setRestartIceInProgress b).
Definition setSpeakerMuteState (enabled : bool) : RoomStore -> RoomStore := on_me (Me_setSpeakerMute enabled).
Definition setCamInProgress (b : bool) : RoomStore -> RoomStore := on_me (Me_setCamInProgress b).
Definition setShareInProgress (b : bool) : RoomStore -> RoomStore := on_me (Me_setShareInProgress b).
Definition cameraSwitchDone (isFrontCamera : bool) : RoomStore -> RoomStore := on_me (Me_setFrontCamera isFrontCamera).

Definition addProducer (id : string) (producer : nat) : RoomStore -> RoomStore :=
  on_producers (Producers_addProducer id producer).
Definition addProducer_typed (id : string) (producer : nat) (type : string) : RoomStore -> RoomStore :=
  on_producers (fun m => Producers_setProducerType id type (Producers_addProducer id producer m)).
Definition removeProducer (id : string) : RoomStore -> RoomStore := on_producers (Producers_removeProducer id).
Definition setProducerType (id type : string) : RoomStore -> RoomStore := on_producers (Producers_setProducerType id type).
Definition setProducerScore (id : string) (score : option (list json)) : RoomStore -> RoomStore :=
  on_producers (Producers_setProducerScore id score).

Definition addPeer `{OrgJson} (peerId : string) (info : object) : RoomStore -> RoomStore := on_peers (Peers_addPeer peerId info).
Definition setPeerDisplayName (peerId displayName : string) : RoomStore -> RoomStore :=
  on_peers (Peers_setPeerDisplayName peerId displayName).
Definition updatePeerVideoAudioState (peerId : string) (isVideoVisible isAudioEnabled : bool) : RoomStore -> RoomStore :=
  on_peers (Peers_updatePeerVideoAudioState peerId isVideoVisible isAudioEnabled).
(** The peer is no longer the active speaker nor the one whose statistics show. *)
Definition forget (peerId : string) (o : option string) : option string :=
  if negb (String.eqb peerId "") && bool_decide (o = Some peerId) then None else o.
Definition removePeer (peerId : string) (s : RoomStore) : RoomStore :=
  on_peers (Peers_removePeer peerId)
    (on_roomInfo (fun r => mkRoomInfo (mUrl r) (mRoomId r) (mConnectionState r)
       (forget peerId (mActiveSpeakerId r)) (forget peerId (mStatsPeerId r)) (mFaceDetection r)) s).

Definition addConsumer (peerId type id : string) (consumer : nat) (remotelyPaused : bool) (s : RoomStore) : RoomStore :=
  on_peers (Peers_addConsumer peerId id) (on_consumers (Consumers_addConsumer type id consumer remotelyPaused) s).
Definition removeConsumer (peerId consumerId : string) (s : RoomStore) : RoomStore :=
  on_peers (Peers_removeConsumer peerId consumerId) (on_consumers (Consumers_removeConsumer consumerId) s).
Definition setConsumerPaused (id originator : string) : RoomStore -> RoomStore :=
  on_consumers (Consumers_setConsumerPaused id originator).
Definition setConsumerResumed (id originator : string) : RoomStore -> RoomStore :=
  on_consumers (Consumers_setConsumerResumed id originator).
Definition setConsumerCurrentLayers (id : string) (spatialLayer temporalLayer : Z) : RoomStore -> RoomStore :=
  on_consumers (Consumers_setConsumerCurrentLayers id spatialLayer temporalLayer).
Definition setConsumerType (id type : string) : RoomStore -> RoomStore := on_consumers (Consumers_setConsumerType id type).
Definition setConsumerScore (id : string) (score : option (list json)) : RoomStore -> RoomStore :=
  on_consumers (Consumers_setConsumerScore id score).

Definition addNotify (n : Notify) (s : RoomStore) : RoomStore :=
  mkRoomStore (roomInfo s) (me s) (producers s) (peers s) (consumers s) (Some n).
Definition notify_info (text : string) : RoomStore -> RoomStore := addNotify (newNotify "info" text 0).
Definition notify_timeout (text : string) (timeout : Z) : RoomStore -> RoomStore := addNotify (newNotify "info" text timeout).
Definition notify_typed (type text : string) : RoomStore -> RoomStore := addNotify (newNotify type text 0).
