(* ===== verification/RoomClient.v ===== *)
(** * The room client

    Models RoomMessageHandler.java and RoomClient.java of
    src/mediasoupdemo/src/main/java/org/mediasoup/droid/lib.  Calls on the main
    thread and on the signalling thread post tasks to the worker thread, which
    runs them one after the other until its looper quits.

    What is outside: the replies of the server to requests ([reply]), the calls
    into libmediasoupclient and libwebrtc that may fail ([native]), and the texts
    of two exceptions.  They are the class [Env]; the number of the call lets
    them change over time.  Consumers and producers are objects: places in two
    lists, with what the room reads and changes of them. *)

From stdpp Require Import base list gmap strings.
From Stdlib Require Import ZArith Lia.
From S2P Require Import Prelude Json Java Protoo RoomStore.
Open Scope Z_scope.

Inductive VideoCapturerType := CAMERA | SCREEN | FILE.
#[global] Instance VideoCapturerType_eq_dec : EqDecision VideoCapturerType.
Proof. solve_decision. Defined.

Inductive server_reply := Answers (data : string) | Fails (msg : string) | Never.
Inductive native_result := Returns (s : string) | Raises (msg : string).
Class Env := {
  reply : nat -> string -> object -> server_reply;
  native : nat -> string -> list string -> native_result;
  canProduce : nat -> string -> bool;
  available : nat -> VideoCapturerType -> bool;    (* a capturer of the type *)
  null_message : string;                  (* of a NullPointerException *)
  no_object_message : json -> string }.   (* of [getJSONObject] *)

(** ** State *)

Record RoomOptions := mkRoomOptions {
  mDevice : DeviceInfo; mForceTcp : bool; mProduce : bool; mConsume : bool;
  mUseDataChannel : bool; mEnableVideo : bool; mEnableAudio : bool }.

(** A transport knows its producers or consumers by their ids. *)
Record media_transport := mkMediaTransport { mt_id : string; mt_objects : gmap string nat }.
Record media_consumer := mkMediaConsumer { c_id : string; c_kind : string; c_paused : bool; c_closed : bool }.
(** The listener of a producer is the one of the call that made it. *)
Inductive purpose := Mic | Cam | Share.
Record media_producer := mkMediaProducer { p_id : string; p_purpose : purpose; p_paused : bool; p_closed : bool }.

Inductive server_answer := Accepted | RejectedWith (code : Z) (reason : string).
Inductive told_event := ConnectSuc | ConnectFail | ConnectDisconnected | ConnectClose | JoinSuc | JoinFail.

(** Tasks of the worker, and calls posted to the main thread. *)
Inductive work :=
| WInit | WConnect | WJoin | WFail | WRequest (r : Request) | WNotification (n : Notification)
| WDisconnected | WOnClose | WClose
| WEnableMic | WDisableMic | WMuteMic | WUnmuteMic
| WEnableCam | WDisableCam | WEnableShare | WDisableShare
| WAudioOnly | WNoAudioOnly | WMuteAudio | WUnmuteAudio
| WRestartIce | WKeyFrame | WDisplayName (name : string).
Inductive call := CallEnableMic | CallEnableCam | CallClose.

Record room := mkRoom {
  mClosed : bool;
  connectCallback : option (bool * bool);
  mOptions : RoomOptions;
  displayName : string;
  mPeerConnectionUtils : option (option VideoCapturerType);
  mProtoo : bool;
  mMediasoupDevice : option bool;
  mSendTransport : option media_transport;
  mRecvTransport : option media_transport;
  mLocalAudioTrack : bool;
  mLocalVideoTrack : bool;
  mMicProducer : option nat;
  mCamProducer : option nat;
  mConsumers : gmap string (string * nat);
  heap_consumers : list media_consumer;
  heap_producers : list media_producer;
  mStore : RoomStore;
  worker : option (list work);
  main : list call;
  clock : nat;
  asked : list (string * object);
  replied : list (Request * server_answer);
  told : list told_event }.

Definition with_mClosed (x : bool) (r : room) : room :=
  mkRoom x (connectCallback r) (mOptions r) (displayName r) (mPeerConnectionUtils r) (mProtoo r) (mMediasoupDevice r) (mSendTransport r) (mRecvTransport r) (mLocalAudioTrack r) (mLocalVideoTrack r) (mMicProducer r) (mCamProducer r) (mConsumers r) (heap_consumers r) (heap_producers r) (mStore r) (worker r) (main r) (clock r) (asked r) (replied r) (told r).
Definition with_connectCallback (x : option (bool * bool)) (r : room) : room :=
  mkRoom (mClosed r) x (mOptions r) (displayName r) (mPeerConnectionUtils r) (mProtoo r) (mMediasoupDevice r) (mSendTransport r) (mRecvTransport r) (mLocalAudioTrack r) (mLocalVideoTrack r) (mMicProducer r) (mCamProducer r) (mConsumers r) (heap_consumers r) (heap_producers r) (mStore r) (worker r) (main r) (clock r) (asked r) (replied r) (told r).
Definition with_displayName (x : string) (r : room) : room :=
  mkRoom (mClosed r) (connectCallback r) (mOptions r) x (mPeerConnectionUtils r) (mProtoo r) (mMediasoupDevice r) (mSendTransport r) (mRecvTransport r) (mLocalAudioTrack r) (mLocalVideoTrack r) (mMicProducer r) (mCamProducer r) (mConsumers r) (heap_consumers r) (heap_producers r) (mStore r) (worker r) (main r) (clock r) (asked r) (replied r) (told r).
Definition with_utils (x : option (option VideoCapturerType)) (r : room) : room :=
  mkRoom (mClosed r) (connectCallback r) (mOptions r) (displayName r) x (mProtoo r) (mMediasoupDevice r) (mSendTransport r) (mRecvTransport r) (mLocalAudioTrack r) (mLocalVideoTrack r) (mMicProducer r) (mCamProducer r) (mConsumers r) (heap_consumers r) (heap_producers r) (mStore r) (worker r) (main r) (clock r) (asked r) (replied r) (told r).
Definition with_mProtoo (x : bool) (r : room) : room :=
  mkRoom (mClosed r) (connectCallback r) (mOptions r) (displayName r) (mPeerConnectionUtils r) x (mMediasoupDevice r) (mSendTransport r) (mRecvTransport r) (mLocalAudioTrack r) (mLocalVideoTrack r) (mMicProducer r) (mCamProducer r) (mConsumers r) (heap_consumers r) (heap_producers r) (mStore r) (worker r) (main r) (clock r) (asked r) (replied r) (told r).
Definition with_device (x : option bool) (r : room) : room :=
  mkRoom (mClosed r) (connectCallback r) (mOptions r) (displayName r) (mPeerConnectionUtils r) (mProtoo r) x (mSendTransport r) (mRecvTransport r) (mLocalAudioTrack r) (mLocalVideoTrack r) (mMicProducer r) (mCamProducer r) (mConsumers r) (heap_consumers r) (heap_producers r) (mStore r) (worker r) (main r) (clock r) (asked r) (replied r) (told r).
Definition with_mSendTransport (x : option media_transport) (r : room) : room :=
  mkRoom (mClosed r) (connectCallback r) (mOptions r) (displayName r) (mPeerConnectionUtils r) (mProtoo r) (mMediasoupDevice r) x (mRecvTransport r) (mLocalAudioTrack r) (mLocalVideoTrack r) (mMicProducer r) (mCamProducer r) (mConsumers r) (heap_consumers r) (heap_producers r) (mStore r) (worker r) (main r) (clock r) (asked r) (replied r) (told r).
Definition with_mRecvTransport (x : option media_transport) (r : room) : room :=
  mkRoom (mClosed r) (connectCallback r) (mOptions r) (displayName r) (mPeerConnectionUtils r) (mProtoo r) (mMediasoupDevice r) (mSendTransport r) x (mLocalAudioTrack r) (mLocalVideoTrack r) (mMicProducer r) (mCamProducer r) (mConsumers r) (heap_consumers r) (heap_producers r) (mStore r) (worker r) (main r) (clock r) (asked r) (replied r) (told r).
Definition with_mLocalAudioTrack (x : bool) (r : room) : room :=
  mkRoom (mClosed r) (connectCallback r) (mOptions r) (displayName r) (mPeerConnectionUtils r) (mProtoo r) (mMediasoupDevice r) (mSendTransport r) (mRecvTransport r) x (mLocalVideoTrack r) (mMicProducer r) (mCamProducer r) (mConsumers r) (heap_consumers r) (heap_producers r) (mStore r) (worker r) (main r) (clock r) (asked r) (replied r) (told r).
Definition with_mLocalVideoTrack (x : bool) (r : room) : room :=
  mkRoom (mClosed r) (connectCallback r) (mOptions r) (displayName r) (mPeerConnectionUtils r) (mProtoo r) (mMediasoupDevice r) (mSendTransport r) (mRecvTransport r) (mLocalAudioTrack r) x (mMicProducer r) (mCamProducer r) (mConsumers r) (heap_consumers r) (heap_producers r) (mStore r) (worker r) (main r) (clock r) (asked r) (replied r) (told r).
Definition with_mMicProducer (x : option nat) (r : room) : room :=
  mkRoom (mClosed r) (connectCallback r) (mOptions r) (displayName r) (mPeerConnectionUtils r) (mProtoo r) (mMediasoupDevice r) (mSendTransport r) (mRecvTransport r) (mLocalAudioTrack r) (mLocalVideoTrack r) x (mCamProducer r) (mConsumers r) (heap_consumers r) (heap_producers r) (mStore r) (worker r) (main r) (clock r) (asked r) (replied r) (told r).
Definition with_mCamProducer (x : option nat) (r : room) : room :=
  mkRoom (mClosed r) (connectCallback r) (mOptions r) (displayName r) (mPeerConnectionUtils r) (mProtoo r) (mMediasoupDevice r) (mSendTransport r) (mRecvTransport r) (mLocalAudioTrack r) (mLocalVideoTrack r) (mMicProducer r) x (mConsumers r) (heap_consumers r) (heap_producers r) (mStore r) (worker r) (main r) (clock r) (asked r) (replied r) (told r).
Definition with_mConsumers (x : gmap string (string * nat)) (r : room) : room :=
  mkRoom (mClosed r) (connectCallback r) (mOptions r) (displayName r) (mPeerConnectionUtils r) (mProtoo r) (mMediasoupDevice r) (mSendTransport r) (mRecvTransport r) (mLocalAudioTrack r) (mLocalVideoTrack r) (mMicProducer r) (mCamProducer r) x (heap_consumers r) (heap_producers r) (mStore r) (worker r) (main r) (clock r) (asked r) (replied r) (told r).
Definition with_heap_consumers (x : list media_consumer) (r : room) : room :=
  mkRoom (mClosed r) (connectCallback r) (mOptions r) (displayName r) (mPeerConnectionUtils r) (mProtoo r) (mMediasoupDevice r) (mSendTransport r) (mRecvTransport r) (mLocalAudioTrack r) (mLocalVideoTrack r) (mMicProducer r) (mCamProducer r) (mConsumers r) x (heap_producers r) (mStore r) (worker r) (main r) (clock r) (asked r) (replied r) (told r).
Definition with_heap_producers (x : list media_producer) (r : room) : room :=
  mkRoom (mClosed r) (connectCallback r) (mOptions r) (displayName r) (mPeerConnectionUtils r) (mProtoo r) (mMediasoupDevice r) (mSendTransport r) (mRecvTransport r) (mLocalAudioTrack r) (mLocalVideoTrack r) (mMicProducer r) (mCamProducer r) (mConsumers r) (heap_consumers r) x (mStore r) (worker r) (main r) (clock r) (asked r) (replied r) (told r).
Definition with_mStore (x : RoomStore) (r : room) : room :=
  mkRoom (mClosed r) (connectCallback r) (mOptions r) (displayName r) (mPeerConnectionUtils r) (mProtoo r) (mMediasoupDevice r) (mSendTransport r) (mRecvTransport r) (mLocalAudioTrack r) (mLocalVideoTrack r) (mMicProducer r) (mCamProducer r) (mConsumers r) (heap_consumers r) (heap_producers r) x (worker r) (main r) (clock r) (asked r) (replied r) (told r).
Definition with_worker (x : option (list work)) (r : room) : room :=
  mkRoom (mClosed r) (connectCallback r) (mOptions r) (displayName r) (mPeerConnectionUtils r) (mProtoo r) (mMediasoupDevice r) (mSendTransport r) (mRecvTransport r) (mLocalAudioTrack r) (mLocalVideoTrack r) (mMicProducer r) (mCamProducer r) (mConsumers r) (heap_consumers r) (heap_producers r) (mStore r) x (main r) (clock r) (asked r) (replied r) (told r).
Definition with_main (x : list call) (r : room) : room :=
  mkRoom (mClosed r) (connectCallback r) (mOptions r) (displayName r) (mPeerConnectionUtils r) (mProtoo r) (mMediasoupDevice r) (mSendTransport r) (mRecvTransport r) (mLocalAudioTrack r) (mLocalVideoTrack r) (mMicProducer r) (mCamProducer r) (mConsumers r) (heap_consumers r) (heap_producers r) (mStore r) (worker r) x (clock r) (asked r) (replied r) (told r).
Definition with_clock (x : nat) (r : room) : room :=
  mkRoom (mClosed r) (connectCallback r) (mOptions r) (displayName r) (mPeerConnectionUtils r) (mProtoo r) (mMediasoupDevice r) (mSendTransport r) (mRecvTransport r) (mLocalAudioTrack r) (mLocalVideoTrack r) (mMicProducer r) (mCamProducer r) (mConsumers r) (heap_consumers r) (heap_producers r) (mStore r) (worker r) (main r) x (asked r) (replied r) (told r).
Definition with_asked (x : list (string * object)) (r : room) : room :=
  mkRoom (mClosed r) (connectCallback r) (mOptions r) (displayName r) (mPeerConnectionUtils r) (mProtoo r) (mMediasoupDevice r) (mSendTransport r) (mRecvTransport r) (mLocalAudioTrack r) (mLocalVideoTrack r) (mMicProducer r) (mCamProducer r) (mConsumers r) (heap_consumers r) (heap_producers r) (mStore r) (worker r) (main r) (clock r) x (replied r) (told r).
Definition with_replied (x : list (Request * server_answer)) (r : room) : room :=
  mkRoom (mClosed r) (connectCallback r) (mOptions r) (displayName r) (mPeerConnectionUtils r) (mProtoo r) (mMediasoupDevice r) (mSendTransport r) (mRecvTransport r) (mLocalAudioTrack r) (mLocalVideoTrack r) (mMicProducer r) (mCamProducer r) (mConsumers r) (heap_consumers r) (heap_producers r) (mStore r) (worker r) (main r) (clock r) (asked r) x (told r).
Definition with_told (x : list told_event) (r : room) : room :=
  mkRoom (mClosed r) (connectCallback r) (mOptions r) (displayName r) (mPeerConnectionUtils r) (mProtoo r) (mMediasoupDevice r) (mSendTransport r) (mRecvTransport r) (mLocalAudioTrack r) (mLocalVideoTrack r) (mMicProducer r) (mCamProducer r) (mConsumers r) (heap_consumers r) (heap_producers r) (mStore r) (worker r) (main r) (clock r) (asked r) (replied r) x.

Definition on_store (f : RoomStore -> RoomStore) : M room unit := modify (fun r => with_mStore (f (mStore r)) r).
Definition tell (e : told_event) : M room unit :=
  modify (fun r => match connectCallback r with Some _ => with_told (told r ++ [e]) r | None => r end).
(** Nothing is posted to a looper that has quit. *)
Definition post (w : work) : M room unit :=
  modify (fun r => match worker r with Some q => with_worker (Some (q ++ [w])) r | None => r end).
Definition post_main (c : call) : M room unit := modify (fun r => with_main (main r ++ [c]) r).

Definition isConnecting (r : room) : bool :=
  match connectCallback r with Some (b, _) => b | None => negb (mClosed r) end.
Definition isConnected (r : room) : bool :=
  match connectCallback r with Some (_, b) => b | None => negb (mClosed r) end.

Definition null {A} : M room A := throw (Java NullPointerException).
Definition non_null {A} (o : option A) : M room A := match o with Some a => ret a | None => null end.

Definition is_exception (e : exn) : bool := match e with Java _ => true | _ => false end.
Definition is_mediasoup_exception (e : exn) : bool := match e with Java (MediasoupException _) => true | _ => false end.
Definition is_protoo_exception (e : exn) : bool := match e with Java (ProtooException _ _) => true | _ => false end.
Definition is_protoo_or_json (e : exn) : bool :=
  match e with Java (ProtooException _ _ | JSONException _) => true | _ => false end.

Section room.
Context `{OrgJson} `{Env}.

Definition getMessage (e : exn) : string :=
  match e with
  | Java (MediasoupException m | ProtooException _ m | JSONException m) => m
  | _ => null_message
  end.

(** A call into the native libraries; it throws nothing but MediasoupException. *)
Definition call_native (op : string) (args : list string) : M room string :=
  r <- get;;
  put (with_clock (S (clock r)) r);;;
  match native (clock r) op args with
  | Returns s => ret s
  | Raises m => throw (Java (MediasoupException m))
  end.

(** [Protoo.syncRequest]: whatever fails is a ProtooException. *)
Definition syncRequest (method : string) (req : object) : M room string :=
  r <- get;;
  if negb (mProtoo r) then null else
  put (with_clock (S (clock r)) (with_asked (asked r ++ [(method, req)]) r));;;
  match reply (clock r) method req with
  | Answers data => ret data
  | Fails m => throw (Java (ProtooException (-1) m))
  | Never => undef
  end.

(** [new JSONObject(text)]; [JsonUtils.toJsonObject] has an empty object instead. *)
Definition jsonObject (text : string) : M room object :=
  match new_JSONObject text with Some o => ret o | None => throw (Java (JSONException (no_object_message (JString text)))) end.
Definition toJsonObject (text : string) : object := default [] (new_JSONObject text).
Definition optJSONArray (name : string) (o : object) : option (list json) :=
  match obj_lookup name o with Some (JArray l) => Some l | _ => None end.
Definition to_int (z : Z) : Z := Z.max (- 2 ^ 31) (Z.min (2 ^ 31 - 1) z).
Definition optInt (name : string) (o : object) : Z :=
  match obj_lookup name o with
  | Some (JInt z | JUint z) => int z
  | Some (JFloat f) => to_int (long_of_float f)
  | Some (JString s) => to_int (default 0 (toLong s))
  | _ => 0
  end.

(** ** Consumers and producers *)

Definition consumer_at (n : nat) : M room media_consumer := r <- get;; non_null (heap_consumers r !! n).
Definition change_consumer (n : nat) (f : media_consumer -> media_consumer) : M room unit :=
  modify (fun r => with_heap_consumers (alter f n (heap_consumers r)) r).
Definition set_c_paused (b : bool) (c : media_consumer) : media_consumer :=
  if c_closed c then c else mkMediaConsumer (c_id c) (c_kind c) b (c_closed c).
Definition set_c_closed (c : media_consumer) : media_consumer := mkMediaConsumer (c_id c) (c_kind c) (c_paused c) true.
Definition consumer_pause (n : nat) : M room unit := change_consumer n (set_c_paused true).
Definition consumer_resume (n : nat) : M room unit := change_consumer n (set_c_paused false).

Definition erase_object (id : string) (t : media_transport) : media_transport :=
  mkMediaTransport (mt_id t) (delete id (mt_objects t)).
(** The transport of a closed consumer no longer knows it. *)
Definition consumer_close (n : nat) : M room unit :=
  c <- consumer_at n;;
  if c_closed c then ret tt
  else change_consumer n set_c_closed;;;
       modify (fun r => with_mRecvTransport (erase_object (c_id c) <$> mRecvTransport r) r).

Definition producer_at (n : nat) : M room media_producer := r <- get;; non_null (heap_producers r !! n).
Definition change_producer (n : nat) (f : media_producer -> media_producer) : M room unit :=
  modify (fun r => with_heap_producers (alter f n (heap_producers r)) r).
Definition set_p_paused (b : bool) (p : media_producer) : media_producer :=
  if p_closed p then p else mkMediaProducer (p_id p) (p_purpose p) b (p_closed p).
Definition set_p_closed (p : media_producer) : media_producer := mkMediaProducer (p_id p) (p_purpose p) (p_paused p) true.
Definition producer_close (n : nat) : M room unit :=
  p <- producer_at n;;
  if p_closed p then ret tt
  else change_producer n set_p_closed;;;
       modify (fun r => with_mSendTransport (erase_object (p_id p) <$> mSendTransport r) r).

(** [mStore.setProducerPaused] and [mStore.setProducerResumed] act on the object. *)
Definition store_producer_paused (id : string) (b : bool) : M room unit :=
  r <- get;;
  match Producers_get id (producers (mStore r)) with
  | Some n => change_producer n (set_p_paused b)
  | None => ret tt
  end.

(** ** The transports close *)

(** [onTransportClose] of a producer. *)
Definition forget_mic : M room unit :=
  r <- get;;
  match mMicProducer r with
  | Some n => p <- producer_at n;; on_store (removeProducer (p_id p));;; modify (with_mMicProducer None)
  | None => ret tt
  end.
Definition forget_cam : M room unit :=
  r <- get;;
  match mCamProducer r with
  | Some n => p <- producer_at n;; on_store (removeProducer (p_id p));;; modify (with_mCamProducer None)
  | None => ret tt
  end.
Definition producer_transport_closed (n : nat) : M room unit :=
  p <- producer_at n;;
  change_producer n set_p_closed;;;
  r <- get;;
  match p_purpose p with
  | Mic => when (isConnecting r) forget_mic
  | Cam => when (isConnecting r) forget_cam
  | Share => forget_cam
  end.
(** [onTransportClose] of a consumer. *)
Definition consumer_transport_closed (n : nat) : M room unit :=
  c <- consumer_at n;;
  change_consumer n set_c_closed;;;
  modify (fun r => if isConnecting r then with_mConsumers (delete (c_id c) (mConsumers r)) r else r).

Definition objects (t : media_transport) : list nat := map snd (map_to_list (mt_objects t)).

Definition close_send : M room unit :=
  r <- get;;
  match mSendTransport r with
  | Some t => for_list (objects t) producer_transport_closed;;; modify (with_mSendTransport None)
  | None => ret tt
  end.
Definition close_recv : M room unit :=
  r <- get;;
  match mRecvTransport r with
  | Some t => for_list (objects t) consumer_transport_closed;;; modify (with_mRecvTransport None)
  | None => ret tt
  end.
Definition disposeTransportDevice : M room unit := close_send;;; close_recv;;; modify (with_device None).

(** ** RoomMessageHandler *)

(** A consumer that the room holds, or nothing is done. *)
Definition with_holder (id : string) (k : string * nat -> M room unit) : M room unit :=
  r <- get;; match mConsumers r !! id with Some h => k h | None => ret tt end.

Definition handleNotification (n : Notification) : M room unit :=
  data <- non_null (nt_data n);;
  let method := nt_method n in
  let consumerId := optString "consumerId" data in
  let peerId := optString "peerId" data in
  if String.eqb method "producerScore" then
    on_store (setProducerScore (optString "producerId" data) (optJSONArray "score" data))
  else if String.eqb method "newPeer" then
    on_store (addPeer (optString "id" data) data);;;
    on_store (notify_info (optString "displayName" data ++ " has joined the room"))
  else if String.eqb method "peerClosed" then on_store (removePeer peerId)
  else if String.eqb method "peerDisplayNameChanged" then
    on_store (setPeerDisplayName peerId (optString "displayName" data));;;
    on_store (notify_info (optString "oldDisplayName" data ++ " is now " ++ optString "displayName" data))
  else if String.eqb method "consumerClosed" then
    with_holder consumerId (fun h =>
      modify (fun r => with_mConsumers (delete consumerId (mConsumers r)) r);;;
      consumer_close (snd h);;;
      modify (fun r => with_mConsumers (delete consumerId (mConsumers r)) r);;;
      c <- consumer_at (snd h);;
      on_store (removeConsumer (fst h) (c_id c)))
  else if String.eqb method "consumerPaused" then
    with_holder consumerId (fun h => c <- consumer_at (snd h);; on_store (setConsumerPaused (c_id c) "remote"))
  else if String.eqb method "consumerResumed" then
    with_holder consumerId (fun h => c <- consumer_at (snd h);; on_store (setConsumerResumed (c_id c) "remote"))
  else if String.eqb method "consumerLayersChanged" then
    with_holder consumerId (fun _ =>
      on_store (setConsumerCurrentLayers consumerId (optInt "spatialLayer" data) (optInt "temporalLayer" data)))
  else if String.eqb method "consumerScore" then
    with_holder consumerId (fun _ => on_store (setConsumerScore consumerId (optJSONArray "score" data)))
  else if String.eqb method "activeSpeaker" then on_store (setRoomActiveSpeaker (Some peerId))
  else ret tt.

(** ** Consumers *)

Definition notify_error (text : string) (e : exn) : M room unit := on_store (notify_typed "error" (text ++ getMessage e)).
Definition id_request (name id : string) : object := json_put name (JString id) [].

Definition pauseConsumer (n : nat) : M room unit :=
  c <- consumer_at n;;
  r <- get;;
  if negb (isConnecting r) then ret tt else
  if c_paused c then ret tt else
  try_catch
    (syncRequest "pauseConsumer" (id_request "consumerId" (c_id c));;;
     consumer_pause n;;;
     on_store (setConsumerPaused (c_id c) "local"))
    is_protoo_exception (notify_error "Error pausing Consumer: ").

Definition resumeConsumer (n : nat) : M room unit :=
  c <- consumer_at n;;
  r <- get;;
  if negb (isConnecting r) then ret tt else
  if negb (c_paused c) then ret tt else
  try_catch
    (syncRequest "resumeConsumer" (id_request "consumerId" (c_id c));;;
     consumer_resume n;;;
     on_store (setConsumerResumed (c_id c) "local"))
    is_exception (notify_error "Error resuming Consumer: ").

Definition answer (r : Request) (a : server_answer) : M room unit := modify (fun s => with_replied (replied s ++ [(r, a)]) s).

(** [mRecvTransport.consume]: the consumer is known by the id it was given. *)
Definition consume (id producerId kind rtpParameters appData : string) : M room nat :=
  r <- get;;
  t <- non_null (mRecvTransport r);;
  call_native "consume" [id; producerId; kind; rtpParameters; appData];;;
  r <- get;;
  let n := length (heap_consumers r) in
  put (with_mRecvTransport (Some (mkMediaTransport (mt_id t) (<[id := n]> (mt_objects t))))
        (with_heap_consumers (heap_consumers r ++ [mkMediaConsumer id kind false false]) r));;;
  ret n.

Definition onNewConsumer (request : Request) : M room unit :=
  r <- get;;
  if negb (mConsume (mOptions r)) then answer request (RejectedWith 403 "I do not want to consume") else
  try_catch
    (data <- non_null (rq_data request);;
     let peerId := optString "peerId" data in
     let id := optString "id" data in
     n <- consume id (optString "producerId" data) (optString "kind" data)
            (optString "rtpParameters" data) (optString "appData" data);;
     modify (fun r => with_mConsumers (<[id := (peerId, n)]> (mConsumers r)) r);;;
     on_store (addConsumer peerId (optString "type" data) id n (optBoolean "producerPaused" data));;;
     answer request Accepted;;;
     r <- get;;
     when (String.eqb (optString "kind" data) "video" && mAudioOnly (me (mStore r))) (pauseConsumer n))
    is_exception (notify_error "Error creating a Consumer: ").

Definition onNewDataConsumer (request : Request) : M room unit :=
  answer request (RejectedWith 403 "I do not want to data consume").

Definition handleRequest (request : Request) : M room unit :=
  try_catch
    (if String.eqb (rq_method request) "newConsumer" then onNewConsumer request
     else if String.eqb (rq_method request) "newDataConsumer" then onNewDataConsumer request
     else answer request (RejectedWith 403 ("unknown protoo request.method " ++ rq_method request)))
    is_exception (fun _ => ret tt).

(** The consumers of a kind, in any order: the map has none. *)
Definition held (r : room) : list nat := map (fun kv => snd (snd kv)) (map_to_list (mConsumers r)).
Definition for_kind (kind : string) (f : nat -> M room unit) : M room unit :=
  r <- get;;
  for_list (held r) (fun n => c <- consumer_at n;; if String.eqb (c_kind c) kind then f n else ret tt).

(** ** Producers *)

Definition fetchProduceId (req : object) : M room string :=
  try_catch
    (response <- syncRequest "produce" req;;
     o <- jsonObject response;;
     ret (optString "id" o))
    is_protoo_or_json (fun _ => ret ""%string).

(** The listener of the sending transport. *)
Definition onProduce (transportId kind rtpParameters appData : string) : M room string :=
  r <- get;;
  if mClosed r then ret ""%string else
  fetchProduceId (json_put "appData" (JString appData) (json_put "rtpParameters" (JObject (toJsonObject rtpParameters))
    (json_put "kind" (JString kind) (json_put "transportId" (JString transportId) [])))).

(** The request of [onConnect] of either transport; its result is only logged. *)
Definition onConnect (transportId dtlsParameters : string) : M room unit :=
  r <- get;;
  if mClosed r then ret tt else
  if negb (mProtoo r) then null else
  modify (fun r => with_asked (asked r ++ [("connectWebRtcTransport"%string,
    json_put "dtlsParameters" (JObject (toJsonObject dtlsParameters)) (json_put "transportId" (JString transportId) []))]) r).

(** [mSendTransport.produce]: the transport asks its listener for the id. *)
Definition produce (kind : string) (use : purpose) : M room nat :=
  r <- get;;
  t <- non_null (mSendTransport r);;
  rtpParameters <- call_native "produce" [kind];;
  id <- onProduce (mt_id t) kind rtpParameters "{}";;
  r <- get;;
  let n := length (heap_producers r) in
  put (with_mSendTransport (Some (mkMediaTransport (mt_id t) (<[id := n]> (mt_objects t))))
        (with_heap_producers (heap_producers r ++ [mkMediaProducer id use false false]) r));;;
  ret n.

Definition device_canProduce (kind : string) : M room bool :=
  r <- get;;
  loaded <- non_null (mMediasoupDevice r);;
  put (with_clock (S (clock r)) r);;;
  ret (canProduce (clock r) kind).

(** Whether the device may produce a kind and there is a transport for it. *)
Definition ready (kind : string) : M room bool :=
  r <- get;;
  loaded <- non_null (mMediasoupDevice r);;
  if negb loaded then ret false else
  can <- device_canProduce kind;;
  if negb can then ret false else
  ret (match mSendTransport r with Some _ => true | None => false end).

Definition enableMicImpl : M room unit :=
  try_catch
    (r <- get;;
     if negb (isConnecting r) then ret tt else
     match mPeerConnectionUtils r, mMicProducer r with
     | Some _, None =>
       ok <- ready "audio";;
       if negb ok then ret tt else
       modify (with_mLocalAudioTrack true);;;
       n <- produce "audio" Mic;;
       modify (with_mMicProducer (Some n));;;
       p <- producer_at n;;
       on_store (addProducer (p_id p) n)
     | _, _ => ret tt
     end)
    is_mediasoup_exception (notify_error "Error enabling microphone: ").

Definition disableMicImpl : M room unit :=
  r <- get;;
  if negb (isConnecting r) then ret tt else
  match mMicProducer r with
  | Some n =>
    p <- producer_at n;;
    producer_close n;;;
    on_store (removeProducer (p_id p));;;
    try_catch (syncRequest "closeProducer" (id_request "producerId" (p_id p));;; ret tt)
      is_protoo_exception (notify_error "Error closing server-side mic Producer: ");;;
    modify (with_mMicProducer None)
  | None => ret tt
  end.

Definition muteMicImpl : M room unit :=
  r <- get;;
  if negb (isConnecting r) then ret tt else
  match mMicProducer r with
  | Some n =>
    p <- producer_at n;;
    change_producer n (set_p_paused true);;;
    try_catch
      (syncRequest "pauseProducer" (id_request "producerId" (p_id p));;; store_producer_paused (p_id p) true)
      is_protoo_exception (notify_error "Error pausing server-side mic Producer: ")
  | None => ret tt
  end.

(** [enableMic] posts its task. *)
Definition unmuteMicImpl : M room unit :=
  r <- get;;
  if negb (isConnecting r) then ret tt else
  match mMicProducer r with
  | None => when (mProduce (mOptions r)) (post WEnableMic)
  | Some n =>
    p <- producer_at n;;
    change_producer n (set_p_paused false);;;
    try_catch
      (syncRequest "resumeProducer" (id_request "producerId" (p_id p));;; store_producer_paused (p_id p) false)
      is_protoo_exception (notify_error "Error resuming server-side mic Producer: ")
  end.

(** *** Camera and screen *)

Definition capturer (r : room) : option VideoCapturerType := match mPeerConnectionUtils r with Some c => c | None => None end.
Definition releaseVideoTrack : M room unit :=
  modify (with_mLocalVideoTrack false);;;
  modify (fun r => with_utils ((fun _ => None) <$> mPeerConnectionUtils r) r).
(** [createVideoTrack] makes a capturer of the type, or has none to start. *)
Definition openVideoTrack (type : VideoCapturerType) : M room unit :=
  r <- get;;
  if mLocalVideoTrack r && bool_decide (capturer r = Some type) then ret tt
  else releaseVideoTrack;;;
       r <- get;;
       put (with_clock (S (clock r)) r);;;
       if negb (available (clock r) type) then null else
       modify (fun r => with_mLocalVideoTrack true (with_utils (Some (Some type)) r)).

Definition closeCamProducer (text : string) : M room unit :=
  r <- get;;
  n <- non_null (mCamProducer r);;
  p <- producer_at n;;
  producer_close n;;;
  on_store (removeProducer (p_id p));;;
  try_catch (syncRequest "closeProducer" (id_request "producerId" (p_id p));;; ret tt)
    is_protoo_exception (notify_error text);;;
  modify (with_mCamProducer None).

Definition disableCamImpl : M room unit :=
  r <- get;;
  if negb (isConnecting r) then ret tt else
  match mCamProducer r with
  | Some _ =>
    if bool_decide (capturer r = Some CAMERA) then closeCamProducer "Error closing server-side webcam Producer: "
    else ret tt
  | None => ret tt
  end.

Definition disableShareImpl (isContinue : bool) : M room unit :=
  r <- get;;
  if negb (isConnected r) then ret tt else
  match mCamProducer r with
  | Some _ =>
    if bool_decide (capturer r = Some SCREEN) then
      releaseVideoTrack;;;
      closeCamProducer "Error closing server-side webShare Producer: ";;;
      when (isContinue && mEnableVideo (mOptions r)) (post_main CallEnableCam)
    else ret tt
  | None => ret tt
  end.

Definition produceVideo (type : VideoCapturerType) (use : purpose) (name : string) : M room unit :=
  ok <- ready "video";;
  if negb ok then ret tt else
  openVideoTrack type;;;
  n <- produce "video" use;;
  modify (with_mCamProducer (Some n));;;
  p <- producer_at n;;
  on_store (addProducer_typed (p_id p) n name).

Definition enableCamImpl : M room unit :=
  try_catch
    (r <- get;;
     if negb (isConnecting r) then ret tt else
     match mPeerConnectionUtils r with
     | None => ret tt
     | Some c =>
       match mCamProducer r, c with
       | None, _ => produceVideo CAMERA Cam "cam"
       | Some _, Some SCREEN => disableShareImpl false;;; produceVideo CAMERA Cam "cam"
       | Some _, Some FILE => produceVideo CAMERA Cam "cam"
       | Some _, _ => ret tt
       end
     end)
    is_mediasoup_exception (notify_error "Error enabling webcam: ").

Definition enableShareImpl : M room unit :=
  try_catch
    (r <- get;;
     if negb (isConnecting r) then ret tt else
     match mMediasoupDevice r, mPeerConnectionUtils r with
     | Some _, Some c =>
       match mCamProducer r, c with
       | None, _ => produceVideo SCREEN Share "share"
       | Some _, Some CAMERA => disableCamImpl;;; produceVideo SCREEN Share "share"
       | Some _, Some FILE => produceVideo SCREEN Share "share"
       | Some _, _ => ret tt
       end
     | _, _ => ret tt
     end)
    is_mediasoup_exception (notify_error "Error enabling webShare: ").

(** ** Joining *)

(** [createSendTransport] and [createRecvTransport]. *)
Definition createTransport (producing : bool) : M room media_transport :=
  r <- get;;
  res <- syncRequest "createWebRtcTransport"
    (json_put "sctpCapabilities" (JString "") (json_put "consuming" (JBool (negb producing))
      (json_put "producing" (JBool producing) (json_put "forceTcp" (JBool (mForceTcp (mOptions r))) []))));;
  info <- jsonObject res;;
  call_native (if producing then "createSendTransport" else "createRecvTransport")
    [optString "id" info; optString "iceParameters" info; optString "iceCandidates" info; optString "dtlsParameters" info];;;
  ret (mkMediaTransport (optString "id" info) ∅).

Definition add_listed_peer (v : json) : M room unit :=
  match v with
  | JObject o => on_store (addPeer (optString "id" o) o)
  | _ => throw (Java (JSONException (no_object_message v)))
  end.

Definition join_text (e : exn) : string :=
  if String.eqb (getMessage e) "" then "Could not join the room, internal error"
  else "Could not join the room: " ++ getMessage e.

Definition joinImpl : M room unit :=
  try_catch
    (modify (with_device (Some false));;;
     routerRtpCapabilities <- syncRequest "getRouterRtpCapabilities" [];;
     call_native "load" [routerRtpCapabilities];;;
     modify (with_device (Some true));;;
     rtpCapabilities <- call_native "getRtpCapabilities" [];;
     r <- get;;
     when (mProduce (mOptions r)) (t <- createTransport true;; modify (with_mSendTransport (Some t)));;;
     when (mConsume (mOptions r)) (t <- createTransport false;; modify (with_mRecvTransport (Some t)));;;
     joinResponse <- syncRequest "join"
       (json_put "sctpCapabilities" (JString "") (json_put "rtpCapabilities" (JObject (toJsonObject rtpCapabilities))
         (json_put "device" (JObject (DeviceInfo_toJSONObject (mDevice (mOptions r))))
           (json_put "displayName" (JString (displayName r)) []))));;
     on_store (setRoomState CONNECTED);;;
     on_store (notify_timeout "You are in the room!" 3000);;;
     for_list (default [] (optJSONArray "peers" (toJsonObject joinResponse))) add_listed_peer;;;
     when (mProduce (mOptions r))
       (canSendMic <- device_canProduce "audio";;
        canSendCam <- device_canProduce "video";;
        on_store (setMediaCapabilities canSendMic canSendCam);;;
        when (mEnableAudio (mOptions r)) (post_main CallEnableMic);;;
        when (mEnableVideo (mOptions r)) (post_main CallEnableCam));;;
     tell JoinSuc)
    is_exception (fun e =>
      on_store (notify_typed "error" (join_text e));;;
      post_main CallClose;;;
      tell JoinFail).

(** ** Other requests *)

Definition restartTransport (t : option media_transport) : M room unit :=
  match t with
  | Some t =>
    iceParameters <- syncRequest "restartIce" (id_request "transportId" (mt_id t));;
    call_native "restartIce" [iceParameters];;; ret tt
  | None => ret tt
  end.
Definition restartIceImpl : M room unit :=
  try_catch
    (r <- get;; restartTransport (mSendTransport r);;; r <- get;; restartTransport (mRecvTransport r))
    is_exception (notify_error "ICE restart failed: ");;;
  on_store (setRestartIceInProgress false).

(** As in the source, the id is the name of the field. *)
Definition requestKeyFrameImpl : M room unit :=
  try_catch
    (syncRequest "requestConsumerKeyFrame" (id_request "consumerId" "consumerId");;;
     on_store (notify_info "Keyframe requested for video consumer"))
    is_protoo_exception (notify_error "ICE restart failed: ").

Definition changeDisplayNameImpl (name : string) : M room unit :=
  try_catch
    (syncRequest "changeDisplayName" (id_request "displayName" name);;;
     modify (with_displayName name);;;
     on_store (setDisplayName name);;;
     on_store (notify_info "Display name change"))
    is_protoo_exception (fun e =>
      notify_error "Could not change display name: " e;;;
      r <- get;; on_store (setDisplayName (displayName r))).

(** ** Calls on other threads *)

Definition if_connecting (m : M room unit) : M room unit := r <- get;; if isConnecting r then m else ret tt.

Definition joinRoom : M room unit := on_store (setRoomState CONNECTING);;; post WConnect.
Definition enableMic : M room unit := post WEnableMic.
Definition disableMic : M room unit := post WDisableMic.
Definition muteMic : M room unit := post WMuteMic.
Definition unmuteMic : M room unit := post WUnmuteMic.
Definition enableCam : M room unit := on_store (setCamInProgress true);;; post WEnableCam.
Definition disableCam : M room unit := post WDisableCam.
Definition disableShare : M room unit := post WDisableShare.
(** [isEnable] is the answer of [reqShareScreenIntentData]. *)
Definition enableShare (isEnable : bool) : M room unit :=
  r <- get;;
  on_store (setShareInProgress (negb (match connectCallback r with Some _ => isEnable | None => false end))).
Definition startEnableShare (isReqSuc : bool) : M room unit :=
  on_store (setShareInProgress isReqSuc);;; when isReqSuc (post WEnableShare).
Definition enableAudioOnly : M room unit :=
  if_connecting (on_store (setAudioOnlyInProgress true);;; disableCam;;; post WAudioOnly).
Definition disableAudioOnly : M room unit :=
  if_connecting
    (on_store (setAudioOnlyInProgress true);;;
     r <- get;;
     when (match mCamProducer r with None => true | Some _ => false end && mProduce (mOptions r)) enableCam;;;
     post WNoAudioOnly).
Definition muteAudio : M room unit := if_connecting (on_store (setAudioMutedState true);;; post WMuteAudio).
Definition unmuteAudio : M room unit := if_connecting (on_store (setAudioMutedState false);;; post WUnmuteAudio).
Definition restartIce : M room unit := if_connecting (on_store (setRestartIceInProgress true);;; post WRestartIce).
Definition requestConsumerKeyFrame (consumerId : string) : M room unit := if_connecting (post WKeyFrame).
Definition changeDisplayName (name : string) : M room unit := if_connecting (post (WDisplayName name)).

Definition close : M room unit :=
  r <- get;;
  if mClosed r then ret tt else
  modify (with_mClosed true);;;
  post WClose;;;
  on_store (setRoomState CLOSED).

(** The listener of the signalling client. *)
Definition room_onOpen : M room unit := post WJoin.
Definition room_onFail : M room unit := post WFail.
Definition room_onRequest (request : Request) : M room unit :=
  non_null (rq_data request);;;
  r <- get;; if mClosed r then ret tt else post (WRequest request).
Definition room_onNotification (n : Notification) : M room unit :=
  non_null (nt_data n);;;
  r <- get;; if mClosed r then ret tt else post (WNotification n).
Definition room_onDisconnected : M room unit := post WDisconnected.
Definition room_onClose : M room unit := r <- get;; if mClosed r then ret tt else post WOnClose.

(** ** The worker *)

(** The last task: the looper quits, and what is left in its queue is not run. *)
Definition closeImpl : M room unit :=
  modify (with_mProtoo false);;;
  disposeTransportDevice;;;
  modify (with_mLocalAudioTrack false);;;
  modify (with_mLocalVideoTrack false);;;
  modify (fun r => with_utils ((fun _ => None) <$> mPeerConnectionUtils r) r);;;
  modify (with_worker None).

Definition perform (w : work) : M room unit :=
  match w with
  | WInit => modify (with_utils (Some None))
  | WConnect => modify (with_mProtoo true)
  | WJoin => joinImpl;;; tell ConnectSuc
  | WFail =>
    on_store (notify_typed "error" "WebSocket connection failed");;;
    on_store (setRoomState CONNECTING);;; tell ConnectFail
  | WRequest request => handleRequest request
  | WNotification n => try_catch (handleNotification n) is_exception (fun _ => ret tt)
  | WDisconnected =>
    on_store (notify_typed "error" "WebSocket disconnected");;;
    on_store (setRoomState DISCONNECTED);;;
    disposeTransportDevice;;; tell ConnectDisconnected
  | WOnClose => r <- get;; if mClosed r then ret tt else close;;; tell ConnectClose
  | WClose => closeImpl
  | WEnableMic => enableMicImpl
  | WDisableMic => disableMicImpl
  | WMuteMic => muteMicImpl
  | WUnmuteMic => unmuteMicImpl
  | WEnableCam => enableCamImpl;;; on_store (setCamInProgress false)
  | WDisableCam => disableCamImpl
  | WEnableShare => enableShareImpl;;; on_store (setShareInProgress false)
  | WDisableShare => disableShareImpl true
  | WAudioOnly =>
    for_kind "video" pauseConsumer;;;
    on_store (setAudioOnlyState true);;; on_store (setAudioOnlyInProgress false)
  | WNoAudioOnly =>
    for_kind "video" resumeConsumer;;;
    on_store (setAudioOnlyState false);;; on_store (setAudioOnlyInProgress false)
  | WMuteAudio => for_kind "audio" pauseConsumer
  | WUnmuteAudio => for_kind "audio" resumeConsumer
  | WRestartIce => restartIceImpl
  | WKeyFrame => requestKeyFrameImpl
  | WDisplayName name => changeDisplayNameImpl name
  end.

Definition run_work : M room unit :=
  r <- get;;
  match worker r with
  | Some (w :: q) => put (with_worker (Some q) r);;; perform w
  | _ => ret tt
  end.

Definition run_main : M room unit :=
  r <- get;;
  match main r with
  | c :: q =>
    put (with_main q r);;;
    match c with CallEnableMic => enableMic | CallEnableCam => enableCam | CallClose => close end
  | [] => ret tt
  end.

End room.

Definition newRoomClient (s : RoomStore) (roomId peerId name link : string) (options : RoomOptions)
    (callback : option (bool * bool)) : room :=
  mkRoom false callback options name None false None None None false false None None ∅ [] []
    (setRoomUrl roomId link (setMe peerId name (mDevice options) s)) (Some [WInit]) [] 0 [] [] [].
