(* ===== verification/RoomSpec.v ===== *)
(** * Properties of the room client

    What may happen to a room in any order of calls on the main thread, of the
    signalling listener and of the worker: which consumers it holds and shows,
    how requests of the server are answered, and what is left when it is closed. *)

From stdpp Require Import base list gmap strings sets.
From Stdlib Require Import ZArith Lia.
From S2P Require Import Prelude Keeps Json Java Protoo RoomStore RoomClient.
Open Scope Z_scope.

Section steps.
Context `{OrgJson} `{EV : Env}.

Inductive action :=
| AWork | AMain
| AJoinRoom | AEnableMic | ADisableMic | AMuteMic | AUnmuteMic | AEnableCam | ADisableCam
| AEnableShare (isEnable : bool) | AStartShare (isReqSuc : bool) | ADisableShare
| AEnableAudioOnly | ADisableAudioOnly | AMuteAudio | AUnmuteAudio
| ARestartIce | AKeyFrame (consumerId : string) | ADisplayName (name : string) | ACloseRoom
| AOnOpen | AOnFail | AOnRequest (r : Request) | AOnNotification (n : Notification) | AOnDisconnected | AOnClose
| AOnConnect (transportId dtlsParameters : string).

Definition act (a : action) : M room unit :=
  match a with
  | AWork => run_work
  | AMain => run_main
  | AJoinRoom => joinRoom
  | AEnableMic => enableMic
  | ADisableMic => disableMic
  | AMuteMic => muteMic
  | AUnmuteMic => unmuteMic
  | AEnableCam => enableCam
  | ADisableCam => disableCam
  | AEnableShare b => enableShare b
  | AStartShare b => startEnableShare b
  | ADisableShare => disableShare
  | AEnableAudioOnly => enableAudioOnly
  | ADisableAudioOnly => disableAudioOnly
  | AMuteAudio => muteAudio
  | AUnmuteAudio => unmuteAudio
  | ARestartIce => restartIce
  | AKeyFrame id => requestConsumerKeyFrame id
  | ADisplayName name => changeDisplayName name
  | ACloseRoom => close
  | AOnOpen => room_onOpen
  | AOnFail => room_onFail
  | AOnRequest r => room_onRequest r
  | AOnNotification n => room_onNotification n
  | AOnDisconnected => room_onDisconnected
  | AOnClose => room_onClose
  | AOnConnect id dtls => onConnect id dtls
  end.

(** The states after a list of steps; an exception ends a step where it is
    thrown. *)
Definition after (l : list action) (r : room) : room := fold_left (fun r a => (act a r).2) l r.

Lemma after_invariant (I : room -> Prop) l r : (forall a r, I r -> I (act a r).2) -> I r -> I (after l r).
Proof. intros HI. revert r. induction l as [|a l IH]; intros r Hr; [done|]. cbn. by apply IH, HI. Qed.

(** ** The consumers of a room *)

(** A consumer the room holds is open and is shown, paused as it is. *)
Definition shown (r : room) (id : string) (n : nat) : Prop :=
  exists c w, heap_consumers r !! n = Some c /\ c_id c = id /\ c_closed c = false /\
    consumers (mStore r) !! id = Some w /\ mConsumer w = n /\ mLocallyPaused w = c_paused c.
Record tracked (r : room) : Prop := {
  tr_shown : forall id p n, mConsumers r !! id = Some (p, n) -> shown r id n;
  tr_transport : forall t id n, mRecvTransport r = Some t -> mt_objects t !! id = Some n ->
    exists p, mConsumers r !! id = Some (p, n);
  tr_protoo : mProtoo r = false -> mRecvTransport r = None /\ mConsumers r = ∅ }.

(** In audio-only mode the video consumers are paused. *)
Definition quiet_video (r : room) : Prop := mAudioOnly (me (mStore r)) = true ->
  forall id p n c, mConsumers r !! id = Some (p, n) -> heap_consumers r !! n = Some c -> c_kind c = "video" -> c_paused c = true.

Definition closes (w : work) : bool := match w with WClose => true | _ => false end.
Definition will_close (r : room) : bool := match worker r with Some q => existsb closes q | None => true end.

(** A room without a callback of the application, until it is closed. *)
Record inv (r : room) : Prop := {
  inv_callback : connectCallback r = None;
  inv_close : will_close r = true -> mClosed r = true;
  inv_tracked : mClosed r = false -> tracked r }.

(** *** Steps that do not concern consumers *)

Record same_tracking (r r' : room) : Prop := {
  st_consumers : mConsumers r' = mConsumers r;
  st_heap : heap_consumers r' = heap_consumers r;
  st_transport : mRecvTransport r' = mRecvTransport r;
  st_store : consumers (mStore r') = consumers (mStore r);
  st_audio : mAudioOnly (me (mStore r')) = mAudioOnly (me (mStore r));
  st_protoo : mProtoo r' = mProtoo r;
  st_callback : connectCallback r' = connectCallback r;
  st_closed : mClosed r' = mClosed r;
  st_close : will_close r' = will_close r }.
#[export] Instance same_tracking_preorder : PreOrder same_tracking.
Proof.
  split; [by intros r; split|]. intros r1 r2 r3 [] []. split; congruence.
Qed.

Lemma same_tracking_inv r r' : same_tracking r r' -> inv r -> inv r'.
Proof.
  intros [] [? Hw Ht]. split; [congruence|by rewrite st_close0, st_closed0|]. intros Hc. destruct Ht as [Hs Hm Hp]; [congruence|]. split.
  - rewrite st_consumers0. unfold shown. rewrite st_heap0, st_store0. exact Hs.
  - rewrite st_transport0, st_consumers0. exact Hm.
  - rewrite st_transport0, st_consumers0, st_protoo0. exact Hp.
Qed.
Lemma same_tracking_quiet r r' : same_tracking r r' -> quiet_video r -> quiet_video r'.
Proof. intros []. unfold quiet_video. by rewrite st_consumers0, st_heap0, st_audio0. Qed.

Ltac same := by intros; split.
Lemma keeps_on_store f : (forall s, consumers (f s) = consumers s) -> (forall s, mAudioOnly (me (f s)) = mAudioOnly (me s)) ->
  keeps same_tracking (on_store f).
Proof. intros Hc Hm. apply keeps_modify. intros r. split; cbn; auto. Qed.
Lemma keeps_post w : closes w = false -> keeps same_tracking (post w).
Proof.
  intros Hw. apply keeps_modify. intros r. destruct (worker r) as [q|] eqn:Eq; [|reflexivity]. split; try done. unfold will_close. cbn.
  rewrite Eq, existsb_app. cbn. rewrite Hw. by rewrite !orb_false_r.
Qed.
Lemma keeps_tell e : keeps same_tracking (tell e).
Proof. apply keeps_modify. intros r. destruct (connectCallback r) eqn:E; [|reflexivity]. split; try done. Qed.
Lemma keeps_post_main c : keeps same_tracking (post_main c).
Proof. apply keeps_modify. same. Qed.
Lemma keeps_call_native op args : keeps same_tracking (call_native op args).
Proof. intros r. unfold call_native, bind. cbn. by destruct (native _ _ _). Qed.
Lemma keeps_syncRequest m q : keeps same_tracking (syncRequest m q).
Proof. intros r. unfold syncRequest, bind. cbn. destruct (mProtoo r) eqn:E; [|reflexivity]. cbn. destruct (reply _ _ _); by split. Qed.
Lemma keeps_non_null {A} (o : option A) : keeps same_tracking (non_null o).
Proof. intros r. destruct o; reflexivity. Qed.
Lemma keeps_jsonObject t : keeps same_tracking (jsonObject t).
Proof. intros r. unfold jsonObject. destruct (new_JSONObject t); reflexivity. Qed.
Lemma keeps_notify_error text e : keeps same_tracking (notify_error text e).
Proof. by apply keeps_on_store. Qed.
Lemma keeps_answer q a : keeps same_tracking (answer q a).
Proof. apply keeps_modify. same. Qed.
Lemma keeps_null {A} : keeps same_tracking (@null A).
Proof. intros r. reflexivity. Qed.
#[local] Hint Resolve keeps_tell keeps_post_main keeps_call_native keeps_syncRequest keeps_non_null keeps_jsonObject keeps_notify_error
  keeps_answer keeps_null : keeps.
#[local] Ltac keep_special ::=
  match goal with
  | |- keeps same_tracking (bind get (fun r => let _ := _ in _)) => cbv zeta
  | |- keeps same_tracking (bind get (fun r => bind (put _) _)) => apply keeps_get_put; [apply _|same|intros ? ?]
  | |- keeps same_tracking (modify _) => apply keeps_modify; same
  | |- keeps same_tracking (on_store _) => apply keeps_on_store; done
  | |- keeps same_tracking (post _) => apply keeps_post; done
  end.

Lemma keeps_producer_at n : keeps same_tracking (producer_at n).
Proof. unfold producer_at. keep. Qed.
Lemma keeps_change_producer n f : keeps same_tracking (change_producer n f).
Proof. unfold change_producer. keep. Qed.
#[local] Hint Resolve keeps_producer_at keeps_change_producer : keeps.
Lemma keeps_producer_close n : keeps same_tracking (producer_close n).
Proof. unfold producer_close. keep. Qed.
Lemma keeps_store_producer id b : keeps same_tracking (store_producer_paused id b).
Proof. unfold store_producer_paused. keep. Qed.
Lemma keeps_forget_mic : keeps same_tracking forget_mic.
Proof. unfold forget_mic. keep. Qed.
Lemma keeps_forget_cam : keeps same_tracking forget_cam.
Proof. unfold forget_cam. keep. Qed.
#[local] Hint Resolve keeps_producer_close keeps_store_producer keeps_forget_mic keeps_forget_cam : keeps.
Lemma keeps_producer_closed n : keeps same_tracking (producer_transport_closed n).
Proof. unfold producer_transport_closed. keep. Qed.
Lemma keeps_onProduce id kind p a : keeps same_tracking (onProduce id kind p a).
Proof. unfold onProduce, fetchProduceId. keep. Qed.
Lemma keeps_canProduce kind : keeps same_tracking (device_canProduce kind).
Proof. intros r. unfold device_canProduce, bind. cbn. by destruct (mMediasoupDevice r). Qed.
#[local] Hint Resolve keeps_producer_closed keeps_onProduce keeps_canProduce : keeps.
Lemma keeps_produce kind use : keeps same_tracking (produce kind use).
Proof. unfold produce. keep. Qed.
Lemma keeps_ready kind : keeps same_tracking (ready kind).
Proof. unfold ready. keep. Qed.
#[local] Hint Resolve keeps_produce keeps_ready : keeps.
Lemma keeps_enableMic : keeps same_tracking enableMicImpl.
Proof. unfold enableMicImpl. keep. Qed.
Lemma keeps_disableMic : keeps same_tracking disableMicImpl.
Proof. unfold disableMicImpl. keep. Qed.
Lemma keeps_muteMic : keeps same_tracking muteMicImpl.
Proof. unfold muteMicImpl. keep. Qed.
Lemma keeps_unmuteMic : keeps same_tracking unmuteMicImpl.
Proof. unfold unmuteMicImpl. keep. Qed.
Lemma keeps_release : keeps same_tracking releaseVideoTrack.
Proof. unfold releaseVideoTrack. keep. Qed.
#[local] Hint Resolve keeps_release : keeps.
Lemma keeps_openVideo type : keeps same_tracking (openVideoTrack type).
Proof. unfold openVideoTrack. keep. Qed.
Lemma keeps_closeCam text : keeps same_tracking (closeCamProducer text).
Proof. unfold closeCamProducer. keep. Qed.
#[local] Hint Resolve keeps_openVideo keeps_closeCam : keeps.
Lemma keeps_disableCam : keeps same_tracking disableCamImpl.
Proof. unfold disableCamImpl. keep. Qed.
Lemma keeps_disableShare b : keeps same_tracking (disableShareImpl b).
Proof. unfold disableShareImpl. keep. Qed.
Lemma keeps_produceVideo type use name : keeps same_tracking (produceVideo type use name).
Proof. unfold produceVideo. keep. Qed.
#[local] Hint Resolve keeps_disableCam keeps_disableShare keeps_produceVideo : keeps.
Lemma keeps_enableCam : keeps same_tracking enableCamImpl.
Proof. unfold enableCamImpl. keep. Qed.
Lemma keeps_enableShare : keeps same_tracking enableShareImpl.
Proof. unfold enableShareImpl. keep. Qed.
Lemma keeps_createTransport b : keeps same_tracking (createTransport b).
Proof. unfold createTransport. keep. Qed.
Lemma keeps_restartTransport t : keeps same_tracking (restartTransport t).
Proof. unfold restartTransport. keep. Qed.
#[local] Hint Resolve keeps_restartTransport : keeps.
Lemma keeps_restartIce : keeps same_tracking restartIceImpl.
Proof. unfold restartIceImpl. keep. Qed.
Lemma keeps_keyFrame : keeps same_tracking requestKeyFrameImpl.
Proof. unfold requestKeyFrameImpl. keep. Qed.
Lemma keeps_displayName name : keeps same_tracking (changeDisplayNameImpl name).
Proof. unfold changeDisplayNameImpl. keep. Qed.
#[local] Hint Resolve keeps_enableMic keeps_disableMic keeps_muteMic keeps_unmuteMic keeps_enableCam keeps_enableShare
  keeps_createTransport keeps_restartIce keeps_keyFrame keeps_displayName : keeps.

(** *** Pausing and resuming *)

Definition set_pause (b : bool) (n : nat) (id : string) (r : room) : room :=
  with_mStore (on_consumers (alter (set_paused "local" b) id) (mStore r))
    (with_heap_consumers (alter (set_c_paused b) n (heap_consumers r)) r).

(** What the room holds, and that it is shown. *)
Definition all_shown (r : room) : Prop := forall id p n, mConsumers r !! id = Some (p, n) -> shown r id n.

Lemma set_pause_shown b n id r : all_shown r -> (exists p, mConsumers r !! id = Some (p, n)) -> all_shown (set_pause b n id r).
Proof.
  intros Hs [p Hn] id' p' n' Hn'. change (mConsumers r !! id' = Some (p', n')) in Hn'. destruct (Hs _ _ _ Hn) as (c & w & Hc & Hi & Hcl & Hw & Hm & Hp).
  destruct (Hs _ _ _ Hn') as (c' & w' & Hc' & Hi' & Hcl' & Hw' & Hm' & Hp').
  destruct (decide (id' = id)) as [->|Hne].
  - assert (n' = n) as -> by congruence. exists (set_c_paused b c), (set_paused "local" b w). unfold set_pause.
    cbn [heap_consumers mStore with_mStore with_heap_consumers consumers on_consumers]. rewrite list_lookup_alter_eq, Hc, lookup_alter_eq, Hw.
    split; [done|]. unfold set_c_paused. by rewrite Hcl.
  - assert (n' <> n) by congruence. exists c', w'. unfold set_pause.
    cbn [heap_consumers mStore with_mStore with_heap_consumers consumers on_consumers]. by rewrite list_lookup_alter_ne, lookup_alter_ne by done.
Qed.

Lemma set_pause_inv b n id r : inv r -> mClosed r = false -> (exists p, mConsumers r !! id = Some (p, n)) -> inv (set_pause b n id r).
Proof.
  intros [Hcb Hcl Ht] Hm Hn. split; [done|done|]. intros _. destruct (Ht Hm) as [Hs Htr Hp]. split; [|done|done].
  by apply set_pause_shown.
Qed.

(** A request to pause or resume, then the change. *)
Definition change_paused (b : bool) (n : nat) (c : media_consumer) (method : string) : M room unit :=
  syncRequest method (id_request "consumerId" (c_id c));;;
  change_consumer n (set_c_paused b);;;
  on_store (if b then setConsumerPaused (c_id c) "local" else setConsumerResumed (c_id c) "local").

Lemma change_paused_cases b n c method r :
  same_tracking r (change_paused b n c method r).2 \/ same_tracking (set_pause b n (c_id c) r) (change_paused b n c method r).2.
Proof.
  unfold change_paused, syncRequest, bind. cbn. destruct (mProtoo r) eqn:E; [|by left]. cbn. destruct (reply _ _ _); [right|left; by split..].
  destruct b; by split.
Qed.

Lemma try_tracking b n c method r p h : (forall e, keeps same_tracking (h e)) ->
  let r' := (try_catch (change_paused b n c method) p h r).2 in
  same_tracking r r' \/ same_tracking (set_pause b n (c_id c) r) r'.
Proof.
  intros Hh r'. unfold r', try_catch. pose proof (change_paused_cases b n c method r) as Hc.
  destruct (change_paused b n c method r) as [[?|e|] r1]; cbn in *; [done| |done]. destruct (p e); [|done].
  pose proof (Hh e r1). destruct Hc as [Hc|Hc]; [left|right]; by etrans.
Qed.

Lemma pause_run n r : pauseConsumer n r =
  match heap_consumers r !! n with
  | None => (Throw (Java NullPointerException), r)
  | Some c => if negb (isConnecting r) || c_paused c then (Ok tt, r)
              else try_catch (change_paused true n c "pauseConsumer") is_protoo_exception (notify_error "Error pausing Consumer: ") r
  end.
Proof.
  unfold pauseConsumer, consumer_at, bind at 1 2. cbn [get]. destruct (heap_consumers r !! n) as [c|]; [|done].
  cbn [non_null ret]. unfold bind at 1. cbn [get]. destruct (isConnecting r); [|done]. by destruct (c_paused c).
Qed.
Lemma resume_run n r : resumeConsumer n r =
  match heap_consumers r !! n with
  | None => (Throw (Java NullPointerException), r)
  | Some c => if negb (isConnecting r) || negb (c_paused c) then (Ok tt, r)
              else try_catch (change_paused false n c "resumeConsumer") is_exception (notify_error "Error resuming Consumer: ") r
  end.
Proof.
  unfold resumeConsumer, consumer_at, bind at 1 2. cbn [get]. destruct (heap_consumers r !! n) as [c|]; [|done].
  cbn [non_null ret]. unfold bind at 1. cbn [get]. destruct (isConnecting r); [|done]. by destruct (c_paused c).
Qed.

Lemma pause_tracking n r : let r' := (pauseConsumer n r).2 in
  same_tracking r r' \/ exists c, heap_consumers r !! n = Some c /\ same_tracking (set_pause true n (c_id c) r) r'.
Proof.
  cbn zeta. rewrite pause_run. destruct (heap_consumers r !! n) as [c|]; [|by left]. destruct (_ || _); [by left|].
  destruct (try_tracking true n c "pauseConsumer" r is_protoo_exception _ (keeps_notify_error "Error pausing Consumer: "));
    [by left|right; by exists c].
Qed.
Lemma resume_tracking n r : let r' := (resumeConsumer n r).2 in
  same_tracking r r' \/ exists c, heap_consumers r !! n = Some c /\ same_tracking (set_pause false n (c_id c) r) r'.
Proof.
  cbn zeta. rewrite resume_run. destruct (heap_consumers r !! n) as [c|]; [|by left]. destruct (_ || _); [by left|].
  destruct (try_tracking false n c "resumeConsumer" r is_exception _ (keeps_notify_error "Error resuming Consumer: "));
    [by left|right; by exists c].
Qed.

(** What a change of the pausing of a held consumer keeps. *)
Definition holding (m : gmap string (string * nat)) (r : room) : Prop := inv r /\ mClosed r = false /\ mConsumers r = m.
Lemma tracking_holding m n (r r' : room) : (exists id p, m !! id = Some (p, n)) ->
  (same_tracking r r' \/ exists b c, heap_consumers r !! n = Some c /\ same_tracking (set_pause b n (c_id c) r) r') ->
  holding m r -> holding m r'.
Proof.
  intros (id & p & Hn) Hr (Hi & Hcl & Hm).
  assert (exists r0, same_tracking r0 r' /\ inv r0 /\ mClosed r0 = false /\ mConsumers r0 = m) as (r0 & [] & Hi0 & Hc0 & Hm0).
  { destruct Hr as [Hr|(b & c & Hc & Hr)]; [by exists r|]. exists (set_pause b n (c_id c) r). split; [done|]. subst m.
    destruct (tr_shown _ (inv_tracked _ Hi Hcl) _ _ _ Hn) as (c' & w & Hc' & Hi' & _). assert (c' = c) as -> by congruence.
    split; [|done]. apply set_pause_inv; [done..|]. rewrite Hi'. by exists p. }
  split; [|split; congruence]. eapply same_tracking_inv; [|exact Hi0]. by split.
Qed.
Lemma keeps_pause m n : (exists id p, m !! id = Some (p, n)) -> keeps (maintains (holding m)) (pauseConsumer n).
Proof. intros Hn r Hr. apply (tracking_holding m n r); [done| |done]. destruct (pause_tracking n r) as [?|(c & ? & ?)]; [by left|right; eauto]. Qed.
Lemma keeps_resume m n : (exists id p, m !! id = Some (p, n)) -> keeps (maintains (holding m)) (resumeConsumer n).
Proof. intros Hn r Hr. apply (tracking_holding m n r); [done| |done]. destruct (resume_tracking n r) as [?|(c & ? & ?)]; [by left|right; eauto]. Qed.

Lemma elem_of_held r n : n ∈ held r <-> exists id p, mConsumers r !! id = Some (p, n).
Proof.
  unfold held. rewrite list_elem_of_fmap. split.
  - intros ([id [p m]] & -> & Hm%elem_of_map_to_list). by exists id, p.
  - intros (id & p & Hm). exists (id, (p, n)). split; [done|]. by apply elem_of_map_to_list.
Qed.

Lemma holding_consumer_at m n : keeps (maintains (holding m)) (consumer_at n).
Proof. intros r Hr. unfold consumer_at, bind. cbn. by destruct (heap_consumers r !! n). Qed.
Lemma keeps_for_kind kind f r : inv r -> mClosed r = false ->
  (forall n, (exists id p, mConsumers r !! id = Some (p, n)) -> keeps (maintains (holding (mConsumers r))) (f n)) ->
  holding (mConsumers r) (for_kind kind f r).2.
Proof.
  intros Hi Hc Hf. unfold for_kind, bind at 1. cbn [get].
  apply (keeps_for_list_in (maintains (holding (mConsumers r))) (held r)); [|by split].
  intros n Hn%elem_of_held. apply keeps_bind; [apply _|apply holding_consumer_at|]. intros c.
  destruct (String.eqb _ _); [by apply Hf|]. apply keeps_ret. apply _.
Qed.

(** *** A new consumer *)

Definition added (t : media_transport) (peerId id kind type : string) (paused : bool) (r : room) : room :=
  let n := length (heap_consumers r) in
  with_mStore (addConsumer peerId type id n paused (mStore r))
    (with_mConsumers (<[id := (peerId, n)]> (mConsumers r))
      (with_mRecvTransport (Some (mkMediaTransport (mt_id t) (<[id := n]> (mt_objects t))))
        (with_heap_consumers (heap_consumers r ++ [mkMediaConsumer id kind false false]) r))).

Lemma added_shown t peerId id kind type paused r : all_shown r -> all_shown (added t peerId id kind type paused r).
Proof.
  intros Hs id' p n. unfold added. cbn [mConsumers with_mStore with_mConsumers]. rewrite lookup_insert_Some.
  intros [[-> [= <- <-]]|[Hne Hn]]; unfold shown;
    cbn [heap_consumers mStore with_mStore with_mConsumers with_mRecvTransport with_heap_consumers consumers addConsumer on_peers on_consumers];
    unfold Consumers_addConsumer.
  - exists (mkMediaConsumer id' kind false false), (newConsumerWrapper type paused (length (heap_consumers r))).
    rewrite list_lookup_middle, lookup_insert_eq by done. done.
  - destruct (Hs _ _ _ Hn) as (c & w & Hc & Hi & Hcl & Hw & Hm & Hp). exists c, w.
    rewrite lookup_app_l, lookup_insert_ne; [done|done|]. by apply lookup_lt_Some in Hc.
Qed.

Lemma added_inv t peerId id kind type paused r : mRecvTransport r = Some t -> mClosed r = false -> inv r ->
  inv (added t peerId id kind type paused r).
Proof.
  intros Ht Hc [Hcb Hcl Htr]. split; [done|done|]. intros _. destruct (Htr Hc) as [Hs Hm Hp]. split.
  - by apply added_shown.
  - intros t' id' n [= <-]. cbn [mt_objects mConsumers added with_mStore with_mConsumers]. rewrite lookup_insert_Some.
    intros [[-> <-]|[Hne Hn]]; [exists peerId; apply lookup_insert_eq|]. destruct (Hm _ _ _ Ht Hn) as [p Hn']. exists p. by rewrite lookup_insert_ne.
  - intros Hf. destruct (Hp Hf) as [? _]. congruence.
Qed.

(** [onNewConsumer] until the request has been answered. *)
Definition consumer_made (request : Request) (data : object) : M room nat :=
  let peerId := optString "peerId" data in
  let id := optString "id" data in
  n <- consume id (optString "producerId" data) (optString "kind" data) (optString "rtpParameters" data) (optString "appData" data);;
  modify (fun r => with_mConsumers (<[id := (peerId, n)]> (mConsumers r)) r);;;
  on_store (addConsumer peerId (optString "type" data) id n (optBoolean "producerPaused" data));;;
  answer request Accepted;;; ret n.

Lemma consumer_made_run request data r :
  (exists e, (consumer_made request data r).1 = Throw (Java e) /\ same_tracking r (consumer_made request data r).2 /\
     replied (consumer_made request data r).2 = replied r) \/
  (exists t, mRecvTransport r = Some t /\
     (consumer_made request data r).1 = Ok (length (heap_consumers r)) /\
     same_tracking (added t (optString "peerId" data) (optString "id" data) (optString "kind" data) (optString "type" data)
                      (optBoolean "producerPaused" data) r) (consumer_made request data r).2 /\
     replied (consumer_made request data r).2 = replied r ++ [(request, Accepted)]).
Proof.
  unfold consumer_made, consume, call_native, bind. cbn. destruct (mRecvTransport r) as [t|] eqn:Et; cbn; [|left; by exists NullPointerException].
  destruct (native _ _ _) as [?|m]; cbn; [right|left; by exists (MediasoupException m)].
  exists t. repeat split.
Qed.

Lemma onNewConsumer_run request r : onNewConsumer request r =
  if negb (mConsume (mOptions r)) then answer request (RejectedWith 403 "I do not want to consume") r
  else try_catch
    (data <- non_null (rq_data request);;
     n <- consumer_made request data;;
     r <- get;;
     when (String.eqb (optString "kind" data) "video" && mAudioOnly (me (mStore r))) (pauseConsumer n))
    is_exception (notify_error "Error creating a Consumer: ") r.
Proof.
  unfold onNewConsumer, bind at 1. cbn [get]. destruct (mConsume (mOptions r)); [|done]. cbn [negb]. unfold try_catch.
  destruct (rq_data request) as [data|]; [|done]. cbn [non_null]. unfold consumer_made, bind, ret.
  destruct (consume _ _ _ _ _ _) as [[n|e|] r1]; [|done..]. done.
Qed.

Lemma try_inv {A} (m : M room A) p h : keeps (maintains inv) m -> (forall e, keeps same_tracking (h e)) -> keeps (maintains inv) (try_catch m p h).
Proof. intros Hm Hh. apply keeps_try; [apply _|done|]. intros e r Hr. eapply same_tracking_inv; [apply Hh|done]. Qed.
Lemma same_keeps_inv {A} (m : M room A) : keeps same_tracking m -> keeps (maintains inv) m.
Proof. intros Hm r Hr. eapply same_tracking_inv; [apply Hm|done]. Qed.

(** Pausing a consumer that is held. *)
Lemma pause_inv r n : inv r -> (mClosed r = false -> exists id p, mConsumers r !! id = Some (p, n)) ->
  inv (pauseConsumer n r).2.
Proof.
  intros Hi Hn. destruct (mClosed r) eqn:Hc.
  - rewrite pause_run. destruct (heap_consumers r !! n); [|done]. unfold isConnecting. rewrite (inv_callback _ Hi), Hc. done.
  - by apply (keeps_pause (mConsumers r) n (Hn eq_refl) r).
Qed.

Lemma inv_onNewConsumer request : keeps (maintains inv) (onNewConsumer request).
Proof.
  intros r Hr. rewrite onNewConsumer_run. destruct (negb _); [eapply same_tracking_inv; [apply keeps_answer|done]|].
  revert r Hr. apply try_inv; [|apply keeps_notify_error]. apply keeps_bind; [apply _|apply same_keeps_inv, keeps_non_null|]. intros data r Hr.
  destruct (consumer_made_run request data r) as [(e & He & Hs & _)|(t & Ht & He & Hs & _)]; unfold bind;
    destruct (consumer_made request data r) as [o r1]; cbn [fst snd] in He, Hs; subst o; [by eapply same_tracking_inv|].
  cbn [get].
  assert (inv r1) as Hr1.
  { destruct (mClosed r) eqn:Hc.
    - destruct Hs as [? ? ? ? ? ? Hcb Hcl Hw], Hr as [Hcb' Hw' _]. split; [by rewrite Hcb|intros _; by rewrite Hcl|]. rewrite Hcl. cbn. by rewrite Hc.
    - eapply same_tracking_inv; [exact Hs|]. by apply added_inv. }
  destruct (_ && _); [|done]. apply pause_inv; [done|]. intros _. exists (optString "id" data), (optString "peerId" data).
  rewrite (st_consumers _ _ Hs). apply lookup_insert_eq.
Qed.

(** *** Notifications *)

(** Whether the room is closed or will be; what every task but the last keeps. *)
Record same_flags (r r' : room) : Prop := {
  sf_callback : connectCallback r' = connectCallback r;
  sf_closed : mClosed r' = mClosed r;
  sf_close : will_close r' = will_close r }.
#[export] Instance same_flags_preorder : PreOrder same_flags.
Proof. split; [by intros r; split|]. intros r1 r2 r3 [] []. split; congruence. Qed.
Lemma same_tracking_flags r r' : same_tracking r r' -> same_flags r r'.
Proof. intros []. by split. Qed.
Lemma flags_inv r r' : same_flags r r' -> inv r -> (mClosed r = false -> tracked r -> tracked r') -> inv r'.
Proof.
  intros [Hcb Hcl Hw] [Hcb' Hw' Ht] H'. split; [congruence|by rewrite Hw, Hcl|]. rewrite Hcl. auto.
Qed.
Lemma same_keeps_flags {A} (m : M room A) : keeps same_tracking m -> keeps same_flags m.
Proof. intros Hm r. apply same_tracking_flags, Hm. Qed.
#[local] Ltac keep_special ::=
  match goal with
  | |- keeps same_flags (modify _) => apply keeps_modify; same
  | |- keeps same_flags (on_store _) => apply keeps_modify; same
  | |- keeps same_tracking (bind get (fun r => let _ := _ in _)) => cbv zeta
  | |- keeps same_tracking (bind get (fun r => bind (put _) _)) => apply keeps_get_put; [apply _|same|intros ? ?]
  | |- keeps same_tracking (modify _) => apply keeps_modify; same
  | |- keeps same_tracking (on_store _) => apply keeps_on_store; done
  | |- keeps same_tracking (post _) => apply keeps_post; done
  end.

Lemma flags_consumer_at n : keeps same_flags (consumer_at n).
Proof. intros r. unfold consumer_at, bind. cbn. by destruct (heap_consumers r !! n). Qed.
Lemma flags_change_consumer n f : keeps same_flags (change_consumer n f).
Proof. unfold change_consumer. keep. Qed.
#[local] Hint Resolve flags_consumer_at flags_change_consumer : keeps.
Lemma flags_consumer_close n : keeps same_flags (consumer_close n).
Proof. unfold consumer_close. keep. Qed.
#[local] Hint Resolve flags_consumer_close : keeps.

(** A change of a shown consumer that keeps what it is and whether it is paused here. *)
Lemma alter_inv f id r : (forall w, mConsumer (f w) = mConsumer w /\ mLocallyPaused (f w) = mLocallyPaused w) ->
  inv r -> inv (with_mStore (on_consumers (alter f id) (mStore r)) r).
Proof.
  intros Hf Hi. apply (flags_inv r); [by split|done|]. intros _ [Hs Hm Hp]. split; [|done|done].
  intros id' p n Hn. destruct (Hs _ _ _ Hn) as (c & w & Hc & Hid & Hcl & Hw & Hmw & Hpw).
  exists c. unfold shown. cbn [mStore with_mStore consumers on_consumers heap_consumers]. destruct (decide (id = id')) as [->|Hne].
  - exists (f w). rewrite lookup_alter_eq, Hw. destruct (Hf w) as [-> ->]. done.
  - exists w. by rewrite lookup_alter_ne.
Qed.

Definition dropped (p : string) (n : nat) (id : string) (r : room) : room :=
  with_mStore (removeConsumer p id (mStore r))
    (with_mConsumers (delete id (mConsumers r))
      (with_mRecvTransport (erase_object id <$> mRecvTransport r)
        (with_heap_consumers (alter set_c_closed n (heap_consumers r)) r))).

Lemma dropped_tracked p n id r : mConsumers r !! id = Some (p, n) -> tracked r -> tracked (dropped p n id r).
Proof.
  intros Hn [Hs Hm Hp]. unfold dropped. split;
    cbn [mConsumers heap_consumers mRecvTransport mStore mProtoo consumers with_mStore with_mConsumers with_mRecvTransport with_heap_consumers
         removeConsumer on_peers on_consumers].
  - intros id' p' n' [Hne Hn']%lookup_delete_Some. destruct (Hs _ _ _ Hn') as (c & w & Hc & Hid & Hcl & Hw & Hmw & Hpw).
    destruct (Hs _ _ _ Hn) as (c0 & _ & Hc0 & Hid0 & _). exists c, w. unfold shown.
    cbn [heap_consumers mStore with_mStore with_mConsumers with_mRecvTransport with_heap_consumers consumers removeConsumer on_peers on_consumers].
    unfold Consumers_removeConsumer. rewrite list_lookup_alter_ne, lookup_delete_ne by congruence. done.
  - intros t id' n' Ht Hn'. apply fmap_Some in Ht as (t0 & Ht0 & ->). cbn [mt_objects erase_object] in Hn'. apply lookup_delete_Some in Hn' as [Hne Hn'].
    destruct (Hm _ _ _ Ht0 Hn') as [p' Hp']. exists p'. by rewrite lookup_delete_ne.
  - intros Hf. destruct (Hp Hf) as [-> ->]. by rewrite delete_empty.
Qed.

Definition close_held (id : string) (h : string * nat) : M room unit :=
  modify (fun r => with_mConsumers (delete id (mConsumers r)) r);;;
  consumer_close (snd h);;;
  modify (fun r => with_mConsumers (delete id (mConsumers r)) r);;;
  c <- consumer_at (snd h);;
  on_store (removeConsumer (fst h) (c_id c)).

Lemma close_held_run p n id r : mConsumers r !! id = Some (p, n) -> tracked r -> close_held id (p, n) r = (Ok tt, dropped p n id r).
Proof.
  intros Hn [Hs _ _]. destruct (Hs _ _ _ Hn) as (c & w & Hc & Hid & Hcl & _).
  unfold close_held, consumer_close, consumer_at, change_consumer, bind. cbn. rewrite Hc. cbn. rewrite Hcl. cbn. rewrite list_lookup_alter_eq, Hc. cbn.
  rewrite delete_delete_eq, Hid. done.
Qed.

Lemma flags_close_held id h : keeps same_flags (close_held id h).
Proof. unfold close_held. keep. Qed.
Lemma inv_close_held id r h : mConsumers r !! id = Some h -> inv r -> inv (close_held id h r).2.
Proof.
  destruct h as [p n]. intros Hn Hi. eapply flags_inv; [|exact Hi|].
  - apply flags_close_held.
  - intros _ Ht. rewrite (close_held_run p n id r Hn Ht). by apply dropped_tracked.
Qed.

Lemma inv_with_holder id k : (forall h r, mConsumers r !! id = Some h -> inv r -> inv (k h r).2) -> keeps (maintains inv) (with_holder id k).
Proof. intros Hk r Hr. unfold with_holder, bind. cbn. destruct (mConsumers r !! id) eqn:E; [by apply Hk|done]. Qed.
Lemma inv_at n (k : media_consumer -> M room unit) : (forall c, keeps (maintains inv) (k c)) -> keeps (maintains inv) (c <- consumer_at n;; k c).
Proof. intros Hk r Hr. unfold consumer_at, bind. cbn. destruct (heap_consumers r !! n); [by apply Hk|done]. Qed.

Lemma inv_handleNotification n : keeps (maintains inv) (handleNotification n).
Proof.
  unfold handleNotification. apply keeps_bind; [apply _|apply same_keeps_inv; auto with keeps|]. intros data. cbn zeta.
  repeat match goal with |- keeps _ (if String.eqb ?a ?b then _ else _) => destruct (String.eqb a b) end.
  all: try solve [apply same_keeps_inv; keep].
  - apply inv_with_holder. intros h r. apply inv_close_held.
  - apply inv_with_holder. intros h r _. apply inv_at. intros c r1 Hr1. by refine (alter_inv _ _ r1 _ Hr1).
  - apply inv_with_holder. intros h r _. apply inv_at. intros c r1 Hr1. by refine (alter_inv _ _ r1 _ Hr1).
  - apply inv_with_holder. intros h r _ Hr. by refine (alter_inv _ _ r _ Hr).
  - apply inv_with_holder. intros h r _ Hr. by refine (alter_inv _ _ r _ Hr).
Qed.

(** *** The transports are disposed of *)

(** What is left of the consumers while their transport closes. *)
Record closing (r r' : room) : Prop := {
  cl_flags : same_flags r r';
  cl_protoo : mProtoo r' = mProtoo r;
  cl_heap : length (heap_consumers r') = length (heap_consumers r);
  cl_audio : mAudioOnly (me (mStore r')) = mAudioOnly (me (mStore r));
  cl_paused : forall n c', heap_consumers r' !! n = Some c' -> exists c, heap_consumers r !! n = Some c /\
    c_kind c' = c_kind c /\ c_paused c' = c_paused c;
  cl_consumers : forall id h, mConsumers r' !! id = Some h -> mConsumers r !! id = Some h;
  cl_shown : all_shown r -> all_shown r' }.
Lemma closing_refl r : closing r r.
Proof. split; [reflexivity|done..| |done|done]. intros n c' Hc. by exists c'. Qed.
Lemma closing_trans r1 r2 r3 : closing r1 r2 -> closing r2 r3 -> closing r1 r3.
Proof.
  intros [] []. split; [by etrans|congruence|congruence|congruence| |auto|auto].
  intros n c3 Hc3. destruct (cl_paused1 _ _ Hc3) as (c2 & Hc2 & ? & ?). destruct (cl_paused0 _ _ Hc2) as (c1 & Hc1 & ? & ?).
  exists c1. split; [done|]. split; congruence.
Qed.
Lemma same_tracking_closing r r' : same_tracking r r' -> closing r r'.
Proof.
  intros Hs. pose proof (same_tracking_flags _ _ Hs). destruct Hs. split; [done|done|congruence|done| |congruence|].
  - intros n c' Hc. rewrite st_heap0 in Hc. by exists c'.
  - unfold all_shown, shown. by rewrite st_consumers0, st_heap0, st_store0.
Qed.

Lemma consumer_closed_run n c r : heap_consumers r !! n = Some c -> isConnecting r = true ->
  exists r', consumer_transport_closed n r = (Ok tt, r') /\ closing r r'.
Proof.
  intros Hc Hcn. eexists. split.
  - unfold consumer_transport_closed, consumer_at, change_consumer, bind. cbn. rewrite Hc. cbn. reflexivity.
  - change (isConnecting (with_heap_consumers (alter set_c_closed n (heap_consumers r)) r)) with (isConnecting r). rewrite Hcn.
    split; [by split|done|apply length_alter|done| | |].
    + cbn. intros m c'. rewrite list_lookup_alter. destruct (decide (n = m)) as [->|]; [|intros ?; by exists c'].
      rewrite Hc. intros [= <-]. by exists c.
    + intros id h. cbn [mConsumers with_mConsumers with_heap_consumers]. rewrite lookup_delete_Some. by intros [_ ?].
    + intros Hs id p m. cbn [mConsumers with_mConsumers with_heap_consumers]. rewrite lookup_delete_Some. intros [Hne Hm].
      destruct (Hs _ _ _ Hm) as (c' & w & Hc' & Hid & Hcl & Hw & Hmw & Hpw). exists c', w. split; [|done].
      cbn. rewrite list_lookup_alter_ne by congruence. done.
Qed.

Lemma connecting_flags r r' : same_flags r r' -> isConnecting r' = isConnecting r.
Proof. intros [Hcb Hcl _]. unfold isConnecting. by rewrite Hcb, Hcl. Qed.

Lemma consumers_closed_run l r : (forall n, n ∈ l -> (n < length (heap_consumers r))%nat) -> isConnecting r = true ->
  exists r', for_list l consumer_transport_closed r = (Ok tt, r') /\ closing r r'.
Proof.
  revert r. induction l as [|n l IH]; intros r Hl Hcn; [exists r; split; [done|apply closing_refl]|].
  destruct (lookup_lt_is_Some_2 (heap_consumers r) n) as [c Hc]; [apply Hl; by constructor|].
  destruct (consumer_closed_run n c r Hc Hcn) as (r1 & E1 & H1). destruct (IH r1) as (r2 & E2 & H2).
  - intros m Hm. rewrite (cl_heap _ _ H1). apply Hl. by constructor.
  - by rewrite (connecting_flags _ _ (cl_flags _ _ H1)).
  - exists r2. cbn [for_list]. unfold bind. rewrite E1. split; [done|]. by eapply closing_trans.
Qed.

Lemma keeps_close_send : keeps same_tracking close_send.
Proof. unfold close_send. keep. Qed.

(** The room holds no more than before, and no transport. *)
Lemma close_recv_run r : inv r -> mClosed r = false ->
  exists r', close_recv r = (Ok tt, r') /\ closing r r' /\ mRecvTransport r' = None.
Proof.
  intros Hi Hc. destruct (inv_tracked _ Hi Hc) as [Hs Hm Hp]. unfold close_recv, bind at 1. cbn [get].
  destruct (mRecvTransport r) as [t|] eqn:Ht; [|exists r; split; [done|]; split; [apply closing_refl|done]].
  destruct (consumers_closed_run (objects t) r) as (r' & E' & H').
  - intros n Hn. unfold objects in Hn. apply list_elem_of_fmap in Hn as ([id m] & -> & Hid%elem_of_map_to_list).
    destruct (Hm _ _ _ eq_refl Hid) as [p Hn]. destruct (Hs _ _ _ Hn) as (c & w & Hcn & _). cbn. by apply lookup_lt_Some in Hcn.
  - unfold isConnecting. by rewrite (inv_callback _ Hi), Hc.
  - exists (with_mRecvTransport None r'). unfold bind. rewrite E'. split; [done|]. split; [|done].
    eapply closing_trans; [exact H'|]. split; [by split|done|done|done| |done|done]. intros n c' Hc'. by exists c'.
Qed.

Lemma closing_inv r r' : inv r -> closing r r' -> mRecvTransport r' = None -> inv r'.
Proof.
  intros Hi Hc Ht. apply (flags_inv r r' (cl_flags _ _ Hc) Hi). intros _ [Hs _ Hp]. split.
  - by apply (cl_shown _ _ Hc).
  - intros t. by rewrite Ht.
  - rewrite (cl_protoo _ _ Hc). intros Hf. split; [done|]. apply map_empty. intros id. destruct (mConsumers r' !! id) eqn:E; [|done].
    apply (cl_consumers _ _ Hc) in E. destruct (Hp Hf) as [_ He]. by rewrite He in E.
Qed.

Lemma inv_close_send_recv r : inv r -> mClosed r = false -> inv (disposeTransportDevice r).2.
Proof.
  intros Hi Hc. unfold disposeTransportDevice, bind at 1. pose proof (keeps_close_send r) as Hs.
  destruct (close_send r) as [[[]|e|] r1]; cbn [snd] in Hs; [|by eapply same_tracking_inv..].
  pose proof (same_tracking_inv _ _ Hs Hi) as Hi1. pose proof (st_closed _ _ Hs) as Hc1. rewrite Hc in Hc1.
  destruct (close_recv_run r1 Hi1 Hc1) as (r2 & E2 & H2 & Ht). unfold bind. rewrite E2.
  eapply same_tracking_inv; [|exact (closing_inv _ _ Hi1 H2 Ht)]. by split.
Qed.

(** A closed room: only the flags matter. *)
Lemma flags_consumer_closed n : keeps same_flags (consumer_transport_closed n).
Proof. unfold consumer_transport_closed. keep. apply keeps_modify. intros r. by destruct (isConnecting r). Qed.
#[local] Hint Resolve flags_consumer_closed : keeps.
Lemma flags_close_recv : keeps same_flags close_recv.
Proof. unfold close_recv. keep. Qed.
Lemma inv_dispose : keeps (maintains inv) disposeTransportDevice.
Proof.
  intros r Hi. destruct (mClosed r) eqn:Hc; [|by apply inv_close_send_recv]. eapply flags_inv; [|exact Hi|by rewrite Hc].
  apply (keeps_bind same_flags); [apply same_keeps_flags, keeps_close_send|]. intros _.
  apply keeps_bind; [apply _|apply flags_close_recv|]. keep.
Qed.

(** *** Joining *)

Lemma createTransport_run b r t r' : createTransport b r = (Ok t, r') -> mt_objects t = ∅ /\ mProtoo r' = true.
Proof.
  unfold createTransport. intros (r0 & s0 & [= <- <-] & E)%bind_returns. apply bind_returns in E as (res & r1 & E1 & E).
  assert (mProtoo r = true) as Hp by (revert E1; unfold syncRequest, bind; cbn [get]; by destruct (mProtoo r)).
  pose proof (st_protoo _ _ (kept _ _ _ _ _ (keeps_syncRequest _ _) E1)) as H1.
  apply bind_returns in E as (info & r2 & E2 & E). pose proof (st_protoo _ _ (kept _ _ _ _ _ (keeps_jsonObject _) E2)) as H2.
  apply bind_returns in E as (u & r3 & E3 & E). pose proof (st_protoo _ _ (kept _ _ _ _ _ (keeps_call_native _ _) E3)) as H3.
  injection E as <- <-. split; [done|congruence].
Qed.

Lemma inv_recv_transport : keeps (maintains inv) (t <- createTransport false;; modify (with_mRecvTransport (Some t))).
Proof.
  intros r Hi. unfold bind. pose proof (keeps_createTransport false r) as Hs. destruct (createTransport false r) as [[t|e|] r'] eqn:E;
    cbn [snd] in Hs; [|by eapply same_tracking_inv..]. apply createTransport_run in E as [Ht Hp].
  apply (same_tracking_inv _ _ Hs) in Hi. apply (flags_inv r'); [by split|done|]. intros _ [H1 H2 H3]. split.
  - done.
  - intros t' id n [= <-]. by rewrite Ht, lookup_empty.
  - cbn. congruence.
Qed.

Lemma keeps_listed v : keeps same_tracking (add_listed_peer v).
Proof. unfold add_listed_peer. keep. Qed.
#[local] Hint Resolve keeps_listed : keeps.

#[local] Ltac keep_inv :=
  repeat match goal with
  | |- keeps (maintains inv) (bind (createTransport false) _) => apply inv_recv_transport
  | |- keeps (maintains inv) _ => solve [apply same_keeps_inv; keep]
  | |- forall _, keeps _ _ => intros ?
  | |- keeps (maintains inv) (bind _ _) => apply keeps_bind; [apply _|..]
  | |- keeps (maintains inv) (when _ _) => apply keeps_when; [apply _|]
  | |- keeps (maintains inv) (if ?b then _ else _) => destruct b
  | |- keeps (maintains inv) (try_catch _ _ _) => apply keeps_try; [apply _|..]
  end.

Lemma inv_joinImpl : keeps (maintains inv) joinImpl.
Proof. unfold joinImpl. keep_inv. Qed.

(** *** Closing, and the tasks *)

Lemma inv_close_room : keeps (maintains inv) close.
Proof.
  intros r Hi. unfold close, post, on_store, modify, bind. cbn. destruct (mClosed r) eqn:Hc; [exact Hi|]. destruct Hi as [Hcb Hw Ht].
  cbn. by destruct (worker r); split.
Qed.

Lemma inv_for_kind kind f r : inv r -> mClosed r = false ->
  (forall m n, (exists id p, m !! id = Some (p, n)) -> keeps (maintains (holding m)) (f n)) -> inv (for_kind kind f r).2.
Proof. intros Hi Hc Hf. destruct (keeps_for_kind kind f r Hi Hc); auto. Qed.

(** In a closed room the tasks of the consumers do nothing to them. *)
Lemma pause_closed n r : inv r -> mClosed r = true -> (pauseConsumer n r).2 = r.
Proof.
  intros Hi Hc. rewrite pause_run. destruct (heap_consumers r !! n); [|done]. unfold isConnecting. by rewrite (inv_callback _ Hi), Hc.
Qed.
Lemma resume_closed n r : inv r -> mClosed r = true -> (resumeConsumer n r).2 = r.
Proof.
  intros Hi Hc. rewrite resume_run. destruct (heap_consumers r !! n); [|done]. unfold isConnecting. by rewrite (inv_callback _ Hi), Hc.
Qed.
Lemma for_kind_closed kind f r : (forall n, (f n r).2 = r) -> (for_kind kind f r).2 = r.
Proof.
  intros Hf. unfold for_kind, bind at 1. cbn [get]. induction (held r) as [|n l IH]; [done|]. cbn [for_list]. unfold bind at 1.
  assert (((c <- consumer_at n;; if String.eqb (c_kind c) kind then f n else ret tt) r).2 = r) as Hn.
  { unfold consumer_at, bind. cbn. destruct (heap_consumers r !! n); [|done]. cbn. by destruct (String.eqb _ _). }
  destruct ((c <- consumer_at n;; if String.eqb (c_kind c) kind then f n else ret tt) r) as [[?|?|] r']; cbn [snd] in Hn; by subst.
Qed.

Lemma inv_pause_kind kind : keeps (maintains inv) (for_kind kind pauseConsumer).
Proof.
  intros r Hi. destruct (mClosed r) eqn:Hc; [by rewrite for_kind_closed; [|intros n; apply pause_closed]|].
  apply inv_for_kind; [done..|]. apply keeps_pause.
Qed.
Lemma inv_resume_kind kind : keeps (maintains inv) (for_kind kind resumeConsumer).
Proof.
  intros r Hi. destruct (mClosed r) eqn:Hc; [by rewrite for_kind_closed; [|intros n; apply resume_closed]|].
  apply inv_for_kind; [done..|]. apply keeps_resume.
Qed.

(** The flag of audio-only mode is not of concern to the invariant. *)
Lemma inv_store f : (forall s, consumers (f s) = consumers s) -> keeps (maintains inv) (on_store f).
Proof.
  intros Hf r Hi. apply (flags_inv r); [by split|done|]. intros _ [Hs Hm Hp]. split; [|done|done].
  intros id p n Hn. destruct (Hs _ _ _ Hn) as (c & w & ?). exists c, w. unfold shown. cbn. by rewrite Hf.
Qed.

Lemma inv_handleRequest q : keeps (maintains inv) (handleRequest q).
Proof.
  unfold handleRequest. apply try_inv; [|keep]. destruct (String.eqb _ _); [apply inv_onNewConsumer|].
  destruct (String.eqb _ _); apply same_keeps_inv; unfold onNewDataConsumer; keep.
Qed.
Lemma inv_connect : keeps (maintains inv) (modify (with_mProtoo true)).
Proof. intros r Hi. apply (flags_inv r); [by split|done|]. intros _ [Hs Hm Hp]. by split. Qed.
Lemma inv_onClose : keeps (maintains inv) (r <- get;; if mClosed r then ret tt else close;;; tell ConnectClose).
Proof.
  apply keeps_bind; [apply _|apply keeps_get; apply _|]. intros r. destruct (mClosed r); [apply keeps_ret; apply _|].
  apply keeps_bind; [apply _|apply inv_close_room|]. intros _. apply same_keeps_inv, keeps_tell.
Qed.
Lemma inv_closeImpl r : inv r -> mClosed r = true -> inv (closeImpl r).2.
Proof.
  intros Hi Hc. unfold closeImpl. rewrite (bind_ok _ _ r (with_mProtoo false r) tt) by done.
  assert (inv (with_mProtoo false r)) as H1 by (destruct Hi as [? ? Ht]; split; [done..|]; cbn; by rewrite Hc).
  apply (inv_dispose (with_mProtoo false r)) in H1. unfold bind at 1.
  assert (Hcl : mClosed (disposeTransportDevice (with_mProtoo false r)).2 = true).
  { rewrite <- Hc. change (mClosed r) with (mClosed (with_mProtoo false r)). apply sf_closed.
    apply (keeps_bind same_flags); [apply same_keeps_flags, keeps_close_send|]. intros _.
    apply keeps_bind; [apply _|apply flags_close_recv|]. keep. }
  destruct (disposeTransportDevice (with_mProtoo false r)) as [[[]|e|] r1]; cbn [fst snd] in *; [|done..].
  destruct H1 as [Hcb _ _]. split; [done|done|]. cbn. by rewrite Hcl.
Qed.

Lemma inv_perform w : closes w = false -> keeps (maintains inv) (perform w).
Proof.
  intros Hw. destruct w; try discriminate Hw; cbn [perform]; try solve [keep_inv].
  - apply inv_connect.
  - keep_inv. apply inv_joinImpl.
  - apply inv_handleRequest.
  - apply try_inv; [apply inv_handleNotification|keep].
  - keep_inv. apply inv_dispose.
  - apply inv_onClose.
  - apply keeps_bind; [apply _|apply inv_pause_kind|]. intros _. apply keeps_bind; [apply _|by apply inv_store|]. keep_inv.
  - apply keeps_bind; [apply _|apply inv_resume_kind|]. intros _. apply keeps_bind; [apply _|by apply inv_store|]. keep_inv.
  - apply inv_pause_kind.
  - apply inv_resume_kind.
Qed.

Lemma inv_run_work : keeps (maintains inv) run_work.
Proof.
  intros r Hi. unfold run_work, bind. cbn [get]. destruct (worker r) as [[|w q]|] eqn:Hw; [done| |done]. cbn [put].
  assert (will_close r = closes w || existsb closes q) as Hwc by (unfold will_close; by rewrite Hw).
  assert (inv (with_worker (Some q) r)) as Hi'.
  { destruct Hi as [Hcb Hcl Ht]. split; [done| |by intros Hc; destruct (Ht Hc); split]. intros Hq. apply Hcl. rewrite Hwc. apply orb_true_iff. by right. }
  destruct (closes w) eqn:Ew; [|by apply (inv_perform w Ew)].
  destruct w; try discriminate Ew. apply inv_closeImpl; [done|]. apply (inv_close r Hi). by rewrite Hwc.
Qed.

Lemma inv_act a : keeps (maintains inv) (act a).
Proof.
  destruct a; cbn [act]; try apply inv_run_work; try apply inv_close_room.
  all: try solve [unfold joinRoom, enableMic, disableMic, muteMic, unmuteMic, enableCam, disableCam, enableShare, startEnableShare, disableShare,
    enableAudioOnly, disableAudioOnly, muteAudio, unmuteAudio, restartIce, requestConsumerKeyFrame, changeDisplayName, if_connecting,
    enableCam, disableCam, room_onOpen, room_onFail, room_onRequest, room_onNotification, room_onDisconnected, room_onClose, onConnect;
    keep_inv].
  - intros r Hi. unfold run_main, bind. cbn [get]. destruct (main r) as [|c q] eqn:E; [done|]. cbn [put].
    assert (inv (with_main q r)) as Hi' by (eapply same_tracking_inv; [|exact Hi]; by split).
    destruct c; [|by revert Hi'; apply (same_keeps_inv enableCam); unfold enableCam; keep|by apply inv_close_room].
    revert Hi'. apply (same_keeps_inv enableMic). unfold enableMic. keep.
Qed.

Lemma inv_new s roomId peerId name link options : inv (newRoomClient s roomId peerId name link options None).
Proof. split; [done|done|]. intros _. split; [done|done|done]. Qed.
Lemma inv_after l s roomId peerId name link options : inv (after l (newRoomClient s roomId peerId name link options None)).
Proof. apply after_invariant; [|apply inv_new]. intros a r. apply inv_act. Qed.

(** ** Audio-only mode *)

(** What leaves the video consumers paused. *)
Record calm (r r' : room) : Prop := {
  ca_closed : mClosed r = true -> mClosed r' = true;
  ca_audio : mClosed r' = false -> mAudioOnly (me (mStore r')) = mAudioOnly (me (mStore r));
  ca_consumers : forall id h, mConsumers r' !! id = Some h -> mConsumers r !! id = Some h;
  ca_heap : forall n c', heap_consumers r' !! n = Some c' -> exists c, heap_consumers r !! n = Some c /\
    c_kind c' = c_kind c /\ (c_kind c = "video" -> c_paused c = true -> c_paused c' = true) }.
#[export] Instance calm_preorder : PreOrder calm.
Proof.
  split; [intros r; split; [done|done|done|]; intros n c' Hc; by exists c'|]. intros r1 r2 r3 [] [].
  assert (Hcl : mClosed r3 = false -> mClosed r2 = false) by (intros Hc; destruct (mClosed r2); [|done]; by rewrite ca_closed1 in Hc).
  split; [auto| |auto|].
  - intros Hc. rewrite ca_audio1, ca_audio0; auto.
  - intros n c3 Hc3. destruct (ca_heap1 _ _ Hc3) as (c2 & Hc2 & Hk2 & Hp2). destruct (ca_heap0 _ _ Hc2) as (c1 & Hc1 & Hk1 & Hp1).
    exists c1. split; [done|]. split; [congruence|]. intros Hk Hp. apply Hp2; [congruence|auto].
Qed.
Lemma calm_quiet r r' : calm r r' -> mClosed r' = false -> quiet_video r -> quiet_video r'.
Proof.
  intros [] Hc Hq Ha id p n c' Hn Hc' Hk. destruct (ca_heap0 _ _ Hc') as (c & Hcn & Hkc & Hp). apply Hp; [congruence|].
  apply (Hq ltac:(by rewrite <- ca_audio0) id p n c); [auto|done|congruence].
Qed.
Lemma same_tracking_calm r r' : same_tracking r r' -> calm r r'.
Proof.
  intros []. split; [congruence|congruence|congruence|]. intros n c' Hc. rewrite st_heap0 in Hc. by exists c'.
Qed.
Lemma same_keeps_calm {A} (m : M room A) : keeps same_tracking m -> keeps calm m.
Proof. intros Hm r. apply same_tracking_calm, Hm. Qed.
Ltac calm_field := intros r; split; [done|done|try done|intros n c' Hc; by exists c'].

Lemma calm_store f : (forall s, mAudioOnly (me (f s)) = mAudioOnly (me s)) -> keeps calm (on_store f).
Proof. intros Hf. apply keeps_modify. intros r. split; [done|intros _; apply Hf|done|]. intros n c' Hc. by exists c'. Qed.
Lemma calm_transport f : keeps calm (modify (fun r => with_mRecvTransport (f r) r)).
Proof. apply keeps_modify. calm_field. Qed.
Lemma calm_delete id : keeps calm (modify (fun r => with_mConsumers (delete id (mConsumers r)) r)).
Proof. apply keeps_modify. calm_field. cbn. intros k h. rewrite lookup_delete_Some. by intros [_ ?]. Qed.
Lemma calm_change n f : (forall c, c_kind (f c) = c_kind c /\ (c_paused c = true -> c_paused (f c) = true)) -> keeps calm (change_consumer n f).
Proof.
  intros Hf. apply keeps_modify. intros r. split; [done|done|done|]. intros m c'. cbn. rewrite list_lookup_alter.
  destruct (decide (n = m)) as [->|]; [|intros Hc; by exists c'].
  destruct (heap_consumers r !! m) as [c|] eqn:E; [|done]. intros [= <-]. exists c. destruct (Hf c). auto.
Qed.
Lemma calm_consumer_at n : keeps calm (consumer_at n).
Proof. intros r. unfold consumer_at, bind. cbn. by destruct (heap_consumers r !! n). Qed.
Lemma calm_closed n : keeps calm (change_consumer n set_c_closed).
Proof. by apply calm_change. Qed.
Lemma calm_pause n : keeps calm (change_consumer n (set_c_paused true)).
Proof. apply calm_change. intros c. unfold set_c_paused. by destruct (c_closed c). Qed.
#[local] Hint Resolve calm_transport calm_delete calm_consumer_at calm_closed calm_pause : keeps.
#[local] Ltac keep_calm :=
  repeat match goal with
  | |- keeps calm (on_store _) => solve [by apply calm_store]
  | |- keeps calm (modify (with_mRecvTransport ?t)) => apply (calm_transport (fun _ => t))
  | |- keeps calm _ => solve [auto with keeps]
  | |- keeps calm _ => solve [apply same_keeps_calm; keep]
  | |- forall _, keeps _ _ => intros ?
  | |- keeps calm (bind _ _) => apply keeps_bind; [apply _|..]
  | |- keeps calm (when _ _) => apply keeps_when; [apply _|]
  | |- keeps calm (if ?b then _ else _) => destruct b
  | |- keeps calm (match ?b with _ => _ end) => destruct b
  | |- keeps calm (try_catch _ _ _) => apply keeps_try; [apply _|..]
  | |- keeps calm (for_list _ _) => apply keeps_for_list; [apply _|]
  end.

Lemma calm_consumer_closed n : keeps calm (consumer_transport_closed n).
Proof.
  unfold consumer_transport_closed. keep_calm. apply keeps_modify. intros r. destruct (isConnecting r); [|reflexivity].
  apply (calm_delete (c_id a) r).
Qed.
Lemma calm_dispose : keeps calm disposeTransportDevice.
Proof.
  unfold disposeTransportDevice. apply keeps_bind; [apply _|apply same_keeps_calm, keeps_close_send|]. intros _. unfold close_recv. keep_calm.
  apply calm_consumer_closed.
Qed.
Lemma calm_consumer_close n : keeps calm (consumer_close n).
Proof. unfold consumer_close. keep_calm. Qed.
#[local] Hint Resolve calm_consumer_close calm_dispose : keeps.
Lemma calm_with_holder id k : (forall h, keeps calm (k h)) -> keeps calm (with_holder id k).
Proof. intros Hk r. unfold with_holder, bind. cbn. destruct (mConsumers r !! id); [apply Hk|reflexivity]. Qed.
Lemma calm_notification n : keeps calm (handleNotification n).
Proof.
  unfold handleNotification. keep_calm; apply calm_with_holder; keep_calm.
Qed.
Lemma calm_pauseConsumer n : keeps calm (pauseConsumer n).
Proof. unfold pauseConsumer, consumer_pause. keep_calm. Qed.
Lemma calm_join : keeps calm joinImpl.
Proof. unfold joinImpl. keep_calm. Qed.

Lemma calm_modify f : (forall r, mClosed (f r) = mClosed r /\ mStore (f r) = mStore r /\ mConsumers (f r) = mConsumers r /\
  heap_consumers (f r) = heap_consumers r) -> keeps calm (modify f).
Proof.
  intros Hf. apply keeps_modify. intros r. destruct (Hf r) as (H1 & H2 & H3 & H4). split; [by rewrite H1|by rewrite H2|by rewrite H3|].
  rewrite H4. intros n c' Hc. by exists c'.
Qed.
Lemma calm_close : keeps calm close.
Proof.
  intros r. unfold close, post, on_store, modify, bind. cbn. destruct (mClosed r) eqn:E; [reflexivity|]. cbn.
  destruct (worker r); split; cbn; try done; intros n c' Hc; by exists c'.
Qed.
Lemma calm_closeImpl : keeps calm closeImpl.
Proof.
  unfold closeImpl. apply keeps_bind; [apply _|by apply calm_modify|]. intros _. apply keeps_bind; [apply _|apply calm_dispose|]. intros _.
  repeat (apply keeps_bind; [apply _|by apply calm_modify|intros _]). by apply calm_modify.
Qed.

(** Resuming a consumer of another kind. *)
Lemma calm_resume n r : (forall c, heap_consumers r !! n = Some c -> c_kind c <> "video") -> calm r (resumeConsumer n r).2.
Proof.
  intros Hk. destruct (resume_tracking n r) as [Hs|(c & Hc & Hs)]; [by apply same_tracking_calm|].
  etrans; [|apply same_tracking_calm, Hs]. split; [done|done|done|]. intros m c'. cbn. rewrite list_lookup_alter.
  destruct (decide (n = m)) as [<-|]; [|intros Hc'; by exists c']. rewrite Hc. intros [= <-]. exists c. split; [done|].
  split; [unfold set_c_paused; by destruct (c_closed c)|]. intros Hv. by destruct (Hk c Hc).
Qed.
Lemma calm_resume_kind kind : kind <> "video" -> keeps calm (for_kind kind resumeConsumer).
Proof.
  intros Hne. unfold for_kind. apply keeps_bind; [apply _|apply keeps_get; apply _|]. intros r0. apply keeps_for_list; [apply _|]. intros n r.
  unfold consumer_at, bind. cbn. destruct (heap_consumers r !! n) as [c|] eqn:E; [|reflexivity]. cbn.
  destruct (String.eqb_spec (c_kind c) kind) as [Hk|]; [|reflexivity]. apply calm_resume. intros c' Hc'. congruence.
Qed.
Lemma calm_pause_kind kind : keeps calm (for_kind kind pauseConsumer).
Proof. unfold for_kind. keep_calm. apply calm_pauseConsumer. Qed.

(** *** When the server answers *)

Hypothesis answering : forall k method req, exists data, reply k method req = Answers data.

Lemma change_paused_ok b n c method r : mProtoo r = true ->
  exists r', change_paused b n c method r = (Ok tt, r') /\ same_tracking (set_pause b n (c_id c) r) r'.
Proof.
  intros Hp. unfold change_paused, syncRequest, bind. cbn. rewrite Hp. cbn. destruct (answering (clock r) method [("consumerId", JString (c_id c))]) as [d ->].
  cbn. eexists. split; [done|]. by destruct b; split.
Qed.

(** Pausing, when it works: the consumer is paused, the others are as they were. *)
Record pausing (l : list nat) (r r' : room) : Prop := {
  pa_consumers : mConsumers r' = mConsumers r;
  pa_flags : same_flags r r';
  pa_protoo : mProtoo r' = mProtoo r;
  pa_heap : forall n c, heap_consumers r !! n = Some c -> exists c', heap_consumers r' !! n = Some c' /\
    c_id c' = c_id c /\ c_kind c' = c_kind c /\ c_closed c' = c_closed c /\ (c_paused c = true -> c_paused c' = true) /\
    (n ∈ l -> c_kind c = "video" -> c_paused c' = true) }.

Lemma pause_ok n c r : heap_consumers r !! n = Some c -> c_closed c = false -> isConnecting r = true -> mProtoo r = true ->
  exists r', pauseConsumer n r = (Ok tt, r') /\ pausing [n] r r'.
Proof.
  intros Hc Hcl Hcn Hp. rewrite pause_run, Hc, Hcn. cbn [negb orb]. destruct (c_paused c) eqn:Epc.
  - exists r. split; [done|]. split; [done|reflexivity|done|]. intros m c1 H1. exists c1. repeat split; auto.
    intros ->%list_elem_of_singleton _. congruence.
  - unfold try_catch. destruct (change_paused_ok true n c "pauseConsumer" r Hp) as (r' & -> & Hs). exists r'. split; [done|].
    pose proof (same_tracking_flags _ _ Hs). destruct Hs. split; [done|done|done|]. intros m c1 H1. rewrite st_heap0. cbn. rewrite list_lookup_alter.
    destruct (decide (n = m)) as [<-|Hne].
    + rewrite Hc. exists (set_c_paused true c). assert (c1 = c) as -> by congruence. unfold set_c_paused. rewrite Hcl. cbn. by rewrite Hcl.
    + exists c1. repeat split; auto. intros ->%list_elem_of_singleton. done.
Qed.
Lemma pausing_trans l l' r1 r2 r3 : pausing l r1 r2 -> pausing l' r2 r3 -> pausing (l ++ l') r1 r3.
Proof.
  intros [] []. split; [congruence|by etrans|congruence|]. intros n c Hc. destruct (pa_heap0 _ _ Hc) as (c2 & Hc2 & Hi2 & Hk2 & Hcl2 & Hp2 & Hl2).
  destruct (pa_heap1 _ _ Hc2) as (c3 & Hc3 & Hi3 & Hk3 & Hcl3 & Hp3 & Hl3). exists c3. split; [done|]. repeat split; try congruence; auto.
  intros [Hn|Hn]%elem_of_app Hk; [auto|]. apply Hl3; [done|congruence].
Qed.

Lemma pause_all l r : (forall n, n ∈ l -> exists c, heap_consumers r !! n = Some c /\ c_closed c = false) ->
  isConnecting r = true -> mProtoo r = true ->
  exists r', for_list l (fun n => c <- consumer_at n;; if String.eqb (c_kind c) "video" then pauseConsumer n else ret tt) r = (Ok tt, r') /\
    pausing l r r'.
Proof.
  revert r. induction l as [|n l IH]; intros r Hl Hcn Hp.
  { exists r. split; [done|]. split; [done|reflexivity|done|]. intros n c Hc. exists c. repeat split; auto. by intros ?%not_elem_of_nil. }
  destruct (Hl n) as (c & Hc & Hcl); [by constructor|].
  assert (exists r1, (c <- consumer_at n;; if String.eqb (c_kind c) "video" then pauseConsumer n else ret tt) r = (Ok tt, r1) /\ pausing [n] r r1)
    as (r1 & E1 & H1).
  { unfold consumer_at, bind. cbn. rewrite Hc. cbn. destruct (String.eqb_spec (c_kind c) "video") as [Hk|Hk]; [by eapply pause_ok|].
    exists r. split; [done|]. split; [done|reflexivity|done|]. intros m c1 Hm. exists c1. repeat split; auto. intros ->%list_elem_of_singleton Hv. congruence. }
  destruct (IH r1) as (r2 & E2 & H2).
  - intros m Hm. destruct (Hl m) as (c1 & Hc1 & Hcl1); [by constructor|]. destruct (pa_heap _ _ _ H1 _ _ Hc1) as (c2 & ? & _ & _ & ? & _).
    exists c2. split; [done|congruence].
  - by rewrite (connecting_flags _ _ (pa_flags _ _ _ H1)).
  - by rewrite (pa_protoo _ _ _ H1).
  - exists r2. cbn [for_list]. rewrite (bind_ok _ _ _ _ _ E1). split; [done|]. apply (pausing_trans [n] l _ _ _ H1 H2).
Qed.

Lemma resume_returns n r : (n < length (heap_consumers r))%nat ->
  (resumeConsumer n r).1 = Ok tt /\ length (heap_consumers (resumeConsumer n r).2) = length (heap_consumers r).
Proof.
  intros Hn. split.
  - rewrite resume_run. destruct (lookup_lt_is_Some_2 _ _ Hn) as [c ->]. destruct (_ || _); [done|]. unfold try_catch, change_paused, syncRequest, bind.
    cbn. destruct (mProtoo r); [|done]. cbn. destruct (answering (clock r) "resumeConsumer" [("consumerId", JString (c_id c))]) as [d ->]. done.
  - destruct (resume_tracking n r) as [[]|(c & _ & [])]; [congruence|]. rewrite st_heap0. apply length_alter.
Qed.
Lemma resume_all kind l r : (forall n, n ∈ l -> (n < length (heap_consumers r))%nat) ->
  (for_list l (fun n => c <- consumer_at n;; if String.eqb (c_kind c) kind then resumeConsumer n else ret tt) r).1 = Ok tt.
Proof.
  revert r. induction l as [|n l IH]; intros r Hl; [done|]. cbn [for_list].
  assert (exists r1, (c <- consumer_at n;; if String.eqb (c_kind c) kind then resumeConsumer n else ret tt) r = (Ok tt, r1) /\
    length (heap_consumers r1) = length (heap_consumers r)) as (r1 & E1 & H1).
  { assert (Hn : (n < length (heap_consumers r))%nat) by (apply Hl; by constructor). unfold consumer_at, bind. cbn.
    destruct (lookup_lt_is_Some_2 _ _ Hn) as [c ->]. cbn. destruct (String.eqb _ _); [|by exists r].
    destruct (resume_returns n r Hn) as [E1 H1]. destruct (resumeConsumer n r) as [o r1]. cbn in *. subst o. by exists r1. }
  rewrite (bind_ok _ _ _ _ _ E1). apply IH. intros m Hm. rewrite H1. apply Hl. by constructor.
Qed.

(** *** The steps *)

Definition quiet_inv (r : room) : Prop := inv r /\ (mClosed r = false -> quiet_video r).
Lemma calm_quiet_inv {A} (m : M room A) r : keeps (maintains inv) m -> calm r (m r).2 -> quiet_inv r -> quiet_inv (m r).2.
Proof.
  intros Hi Hc [Hr Hq]. split; [by apply Hi|]. intros Hcl. apply (calm_quiet r); [done..|]. apply Hq. destruct (mClosed r) eqn:E; [|done].
  by rewrite (ca_closed _ _ Hc E) in Hcl.
Qed.

Definition is_closed (r : room) : Prop := mClosed r = true.
Lemma closed_kind kind f b b' : keeps calm (for_kind kind f) ->
  keeps (maintains is_closed) (for_kind kind f;;; on_store (setAudioOnlyState b);;; on_store (setAudioOnlyInProgress b')).
Proof.
  intros Hf. apply keeps_bind; [apply _|intros r Hr; by apply (ca_closed _ _ (Hf r))|]. intros _. apply keeps_bind; [apply _|apply keeps_modify; intros r Hr; exact Hr|].
  intros _. apply keeps_modify. intros r Hr. exact Hr.
Qed.

Lemma held_heap r n : inv r -> mClosed r = false -> n ∈ held r -> exists c, heap_consumers r !! n = Some c /\ c_closed c = false.
Proof.
  intros Hi Hc (id & p & Hn)%elem_of_held. destruct (tr_shown _ (inv_tracked _ Hi Hc) _ _ _ Hn) as (c & w & ? & _ & ? & _). by exists c.
Qed.
Lemma held_protoo r n : inv r -> mClosed r = false -> n ∈ held r -> mProtoo r = true.
Proof.
  intros Hi Hc (id & p & Hn)%elem_of_held. destruct (mProtoo r) eqn:E; [done|]. destruct (tr_protoo _ (inv_tracked _ Hi Hc) E) as [_ He].
  by rewrite He in Hn.
Qed.

(** All of them are paused when the mode is set. *)
Lemma for_kind_paused r : inv r -> mClosed r = false ->
  exists r', for_kind "video" pauseConsumer r = (Ok tt, r') /\ pausing (held r) r r'.
Proof.
  intros Hi Hc. unfold for_kind, bind at 1. cbn [get]. destruct (held r) as [|n l] eqn:E.
  - exists r. split; [done|]. split; [done|reflexivity|done|]. intros n c Hn. exists c. repeat split; auto. by intros ?%not_elem_of_nil.
  - rewrite <- E. apply pause_all.
    + intros m Hm. by apply held_heap.
    + unfold isConnecting. by rewrite (inv_callback _ Hi), Hc.
    + apply (held_protoo r n); [done..|]. rewrite E. by constructor.
Qed.

Lemma quiet_audio_only r : quiet_inv r -> quiet_inv (perform WAudioOnly r).2.
Proof.
  intros [Hi Hq]. split; [by apply (inv_perform WAudioOnly)|]. intros Hcl. destruct (mClosed r) eqn:Hc.
  { by rewrite (closed_kind "video" pauseConsumer true false (calm_pause_kind _) r Hc) in Hcl. }
  cbn [perform] in *. destruct (for_kind_paused r Hi Hc) as (r' & E' & H'). rewrite (bind_ok _ _ _ _ _ E').
  intros _ id p n c Hn Hcn Hk. change (mConsumers r' !! id = Some (p, n)) in Hn. change (heap_consumers r' !! n = Some c) in Hcn.
  rewrite (pa_consumers _ _ _ H') in Hn. assert (Hh : n ∈ held r) by (apply elem_of_held; eauto).
  destruct (held_heap r n Hi Hc Hh) as (c0 & Hc0 & _). destruct (pa_heap _ _ _ H' _ _ Hc0) as (c1 & Hc1 & _ & Hk1 & _ & _ & Hp).
  assert (c1 = c) as -> by congruence. apply Hp; [done|congruence].
Qed.

Lemma quiet_no_audio_only r : quiet_inv r -> quiet_inv (perform WNoAudioOnly r).2.
Proof.
  intros [Hi Hq]. split; [by apply (inv_perform WNoAudioOnly)|]. intros Hcl Ha. exfalso. revert Ha. cbn [perform] in *.
  assert ((for_kind "video" resumeConsumer r).1 = Ok tt \/ mClosed r = true) as [E|Hc].
  { destruct (mClosed r) eqn:Hc; [by right|left]. unfold for_kind, bind at 1. cbn [get]. apply resume_all. intros n Hn.
    destruct (held_heap r n Hi Hc Hn) as (c & Hcn & _). by apply lookup_lt_Some in Hcn. }
  - unfold bind at 1. destruct (for_kind "video" resumeConsumer r) as [o r']. cbn [fst] in E. subst o. done.
  - revert Hcl. unfold bind at 1 2. pose proof (for_kind_closed "video" resumeConsumer r (fun n => resume_closed n r Hi Hc)) as Hr.
    destruct (for_kind "video" resumeConsumer r) as [[?|?|] r']; cbn [snd] in Hr; subst r'; cbn; by rewrite Hc.
Qed.

(** A new video consumer is paused at once. *)
Lemma added_heap t peerId id kind type b r : all_shown r -> quiet_video r -> mAudioOnly (me (mStore r)) = true ->
  forall id' p n c, mConsumers (added t peerId id kind type b r) !! id' = Some (p, n) ->
  heap_consumers (added t peerId id kind type b r) !! n = Some c -> c_kind c = "video" ->
  (n = length (heap_consumers r) /\ kind = "video") \/ c_paused c = true.
Proof.
  intros Hs Hq Ha id' p n c. unfold added. cbn [mConsumers with_mStore with_mConsumers]. rewrite lookup_insert_Some.
  cbn [heap_consumers with_mStore with_mConsumers with_mRecvTransport with_heap_consumers]. intros [[-> [= <- <-]]|[Hne Hn]].
  - rewrite list_lookup_middle by done. intros [= <-] Hv. by left.
  - destruct (Hs _ _ _ Hn) as (c0 & w & Hc0 & _). rewrite lookup_app_l by (by apply lookup_lt_Some in Hc0).
    intros Hc Hv. right. by eapply Hq.
Qed.

Lemma quiet_made request data r : quiet_inv r -> mClosed r = false ->
  quiet_video ((n <- consumer_made request data;; r <- get;;
    when (String.eqb (optString "kind" data) "video" && mAudioOnly (me (mStore r))) (pauseConsumer n)) r).2.
Proof.
  intros [Hi Hq] Hc. specialize (Hq Hc). destruct (consumer_made_run request data r) as [(e & He & Hs & _)|(t & Ht & He & Hs & _)]; unfold bind;
    destruct (consumer_made request data r) as [o r1]; cbn [fst snd] in He, Hs; subst o; [by eapply same_tracking_quiet|]. cbn [get].
  pose proof (added_heap t (optString "peerId" data) (optString "id" data) (optString "kind" data) (optString "type" data)
    (optBoolean "producerPaused" data) r (tr_shown _ (inv_tracked _ Hi Hc)) Hq) as Hh.
  assert (Ha1 : mAudioOnly (me (mStore r1)) = mAudioOnly (me (mStore r))) by apply (st_audio _ _ Hs).
  destruct (String.eqb_spec (optString "kind" data) "video") as [Hk|Hk].
  2: { cbn. apply (same_tracking_quiet _ _ Hs). intros Ha id p n c Hn Hcn Hv. destruct (Hh Ha id p n c Hn Hcn Hv) as [[_ ?]|?]; done. }
  destruct (mAudioOnly (me (mStore r1))) eqn:Ea; cbn [andb when].
  2: { intros Ha. cbn in Ha. congruence. }
  assert (inv r1) as Hi1 by (eapply same_tracking_inv; [exact Hs|by apply added_inv]).
  assert (Hc1 : mClosed r1 = false) by (rewrite <- Hc; apply (st_closed _ _ Hs)).
  destruct (pause_ok (length (heap_consumers r)) (mkMediaConsumer (optString "id" data) (optString "kind" data) false false) r1) as (r2 & E2 & H2).
  - rewrite (st_heap _ _ Hs). cbn. by rewrite list_lookup_middle.
  - done.
  - unfold isConnecting. by rewrite (inv_callback _ Hi1), Hc1.
  - destruct (mProtoo r1) eqn:E; [done|]. destruct (tr_protoo _ (inv_tracked _ Hi1 Hc1) E) as [E' _]. by rewrite (st_transport _ _ Hs) in E'.
  - rewrite E2. cbn [snd]. intros _ id p n c2 Hn Hc2 Hv. rewrite (pa_consumers _ _ _ H2), (st_consumers _ _ Hs) in Hn.
    assert (exists c1, heap_consumers r1 !! n = Some c1) as [c1 Hc1n].
    { destruct (tr_shown _ (inv_tracked _ Hi1 Hc1) id p n) as (c1 & ? & ? & _); [by rewrite (st_consumers _ _ Hs)|by exists c1]. }
    destruct (pa_heap _ _ _ H2 _ _ Hc1n) as (c2' & Hc2' & _ & Hk2 & _ & Hp & Hl). assert (c2' = c2) as -> by congruence.
    destruct (Hh (eq_sym Ha1) id p n c1 Hn) as [[-> _]|?]; [by rewrite <- (st_heap _ _ Hs)|congruence| |auto].
    apply Hl; [by constructor|congruence].
Qed.

(** Handlers of exceptions that leave the consumers alone. *)
Lemma quiet_try {A} (m : M room A) p h r : (forall e, keeps same_tracking (h e)) -> quiet_video (m r).2 -> quiet_video (try_catch m p h r).2.
Proof.
  intros Hh Hm. unfold try_catch. destruct (m r) as [[a|e|] r1]; [done| |done]. cbn in *. destruct (p e); [|done].
  by apply (same_tracking_quiet _ _ (Hh e r1)).
Qed.

Lemma quiet_onNewConsumer q r : quiet_inv r -> mClosed r = false -> quiet_video (onNewConsumer q r).2.
Proof.
  intros Hr Hc. pose proof (proj2 Hr Hc) as Hq. rewrite onNewConsumer_run. destruct (negb _); [by apply (same_tracking_quiet _ _ (keeps_answer _ _ r))|].
  apply quiet_try; [apply keeps_notify_error|]. destruct (rq_data q) as [data|]; [|done]. by apply quiet_made.
Qed.

Lemma flags_pauseConsumer n : keeps same_flags (pauseConsumer n).
Proof.
  intros r. destruct (pause_tracking n r) as [Hs|(c & _ & Hs)]; [by apply same_tracking_flags|].
  etrans; [|apply same_tracking_flags, Hs]. by split.
Qed.
Lemma flags_made q data : keeps same_flags (consumer_made q data).
Proof.
  intros r. destruct (consumer_made_run q data r) as [(e & _ & Hs & _)|(t & _ & _ & Hs & _)]; [by apply same_tracking_flags|].
  etrans; [|apply same_tracking_flags, Hs]. by split.
Qed.
Lemma flags_onNewConsumer q : keeps same_flags (onNewConsumer q).
Proof.
  intros r. rewrite onNewConsumer_run. destruct (negb _); [apply same_keeps_flags, keeps_answer|].
  apply (keeps_try same_flags); [|intros e; apply same_keeps_flags, keeps_notify_error]. apply keeps_bind; [apply _|apply same_keeps_flags, keeps_non_null|].
  intros data. apply keeps_bind; [apply _|apply flags_made|]. intros n. apply keeps_bind; [apply _|apply keeps_get; apply _|]. intros r0.
  apply keeps_when; [apply _|apply flags_pauseConsumer].
Qed.

Lemma flags_handleRequest q : keeps same_flags (handleRequest q).
Proof.
  unfold handleRequest. apply keeps_try; [apply _| |intros e; apply keeps_ret; apply _]. destruct (String.eqb _ _); [apply flags_onNewConsumer|].
  destruct (String.eqb _ _); apply same_keeps_flags; unfold onNewDataConsumer; apply keeps_answer.
Qed.
Lemma quiet_handleRequest q r : quiet_inv r -> quiet_inv (perform (WRequest q) r).2.
Proof.
  intros Hr. split; [apply (inv_perform (WRequest q) eq_refl), Hr|]. intros Hc. cbn [perform] in *. rewrite (sf_closed _ _ (flags_handleRequest q r)) in Hc.
  unfold handleRequest. apply quiet_try; [intros e; apply keeps_ret; apply _|]. destruct (String.eqb _ _); [by apply quiet_onNewConsumer|].
  pose proof (proj2 Hr Hc) as Hq. destruct (String.eqb _ _); by apply (same_tracking_quiet _ _ (keeps_answer _ _ r)).
Qed.

Definition special (w : work) : bool := match w with WAudioOnly | WNoAudioOnly | WRequest _ => true | _ => false end.
Lemma calm_perform w : special w = false -> keeps calm (perform w).
Proof.
  intros Hw. destruct w; try discriminate Hw; cbn [perform]; try solve [keep_calm].
  - by apply calm_modify.
  - keep_calm. apply calm_join.
  - keep_calm. apply calm_notification.
  - keep_calm. apply calm_close.
  - apply calm_closeImpl.
  - apply calm_pause_kind.
  - by apply calm_resume_kind.
Qed.
Lemma quiet_perform w r : quiet_inv r -> (closes w = true -> mClosed r = true) -> quiet_inv (perform w r).2.
Proof.
  intros Hr Hw. destruct (special w) eqn:Es.
  { destruct w; try discriminate Es; [by apply quiet_handleRequest|by apply quiet_audio_only|by apply quiet_no_audio_only]. }
  destruct (closes w) eqn:Ew.
  - destruct w; try discriminate Ew. cbn [perform]. split; [apply inv_closeImpl; [apply Hr|by apply Hw]|]. intros Hc.
    by rewrite (ca_closed _ _ (calm_closeImpl r) (Hw eq_refl)) in Hc.
  - apply calm_quiet_inv; [by apply inv_perform|by apply calm_perform|done].
Qed.

Lemma quiet_same {A} (m : M room A) r : keeps same_tracking m -> quiet_inv r -> quiet_inv (m r).2.
Proof. intros Hm. apply calm_quiet_inv; [by apply same_keeps_inv|by apply same_tracking_calm]. Qed.

Lemma quiet_run_work r : quiet_inv r -> quiet_inv (run_work r).2.
Proof.
  intros [Hi Hq]. unfold run_work, bind. cbn [get]. destruct (worker r) as [[|w q]|] eqn:Hw; [done| |done]. cbn [put].
  assert (will_close r = closes w || existsb closes q) as Hwc by (unfold will_close; by rewrite Hw).
  apply quiet_perform.
  - split; [|exact Hq]. destruct Hi as [Hcb Hcl Ht]. split; [done| |by intros Hc; destruct (Ht Hc); split]. intros Hb. apply Hcl. rewrite Hwc.
    apply orb_true_iff. by right.
  - intros Hb. apply (inv_close r Hi). by rewrite Hwc, Hb.
Qed.

Lemma quiet_close r : quiet_inv r -> quiet_inv (close r).2.
Proof. apply calm_quiet_inv; [apply inv_close_room|apply calm_close]. Qed.

Lemma quiet_act a r : quiet_inv r -> quiet_inv (act a r).2.
Proof.
  destruct a; cbn [act]; try apply quiet_run_work; try apply quiet_close.
  all: try solve [apply quiet_same; unfold joinRoom, enableMic, disableMic, muteMic, unmuteMic, enableCam, disableCam, enableShare, startEnableShare,
    disableShare, enableAudioOnly, disableAudioOnly, muteAudio, unmuteAudio, restartIce, requestConsumerKeyFrame, changeDisplayName, if_connecting,
    enableCam, disableCam, room_onOpen, room_onFail, room_onRequest, room_onNotification, room_onDisconnected, room_onClose, onConnect; keep].
  intros Hi. unfold run_main, bind. cbn [get]. destruct (main r) as [|c q] eqn:E; [done|]. cbn [put].
  assert (quiet_inv (with_main q r)) as Hi'.
  { destruct Hi as [Hi Hq]. split; [|exact Hq]. eapply same_tracking_inv; [|exact Hi]. by split. }
  destruct c; [apply (quiet_same enableMic); [unfold enableMic; keep|done]|apply (quiet_same enableCam); [unfold enableCam; keep|done]|by apply quiet_close].
Qed.
Lemma quiet_after l s roomId peerId name link options : quiet_inv (after l (newRoomClient s roomId peerId name link options None)).
Proof. apply after_invariant; [intros a r; apply quiet_act|]. split; [apply inv_new|]. by intros _ _ id p n c Hn. Qed.

End steps.

Section claims.
Context `{OrgJson} `{EV : Env}.


(** ** Requests of the server *)

Lemma pause_replied n r : replied (pauseConsumer n r).2 = replied r.
Proof.
  rewrite pause_run. destruct (heap_consumers r !! n) as [c|]; [|done]. destruct (_ || _); [done|].
  unfold try_catch, change_paused, syncRequest, notify_error, bind. cbn. destruct (mProtoo r); [|done]. cbn. by destruct (reply _ _ _).
Qed.

Lemma made_replied q data r o r' :
  (n <- consumer_made q data;; r <- get;;
   when (String.eqb (optString "kind" data) "video" && mAudioOnly (me (mStore r))) (pauseConsumer n)) r = (o, r') ->
  (exists e, o = Throw (Java e) /\ replied r' = replied r) \/ replied r' = replied r ++ [(q, Accepted)].
Proof.
  unfold bind at 1. destruct (consumer_made_run q data r) as [(e & He & _ & Hr)|(t & _ & He & _ & Hr)];
    destruct (consumer_made q data r) as [o1 r1]; cbn [fst snd] in He, Hr; subst o1.
  - intros [= <- <-]. left. by exists e.
  - unfold bind. cbn [get]. intros E. right. rewrite <- Hr. destruct (_ && _); [|by injection E as <- <-]. cbn [when] in E.
    pose proof (pause_replied (length (heap_consumers r)) r1) as Hp. by rewrite E in Hp.
Qed.

Lemma onNewConsumer_replied q data r o r' : rq_data q = Some data -> onNewConsumer q r = (o, r') ->
  (exists a, replied r' = replied r ++ [(q, a)]) \/
  (replied r' = replied r /\ exists text, notify (mStore r') = Some (newNotify "error" ("Error creating a Consumer: " ++ text) 0)).
Proof.
  intros Hd. rewrite onNewConsumer_run, Hd. destruct (negb _); [intros [= <- <-]; left; by eexists|]. unfold try_catch. cbn [non_null].
  rewrite (bind_ok (ret data) _ r r data eq_refl).
  destruct ((n <- consumer_made q data;; r <- get;; _) r) as [o1 r1] eqn:E. destruct (made_replied q data r o1 r1 E) as [(e & -> & Hr)|Hr].
  - intros [= <- <-]. right. split; [done|by eexists].
  - intros Ho. left. exists Accepted. destruct o1 as [u|e|]; [by injection Ho as <- <-| |by injection Ho as <- <-].
    destruct (is_exception e); by injection Ho as <- <-.
Qed.


End claims.

(** ** Witnesses *)

(** A server that lists a peer, and texts for its answers. *)
Definition room_json : OrgJson := {|
  new_JSONObject s := if String.eqb s "transport" then Some [("id", JString "t1")]
                      else if String.eqb s "joined" then Some [("peers", JArray [JObject [("id", JString "alice")]])]
                      else if String.eqb s "producer" then Some [("id", JString "p1")] else None;
  toString _ := "";
  toLong _ := None |}.
Definition room_env : Env := {|
  reply _ method _ := Answers (if String.eqb method "createWebRtcTransport" then "transport"
                               else if String.eqb method "join" then "joined"
                               else if String.eqb method "produce" then "producer" else "{}");
  native _ _ _ := Returns "";
  canProduce _ _ := true;
  available _ _ := true;
  null_message := "null";
  no_object_message _ := "not an object" |}.
Lemma room_env_answers k method req : exists data, reply (Env := room_env) k method req = Answers data.
Proof. by eexists. Qed.

Definition sample_options : RoomOptions := mkRoomOptions unknownDevice false true true false false false.
Abbreviation run_room l :=
  (after (H := room_json) (EV := room_env) l (newRoomClient newRoomStore "room" "me" "Me" "link" sample_options None)).

(** The room is joined; a video consumer of alice is added. *)
Definition sample_join : list action := [AWork; AJoinRoom; AWork; AOnOpen; AWork].
Definition sample_consumer : Request :=
  mkRequest "newConsumer" 5 (Some [("id", JString "c1"); ("kind", JString "video"); ("peerId", JString "alice")]).
Definition sample_video : list action := sample_join ++ [AEnableAudioOnly; AWork; AWork; AOnRequest sample_consumer; AWork].




(** In a room whose audio is muted a new audio consumer plays. *)
Example muted_room_plays_new_audio :
  let q := mkRequest "newConsumer" 6 (Some [("id", JString "c2"); ("kind", JString "audio"); ("peerId", JString "alice")]) in
  let r := run_room (sample_join ++ [AMuteAudio; AWork; AOnRequest q; AWork]) in
  mAudioMuted (me (mStore r)) = true /\ heap_consumers r = [mkMediaConsumer "c2" "audio" false false].
Proof. vm_compute. auto. Qed.

(** A request for a key frame names no consumer. *)
Example key_frame_request id : asked (run_room (sample_join ++ [AKeyFrame id; AWork])) =
  asked (run_room sample_join) ++ [("requestConsumerKeyFrame"%string, [("consumerId", JString "consumerId")])].
Proof. vm_compute. reflexivity. Qed.
