(* ===== verification/RoomLifeSpec.v ===== *)
(** * The life of a room

    What is left of a room when it is closed, and what happens while its
    signalling connection is lost. *)

From stdpp Require Import base list gmap strings sets.
From Stdlib Require Import ZArith Lia.
From S2P Require Import Prelude Keeps Json Java Protoo RoomStore RoomClient RoomSpec.
Open Scope Z_scope.

Section life.
Context `{OrgJson} `{EV : Env}.

(** ** A closed room *)

(** The objects that closing visits are in the heap. *)
Definition refers_p (r : room) (n : nat) : Prop :=
  (exists t id, mSendTransport r = Some t /\ mt_objects t !! id = Some n) \/ mMicProducer r = Some n \/ mCamProducer r = Some n.
Definition refers_c (r : room) (n : nat) : Prop := exists t id, mRecvTransport r = Some t /\ mt_objects t !! id = Some n.
Definition valid (r : room) : Prop :=
  (forall n, refers_p r n -> (n < length (heap_producers r))%nat) /\ (forall n, refers_c r n -> (n < length (heap_consumers r))%nat).
Record sound (r r' : room) : Prop := {
  so_p : (length (heap_producers r) <= length (heap_producers r'))%nat;
  so_c : (length (heap_consumers r) <= length (heap_consumers r'))%nat;
  so_rp : forall n, refers_p r' n -> refers_p r n \/ (n < length (heap_producers r'))%nat;
  so_rc : forall n, refers_c r' n -> refers_c r n \/ (n < length (heap_consumers r'))%nat }.
#[export] Instance sound_preorder : PreOrder sound.
Proof.
  split; [intros r; split; auto|]. intros r1 r2 r3 [] []. split; [lia|lia|..].
  - intros n [?|?]%so_rp1; [|by right]. destruct (so_rp0 n) as [?|?]; [done|by left|right; lia].
  - intros n [?|?]%so_rc1; [|by right]. destruct (so_rc0 n) as [?|?]; [done|by left|right; lia].
Qed.
Lemma sound_valid r r' : sound r r' -> valid r -> valid r'.
Proof.
  intros [] [Hp Hc]. split.
  - intros n [Hn|?]%so_rp0; [|done]. apply Hp in Hn. lia.
  - intros n [Hn|?]%so_rc0; [|done]. apply Hc in Hn. lia.
Qed.

Lemma sound_change_producer n f : keeps sound (change_producer n f).
Proof. apply keeps_modify. intros r. split; cbn; rewrite ?length_alter; auto. Qed.
Lemma sound_change_consumer n f : keeps sound (change_consumer n f).
Proof. apply keeps_modify. intros r. split; cbn; rewrite ?length_alter; auto. Qed.
Lemma sound_erase_send id : keeps sound (modify (fun r => with_mSendTransport (erase_object id <$> mSendTransport r) r)).
Proof.
  apply keeps_modify. intros r. split; cbn; [done|done| |by left]. intros n [(t & id' & Ht & Hn)|Hn]; [|left; by right].
  apply fmap_Some in Ht as (t0 & Ht & ->). cbn [mt_objects erase_object] in Hn. apply lookup_delete_Some in Hn as [_ Hn]. left. left. by exists t0, id'.
Qed.
Lemma sound_erase_recv id : keeps sound (modify (fun r => with_mRecvTransport (erase_object id <$> mRecvTransport r) r)).
Proof.
  apply keeps_modify. intros r. split; cbn; [done|done|by left|]. intros n (t & id' & Ht & Hn).
  apply fmap_Some in Ht as (t0 & Ht & ->). cbn [mt_objects erase_object] in Hn. apply lookup_delete_Some in Hn as [_ Hn]. left. by exists t0, id'.
Qed.
Lemma sound_delete n : keeps sound (modify (fun r => if isConnecting r then with_mConsumers (delete n (mConsumers r)) r else r)).
Proof. apply keeps_modify. intros r. destruct (isConnecting r); split; auto. Qed.
Lemma sound_post w : keeps sound (post w).
Proof. apply keeps_modify. intros r. destruct (worker r); split; auto. Qed.
Lemma sound_tell e : keeps sound (tell e).
Proof. apply keeps_modify. intros r. destruct (connectCallback r); split; auto. Qed.
Lemma sound_native op args : keeps sound (call_native op args).
Proof. intros r. unfold call_native, bind. cbn. destruct (native _ _ _); split; auto. Qed.
Lemma sound_request m q : keeps sound (syncRequest m q).
Proof. intros r. unfold syncRequest, bind. cbn. destruct (mProtoo r); [|reflexivity]. cbn. destruct (reply _ _ _); split; auto. Qed.
Lemma sound_non_null {A} (o : option A) : keeps sound (non_null o).
Proof. intros r. destruct o; reflexivity. Qed.
Lemma sound_json t : keeps sound (jsonObject t).
Proof. intros r. unfold jsonObject. destruct (new_JSONObject t); reflexivity. Qed.
Lemma sound_null {A} : keeps sound (@null A).
Proof. intros r. reflexivity. Qed.
Lemma sound_with_holder id k : (forall h, keeps sound (k h)) -> keeps sound (with_holder id k).
Proof. intros Hk r. unfold with_holder, bind. cbn. destruct (mConsumers r !! id); [apply Hk|reflexivity]. Qed.
#[local] Hint Resolve sound_change_producer sound_change_consumer sound_erase_send sound_erase_recv sound_delete sound_post sound_tell sound_native
  sound_request sound_non_null sound_json sound_null : keeps.
Ltac sound_field := intros; split; auto.
#[local] Ltac keep_special ::=
  match goal with
  | |- keeps sound (bind get (fun r => let _ := _ in _)) => cbv zeta
  | |- keeps sound (bind get (fun r => bind (put _) _)) => apply keeps_get_put; [apply _|sound_field|intros ? ?]
  | |- keeps sound _ => solve [auto with keeps nocore]
  | |- keeps sound (with_holder _ _) => apply sound_with_holder
  | |- keeps sound (modify _) => apply keeps_modify; solve [sound_field]
  | |- keeps sound (on_store _) => apply keeps_modify; solve [sound_field]
  | |- keeps sound (notify_error _ _) => apply keeps_modify; solve [sound_field]
  | |- keeps sound (answer _ _) => apply keeps_modify; solve [sound_field]
  | |- keeps sound (post_main _) => apply keeps_modify; solve [sound_field]
  end.
Lemma sound_producer_at n : keeps sound (producer_at n).
Proof. unfold producer_at. keep. Qed.
Lemma sound_consumer_at n : keeps sound (consumer_at n).
Proof. unfold consumer_at. keep. Qed.
#[local] Hint Resolve sound_producer_at sound_consumer_at : keeps.
Lemma sound_notification n : keeps sound (handleNotification n).
Proof. unfold handleNotification, consumer_close. keep. Qed.

(** What requests and native calls do not touch. *)
Definition same_media (r r' : room) : Prop :=
  mSendTransport r' = mSendTransport r /\ mRecvTransport r' = mRecvTransport r /\ mMicProducer r' = mMicProducer r /\
  mCamProducer r' = mCamProducer r /\ heap_producers r' = heap_producers r /\ heap_consumers r' = heap_consumers r.
#[export] Instance same_media_preorder : PreOrder same_media.
Proof. split; [done|]. unfold same_media. intros r1 r2 r3 (? & ? & ? & ? & ? & ?) (? & ? & ? & ? & ? & ?). repeat split; congruence. Qed.
Lemma media_native op args : keeps same_media (call_native op args).
Proof. intros r. unfold call_native, bind. cbn. by destruct (native _ _ _). Qed.
Lemma media_request m q : keeps same_media (syncRequest m q).
Proof. intros r. unfold syncRequest, bind. cbn. destruct (mProtoo r); [|done]. cbn. by destruct (reply _ _ _). Qed.
Lemma media_json t : keeps same_media (jsonObject t).
Proof. intros r. unfold jsonObject. by destruct (new_JSONObject t). Qed.
#[local] Hint Resolve media_native media_request media_json : keeps.
Lemma media_onProduce id kind p a : keeps same_media (onProduce id kind p a).
Proof. unfold onProduce, fetchProduceId. keep. Qed.

Lemma media_sound r r' : same_media r r' -> sound r r'.
Proof.
  intros (H1 & H2 & H3 & H4 & H5 & H6). split; [by rewrite H5|by rewrite H6|..]; intros n.
  - unfold refers_p. rewrite H1, H3, H4. auto.
  - unfold refers_c. rewrite H2. auto.
Qed.

(** The transport read before is the one that is changed. *)
Lemma consume_run id producerId kind rtp app r o r' : consume id producerId kind rtp app r = (o, r') ->
  (same_media r r' /\ exists e, o = Throw e) \/
  exists t r1, mRecvTransport r = Some t /\ same_media r r1 /\ o = Ok (length (heap_consumers r1)) /\
    r' = with_mRecvTransport (Some (mkMediaTransport (mt_id t) (<[id := length (heap_consumers r1)]> (mt_objects t))))
           (with_heap_consumers (heap_consumers r1 ++ [mkMediaConsumer id kind false false]) r1).
Proof.
  unfold consume, bind at 1. cbn [get]. destruct (mRecvTransport r) as [t|] eqn:Et; cbn [non_null]; [|intros [= <- <-]; left; split; [done|by eexists]].
  rewrite (bind_ok (ret t) _ r r t eq_refl). unfold bind at 1. pose proof (media_native "consume" [id; producerId; kind; rtp; app] r) as Hm.
  destruct (call_native "consume" [id; producerId; kind; rtp; app] r) as [[x|e|] r1] eqn:En; cbn [snd] in Hm.
  - intros [= <- <-]. right. exists t, r1. done.
  - intros [= <- <-]. left. split; [done|by eexists].
  - exfalso. revert En. unfold call_native, bind. cbn. by destruct (native _ _ _).
Qed.

Lemma sound_consume id producerId kind rtp app : keeps sound (consume id producerId kind rtp app).
Proof.
  intros r. destruct (consume id producerId kind rtp app r) as [o r'] eqn:E. cbn.
  destruct (consume_run _ _ _ _ _ _ _ _ E) as [[Hm _]|(t & r1 & Ht & (H1 & H2 & H3 & H4 & H5 & H6) & _ & ->)].
  - by apply media_sound.
  - split; cbn; rewrite ?length_app, ?H5, ?H6; cbn; [done|lia|..].
    + intros n. unfold refers_p. cbn. rewrite H1, H3, H4. auto.
    + intros n (t' & id' & [= <-] & Hn). cbn in Hn. apply lookup_insert_Some in Hn as [[_ <-]|[_ Hn]]; [right; lia|left; by exists t, id'].
Qed.

Lemma produce_run kind use r o r' : produce kind use r = (o, r') ->
  (same_media r r' /\ forall n, o <> Ok n) \/
  exists t r1 id, mSendTransport r = Some t /\ same_media r r1 /\ o = Ok (length (heap_producers r1)) /\
    r' = with_mSendTransport (Some (mkMediaTransport (mt_id t) (<[id := length (heap_producers r1)]> (mt_objects t))))
           (with_heap_producers (heap_producers r1 ++ [mkMediaProducer id use false false]) r1).
Proof.
  unfold produce, bind at 1. cbn [get]. destruct (mSendTransport r) as [t|] eqn:Et; cbn [non_null]; [|intros [= <- <-]; left; by split].
  rewrite (bind_ok (ret t) _ r r t eq_refl). unfold bind at 1. pose proof (media_native "produce" [kind] r) as Hm.
  destruct (call_native "produce" [kind] r) as [[x|e|] r1]; cbn [snd] in Hm; [|intros [= <- <-]; left; by split..].
  unfold bind at 1. pose proof (media_onProduce (mt_id t) kind x "{}" r1) as Hp.
  destruct (onProduce (mt_id t) kind x "{}" r1) as [[id|e|] r2]; cbn [snd] in Hp; [|intros [= <- <-]; left; split; [by etrans|done]..].
  intros [= <- <-]. right. exists t, r2, id. split; [done|]. split; [by etrans|done].
Qed.
Lemma sound_produce kind use : keeps sound (produce kind use).
Proof.
  intros r. destruct (produce kind use r) as [o r'] eqn:E. cbn.
  destruct (produce_run _ _ _ _ _ E) as [[Hm _]|(t & r1 & id & Ht & (H1 & H2 & H3 & H4 & H5 & H6) & _ & ->)].
  - by apply media_sound.
  - split; cbn; rewrite ?length_app, ?H5, ?H6; cbn; [lia|done|..].
    + intros n [(t' & id' & [= <-] & Hn)|Hn].
      * cbn in Hn. apply lookup_insert_Some in Hn as [[_ <-]|[_ Hn]]; [right; lia|left; left; by exists t, id'].
      * left. right. cbn in Hn. by rewrite H3, H4 in Hn.
    + intros n. unfold refers_c. cbn. rewrite H2. auto.
Qed.
Lemma produce_fresh kind use r n r' : produce kind use r = (Ok n, r') -> (n < length (heap_producers r'))%nat.
Proof.
  intros E. destruct (produce_run _ _ _ _ _ E) as [[_ Hn]|(t & r1 & id & _ & _ & [= ->] & ->)]; [by destruct (Hn n)|].
  cbn. rewrite length_app. cbn. lia.
Qed.

(** The producer becomes the one of the room. *)
Lemma sound_mic n r : (n < length (heap_producers r))%nat -> sound r (with_mMicProducer (Some n) r).
Proof.
  intros Hn. split; [done|done| |by left]. intros m [Hm|[Hm|Hm]]; [left; by left| |left; right; by right]. cbn in Hm. injection Hm as <-. by right.
Qed.
Lemma sound_cam n r : (n < length (heap_producers r))%nat -> sound r (with_mCamProducer (Some n) r).
Proof.
  intros Hn. split; [done|done| |by left]. intros m [Hm|[Hm|Hm]]; [left; by left|left; right; by left|]. cbn in Hm. injection Hm as <-. by right.
Qed.
Lemma sound_mic_none : keeps sound (modify (with_mMicProducer None)).
Proof. apply keeps_modify. intros r. split; [done|done| |by left]. intros m [Hm|[Hm|Hm]]; [left; by left|done|left; right; by right]. Qed.
Lemma sound_cam_none : keeps sound (modify (with_mCamProducer None)).
Proof. apply keeps_modify. intros r. split; [done|done| |by left]. intros m [Hm|[Hm|Hm]]; [left; by left|left; right; by left|done]. Qed.
Lemma sound_send t : mt_objects t = ∅ -> keeps sound (modify (with_mSendTransport (Some t))).
Proof.
  intros Ht. apply keeps_modify. intros r. split; [done|done| |by left]. intros n [(t' & id & [= <-] & Hn)|Hn]; [by rewrite Ht, lookup_empty in Hn|].
  left. by right.
Qed.
Lemma sound_recv t : mt_objects t = ∅ -> keeps sound (modify (with_mRecvTransport (Some t))).
Proof.
  intros Ht. apply keeps_modify. intros r. split; [done|done|by left|]. intros n (t' & id & [= <-] & Hn). by rewrite Ht, lookup_empty in Hn.
Qed.
Lemma sound_no_send : keeps sound (modify (with_mSendTransport None)).
Proof. apply keeps_modify. intros r. split; [done|done| |by left]. intros n [(t' & id & [=] & _)|Hn]. left. by right. Qed.
Lemma sound_no_recv : keeps sound (modify (with_mRecvTransport None)).
Proof. apply keeps_modify. intros r. split; [done|done|by left|]. intros n (t' & id & [=] & _). Qed.
#[local] Hint Resolve sound_consume sound_produce sound_mic_none sound_cam_none sound_no_send sound_no_recv : keeps.

Lemma sound_produce_mic (k : nat -> M room unit) : (forall n, keeps sound (k n)) ->
  keeps sound (n <- produce "audio" Mic;; modify (with_mMicProducer (Some n));;; k n).
Proof.
  intros Hk. apply keeps_bind_returns; [apply _|apply sound_produce|]. intros r n r' Hn%produce_fresh. cbn. etrans; [by apply sound_mic|]. apply Hk.
Qed.
Lemma sound_produce_cam use (k : nat -> M room unit) : (forall n, keeps sound (k n)) ->
  keeps sound (n <- produce "video" use;; modify (with_mCamProducer (Some n));;; k n).
Proof.
  intros Hk. apply keeps_bind_returns; [apply _|apply sound_produce|]. intros r n r' Hn%produce_fresh. cbn. etrans; [by apply sound_cam|]. apply Hk.
Qed.
Lemma sound_create b : keeps sound (createTransport b).
Proof. unfold createTransport. keep. Qed.
Lemma sound_create_send : keeps sound (t <- createTransport true;; modify (with_mSendTransport (Some t))).
Proof.
  apply keeps_bind_returns; [apply _|apply sound_create|]. intros r t r' [Ht _]%createTransport_run. by apply sound_send.
Qed.
Lemma sound_create_recv : keeps sound (t <- createTransport false;; modify (with_mRecvTransport (Some t))).
Proof.
  apply keeps_bind_returns; [apply _|apply sound_create|]. intros r t r' [Ht _]%createTransport_run. by apply sound_recv.
Qed.
#[local] Hint Resolve sound_create_send sound_create_recv : keeps.
#[local] Ltac keep_special ::=
  match goal with
  | |- keeps sound (bind (produce "audio" Mic) _) => apply sound_produce_mic
  | |- keeps sound (bind (produce "video" _) _) => apply sound_produce_cam
  | |- keeps sound (bind get (fun r => let _ := _ in _)) => cbv zeta
  | |- keeps sound (bind get (fun r => bind (put _) _)) => apply keeps_get_put; [apply _|sound_field|intros ? ?]
  | |- keeps sound _ => solve [auto with keeps nocore]
  | |- keeps sound (with_holder _ _) => apply sound_with_holder
  | |- keeps sound (modify _) => apply keeps_modify; solve [sound_field]
  | |- keeps sound (on_store _) => apply keeps_modify; solve [sound_field]
  | |- keeps sound (notify_error _ _) => apply keeps_modify; solve [sound_field]
  | |- keeps sound (answer _ _) => apply keeps_modify; solve [sound_field]
  | |- keeps sound (post_main _) => apply keeps_modify; solve [sound_field]
  end.

Lemma sound_canProduce kind : keeps sound (device_canProduce kind).
Proof. intros r. unfold device_canProduce, bind. cbn. destruct (mMediasoupDevice r); split; auto. Qed.
Lemma sound_pause n : keeps sound (pauseConsumer n).
Proof. unfold pauseConsumer, consumer_pause. keep. Qed.
Lemma sound_resume n : keeps sound (resumeConsumer n).
Proof. unfold resumeConsumer, consumer_resume. keep. Qed.
Lemma sound_dispose : keeps sound disposeTransportDevice.
Proof.
  unfold disposeTransportDevice, close_send, close_recv, producer_transport_closed, consumer_transport_closed, forget_mic, forget_cam. keep.
Qed.
#[local] Hint Resolve sound_canProduce sound_pause sound_resume sound_dispose : keeps.
Lemma sound_close : keeps sound close.
Proof. unfold close. keep. Qed.
Lemma sound_closeCam text : keeps sound (closeCamProducer text).
Proof. unfold closeCamProducer, producer_close. keep. Qed.
Lemma sound_openVideo type : keeps sound (openVideoTrack type).
Proof. unfold openVideoTrack, releaseVideoTrack. keep. Qed.
#[local] Hint Resolve sound_close sound_closeCam sound_openVideo : keeps.
Lemma sound_disableCam : keeps sound disableCamImpl.
Proof. unfold disableCamImpl. keep. Qed.
Lemma sound_disableShare b : keeps sound (disableShareImpl b).
Proof. unfold disableShareImpl, releaseVideoTrack. keep. Qed.
Lemma sound_produceVideo type use name : keeps sound (produceVideo type use name).
Proof. unfold produceVideo, ready. keep. Qed.
#[local] Hint Resolve sound_disableCam sound_disableShare sound_produceVideo : keeps.
Lemma sound_join : keeps sound joinImpl.
Proof. unfold joinImpl, add_listed_peer. keep. Qed.
Lemma sound_perform w : keeps sound (perform w).
Proof.
  destruct w; cbn [perform]; unfold handleRequest, onNewConsumer, onNewDataConsumer, closeImpl, enableMicImpl, disableMicImpl, muteMicImpl,
    unmuteMicImpl, enableCamImpl, enableShareImpl, for_kind, restartIceImpl, restartTransport, requestKeyFrameImpl, changeDisplayNameImpl,
    ready, producer_close, store_producer_paused; keep; auto using sound_join, sound_notification.
Qed.

Lemma sound_run_work : keeps sound run_work.
Proof.
  intros r. unfold run_work, bind. cbn [get]. destruct (worker r) as [[|w q]|]; [reflexivity| |reflexivity]. cbn [put].
  etrans; [|apply sound_perform]. split; auto.
Qed.
Lemma sound_act a : keeps sound (act a).
Proof.
  destruct a; cbn [act]; try apply sound_run_work; try apply sound_close.
  all: unfold joinRoom, enableMic, disableMic, muteMic, unmuteMic, enableCam, disableCam, enableShare, startEnableShare, disableShare,
    enableAudioOnly, disableAudioOnly, muteAudio, unmuteAudio, restartIce, requestConsumerKeyFrame, changeDisplayName, if_connecting,
    enableCam, disableCam, room_onOpen, room_onFail, room_onRequest, room_onNotification, room_onDisconnected, room_onClose, onConnect; try solve [keep].
  intros r. unfold run_main, bind. cbn [get]. destruct (main r) as [|c q]; [reflexivity|]. cbn [put]. etrans; [|destruct c;
    [apply sound_post|apply (keeps_bind sound); [apply keeps_modify; sound_field|intros _; apply sound_post]|apply sound_close]]. split; auto.
Qed.
Lemma valid_after l s roomId peerId name link options cb : valid (after l (newRoomClient s roomId peerId name link options cb)).
Proof.
  apply after_invariant; [intros a r; apply sound_valid, sound_act|]. split; [intros n [(t & id & [=] & _)|[[=]|[=]]]|intros n (t & id & [=] & _)].
Qed.

(** Closing visits objects that exist, and so returns. *)
Lemma forget_mic_ok r : valid r -> (forget_mic r).1 = Ok tt.
Proof.
  intros [Hp _]. unfold forget_mic, producer_at, bind. cbn. destruct (mMicProducer r) as [n|] eqn:E; [|done]. cbn.
  destruct (lookup_lt_is_Some_2 (heap_producers r) n) as [p ->]; [|done]. apply Hp. right. by left.
Qed.
Lemma forget_cam_ok r : valid r -> (forget_cam r).1 = Ok tt.
Proof.
  intros [Hp _]. unfold forget_cam, producer_at, bind. cbn. destruct (mCamProducer r) as [n|] eqn:E; [|done]. cbn.
  destruct (lookup_lt_is_Some_2 (heap_producers r) n) as [p ->]; [|done]. apply Hp. right. by right.
Qed.
Lemma sound_producer_closed n : keeps sound (producer_transport_closed n).
Proof. unfold producer_transport_closed, forget_mic, forget_cam. keep. Qed.
Lemma producer_closed_ok n r : valid r -> (n < length (heap_producers r))%nat -> (producer_transport_closed n r).1 = Ok tt.
Proof.
  intros Hv Hn. unfold producer_transport_closed, producer_at, bind. cbn. destruct (lookup_lt_is_Some_2 _ _ Hn) as [p Hp]. rewrite Hp. cbn.
  assert (valid (with_heap_producers (alter set_p_closed n (heap_producers r)) r)) as Hv' by (eapply sound_valid; [apply (sound_change_producer n set_p_closed r)|done]).
  destruct (p_purpose p); [| |by apply forget_cam_ok]; destruct (isConnecting (with_heap_producers _ r)); cbn [when]; [by apply forget_mic_ok|done|by apply forget_cam_ok|done].
Qed.
Lemma consumer_closed_ok n r : (n < length (heap_consumers r))%nat -> (consumer_transport_closed n r).1 = Ok tt.
Proof.
  intros Hn. unfold consumer_transport_closed, consumer_at, bind. cbn. destruct (lookup_lt_is_Some_2 _ _ Hn) as [c ->]. done.
Qed.
Lemma sound_consumer_closed n : keeps sound (consumer_transport_closed n).
Proof. unfold consumer_transport_closed. keep. Qed.

Lemma producers_closed_ok l r : valid r -> (forall n, n ∈ l -> (n < length (heap_producers r))%nat) -> (for_list l producer_transport_closed r).1 = Ok tt.
Proof.
  revert r. induction l as [|n l IH]; intros r Hv Hl; [done|]. cbn [for_list]. unfold bind.
  pose proof (producer_closed_ok n r Hv (Hl n ltac:(by constructor))) as E. pose proof (sound_producer_closed n r) as Hs.
  destruct (producer_transport_closed n r) as [o r1]. cbn [fst snd] in *. subst o. apply IH; [by eapply sound_valid|].
  intros m Hm. pose proof (so_p _ _ Hs). specialize (Hl m ltac:(by constructor)). lia.
Qed.
Lemma consumers_closed_ok l r : (forall n, n ∈ l -> (n < length (heap_consumers r))%nat) -> (for_list l consumer_transport_closed r).1 = Ok tt.
Proof.
  revert r. induction l as [|n l IH]; intros r Hl; [done|]. cbn [for_list]. unfold bind.
  pose proof (consumer_closed_ok n r (Hl n ltac:(by constructor))) as E. pose proof (sound_consumer_closed n r) as Hs.
  destruct (consumer_transport_closed n r) as [o r1]. cbn [fst snd] in *. subst o. apply IH.
  intros m Hm. pose proof (so_c _ _ Hs). specialize (Hl m ltac:(by constructor)). lia.
Qed.
Lemma elem_of_objects t n : n ∈ objects t <-> exists id, mt_objects t !! id = Some n.
Proof.
  unfold objects. rewrite list_elem_of_fmap. split.
  - intros ([id m] & -> & Hm%elem_of_map_to_list). by exists id.
  - intros [id Hm]. exists (id, n). split; [done|]. by apply elem_of_map_to_list.
Qed.

Lemma close_send_ok r : valid r -> exists r', close_send r = (Ok tt, r') /\ mSendTransport r' = None /\ sound r r'.
Proof.
  intros Hv. assert (exists r', close_send r = (Ok tt, r') /\ mSendTransport r' = None) as (r' & E & Hn).
  { unfold close_send, bind at 1. cbn [get]. destruct (mSendTransport r) as [t|] eqn:Et; [|by exists r].
    unfold bind. pose proof (producers_closed_ok (objects t) r Hv) as E. destruct (for_list _ _ r) as [o r1]. cbn [fst] in E. rewrite E; [by eexists|].
    intros n [id Hn]%elem_of_objects. apply Hv. left. by exists t, id. }
  exists r'. split; [done|]. split; [done|]. refine (kept sound _ _ _ _ _ E). unfold close_send. keep. apply sound_producer_closed.
Qed.
Lemma close_recv_ok r : valid r -> exists r', close_recv r = (Ok tt, r') /\ mRecvTransport r' = None /\ mSendTransport r' = mSendTransport r /\ mProtoo r' = mProtoo r.
Proof.
  intros Hv. unfold close_recv, bind at 1. cbn [get]. destruct (mRecvTransport r) as [t|] eqn:Et; [|by exists r].
  unfold bind. pose proof (consumers_closed_ok (objects t) r) as E.
  assert (keeps (fun r r' => mSendTransport r' = mSendTransport r /\ mProtoo r' = mProtoo r) (for_list (objects t) consumer_transport_closed)) as Hk.
  { apply keeps_for_list; [split; [done|]; intros ??? [] []; split; congruence|]. intros n r0. unfold consumer_transport_closed, consumer_at, bind. cbn.
    destruct (heap_consumers r0 !! n); [|done]. cbn. by destruct (isConnecting _). }
  specialize (Hk r). destruct (for_list _ _ r) as [o r1]. cbn [fst snd] in *. rewrite E.
  - eexists. split; [done|]. split; [done|exact Hk].
  - intros n [id Hn]%elem_of_objects. apply Hv. by exists t, id.
Qed.

Record released (r : room) : Prop := {
  rel_protoo : mProtoo r = false; rel_send : mSendTransport r = None; rel_recv : mRecvTransport r = None;
  rel_device : mMediasoupDevice r = None; rel_audio : mLocalAudioTrack r = false; rel_video : mLocalVideoTrack r = false;
  rel_worker : worker r = None }.

Lemma closeImpl_ok r : valid r -> exists r', closeImpl r = (Ok tt, r') /\ released r'.
Proof.
  intros Hv. unfold closeImpl, disposeTransportDevice. rewrite (bind_ok (modify (with_mProtoo false)) _ r (with_mProtoo false r) tt eq_refl).
  destruct (close_send_ok (with_mProtoo false r) Hv) as (r1 & E1 & Hs1 & Hso). pose proof (st_protoo _ _ (kept _ _ _ _ _ keeps_close_send E1)) as Hp1.
  destruct (close_recv_ok r1 (sound_valid _ _ Hso Hv)) as (r2 & E2 & Hr2 & Hs2 & Hp2).
  rewrite (bind_ok _ _ (with_mProtoo false r) (with_device None r2) tt) by (unfold bind; by rewrite E1, E2).
  eexists. split; [reflexivity|]. cbn in Hp1. split; cbn; [congruence|congruence|done..].
Qed.

(** *** The queue only grows, and closing puts its task into it *)

Definition progress (r r' : room) : Prop :=
  match worker r, worker r' with
  | Some q, Some q' => exists extra, q' = q ++ extra /\ (mClosed r' = true -> mClosed r = true \/ WClose ∈ extra)
  | None, None => True
  | _, _ => False
  end.
#[export] Instance progress_preorder : PreOrder progress.
Proof.
  split.
  - intros r. unfold progress. destruct (worker r) as [q|]; [|done]. exists []. rewrite app_nil_r. auto.
  - intros r1 r2 r3. unfold progress. destruct (worker r1) as [q1|], (worker r2) as [q2|], (worker r3) as [q3|]; try done.
    intros (e1 & -> & H1) (e2 & -> & H2). exists (e1 ++ e2). rewrite app_assoc. split; [done|]. intros Hc. rewrite elem_of_app.
    destruct (H2 Hc) as [Hc'|?]; [|auto]. destruct (H1 Hc'); auto.
Qed.
Lemma progress_same r r' : worker r' = worker r -> mClosed r' = mClosed r -> progress r r'.
Proof. intros Hw Hc. unfold progress. rewrite Hw, Hc. destruct (worker r); [|done]. exists []. rewrite app_nil_r. auto. Qed.
Lemma progress_post w : keeps progress (post w).
Proof. apply keeps_modify. intros r. unfold progress. destruct (worker r) as [q|] eqn:E; [cbn; exists [w]; auto|by rewrite E]. Qed.
Lemma progress_tell e : keeps progress (tell e).
Proof. apply keeps_modify. intros r. destruct (connectCallback r); by apply progress_same. Qed.
Lemma progress_native op args : keeps progress (call_native op args).
Proof. intros r. unfold call_native, bind. cbn. destruct (native _ _ _); by apply progress_same. Qed.
Lemma progress_request m q : keeps progress (syncRequest m q).
Proof. intros r. unfold syncRequest, bind. cbn. destruct (mProtoo r); [|reflexivity]. cbn. destruct (reply _ _ _); by apply progress_same. Qed.
Lemma progress_non_null {A} (o : option A) : keeps progress (non_null o).
Proof. intros r. destruct o; reflexivity. Qed.
Lemma progress_json t : keeps progress (jsonObject t).
Proof. intros r. unfold jsonObject. destruct (new_JSONObject t); reflexivity. Qed.
Lemma progress_null {A} : keeps progress (@null A).
Proof. intros r. reflexivity. Qed.
Lemma progress_close : keeps progress close.
Proof.
  intros r. unfold close, post, on_store, modify, progress, bind. cbn. destruct (mClosed r) eqn:E; cbn.
  - destruct (worker r) as [q|]; [|done]. exists []. rewrite app_nil_r. auto.
  - destruct (worker r) as [q|] eqn:Ew; cbn; [|by rewrite Ew]. exists [WClose]. split; [done|]. intros _. right. by constructor.
Qed.
Lemma progress_if_deleted n : keeps progress (modify (fun r => if isConnecting r then with_mConsumers (delete n (mConsumers r)) r else r)).
Proof. apply keeps_modify. intros r. destruct (isConnecting r); by apply progress_same. Qed.
Lemma progress_with_holder id k : (forall h, keeps progress (k h)) -> keeps progress (with_holder id k).
Proof. intros Hk r. unfold with_holder, bind. cbn. destruct (mConsumers r !! id); [apply Hk|reflexivity]. Qed.
#[local] Hint Resolve progress_post progress_tell progress_native progress_request progress_non_null progress_json progress_null progress_close
  progress_if_deleted : keeps.
#[local] Ltac keep_special ::=
  match goal with
  | |- keeps progress (bind get (fun r => let _ := _ in _)) => cbv zeta
  | |- keeps progress (bind get (fun r => bind (put _) _)) => apply keeps_get_put; [apply _|by intros; apply progress_same|intros ? ?]
  | |- keeps progress _ => solve [auto with keeps nocore]
  | |- keeps progress (with_holder _ _) => apply progress_with_holder
  | |- keeps progress (modify _) => apply keeps_modify; by intros; apply progress_same
  | |- keeps progress (on_store _) => apply keeps_modify; by intros; apply progress_same
  | |- keeps progress (notify_error _ _) => apply keeps_modify; by intros; apply progress_same
  | |- keeps progress (answer _ _) => apply keeps_modify; by intros; apply progress_same
  | |- keeps progress (post_main _) => apply keeps_modify; by intros; apply progress_same
  | |- keeps progress (change_producer _ _) => apply keeps_modify; by intros; apply progress_same
  | |- keeps progress (change_consumer _ _) => apply keeps_modify; by intros; apply progress_same
  end.
Lemma progress_canProduce kind : keeps progress (device_canProduce kind).
Proof. intros r. unfold device_canProduce, bind. cbn. destruct (mMediasoupDevice r); [by apply progress_same|reflexivity]. Qed.
Lemma progress_dispose : keeps progress disposeTransportDevice.
Proof.
  unfold disposeTransportDevice, close_send, close_recv, producer_transport_closed, consumer_transport_closed, forget_mic, forget_cam, producer_at,
    consumer_at. keep.
Qed.
Lemma progress_produce kind use : keeps progress (produce kind use).
Proof. unfold produce, onProduce, fetchProduceId. keep. Qed.
#[local] Hint Resolve progress_canProduce progress_dispose progress_produce : keeps.
Lemma progress_closeCam text : keeps progress (closeCamProducer text).
Proof. unfold closeCamProducer, producer_close, producer_at. keep. Qed.
Lemma progress_openVideo type : keeps progress (openVideoTrack type).
Proof. unfold openVideoTrack, releaseVideoTrack. keep. Qed.
#[local] Hint Resolve progress_closeCam progress_openVideo : keeps.
Lemma progress_disableCam : keeps progress disableCamImpl.
Proof. unfold disableCamImpl. keep. Qed.
Lemma progress_disableShare b : keeps progress (disableShareImpl b).
Proof. unfold disableShareImpl, releaseVideoTrack. keep. Qed.
Lemma progress_produceVideo type use name : keeps progress (produceVideo type use name).
Proof. unfold produceVideo, ready, producer_at. keep. Qed.
Lemma progress_join : keeps progress joinImpl.
Proof. unfold joinImpl, createTransport, add_listed_peer. keep. Qed.
Lemma progress_pause n : keeps progress (pauseConsumer n).
Proof. unfold pauseConsumer, consumer_pause, consumer_at. keep. Qed.
Lemma progress_resume n : keeps progress (resumeConsumer n).
Proof. unfold resumeConsumer, consumer_resume, consumer_at. keep. Qed.
Lemma progress_notification n : keeps progress (handleNotification n).
Proof. unfold handleNotification, consumer_close, consumer_at. keep. Qed.
#[local] Hint Resolve progress_disableCam progress_disableShare progress_produceVideo progress_join progress_pause progress_resume
  progress_notification : keeps.
Lemma progress_perform w : closes w = false -> keeps progress (perform w).
Proof.
  intros Hw. destruct w; try discriminate Hw; cbn [perform]; unfold handleRequest, onNewConsumer, onNewDataConsumer, consume, enableMicImpl,
    disableMicImpl, muteMicImpl, unmuteMicImpl, enableCamImpl, enableShareImpl, for_kind, restartIceImpl, restartTransport, requestKeyFrameImpl,
    changeDisplayNameImpl, ready, producer_close, producer_at, consumer_at, store_producer_paused; keep.
Qed.

Definition is_work (a : action) : bool := match a with AWork => true | _ => false end.
Lemma progress_act a : is_work a = false -> keeps progress (act a).
Proof.
  intros Ha. destruct a; try discriminate Ha; cbn [act]; try apply progress_close.
  all: unfold joinRoom, enableMic, disableMic, muteMic, unmuteMic, enableCam, disableCam, enableShare, startEnableShare, disableShare,
    enableAudioOnly, disableAudioOnly, muteAudio, unmuteAudio, restartIce, requestConsumerKeyFrame, changeDisplayName, if_connecting,
    enableCam, disableCam, room_onOpen, room_onFail, room_onRequest, room_onNotification, room_onDisconnected, room_onClose, onConnect; try solve [keep].
  intros r. unfold run_main, bind. cbn [get]. destruct (main r) as [|c q]; [reflexivity|]. cbn [put]. etrans; [by apply (progress_same r (with_main q r))|].
  destruct c; [apply progress_post| |apply progress_close]. apply (keeps_bind progress); [|intros _; apply progress_post].
  apply keeps_modify. by intros; apply progress_same.
Qed.

(** Nothing is posted to the worker any more, and the rest is only touched by it. *)
Definition same_released (r r' : room) : Prop := released r -> released r'.
#[export] Instance same_released_preorder : PreOrder same_released.
Proof. split; unfold same_released; red; auto. Qed.
Lemma released_post w : keeps same_released (post w).
Proof. apply keeps_modify. intros r Hr. by rewrite (rel_worker _ Hr). Qed.
Lemma released_field f : (forall r, mProtoo (f r) = mProtoo r /\ mSendTransport (f r) = mSendTransport r /\ mRecvTransport (f r) = mRecvTransport r /\
  mMediasoupDevice (f r) = mMediasoupDevice r /\ mLocalAudioTrack (f r) = mLocalAudioTrack r /\ mLocalVideoTrack (f r) = mLocalVideoTrack r /\
  worker (f r) = worker r) -> keeps same_released (modify f).
Proof. intros Hf. apply keeps_modify. intros r []. destruct (Hf r) as (? & ? & ? & ? & ? & ? & ?). split; congruence. Qed.
Lemma released_non_null {A} (o : option A) : keeps same_released (non_null o).
Proof. intros r. by destruct o. Qed.
Lemma released_null {A} : keeps same_released (@null A).
Proof. intros r. done. Qed.
#[local] Hint Resolve released_post released_non_null released_null : keeps.
#[local] Ltac keep_special ::=
  match goal with
  | |- keeps same_released (on_store _) => by apply released_field
  | |- keeps same_released (modify _) => by apply released_field
  end.
Lemma released_close : keeps same_released close.
Proof. unfold close. keep. Qed.
Lemma released_act a : keeps same_released (act a).
Proof.
  destruct a; cbn [act]; try apply released_close.
  all: unfold joinRoom, enableMic, disableMic, muteMic, unmuteMic, enableCam, disableCam, enableShare, startEnableShare, disableShare,
    enableAudioOnly, disableAudioOnly, muteAudio, unmuteAudio, restartIce, requestConsumerKeyFrame, changeDisplayName, if_connecting,
    enableCam, disableCam, room_onOpen, room_onFail, room_onRequest, room_onNotification, room_onDisconnected, room_onClose, onConnect; try solve [keep].
  - intros r Hr. unfold run_work, bind. cbn. by rewrite (rel_worker _ Hr).
  - intros r Hr. unfold run_main, bind. cbn [get]. destruct (main r) as [|c q]; [done|]. cbn [put].
    assert (released (with_main q r)) as Hr' by by destruct Hr; split.
    destruct c; [by apply released_post| |by apply released_close]. apply (keeps_bind same_released (on_store (setCamInProgress true))); [|intros _; apply released_post|done].
    by apply released_field.
Qed.
Lemma released_after l r : released r -> released (after l r).
Proof. apply after_invariant. apply released_act. Qed.

(** A closed room has been released or its last task waits. *)
Record ending_inv (r : room) : Prop := {
  ci_valid : valid r;
  ci_released : worker r = None -> released r;
  ci_waits : mClosed r = true -> forall q, worker r = Some q -> WClose ∈ q }.
Lemma progress_closing r r' : progress r r' -> sound r r' -> (released r -> released r') -> ending_inv r -> ending_inv r'.
Proof.
  unfold progress. intros Hp Hs Hr [Hv Hre Hw]. split; [by eapply sound_valid|..].
  - intros Hn. rewrite Hn in Hp. destruct (worker r); [done|auto].
  - intros Hc q' Hq'. rewrite Hq' in Hp. destruct (worker r) as [q|]; [|done]. destruct Hp as (extra & -> & He). rewrite elem_of_app.
    destruct (He Hc) as [Hc'|?]; [left; by apply Hw|by right].
Qed.

Lemma close_work_run r q : valid r -> worker r = Some (WClose :: q) -> exists r', run_work r = (Ok tt, r') /\ released r'.
Proof.
  intros Hv Hw. unfold run_work, bind. cbn [get]. rewrite Hw. cbn [put perform]. by apply closeImpl_ok.
Qed.
Lemma closing_run_work r : ending_inv r -> ending_inv (run_work r).2.
Proof.
  intros [Hv Hre Hw]. destruct (worker r) as [[|w q]|] eqn:Eq.
  - unfold run_work, bind. cbn. rewrite Eq. cbn. split; [done|by rewrite Eq|by rewrite Eq].
  - destruct (closes w) eqn:Ew.
    + destruct w; try discriminate Ew. destruct (close_work_run r q Hv Eq) as (r' & E' & Hr'). pose proof (sound_run_work r) as Hs. rewrite E' in *.
      cbn in *. split; [by eapply sound_valid|done|by rewrite (rel_worker _ Hr')].
    + unfold run_work, bind. cbn [get]. rewrite Eq. cbn [put].
      apply (progress_closing (with_worker (Some q) r)); [by apply progress_perform|apply sound_perform|by intros [? ? ? ? ? ? [=]]|].
      split; [exact Hv|done|]. cbn. intros Hc q' [= <-]. specialize (Hw Hc _ eq_refl). apply elem_of_cons in Hw as [<-|?]; [discriminate Ew|done].
  - unfold run_work, bind. cbn. rewrite Eq. cbn. split; [done|by rewrite Eq|by rewrite Eq].
Qed.
Lemma closing_act a r : ending_inv r -> ending_inv (act a r).2.
Proof.
  intros Hr. destruct (is_work a) eqn:Ea; [destruct a; try discriminate Ea; by apply closing_run_work|].
  apply (progress_closing r); [by apply progress_act|apply sound_act|apply released_act|done].
Qed.
Lemma closing_after l s roomId peerId name link options cb : ending_inv (after l (newRoomClient s roomId peerId name link options cb)).
Proof. apply after_invariant; [intros a r; apply closing_act|]. split; [apply (valid_after [])|done|done]. Qed.

(** C21: However a room is used, once it is closed its last task waits in the
    queue of the worker or has run.  The task does not fail: it ends the
    signalling client, both transports, the device and the tracks, and the worker;
    and nothing that is called afterwards brings any of these back. *)
Theorem room_released l s roomId peerId name link options cb :
  let r := after l (newRoomClient s roomId peerId name link options cb) in
  (mClosed r = true -> released r \/ exists q, worker r = Some q /\ WClose ∈ q) /\
  (forall q, worker r = Some (WClose :: q) ->
     exists r', run_work r = (Ok tt, r') /\ forall l', released (after l' r')).
Proof.
  intros r. pose proof (closing_after l s roomId peerId name link options cb : ending_inv r) as [Hv Hre Hw]. split.
  - intros Hc. destruct (worker r) as [q|] eqn:Eq; [right|left; auto]. exists q. split; [done|]. by apply Hw.
  - intros q Hq. destruct (close_work_run r q Hv Hq) as (r' & E' & Hr'). exists r'. split; [done|]. intros l'. by apply released_after.
Qed.

(** ** While the signalling connection is lost *)

Lemma disposed_device r r' : disposeTransportDevice r = (Ok tt, r') -> mMediasoupDevice r' = None.
Proof.
  unfold disposeTransportDevice. intros E. apply bind_returns in E as (? & ? & _ & E). apply bind_returns in E as (? & ? & _ & E).
  by injection E as <-.
Qed.
Lemma disconnected_device r r' : perform WDisconnected r = (Ok tt, r') -> mMediasoupDevice r' = None.
Proof.
  cbn [perform]. intros E. apply bind_returns in E as (? & ? & _ & E). apply bind_returns in E as (? & ? & _ & E).
  apply bind_returns in E as ([] & r2 & E2 & E). apply disposed_device in E2. revert E. unfold tell, modify. intros [= <-].
  by destruct (connectCallback r2).
Qed.

(** After the room has handled the loss of its connection, and until it
    joins again, switching on the microphone or the camera ends the task of the
    worker in a NullPointerException that nothing catches. *)
Theorem devices_while_disconnected r r' utils : perform WDisconnected r = (Ok tt, r') -> isConnecting r' = true ->
  mPeerConnectionUtils r' = Some utils ->
  (mMicProducer r' = None -> perform WEnableMic r' = (Throw (Java NullPointerException), r')) /\
  (mCamProducer r' = None -> perform WEnableCam r' = (Throw (Java NullPointerException), r')).
Proof.
  intros Hd%disconnected_device Hc Hu. split; intros Hp; cbn [perform]; unfold enableMicImpl, enableCamImpl, produceVideo, try_catch, ready, bind; cbn;
    rewrite Hc; cbn; rewrite Hu, Hp; cbn; by rewrite Hd.
Qed.

(** *** Peers *)

Definition knows (r : room) (id : string) : Prop := obj_lookup id (peers (mStore r)) <> None.
Definition peers_kept (r r' : room) : Prop := forall id, knows r id -> knows r' id.
#[export] Instance peers_kept_preorder : PreOrder peers_kept.
Proof. split; unfold peers_kept; red; auto. Qed.
Lemma linked_put_knows k p m id : obj_lookup id m <> None -> obj_lookup id (linked_put k p m) <> None.
Proof.
  unfold linked_put. destruct (obj_lookup k m) eqn:Ek.
  - clear Ek. induction m as [|[k' v'] m IH]; cbn; [done|]. destruct (String.eqb_spec k k') as [->|Hk]; cbn.
    + by destruct (String.eqb id k').
    + destruct (String.eqb id k'); auto.
  - clear Ek. induction m as [|[k' v'] m IH]; cbn; [done|]. destruct (String.eqb id k'); auto.
Qed.
Ltac same_peers := intros id Hid; exact Hid.
Lemma peers_store f : (forall s, peers (f s) = peers s) -> keeps peers_kept (on_store f).
Proof. intros Hf. apply keeps_modify. intros r id. unfold knows. cbn. by rewrite Hf. Qed.
Lemma peers_native op args : keeps peers_kept (call_native op args).
Proof. intros r. unfold call_native, bind. cbn. destruct (native _ _ _); same_peers. Qed.
Lemma peers_request m q : keeps peers_kept (syncRequest m q).
Proof. intros r. unfold syncRequest, bind. cbn. destruct (mProtoo r); [|reflexivity]. cbn. destruct (reply _ _ _); same_peers. Qed.
Lemma peers_json t : keeps peers_kept (jsonObject t).
Proof. intros r. unfold jsonObject. destruct (new_JSONObject t); reflexivity. Qed.
Lemma peers_non_null {A} (o : option A) : keeps peers_kept (non_null o).
Proof. intros r. destruct o; reflexivity. Qed.
Lemma peers_tell e : keeps peers_kept (tell e).
Proof. apply keeps_modify. intros r. destruct (connectCallback r); same_peers. Qed.
Lemma peers_deleted n : keeps peers_kept (modify (fun r => if isConnecting r then with_mConsumers (delete n (mConsumers r)) r else r)).
Proof. apply keeps_modify. intros r. destruct (isConnecting r); same_peers. Qed.
Lemma peers_listed v : keeps peers_kept (add_listed_peer v).
Proof.
  unfold add_listed_peer. destruct v; try (apply keeps_throw; apply _). apply keeps_modify. intros r id Hid. by apply linked_put_knows.
Qed.
#[local] Hint Resolve peers_native peers_request peers_json peers_non_null peers_tell peers_deleted peers_listed : keeps.
#[local] Ltac keep_special ::=
  match goal with
  | |- keeps peers_kept (bind get (fun r => bind (put _) _)) => apply keeps_get_put; [apply _|intros ?; same_peers|intros ? ?]
  | |- keeps peers_kept _ => solve [auto with keeps nocore]
  | |- keeps peers_kept (on_store _) => by apply peers_store
  | |- keeps peers_kept (modify _) => apply keeps_modify; intros ?; same_peers
  | |- keeps peers_kept (post_main _) => apply keeps_modify; intros ?; same_peers
  | |- keeps peers_kept (change_producer _ _) => apply keeps_modify; intros ?; same_peers
  | |- keeps peers_kept (change_consumer _ _) => apply keeps_modify; intros ?; same_peers
  end.
Lemma peers_canProduce kind : keeps peers_kept (device_canProduce kind).
Proof. intros r. unfold device_canProduce, bind. cbn. destruct (mMediasoupDevice r); same_peers. Qed.
#[local] Hint Resolve peers_canProduce : keeps.
Lemma peers_disconnected : keeps peers_kept (perform WDisconnected).
Proof.
  cbn [perform]. unfold disposeTransportDevice, close_send, close_recv, producer_transport_closed, consumer_transport_closed, forget_mic, forget_cam,
    producer_at, consumer_at. keep.
Qed.
Lemma peers_join : keeps peers_kept (perform WJoin).
Proof. cbn [perform]. unfold joinImpl, createTransport. keep. Qed.

(** A peer that the store knows when the connection is lost is still there
    after the room has joined again, whoever the server then lists. *)
Theorem left_peers_stay r id : knows r id -> knows (perform WJoin (perform WDisconnected r).2).2 id.
Proof. intros Hid. by apply peers_join, peers_disconnected. Qed.
End life.

(** ** Witnesses *)

Definition sample_closing : list action := sample_video ++ [ACloseRoom].
Lemma room_released_witness : let r := run_room sample_closing in
  mClosed r = true /\ worker r = Some [WClose] /\
  exists r', run_work (H := room_json) (H0 := room_env) r = (Ok tt, r') /\
    forall l, released (after (H := room_json) (EV := room_env) l r').
Proof.
  split; [vm_compute; reflexivity|]. split; [vm_compute; reflexivity|].
  apply (proj2 (room_released (H := room_json) (EV := room_env) sample_closing newRoomStore "room" "me" "Me" "link" sample_options None) []).
  vm_compute. reflexivity.
Defined.

Lemma devices_while_disconnected_witness : let r := run_room sample_join in
  let r' := (perform (H := room_json) (H0 := room_env) WDisconnected r).2 in
  perform (H := room_json) (H0 := room_env) WEnableMic r' = (Throw (Java NullPointerException), r').
Proof.
  refine (proj1 (devices_while_disconnected (H := room_json) (EV := room_env) (run_room sample_join) _ None _ _ _) _); vm_compute; reflexivity.
Defined.

Lemma left_peers_stay_witness : let r := run_room sample_join in
  knows r "alice" /\ knows (perform (H := room_json) (H0 := room_env) WJoin (perform (H := room_json) (H0 := room_env) WDisconnected r).2).2 "alice".
Proof.
  assert (Hk : knows (run_room sample_join) "alice") by (vm_compute; discriminate).
  split; [exact Hk|]. apply (left_peers_stay (H := room_json) (EV := room_env) _ _ Hk).
Defined.

(** Closing a room while it joins leaves it shown as connected, with the
    peers of the room: the task that joins runs after the store was cleared. *)
Theorem closed_room_shown_connected :
  let r := run_room [AWork; AJoinRoom; AWork; AOnOpen; ACloseRoom; AWork; AWork] in
  mClosed r = true /\ worker r = None /\ mConnectionState (roomInfo (mStore r)) = CONNECTED /\
  map mId (getAllPeers (peers (mStore r))) = ["alice"%string].
Proof. vm_compute. auto. Qed.

